(* ===== verification/_CoqProject ===== *)
-Q . S2P
Prelude.v
Sha.v
Rsa.v
Buff.v
Io.v
Packet.v
Dlist.v
Fdevent.v
Sockets.v
Transport.v
Lifecycle.v
Trackers.v
BootImg.v
Fastboot.v
FastbootMain.v
FbUsb.v
FileSync.v
SyncDirs.v
SyncPush.v
SyncPull.v
Services.v
Alloc.v
Pmem.v
Bip.v
Win32.v
WinEvent.v
RilEvent.v
RilParcel.v
RilDispatch.v
RilResponse.v
RilTables.v
AdbClient.v
Jdwp.v
HostRequest.v
AdbShell.v
Commandline.v
Install.v
ServiceFd.v
Ril.v
RilInvariant.v
RilRuns.v
