(* ===== verification/Prelude.v ===== *)
(** * Verification of the host and device tools of device-twm-t1

    The repository is the Android device tree of the T1 phone.  Its own program
    logic in C is under tools/: adb (the debug bridge: a server on the host and a
    daemon on the device that carry streams over USB or TCP, tools/adb), fastboot
    (the boot loader client, tools/fastboot) and mkbootimg with the mincrypt
    library (boot images, SHA-1 and RSA, tools/mkbootimg).  The libraries of the
    phone are C++; of these the memory allocators of gralloc (libgralloc) and the
    radio layer (libril: its event loop and the request daemon) are modelled.

    ** Parts, files and correspondence

    - [Prelude] (this file): machine integers as [Z] with their wraps ([u32],
      [i32], ...), bytes, little- and big-endian words, stores into C objects,
      and [outcome], the result of code that can stop the process ([Stop]) or run
      into undefined behaviour ([Undef]: a freed or null pointer, a store outside
      an object).
    - [Sha], [Rsa]: sha.c and rsa.c of mincrypt.  Module [Sha] is the streaming
      code on the context record; module [Fips] is the standard; module [Rsa] the
      multi-word arithmetic and the signature check.
    - [Buff]: utils.c, the bounded string builders; vsnprintf is a class with its
      documented contract, and two instances.
    - [Io]: readx, writex and the loops like them (transport.c) over the list of
      results the system calls will give.
    - [Packet]: amessage and apacket (adb.h), send_packet's seal, check_header and
      check_data, remote_read and remote_write of transport_local.c and
      transport_usb.c.
    - [Dlist]: every intrusive circular list of adb on a heap of next and prev
      pointers, refined to lists of pointers; the other components use lists of
      pointers on this ground.
    - [Fdevent]: fdevent.c (select variant): state [loop], one definition per
      function, the callers' obligations as [pre], reachability by the operations.
    - [Sockets]: sockets.c and the packet dispatcher of adb.c (handle_packet,
      parse_banner, send_ready and the like), with sockets in a heap, the local and
      closing lists, the list lock, the transports' disconnect lists, and the
      descriptors as channels of results.  Handlers are the function pointers of the code.
      Module [Streams] has the fd event handler, the smart socket and the listeners.
    - [Transport]: acquire_one_transport, list_transports, the table of local
      transports, is_adb_interface.
    - [Lifecycle]: registration, the two threads, kick, reference counts and
      removal of transports (transport.c, transport_local.c) as interleaved steps,
      and the walks over the list of transports; module [Pump] has the packet filter
      of input_thread and output_thread.
    - [Trackers]: the device trackers of transport.c, the clients of track-devices.
    - [BootImg]: mkbootimg of fastboot (bootimg.c) and the mkbootimg tool
      (mkbootimg.c), with the documented layout as a reader.
    - [Fastboot]: protocol.c and engine.c, the device as a list of replies.
    - [FastbootMain]: fastboot.c whole: the command line, the requirements and the
      packages, which fill the queue that Fastboot's engine runs; files, the zip
      library, the environment and the bus are the class [Surroundings].
    - [FbUsb]: usb_linux.c of fastboot whole: device files and descriptors over the class
      [UsbFs] with the laws [UsbFsLaws], transfers over the results of their calls.
    - [FileSync]: file_sync_service.c and the file transfers of
      file_sync_client.c, over the classes [FileSystem] (the calls) and
      [FileSystemLaws] (what the code relies on), with an instance in memory.
      [SyncDirs]: the rest of file_sync_client.c, the lists of files and the commands
      ls, push, pull and sync.  [SyncPush] and [SyncPull] run these commands against
      the service; [FileSystemFrame] adds that a call leaves other files alone.
    - [Services]: framebuffer_service.c, log_service.c, remount_service.c and the
      services of services.c that run behind a connection.  [ServiceFd]: service_to_fd
      and the services of the server, over the class [ServiceOps] of the system's
      calls with the descriptors they give in [ServiceLaws].

    - [AdbClient]: adb_client.c, the client's side of the server's protocol, over
      the class [Host] of connecting to a server and launching one.
    - The adb command (commandline.c, console.c), in three files.  [AdbShell]: the
      quoting of words, with a reader of POSIX shell text, and the interactive shell,
      its two threads as steps.  [Commandline]: flags, commands and paths over
      AdbClient and SyncDirs; the class [Machine] is the environment and the host's
      paths, [Around] what else happens around the process.  [Install]: adb install
      joined to the device's service, and the waiting for a device.
    - [HostRequest]: adb.c's listeners (install_listener, remove_listener,
      free_listener) and handle_host_request with connect_device and
      connect_emulator, in the host build, over the class [HostOps].
    - [Jdwp]: jdwp_service.c whole: the virtual machines and their descriptors, the
      jdwp and track-jdwp services; recv, sendmsg and accept are lists of results.
    - [Bip]: the pipes of sysdeps_win32.c (bip_buffer_write, bip_buffer_read,
      bip_buffer_close) with their calls as interleaved steps of threads.
    - [Win32]: the descriptor table of sysdeps_win32.c, its files, sockets and
      socket pairs, over the class [Win32] of the system's functions.
    - [WinEvent]: the event loop of sysdeps_win32.c, with the hooks of its files,
      sockets and pipes; the system's events and the pollers are records.
    - [Alloc]: allocator.h and allocator.cpp of libgralloc.  Module [LinkedList] is
      the template, module [BestFit] the allocator; the class [AllocatorLaws] is
      what an allocator promises its client, discharged by [best_fit_laws].
    - [Pmem]: pmemalloc.cpp, modules [Userspace] (against [AllocatorLaws]) and
      [Kernel]; the driver is the class [Deps].
    - [RilEvent]: ril_event.cpp whole: timers and pending events on the linked lists
      of Dlist, the watch table, one turn of the loop; select and the callbacks are
      parameters.
    - The request daemon of libril/ril.cpp, in seven files.  [RilParcel]: the
      classes [Parcel] and [Jstring] of the platform's parcels and text with their
      laws, the reader of a parcel, the layouts of the wire.  [RilDispatch]: the
      fourteen dispatch functions that take a request's data apart for the vendor's
      library.  [RilResponse]: the functions that lay an answer out.  [RilTables]:
      ril_commands.h and ril_unsol_commands.h as the two tables, and
      requestToString.  [Ril]: the state of the daemon, one definition per function
      from processCommandBuffer to RIL_onUnsolicitedResponse, and [step], what the
      sockets, the timers and the vendor's library can do next.  [RilInvariant]: the
      invariant over every order of these steps.  [RilRuns]: an answer's way, and
      concrete runs.

    The parts meet as in the code: Packet and FileSync use the stream semantics of Io,
    Sockets uses the event loop's flags and the packets, Lifecycle and Transport use
    the socket layer's transports, BootImg calls Sha, FastbootMain puts BootImg's
    images on Fastboot's queue, FbUsb finds the interfaces that FastbootMain chooses from
    and its transfers are Fastboot's replies and writes ([usb_read_reply],
    [usb_write_spec]), SyncPush and SyncPull join the two ends of FileSync,
    Commandline runs AdbClient's requests and SyncDirs' copies, ServiceFd starts the
    services of Services and FileSync and makes the trackers of Trackers, AdbClient
    reads what Sockets' sendfailmsg and HostRequest's answers write, Jdwp and
    HostRequest print lists with Transport's loop, Win32's socket pairs are made of
    Bip's pipes, Pmem is a client of the interface that Alloc implements, WinEvent
    waits on Bip's pipes, and Ril puts the dispatch and response functions and the
    tables together.

    ** What the theorems show

    - Safety of the packet path: any packet is handled without a bad access and with
      the socket invariant kept ([handle_packet_safe]); closing a transport terminates
      and leaves no socket behind ([close_all_sockets_complete]); data are kept in
      order ([local_socket_enqueue_stream]).
    - Directories: adb push and adb pull bring every file of a tree to the other side
      ([push_dir_roundtrip], [pull_dir_roundtrip]), adb sync what is not there yet
      ([sync_roundtrip]) or, when only asked, nothing ([sync_dry_run]); the lists they
      work on are complete ([local_list_complete]) and end in every file system
      ([listings_end]).
    - The adb command: a package is installed under the name it was copied to, or the
      package manager is told nothing ([install_roundtrip]); the interactive shell keeps
      its streams and ends when it is told to ([shell_streams]); it waits for the device
      it talks to ([waits_for_its_device]) and finds the nearest top of a build tree
      ([find_top_from_nearest]).
    - fastboot: nothing is written unless the device meets every requirement of the
      package ([flash_after_requirements]), and these are the ones that were written
      down ([requirements_roundtrip]); its USB back end reads any device's descriptors as
      they are laid out ([filter_reads_descriptors]) and leaves none open that it does
      not return ([usb_open_sound]).
    - Services: a service that cannot be started leaves no descriptor behind
      ([service_descriptors]); an upload says OKAY only for a whole file
      ([recover_reports]); a snapshot is the screen's ([framebuffer_roundtrip]); the
      clients of track-devices always have the current list
      ([device_trackers_current]).
    - The event loop: its four representations of interest agree in every
      reachable state ([loop_safe]) and events reach their fdevents
      ([process_delivers]).
    - Transports: in every interleaving a transport is freed once, after its
      threads ([transport_lifecycle]); stale packets are dropped
      ([input_thread_filters]); selection and tables ([acquire_any_unique],
      [init_socket_transport_unique], [list_transports_text]).
    - Round trips: packets ([remote_roundtrip], [usb_roundtrip], [remote_read_safe]),
      files ([push_roundtrip], [pull_roundtrip]), boot images
      ([fastboot_mkbootimg_layout], [mkbootimg_tool_layout]).
    - Refinements: SHA-1 to FIPS 180 ([SHA_correct], [SHA_update_app]), RSA to modular
      arithmetic ([modpow3_correct], [RSA_verify_correct]), pointer lists to lists
      ([insert_appends], [remove_deletes], [dequeue_first]), streams to what they deliver
      ([readx_delivers], [writex_sends]).
    - Fastboot: the download conversation, the order of the queue
      ([fb_download_conversation], [execute_queue_app]).
    - The client's protocol: a query brings back the server's answer
      ([query_roundtrip]); adb devices works end to end ([devices_query]).
    - Forwarded ports stay tied to their transports and sockets
      ([forwards_consistent]).
    - Debugging: no event sequence breaks the JDWP services ([jdwp_safe]), trackers
      have the current list ([trackers_current]), a debugger reaches its machine
      ([debugger_reaches]).
    - The Windows port: a pipe is a bounded queue under every interleaving
      ([pipe_is_queue]) without lost wake-ups ([no_lost_wakeup]); descriptors
      ([descriptors_safe]) and socket pairs ([pair_roundtrip]); its event loop keeps
      hooks, fdevents and descriptors consistent ([win_loop_safe]) and passes on what
      is signalled ([win_turn_delivers]).
    - Memory of the phone's graphics: blocks do not overlap and requests are refused
      only when nothing fits ([allocate_sound_and_complete]), nothing is lost
      ([free_all_whole]), and so for the buffers handed out over failing system
      calls ([buffers_apart]).
    - The radio's event loop: a turn fires what is due and nothing else
      ([loop_turn_fires]), timers stay sorted and select's arguments exact
      ([ril_state_consistent], [next_timeout_bound]).
    - The radio's requests: what is marshalled is taken apart as it was
      ([dispatch_takes_apart]), what the vendor answers can be read back
      ([response_reads_back]) and answers of the wrong shape are refused
      ([bad_response_refused]); in every order of steps a request is answered at
      most once and under its own token ([answered_once]), the daemon makes no bad
      access of its own ([no_freed_request]), the wake lock is released when its time is
      over ([wake_lock_released]), an answer reaches the client
      ([answer_delivered]) and a network time that nobody heard is kept for the
      next client ([nitz_kept_and_delivered]).
    - Where the code does not do what it means to, a theorem exhibits it:
      [fdevent_del_still_signals], [register_64bit_garbage], [close_sends_clse],
      [local_peer_error_use_after_free], [early_write_null_peer], [banner_overread],
      [unregister_use_after_free], [local_transport_double_close],
      [sync_recv_overrun], [do_list_overrun]; and, in the newer files,
      [empty_request_frees_other], [huge_request_granted], [write_after_close],
      [end_of_stream_is_error], [loopback_server_leaks], [socketpair_null],
      [shutdown_any_class], [pending_deletion_crashes], [ninth_event_dropped],
      [command_leaks], [version_closed_twice], [version_overruns],
      [console_port_use_after_free], [negative_pid_spins], [minus_one_matches],
      [long_host_overread], [empty_port_unset], [okay_truncated],
      [writable_reported_readable], [both_wanted_spins], [read_error_not_seen],
      [load_file_overrun], [dangling_link_first], [dangling_link_dropped],
      [unreadable_directory_ignored], [link_taken_for_file], [remote_name_escapes],
      [last_line_ignored], [oem_overflow], [product_text_overread],
      [flash_raw_overread], [short_kernel], [begun_after_failure], [sent_too_much],
      [screencap_hangs], [negative_format], [log_goes_on], [stale_mount],
      [terminal_leaks], [tcpip_port_unset], [wait_without_pair],
      [negative_count], [wrapping_count], [null_raw_not_null],
      [raw_too_long], [card_not_checked], [config_not_checked],
      [invalid_block_is_kept], [late_answer], [closed_twice], [debug_off_asserts],
      [refused_event_releases], [short_write_loses], [inner_quotes_lost],
      [log_tags_keep_backslash], [name_not_protected], [long_words_overrun],
      [long_command_never_sent], [bare_name_read], [product_of_next_word],
      [kill_of_nothing], [window_stays_offline], [missing_endpoint_is_255].

    ** Fuel

    Loops that are not structural carry fuel, and running out of it is neither success
    nor a modelled error: theorems that conclude [Done], [Some] or a returned value
    show that it is enough.  readx and writex get one turn per result and one more;
    the file loops one per byte and result; the service one per byte of input (a
    request takes eight); SHA_final 64 padding steps; close_all_sockets one restart
    per local socket; close handlers a depth of 8, more than a socket and its peer
    closing each other need; event dispatch one turn per pending fdevent; the timer
    list of RilEvent one turn per known event; find_emulator one per character of the
    device list; local_build_list a depth of PATH_MAX, as a path grows on the way
    down, and remote_build_list of 1026, as sync_ls refuses longer paths; the words of
    fastboot's command line one turn each; the upload and the snapshot one turn per
    byte to come; the walks over the transports one per node; the shown output of a
    connection one turn per result and byte; find_top_from one per character.  Only
    the adb command's waiting for a device has a bound that is no fact of the code:
    [tries], how often the server is asked.

    ** Not modelled

    Operating-system access (adb's USB back ends and fastboot's for other systems, the
    threads that connect to emulators
    and phones), adb_main and launch_server of adb.c, the trace output, the other C++
    libraries of the phone (audio, camera, graphics, sensors) and the recovery
    screens.  Of ril.cpp: the start of the event thread and its wake-up pipe (the loop
    is RilEvent's), the strings of its log, and the real interleaving inside one
    callback: each callback is one step, and RIL_onRequestComplete two, before and
    after it takes the request off the list.  The kernel's scheduling appears only as
    the order of steps; memory that runs out (malloc failing) is not modelled. *)

From stdpp Require Export base tactics list strings gmap sets.
From Stdlib Require Export ZArith Lia.

Open Scope Z_scope.

(** ** Machine integers

    A C integer of width [w] is the [Z] it denotes; every operation that can
    leave the range of its type is followed by the wrap of that type. *)

Definition u8 (z : Z) : Z := z mod 2 ^ 8.
Definition u16 (z : Z) : Z := z mod 2 ^ 16.
Definition u32 (z : Z) : Z := z mod 2 ^ 32.
Definition u64 (z : Z) : Z := z mod 2 ^ 64.

(** Conversion to a two's complement [int]. *)
Definition i32 (z : Z) : Z := (z + 2 ^ 31) mod 2 ^ 32 - 2 ^ 31.
Definition i64 (z : Z) : Z := (z + 2 ^ 63) mod 2 ^ 64 - 2 ^ 63.

Definition is_u8 (z : Z) : Prop := 0 <= z < 2 ^ 8.
Definition is_u32 (z : Z) : Prop := 0 <= z < 2 ^ 32.

#[export] Instance is_u8_dec z : Decision (is_u8 z).
Proof. unfold is_u8. apply _. Defined.
#[export] Instance is_u32_dec z : Decision (is_u32 z).
Proof. unfold is_u32. apply _. Defined.

(** Decide a closed proposition by evaluation. *)
Ltac by_compute := apply (bool_decide_unpack _); vm_compute; exact I.

(** Bitwise complement of a 32-bit word. *)
Definition not32 (z : Z) : Z := Z.lxor z (2 ^ 32 - 1).

Lemma u8_range z : 0 <= u8 z < 2 ^ 8.
Proof. apply Z.mod_pos_bound; lia. Qed.
Lemma u32_range z : 0 <= u32 z < 2 ^ 32.
Proof. apply Z.mod_pos_bound; lia. Qed.
Lemma u64_range z : 0 <= u64 z < 2 ^ 64.
Proof. apply Z.mod_pos_bound; lia. Qed.

Lemma u8_small z : 0 <= z < 2 ^ 8 -> u8 z = z.
Proof. apply Z.mod_small. Qed.
Lemma u32_small z : 0 <= z < 2 ^ 32 -> u32 z = z.
Proof. apply Z.mod_small. Qed.
Lemma u64_small z : 0 <= z < 2 ^ 64 -> u64 z = z.
Proof. apply Z.mod_small. Qed.

Lemma i32_small z : - 2 ^ 31 <= z < 2 ^ 31 -> i32 z = z.
Proof. intros ?. unfold i32. rewrite Z.mod_small; lia. Qed.

(** A word is its low bits: testing a bit of a wrapped value. *)
Lemma testbit_mod_pow2 z w i :
  0 <= i -> 0 <= w -> Z.testbit (z mod 2 ^ w) i = (i <? w) && Z.testbit z i.
Proof.
  intros Hi Hw. destruct (Z.ltb_spec i w).
  - by rewrite Z.mod_pow2_bits_low by lia.
  - by rewrite Z.mod_pow2_bits_high by lia.
Qed.

(** Equality of words bit by bit, when the bit specifications of the operators
    decide it. *)
Ltac bitwise :=
  apply Z.bits_inj'; let i := fresh "i" in intros i ?;
  repeat first [rewrite Z.lxor_spec | rewrite Z.land_spec | rewrite Z.lor_spec
               | rewrite testbit_mod_pow2 by lia];
  repeat match goal with
         | |- context [Z.testbit ?a i] => destruct (Z.testbit a i)
         | |- context [?a <? ?b] => destruct (a <? b)
         end; try reflexivity.

Lemma u32_land a b : u32 (Z.land a b) = Z.land (u32 a) (u32 b).
Proof. unfold u32. bitwise. Qed.
Lemma u32_lor a b : u32 (Z.lor a b) = Z.lor (u32 a) (u32 b).
Proof. unfold u32. bitwise. Qed.
Lemma u32_lxor a b : u32 (Z.lxor a b) = Z.lxor (u32 a) (u32 b).
Proof. unfold u32. bitwise. Qed.

Lemma is_u8_u8 z : is_u8 (u8 z).
Proof. apply u8_range. Qed.
Lemma is_u32_u32 z : is_u32 (u32 z).
Proof. apply u32_range. Qed.
Lemma is_u32_land a b : is_u32 a -> is_u32 b -> is_u32 (Z.land a b).
Proof. intros Ha Hb. rewrite <- (u32_small a), <- (u32_small b), <- u32_land; auto using is_u32_u32. Qed.
Lemma is_u32_lor a b : is_u32 a -> is_u32 b -> is_u32 (Z.lor a b).
Proof. intros Ha Hb. rewrite <- (u32_small a), <- (u32_small b), <- u32_lor; auto using is_u32_u32. Qed.
Lemma is_u32_lxor a b : is_u32 a -> is_u32 b -> is_u32 (Z.lxor a b).
Proof. intros Ha Hb. rewrite <- (u32_small a), <- (u32_small b), <- u32_lxor; auto using is_u32_u32. Qed.

(** A number below [2^k] and a multiple of [2^k] have no common bit. *)
Lemma lor_add hi lo k :
  0 <= k -> 0 <= lo < 2 ^ k -> Z.lor (hi * 2 ^ k) lo = hi * 2 ^ k + lo.
Proof.
  intros Hk Hlo. symmetry. apply Z.add_nocarry_lor.
  apply Z.bits_inj'. intros i Hi. rewrite Z.land_spec, Z.bits_0.
  destruct (Z.ltb_spec i k).
  - by rewrite Z.mul_pow2_bits_low.
  - rewrite <- (Z.mod_small lo (2 ^ k)) by lia.
    rewrite (Z.mod_pow2_bits_high lo) by lia. apply andb_false_r.
Qed.

(** Wrapping sums: an inner wrap is absorbed by an outer one. *)
Lemma u32_add_l a b : u32 (u32 a + b) = u32 (a + b).
Proof. apply Zplus_mod_idemp_l. Qed.
Lemma u32_add_r a b : u32 (a + u32 b) = u32 (a + b).
Proof. apply Zplus_mod_idemp_r. Qed.

Create HintDb word.
#[export] Hint Resolve u32_range is_u8_u8 is_u32_u32 is_u32_land is_u32_lor is_u32_lxor : word.

Lemma is_u32_testbit_high z i : is_u32 z -> 32 <= i -> Z.testbit z i = false.
Proof.
  intros Hz Hi. rewrite <- (Z.mod_small z (2 ^ 32)) by apply Hz.
  by rewrite Z.mod_pow2_bits_high by lia.
Qed.

(** ** Bytes and byte strings

    A byte is a [Z] in [0, 256); a C string is the list of its bytes without
    the terminating zero, a C buffer is a list of bytes of the buffer's size. *)

Abbreviation bytes := (list Z).

Fixpoint bs (s : string) : bytes :=
  match s with
  | EmptyString => []
  | String c s' => Z.of_nat (Ascii.nat_of_ascii c) :: bs s'
  end.

(** Big-endian bytes of a 32-bit word ([*p++ = tmp >> 24] and so on). *)
Definition be32 (w : Z) : bytes :=
  [u8 (Z.shiftr w 24); u8 (Z.shiftr w 16); u8 (Z.shiftr w 8); u8 (Z.shiftr w 0)].

(** Little-endian bytes of a word: how [memcpy] of an [unsigned] reads on the
    little-endian hosts the tools are built for. *)
Fixpoint le_split (n : nat) (w : Z) : bytes :=
  match n with
  | O => []
  | S n' => w mod 2 ^ 8 :: le_split n' (w / 2 ^ 8)
  end.

Fixpoint le_combine (l : bytes) : Z :=
  match l with
  | [] => 0
  | b :: l' => b + 2 ^ 8 * le_combine l'
  end.

Lemma length_le_split n w : length (le_split n w) = n.
Proof. revert w; induction n; intros w; simpl; auto. Qed.

Lemma le_combine_split n w : le_combine (le_split n w) = w mod 2 ^ (8 * Z.of_nat n).
Proof.
  revert w; induction n as [|n IH]; intros w; cbn [le_split le_combine].
  - by rewrite Z.mod_1_r.
  - rewrite IH. replace (8 * Z.of_nat (S n)) with (8 + 8 * Z.of_nat n) by lia.
    rewrite Z.pow_add_r by lia. rewrite Z.rem_mul_r by lia. lia.
Qed.

Lemma le_split_bytes n w : Forall is_u8 (le_split n w).
Proof.
  revert w; induction n; intros w; cbn [le_split]; constructor; auto.
  apply Z.mod_pos_bound; lia.
Qed.

Lemma le_combine_bound l :
  Forall is_u8 l -> 0 <= le_combine l < 2 ^ (8 * Z.of_nat (length l)).
Proof.
  induction 1 as [|b l Hb _ IH]; cbn [le_combine length]; [lia|].
  replace (8 * Z.of_nat (S (length l))) with (8 + 8 * Z.of_nat (length l)) by lia.
  rewrite Z.pow_add_r by lia. unfold is_u8 in Hb. nia.
Qed.

Lemma le_split_combine l :
  Forall is_u8 l -> le_split (length l) (le_combine l) = l.
Proof.
  induction 1 as [|b l Hb Hl IH]; cbn [le_combine length le_split]; [done|].
  unfold is_u8 in Hb.
  rewrite (Z.mul_comm (2 ^ 8)), Z.mod_add, Z.mod_small by lia.
  rewrite Z.div_add, Z.div_small, Z.add_0_l by lia. by rewrite IH.
Qed.

(** ** C objects in memory

    An object is the list of its bytes; a store outside of it is [None]. *)

Definition store (mem : bytes) (i : nat) (b : Z) : option bytes :=
  if decide (i < length mem)%nat then Some (<[i := b]> mem) else None.

(** [memcpy(mem + off, data, length data)] *)
Definition store_bytes (mem : bytes) (off : nat) (data : bytes) : option bytes :=
  if decide (off + length data <= length mem)%nat
  then Some (take off mem ++ data ++ drop (off + length data) mem)
  else None.

(** The C string that starts at the beginning of a buffer: the bytes before the
    first zero byte, or [None] when there is none. *)
Fixpoint cstring (mem : bytes) : option bytes :=
  match mem with
  | [] => None
  | b :: mem' => if b =? 0 then Some [] else cons b <$> cstring mem'
  end.

(** Bytes of a C string: no zero byte among them. *)
Abbreviation no_nul := (Forall (fun b => b <> 0)).

(** The C string in a buffer that may not end it. *)
Fixpoint until_nul (s : bytes) : bytes :=
  match s with [] => [] | b :: s => if b =? 0 then [] else b :: until_nul s end.

Lemma until_nul_id s : no_nul s -> until_nul s = s.
Proof. induction 1 as [|b s Hb _ IH]; [done|]. cbn. by rewrite (proj2 (Z.eqb_neq b 0) Hb), IH. Qed.

(** "%d" of an int. *)
Fixpoint decn (fuel : nat) (n : Z) : bytes :=
  match fuel with
  | O => []
  | S fuel => if n <? 10 then [48 + n] else decn fuel (n / 10) ++ [48 + n mod 10]
  end.
Definition decimal (n : Z) : bytes := if n <? 0 then 45 :: decn 11 (- n) else decn 11 n.

(** isspace, and the white space that the strto* functions skip. *)
Definition is_space (c : Z) : bool := (c =? 32) || ((9 <=? c) && (c <=? 13)).
Fixpoint skip_space (s : bytes) : bytes :=
  match s with c :: s' => if is_space c then skip_space s' else s | [] => [] end.

Lemma cstring_app s rest : no_nul s -> cstring (s ++ 0 :: rest) = Some s.
Proof.
  induction 1 as [|b s Hb _ IH]; [done|]. cbn [cstring app].
  rewrite (proj2 (Z.eqb_neq b 0) Hb), IH. done.
Qed.

Lemma length_store mem i b mem' : store mem i b = Some mem' -> length mem' = length mem.
Proof. unfold store. case_decide; [|done]. intros [= <-]. apply length_insert. Qed.

Lemma store_app (a rest : bytes) (x b : Z) :
  store (a ++ x :: rest) (length a) b = Some (a ++ b :: rest).
Proof.
  unfold store. rewrite decide_True by (rewrite length_app; cbn; lia).
  by rewrite insert_app_r_alt, Nat.sub_diag by lia.
Qed.

Lemma store_bytes_app (a old rest data : bytes) :
  length old = length data ->
  store_bytes (a ++ old ++ rest) (length a) data = Some (a ++ data ++ rest).
Proof.
  intros Hl. unfold store_bytes.
  rewrite decide_True by (rewrite !length_app; lia).
  by rewrite take_app_length, <- Hl, <- length_app, (app_assoc a old), drop_app_length.
Qed.

Lemma store_bytes_0 (mem data : bytes) :
  (length data <= length mem)%nat ->
  store_bytes mem 0 data = Some (data ++ drop (length data) mem).
Proof. intros Hl. unfold store_bytes. by rewrite decide_True, take_0 by lia. Qed.

(** ** Outcomes

    A C function that can stop the process ([exit], [abort], [fatal]) or run into
    undefined behaviour (a dangling or null pointer) returns an [outcome]. *)

Inductive outcome (A : Type) :=
| Done (a : A)
| Stop (why : string)
| Undef (why : string).
Arguments Done {A} a.
Arguments Stop {A} why.
Arguments Undef {A} why.

#[export] Instance outcome_ret : MRet outcome := fun A a => Done a.
#[export] Instance outcome_bind : MBind outcome := fun A B k m =>
  match m with Done a => k a | Stop w => Stop w | Undef w => Undef w end.

(** Dereference of a pointer. *)
Definition deref {A} (w : string) (o : option A) : outcome A :=
  match o with Some a => Done a | None => Undef w end.

Lemma bind_Done {A B} (m : outcome A) (k : A -> outcome B) b :
  m ≫= k = Done b -> exists a, m = Done a /\ k a = Done b.
Proof. destruct m; [eauto|done..]. Qed.

Lemma bind_assoc {A B C} (m : outcome A) (k : A -> outcome B) (l : B -> outcome C) :
  (m ≫= k) ≫= l = m ≫= (fun a => k a ≫= l).
Proof. by destruct m. Qed.

(** Take apart a computation that is known to have finished. *)
Ltac inv_done H :=
  let a := fresh "r" in let E := fresh "E" in
  apply bind_Done in H as (a & E & H).

Lemma filter_all {A} (P : A -> Prop) `{!forall x, Decision (P x)} (l : list A) :
  (forall x, x ∈ l -> P x) -> filter P l = l.
Proof.
  induction l as [|a l IH]; intros HP; [done|]. rewrite filter_cons_True by (apply HP; set_solver).
  f_equal. apply IH. set_solver.
Qed.

Lemma filter_ext_in {A} (P Q : A -> Prop) `{!forall x, Decision (P x), !forall x, Decision (Q x)} (l : list A) :
  (forall x, x ∈ l -> P x <-> Q x) -> filter P l = filter Q l.
Proof.
  induction l as [|x l IH]; intros HPQ; [done|]. rewrite !filter_cons. specialize (HPQ x ltac:(by left)) as Hx.
  rewrite IH by (intros y Hy; apply HPQ; by right). destruct (decide (P x)), (decide (Q x)); tauto.
Qed.

(** ** Flag words: single bits *)

Lemma land_bit st k : 0 <= k -> negb (Z.land st (2 ^ k) =? 0) = Z.testbit st k.
Proof.
  intros Hk. destruct (Z.testbit st k) eqn:E.
  - destruct (Z.eqb_spec (Z.land st (2 ^ k)) 0) as [H|]; [|done].
    apply (f_equal (fun z => Z.testbit z k)) in H.
    by rewrite Z.land_spec, E, Z.pow2_bits_true, Z.bits_0 in H.
  - assert (Z.land st (2 ^ k) = 0) as ->; [|done].
    apply Z.bits_inj'. intros i Hi. rewrite Z.land_spec, Z.bits_0.
    destruct (decide (i = k)) as [->|Hne]; [by rewrite E|].
    rewrite Z.pow2_bits_false, andb_false_r by done. done.
Qed.
