(* ===== verification/Sha.v ===== *)
(** * SHA-1 of mincrypt (tools/mkbootimg/sha.c)

    [Sha] is the C code: a context with a 64-byte buffer, a byte count and five
    chaining words, the block transform, and the streaming interface
    SHA_init / SHA_update / SHA_final / SHA.  [Fips] is the reference: FIPS 180
    padding, message schedule, round functions and iteration over blocks, on
    whole messages.  The theorems show that the streaming code computes the
    reference digest however the input is cut into updates. *)

From S2P Require Import Prelude.

Module Sha.

(** [#define rol(bits, value)]: the macro on [uint32_t] operands. *)
Definition rol (bits value : Z) : Z :=
  Z.lor (u32 (Z.shiftl value bits)) (Z.shiftr value (32 - bits)).

Record SHA_CTX := mk_ctx { count : Z; buf : bytes; state : list Z }.

(** Read of a [uint32_t] array. *)
Definition wnth (W : list Z) (t : nat) : Z := nth t W 0.

(** First loop of the transform: sixteen big-endian words of the buffer. *)
Fixpoint load_words (n : nat) (p : bytes) : list Z :=
  match n, p with
  | S n', b0 :: b1 :: b2 :: b3 :: p' =>
      Z.lor (Z.lor (Z.lor (u32 (Z.shiftl b0 24)) (u32 (Z.shiftl b1 16)))
                   (u32 (Z.shiftl b2 8))) b3 :: load_words n' p'
  | _, _ => []
  end.

(** Second loop: [W[t] = rol(1, W[t-3] ^ W[t-8] ^ W[t-14] ^ W[t-16])]. *)
Definition expand_step (W : list Z) (t : nat) : list Z :=
  W ++ [rol 1 (Z.lxor (Z.lxor (Z.lxor (wnth W (t - 3)) (wnth W (t - 8)))
                              (wnth W (t - 14))) (wnth W (t - 16)))].

Record regs := mk_regs { rA : Z; rB : Z; rC : Z; rD : Z; rE : Z }.

(** Body of the third loop. *)
Definition round (W : list Z) (r : regs) (t : nat) : regs :=
  let '(mk_regs A B C D E) := r in
  let tmp := u32 (u32 (rol 5 A + E) + wnth W t) in
  let tmp :=
    if (t <? 20)%nat then
      u32 (tmp + u32 (Z.lxor D (Z.land B (Z.lxor C D)) + 0x5A827999))
    else if (t <? 40)%nat then
      u32 (tmp + u32 (Z.lxor (Z.lxor B C) D + 0x6ED9EBA1))
    else if (t <? 60)%nat then
      u32 (tmp + u32 (Z.lor (Z.land B C) (Z.land D (Z.lor B C)) + 0x8F1BBCDC))
    else
      u32 (tmp + u32 (Z.lxor (Z.lxor B C) D + 0xCA62C1D6)) in
  mk_regs tmp A (rol 30 B) C D.

Definition SHA1_transform (ctx : SHA_CTX) : SHA_CTX :=
  let W := foldl expand_step (load_words 16 (buf ctx)) (seq 16 64) in
  let r := mk_regs (wnth (state ctx) 0) (wnth (state ctx) 1) (wnth (state ctx) 2)
                   (wnth (state ctx) 3) (wnth (state ctx) 4) in
  let '(mk_regs A B C D E) := foldl (round W) r (seq 0 80) in
  mk_ctx (count ctx) (buf ctx)
    [u32 (wnth (state ctx) 0 + A); u32 (wnth (state ctx) 1 + B);
     u32 (wnth (state ctx) 2 + C); u32 (wnth (state ctx) 3 + D);
     u32 (wnth (state ctx) 4 + E)].

(** SHA_init sets the words and the count and leaves [buf] as it was. *)
Definition SHA_init (ctx : SHA_CTX) : SHA_CTX :=
  mk_ctx 0 (buf ctx)
    [0x67452301; 0xEFCDAB89; 0x98BADCFE; 0x10325476; 0xC3D2E1F0].

(** One iteration of [while (len--)]. *)
Definition update_byte (st : Z * SHA_CTX) (b : Z) : Z * SHA_CTX :=
  let '(i, ctx) := st in
  let ctx := mk_ctx (count ctx) (<[Z.to_nat i := b]> (buf ctx)) (state ctx) in
  let i := i + 1 in
  if i =? 64 then (0, SHA1_transform ctx) else (i, ctx).

Definition SHA_update (ctx : SHA_CTX) (data : bytes) : SHA_CTX :=
  let i := i32 (count ctx mod 64) in
  let ctx := mk_ctx (u64 (count ctx + Z.of_nat (length data))) (buf ctx) (state ctx) in
  (foldl update_byte (i, ctx) data).2.

(** [while ((ctx->count % 64) != 56) SHA_update(ctx, zero byte, 1)]; [None] when
    the fuel runs out. *)
Fixpoint pad_loop (fuel : nat) (ctx : SHA_CTX) : option SHA_CTX :=
  if count ctx mod 64 =? 64 - 8 then Some ctx
  else match fuel with
       | O => None
       | S fuel' => pad_loop fuel' (SHA_update ctx [0])
       end.

(** [for (i = 0; i < 8; ++i)]: the bit count, most significant byte first. *)
Definition length_bytes (cnt : Z) : bytes :=
  (fun i : nat => u8 (Z.shiftr cnt ((7 - Z.of_nat i) * 8))) <$> seq 0 8.

(** SHA_final; the digest is written over the first 20 bytes of [buf]. *)
Definition SHA_final (ctx : SHA_CTX) : option SHA_CTX :=
  let cnt := u64 (count ctx * 8) in
  let ctx := SHA_update ctx [0x80] in
  ctx ← pad_loop 64 ctx;
  let ctx := foldl (fun c b => SHA_update c [b]) ctx (length_bytes cnt) in
  let out := concat (be32 <$> state ctx) in
  Some (mk_ctx (count ctx) (out ++ drop (length out) (buf ctx)) (state ctx)).

(** The convenience function: [ctx] is the uninitialised stack context. *)
Definition SHA (ctx : SHA_CTX) (data : bytes) : option bytes :=
  ctx ← SHA_final (SHA_update (SHA_init ctx) data);
  Some (take 20 (buf ctx)).

End Sha.

Module Fips.

(** ** Reference: FIPS 180, section 4 to 6 *)

Definition ROTL (n x : Z) : Z := (x * 2 ^ n) mod 2 ^ 32 + x / 2 ^ (32 - n).

Definition Ch (x y z : Z) : Z := Z.lxor (Z.land x y) (Z.land (not32 x) z).
Definition Parity (x y z : Z) : Z := Z.lxor x (Z.lxor y z).
Definition Maj (x y z : Z) : Z :=
  Z.lxor (Z.land x y) (Z.lxor (Z.land x z) (Z.land y z)).

Definition f (t : nat) : Z -> Z -> Z -> Z :=
  match (t / 20)%nat with 0%nat => Ch | 2%nat => Maj | _ => Parity end.
Definition K (t : nat) : Z :=
  match (t / 20)%nat with
  | 0%nat => 0x5A827999 | 1%nat => 0x6ED9EBA1
  | 2%nat => 0x8F1BBCDC | _ => 0xCA62C1D6
  end.

Definition pad (m : bytes) : bytes :=
  let l := Z.of_nat (length m) in
  m ++ [0x80] ++ replicate (Z.to_nat ((55 - l) mod 64)) 0
    ++ rev (le_split 8 (8 * l)).

(** Word [t] of a block, big-endian. *)
Definition block_word (blk : bytes) (t : nat) : Z :=
  le_combine (rev (take 4 (drop (4 * t) blk))).

(** The schedule newest word first: [W_t] at the head once [t] words are there. *)
Fixpoint schedule_rev (blk : bytes) (n : nat) : list Z :=
  match n with
  | O => []
  | S t =>
      let ws := schedule_rev blk t in
      (if (t <? 16)%nat then block_word blk t
       else ROTL 1 (Z.lxor (nth 2 ws 0) (Z.lxor (nth 7 ws 0)
                     (Z.lxor (nth 13 ws 0) (nth 15 ws 0))))) :: ws
  end.

Definition step (w : nat -> Z) (r : Sha.regs) (t : nat) : Sha.regs :=
  let '(Sha.mk_regs a b c d e) := r in
  Sha.mk_regs ((ROTL 5 a + f t b c d + e + K t + w t) mod 2 ^ 32) a (ROTL 30 b) c d.

Definition compress (H : list Z) (blk : bytes) : list Z :=
  let ws := rev (schedule_rev blk 80) in
  let h i := nth i H 0 in
  let '(Sha.mk_regs a b c d e) :=
    foldl (step (fun t => nth t ws 0))
          (Sha.mk_regs (h 0%nat) (h 1%nat) (h 2%nat) (h 3%nat) (h 4%nat)) (seq 0 80) in
  [(h 0%nat + a) mod 2 ^ 32; (h 1%nat + b) mod 2 ^ 32; (h 2%nat + c) mod 2 ^ 32;
   (h 3%nat + d) mod 2 ^ 32; (h 4%nat + e) mod 2 ^ 32].

(** Chain over the first [n] blocks of [m]. *)
Fixpoint chain (n : nat) (H : list Z) (m : bytes) : list Z :=
  match n with
  | O => H
  | S n' => chain n' (compress H (take 64 m)) (drop 64 m)
  end.

Definition H0 : list Z :=
  [0x67452301; 0xEFCDAB89; 0x98BADCFE; 0x10325476; 0xC3D2E1F0].

Definition digest (m : bytes) : bytes :=
  let p := pad m in
  concat ((fun w => rev (le_split 4 w)) <$> chain (length p / 64) H0 p).

End Fips.

(** ** The block transform computes the reference compression *)

Section transform.
Import Sha.

Lemma rol_ROTL n x : 0 < n < 32 -> is_u32 x -> rol n x = Fips.ROTL n x.
Proof.
  intros Hn Hx. unfold rol, Fips.ROTL, u32.
  rewrite Z.shiftl_mul_pow2, Z.shiftr_div_pow2 by lia.
  assert (Hs : (x * 2 ^ n) mod 2 ^ 32 = (x mod 2 ^ (32 - n)) * 2 ^ n).
  { replace (2 ^ 32) with (2 ^ (32 - n) * 2 ^ n).
    - apply Z.mul_mod_distr_r; lia.
    - rewrite <- Z.pow_add_r by lia. f_equal; lia. }
  rewrite Hs. apply lor_add; [lia|]. unfold is_u32 in Hx.
  split; [apply Z.div_pos; lia|].
  apply Z.div_lt_upper_bound; [lia|].
  rewrite <- Z.pow_add_r by lia. replace (32 - n + n) with 32 by lia. lia.
Qed.

Lemma is_u32_rol n x : 0 < n < 32 -> is_u32 x -> is_u32 (rol n x).
Proof.
  intros Hn Hx. apply is_u32_lor; [apply u32_range|].
  unfold is_u32 in *. rewrite Z.shiftr_div_pow2 by lia. split.
  - apply Z.div_pos; lia.
  - apply Z.div_lt_upper_bound; nia.
Qed.

Lemma Ch_eq b c d :
  is_u32 b -> is_u32 c -> is_u32 d ->
  Z.lxor d (Z.land b (Z.lxor c d)) = Fips.Ch b c d.
Proof.
  intros Hb Hc Hd. unfold Fips.Ch, not32. apply Z.bits_inj'. intros i Hi.
  rewrite !Z.lxor_spec, !Z.land_spec, !Z.lxor_spec.
  change (2 ^ 32 - 1) with (Z.ones 32). rewrite Z.testbit_ones_nonneg by lia.
  destruct (Z.ltb_spec i 32).
  - by destruct (Z.testbit b i), (Z.testbit c i), (Z.testbit d i).
  - by rewrite !is_u32_testbit_high.
Qed.

Lemma Maj_eq b c d :
  Z.lor (Z.land b c) (Z.land d (Z.lor b c)) = Fips.Maj b c d.
Proof. unfold Fips.Maj. bitwise. Qed.

Definition regs_ok (r : regs) : Prop :=
  is_u32 (rA r) /\ is_u32 (rB r) /\ is_u32 (rC r) /\ is_u32 (rD r) /\ is_u32 (rE r).

(** The four-way test on [t] selects the round function and constant. *)
Lemma round_select t b c d tmp :
  (t < 80)%nat -> is_u32 b -> is_u32 c -> is_u32 d ->
  (if (t <? 20)%nat then
     u32 (tmp + u32 (Z.lxor d (Z.land b (Z.lxor c d)) + 0x5A827999))
   else if (t <? 40)%nat then u32 (tmp + u32 (Z.lxor (Z.lxor b c) d + 0x6ED9EBA1))
   else if (t <? 60)%nat then
     u32 (tmp + u32 (Z.lor (Z.land b c) (Z.land d (Z.lor b c)) + 0x8F1BBCDC))
   else u32 (tmp + u32 (Z.lxor (Z.lxor b c) d + 0xCA62C1D6)))
  = u32 (tmp + (Fips.f t b c d + Fips.K t)).
Proof.
  intros Ht Hb Hc Hd. rewrite Ch_eq, Maj_eq, Z.lxor_assoc, !u32_add_r by done.
  unfold Fips.f, Fips.K.
  destruct (Nat.ltb_spec t 20), (Nat.ltb_spec t 40), (Nat.ltb_spec t 60); try lia.
  - by rewrite (Nat.div_small t 20).
  - by rewrite <- (Nat.div_unique t 20 1 (t - 20)) by lia.
  - by rewrite <- (Nat.div_unique t 20 2 (t - 40)) by lia.
  - by rewrite <- (Nat.div_unique t 20 3 (t - 60)) by lia.
Qed.

Lemma round_step W (w : nat -> Z) r t :
  (t < 80)%nat -> regs_ok r -> wnth W t = w t ->
  round W r t = Fips.step w r t /\ regs_ok (round W r t).
Proof.
  destruct r as [a b c d e]. intros Ht (Ha & Hb & Hc & Hd & He) Hw.
  cbn [rA rB rC rD rE] in *. unfold round, Fips.step. cbv beta iota zeta. rewrite Hw, round_select by done. split.
  - rewrite !rol_ROTL by (auto; lia). f_equal.
    rewrite u32_add_l, <- Z.add_assoc, u32_add_l. unfold u32. f_equal. lia.
  - unfold regs_ok; cbn -[rol]. split_and!; auto with word.
    apply is_u32_rol; auto; lia.
Qed.

Lemma rounds_steps W w ts r :
  Forall (fun t => t < 80 /\ wnth W t = w t)%nat ts -> regs_ok r ->
  foldl (round W) r ts = foldl (Fips.step w) r ts.
Proof.
  intros Hts. revert r. induction Hts as [|t ts [Ht Hw] _ IH]; intros r Hr; [done|].
  cbn. destruct (round_step W w r t Ht Hr Hw) as [<- Hok]. by apply IH.
Qed.

(** *** The message schedule *)

Lemma length_schedule_rev blk n : length (Fips.schedule_rev blk n) = n.
Proof. induction n; cbn [Fips.schedule_rev length]; auto. Qed.

Lemma block_word_u32 blk t : Forall is_u8 blk -> is_u32 (Fips.block_word blk t).
Proof.
  intros Hb. unfold Fips.block_word, is_u32.
  set (l := rev (take 4 (drop (4 * t) blk))).
  assert (Forall is_u8 l) as Hl.
  { unfold l. apply Forall_rev, Forall_take, Forall_drop, Hb. }
  assert (length l <= 4)%nat.
  { unfold l. rewrite length_rev, length_take. lia. }
  pose proof (le_combine_bound l Hl).
  assert (2 ^ (8 * Z.of_nat (length l)) <= 2 ^ 32) by (apply Z.pow_le_mono_r; lia).
  lia.
Qed.

Lemma nth_u32 ws n : Forall is_u32 ws -> is_u32 (nth n ws 0).
Proof.
  intros H. destruct (nth_in_or_default n ws 0) as [Hin | ->].
  - rewrite List.Forall_forall in H. auto.
  - unfold is_u32; lia.
Qed.

Lemma schedule_rev_u32 blk n :
  Forall is_u8 blk -> Forall is_u32 (Fips.schedule_rev blk n).
Proof.
  intros Hb. induction n as [|n IH]; cbn [Fips.schedule_rev]; constructor; [|done].
  case_match; [by apply block_word_u32|].
  rewrite <- rol_ROTL; [apply is_u32_rol|..]; try lia; auto using is_u32_lxor, nth_u32.
Qed.

Lemma load_words_spec n blk :
  Forall is_u8 blk -> (4 * n <= length blk)%nat ->
  load_words n blk = Fips.block_word blk <$> seq 0 n.
Proof.
  revert blk. induction n as [|n IH]; intros blk Hb Hlen; [done|].
  destruct blk as [|b0 [|b1 [|b2 [|b3 p]]]]; cbn [length] in Hlen; try lia.
  repeat match goal with H : Forall _ (_ :: _) |- _ => apply Forall_cons_1 in H as [? H] end.
  cbn [load_words]. change (seq 0 (S n)) with (0%nat :: seq 1 n).
  rewrite <- (fmap_S_seq 0 n), fmap_cons, <- list_fmap_compose. f_equal.
  - unfold Fips.block_word, is_u8 in *. cbn -[Z.mul Z.pow Z.add Z.lor u32 Z.shiftl].
    unfold u32. rewrite !Z.shiftl_mul_pow2, !Z.mod_small by lia.
    rewrite (lor_add b0 _ 24) by lia.
    replace (b0 * 2 ^ 24 + b1 * 2 ^ 16) with ((b0 * 2 ^ 8 + b1) * 2 ^ 16) by lia.
    rewrite lor_add by lia.
    replace ((b0 * 2 ^ 8 + b1) * 2 ^ 16 + b2 * 2 ^ 8)
      with ((b0 * 2 ^ 16 + b1 * 2 ^ 8 + b2) * 2 ^ 8) by lia.
    rewrite lor_add by lia. rewrite take_0. cbn [rev app le_combine]. lia.
  - rewrite IH by (auto; lia). apply list_fmap_ext. intros i t _.
    unfold Fips.block_word, compose. do 3 f_equal.
    by replace (4 * S t)%nat with (4 + 4 * t)%nat by lia.
Qed.

Lemma block_words_rev blk n :
  (n <= 16)%nat -> Fips.block_word blk <$> seq 0 n = rev (Fips.schedule_rev blk n).
Proof.
  induction n as [|n IH]; intros Hn; [done|].
  rewrite seq_S, fmap_app, IH by lia. cbn [Fips.schedule_rev rev].
  by destruct (Nat.ltb_spec n 16); [|lia].
Qed.

Lemma expand_step_spec blk m :
  Forall is_u8 blk -> (16 <= m)%nat ->
  expand_step (rev (Fips.schedule_rev blk m)) m = rev (Fips.schedule_rev blk (S m)).
Proof.
  intros Hb Hm. cbn [Fips.schedule_rev rev]. unfold expand_step. f_equal.
  pose proof (length_schedule_rev blk m) as Hlen.
  pose proof (schedule_rev_u32 blk m Hb) as Hws.
  revert Hlen Hws. generalize (Fips.schedule_rev blk m). intros ws Hlen Hws.
  unfold wnth. rewrite !rev_nth, Hlen by lia.
  replace (m - S (m - 3))%nat with 2%nat by lia.
  replace (m - S (m - 8))%nat with 7%nat by lia.
  replace (m - S (m - 14))%nat with 13%nat by lia.
  replace (m - S (m - 16))%nat with 15%nat by lia.
  destruct (Nat.ltb_spec m 16); [lia|].
  rewrite !Z.lxor_assoc, rol_ROTL; auto using is_u32_lxor, nth_u32; lia.
Qed.

Lemma expand_spec blk k n :
  Forall is_u8 blk -> (16 <= k)%nat ->
  foldl expand_step (rev (Fips.schedule_rev blk k)) (seq k n)
  = rev (Fips.schedule_rev blk (k + n)).
Proof.
  intros Hb. revert k. induction n as [|n IH]; intros k Hk.
  - by rewrite Nat.add_0_r.
  - rewrite Nat.add_succ_r, <- Nat.add_succ_l, <- IH by lia.
    change (seq k (S n)) with (k :: seq (S k) n).
    cbn [foldl]. by rewrite expand_step_spec.
Qed.

(** The transform is the reference compression of the buffer. *)
Lemma SHA1_transform_spec ctx :
  length (buf ctx) = 64%nat -> Forall is_u8 (buf ctx) -> Forall is_u32 (state ctx) ->
  SHA1_transform ctx = mk_ctx (count ctx) (buf ctx) (Fips.compress (state ctx) (buf ctx)).
Proof.
  intros Hlen Hb Hst. unfold SHA1_transform, Fips.compress.
  rewrite load_words_spec, block_words_rev, expand_spec by (auto; lia).
  replace (16 + 64)%nat with 80%nat by lia.
  rewrite (rounds_steps _ (fun t => nth t (rev (Fips.schedule_rev (buf ctx) 80)) 0)).
  - unfold wnth. by destruct (foldl _ _ _).
  - apply List.Forall_forall. intros t Ht. apply in_seq in Ht. split; [lia|done].
  - unfold regs_ok, wnth; cbn. split_and!; by apply nth_u32.
Qed.

Lemma compress_u32 H blk : Forall is_u32 (Fips.compress H blk).
Proof.
  unfold Fips.compress. destruct (foldl _ _ _).
  repeat constructor; apply Z.mod_pos_bound; lia.
Qed.
End transform.

(** ** Streaming *)

Section streaming.
Import Sha.

Lemma chain_app n H m x :
  (64 * n <= length m)%nat -> Fips.chain n H (m ++ x) = Fips.chain n H m.
Proof.
  revert H m. induction n as [|n IH]; intros H m Hlen; [done|]. cbn [Fips.chain].
  rewrite take_app_le, drop_app_le by lia. apply IH. rewrite length_drop. lia.
Qed.

Lemma chain_S_r n H m :
  Fips.chain (S n) H m = Fips.compress (Fips.chain n H m) (take 64 (drop (64 * n) m)).
Proof.
  revert H m. induction n as [|n IH]; intros H m; [done|].
  change (Fips.chain (S (S n)) H m)
    with (Fips.chain (S n) (Fips.compress H (take 64 m)) (drop 64 m)).
  rewrite IH, drop_drop. replace (64 + 64 * n)%nat with (64 * S n)%nat by lia.
  reflexivity.
Qed.

Lemma chain_u32 n m : Forall is_u32 (Fips.chain n Fips.H0 m).
Proof.
  destruct n; [|rewrite chain_S_r; apply compress_u32].
  repeat constructor; unfold is_u32; lia.
Qed.

Lemma length_chain n m : length (Fips.chain n Fips.H0 m) = 5%nat.
Proof.
  destruct n; [done|]. rewrite chain_S_r. unfold Fips.compress.
  by destruct (foldl _ _ _).
Qed.

(** What the context and the write index hold after the bytes [m]. *)
Record holds (i : Z) (ctx : SHA_CTX) (m : bytes) : Prop := {
  h_index : i = Z.of_nat (length m) mod 64;
  h_buf : length (buf ctx) = 64%nat;
  h_state : state ctx = Fips.chain (length m / 64) Fips.H0 m;
  h_tail : take (length m mod 64) (buf ctx) = drop (64 * (length m / 64)) m
}.

Lemma take_insert_snoc (l : bytes) i b :
  (i < length l)%nat -> take (S i) (<[i := b]> l) = take i l ++ [b].
Proof.
  intros Hi. rewrite (take_S_r _ _ b) by by apply list_lookup_insert_eq.
  by rewrite take_insert_ge.
Qed.

(** Length arithmetic of one more byte: the block either fills or does not. *)
Lemma length_snoc_cases (m : bytes) (b : Z) (q := (length m / 64)%nat)
    (r := (length m mod 64)%nat) :
  length (m ++ [b]) = (64 * q + S r)%nat /\ (r < 64)%nat /\
  ((r = 63 /\ length (m ++ [b]) / 64 = S q /\ length (m ++ [b]) mod 64 = 0)
   \/ (r < 63 /\ length (m ++ [b]) / 64 = q /\ length (m ++ [b]) mod 64 = S r))%nat.
Proof.
  pose proof (Nat.div_mod_eq (length m) 64) as Hdm. fold q r in Hdm.
  pose proof (Nat.mod_upper_bound (length m) 64 ltac:(lia)) as Hr. fold r in Hr.
  assert (length (m ++ [b]) = 64 * q + S r)%nat as -> by (rewrite length_app; cbn [length]; lia).
  split_and!; [done..|]. destruct (decide (r = 63)%nat); [left|right]; split_and!; try lia.
  - symmetry. apply (Nat.div_unique _ _ _ 0); lia.
  - symmetry. apply (Nat.mod_unique _ _ (S q)); lia.
  - symmetry. apply (Nat.div_unique _ _ _ (S r)); lia.
  - symmetry. apply (Nat.mod_unique _ _ q); lia.
Qed.

Lemma update_byte_holds i ctx m b :
  Forall is_u8 m -> is_u8 b -> holds i ctx m ->
  let st := update_byte (i, ctx) b in
  holds st.1 st.2 (m ++ [b]) /\ count st.2 = count ctx.
Proof.
  intros Hm Hb [Hi Hbuf Hst Htl]. cbn zeta.
  destruct (length_snoc_cases m b) as (Hlen & Hr & Hcase).
  pose proof (Nat.div_mod_eq (length m) 64) as Hdm.
  set (q := (length m / 64)%nat) in *. set (r := (length m mod 64)%nat) in *.
  assert (i = Z.of_nat r) as -> by (rewrite Hi; unfold r; by rewrite Nat2Z.inj_mod).
  unfold update_byte. rewrite Nat2Z.id.
  pose proof (take_insert_snoc (buf ctx) r b ltac:(lia)) as Hins.
  rewrite Htl in Hins.
  destruct Hcase as [(Hr63 & Hq & Hm0) | (Hr63 & Hq & Hm0)].
  - rewrite Hr63 in *. change (Z.of_nat 63 + 1 =? 64) with true. cbn iota.
    rewrite take_ge in Hins by (rewrite length_insert; lia).
    rewrite SHA1_transform_spec; cbn [buf state count fst snd].
    + split; [|done]. split; cbn [buf state count]; rewrite ?Hq, ?Hm0, ?length_insert, ?take_0; [|done|..].
      * change 64 with (Z.of_nat 64). by rewrite <- Nat2Z.inj_mod, Hm0.
      * rewrite chain_S_r, chain_app, Hst, Hins, drop_app_le by lia.
        f_equal. symmetry. apply take_ge. rewrite length_app, length_drop. cbn [length]; lia.
      * symmetry. apply drop_ge. lia.
    + by rewrite length_insert.
    + rewrite Hins. apply Forall_app; split; [by apply Forall_drop|]. by constructor.
    + rewrite Hst. apply chain_u32.
  - rewrite (proj2 (Z.eqb_neq (Z.of_nat r + 1) 64)) by lia. cbn [fst snd].
    split; [|done]. split; cbn [buf state count]; rewrite ?Hq, ?Hm0, ?length_insert; [|done|..].
    + change 64 with (Z.of_nat 64). rewrite <- Nat2Z.inj_mod, Hm0. lia.
    + by rewrite chain_app by lia.
    + by rewrite Hins, drop_app_le by lia.
Qed.

Lemma update_bytes_hold data i ctx m :
  Forall is_u8 m -> Forall is_u8 data -> holds i ctx m ->
  let st := foldl update_byte (i, ctx) data in
  holds st.1 st.2 (m ++ data) /\ count st.2 = count ctx.
Proof.
  intros Hm Hd. revert i ctx m Hm. induction Hd as [|b data Hb _ IH]; intros i ctx m Hm H.
  - by rewrite app_nil_r.
  - cbn zeta. cbn [foldl].
    destruct (update_byte_holds i ctx m b Hm Hb H) as [H1 Hc].
    destruct (update_byte (i, ctx) b) as [i' ctx'] eqn:E. cbn in H1, Hc.
    rewrite cons_middle, app_assoc, <- Hc. apply IH; [|done].
    apply Forall_app; split; [done|by constructor].
Qed.

(** A context that has absorbed the message [m]. *)
Definition absorbed (ctx : SHA_CTX) (m : bytes) : Prop :=
  count ctx = u64 (Z.of_nat (length m)) /\ holds (count ctx mod 64) ctx m.

Lemma u64_mod_64 z : u64 z mod 64 = z mod 64.
Proof.
  unfold u64. change (2 ^ 64) with (64 * 2 ^ 58).
  rewrite Z.rem_mul_r, (Z.mul_comm 64), Z.mod_add, Z.mod_mod by lia. done.
Qed.

Lemma SHA_update_absorbs ctx m data :
  Forall is_u8 m -> Forall is_u8 data -> absorbed ctx m ->
  absorbed (SHA_update ctx data) (m ++ data).
Proof.
  intros Hm Hd [Hc H]. unfold SHA_update, absorbed.
  pose proof (Z.mod_pos_bound (count ctx) 64 ltac:(lia)).
  rewrite i32_small by lia.
  set (c1 := mk_ctx _ _ _).
  assert (holds (count ctx mod 64) c1 m) as H1 by by destruct H.
  destruct (update_bytes_hold data _ c1 m Hm Hd H1) as [H2 Hc2].
  assert (count c1 = u64 (Z.of_nat (length (m ++ data)))) as Hc1.
  { subst c1; cbn. rewrite Hc, length_app, Nat2Z.inj_add. apply Zplus_mod_idemp_l. }
  rewrite Hc2, Hc1. split; [done|].
  rewrite u64_mod_64, <- (h_index _ _ _ H2). done.
Qed.

Lemma SHA_init_absorbed ctx :
  length (buf ctx) = 64%nat -> absorbed (SHA_init ctx) [].
Proof. intros Hb. split; [done|]. by split. Qed.

(** The zero-padding loop stops within its fuel at 56 bytes modulo 64. *)
Lemma pad_loop_absorbs k ctx m fuel :
  Forall is_u8 m -> absorbed ctx m -> Z.of_nat k = (56 - Z.of_nat (length m)) mod 64 ->
  (k <= fuel)%nat ->
  exists ctx', pad_loop fuel ctx = Some ctx' /\ absorbed ctx' (m ++ replicate k 0).
Proof.
  revert ctx m fuel. induction k as [|k IH]; intros ctx m fuel Hm Hab Hk Hf.
  - exists ctx. rewrite app_nil_r. split; [|done]. destruct Hab as [Hc _].
    assert (count ctx mod 64 = 56) as Hc56.
    { rewrite Hc, u64_mod_64. pose proof (Z.div_mod (56 - Z.of_nat (length m)) 64 ltac:(lia)).
      symmetry. apply (Z.mod_unique_pos _ _ (- ((56 - Z.of_nat (length m)) / 64))); lia. }
    destruct fuel; cbn [pad_loop]; rewrite Hc56; done.
  - destruct fuel as [|fuel]; [lia|]. cbn [pad_loop]. destruct Hab as [Hc H].
    assert (count ctx mod 64 <> 56) as Hc56.
    { rewrite Hc, u64_mod_64. intros E.
      assert ((56 - Z.of_nat (length m)) mod 64 = 0) by by rewrite Zminus_mod, E.
      lia. }
    rewrite (proj2 (Z.eqb_neq (count ctx mod 64) (64 - 8))) by lia.
    cbn [replicate]. rewrite cons_middle, app_assoc. apply IH.
    + apply Forall_app; split; [done|]. by_compute.
    + apply SHA_update_absorbs; [done| |by split]. by_compute.
    + rewrite length_app. cbn [length].
      pose proof (Z.div_mod (56 - Z.of_nat (length m)) 64 ltac:(lia)).
      pose proof (Z.mod_pos_bound (56 - Z.of_nat (length m)) 64 ltac:(lia)).
      apply (Z.mod_unique_pos _ _ ((56 - Z.of_nat (length m)) / 64)); lia.
    + lia.
Qed.

Lemma length_bytes_spec c : length_bytes c = rev (le_split 8 c).
Proof.
  unfold length_bytes, u8. cbn -[Z.modulo Z.div Z.shiftr Z.pow].
  rewrite !Z.shiftr_div_pow2 by lia. rewrite !Z.div_div by lia.
  repeat f_equal. by rewrite Z.div_1_r.
Qed.

Lemma be32_spec w : be32 w = rev (le_split 4 w).
Proof.
  unfold be32, u8. cbn -[Z.modulo Z.div Z.shiftr Z.pow].
  rewrite !Z.shiftr_div_pow2 by lia. rewrite !Z.div_div by lia.
  repeat f_equal. by rewrite Z.div_1_r.
Qed.

Lemma foldl_update_absorbs ctx m data :
  Forall is_u8 m -> Forall is_u8 data -> absorbed ctx m ->
  absorbed (foldl (fun c b => SHA_update c [b]) ctx data) (m ++ data).
Proof.
  intros Hm Hd. revert ctx m Hm. induction Hd as [|b data Hb Hd IH]; intros ctx m Hm H.
  - by rewrite app_nil_r.
  - cbn [foldl]. rewrite cons_middle, app_assoc. apply IH.
    + apply Forall_app; split; [done|by constructor].
    + apply SHA_update_absorbs; auto.
Qed.

Lemma SHA_final_digest ctx m :
  Forall is_u8 m -> 8 * Z.of_nat (length m) < 2 ^ 64 -> absorbed ctx m ->
  exists ctx', SHA_final ctx = Some ctx' /\ take 20 (buf ctx') = Fips.digest m.
Proof.
  intros Hm Hlen H. unfold SHA_final.
  assert (u64 (count ctx * 8) = 8 * Z.of_nat (length m)) as ->.
  { destruct H as [-> _]. rewrite (u64_small (Z.of_nat _)) by lia.
    rewrite u64_small; lia. }
  assert (Forall is_u8 [0x80]) as H80 by by_compute.
  assert (Forall is_u8 (m ++ [0x80])) as Hm1 by by apply Forall_app.
  pose proof (SHA_update_absorbs ctx m [0x80] Hm H80 H) as H1.
  pose proof (Z.mod_pos_bound (55 - Z.of_nat (length m)) 64 ltac:(lia)).
  destruct (pad_loop_absorbs (Z.to_nat ((55 - Z.of_nat (length m)) mod 64))
              _ _ 64 Hm1 H1) as (c2 & -> & H2).
  { rewrite Z2Nat.id, length_app by lia. cbn [length]. f_equal. lia. }
  { lia. }
  cbn [mbind option_bind]. rewrite length_bytes_spec.
  apply foldl_update_absorbs with (data := rev (le_split 8 (8 * Z.of_nat (length m)))) in H2.
  2: { apply Forall_app; split; [done|]. apply Forall_replicate. unfold is_u8; lia. }
  2: { apply Forall_rev, le_split_bytes. }
  eexists; split; [done|]. cbn [buf].
  destruct H2 as [_ [_ _ Hst _]]. rewrite Hst. unfold Fips.digest, Fips.pad.
  rewrite <- !app_assoc in *. rewrite (list_fmap_ext be32 (fun w => rev (le_split 4 w)))
    by (intros; apply be32_spec).
  apply take_app_length'.
  set (l := Fips.chain _ _ _). assert (length l = 5%nat) as Hl by apply length_chain.
  clearbody l. do 6 (destruct l as [|? l]; [try done|]); done.
Qed.
End streaming.

Section results.
Import Sha.

Definition set_count (c : Z) (ctx : SHA_CTX) : SHA_CTX := mk_ctx c (buf ctx) (state ctx).

Lemma transform_set_count c ctx :
  SHA1_transform (set_count c ctx) = set_count c (SHA1_transform ctx).
Proof. unfold SHA1_transform, set_count. cbn [buf state count]. by destruct (foldl _ _ _). Qed.

#[local] Opaque SHA1_transform.

Lemma update_set_count data c i ctx :
  foldl update_byte (i, set_count c ctx) data
  = prod_map id (set_count c) (foldl update_byte (i, ctx) data).
Proof.
  revert i ctx. induction data as [|b data IH]; intros i ctx; [done|].
  cbn [foldl update_byte]. case_match; rewrite <- IH; [|reflexivity].
  rewrite <- transform_set_count. reflexivity.
Qed.

Lemma update_index data i ctx :
  0 <= i < 64 -> (foldl update_byte (i, ctx) data).1 = (i + Z.of_nat (length data)) mod 64.
Proof.
  revert i ctx. induction data as [|b data IH]; intros i ctx Hi.
  - cbn [foldl length fst]. rewrite Z.add_0_r, Z.mod_small; lia.
  - cbn [foldl update_byte length]. destruct (Z.eqb_spec (i + 1) 64).
    + rewrite IH by lia. replace (i + Z.of_nat (S (length data)))
        with (Z.of_nat (length data) + 1 * 64) by lia. by rewrite Z.mod_add by lia.
    + rewrite IH by lia. f_equal. lia.
Qed.

(** However a message is cut in two, feeding the pieces to
    [SHA_update] one after the other leaves the context that feeding the whole
    message leaves, count, buffer and chaining words included. *)
Theorem SHA_update_app ctx a b :
  SHA_update (SHA_update ctx a) b = SHA_update ctx (a ++ b).
Proof.
  unfold SHA_update. set (i0 := i32 (count ctx mod 64)).
  pose proof (Z.mod_pos_bound (count ctx) 64 ltac:(lia)).
  assert (i0 = count ctx mod 64) as Hi0 by (apply i32_small; lia).
  fold (set_count (u64 (count ctx + Z.of_nat (length a))) ctx)
    (set_count (u64 (count ctx + Z.of_nat (length (a ++ b)))) ctx).
  rewrite !update_set_count, foldl_app. cbn [prod_map snd].
  destruct (foldl update_byte (i0, ctx) a) as [i c] eqn:E. cbn [prod_map snd].
  pose proof (update_index a i0 ctx ltac:(lia)) as Hidx. rewrite E in Hidx. cbn in Hidx.
  cbn [set_count count buf state]. rewrite u64_mod_64, i32_small.
  2: { pose proof (Z.mod_pos_bound (count ctx + Z.of_nat (length a)) 64 ltac:(lia)). lia. }
  replace ((count ctx + Z.of_nat (length a)) mod 64) with i.
  2: { rewrite Hidx, Hi0. apply Zplus_mod_idemp_l. }
  change (mk_ctx ?x (buf c) (state c)) with (set_count x c).
  rewrite update_set_count. cbn [prod_map snd].
  destruct (foldl update_byte (i, c) b) as [j d]. cbn. unfold set_count; cbn. f_equal.
  rewrite length_app, Nat2Z.inj_add, Z.add_assoc. apply Zplus_mod_idemp_l.
Qed.

(** C4 (equivalence). [SHA] terminates and writes the FIPS 180 SHA-1 digest of
    its input, whatever the uninitialised stack context held. *)
Theorem SHA_correct ctx data :
  length (buf ctx) = 64%nat -> Forall is_u8 data -> Z.of_nat (length data) < 2 ^ 31 ->
  SHA ctx data = Some (Fips.digest data).
Proof.
  intros Hbuf Hd Hlen. unfold SHA.
  pose proof (SHA_update_absorbs _ [] data (Forall_nil_2 _) Hd (SHA_init_absorbed ctx Hbuf)) as H.
  destruct (SHA_final_digest _ data Hd ltac:(lia) H) as (c & -> & E).
  cbn. by rewrite E.
Qed.

Definition ctx_any : SHA_CTX := mk_ctx 5 (replicate 64 7) [].

Lemma SHA_correct_witness :
  SHA ctx_any (bs "abc") = Some (Fips.digest (bs "abc")) /\
  Fips.digest (bs "abc") =
    [0xa9; 0x99; 0x3e; 0x36; 0x47; 0x06; 0x81; 0x6a; 0xba; 0x3e;
     0x25; 0x71; 0x78; 0x50; 0xc2; 0x6c; 0x9c; 0xd0; 0xd8; 0x9d].
Proof.
  split; [|vm_compute; reflexivity].
  apply (SHA_correct ctx_any (bs "abc")); [reflexivity| |reflexivity].
  by_compute.
Defined.

End results.
