(* ===== verification/Rsa.v ===== *)
(** * RSA signature verification of mincrypt (tools/mkbootimg/rsa.c)

    [Rsa] is the C code: multi-word subtraction and comparison, Montgomery
    multiplication with 64-bit accumulators, the public exponentiation by 3 and
    the PKCS#1 v1.5 check.  A number is the list of its 32-bit words, least
    significant first.  The theorems give the integer each routine computes and
    that no 64-bit accumulator overflows. *)

From S2P Require Import Prelude.

Module Rsa.

Definition RSANUMBYTES : Z := 256.
Definition RSANUMWORDS : Z := RSANUMBYTES / 4.

Record RSAPublicKey := mk_key {
  len : Z;        (* length of n[] in words *)
  n0inv : Z;      (* -1 / n[0] mod 2^32 *)
  n : list Z;     (* modulus, little endian *)
  rr : list Z     (* R^2, little endian *)
}.

(** Loop of subM over the words not yet processed: [A] is the int64_t
    accumulator.  [k] is the number of words left of [key->len]. *)
Fixpoint subM_loop (k : nat) (A : Z) (ns a : list Z) : list Z :=
  match k, ns, a with
  | S k', m :: ns', x :: a' =>
      let A := i64 (u64 (A + u64 (x - m))) in
      u32 A :: subM_loop k' (Z.shiftr A 32) ns' a'
  | _, _, _ => a
  end.

(** a[] -= mod *)
Definition subM (key : RSAPublicKey) (a : list Z) : list Z :=
  subM_loop (Z.to_nat (len key)) 0 (n key) a.

(** Loop of geM from word [i - 1] down. *)
Fixpoint geM_loop (i : nat) (ns a : list Z) : bool :=
  match i with
  | O => true
  | S i' =>
      if nth i' a 0 <? nth i' ns 0 then false
      else if nth i' a 0 >? nth i' ns 0 then true
      else geM_loop i' ns a
  end.

(** return a[] >= mod *)
Definition geM (key : RSAPublicKey) (a : list Z) : bool :=
  geM_loop (Z.to_nat (len key)) (n key) a.

(** The loop [for (i = 1; i < key->len; ++i)] of montMulAdd: [k] iterations
    left; the words [c[i-1]] it stores and the final accumulators. *)
Fixpoint mma_loop (k : nat) (a d0 A B : Z) (b c ns : list Z) : list Z * Z * Z :=
  match k, b, c, ns with
  | S k', bi :: b', ci :: c', ni :: ns' =>
      let A := u64 (u64 (Z.shiftr A 32 + u64 (a * bi)) + ci) in
      let B := u64 (u64 (Z.shiftr B 32 + u64 (d0 * ni)) + u32 A) in
      let '(out, A', B') := mma_loop k' a d0 A B b' c' ns' in
      (u32 B :: out, A', B')
  | _, _, _, _ => ([], A, B)
  end.

(** montgomery c[] += a * b[] / R % mod *)
Definition montMulAdd (key : RSAPublicKey) (c : list Z) (a : Z) (b : list Z) : list Z :=
  let A := u64 (u64 (a * nth 0 b 0) + nth 0 c 0) in
  let d0 := u32 (u32 A * n0inv key) in
  let B := u64 (u64 (d0 * nth 0 (n key) 0) + u32 A) in
  let '(out, A, B) :=
    mma_loop (Z.to_nat (len key) - 1) a d0 A B (tail b) (tail c) (tail (n key)) in
  let A := u64 (Z.shiftr A 32 + Z.shiftr B 32) in
  let c := out ++ [u32 A] in
  if Z.shiftr A 32 =? 0 then c else subM key c.

(** montgomery c[] = a[] * b[] / R % mod *)
Definition montMul (key : RSAPublicKey) (a b : list Z) : list Z :=
  foldl (fun c ai => montMulAdd key c ai b) (replicate (Z.to_nat (len key)) 0)
        (take (Z.to_nat (len key)) a).

(** Word [i] of the conversion from big endian bytes. *)
Definition word_of_bytes (L : nat) (inout : bytes) (i : nat) : Z :=
  let o := ((L - 1 - i) * 4)%nat in
  Z.lor (Z.lor (Z.lor (u32 (Z.shiftl (nth o inout 0) 24))
                      (u32 (Z.shiftl (nth (o + 1) inout 0) 16)))
               (u32 (Z.shiftl (nth (o + 2) inout 0) 8)))
        (Z.shiftl (nth (o + 3) inout 0) 0).

(** In-place public exponentiation. *)
Definition modpow3 (key : RSAPublicKey) (inout : bytes) : bytes :=
  let L := Z.to_nat (len key) in
  let a := word_of_bytes L inout <$> seq 0 L in
  let aR := montMul key a (rr key) in
  let aaR := montMul key aR aR in
  let aaa := montMul key aaR a in
  let aaa := if geM key aaa then subM key aaa else aaa in
  concat (be32 <$> rev aaa).

(** The expected padding: 00 01, the ff bytes, and the SHA-1 DigestInfo. *)
Definition padding : bytes :=
  [0x00; 0x01] ++ replicate 218 0xff ++
  [0x00; 0x30; 0x21; 0x30; 0x09; 0x06; 0x05; 0x2b; 0x0e; 0x03; 0x02; 0x1a; 0x05;
   0x00; 0x04; 0x14].

(** [for (...) if (buf[i] != expected[i]) return 0;] over the given bytes. *)
Fixpoint bytes_match (l expected : bytes) : bool :=
  match l, expected with
  | x :: l', e :: expected' => if x =? e then bytes_match l' expected' else false
  | _, _ => true
  end.

Definition RSA_verify (key : RSAPublicKey) (signature : bytes) (slen : Z) (sha : bytes) : Z :=
  if negb (len key =? RSANUMWORDS) then 0
  else if negb (slen =? RSANUMBYTES) then 0
  else
    let buf := modpow3 key (take (Z.to_nat slen) signature) in
    if negb (bytes_match (take (length padding) buf) padding) then 0
    else if negb (bytes_match (drop (length padding) buf) sha) then 0
    else 1.

End Rsa.

(** ** The integer a word list denotes *)

Abbreviation W := (2 ^ 32).

Fixpoint wval (ws : list Z) : Z :=
  match ws with [] => 0 | w :: ws' => w + W * wval ws' end.

Abbreviation words := (Forall is_u32).

(** Weight of the word after [k] words. *)
Definition Wk (k : nat) : Z := 2 ^ (32 * Z.of_nat k).

Lemma Wk_0 : Wk 0 = 1.
Proof. done. Qed.
Lemma Wk_S k : Wk (S k) = W * Wk k.
Proof. unfold Wk. rewrite <- Z.pow_add_r by lia. f_equal. lia. Qed.
Lemma Wk_pos k : 0 < Wk k.
Proof. unfold Wk. apply Z.pow_pos_nonneg; lia. Qed.

Lemma wval_app a b : wval (a ++ b) = wval a + Wk (length a) * wval b.
Proof.
  induction a as [|x a IH]; cbn [wval app length]; rewrite ?Wk_S, ?IH; [rewrite Wk_0; lia|lia].
Qed.

Lemma wval_bound ws : words ws -> 0 <= wval ws < Wk (length ws).
Proof.
  induction 1 as [|w ws Hw _ IH]; cbn [wval length]; [rewrite Wk_0; lia|].
  rewrite Wk_S. unfold is_u32 in Hw. nia.
Qed.

Lemma wval_zeros k : wval (replicate k 0) = 0.
Proof. induction k; cbn [replicate wval]; lia. Qed.

(** Low and high half of an accumulator. *)
Lemma u32_hi A : A = u32 A + W * Z.shiftr A 32.
Proof. rewrite Z.shiftr_div_pow2 by lia. unfold u32. pose proof (Z.div_mod A W). lia. Qed.

Lemma shiftr32_bound A : 0 <= A < 2 ^ 64 -> 0 <= Z.shiftr A 32 < W.
Proof.
  intros H. rewrite Z.shiftr_div_pow2 by lia. split; [apply Z.div_pos; lia|].
  apply Z.div_lt_upper_bound; lia.
Qed.

(** ** Subtraction and comparison *)

Section subtract.
Import Rsa.

Lemma i64_u64_small z : - 2 ^ 63 <= z < 2 ^ 63 -> i64 (u64 z) = z.
Proof.
  intros Hz. unfold i64, u64. rewrite Zplus_mod_idemp_l, Z.mod_small; lia.
Qed.

Lemma subM_loop_spec ns a A :
  words ns -> words a -> length ns = length a -> -1 <= A <= 0 ->
  let r := subM_loop (length a) A ns a in
  words r /\ length r = length a /\
  exists A', -1 <= A' <= 0 /\ wval r + Wk (length a) * A' = A + wval a - wval ns.
Proof.
  intros Hns Ha. revert ns Hns A.
  induction Ha as [|x a Hx Ha IH]; intros ns Hns A Hlen HA.
  - destruct ns; [|done]. cbn. split_and!; [constructor|done|].
    exists A. rewrite Wk_0. split; lia.
  - destruct ns as [|m ns]; [done|]. apply Forall_cons_1 in Hns as [Hm Hns].
    unfold is_u32 in *. cbn [subM_loop length].
    assert (i64 (u64 (A + u64 (x - m))) = A + (x - m)) as ->.
    { unfold u64 at 2. rewrite <- (i64_u64_small (A + (x - m))) by lia.
      unfold u64. by rewrite Zplus_mod_idemp_r. }
    set (A1 := A + (x - m)).
    assert (-1 <= Z.shiftr A1 32 <= 0) as HA1.
    { rewrite Z.shiftr_div_pow2 by lia. subst A1. split.
      - apply Z.div_le_lower_bound; lia.
      - apply Z.lt_succ_r. apply Z.div_lt_upper_bound; lia. }
    destruct (IH ns Hns (Z.shiftr A1 32) ltac:(by injection Hlen) HA1)
      as (Hw & Hl & A' & HA' & Heq).
    cbn [length wval]. split_and!.
    + constructor; [apply u32_range|done].
    + by rewrite Hl.
    + exists A'. split; [done|]. rewrite Wk_S.
      pose proof (u32_hi A1). subst A1. nia.
Qed.

Lemma geM_loop_spec i ns a :
  words ns -> words a -> length ns = length a -> (i <= length a)%nat ->
  geM_loop i ns a = bool_decide (wval (take i ns) <= wval (take i a)).
Proof.
  intros Hns Ha Hlen. induction i as [|i IH]; intros Hi.
  - by rewrite !take_0, bool_decide_true.
  - destruct (lookup_lt_is_Some_2 a i ltac:(lia)) as [x Hx].
    destruct (lookup_lt_is_Some_2 ns i ltac:(lia)) as [m Hm].
    rewrite (take_S_r a i x), (take_S_r ns i m), !wval_app, !length_take by done.
    cbn [geM_loop wval]. rewrite !(nth_lookup_Some _ _ _ _ Hx), !(nth_lookup_Some _ _ _ _ Hm).
    rewrite !Nat.min_l by lia.
    pose proof (wval_bound (take i a) (Forall_take _ _ _ Ha)) as Ba.
    pose proof (wval_bound (take i ns) (Forall_take _ _ _ Hns)) as Bn.
    rewrite length_take_le in Ba, Bn by lia. rewrite IH by lia.
    destruct (Z.ltb_spec x m); [symmetry; apply bool_decide_false; nia|].
    destruct (Z.gtb_spec x m); [symmetry; apply bool_decide_true; nia|].
    assert (x = m) as -> by lia. apply bool_decide_ext. lia.
Qed.
End subtract.

(** ** Montgomery multiplication *)

(** Well-formed key: [L] words, [n0inv] the negated inverse of the low word,
    [rr] congruent to R^2. *)
Record key_ok (L : nat) (key : Rsa.RSAPublicKey) : Prop := {
  k_len : Rsa.len key = Z.of_nat (S L);
  k_n : length (Rsa.n key) = S L;
  k_nw : words (Rsa.n key);
  k_rr : length (Rsa.rr key) = S L;
  k_rrw : words (Rsa.rr key);
  k_inv : is_u32 (Rsa.n0inv key);
  k_n0inv : u32 (Rsa.n0inv key * nth 0 (Rsa.n key) 0) = 2 ^ 32 - 1;
  k_top : Wk (S L) <= 2 * wval (Rsa.n key);
  k_sq : (wval (Rsa.n key) | wval (Rsa.rr key) - Wk (S L) * Wk (S L))
}.

Section montgomery.
Import Rsa.

(** A 64-bit multiply-add with two word-sized addends does not overflow. *)
Lemma mul_add_u64 a b x y :
  is_u32 a -> is_u32 b -> is_u32 x -> is_u32 y ->
  u64 (u64 (x + u64 (a * b)) + y) = x + a * b + y /\ 0 <= x + a * b + y < 2 ^ 64.
Proof.
  unfold is_u32. intros Ha Hb Hx Hy.
  assert (0 <= a * b <= (W - 1) * (W - 1)) by nia.
  rewrite (u64_small (a * b)), (u64_small (x + _)), u64_small; lia.
Qed.

Lemma mma_loop_spec b c ns a d0 A B :
  words b -> words c -> words ns ->
  length c = length b -> length ns = length b ->
  is_u32 a -> is_u32 d0 -> 0 <= A < 2 ^ 64 -> 0 <= B < 2 ^ 64 ->
  let '(out, A', B') := mma_loop (length b) a d0 A B b c ns in
  words out /\ length out = length b /\ 0 <= A' < 2 ^ 64 /\ 0 <= B' < 2 ^ 64 /\
  wval out + Wk (length b) * (Z.shiftr A' 32 + Z.shiftr B' 32)
  = Z.shiftr A 32 + Z.shiftr B 32 + a * wval b + wval c + d0 * wval ns.
Proof.
  intros Hb. revert c ns A B. induction Hb as [|bi b Hbi Hb IH]; intros c ns A B
    Hc Hns Lc Ln Ha Hd HA HB.
  - destruct c; [|done]. destruct ns; [|done]. cbn. split_and!; try lia.
    + constructor.
    + rewrite Wk_0. lia.
  - destruct c as [|ci c]; [done|]. destruct ns as [|ni ns]; [done|].
    apply Forall_cons_1 in Hc as [Hci Hc]. apply Forall_cons_1 in Hns as [Hni Hns].
    cbn [mma_loop length].
    destruct (mul_add_u64 a bi (Z.shiftr A 32) ci) as [-> HA1];
      [done|done|by apply shiftr32_bound|done|].
    set (A1 := Z.shiftr A 32 + a * bi + ci) in *.
    destruct (mul_add_u64 d0 ni (Z.shiftr B 32) (u32 A1)) as [-> HB1];
      [done|done|by apply shiftr32_bound|apply u32_range|].
    set (B1 := Z.shiftr B 32 + d0 * ni + u32 A1) in *.
    specialize (IH c ns A1 B1 Hc Hns ltac:(by injection Lc) ltac:(by injection Ln)
                  Ha Hd HA1 HB1).
    destruct (mma_loop _ _ _ _ _ _ _ _) as [[out A'] B'].
    destruct IH as (Ho & Hl & HA' & HB' & Heq).
    cbn [length wval]. split_and!; try lia.
    { constructor; [apply u32_range|done]. }
    rewrite Wk_S. pose proof (u32_hi A1). pose proof (u32_hi B1). subst A1 B1. nia.
Qed.

(** The multiplier [d0] cancels the low word of the accumulator. *)
Lemma d0_cancels x m0 inv :
  u32 (inv * m0) = 2 ^ 32 - 1 -> u32 (u32 (u32 x * inv) * m0 + u32 x) = 0.
Proof.
  unfold u32. intros H.
  rewrite <- Zplus_mod_idemp_l, Zmult_mod_idemp_l, <- Z.mul_assoc.
  rewrite <- Zmult_mod_idemp_r, H, Zplus_mod_idemp_l.
  replace (x mod W * (W - 1) + x mod W) with (x mod W * W) by lia.
  by apply Z.mod_mul.
Qed.

Lemma subM_spec L key c :
  key_ok L key -> words c -> length c = S L ->
  words (subM key c) /\ length (subM key c) = S L /\
  wval (subM key c) = (wval c - wval (n key)) mod Wk (S L).
Proof.
  intros K Hc Lc. unfold subM. rewrite (k_len _ _ K), Nat2Z.id, <- Lc.
  destruct (subM_loop_spec (n key) c 0 (k_nw _ _ K) Hc) as (Hw & Hl & A' & HA' & Heq).
  { by rewrite Lc, (k_n _ _ K). }
  { lia. }
  split_and!; [done|done|].
  pose proof (wval_bound _ Hw) as B. rewrite Hl in B.
  apply (Z.mod_unique_pos _ _ A'); lia.
Qed.

(** Arithmetic of the final carry: at most one subtraction of the modulus. *)
Lemma row_carry R N c a b d T :
  0 < R -> 0 <= N < R -> 0 <= c < R -> 0 <= b < R -> 0 <= a < W -> 0 <= d < W ->
  W * T = c + a * b + d * N -> 0 <= T < R + N.
Proof. intros. assert (0 <= a * b <= (W - 1) * (R - 1)) by nia.
  assert (0 <= d * N <= (W - 1) * N) by nia. nia. Qed.

Lemma montMulAdd_carry L key out Af c a b d :
  key_ok L key -> words out -> length out = L -> 0 <= Af < 2 ^ 64 ->
  0 <= c < Wk (S L) -> is_u32 a -> 0 <= b < Wk (S L) -> is_u32 d ->
  W * (wval out + Wk L * Af) = c + a * b + d * wval (n key) ->
  let c1 := out ++ [u32 Af] in
  let r := if Z.shiftr Af 32 =? 0 then c1 else subM key c1 in
  words r /\ length r = S L /\ (wval (n key) | W * wval r - (c + a * b)).
Proof.
  intros K Ho Lo HAf Hc Ha Hb Hd HT. cbn zeta.
  set (c1 := out ++ [u32 Af]). set (T := wval out + Wk L * Af) in *.
  assert (words c1) as Hc1 by (apply Forall_app; split; [done|repeat constructor; apply u32_range]).
  assert (length c1 = S L) as Lc1 by (subst c1; rewrite length_app; cbn [length]; lia).
  assert (T = wval c1 + Wk (S L) * Z.shiftr Af 32) as HTc.
  { subst c1 T. rewrite wval_app, Lo, Wk_S. cbn [wval]. pose proof (u32_hi Af). nia. }
  pose proof (wval_bound _ (k_nw _ _ K)) as BN. rewrite (k_n _ _ K) in BN.
  pose proof (wval_bound _ Hc1) as Bc1. rewrite Lc1 in Bc1.
  destruct (row_carry (Wk (S L)) (wval (n key)) c a b d T); auto using Wk_pos.
  destruct (Z.eqb_spec (Z.shiftr Af 32) 0) as [E|E].
  - split_and!; [done|done|]. exists d. rewrite E in HTc. nia.
  - pose proof (shiftr32_bound Af HAf).
    destruct (subM_spec L key c1 K Hc1 Lc1) as (Hs & Ls & Vs).
    split_and!; [done|done|]. exists (d - W).
    assert (wval (subM key c1) = T - wval (n key)) as ->; [|nia].
    rewrite Vs. symmetry. apply (Z.mod_unique_pos _ _ (- Z.shiftr Af 32)); nia.
Qed.

(** One row: [W * c' = c + a * b + d0 * n], less [n] when that carries out. *)
Lemma montMulAdd_spec L key c a b :
  key_ok L key -> words c -> words b -> length c = S L -> length b = S L -> is_u32 a ->
  let r := montMulAdd key c a b in
  words r /\ length r = S L /\ (wval (n key) | W * wval r - (wval c + a * wval b)).
Proof.
  intros K Hc Hb Lc Lb Ha. cbn zeta. unfold montMulAdd. rewrite (k_len _ _ K), Nat2Z.id.
  pose proof (k_n _ _ K) as Ln. pose proof (k_nw _ _ K) as Hn.
  pose proof (k_n0inv _ _ K) as Hinv. pose proof (subM_spec L key) as Hsub.
  destruct (n key) as [|n0 ns] eqn:En; [done|]. destruct b as [|b0 b]; [done|].
  destruct c as [|c0 c]; [done|]. cbn [nth tail] in *.
  apply Forall_cons_1 in Hc as [Hc0 Hc], Hb as [Hb0 Hb], Hn as [Hn0 Hn].
  injection Lc as Lc. injection Lb as Lb. injection Ln as Ln.
  destruct (mul_add_u64 a b0 0 c0) as [HA HAb]; [done|done|unfold is_u32; lia|done|].
  rewrite Z.add_0_l, (u64_small (u64 _)) in HA by apply u64_range. rewrite HA.
  set (A0 := 0 + a * b0 + c0) in *. set (d0 := u32 (u32 A0 * n0inv key)).
  destruct (mul_add_u64 d0 n0 0 (u32 A0)) as [HB HBb];
    [apply u32_range|done|unfold is_u32; lia|apply u32_range|].
  rewrite Z.add_0_l, (u64_small (u64 _)) in HB by apply u64_range. rewrite HB.
  set (B0 := 0 + d0 * n0 + u32 A0) in *.
  assert (u32 B0 = 0) as HB0 by by apply d0_cancels.
  pose proof (mma_loop_spec b c ns a d0 A0 B0 Hb Hc Hn ltac:(lia) ltac:(lia) Ha
                (u32_range _) HAb HBb) as Hloop.
  replace (S L - 1)%nat with (length b) by lia.
  destruct (mma_loop _ _ _ _ _ _ _ _) as [[out A'] B'].
  destruct Hloop as (Ho & Hlo & HA' & HB' & Heq).
  pose proof (shiftr32_bound A' HA'). pose proof (shiftr32_bound B' HB').
  rewrite (u64_small (_ + _)) by lia. set (Af := Z.shiftr A' 32 + Z.shiftr B' 32) in *.
  assert (W * (wval out + Wk L * Af)
          = wval (c0 :: c) + a * wval (b0 :: b) + d0 * wval (n0 :: ns)) as HT.
  { pose proof (u32_hi A0). pose proof (u32_hi B0). cbn [wval]. rewrite Lb in Heq.
    subst A0 B0. nia. }
  destruct (montMulAdd_carry L key out Af (wval (c0 :: c)) a (wval (b0 :: b)) d0 K) as (Hw & Hl & Hd);
    rewrite ?En; auto; try lia.
  - pose proof (wval_bound (c0 :: c) ltac:(by constructor)) as B. cbn [length] in B.
    by rewrite Lc in B.
  - pose proof (wval_bound (b0 :: b) ltac:(by constructor)) as B. cbn [length] in B.
    by rewrite Lb in B.
  - apply u32_range.
  - rewrite En in Hd. auto.
Qed.

(** ** Whole products *)

Lemma montMul_rows L key b l c :
  key_ok L key -> words b -> length b = S L -> words l -> words c -> length c = S L ->
  let r := foldl (fun c ai => montMulAdd key c ai b) c l in
  words r /\ length r = S L /\
  (wval (n key) | Wk (length l) * wval r - (wval c + wval l * wval b)).
Proof.
  intros K Hb Lb Hl. revert c. induction Hl as [|a l Ha Hl IH]; intros c Hc Lc; cbn zeta.
  - cbn [foldl length wval]. split_and!; [done|done|].
    rewrite Wk_0. exists 0. lia.
  - cbn [foldl length wval].
    destruct (montMulAdd_spec L key c a b K Hc Hb Lc Lb Ha) as (H1 & L1 & [q Hq]).
    destruct (IH _ H1 L1) as (H2 & L2 & [q' Hq']).
    split_and!; [done|done|]. rewrite Wk_S.
    exists (q + W * q'). nia.
Qed.

Lemma montMul_spec L key a b :
  key_ok L key -> words a -> words b -> length a = S L -> length b = S L ->
  words (montMul key a b) /\ length (montMul key a b) = S L /\
  (wval (n key) | Wk (S L) * wval (montMul key a b) - wval a * wval b).
Proof.
  intros K Ha Hb La Lb. unfold montMul. rewrite (k_len _ _ K), Nat2Z.id.
  rewrite take_ge by lia.
  destruct (montMul_rows L key b a (replicate (S L) 0) K Hb Lb Ha) as (Hw & Hl & Hd).
  { apply Forall_replicate. unfold is_u32; lia. }
  { apply length_replicate. }
  split_and!; [done|done|]. by rewrite wval_zeros, La in Hd.
Qed.

(** The modulus is odd, so powers of two cancel modulo it. *)
Lemma cancel_R L key x :
  key_ok L key -> (wval (n key) | Wk (S L) * x) -> (wval (n key) | x).
Proof.
  intros K Hd. apply (Z.gauss _ (Wk (S L))); [done|].
  unfold Wk. apply Z.coprime_pow_r; [lia|]. apply Z.coprime_Bezout.
  pose proof (k_n0inv _ _ K) as Hinv. pose proof (k_n _ _ K) as Ln.
  destruct (n key) as [|n0 ns]; [done|]. cbn [nth wval] in *.
  exists (- n0inv key), (2 ^ 31 * (n0inv key * n0 / W + 1 + n0inv key * wval ns)).
  unfold u32 in Hinv. pose proof (Z.div_mod (n0inv key * n0) W ltac:(lia)). nia.
Qed.

(** Three Montgomery products turn [a] into its cube modulo [n]. *)
Lemma cube_spec L key a :
  key_ok L key -> words a -> length a = S L ->
  let aR := montMul key a (rr key) in
  let aaR := montMul key aR aR in
  let aaa := montMul key aaR a in
  words aaa /\ length aaa = S L /\ (wval (n key) | wval aaa - wval a ^ 3).
Proof.
  intros K Ha La. cbn zeta.
  destruct (montMul_spec L key a (rr key) K Ha (k_rrw _ _ K) La (k_rr _ _ K)) as (H1 & L1 & [q1 E1]).
  set (aR := montMul key a (rr key)) in *.
  destruct (montMul_spec L key aR aR K H1 H1 L1 L1) as (H2 & L2 & [q2 E2]).
  set (aaR := montMul key aR aR) in *.
  destruct (montMul_spec L key aaR a K H2 Ha L2 La) as (H3 & L3 & [q3 E3]).
  split_and!; [done|done|]. destruct (k_sq _ _ K) as [q0 E0].
  set (N := wval (n key)) in *. set (R := Wk (S L)) in *.
  assert (N | wval aR - wval a * R) as [p1 P1].
  { apply (cancel_R L key _ K). exists (q1 + wval a * q0). fold N R. nia. }
  assert (N | wval aaR - wval a ^ 2 * R) as [p2 P2].
  { apply (cancel_R L key _ K). exists (q2 + p1 * (wval aR + wval a * R)). fold N R.
    assert (wval aR = p1 * N + wval a * R) as EaR by lia.
    replace (R * (wval aaR - wval a ^ 2 * R))
      with (R * wval aaR - wval a * R * (wval a * R)) by ring.
    replace (R * wval aaR) with (q2 * N + wval aR * wval aR) by lia.
    rewrite EaR. ring. }
  apply (cancel_R L key _ K). exists (q3 + p2 * wval a). fold N R.
  replace (R * (wval (montMul key aaR a) - wval a ^ 3))
    with (R * wval (montMul key aaR a) - wval a ^ 2 * R * wval a) by ring.
  replace (R * wval (montMul key aaR a)) with (q3 * N + wval aaR * wval a) by lia.
  replace (wval aaR) with (p2 * N + wval a ^ 2 * R) by lia. ring.
Qed.

(** The conditional subtraction reduces a value below twice the modulus. *)
Lemma reduce_spec L key c :
  key_ok L key -> words c -> length c = S L ->
  let r := if geM key c then subM key c else c in
  words r /\ length r = S L /\ wval r = wval c mod wval (n key).
Proof.
  intros K Hc Lc. cbn zeta. unfold geM. rewrite (k_len _ _ K), Nat2Z.id.
  pose proof (k_n _ _ K) as Ln. pose proof (k_nw _ _ K) as Hn. pose proof (k_top _ _ K) as Ht.
  rewrite geM_loop_spec by (auto; lia). rewrite !take_ge by lia.
  pose proof (wval_bound _ Hc) as Bc. rewrite Lc in Bc.
  pose proof (wval_bound _ Hn) as Bn. rewrite Ln in Bn.
  case_bool_decide.
  - destruct (subM_spec L key c K Hc Lc) as (Hs & Ls & ->). split_and!; [done|done|].
    rewrite Z.mod_small by lia. apply (Z.mod_unique_pos _ _ 1); lia.
  - split_and!; [done|done|]. rewrite Z.mod_small; lia.
Qed.
End montgomery.

(** ** Bytes and words *)

Section bytes_words.
Import Rsa.

(** Value of a big-endian byte string. *)
Definition be_val (l : bytes) : Z := le_combine (rev l).

Lemma le_combine_app a b :
  le_combine (a ++ b) = le_combine a + 2 ^ (8 * Z.of_nat (length a)) * le_combine b.
Proof.
  induction a as [|x a IH]; cbn [le_combine app length]; [lia|].
  replace (8 * Z.of_nat (S (length a))) with (8 + 8 * Z.of_nat (length a)) by lia.
  rewrite IH, Z.pow_add_r by lia. ring.
Qed.

Lemma be_val_app a b :
  be_val (a ++ b) = be_val b + 2 ^ (8 * Z.of_nat (length b)) * be_val a.
Proof. unfold be_val. by rewrite rev_app_distr, le_combine_app, length_rev. Qed.

Lemma be_val_inj a b :
  Forall is_u8 a -> Forall is_u8 b -> length a = length b -> be_val a = be_val b -> a = b.
Proof.
  intros Ha Hb Hl E. unfold be_val in E.
  apply (f_equal (le_split (length a))) in E.
  rewrite <- (length_rev a) in E at 1. rewrite Hl, <- (length_rev b) in E.
  rewrite !le_split_combine in E by by apply Forall_rev.
  rewrite <- (rev_involutive a), E. apply rev_involutive.
Qed.

Lemma word4_val b0 b1 b2 b3 :
  is_u8 b0 -> is_u8 b1 -> is_u8 b2 -> is_u8 b3 ->
  Z.lor (Z.lor (Z.lor (u32 (Z.shiftl b0 24)) (u32 (Z.shiftl b1 16)))
               (u32 (Z.shiftl b2 8))) (Z.shiftl b3 0)
  = be_val [b0; b1; b2; b3].
Proof.
  unfold is_u8, u32. intros. rewrite !Z.shiftl_mul_pow2, !Z.mod_small by lia.
  rewrite (lor_add b0 _ 24) by lia.
  replace (b0 * 2 ^ 24 + b1 * 2 ^ 16) with ((b0 * 2 ^ 8 + b1) * 2 ^ 16) by lia.
  rewrite lor_add by lia.
  replace ((b0 * 2 ^ 8 + b1) * 2 ^ 16 + b2 * 2 ^ 8)
    with ((b0 * 2 ^ 16 + b1 * 2 ^ 8 + b2) * 2 ^ 8) by lia.
  rewrite lor_add by lia. unfold be_val. cbn [rev app le_combine]. lia.
Qed.

(** Conversion from big endian bytes keeps the value. *)
Lemma words_of_bytes_spec L l :
  Forall is_u8 l -> length l = (4 * L)%nat ->
  let ws := word_of_bytes L l <$> seq 0 L in
  words ws /\ length ws = L /\ wval ws = be_val l.
Proof.
  cbn zeta. revert l. induction L as [|L IH]; intros l Hl Hlen.
  - destruct l; [|done]. split_and!; [constructor|done|done].
  - destruct l as [|b0 [|b1 [|b2 [|b3 l]]]]; cbn [length] in Hlen; try lia.
    rewrite seq_S, fmap_app. cbn [list_fmap fmap Nat.add].
    replace (word_of_bytes (S L) (b0 :: b1 :: b2 :: b3 :: l) <$> seq 0 L)
      with (word_of_bytes L l <$> seq 0 L).
    2: { apply list_fmap_ext. intros i t Ht. apply lookup_seq in Ht as [-> Ht].
         unfold word_of_bytes.
         replace ((S L - 1 - (0 + i)) * 4)%nat with (4 + (L - 1 - (0 + i)) * 4)%nat by lia.
         done. }
    repeat match goal with H : Forall _ (_ :: _) |- _ => apply Forall_cons_1 in H as [? H] end.
    destruct (IH l Hl ltac:(lia)) as (Hw & Hn & Hv).
    assert (word_of_bytes (S L) (b0 :: b1 :: b2 :: b3 :: l) L = be_val [b0; b1; b2; b3]) as ->.
    { unfold word_of_bytes. replace ((S L - 1 - L) * 4)%nat with 0%nat by lia.
      cbn [nth Nat.add]. by apply word4_val. }
    split_and!.
    + apply Forall_app; split; [done|]. constructor; [|done].
      pose proof (le_combine_bound (rev [b0; b1; b2; b3])) as B. cbn in B.
      apply B. auto using Forall_nil_2, Forall_cons_2.
    + rewrite length_app, Hn. cbn [length]. lia.
    + rewrite wval_app, Hv, Hn. cbn [wval].
      change (b0 :: b1 :: b2 :: b3 :: l) with ([b0; b1; b2; b3] ++ l).
      rewrite be_val_app. unfold Wk.
      replace (8 * Z.of_nat (length l)) with (32 * Z.of_nat L) by lia. lia.
Qed.

Lemma be32_val w : is_u32 w -> be_val (be32 w) = w /\ Forall is_u8 (be32 w).
Proof.
  intros Hw. split; [|unfold be32; auto 10 using Forall_nil_2, Forall_cons_2, is_u8_u8].
  unfold be_val, be32, u8. rewrite !Z.shiftr_div_pow2 by lia. cbn [rev app le_combine].
  unfold is_u32 in Hw. pose proof (le_combine_split 4 w) as E.
  cbn [le_split le_combine] in E. rewrite !Z.div_div in E by lia.
  rewrite (Z.mod_small w (2 ^ (8 * Z.of_nat 4))) in E by (change (8 * Z.of_nat 4) with 32; lia).
  rewrite Z.div_1_r. exact E.
Qed.

Lemma bytes_of_words_spec ws :
  words ws ->
  let l := concat (be32 <$> rev ws) in
  Forall is_u8 l /\ length l = (4 * length ws)%nat /\ be_val l = wval ws.
Proof.
  cbn zeta. induction 1 as [|w ws Hw Hws IH]; [by split_and!|].
  destruct IH as (Hb & Hl & Hv). cbn [rev]. rewrite fmap_app, concat_app.
  cbn [fmap list_fmap concat]. rewrite app_nil_r.
  destruct (be32_val w Hw) as [V B]. split_and!.
  - by apply Forall_app.
  - rewrite length_app, Hl. cbn. lia.
  - rewrite be_val_app, V, Hv. cbn [wval].
    change (8 * Z.of_nat (length (be32 w))) with 32. done.
Qed.
End bytes_words.

(** ** Results *)

Section verify.
Import Rsa.

(** With a well-formed key of a top-heavy modulus, [modpow3]
    turns the bytes of [a] into the bytes of [a^3 mod n], of the same length,
    with no overflow of an accumulator on the way. *)
Theorem modpow3_correct L key inout :
  key_ok L key -> Forall is_u8 inout -> length inout = (4 * S L)%nat ->
  let out := modpow3 key inout in
  Forall is_u8 out /\ length out = (4 * S L)%nat /\
  be_val out = be_val inout ^ 3 mod wval (n key).
Proof.
  intros K Hb Hlen. cbn zeta. unfold modpow3. rewrite (k_len _ _ K), Nat2Z.id.
  destruct (words_of_bytes_spec (S L) inout Hb Hlen) as (Ha & La & Va).
  set (a := word_of_bytes _ _ <$> _) in *.
  destruct (cube_spec L key a K Ha La) as (Hc & Lc & [q Eq]).
  destruct (reduce_spec L key _ K Hc Lc) as (Hr & Lr & Vr).
  destruct (bytes_of_words_spec _ Hr) as (Ho & Lo & Vo).
  rewrite Lr in Lo. split_and!; [done|done|].
  rewrite Vo, Vr, <- Va.
  replace (wval (montMul key (montMul key (montMul key a (rr key)) (montMul key a (rr key))) a))
    with (wval a ^ 3 + q * wval (n key)) by lia.
  apply Z.mod_add. pose proof (k_top _ _ K). pose proof (Wk_pos (S L)). lia.
Qed.

Lemma bytes_match_spec l e :
  length l = length e -> bytes_match l e = bool_decide (l = e).
Proof.
  revert e. induction l as [|x l IH]; intros [|y e] Hl; try done.
  cbn [bytes_match]. rewrite IH by (cbn in Hl; lia).
  destruct (Z.eqb_spec x y) as [->|]; [apply bool_decide_ext|
    symmetry; apply bool_decide_false]; naive_solver.
Qed.

(** C5 (functional). [RSA_verify] accepts exactly the 256-byte signatures whose
    cube modulo the 2048-bit modulus is the PKCS#1 v1.5 encoding of the digest:
    it returns 1 for those and 0 for every other signature or length. *)
Theorem RSA_verify_correct key signature slen sha :
  key_ok 63 key -> Forall is_u8 signature -> Forall is_u8 sha -> length sha = 20%nat ->
  slen = Z.of_nat (length signature) ->
  RSA_verify key signature slen sha =
    if decide (slen = 256 /\ be_val signature ^ 3 mod wval (n key) = be_val (padding ++ sha))
    then 1 else 0.
Proof.
  intros K Hs Hsha Lsha ->. unfold RSA_verify. rewrite (k_len _ _ K).
  change (negb (Z.of_nat 64 =? RSANUMWORDS)) with false. cbn [negb].
  destruct (Z.eqb_spec (Z.of_nat (length signature)) RSANUMBYTES) as [E|E]; cbn [negb].
  2: { unfold RSANUMBYTES in E. rewrite decide_False by tauto. done. }
  unfold RSANUMBYTES in E. rewrite (take_ge signature) by lia.
  destruct (modpow3_correct 63 key signature K Hs ltac:(lia)) as (Ho & Lo & Vo).
  set (buf := modpow3 key signature) in *.
  assert (length padding = 236%nat) as Lp by done.
  rewrite !bytes_match_spec by (rewrite ?length_take, ?length_drop; lia).
  assert (Forall is_u8 padding) as Hp by by_compute.
  assert (be_val signature ^ 3 mod wval (n key) = be_val (padding ++ sha)
          <-> buf = padding ++ sha) as Hiff.
  { rewrite <- Vo. split; [|by intros ->]. apply be_val_inj; [done|by apply Forall_app|].
    rewrite length_app. lia. }
  assert (buf = padding ++ sha <->
          take (length padding) buf = padding /\ drop (length padding) buf = sha) as Hsplit.
  { split; [intros ->; by rewrite take_app_length, drop_app_length|].
    intros [Ht Hd]. rewrite <- (take_drop (length padding) buf). congruence. }
  repeat case_bool_decide; case_decide; cbn [negb]; tauto.
Qed.

(** A 2048-bit key and a signature for the digest of "abc": the signature is a
    cube root of the encoded digest over the integers, shifted by the modulus. *)
Definition demo_sha : bytes :=
  [0xa9; 0x99; 0x3e; 0x36; 0x47; 0x06; 0x81; 0x6a; 0xba; 0x3e;
   0x25; 0x71; 0x78; 0x50; 0xc2; 0x6c; 0x9c; 0xd0; 0xd8; 0x9d].
Definition demo_root : Z := 3 * 2 ^ 681.
Definition demo_mod : Z := demo_root ^ 3 - be_val (padding ++ demo_sha).

Fixpoint words_of (k : nat) (z : Z) : list Z :=
  match k with O => [] | S k' => z mod W :: words_of k' (z / W) end.

(** Inverse modulo 2^32 by Newton iteration. *)
Definition inv32 (x : Z) : Z :=
  Nat.iter 5 (fun y => (y * (2 - x * y)) mod W) 1.

Definition demo_key : RSAPublicKey :=
  mk_key 64 (u32 (- inv32 (demo_mod mod W))) (words_of 64 demo_mod)
    (words_of 64 ((2 ^ 4096) mod demo_mod)).
Definition demo_sig : bytes := rev (le_split 256 demo_root).

Lemma demo_key_ok : key_ok 63 demo_key.
Proof.
  split; try (by_compute || (vm_compute; reflexivity)).
  exists (- (2 ^ 4096 / demo_mod)). vm_compute. reflexivity.
Qed.

Lemma modpow3_correct_witness :
  be_val (modpow3 demo_key demo_sig) = be_val demo_sig ^ 3 mod wval (n demo_key).
Proof.
  apply (modpow3_correct 63 demo_key demo_sig demo_key_ok); [by_compute|reflexivity].
Defined.

Lemma RSA_verify_correct_witness :
  RSA_verify demo_key demo_sig 256 demo_sha = 1 /\
  RSA_verify demo_key (0 :: tail demo_sig) 255 demo_sha = 0.
Proof.
  split; [|vm_compute; reflexivity].
  rewrite (RSA_verify_correct demo_key demo_sig 256 demo_sha demo_key_ok);
    [vm_compute; reflexivity|by_compute|by_compute|reflexivity|vm_compute; reflexivity].
Defined.
End verify.
