(* ===== verification/Buff.v ===== *)
(** * Bounded string building (tools/adb/utils.c)

    The [buff_add*] functions append to a C string inside a caller's buffer.  A
    buffer is the list of its bytes; [buff] and [buffEnd] are offsets into it,
    and a store outside the buffer is [None].  [writer] is what the functions
    promise their callers: the buffer holds a zero-terminated prefix of all that
    was appended, and the write offset never passes [buffEnd]. *)

From S2P Require Import Prelude.

(** What the formatted print of the C library may do with [avail] bytes and the
    full output [out]: the bytes it stores and the count it returns. *)
Class Vsnprintf := {
  vsn_stored : nat -> bytes -> bytes;
  vsn_ret : nat -> bytes -> Z
}.

(** Documented behaviour: it stores at most [avail] bytes, all the output and a
    zero when they fit, otherwise the first [avail - 1] bytes of it; it returns
    the full length, or some negative number when the output does not fit. *)
Class VsnprintfSpec `{Vsnprintf} : Prop := {
  vsn_fits : forall avail out, (length out < avail)%nat ->
    vsn_stored avail out = out ++ [0] /\ vsn_ret avail out = Z.of_nat (length out);
  vsn_trunc : forall avail out, (0 < avail <= length out)%nat ->
    length (vsn_stored avail out) = avail /\
    take (avail - 1) (vsn_stored avail out) = take (avail - 1) out /\
    (vsn_ret avail out = Z.of_nat (length out) \/ vsn_ret avail out < 0)
}.

Module Buff.

Definition buff_addc (mem : bytes) (buff buffEnd : nat) (c : Z) : option (bytes * nat) :=
  let avail := Z.of_nat buffEnd - Z.of_nat buff in
  if avail <=? 0 then Some (mem, buff)
  else if avail =? 1 then
    mem ← store mem buff 0; Some (mem, (buff + 1)%nat)
  else
    mem ← store mem buff (u8 c);
    mem ← store mem (buff + 1) 0;
    Some (mem, (buff + 1)%nat).

Definition buff_addb (mem : bytes) (buff buffEnd : nat) (data : bytes) (len : Z)
    : option (bytes * nat) :=
  let avail := Z.of_nat buffEnd - Z.of_nat buff in
  if (avail <=? 0) || (len <=? 0) then Some (mem, buff)
  else
    let len := if len >? avail then avail else len in
    mem ← store_bytes mem buff (take (Z.to_nat len) data);
    let buff := (buff + Z.to_nat len)%nat in
    mem ← (if (buffEnd <=? buff)%nat then store mem (buff - 1) 0 else store mem buff 0);
    Some (mem, buff).

Definition buff_adds (mem : bytes) (buff buffEnd : nat) (s : bytes) : option (bytes * nat) :=
  buff_addb mem buff buffEnd s (Z.of_nat (length s)).

Section add.
Context `{Vsnprintf}.

(** [out] is the text the format and its arguments denote. *)
Definition buff_add (mem : bytes) (buff buffEnd : nat) (out : bytes) : option (bytes * nat) :=
  let avail := Z.of_nat buffEnd - Z.of_nat buff in
  if avail >? 0 then
    mem ← store_bytes mem buff (vsn_stored (Z.to_nat avail) out);
    let nn := vsn_ret (Z.to_nat avail) out in
    let nn := if nn <? 0 then avail else if nn >? avail then avail else nn in
    let buff := (buff + Z.to_nat nn)%nat in
    mem ← (if (buffEnd <=? buff)%nat then store mem (buff - 1) 0 else store mem buff 0);
    Some (mem, buff)
  else Some (mem, buff).
End add.

End Buff.

(** ** The contract *)

(** After the text [s] was appended to an empty buffer of [cap] bytes: the whole
    of [s] and a zero while they fit; once they do not, the first [cap - 1]
    bytes and a zero, with the write offset parked at the end. *)
Definition writer (cap : nat) (s : bytes) (mem : bytes) (buff : nat) : Prop :=
  length mem = cap /\
  ((length s < cap)%nat /\ buff = length s /\ (exists rest, mem = s ++ 0 :: rest) \/
   (cap <= length s)%nat /\ buff = cap /\ mem = take (cap - 1) s ++ [0]).

Section proofs.
Import Buff.

(** A buffer of which [a] is written splits at the next [k] bytes. *)
Lemma split_at (a rest : bytes) k :
  (k <= length rest)%nat -> exists old rest', rest = old ++ rest' /\ length old = k.
Proof.
  intros Hk. exists (take k rest), (drop k rest).
  rewrite take_drop, length_take. split; [done|lia].
Qed.

Lemma writer_overflow cap s t mem buff :
  writer cap s mem buff -> buff = cap -> (0 < cap)%nat -> writer cap (s ++ t) mem buff.
Proof.
  intros [Hl [(Hs & Hb & _)|(Hs & -> & Hm)]] Hbc Hc; [lia|].
  split; [done|right]. rewrite length_app. split_and!; [lia|done|].
  by rewrite take_app_le by lia.
Qed.

(** Common end of the functions: [data] stored at the offset, of which the text
    is a prefix of [avail - 1] bytes or all, then the zero. *)
Lemma writer_step cap s t mem data k :
  (0 < k)%nat -> length mem = cap -> (length s + k <= cap)%nat ->
  length data = k -> (exists rest, mem = s ++ rest) ->
  (length t = k \/ (k <= length t /\ length s + k = cap))%nat ->
  take (k - 1) data = take (k - 1) t ->
  ((length s + k < cap)%nat -> data = t) ->
  exists mem1 mem2,
    store_bytes mem (length s) data = Some mem1 /\
    (if (cap <=? length s + k)%nat then store mem1 (length s + k - 1) 0
     else store mem1 (length s + k) 0) = Some mem2 /\
    writer cap (s ++ t) mem2 (length s + k).
Proof.
  intros Hk Hl Hfit Hd [rest ->] Ht Htk Hall. rewrite length_app in Hl.
  destruct (split_at s rest k) as (old & rest' & -> & Hold); [lia|].
  rewrite length_app in Hl.
  exists (s ++ data ++ rest'). rewrite store_bytes_app by lia.
  destruct (Nat.leb_spec cap (length s + k)).
  - destruct rest' as [|? ?]; [|cbn in Hl; lia].
    destruct (exists_last (l := data)) as (d & x & ->); [by intros ->; cbn in Hd; lia|].
    rewrite length_app in Hd. cbn [length] in Hd.
    exists (s ++ d ++ [0]). split_and!; [done| |].
    + rewrite app_nil_r, !app_assoc.
      replace (length s + k - 1)%nat with (length (s ++ d)) by (rewrite length_app; lia).
      apply store_app.
    + split; [rewrite !length_app; cbn [length]; lia|right].
      rewrite length_app. split_and!; [lia|lia|].
      rewrite take_app_ge by lia. replace (cap - 1 - length s)%nat with (k - 1)%nat by lia.
      rewrite <- Htk, take_app_le, take_ge, app_assoc by lia. done.
  - assert (data = t) as -> by auto. destruct rest' as [|y rest']; [cbn in Hl; lia|].
    exists (s ++ t ++ 0 :: rest'). split_and!; [done| |].
    + rewrite !app_assoc.
      replace (length s + k)%nat with (length (s ++ t)) by (rewrite length_app; lia).
      apply store_app.
    + split; [rewrite !length_app; cbn [length] in *; lia|left].
      rewrite length_app. split_and!; [lia|lia|]. exists rest'. by rewrite app_assoc.
Qed.

Lemma writer_cases cap s mem buff :
  writer cap s mem buff ->
  (buff = cap /\ (cap <= length s)%nat) \/
  (buff = length s /\ (length s < cap)%nat /\ length mem = cap /\ exists rest, mem = s ++ rest).
Proof.
  intros [Hl [(Hs & -> & [rest Hm])|(Hs & -> & Hm)]]; [right|left]; split_and!; try done.
  eauto.
Qed.

Lemma buff_addb_writer cap s mem buff data :
  (0 < cap)%nat -> writer cap s mem buff ->
  exists mem' buff',
    buff_addb mem buff cap data (Z.of_nat (length data)) = Some (mem', buff') /\
    writer cap (s ++ data) mem' buff'.
Proof.
  intros Hc Hw. unfold buff_addb.
  destruct (Z.leb_spec (Z.of_nat (length data)) 0) as [Hd|Hd].
  { rewrite orb_true_r. destruct data; [|cbn in Hd; lia]. rewrite app_nil_r. eauto. }
  destruct (writer_cases _ _ _ _ Hw) as [[Hb Hs]|(Hb & Hs & Hl & Hm)].
  - rewrite (proj2 (Z.leb_le (Z.of_nat cap - Z.of_nat buff) 0)) by lia.
    do 2 eexists; split; [done|]. by eapply writer_overflow.
  - rewrite (proj2 (Z.leb_gt (Z.of_nat cap - Z.of_nat buff) 0)) by lia. cbn [orb].
    set (k := if _ >? _ then _ else _).
    assert (k = Z.min (Z.of_nat (length data)) (Z.of_nat cap - Z.of_nat buff)) as Hk.
    { unfold k. destruct (Z.gtb_spec (Z.of_nat (length data)) (Z.of_nat cap - Z.of_nat buff)); lia. }
    clearbody k. subst buff.
    destruct (writer_step cap s data mem (take (Z.to_nat k) data) (Z.to_nat k))
      as (m1 & m2 & E1 & E2 & Hw'); try lia; try done.
    + rewrite length_take. lia.
    + rewrite take_take. f_equal. lia.
    + intros ?. apply take_ge. lia.
    + rewrite E1. cbn. rewrite E2. cbn. eauto.
Qed.

Lemma buff_addc_writer cap s mem buff c :
  (0 < cap)%nat -> writer cap s mem buff ->
  exists mem' buff',
    buff_addc mem buff cap c = Some (mem', buff') /\ writer cap (s ++ [u8 c]) mem' buff'.
Proof.
  intros Hc Hw. unfold buff_addc.
  destruct (writer_cases _ _ _ _ Hw) as [[Hb Hs]|(-> & Hs & Hl & [rest ->])].
  - rewrite (proj2 (Z.leb_le (Z.of_nat cap - Z.of_nat buff) 0)) by lia.
    do 2 eexists; split; [done|]. by eapply writer_overflow.
  - rewrite (proj2 (Z.leb_gt (Z.of_nat cap - Z.of_nat (length s)) 0)) by lia.
    rewrite length_app in Hl. destruct rest as [|x rest]; [cbn in Hl; lia|].
    destruct (Z.eqb_spec (Z.of_nat cap - Z.of_nat (length s)) 1).
    + destruct rest; [|cbn in Hl; lia]. rewrite store_app. cbn.
      do 2 eexists; split; [done|]. split; [rewrite length_app; cbn; lia|right].
      rewrite !length_app. cbn [length] in *. split_and!; [lia|lia|].
      rewrite take_app_le, take_ge by lia. done.
    + destruct rest as [|y rest]; [cbn in Hl; lia|]. rewrite store_app. cbn.
      replace (length s + 1)%nat with (length (s ++ [u8 c])) by (rewrite length_app; done).
      change (u8 c :: y :: rest) with ([u8 c] ++ y :: rest).
      rewrite (app_assoc s), store_app. cbn.
      do 2 eexists; split; [done|]. split; [rewrite !length_app; cbn in *; lia|left].
      rewrite !length_app. cbn [length] in *. split_and!; [lia|done|eauto].
Qed.

Section format.
Context `{VsnprintfSpec}.

Lemma buff_add_writer cap s mem buff out :
  (0 < cap)%nat -> writer cap s mem buff ->
  exists mem' buff',
    buff_add mem buff cap out = Some (mem', buff') /\ writer cap (s ++ out) mem' buff'.
Proof.
  intros Hc Hw. unfold buff_add.
  destruct (writer_cases _ _ _ _ Hw) as [[Hb Hs]|(-> & Hs & Hl & [rest ->])].
  - rewrite Z.gtb_ltb, (proj2 (Z.ltb_ge 0 (Z.of_nat cap - Z.of_nat buff))) by lia.
    do 2 eexists; split; [done|]. by eapply writer_overflow.
  - rewrite Z.gtb_ltb, (proj2 (Z.ltb_lt 0 (Z.of_nat cap - Z.of_nat (length s)))) by lia.
    set (avail := Z.to_nat (Z.of_nat cap - Z.of_nat (length s))).
    rewrite length_app in Hl.
    destruct (decide (length out < avail)%nat) as [Hf|Hf].
    + destruct (vsn_fits avail out Hf) as [-> ->].
      rewrite (proj2 (Z.ltb_ge (Z.of_nat (length out)) 0)) by lia.
      rewrite Z.gtb_ltb, (proj2 (Z.ltb_ge _ (Z.of_nat (length out)))), Nat2Z.id by lia.
      destruct (split_at s rest (S (length out))) as (old & rest' & -> & Ho); [lia|].
      rewrite store_bytes_app by (rewrite length_app; cbn; lia). cbn.
      rewrite (proj2 (Nat.leb_gt cap (length s + length out))) by lia.
      rewrite <- app_assoc, <- length_app. cbn [app]. rewrite app_assoc, store_app. cbn.
      rewrite length_app in Hl.
      do 2 eexists; split; [done|]. split; [rewrite !length_app; cbn; lia|left].
      rewrite length_app. split_and!; [lia|lia|eauto].
    + destruct (vsn_trunc avail out) as (Ls & Ht & Hret); [lia|].
      assert ((if vsn_ret avail out <? 0 then Z.of_nat cap - Z.of_nat (length s)
               else if Z.of_nat cap - Z.of_nat (length s) <? vsn_ret avail out
                    then Z.of_nat cap - Z.of_nat (length s) else vsn_ret avail out)
              = Z.of_nat avail) as Hnn.
      { repeat case_match; destruct Hret; lia. }
      rewrite Z.gtb_ltb, Hnn, Nat2Z.id.
      destruct (writer_step cap s out (s ++ rest) (vsn_stored avail out) avail)
        as (m1 & m2 & E1 & E2 & Hw'); eauto; try lia.
      { rewrite length_app. lia. }
      rewrite E1. cbn. rewrite E2. cbn. eauto.
Qed.

(** ** Any sequence of appends *)

Inductive append :=
| Addc (c : Z)
| Adds (s : bytes)
| Add (out : bytes).

Definition text (a : append) : bytes :=
  match a with Addc c => [u8 c] | Adds s => s | Add out => out end.

Definition run1 (cap : nat) (st : bytes * nat) (a : append) : option (bytes * nat) :=
  match a with
  | Addc c => buff_addc st.1 st.2 cap c
  | Adds s => buff_adds st.1 st.2 cap s
  | Add out => buff_add st.1 st.2 cap out
  end.

Fixpoint run (cap : nat) (st : bytes * nat) (l : list append) : option (bytes * nat) :=
  match l with [] => Some st | a :: l' => st' ← run1 cap st a; run cap st' l' end.

Lemma run_writer cap l s mem buff :
  (0 < cap)%nat -> writer cap s mem buff ->
  exists mem' buff', run cap (mem, buff) l = Some (mem', buff') /\
                     writer cap (s ++ concat (text <$> l)) mem' buff'.
Proof.
  intros Hc. revert s mem buff. induction l as [|a l IH]; intros s mem buff Hw.
  { exists mem, buff. by rewrite app_nil_r. }
  assert (exists mem' buff', run1 cap (mem, buff) a = Some (mem', buff') /\
                             writer cap (s ++ text a) mem' buff') as (m & b & E & Hw').
  { destruct a; cbn [run1 fst snd text];
      [apply buff_addc_writer|apply buff_addb_writer|apply buff_add_writer]; done. }
  cbn [run fmap list_fmap concat]. rewrite E. cbn. rewrite app_assoc. by apply IH.
Qed.

Lemma writer_cstring cap s mem buff :
  (0 < cap)%nat -> no_nul s -> writer cap s mem buff ->
  cstring mem = Some (take (cap - 1) s) /\ (buff <= cap)%nat.
Proof.
  intros Hc Hs [Hl [(Hlt & -> & [rest ->])|(Hle & -> & ->)]].
  - rewrite cstring_app, take_ge by (done || lia). split; [done|lia].
  - rewrite cstring_app; [done|]. by apply Forall_take.
Qed.

(** Whatever sequence of [buff_addc], [buff_adds], [buff_addb] and
    [buff_add] calls is made on a buffer that holds the empty string, no store
    leaves the buffer, the offset stays at most [buffEnd], and the buffer ends up
    holding the concatenation of the texts cut to the capacity less one, with
    its terminating zero. *)
Theorem buff_appends l cap mem :
  (0 < cap)%nat -> length mem = cap -> nth 0 mem 1 = 0 ->
  Forall (fun a => no_nul (text a)) l ->
  exists mem' buff', run cap (mem, 0%nat) l = Some (mem', buff') /\
    length mem' = cap /\ (buff' <= cap)%nat /\
    cstring mem' = Some (take (cap - 1) (concat (text <$> l))).
Proof.
  intros Hc Hl Hz Ht. destruct mem as [|x mem]; [cbn in *; lia|]. cbn in Hz. subst x.
  destruct (run_writer cap l [] (0 :: mem) 0 Hc) as (m & b & E & Hw).
  { split; [done|left]. cbn. split_and!; [lia|done|eauto]. }
  assert (no_nul (concat (text <$> l))) as Hn.
  { clear -Ht. induction Ht; cbn; [constructor|]. by apply Forall_app. }
  destruct (writer_cstring _ _ _ _ Hc Hn Hw) as [Hcs Hb].
  exists m, b. split_and!; [done|by destruct Hw|done|done].
Qed.
End format.

(** The two families of C libraries the source's comment names. *)
Definition c99_vsnprintf : Vsnprintf := {|
  vsn_stored avail out :=
    if decide (length out < avail)%nat then out ++ [0] else take (avail - 1) out ++ [0];
  vsn_ret _ out := Z.of_nat (length out) |}.

Definition legacy_vsnprintf : Vsnprintf := {|
  vsn_stored avail out := if decide (length out < avail)%nat then out ++ [0] else take avail out;
  vsn_ret avail out := if decide (length out < avail)%nat then Z.of_nat (length out) else -1 |}.

#[export] Instance c99_vsnprintf_ok : @VsnprintfSpec c99_vsnprintf.
Proof.
  split; cbn; intros.
  - by rewrite decide_True by lia.
  - rewrite decide_False by lia. rewrite length_app, length_take. cbn.
    rewrite take_app_le, take_take, Nat.min_id by (rewrite length_take; lia).
    split_and!; [lia|done|by left].
Qed.

#[export] Instance legacy_vsnprintf_ok : @VsnprintfSpec legacy_vsnprintf.
Proof.
  split; cbn; intros.
  - by rewrite !decide_True by lia.
  - rewrite !decide_False by lia. rewrite length_take, take_take.
    split_and!; [lia|f_equal; lia|right; lia].
Qed.

Lemma buff_appends_witness :
  exists mem' buff',
    @run c99_vsnprintf 8 (replicate 8 0, 0%nat) [Adds (bs "abc"); Addc 100; Add (bs "efghij")]
      = Some (mem', buff') /\
    length mem' = 8%nat /\ (buff' <= 8)%nat /\ cstring mem' = Some (bs "abcdefg").
Proof.
  apply (@buff_appends c99_vsnprintf c99_vsnprintf_ok
           [Adds (bs "abc"); Addc 100; Add (bs "efghij")] 8 (replicate 8 0));
    [lia|reflexivity|reflexivity|].
  repeat constructor; discriminate.
Defined.

End proofs.
