(* ===== verification/Io.v ===== *)
(** * Stream input and output (readx and writex of tools/adb/transport.c)

    A file descriptor's future is the list of results its system calls will
    give: data in pieces the kernel chooses, end of file, or an errno.  Running
    off the end of that list is a call that never returns.  [readx] and [writex]
    and the packet and action variants of the same loops are the code; the
    theorems show that what they deliver does not depend on the pieces. *)

From S2P Require Import Prelude.

Inductive errno := EINTR | EAGAIN | EEXIST | ENOENT | EOTHER.

#[export] Instance errno_eq_dec : EqDecision errno.
Proof. solve_decision. Defined.

Module Io.

(** What one [read] can find: at least one byte, end of file, or an error. *)
Inductive rd := RData (b : Z) (d : bytes) | REof | RErr (e : errno).

(** What one [write] can do: take up to [S n] bytes, take none, or fail. *)
Inductive wr := WTake (n : nat) | WZero | WErr (e : errno).

Inductive rdret := Got (d : bytes) | RZero | RFail (e : errno).
Inductive wrret := Took (n : nat) | TZero | TFail (e : errno).

(** [adb_read(fd, p, len)] for positive [len]: bytes beyond [len] stay in the
    kernel; end of file stays.  [None]: the call blocks forever. *)
Definition adb_read (s : list rd) (len : nat) : option (rdret * list rd) :=
  match s with
  | [] => None
  | RData b d :: s' =>
      if decide (length (b :: d) <= len)%nat then Some (Got (b :: d), s')
      else match drop len (b :: d) with
           | x :: l => Some (Got (take len (b :: d)), RData x l :: s')
           | [] => Some (Got (take len (b :: d)), s')
           end
  | REof :: s' => Some (RZero, REof :: s')
  | RErr e :: s' => Some (RFail e, s')
  end.

(** [adb_write(fd, p, len)] for positive [len]. *)
Definition adb_write (w : list wr) (len : nat) : option (wrret * list wr) :=
  match w with
  | [] => None
  | WTake n :: w' => Some (Took (Nat.min (S n) len), w')
  | WZero :: w' => Some (TZero, w')
  | WErr e :: w' => Some (TFail e, w')
  end.

(** Result of a read loop: 0 and the data, or -1, or the loop blocks. *)
Inductive rx := RxOk (data : bytes) (s : list rd) | RxErr (s : list rd) | RxBlock | RxFuel.

(** The loop body shared by readx, read_packet and transport_read_action: read
    what is missing, retry on EINTR, give up on end of file and other errors. *)
Fixpoint read_loop (fuel : nat) (s : list rd) (len : nat) (acc : bytes) : rx :=
  match len with
  | O => RxOk acc s
  | _ =>
    match fuel with
    | O => RxFuel
    | S fuel' =>
      match adb_read s len with
      | None => RxBlock
      | Some (Got d, s') => read_loop fuel' s' (len - length d) (acc ++ d)
      | Some (RFail EINTR, s') => read_loop fuel' s' len acc
      | Some (_, s') => RxErr s'
      end
    end
  end.

Definition readx (s : list rd) (len : nat) : rx := read_loop (S (length s)) s len [].

(** read_packet and transport_read_action read the bytes of one pointer and of
    one [tmsg] through the same loop. *)
Definition read_packet (ptr_size : nat) (s : list rd) : rx := readx s ptr_size.
Definition transport_read_action (tmsg_size : nat) (s : list rd) : rx := readx s tmsg_size.

(** Result of a write loop, with the bytes that reached the descriptor. *)
Inductive tx := TxOk (sent : bytes) (w : list wr) | TxErr (sent : bytes) (w : list wr)
  | TxBlock (sent : bytes) | TxFuel.

Fixpoint write_loop (fuel : nat) (w : list wr) (p : bytes) (sent : bytes) : tx :=
  match p with
  | [] => TxOk sent w
  | _ =>
    match fuel with
    | O => TxFuel
    | S fuel' =>
      match adb_write w (length p) with
      | None => TxBlock sent
      | Some (Took r, w') => write_loop fuel' w' (drop r p) (sent ++ take r p)
      | Some (TFail EINTR, w') => write_loop fuel' w' p sent
      | Some (_, w') => TxErr sent w'
      end
    end
  end.

Definition writex (w : list wr) (p : bytes) : tx := write_loop (S (length w)) w p [].
Definition write_packet (w : list wr) (ptr : bytes) : tx := writex w ptr.
Definition transport_write_action (w : list wr) (m : bytes) : tx := writex w m.

End Io.

(** ** What a descriptor delivers, whatever the pieces *)

Section deliver.
Import Io.

(** All bytes up to the end of file, the first error other than EINTR, or the
    point where reads block. *)
Inductive ending := Broken | Exhausted.

Fixpoint deliver (s : list rd) : bytes * ending :=
  match s with
  | [] => ([], Exhausted)
  | RData b d :: s' => let '(l, e) := deliver s' in (b :: d ++ l, e)
  | RErr EINTR :: s' => deliver s'
  | RErr _ :: _ | REof :: _ => ([], Broken)
  end.

Lemma adb_read_deliver s len r s' :
  (0 < len)%nat -> adb_read s len = Some (r, s') ->
  match r with
  | Got d => (0 < length d <= len)%nat /\
             deliver s = (d ++ (deliver s').1, (deliver s').2) /\
             ((length s' < length s)%nat \/ (length d = len /\ length s' = length s))
  | RFail EINTR => deliver s = deliver s' /\ (length s' < length s)%nat
  | _ => deliver s = ([], Broken)
  end.
Proof.
  intros Hl. destruct s as [|[b d| |e] s]; [done| | |].
  - cbn [adb_read]. case_decide.
    + intros [= <- <-]. cbn in *. destruct (deliver s) eqn:E. cbn.
      split_and!; [lia|lia|done|left; lia].
    + assert (length (drop len (b :: d)) <> 0)%nat by (rewrite length_drop; lia).
      destruct (drop len (b :: d)) as [|x l] eqn:Ed; [done|]. intros [= <- <-].
      rewrite length_take_le by lia. split; [lia|]. split; [|by right].
      cbn [deliver]. destruct (deliver s) as [l' e]. cbn [fst snd].
      change (b :: d ++ l') with ((b :: d) ++ l').
      rewrite <- (take_drop len (b :: d)) at 1. by rewrite Ed, <- app_assoc.
  - intros [= <- <-]. done.
  - intros [= <- <-]. destruct e; cbn; auto.
Qed.

Lemma adb_read_blocks s len : adb_read s len = None -> s = [].
Proof. destruct s as [|[b d| |e] s]; [done| |done|done]. cbn [adb_read]. case_decide; [done|]. by case_match. Qed.

(** An upper bound of the number of reads. *)
Fixpoint rd_weight (s : list rd) : nat :=
  match s with
  | [] => 1
  | RData b d :: s => S (length d) + rd_weight s
  | _ :: s => S (rd_weight s)
  end.

Lemma adb_read_weight s len r s' :
  (0 < len)%nat -> adb_read s len = Some (r, s') ->
  match r with
  | Got _ | RFail _ => (rd_weight s' < rd_weight s)%nat
  | RZero => True
  end.
Proof.
  intros Hl. destruct s as [|[b d| |e] s]; [done| | |]; cbn [adb_read].
  - case_decide; [intros [= <- <-]; cbn; lia|].
    destruct (drop len (b :: d)) as [|x l] eqn:E; intros [= <- <-]; cbn; [lia|].
    apply (f_equal length) in E. rewrite length_drop in E. cbn [length] in *. lia.
  - by intros [= <- <-].
  - intros [= <- <-]. cbn. lia.
Qed.

(** What the loop returns, from what the descriptor delivers. *)
Lemma read_loop_spec fuel s len acc :
  (length s < fuel)%nat ->
  let '(l, e) := deliver s in
  if decide (len <= length l)%nat then
    exists s', read_loop fuel s len acc = RxOk (acc ++ take len l) s' /\
               deliver s' = (drop len l, e)
  else match e with
       | Exhausted => read_loop fuel s len acc = RxBlock
       | Broken => exists s', read_loop fuel s len acc = RxErr s'
       end.
Proof.
  revert s len acc. induction fuel as [|fuel IH]; intros s len acc Hf; [lia|].
  destruct len as [|len].
  { destruct (deliver s) as [l e] eqn:E. rewrite decide_True by lia.
    exists s. rewrite take_0, drop_0, app_nil_r. done. }
  cbn [read_loop]. destruct (adb_read s (S len)) as [[r s']|] eqn:E.
  2: { destruct s as [|[b d| |e] s]; [done| |done|done].
       cbn [adb_read] in E. repeat case_match; done. }
  pose proof (adb_read_deliver s (S len) r s' ltac:(lia) E) as H.
  destruct r as [d| |e].
  - destruct H as (Hd & Hdel & Hlen).
    destruct Hlen as [Hlen|[Hfull Hlen]].
    + specialize (IH s' (S len - length d)%nat (acc ++ d) ltac:(lia)).
      rewrite Hdel. destruct (deliver s') as [l e]. cbn [fst snd]. rewrite length_app.
      destruct (decide (S len - length d <= length l)%nat);
        [rewrite decide_True by lia|rewrite decide_False by lia; exact IH].
      destruct IH as (s'' & -> & E''). exists s''.
      rewrite E'', take_app_ge, drop_app_ge, app_assoc by lia. done.
    + rewrite Hdel. rewrite Hfull, Nat.sub_diag. destruct (deliver s') as [l e] eqn:E'.
      cbn [fst snd]. rewrite length_app, decide_True by lia. exists s'.
      rewrite <- Hfull, take_app_length, drop_app_length. destruct fuel; done.
  - rewrite H. rewrite decide_False by (cbn; lia). eauto.
  - destruct e; try (rewrite H; rewrite decide_False by (cbn; lia); eauto).
    destruct H as [-> Hlen]. apply IH. lia.
Qed.

(** [readx] terminates within its fuel; it returns 0 exactly
    when the descriptor delivers [len] bytes before end of file or an error, and
    then the buffer holds those bytes in order and the rest stays readable; with
    fewer bytes it returns -1 at end of file or error, or blocks.  The pieces
    the kernel cuts the data into and EINTR have no effect. *)
Theorem readx_delivers s len :
  let '(l, e) := deliver s in
  if decide (len <= length l)%nat then
    exists s', readx s len = RxOk (take len l) s' /\ deliver s' = (drop len l, e)
  else match e with
       | Exhausted => readx s len = RxBlock
       | Broken => exists s', readx s len = RxErr s'
       end.
Proof. apply (read_loop_spec (S (length s)) s len []). lia. Qed.

Lemma readx_ok s len l e :
  deliver s = (l, e) -> (len <= length l)%nat ->
  exists s', readx s len = RxOk (take len l) s' /\ deliver s' = (drop len l, e).
Proof.
  intros Hd Hl. pose proof (read_loop_spec (S (length s)) s len [] ltac:(lia)) as H.
  rewrite Hd, decide_True in H by done. exact H.
Qed.

Lemma readx_ok_inv s len data s' :
  readx s len = RxOk data s' ->
  length data = len /\ deliver s = (data ++ (deliver s').1, (deliver s').2).
Proof.
  intros E. pose proof (read_loop_spec (S (length s)) s len [] ltac:(lia)) as H.
  unfold readx in E. rewrite E in H. destruct (deliver s) as [l e]. case_decide.
  - destruct H as (s'' & [= -> ->] & ->). cbn. rewrite length_take, take_drop.
    split; [lia|done].
  - destruct e; [destruct H as (? & ?)|]; done.
Qed.

(** A descriptor that takes any number of pieces. *)
Fixpoint wr_total (w : list wr) : nat :=
  match w with
  | WTake n :: w' => S n + wr_total w'
  | WErr EINTR :: w' => wr_total w'
  | _ => 0
  end.

Lemma write_loop_spec fuel w p sent :
  (length w < fuel)%nat ->
  match write_loop fuel w p sent with
  | TxOk sent' _ => sent' = sent ++ p /\ (length p <= wr_total w)%nat
  | TxErr sent' _ | TxBlock sent' =>
      exists k, (k < length p)%nat /\ sent' = sent ++ take k p /\ (wr_total w < length p)%nat
  | TxFuel => False
  end.
Proof.
  revert w p sent. induction fuel as [|fuel IH]; intros w p sent Hf; [lia|].
  destruct p as [|x p]; [rewrite app_nil_r; cbn; split; [done|lia]|]. cbn [write_loop].
  assert (forall P : Prop, P -> exists k, (k < length (x :: p))%nat /\
    sent = sent ++ take k (x :: p) /\ P) as Hz.
  { intros P HP. exists 0%nat. rewrite app_nil_r. cbn. split_and!; [lia|done|done]. }
  destruct w as [|[n| |e] w]; cbn [adb_write wr_total].
  - apply Hz. cbn. lia.
  - set (r := Nat.min (S n) (length (x :: p))).
    assert (0 < r <= length (x :: p))%nat by (unfold r; cbn [length]; lia).
    specialize (IH w (drop r (x :: p)) (sent ++ take r (x :: p)) ltac:(cbn in Hf; lia)).
    destruct (write_loop _ _ _ _) as [s' w'|s' w'|s'|]; try done.
    + destruct IH as [-> Ht]. rewrite length_drop in Ht. rewrite <- app_assoc, take_drop.
      split; [done|lia].
    + destruct IH as (k & Hk & -> & Ht). rewrite length_drop in Hk, Ht. exists (r + k)%nat.
      rewrite <- take_take_drop, app_assoc. split_and!; [lia|done|lia].
    + destruct IH as (k & Hk & -> & Ht). rewrite length_drop in Hk, Ht. exists (r + k)%nat.
      rewrite <- take_take_drop, app_assoc. split_and!; [lia|done|lia].
  - apply Hz. cbn. lia.
  - destruct e; try (apply Hz; cbn; lia). apply IH. cbn in Hf; lia.
Qed.

(** [writex] terminates within its fuel; it returns 0 exactly
    when the descriptor accepts all the bytes before a zero write or an error
    other than EINTR, and then exactly the buffer was sent; otherwise a strict
    prefix of it was sent. *)
Theorem writex_sends w p :
  match writex w p with
  | TxOk sent _ => sent = p /\ (length p <= wr_total w)%nat
  | TxErr sent _ | TxBlock sent =>
      exists k, (k < length p)%nat /\ sent = take k p /\ (wr_total w < length p)%nat
  | TxFuel => False
  end.
Proof. apply (write_loop_spec (S (length w)) w p []). lia. Qed.

Lemma writex_all w p :
  (length p <= wr_total w)%nat -> exists w', writex w p = TxOk p w'.
Proof.
  intros Hl. pose proof (write_loop_spec (S (length w)) w p [] ltac:(lia)) as H.
  unfold writex. destruct (write_loop _ _ _ _) as [s w'|s w'|s|];
    [|destruct H as (k & ? & ? & ?); lia..|done].
  destruct H as [-> _]. eauto.
Qed.
End deliver.
