(* ===== verification/Packet.v ===== *)
(** * The adb message and its transfer (adb.h, transport.c, transport_local.c,
      transport_usb.c)

    A packet is the six-word header and the payload array.  [send_packet] seals
    a packet with its magic and checksum; [remote_write] and [remote_read] move
    it over a byte stream, [usb_remote_write] and [usb_remote_read] over a
    message-preserving USB endpoint.  The theorems show that a sealed packet
    arrives as it was sent and that what a peer sends cannot make the reader
    store beyond the payload array. *)

From S2P Require Import Prelude Io.

Module Packet.

Definition MAX_PAYLOAD : Z := 4096.

Definition A_SYNC : Z := 0x434e5953.
Definition A_CNXN : Z := 0x4e584e43.
Definition A_OPEN : Z := 0x4e45504f.
Definition A_OKAY : Z := 0x59414b4f.
Definition A_CLSE : Z := 0x45534c43.
Definition A_WRTE : Z := 0x45545257.
Definition A_VERSION : Z := 0x01000000.

Record amessage := mk_msg {
  command : Z; arg0 : Z; arg1 : Z; data_length : Z; data_check : Z; magic : Z
}.

(** [data] is the payload array of MAX_PAYLOAD bytes. *)
Record apacket := mk_pkt { msg : amessage; data : bytes }.

Definition MSG_SIZE : nat := 24.

(** get_apacket: everything but the payload array is zeroed. *)
Definition get_apacket (garbage : bytes) : apacket := mk_pkt (mk_msg 0 0 0 0 0 0) garbage.

(** [while(count-- > 0) sum += *x++] *)
Fixpoint sum_bytes (count : nat) (x : bytes) (sum : Z) : Z :=
  match count, x with
  | S count', b :: x' => sum_bytes count' x' (u32 (sum + b))
  | _, _ => sum
  end.

(** Sealing of a packet in send_packet, before it is queued. *)
Definition seal (p : apacket) : apacket :=
  let m := msg p in
  mk_pkt (mk_msg (command m) (arg0 m) (arg1 m) (data_length m)
            (sum_bytes (Z.to_nat (data_length m)) (data p) 0)
            (not32 (command m)))
         (data p).

Definition check_header (p : apacket) : Z :=
  if negb (magic (msg p) =? not32 (command (msg p))) then -1
  else if data_length (msg p) >? MAX_PAYLOAD then -1
  else 0.

Definition check_data (p : apacket) : Z :=
  if negb (sum_bytes (Z.to_nat (data_length (msg p))) (data p) 0 =? data_check (msg p))
  then -1 else 0.

(** The header as it lies in memory (little endian). *)
Definition encode_msg (m : amessage) : bytes :=
  le_split 4 (command m) ++ le_split 4 (arg0 m) ++ le_split 4 (arg1 m) ++
  le_split 4 (data_length m) ++ le_split 4 (data_check m) ++ le_split 4 (magic m).

Definition word_at (l : bytes) (i : nat) : Z := le_combine (take 4 (drop (4 * i) l)).

Definition decode_msg (l : bytes) : amessage :=
  mk_msg (word_at l 0) (word_at l 1) (word_at l 2) (word_at l 3) (word_at l 4) (word_at l 5).

(** Outcome of a remote read: 0 with the packet, -1, or a read that blocks.  A
    store beyond the payload array is [ROverrun]. *)
Inductive rres := ROk (p : apacket) (s : list Io.rd) | RBad | RBlocked | ROverrun.

(** transport_local.c: remote_read, into the packet [p]. *)
Definition remote_read (p : apacket) (s : list Io.rd) : rres :=
  match Io.readx s MSG_SIZE with
  | Io.RxOk h s1 =>
      let p := mk_pkt (decode_msg h) (data p) in
      if negb (check_header p =? 0) then RBad else
      match Io.readx s1 (Z.to_nat (data_length (msg p))) with
      | Io.RxOk d s2 =>
          match store_bytes (data p) 0 d with
          | None => ROverrun
          | Some dat =>
              let p := mk_pkt (msg p) dat in
              if negb (check_data p =? 0) then RBad else ROk p s2
          end
      | Io.RxErr _ => RBad
      | _ => RBlocked
      end
  | Io.RxErr _ => RBad
  | _ => RBlocked
  end.

(** transport_local.c: remote_write; header and payload are contiguous. *)
Definition remote_write (p : apacket) (w : list Io.wr) : Io.tx :=
  Io.writex w (encode_msg (msg p) ++ take (Z.to_nat (data_length (msg p))) (data p)).

(** transport_usb.c: the endpoint delivers whole transfers; [usb_read h len]
    is 0 with exactly [len] bytes, or nonzero. *)
Definition usb_remote_read (usb_read : list bytes -> nat -> option (bytes * list bytes))
    (p : apacket) (q : list bytes) : option (apacket * list bytes) :=
  match usb_read q MSG_SIZE with
  | None => None
  | Some (h, q) =>
      let p := mk_pkt (decode_msg h) (data p) in
      if negb (check_header p =? 0) then None else
      let rd :=
        if data_length (msg p) =? 0 then Some (data p, q)
        else match usb_read q (Z.to_nat (data_length (msg p))) with
             | None => None
             | Some (d, q) => dat ← store_bytes (data p) 0 d; Some (dat, q)
             end in
      match rd with
      | None => None
      | Some (dat, q) =>
          let p := mk_pkt (msg p) dat in
          if negb (check_data p =? 0) then None else Some (p, q)
      end
  end.

Definition usb_remote_write (p : apacket) (q : list bytes) : list bytes :=
  let q := q ++ [encode_msg (msg p)] in
  if data_length (msg p) =? 0 then q
  else q ++ [take (Z.to_nat (data_length (msg p))) (data p)].

End Packet.

Section proofs.
Import Packet Io.

Definition msg_ok (m : amessage) : Prop :=
  is_u32 (command m) /\ is_u32 (arg0 m) /\ is_u32 (arg1 m) /\
  is_u32 (data_length m) /\ is_u32 (data_check m) /\ is_u32 (magic m).

(** A packet as the code holds it: words in range, a full payload array. *)
Definition pkt_ok (p : apacket) : Prop :=
  msg_ok (msg p) /\ length (data p) = Z.to_nat MAX_PAYLOAD /\ Forall is_u8 (data p) /\
  0 <= data_length (msg p) <= MAX_PAYLOAD.

Definition payload (p : apacket) : bytes := take (Z.to_nat (data_length (msg p))) (data p).

Lemma length_encode_msg m : length (encode_msg m) = MSG_SIZE.
Proof. unfold encode_msg. by rewrite !length_app, !length_le_split. Qed.

Lemma decode_encode_msg m : msg_ok m -> decode_msg (encode_msg m) = m.
Proof.
  intros (H0 & H1 & H2 & H3 & H4 & H5). destruct m as [c a0 a1 l k g]. cbn in *.
  assert (forall w, is_u32 w -> le_combine (le_split 4 w) = w) as E.
  { intros w Hw. rewrite le_combine_split. apply Z.mod_small, Hw. }
  unfold decode_msg, word_at, encode_msg. cbn [command arg0 arg1 data_length data_check magic].
  f_equal; cbn [le_split app drop take Nat.mul Nat.add];
    [apply (E c)|apply (E a0)|apply (E a1)|apply (E l)|apply (E k)|apply (E g)]; done.
Qed.

Lemma sum_bytes_take k x s : sum_bytes k (take k x) s = sum_bytes k x s.
Proof. revert k s. induction x; intros [|k] s; cbn; auto. Qed.

Lemma sum_bytes_range k x s : is_u32 s -> is_u32 (sum_bytes k x s).
Proof. revert k s. induction x; intros [|k] s Hs; cbn; auto using is_u32_u32. Qed.

Lemma not32_range c : is_u32 c -> is_u32 (not32 c).
Proof. intros Hc. apply is_u32_lxor; [done|]. unfold is_u32. lia. Qed.

Lemma seal_ok p : pkt_ok p -> pkt_ok (seal p).
Proof.
  intros ((H0 & H1 & H2 & H3 & H4 & H5) & Hrest). split; [|done].
  unfold seal, msg_ok. cbn. split_and!; auto using not32_range.
  apply sum_bytes_range. unfold is_u32. lia.
Qed.

Lemma seal_checks p q :
  pkt_ok p -> msg q = msg (seal p) -> payload q = payload (seal p) ->
  check_header q = 0 /\ check_data q = 0.
Proof.
  intros (_ & _ & _ & Hl) Hm Hp. unfold check_header, check_data, payload in *.
  rewrite Hm in *. cbn [seal msg data command data_length data_check magic] in *.
  rewrite Z.eqb_refl. cbn [negb]. split.
  - rewrite Z.gtb_ltb, (proj2 (Z.ltb_ge MAX_PAYLOAD _)) by lia. done.
  - rewrite <- sum_bytes_take, Hp, sum_bytes_take, Z.eqb_refl. done.
Qed.

Lemma length_payload p : pkt_ok p -> length (payload p) = Z.to_nat (data_length (msg p)).
Proof. intros (_ & Hl & _ & Hd). unfold payload. rewrite length_take. lia. Qed.

Lemma sealed_header p dat : pkt_ok p -> check_header (mk_pkt (msg (seal p)) dat) = 0.
Proof.
  intros (_ & _ & _ & Hl). unfold check_header. cbn [msg seal command magic data_length].
  rewrite Z.eqb_refl. cbn [negb]. by rewrite Z.gtb_ltb, (proj2 (Z.ltb_ge MAX_PAYLOAD _)) by lia.
Qed.

(** The payload stored over a fresh array passes the data check. *)
Lemma sealed_store p garbage :
  pkt_ok p -> length garbage = Z.to_nat MAX_PAYLOAD ->
  exists dat, store_bytes garbage 0 (payload p) = Some dat /\
    payload (mk_pkt (msg (seal p)) dat) = payload p /\
    check_data (mk_pkt (msg (seal p)) dat) = 0.
Proof.
  intros Hp Hg. pose proof (length_payload p Hp) as Ln.
  assert (0 <= data_length (msg p) <= MAX_PAYLOAD) as Hl by apply Hp.
  rewrite store_bytes_0 by lia. eexists; split; [done|].
  set (q := mk_pkt _ _). assert (payload q = payload p) as Hq.
  { unfold payload at 1. unfold q. cbn [msg data seal data_length take app].
    rewrite <- Ln. apply take_app_length. }
  split; [done|]. by apply (seal_checks p q Hp).
Qed.

(** C12 (roundtrip). A packet sealed by [send_packet] and written by the local
    transport's [remote_write] is returned by [remote_read] at the other end with
    the same header and payload, whatever pieces the stream delivers it in, and
    the bytes after it stay in the stream. *)
Theorem remote_roundtrip p w s rest e garbage :
  pkt_ok p -> (MSG_SIZE + Z.to_nat (data_length (msg p)) <= wr_total w)%nat ->
  length garbage = Z.to_nat MAX_PAYLOAD ->
  deliver s = ((encode_msg (msg (seal p)) ++ payload p) ++ rest, e) ->
  (exists w', remote_write (seal p) w = TxOk (encode_msg (msg (seal p)) ++ payload p) w') /\
  (exists q s', remote_read (get_apacket garbage) s = ROk q s' /\
     msg q = msg (seal p) /\ payload q = payload p /\ deliver s' = (rest, e)).
Proof.
  intros Hp Hw Hg Hd. pose proof (seal_ok p Hp) as (Hm & Hld & _ & Hl).
  pose proof (length_payload p Hp) as Ln. split.
  { apply writex_all. by rewrite length_app, length_encode_msg, Ln. }
  unfold remote_read. rewrite <- app_assoc in Hd.
  destruct (readx_ok s MSG_SIZE _ _ Hd) as (s1 & -> & D1).
  { rewrite length_app, length_encode_msg. lia. }
  rewrite <- (length_encode_msg (msg (seal p))), drop_app_length in D1.
  rewrite <- (length_encode_msg (msg (seal p))), take_app_length, decode_encode_msg by done.
  cbn [msg data get_apacket]. rewrite sealed_header by done. cbn [negb Z.eqb].
  change (data_length (msg (seal p))) with (data_length (msg p)). rewrite <- Ln.
  destruct (readx_ok s1 (length (payload p)) _ _ D1) as (s2 & -> & D2); [rewrite length_app; lia|].
  rewrite drop_app_length in D2. rewrite take_app_length.
  destruct (sealed_store p garbage Hp Hg) as (dat & -> & Hpl & Hc).
  rewrite Hc. cbn [negb Z.eqb]. do 2 eexists. split_and!; done.
Qed.

(** C13 (safety). Whatever bytes the peer sends, [remote_read] never stores
    beyond the payload array, and a packet it accepts has a matching magic, a
    length within MAX_PAYLOAD and a matching checksum. *)
Theorem remote_read_safe p s :
  length (data p) = Z.to_nat MAX_PAYLOAD ->
  match remote_read p s with
  | ROverrun => False
  | ROk q _ =>
      magic (msg q) = not32 (command (msg q)) /\ data_length (msg q) <= MAX_PAYLOAD /\
      sum_bytes (Z.to_nat (data_length (msg q))) (data q) 0 = data_check (msg q) /\
      length (data q) = Z.to_nat MAX_PAYLOAD
  | _ => True
  end.
Proof.
  intros Hl. unfold remote_read.
  destruct (readx s MSG_SIZE) as [h s1| | |] eqn:E1; try done. cbn [msg data].
  destruct (check_header _ =? 0) eqn:Hh; cbn [negb]; [|done].
  apply Z.eqb_eq in Hh. unfold check_header in Hh. cbn [msg] in Hh.
  destruct (Z.eqb_spec (magic (decode_msg h)) (not32 (command (decode_msg h)))); [|done].
  cbn [negb] in Hh. rewrite Z.gtb_ltb in Hh.
  destruct (Z.ltb_spec MAX_PAYLOAD (data_length (decode_msg h))); [done|].
  destruct (readx s1 _) as [d s2| | |] eqn:E2; try done.
  apply readx_ok_inv in E2 as [Ld _].
  rewrite store_bytes_0 by lia.
  destruct (check_data _ =? 0) eqn:Hc; cbn [negb]; [|done].
  apply Z.eqb_eq in Hc. unfold check_data in Hc. cbn [msg data] in *.
  destruct (Z.eqb_spec (sum_bytes (Z.to_nat (data_length (decode_msg h)))
              (d ++ drop (length d) (data p)) 0) (data_check (decode_msg h))); [|done].
  split_and!; [done|done|done|]. rewrite length_app, length_drop. lia.
Qed.

(** Over a USB endpoint that hands out whole transfers in
    order, the USB transport's [remote_read] returns the header and payload that
    [remote_write] sent, for empty and non-empty payloads. *)
Theorem usb_roundtrip usb_read p q garbage :
  (forall t r, usb_read (t :: r) (length t) = Some (t, r)) ->
  pkt_ok p -> length garbage = Z.to_nat MAX_PAYLOAD ->
  exists p', usb_remote_read usb_read (get_apacket garbage) (usb_remote_write (seal p) [] ++ q)
             = Some (p', q) /\ msg p' = msg (seal p) /\ payload p' = payload p.
Proof.
  intros Hu Hp Hg. pose proof (seal_ok p Hp) as (Hm & _).
  pose proof (length_payload p Hp) as Ln.
  unfold usb_remote_write, usb_remote_read. cbn [app].
  change (data_length (msg (seal p))) with (data_length (msg p)).
  change (take _ (data (seal p))) with (payload p).
  assert (forall r, usb_read (encode_msg (msg (seal p)) :: r) MSG_SIZE
                    = Some (encode_msg (msg (seal p)), r)) as Hmsg.
  { intros r. by rewrite <- (length_encode_msg (msg (seal p))). }
  destruct (sealed_store p garbage Hp Hg) as (dat & Est & Hpl & Hc).
  destruct (Z.eqb_spec (data_length (msg p)) 0) as [E0|E0]; cbn [app];
    rewrite Hmsg, decode_encode_msg by done; cbn [msg data get_apacket];
    rewrite sealed_header by done; cbn [negb Z.eqb];
    change (data_length (msg (seal p))) with (data_length (msg p)).
  - rewrite E0 in *. cbn [Z.eqb]. destruct (payload p) eqn:Epl; [|done].
    rewrite store_bytes_0 in Est by (cbn; lia). cbn in Est. rewrite drop_0 in Est.
    injection Est as <-.
    rewrite Hc. cbn [negb Z.eqb]. eauto.
  - rewrite (proj2 (Z.eqb_neq _ 0) E0), <- Ln, Hu, Est. cbn [mbind option_bind].
    rewrite Hc. cbn [negb Z.eqb]. eauto.
Qed.

(** *** Witnesses *)

Definition demo_pkt : apacket :=
  mk_pkt (mk_msg A_WRTE 1 2 5 0 0) (bs "hello" ++ replicate 4091 0).
Definition garbage0 : bytes := replicate 4096 0xaa.

Lemma demo_pkt_ok : pkt_ok demo_pkt.
Proof.
  split_and!; try (unfold MAX_PAYLOAD; cbn; lia); try by_compute; vm_compute; reflexivity.
Qed.

(** The bytes of the demo packet in pieces, with an interrupted read. *)
Definition demo_stream : list rd :=
  match encode_msg (msg (seal demo_pkt)) ++ payload demo_pkt with
  | b0 :: b1 :: b2 :: l => [RData b0 [b1]; RErr EINTR; RData b2 l; REof]
  | _ => []
  end.

Lemma remote_roundtrip_witness :
  (exists w', remote_write (seal demo_pkt) [WTake 3; WErr EINTR; WTake 90]
              = TxOk (encode_msg (msg (seal demo_pkt)) ++ payload demo_pkt) w') /\
  (exists q s', remote_read (get_apacket garbage0) demo_stream = ROk q s' /\
     msg q = msg (seal demo_pkt) /\ payload q = payload demo_pkt /\ deliver s' = ([], Broken)).
Proof.
  apply (remote_roundtrip demo_pkt [WTake 3; WErr EINTR; WTake 90] demo_stream [] Broken garbage0);
    [apply demo_pkt_ok|vm_compute; lia|reflexivity|vm_compute; reflexivity].
Defined.

Lemma remote_read_safe_witness :
  match remote_read (get_apacket garbage0) demo_stream with
  | ROverrun => False
  | ROk q _ =>
      magic (msg q) = not32 (command (msg q)) /\ data_length (msg q) <= MAX_PAYLOAD /\
      sum_bytes (Z.to_nat (data_length (msg q))) (data q) 0 = data_check (msg q) /\
      length (data q) = Z.to_nat MAX_PAYLOAD
  | _ => True
  end.
Proof. apply (remote_read_safe (get_apacket garbage0) demo_stream). reflexivity. Defined.

(** An endpoint that hands out whole transfers. *)
Definition usb_read_whole (q : list bytes) (len : nat) : option (bytes * list bytes) :=
  match q with
  | t :: r => if decide (length t = len) then Some (t, r) else None
  | [] => None
  end.

Lemma usb_roundtrip_witness :
  exists p', usb_remote_read usb_read_whole (get_apacket garbage0)
               (usb_remote_write (seal demo_pkt) [] ++ []) = Some (p', []) /\
             msg p' = msg (seal demo_pkt) /\ payload p' = payload demo_pkt.
Proof.
  apply (usb_roundtrip usb_read_whole demo_pkt [] garbage0);
    [|apply demo_pkt_ok|reflexivity].
  intros t r. unfold usb_read_whole. by rewrite decide_True.
Defined.
End proofs.
