(* ===== verification/Dlist.v ===== *)
(** * The circular doubly linked lists of adb

    Every list of adb is intrusive and circular: fdevents waiting for their
    callback (fdevent.c), local and closing sockets (sockets.c), transports and
    disconnect callbacks (transport.c), listeners (adb.c).  [Dlist] has the
    pointer code of each of these operations over one heap of [next] and [prev]
    fields; an access through a pointer that is not allocated is [None].
    [dlist h hd xs] says that the nodes [xs] hang in this order on the list head
    [hd]; the theorems show that insertion appends, removal deletes and dequeue
    takes the first node, and that no other list is disturbed.  The components
    that keep such lists use them as lists of pointers on this ground. *)

From S2P Require Import Prelude.

Abbreviation ptr := nat.
Definition NULL : ptr := 0%nat.

Module Dlist.

Record heap := mk_heap { nxt : gmap ptr ptr; prv : gmap ptr ptr }.

Definition get_next (h : heap) (p : ptr) : option ptr := nxt h !! p.
Definition get_prev (h : heap) (p : ptr) : option ptr := prv h !! p.

Definition set_next (h : heap) (p v : ptr) : option heap :=
  match nxt h !! p with
  | Some _ => Some (mk_heap (<[p := v]> (nxt h)) (prv h))
  | None => None
  end.
Definition set_prev (h : heap) (p v : ptr) : option heap :=
  match prv h !! p with
  | Some _ => Some (mk_heap (nxt h) (<[p := v]> (prv h)))
  | None => None
  end.

(** sockets.c *)
Definition insert_local_socket (h : heap) (s list : ptr) : option heap :=
  h ← set_next h s list;
  n ← get_next h s; p ← get_prev h n; h ← set_prev h s p;
  p ← get_prev h s; h ← set_next h p s;
  n ← get_next h s; set_prev h n s.

(** transport.c, the same four stores *)
Definition add_transport_disconnect (h : heap) (head dis : ptr) : option heap :=
  h ← set_next h dis head;
  n ← get_next h dis; p ← get_prev h n; h ← set_prev h dis p;
  p ← get_prev h dis; h ← set_next h p dis;
  n ← get_next h dis; set_prev h n dis.

(** Insertion into the transport list in transport_registration_func and into
    the listener list in install_listener. *)
Definition link_tail (h : heap) (t list : ptr) : option heap :=
  h ← set_next h t list;
  p ← get_prev h list; h ← set_prev h t p;
  n ← get_next h t; h ← set_prev h n t;
  p ← get_prev h t; set_next h p t.

(** fdevent.c *)
Definition fdevent_plist_enqueue (h : heap) (list node : ptr) : option heap :=
  h ← set_next h node list;
  p ← get_prev h list; h ← set_prev h node p;
  p ← get_prev h node; h ← set_next h p node;
  set_prev h list node.

(** [x->prev->next = x->next; x->next->prev = x->prev], common to all removals. *)
Definition unlink (h : heap) (x : ptr) : option heap :=
  p ← get_prev h x; n ← get_next h x; h ← set_next h p n;
  n ← get_next h x; p ← get_prev h x; set_prev h n p.

Definition fdevent_plist_remove (h : heap) (node : ptr) : option heap :=
  h ← unlink h node; h ← set_next h node NULL; set_prev h node NULL.

(** remove_socket does nothing on a socket that is on no list. *)
Definition remove_socket (h : heap) (s : ptr) : option heap :=
  p ← get_prev h s; n ← get_next h s;
  if (p =? NULL)%nat || (n =? NULL)%nat then Some h
  else h ← unlink h s; h ← set_next h s NULL; set_prev h s NULL.

Definition remove_transport_disconnect (h : heap) (dis : ptr) : option heap :=
  h ← unlink h dis; h ← set_prev h dis dis; set_next h dis dis.

(** fdevent_plist_dequeue: the first node, or NULL on the empty list. *)
Definition fdevent_plist_dequeue (h : heap) (list : ptr) : option (heap * ptr) :=
  node ← get_next h list;
  if (node =? list)%nat then Some (h, NULL)
  else
    n ← get_next h node; h ← set_next h list n;
    n ← get_next h list; h ← set_prev h n list;
    h ← set_next h node NULL; h ← set_prev h node NULL;
    Some (h, node).

End Dlist.

Section proofs.
Import Dlist.
Implicit Types (h : heap) (x y hd s : ptr) (xs ys l : list ptr).

Definition link h x y : Prop := nxt h !! x = Some y /\ prv h !! y = Some x.

(** Consecutive nodes of [l] are linked both ways. *)
Fixpoint path h l : Prop :=
  match l with
  | x :: l' => match l' with y :: _ => link h x y /\ path h l' | [] => True end
  | [] => True
  end.

Definition dlist h hd xs : Prop := NoDup (hd :: xs) /\ path h (hd :: xs ++ [hd]).

Lemma path_cons h x y l : path h (x :: y :: l) <-> link h x y /\ path h (y :: l).
Proof. done. Qed.

Lemma path_app h l1 x l2 : path h (l1 ++ x :: l2) <-> path h (l1 ++ [x]) /\ path h (x :: l2).
Proof.
  induction l1 as [|a [|b l1] IH]; cbn [app].
  - cbn. tauto.
  - rewrite !path_cons. cbn. tauto.
  - rewrite !path_cons. cbn [app] in IH. rewrite IH. tauto.
Qed.

(** The path only reads [next] of all nodes but the last and [prev] of all but
    the first. *)
Lemma path_frame h h' l :
  (forall x, x ∈ removelast l -> nxt h' !! x = nxt h !! x) ->
  (forall x, x ∈ tail l -> prv h' !! x = prv h !! x) ->
  path h l -> path h' l.
Proof.
  induction l as [|a [|b l] IH]; intros Hn Hp; [done..|].
  rewrite !path_cons. intros [[H1 H2] H]. split.
  - split; [rewrite Hn|rewrite Hp]; set_solver.
  - apply IH; [| |done]; intros x Hx; [apply Hn|apply Hp]; cbn in *; set_solver.
Qed.

Lemma removelast_snoc (l : list ptr) x : removelast (l ++ [x]) = l.
Proof. apply removelast_last. Qed.

(** The fields a heap operation may have changed. *)
Definition same_but (P : ptr -> Prop) h h' : Prop :=
  (forall x, ~ P x -> nxt h' !! x = nxt h !! x /\ prv h' !! x = prv h !! x) /\
  (forall x, is_Some (nxt h !! x) <-> is_Some (nxt h' !! x)) /\
  (forall x, is_Some (prv h !! x) <-> is_Some (prv h' !! x)).

Lemma set_next_is h p v :
  is_Some (nxt h !! p) -> set_next h p v = Some (mk_heap (<[p := v]> (nxt h)) (prv h)).
Proof. intros [w Hw]. unfold set_next. by rewrite Hw. Qed.
Lemma set_prev_is h p v :
  is_Some (prv h !! p) -> set_prev h p v = Some (mk_heap (nxt h) (<[p := v]> (prv h))).
Proof. intros [w Hw]. unfold set_prev. by rewrite Hw. Qed.

Lemma is_Some_insert (m : gmap ptr ptr) i v j :
  is_Some (m !! i) -> is_Some (<[i := v]> m !! j) <-> is_Some (m !! j).
Proof.
  intros Hi. destruct (decide (i = j)) as [->|Hne].
  - rewrite lookup_insert_eq. split; eauto.
  - by rewrite lookup_insert_ne.
Qed.

(** A disjoint list survives an operation on other nodes. *)
Lemma dlist_frame (P : ptr -> Prop) h h' hd xs :
  same_but P h h' -> (forall x, x ∈ hd :: xs -> ~ P x) -> dlist h hd xs -> dlist h' hd xs.
Proof.
  intros (Hs & _) HP [Hnd Hp]. split; [done|].
  assert (forall x, x ∈ hd :: xs ++ [hd] -> ~ P x) as HP' by (intros x Hx; apply HP; set_solver).
  apply (path_frame h); [| |done]; intros x Hx; apply Hs, HP'.
  - rewrite app_comm_cons, removelast_snoc in Hx. set_solver.
  - cbn in Hx. set_solver.
Qed.

(** *** Insertion *)

(** The heap after the four stores of an insertion, [p] the old last node. *)
Definition inserted h s hd p : heap :=
  mk_heap (<[p := s]> (<[s := hd]> (nxt h))) (<[hd := s]> (<[s := p]> (prv h))).

Lemma dlist_last h hd xs :
  dlist h hd xs -> exists ys p, hd :: xs = ys ++ [p] /\ link h p hd /\ path h (ys ++ [p]).
Proof.
  intros [Hnd Hp]. destruct (exists_last (l := hd :: xs)) as (ys & p & E); [done|].
  exists ys, p. rewrite app_comm_cons, E, <- app_assoc in Hp. cbn [app] in Hp.
  rewrite path_app, path_cons in Hp. tauto.
Qed.

Lemma dlist_heads h hd xs :
  dlist h hd xs -> forall x, x ∈ hd :: xs -> is_Some (nxt h !! x) /\ is_Some (prv h !! x).
Proof.
  intros [_ Hp] x Hx. apply list_elem_of_split in Hx as (l1 & l2 & E).
  rewrite app_comm_cons, E in Hp. rewrite <- app_assoc in Hp. cbn [app] in Hp.
  split.
  - rewrite path_app in Hp. destruct Hp as [_ Hp]. destruct l2; cbn in Hp;
      destruct Hp as [[-> _] _]; eauto.
  - destruct l1 as [|a l1].
    + injection E as <- ->. clear -Hp. destruct (exists_last (l := hd :: l2)) as (ys & p & E); [done|].
      rewrite app_comm_cons, E, <- app_assoc in Hp. cbn [app] in Hp.
      rewrite path_app, path_cons in Hp. destruct Hp as [_ [[_ ->] _]]. eauto.
    + destruct (exists_last (l := a :: l1)) as (ys & p & E1); [done|].
      rewrite E1, <- app_assoc in Hp. cbn [app] in Hp.
      rewrite path_app, path_cons in Hp. destruct Hp as [_ [[_ ->] _]]. eauto.
Qed.

Lemma inserted_dlist h hd xs s p ys :
  dlist h hd xs -> s ∉ hd :: xs -> is_Some (nxt h !! s) -> is_Some (prv h !! s) ->
  hd :: xs = ys ++ [p] -> path h (ys ++ [p]) ->
  dlist (inserted h s hd p) hd (xs ++ [s]) /\
  same_but (fun x => x ∈ s :: hd :: xs) h (inserted h s hd p).
Proof.
  intros Hd Hs Hn Hpv E Hp. pose proof (dlist_heads _ _ _ Hd) as Hh.
  assert (p ∈ hd :: xs) as Hpin by (rewrite E; set_solver).
  destruct Hd as [Hnd _]. pose proof Hnd as [Hhd _]%NoDup_cons. split.
  - split.
    { rewrite app_comm_cons. apply NoDup_app. split_and!; [done| |apply NoDup_singleton].
      set_solver. }
    rewrite <- app_assoc, !app_comm_cons, E, <- app_assoc. cbn [app].
    rewrite path_app, !path_cons. rewrite E in Hnd. apply NoDup_app in Hnd as (Hys & Hyp & _).
    split_and!; [|split|split|done]; cbn.
    + apply (path_frame h); [| |done]; intros x Hx; cbn.
      * rewrite removelast_snoc in Hx. rewrite E in Hs.
        rewrite !lookup_insert_ne; [done|clear -Hs Hx; set_solver|clear -Hyp Hx; set_solver].
      * assert (x ∈ xs) by (rewrite <- E in Hx; done).
        rewrite !lookup_insert_ne; [done|clear -Hs H; set_solver|by intros ->].
    + by rewrite lookup_insert_eq.
    + rewrite lookup_insert_ne by set_solver. by rewrite lookup_insert_eq.
    + rewrite lookup_insert_ne by set_solver. by rewrite lookup_insert_eq.
    + by rewrite lookup_insert_eq.
  - split_and!; cbn.
    + intros x Hx. rewrite !lookup_insert_ne by set_solver. done.
    + intros x. rewrite !is_Some_insert; [done|done|]. apply is_Some_insert; [done|].
      by apply Hh.
    + intros x. rewrite !is_Some_insert; [done|done|]. apply is_Some_insert; [done|].
      apply Hh. set_solver.
Qed.

(** Run the stores of an operation: read through the updates, discharge the
    allocation side conditions. *)
Ltac heap_run :=
  repeat first
    [ progress cbn [mbind option_bind nxt prv]
    | rewrite lookup_insert_eq
    | rewrite lookup_insert_ne by done
    | match goal with
      | H : ?m !! ?i = Some _ |- context [?m !! ?i] => rewrite H
      | |- context [match ?o with Some _ => _ | None => _ end] =>
          match o with context [_ !! _] => destruct o eqn:? end
      end ].

Lemma insertions_agree h hd xs s :
  dlist h hd xs -> s ∉ hd :: xs -> is_Some (nxt h !! s) -> is_Some (prv h !! s) ->
  exists p ys, hd :: xs = ys ++ [p] /\ path h (ys ++ [p]) /\
    insert_local_socket h s hd = Some (inserted h s hd p) /\
    add_transport_disconnect h hd s = Some (inserted h s hd p) /\
    link_tail h s hd = Some (inserted h s hd p) /\
    fdevent_plist_enqueue h hd s = Some (inserted h s hd p).
Proof.
  intros Hd Hs [ns Hns] [ps Hps].
  destruct (dlist_last _ _ _ Hd) as (ys & p & E & [Hpn Hph] & Hpath).
  assert (p <> s) as Hne1 by (intros ->; apply Hs; rewrite E; set_solver).
  assert (s <> p) as Hne2 by done. assert (hd <> s) as Hne3 by set_solver.
  assert (s <> hd) as Hne4 by done.
  exists p, ys. split; [done|]. split; [done|].
  unfold insert_local_socket, add_transport_disconnect, link_tail, fdevent_plist_enqueue,
    inserted, get_next, get_prev, set_next, set_prev.
  split_and!; heap_run; done.
Qed.

(** *** Removal *)

(** The heap after the two stores of an unlink. *)
Definition unlinked h p n : heap := mk_heap (<[p := n]> (nxt h)) (<[n := p]> (prv h)).

Lemma dlist_split h hd l1 x l2 :
  dlist h hd (l1 ++ x :: l2) ->
  exists ys p n zs, hd :: l1 = ys ++ [p] /\ l2 ++ [hd] = n :: zs /\
    link h p x /\ link h x n /\ path h (ys ++ [p]) /\ path h (n :: zs).
Proof.
  intros [_ Hp].
  destruct (exists_last (l := hd :: l1)) as (ys & p & E); [done|].
  destruct (l2 ++ [hd]) as [|n zs] eqn:E2; [by destruct l2|].
  exists ys, p, n, zs. split; [done|]. split; [done|].
  rewrite <- app_assoc in Hp. cbn [app] in Hp. rewrite E2, app_comm_cons, E in Hp.
  rewrite <- app_assoc in Hp. cbn [app] in Hp.
  rewrite path_app, !path_cons in Hp. tauto.
Qed.

Lemma unlinked_dlist h hd l1 x l2 ys p n zs :
  dlist h hd (l1 ++ x :: l2) -> hd :: l1 = ys ++ [p] -> l2 ++ [hd] = n :: zs ->
  path h (ys ++ [p]) -> path h (n :: zs) ->
  dlist (unlinked h p n) hd (l1 ++ l2).
Proof.
  intros [Hnd _] E1 E2 P1 P2.
  assert (NoDup ((hd :: l1) ++ l2)) as Hnd'.
  { rewrite app_comm_cons, <- Permutation_middle in Hnd. by apply NoDup_cons in Hnd as [_ ?]. }
  split; [done|].
  rewrite <- app_assoc, app_comm_cons, E1, E2, <- app_assoc. cbn [app].
  apply NoDup_app in Hnd' as (N1 & N12 & N2).
  assert (NoDup (n :: zs)) as N3.
  { rewrite <- E2. apply NoDup_app. split_and!; [done| |apply NoDup_singleton].
    intros y Hy ->%list_elem_of_singleton. apply (N12 hd); [left|done]. }
  assert (n ∈ l2 ++ [hd]) as Hn by (rewrite E2; left).
  assert (p ∈ hd :: l1) as Hpin by (rewrite E1; set_solver).
  apply NoDup_cons in N3 as [N3 _].
  rewrite path_app, path_cons. split_and!.
  - apply (path_frame h); [| |done]; intros y Hy; cbn.
    + rewrite removelast_snoc in Hy. apply lookup_insert_ne. intros ->.
      rewrite E1 in N1. apply NoDup_app in N1 as (_ & N1 & _). apply (N1 y Hy). left.
    + apply lookup_insert_ne. intros ->. rewrite <- E1 in Hy. cbn in Hy.
      apply NoDup_cons in N1 as [N1 _].
      apply elem_of_app in Hn as [Hn| ->%list_elem_of_singleton]; [|done].
      apply (N12 y); [by right|done].
  - split; cbn; by rewrite lookup_insert_eq.
  - apply (path_frame h); [| |done]; intros y Hy; cbn.
    + rewrite <- E2, removelast_snoc in Hy. apply lookup_insert_ne. intros ->. by apply (N12 y).
    + apply lookup_insert_ne. intros ->. done.
Qed.

Lemma unlink_spec h hd l1 x l2 :
  dlist h hd (l1 ++ x :: l2) ->
  exists p n, unlink h x = Some (unlinked h p n) /\ link h p x /\ link h x n /\
    p <> x /\ n <> x /\ p ∈ hd :: l1 /\ n ∈ l2 ++ [hd] /\
    dlist (unlinked h p n) hd (l1 ++ l2).
Proof.
  intros Hd. destruct (dlist_split _ _ _ _ _ Hd) as (ys & p & n & zs & E1 & E2 & Hp & Hn & P1 & P2).
  pose proof Hd as [Hnd _]. rewrite app_comm_cons, <- Permutation_middle in Hnd.
  apply NoDup_cons in Hnd as [Hx _].
  assert (p ∈ hd :: l1) as Hpin by (rewrite E1; set_solver).
  assert (n ∈ l2 ++ [hd]) as Hnin by (rewrite E2; left).
  assert (p <> x) by (intros ->; apply Hx; set_solver).
  assert (n <> x) by (intros ->; apply Hx; set_solver).
  exists p, n. split_and!; auto.
  - pose proof Hp as [Hp1 Hp2]. pose proof Hn as [Hn1 Hn2].
    unfold unlink, unlinked, get_next, get_prev, set_next, set_prev. heap_run; done.
  - by eapply unlinked_dlist.
Qed.

Lemma same_but_weaken (P Q : ptr -> Prop) h h' :
  (forall x, P x -> Q x) -> same_but P h h' -> same_but Q h h'.
Proof. intros HPQ (H1 & H2 & H3). split_and!; auto. Qed.

Lemma unlinked_same h hd l1 x l2 p n :
  link h p x -> link h x n -> p ∈ hd :: l1 -> n ∈ l2 ++ [hd] ->
  same_but (fun y => y ∈ hd :: l1 ++ x :: l2) h (unlinked h p n).
Proof.
  intros [Hp _] [_ Hn] Hpin Hnin. split_and!; cbn.
  - intros y Hy. rewrite !lookup_insert_ne by set_solver. done.
  - intros y. rewrite is_Some_insert; eauto.
  - intros y. rewrite is_Some_insert; eauto.
Qed.

(** The fields of the removed node itself may be set to anything. *)
Lemma dlist_set_self h hd xs x nv pv :
  x ∉ hd :: xs -> dlist h hd xs ->
  dlist (mk_heap (<[x := nv]> (nxt h)) (<[x := pv]> (prv h))) hd xs.
Proof.
  intros Hx [Hnd Hp]. split; [done|].
  apply (path_frame h); [| |done]; intros y Hy; cbn; apply lookup_insert_ne; intros ->; apply Hx.
  - rewrite app_comm_cons, removelast_snoc in Hy. done.
  - cbn in Hy. set_solver.
Qed.

(** Removal followed by any setting of the node's own fields. *)
Lemma removed_spec h hd l1 x l2 nv pv :
  dlist h hd (l1 ++ x :: l2) ->
  exists p n, unlink h x = Some (unlinked h p n) /\ link h p x /\ link h x n /\
    p <> x /\ n <> x /\
    let h' := mk_heap (<[x := nv]> (nxt (unlinked h p n))) (<[x := pv]> (prv (unlinked h p n))) in
    dlist h' hd (l1 ++ l2) /\ same_but (fun y => y ∈ hd :: l1 ++ x :: l2) h h'.
Proof.
  intros Hd. destruct (unlink_spec _ _ _ _ _ Hd) as (p & n & E & Hp & Hn & N1 & N2 & I1 & I2 & Hd').
  exists p, n. do 5 (split; [done|]). cbn zeta. split.
  - apply dlist_set_self; [|done]. destruct Hd as [Hnd _].
    rewrite app_comm_cons, <- Permutation_middle in Hnd. by apply NoDup_cons in Hnd as [? _].
  - destruct (unlinked_same h hd l1 x l2 p n Hp Hn I1 I2) as (S1 & S2 & S3).
    assert (is_Some (nxt (unlinked h p n) !! x)) by (apply S2; destruct Hn as [-> _]; eauto).
    assert (is_Some (prv (unlinked h p n) !! x)) by (apply S3; destruct Hp as [_ ->]; eauto).
    split_and!; cbn.
    + intros y Hy. rewrite !(lookup_insert_ne _ x) by set_solver. by apply S1.
    + intros y. rewrite is_Some_insert by done. apply S2.
    + intros y. rewrite is_Some_insert by done. apply S3.
Qed.

Lemma elem_of_frame_l h hd l1 x l2 p :
  dlist h hd (l1 ++ x :: l2) -> nxt h !! p = Some x -> prv h !! x = Some p ->
  p ∈ hd :: l1 ++ x :: l2.
Proof.
  intros Hd _ Hx. destruct (unlink_spec _ _ _ _ _ Hd) as (p' & n & _ & [_ Hp] & _ & _ & _ & I & _).
  rewrite Hx in Hp. injection Hp as ->. set_solver.
Qed.

Lemma elem_of_frame_r h hd l1 x l2 n :
  dlist h hd (l1 ++ x :: l2) -> nxt h !! x = Some n -> n ∈ hd :: l1 ++ x :: l2.
Proof.
  intros Hd Hx. destruct (unlink_spec _ _ _ _ _ Hd) as (p & n' & _ & _ & [Hn _] & _ & _ & _ & I & _).
  rewrite Hx in Hn. injection Hn as ->. set_solver.
Qed.

(** Every insertion of adb (insert_local_socket,
    add_transport_disconnect, the transport and listener lists,
    fdevent_plist_enqueue) appends the node at the tail of the list, touches only
    allocated nodes, and leaves every list that shares no node with it as it was. *)
Theorem insert_appends h hd xs s :
  dlist h hd xs -> s ∉ hd :: xs -> is_Some (nxt h !! s) -> is_Some (prv h !! s) ->
  exists h',
    insert_local_socket h s hd = Some h' /\ add_transport_disconnect h hd s = Some h' /\
    link_tail h s hd = Some h' /\ fdevent_plist_enqueue h hd s = Some h' /\
    dlist h' hd (xs ++ [s]) /\
    (forall hd2 ys, (forall y, y ∈ hd2 :: ys -> y ∉ s :: hd :: xs) ->
                    dlist h hd2 ys -> dlist h' hd2 ys).
Proof.
  intros Hd Hs Hn Hp.
  destruct (insertions_agree h hd xs s Hd Hs Hn Hp) as (p & ys & E & Hpath & E1 & E2 & E3 & E4).
  destruct (inserted_dlist h hd xs s p ys Hd Hs Hn Hp E Hpath) as [Hd' Hsame].
  exists (inserted h s hd p). split_and!; auto. intros hd2 zs Hdis.
  by apply (dlist_frame _ _ _ _ _ Hsame).
Qed.

(** Each removal (fdevent_plist_remove, remove_socket,
    remove_transport_disconnect) takes its node out of the list it is on, keeps
    the order of the others and every disjoint list; remove_socket also does
    nothing when the socket is on no list. *)
Theorem remove_deletes h hd l1 x l2 :
  dlist h hd (l1 ++ x :: l2) -> NULL ∉ hd :: l1 ++ x :: l2 ->
  exists h1 h2,
    fdevent_plist_remove h x = Some h1 /\ remove_socket h x = Some h1 /\
    remove_transport_disconnect h x = Some h2 /\
    dlist h1 hd (l1 ++ l2) /\ dlist h2 hd (l1 ++ l2) /\
    remove_socket h1 x = Some h1 /\
    (forall hd2 ys, (forall y, y ∈ hd2 :: ys -> y ∉ hd :: l1 ++ x :: l2) ->
                    dlist h hd2 ys -> dlist h1 hd2 ys /\ dlist h2 hd2 ys).
Proof.
  intros Hd Hnull.
  destruct (removed_spec h hd l1 x l2 NULL NULL Hd) as (p & n & E & [Hp Hp'] & [Hn Hn'] & N1 & N2 & D1 & S1).
  destruct (removed_spec h hd l1 x l2 x x Hd) as (p2 & n2 & _ & [_ Hp2] & [Hn2 _] & _ & _ & D2 & S2).
  rewrite Hp' in Hp2. injection Hp2 as <-. rewrite Hn in Hn2. injection Hn2 as <-.
  assert (nxt (unlinked h p n) !! x = Some n) as Hx1 by (cbn; by rewrite lookup_insert_ne).
  assert (prv (unlinked h p n) !! x = Some p) as Hx2 by (cbn; by rewrite lookup_insert_ne).
  eexists _, _. split_and!; [| | |exact D1|exact D2| |].
  - unfold fdevent_plist_remove, set_next, set_prev. rewrite E. cbn [mbind option_bind].
    rewrite Hx1. cbn [mbind option_bind prv]. rewrite Hx2. done.
  - unfold remove_socket, set_next, set_prev, get_next, get_prev.
    rewrite Hp', Hn. cbn [mbind option_bind].
    assert (p <> NULL) by (intros ->; apply Hnull; eapply (elem_of_frame_l h hd l1 x l2); eauto).
    assert (n <> NULL) by (intros ->; apply Hnull; eapply (elem_of_frame_r h hd l1 x l2); eauto).
    rewrite !(proj2 (Nat.eqb_neq _ NULL)) by done. cbn [orb]. rewrite E. cbn [mbind option_bind].
    rewrite Hx1. cbn [mbind option_bind prv]. rewrite Hx2. done.
  - unfold remove_transport_disconnect, set_next, set_prev. rewrite E. cbn [mbind option_bind].
    rewrite Hx2. cbn [mbind option_bind nxt]. rewrite Hx1. done.
  - unfold remove_socket, get_next, get_prev. cbn [nxt prv]. by rewrite !lookup_insert_eq.
  - intros hd2 ys Hdis Hd2. split; [apply (dlist_frame _ _ _ _ _ S1)|apply (dlist_frame _ _ _ _ _ S2)]; done.
Qed.

(** fdevent_plist_dequeue returns NULL and changes nothing on
    an empty list, and otherwise returns the first node and leaves the rest, so
    that enqueue and dequeue make a first-in first-out queue. *)
Theorem dequeue_first h hd xs :
  dlist h hd xs ->
  match xs with
  | [] => fdevent_plist_dequeue h hd = Some (h, NULL)
  | x :: xs' => exists h', fdevent_plist_dequeue h hd = Some (h', x) /\ dlist h' hd xs'
  end.
Proof.
  intros Hd. destruct xs as [|x xs].
  - destruct Hd as [_ [[Hn _] _]]. unfold fdevent_plist_dequeue, get_next.
    rewrite Hn. cbn [mbind option_bind]. by rewrite Nat.eqb_refl.
  - destruct (removed_spec h hd [] x xs NULL NULL Hd) as (p & n & E & [Hp Hp'] & [Hn Hn'] & N1 & N2 & D1 & S1).
    assert (p = hd) as ->.
    { destruct Hd as [_ [[_ Hx] _]]. rewrite Hp' in Hx. by injection Hx. }
    assert (x <> hd) as Hxh by (destruct Hd as [Hnd _]; apply NoDup_cons in Hnd as [? _]; set_solver).
    eexists. split; [|exact D1].
    unfold fdevent_plist_dequeue, get_next, set_next, set_prev.
    rewrite Hp. cbn [mbind option_bind]. rewrite (proj2 (Nat.eqb_neq x hd) Hxh), Hn.
    cbn [mbind option_bind nxt prv].
    rewrite lookup_insert_eq. cbn [mbind option_bind].
    rewrite Hn'. cbn [mbind option_bind nxt prv].
    rewrite lookup_insert_ne, Hn by done. cbn [mbind option_bind nxt prv].
    rewrite lookup_insert_ne, Hp' by done. done.
Qed.

(** *** Witnesses: a list of two nodes on head 1, node 4 free *)
Definition demo_heap : heap :=
  mk_heap (list_to_map [(1, 2); (2, 3); (3, 1); (4, 0)]%nat)
          (list_to_map [(1, 3); (2, 1); (3, 2); (4, 0)]%nat).

Lemma demo_dlist : dlist demo_heap 1 [2; 3]%nat.
Proof. split; [by_compute|vm_compute; tauto]. Qed.

Lemma insert_appends_witness :
  exists h',
    insert_local_socket demo_heap 4 1 = Some h' /\ add_transport_disconnect demo_heap 1 4 = Some h' /\
    link_tail demo_heap 4 1 = Some h' /\ fdevent_plist_enqueue demo_heap 1 4 = Some h' /\
    dlist h' 1 [2; 3; 4]%nat /\
    (forall hd2 ys, (forall y, y ∈ hd2 :: ys -> y ∉ [4; 1; 2; 3]%nat) ->
                    dlist demo_heap hd2 ys -> dlist h' hd2 ys).
Proof.
  apply (insert_appends demo_heap 1%nat [2; 3]%nat 4%nat demo_dlist);
    [by_compute|by eexists|by eexists].
Defined.

Lemma remove_deletes_witness :
  exists h1 h2,
    fdevent_plist_remove demo_heap 2 = Some h1 /\ remove_socket demo_heap 2 = Some h1 /\
    remove_transport_disconnect demo_heap 2 = Some h2 /\
    dlist h1 1 [3]%nat /\ dlist h2 1 [3]%nat /\ remove_socket h1 2 = Some h1 /\
    (forall hd2 ys, (forall y, y ∈ hd2 :: ys -> y ∉ [1; 2; 3]%nat) ->
                    dlist demo_heap hd2 ys -> dlist h1 hd2 ys /\ dlist h2 hd2 ys).
Proof.
  apply (remove_deletes demo_heap 1%nat [] 2%nat [3]%nat demo_dlist). by_compute.
Defined.

Lemma dequeue_first_witness :
  exists h', fdevent_plist_dequeue demo_heap 1 = Some (h', 2%nat) /\ dlist h' 1 [3]%nat.
Proof. apply (dequeue_first demo_heap 1%nat [2; 3]%nat demo_dlist). Defined.
End proofs.
