(* ===== verification/Fdevent.v ===== *)
(** * The event loop (tools/adb/fdevent.c, the select variant)

    [Fdevent] is the state of the file (the fdevents, the list of pending ones,
    the fd table, the three watch sets and [select_n]) and every operation on it,
    down to one round of the loop.  [loop_inv] relates the four representations
    of which events are wanted and which are pending; the theorems show that
    every operation keeps it, that none of the FATAL checks fires under it, and
    what the loop delivers. *)

From S2P Require Import Prelude Dlist.

Module Fdevent.

Definition FDE_READ : Z := 0x0001.
Definition FDE_WRITE : Z := 0x0002.
Definition FDE_ERROR : Z := 0x0004.
Definition FDE_DONT_CLOSE : Z := 0x0080.
Definition FDE_EVENTMASK : Z := 0x00ff.
Definition FDE_STATEMASK : Z := 0xff00.
Definition FDE_ACTIVE : Z := 0x0100.
Definition FDE_PENDING : Z := 0x0200.
Definition FDE_CREATED : Z := 0x0400.

(** [if (word & flag)] *)
Definition has (word flag : Z) : bool := negb (Z.land word flag =? 0).
Definition clear (word flag : Z) : Z := Z.land word (Z.lnot flag).

Record fdevent := mk_fde { fd : Z; state : Z; events : Z; func : nat; arg : nat }.

(** The bits of an fd_set.  FD_SET, FD_CLR and FD_ISSET do not look whether theirs is
    one of them: with another they reach memory behind the set. *)
Definition FD_SETSIZE : Z := 1024.
Definition fd_bit (i : Z) : outcome unit := if (0 <=? i) && (i <? FD_SETSIZE) then Done tt else Undef "fd_set".

(** State of the file: the fdevents by address, [list_pending] as the nodes on
    it, [fd_table] with its length [fd_table_max], the watch sets, [select_n],
    and the descriptors closed so far. *)
Record loop := mk_loop {
  fdes : gmap ptr fdevent;
  pending : list ptr;
  fd_table : list (option ptr);
  read_fds : gset Z;
  write_fds : gset Z;
  error_fds : gset Z;
  select_n : Z;
  closed : list Z
}.

Definition put_fde (L : loop) (p : ptr) (f : fdevent) : loop :=
  mk_loop (<[p := f]> (fdes L)) (pending L) (fd_table L) (read_fds L) (write_fds L)
    (error_fds L) (select_n L) (closed L).
Definition put_pending (L : loop) (l : list ptr) : loop :=
  mk_loop (fdes L) l (fd_table L) (read_fds L) (write_fds L) (error_fds L) (select_n L) (closed L).
Definition put_table (L : loop) (t : list (option ptr)) : loop :=
  mk_loop (fdes L) (pending L) t (read_fds L) (write_fds L) (error_fds L) (select_n L) (closed L).
Definition put_sets (L : loop) (r w e : gset Z) : loop :=
  mk_loop (fdes L) (pending L) (fd_table L) r w e (select_n L) (closed L).
Definition put_select_n (L : loop) (n : Z) : loop :=
  mk_loop (fdes L) (pending L) (fd_table L) (read_fds L) (write_fds L) (error_fds L) n (closed L).
Definition put_closed (L : loop) (c : list Z) : loop :=
  mk_loop (fdes L) (pending L) (fd_table L) (read_fds L) (write_fds L) (error_fds L) (select_n L) c.

Definition set_state (f : fdevent) (s : Z) : fdevent := mk_fde (fd f) s (events f) (func f) (arg f).
Definition set_events (f : fdevent) (e : Z) : fdevent := mk_fde (fd f) (state f) e (func f) (arg f).

Definition get_fde (L : loop) (p : ptr) : outcome fdevent := deref "fdevent" (fdes L !! p).

(** The list operations of the file on [list_pending] (see Dlist). *)
Definition plist_enqueue (L : loop) (p : ptr) : loop := put_pending L (pending L ++ [p]).
Definition plist_remove (L : loop) (p : ptr) : loop :=
  put_pending L (filter (fun q => q <> p) (pending L)).

Definition fdevent_init (L : loop) : loop := put_sets L ∅ ∅ ∅.

Definition fdevent_connect (L : loop) (p : ptr) : outcome loop :=
  f ← get_fde L p;
  Done (if fd f >=? select_n L then put_select_n L (fd f + 1) else L).

(** Last index below [n] whose slot is not empty, 0 when there is none. *)
Fixpoint last_used (n : nat) (t : list (option ptr)) : Z :=
  match n with
  | O => 0
  | S i => match t !! i with Some (Some _) => Z.of_nat i | _ => last_used i t end
  end.

Definition fdevent_disconnect (L : loop) (p : ptr) : outcome loop :=
  f ← get_fde L p;
  _ ← fd_bit (fd f);
  let L := put_sets L (read_fds L ∖ {[fd f]}) (write_fds L ∖ {[fd f]}) (error_fds L ∖ {[fd f]}) in
  if select_n L >? Z.of_nat (length (fd_table L)) then Undef "fd_table"
  else Done (put_select_n L (last_used (Z.to_nat (select_n L)) (fd_table L) + 1)).

(** [FD_SET] or [FD_CLR] by a bit of the requested events. *)
Definition fd_assign (on : bool) (i : Z) (s : gset Z) : gset Z :=
  if on then {[i]} ∪ s else s ∖ {[i]}.

Definition fdevent_update (L : loop) (p : ptr) (ev : Z) : outcome loop :=
  f ← get_fde L p;
  _ ← fd_bit (fd f);
  let L := put_sets L (fd_assign (has ev FDE_READ) (fd f) (read_fds L))
                      (fd_assign (has ev FDE_WRITE) (fd f) (write_fds L))
                      (fd_assign (has ev FDE_ERROR) (fd f) (error_fds L)) in
  Done (put_fde L p (set_state f (Z.lor (Z.land (state f) FDE_STATEMASK) ev))).

(** Doubling of fd_table_max until [i] fits; 8 doublings reach 65536 > 32000. *)
Fixpoint grow (fuel : nat) (max i : Z) : Z :=
  match fuel with
  | O => max
  | S f => if max <=? i then grow f (max * 2) i else max
  end.

(** The growing of the table in fdevent_register for descriptor [i]; [garbage] is
    what realloc leaves in the new slots, of which the memset zeroes [sizeof(int)]
    bytes each, [ptr_size] being the size of one. *)
Definition grow_table (ptr_size : Z) (garbage : list (option ptr)) (L : loop) (i : Z) : loop :=
  let oldmax := Z.of_nat (length (fd_table L)) in
  let '(L, max) := if oldmax =? 0 then (fdevent_init L, 256) else (L, oldmax) in
  let max := grow 8 max i in
  let zeroed := Z.to_nat (4 * (max - oldmax) / ptr_size) in
  put_table L (fd_table L ++ replicate zeroed None
               ++ drop zeroed (take (Z.to_nat (max - oldmax)) garbage)).

Definition fdevent_register (ptr_size : Z) (garbage : list (option ptr)) (L : loop) (p : ptr)
    : outcome loop :=
  f ← get_fde L p;
  if fd f <? 0 then Stop "bogus negative fd"
  else
    L ← (if fd f >=? Z.of_nat (length (fd_table L)) then
           if fd f >? 32000 then Stop "bogus huuuuge fd"
           else Done (grow_table ptr_size garbage L (fd f))
         else Done L);
    Done (put_table L (<[Z.to_nat (fd f) := Some p]> (fd_table L))).

Definition fdevent_unregister (L : loop) (p : ptr) : outcome loop :=
  f ← get_fde L p;
  if (fd f <? 0) || (fd f >=? Z.of_nat (length (fd_table L))) then Stop "fd out of range"
  else if decide (fd_table L !! Z.to_nat (fd f) = Some (Some p)) then
    let L := put_table L (<[Z.to_nat (fd f) := None]> (fd_table L)) in
    Done (if has (state f) FDE_DONT_CLOSE then L else put_closed L (closed L ++ [fd f]))
  else Stop "fd_table out of sync".

Definition fdevent_install (ptr_size : Z) (garbage : list (option ptr)) (L : loop) (p : ptr)
    (i : Z) (fn a : nat) : outcome loop :=
  let L := put_fde L p (mk_fde i FDE_ACTIVE 0 fn a) in
  L ← fdevent_register ptr_size garbage L p;
  L ← fdevent_connect L p;
  f ← get_fde L p;
  Done (put_fde L p (set_state f (Z.lor (state f) FDE_ACTIVE))).

Definition fdevent_remove (L : loop) (p : ptr) : outcome loop :=
  f ← get_fde L p;
  let L := if has (state f) FDE_PENDING then plist_remove L p else L in
  L ← (if has (state f) FDE_ACTIVE then
         L ← fdevent_disconnect L p; fdevent_unregister L p
       else Done L);
  f ← get_fde L p;
  Done (put_fde L p (set_events (set_state f 0) 0)).

(** fdevent_create on a block of memory [p] that malloc returned. *)
Definition fdevent_create (ptr_size : Z) (garbage : list (option ptr)) (L : loop) (p : ptr)
    (i : Z) (fn a : nat) : outcome loop :=
  L ← fdevent_install ptr_size garbage L p i fn a;
  f ← get_fde L p;
  Done (put_fde L p (set_state f (Z.lor (state f) FDE_CREATED))).

Definition fdevent_destroy (L : loop) (p : ptr) : outcome loop :=
  if (p =? NULL)%nat then Done L
  else
    f ← get_fde L p;
    if negb (has (state f) FDE_CREATED) then Stop "fde not created by fdevent_create()"
    else fdevent_remove L p.

Definition fdevent_set (L : loop) (p : ptr) (ev : Z) : outcome loop :=
  let ev := Z.land ev FDE_EVENTMASK in
  f ← get_fde L p;
  if Z.land (state f) FDE_EVENTMASK =? ev then Done L
  else
    L ← (if has (state f) FDE_ACTIVE then fdevent_update L p ev else Done L);
    f ← get_fde L p;
    let f := set_state f (Z.lor (Z.land (state f) FDE_STATEMASK) ev) in
    if has (state f) FDE_PENDING then
      let f := set_events f (Z.land (events f) (Z.lnot ev)) in
      if events f =? 0 then
        Done (put_fde (plist_remove L p) p (set_state f (clear (state f) FDE_PENDING)))
      else Done (put_fde L p f)
    else Done (put_fde L p f).

Definition fdevent_add (L : loop) (p : ptr) (ev : Z) : outcome loop :=
  f ← get_fde L p;
  fdevent_set L p (Z.lor (Z.land (state f) FDE_EVENTMASK) (Z.land ev FDE_EVENTMASK)).

Definition fdevent_del (L : loop) (p : ptr) (ev : Z) : outcome loop :=
  f ← get_fde L p;
  fdevent_set L p (Z.land (Z.land (state f) FDE_EVENTMASK) (Z.lnot (Z.land ev FDE_EVENTMASK))).

(** The events of descriptor [i] in the sets that select returned. *)
Definition ready (r w e : gset Z) (i : Z) : Z :=
  Z.lor (if decide (i ∈ r) then FDE_READ else 0)
  (Z.lor (if decide (i ∈ w) then FDE_WRITE else 0)
         (if decide (i ∈ e) then FDE_ERROR else 0)).

(** Body of the loop of fdevent_process for descriptor [i]; [n] is the number of
    ready descriptors still to be found. *)
Definition process_fd (r w e : gset Z) (i : Z) (n : Z) (L : loop) : outcome (Z * loop) :=
  _ ← fd_bit i;
  let ev := ready r w e i in
  if ev =? 0 then Done (n, L)
  else
    match fd_table L !! Z.to_nat i with
    | Some (Some p) =>
        f ← get_fde L p;
        let f := set_events f (Z.lor (events f) ev) in
        if has (state f) FDE_PENDING then Done (n - 1, put_fde L p f)
        else Done (n - 1, plist_enqueue (put_fde L p (set_state f (Z.lor (state f) FDE_PENDING))) p)
    | Some None => Stop "missing fde for fd"
    | None => Undef "fd_table"
    end.

(** [for(i = 0; (i < select_n) && (n > 0); i++)], [k] descriptors left. *)
Fixpoint process_loop (k : nat) (i : Z) (r w e : gset Z) (n : Z) (L : loop) : outcome loop :=
  match k with
  | O => Done L
  | S k' => if n >? 0 then
              nL ← process_fd r w e i n L;
              process_loop k' (i + 1) r w e nL.1 nL.2
            else Done L
  end.

(** fdevent_process after select returned [n] and the sets [r], [w], [e]; a
    negative [n] is an error of select and nothing is done. *)
Definition fdevent_process (n : Z) (r w e : gset Z) (L : loop) : outcome loop :=
  if n <? 0 then Done L else process_loop (Z.to_nat (select_n L)) 0 r w e n L.

(** One iteration of the inner loop of fdevent_loop: the call of [func] it makes,
    as (fd, events, func, arg), or [None] when no fdevent is pending. *)
Definition dispatch (L : loop) : outcome (option (Z * Z * nat * nat) * loop) :=
  match pending L with
  | [] => Done (None, L)
  | p :: rest =>
      let L := put_pending L rest in
      f ← get_fde L p;
      let f' := set_state (set_events f 0) (clear (state f) FDE_PENDING) in
      Done (Some (fd f, events f, func f, arg f), put_fde L p f')
  end.

End Fdevent.

(** ** The invariant *)

Section invariant.
Import Fdevent.

Lemma has_bit w k : 0 <= k -> has w (2 ^ k) = Z.testbit w k.
Proof. apply land_bit. Qed.

Definition bit_read : Z := 0.
Definition bit_write : Z := 1.
Definition bit_error : Z := 2.
Definition active (f : fdevent) : bool := Z.testbit (state f) 8.
Definition is_pending (f : fdevent) : bool := Z.testbit (state f) 9.

Lemma has_active f : has (state f) FDE_ACTIVE = active f.
Proof. apply (has_bit _ 8). lia. Qed.
Lemma has_pending f : has (state f) FDE_PENDING = is_pending f.
Proof. apply (has_bit _ 9). lia. Qed.

(** The watch set of an event bit. *)
Definition wset (L : loop) (b : Z) : gset Z :=
  if b =? bit_read then read_fds L else if b =? bit_write then write_fds L else error_fds L.

Definition event_bit (b : Z) : Prop := b = 0 \/ b = 1 \/ b = 2.

(** Some active fdevent on descriptor [i] wants event [b]. *)
Definition wanted (L : loop) (i b : Z) : Prop :=
  exists p f, fdes L !! p = Some f /\ active f = true /\ fd f = i /\ Z.testbit (state f) b = true.

(** Only tables of 256 slots or none arise. *)
Definition table_size (L : loop) : Prop :=
  fd_table L = [] \/ 256 <= Z.of_nat (length (fd_table L)).

Record loop_inv (L : loop) : Prop := {
  li_active : forall p f, fdes L !! p = Some f -> active f = true ->
    0 <= fd f < select_n L /\ fd_table L !! Z.to_nat (fd f) = Some (Some p);
  li_table : forall i p, fd_table L !! i = Some (Some p) ->
    exists f, fdes L !! p = Some f /\ active f = true /\ fd f = Z.of_nat i;
  li_watch : forall b i, event_bit b -> i ∈ wset L b <-> wanted L i b;
  li_nodup : NoDup (pending L);
  li_pending : forall p, p ∈ pending L <->
    exists f, fdes L !! p = Some f /\ is_pending f = true;
  li_select : 0 <= select_n L <= Z.of_nat (length (fd_table L)) /\ select_n L <= FD_SETSIZE;
  li_size : table_size L
}.

Lemma fd_bit_ok i : 0 <= i < FD_SETSIZE -> fd_bit i = Done tt.
Proof. intros Hi. unfold fd_bit. by destruct (Z.leb_spec 0 i), (Z.ltb_spec i FD_SETSIZE); try lia. Qed.
Lemma active_bit L p f : loop_inv L -> fdes L !! p = Some f -> active f = true -> fd_bit (fd f) = Done tt.
Proof. intros HI Hf Ha. destruct (li_active _ HI _ _ Hf Ha) as [Hr _]. pose proof (li_select _ HI). apply fd_bit_ok. lia. Qed.

Lemma active_unique L p q f g :
  loop_inv L -> fdes L !! p = Some f -> fdes L !! q = Some g ->
  active f = true -> active g = true -> fd f = fd g -> p = q.
Proof.
  intros HI Hp Hq Hf Hg E.
  destruct (li_active _ HI _ _ Hp Hf) as [_ H1]. destruct (li_active _ HI _ _ Hq Hg) as [_ H2].
  rewrite E, H2 in H1. by injection H1.
Qed.

(** Replacing one fdevent by one with the same descriptor and activity, with the
    watch sets and the pending list adjusted to its new flags. *)
Lemma inv_replace L L' p f f' :
  loop_inv L -> fdes L !! p = Some f -> fdes L' = <[p := f']> (fdes L) ->
  fd f' = fd f -> active f' = active f ->
  fd_table L' = fd_table L -> select_n L' = select_n L ->
  (forall b i, event_bit b -> i ∈ wset L' b <->
     if decide (active f = true /\ i = fd f) then Z.testbit (state f') b = true
     else i ∈ wset L b) ->
  NoDup (pending L') ->
  (forall q, q ∈ pending L' <-> if decide (q = p) then is_pending f' = true else q ∈ pending L) ->
  loop_inv L'.
Proof.
  intros HI Hp Hfd Hfd' Hact Ht Hn Hw Hnd Hpd. split.
  - intros q g Hq Hg. rewrite Hfd in Hq. rewrite Ht, Hn.
    destruct (decide (q = p)) as [->|Hne].
    + rewrite lookup_insert_eq in Hq. injection Hq as <-. rewrite Hfd'.
      apply (li_active _ HI _ _ Hp). congruence.
    + rewrite lookup_insert_ne in Hq by done. by apply (li_active _ HI).
  - intros i q Hq. rewrite Ht in Hq. destruct (li_table _ HI _ _ Hq) as (g & Hg & Ha & Hi).
    rewrite Hfd. destruct (decide (q = p)) as [->|Hne].
    + exists f'. rewrite lookup_insert_eq. rewrite Hp in Hg. injection Hg as <-.
      split_and!; [done|congruence|congruence].
    + exists g. by rewrite lookup_insert_ne.
  - intros b i Hb. rewrite (Hw b i Hb). unfold wanted. rewrite Hfd.
    destruct (decide (active f = true /\ i = fd f)) as [[Ha ->]|Hd].
    + split.
      * intros Hbit. exists p, f'. rewrite lookup_insert_eq. split_and!; [done|congruence|done|done].
      * intros (q & g & Hq & Hg & Hgi & Hbit). destruct (decide (q = p)) as [->|Hne].
        -- rewrite lookup_insert_eq in Hq. congruence.
        -- rewrite lookup_insert_ne in Hq by done.
           exfalso. apply Hne. by apply (active_unique L q p g f).
    + rewrite (li_watch _ HI b i Hb). unfold wanted. split.
      * intros (q & g & Hq & Hg & Hgi & Hbit). exists q, g.
        rewrite lookup_insert_ne; [done|]. intros ->. rewrite Hp in Hq. injection Hq as <-.
        apply Hd. split; congruence.
      * intros (q & g & Hq & Hg & Hgi & Hbit). destruct (decide (q = p)) as [->|Hne].
        -- rewrite lookup_insert_eq in Hq. injection Hq as <-. exfalso. apply Hd.
           split; congruence.
        -- rewrite lookup_insert_ne in Hq by done. eauto 6.
  - done.
  - intros q. rewrite (Hpd q), Hfd. destruct (decide (q = p)) as [->|Hne].
    + rewrite lookup_insert_eq. naive_solver.
    + rewrite lookup_insert_ne by done. apply (li_pending _ HI).
  - rewrite Hn, Ht. apply (li_select _ HI).
  - unfold table_size. rewrite Ht. apply (li_size _ HI).
Qed.

Lemma elem_plist_remove L p q :
  q ∈ pending (plist_remove L p) <-> q <> p /\ q ∈ pending L.
Proof. cbn. rewrite list_elem_of_filter. done. Qed.

(** [fd_assign] on one descriptor. *)
Lemma elem_fd_assign on i s j :
  j ∈ fd_assign on i s <-> if decide (j = i) then on = true else j ∈ s.
Proof. unfold fd_assign. destruct on; case_decide; set_solver. Qed.

(** Flags of the new state word in fdevent_set. *)
Lemma new_state_bits st ev k :
  0 <= k -> Z.testbit (Z.lor (Z.land st FDE_STATEMASK) (Z.land ev FDE_EVENTMASK)) k
  = if k <? 8 then Z.testbit ev k else Z.testbit st k && (k <? 16).
Proof.
  intros Hk. rewrite Z.lor_spec, !Z.land_spec.
  assert (Z.testbit FDE_EVENTMASK k = (k <? 8)) as ->.
  { change FDE_EVENTMASK with (Z.ones 8). by rewrite Z.testbit_ones_nonneg by lia. }
  assert (Z.testbit FDE_STATEMASK k = (negb (k <? 8)) && (k <? 16)) as ->.
  { change FDE_STATEMASK with (Z.shiftl (Z.ones 8) 8). rewrite Z.shiftl_spec by lia.
    destruct (Z.ltb_spec k 8); [by rewrite Z.testbit_neg_r by lia|].
    rewrite Z.testbit_ones_nonneg by lia. cbn [negb andb].
    destruct (Z.ltb_spec (k - 8) 8), (Z.ltb_spec k 16); lia || done. }
  destruct (k <? 8), (Z.testbit ev k), (Z.testbit st k), (k <? 16); done.
Qed.

Lemma new_state_idem st ev :
  Z.lor (Z.land (Z.lor (Z.land st FDE_STATEMASK) (Z.land ev FDE_EVENTMASK)) FDE_STATEMASK)
        (Z.land ev FDE_EVENTMASK)
  = Z.lor (Z.land st FDE_STATEMASK) (Z.land ev FDE_EVENTMASK).
Proof.
  apply Z.bits_inj'. intros k Hk. rewrite !new_state_bits by done.
  destruct (k <? 8), (k <? 16), (Z.testbit st k); done.
Qed.

Lemma clear_bits w j k :
  0 <= j -> 0 <= k -> Z.testbit (clear w (2 ^ j)) k = Z.testbit w k && negb (k =? j).
Proof.
  intros Hj Hk. unfold clear. rewrite Z.land_spec, Z.lnot_spec by done. f_equal. f_equal.
  destruct (Z.eqb_spec k j) as [->|]; [by rewrite Z.pow2_bits_true|by rewrite Z.pow2_bits_false].
Qed.

Lemma clear_pending_bits w k :
  0 <= k -> Z.testbit (clear w FDE_PENDING) k = Z.testbit w k && negb (k =? 9).
Proof. apply (clear_bits w 9). lia. Qed.

Lemma low_bits_eq st ev k :
  0 <= k < 8 -> Z.land st FDE_EVENTMASK = Z.land ev FDE_EVENTMASK -> Z.testbit st k = Z.testbit ev k.
Proof.
  intros Hk H. apply (f_equal (fun z => Z.testbit z k)) in H. rewrite !Z.land_spec in H.
  change FDE_EVENTMASK with (Z.ones 8) in H. rewrite Z.testbit_ones_nonneg in H by lia.
  destruct (Z.ltb_spec k 8); [|lia]. by rewrite !andb_true_r in H.
Qed.

Lemma event_has ev b :
  event_bit b -> Z.testbit (Z.land ev FDE_EVENTMASK) b = Z.testbit ev b.
Proof.
  intros Hb. rewrite Z.land_spec. destruct Hb as [->|[->| ->]]; cbn; apply andb_true_r.
Qed.

(** The state after the watch sets of an fdevent were updated for [ev]. *)
Lemma elem_updated L f ev b i :
  event_bit b ->
  i ∈ wset (put_sets L (fd_assign (has (Z.land ev FDE_EVENTMASK) FDE_READ) (fd f) (read_fds L))
                       (fd_assign (has (Z.land ev FDE_EVENTMASK) FDE_WRITE) (fd f) (write_fds L))
                       (fd_assign (has (Z.land ev FDE_EVENTMASK) FDE_ERROR) (fd f) (error_fds L))) b
  <-> if decide (i = fd f) then Z.testbit ev b = true else i ∈ wset L b.
Proof.
  intros Hb. rewrite <- (event_has ev b Hb).
  destruct Hb as [->|[->| ->]].
  - change (wset ?K 0) with (read_fds K). cbn [read_fds put_sets].
    by rewrite elem_fd_assign, (has_bit _ 0) by lia.
  - change (wset ?K 1) with (write_fds K). cbn [write_fds put_sets].
    by rewrite elem_fd_assign, (has_bit _ 1) by lia.
  - change (wset ?K 2) with (error_fds K). cbn [error_fds put_sets].
    by rewrite elem_fd_assign, (has_bit _ 2) by lia.
Qed.

(** The conditional fdevent_update at the start of fdevent_set. *)
Lemma update_if_active L p f ev (ns := Z.lor (Z.land (state f) FDE_STATEMASK) (Z.land ev FDE_EVENTMASK)) :
  loop_inv L -> fdes L !! p = Some f ->
  exists L1 f1,
    (if has (state f) FDE_ACTIVE then fdevent_update L p (Z.land ev FDE_EVENTMASK) else Done L)
      = Done L1 /\
    fdes L1 = <[p := f1]> (fdes L) /\ fd f1 = fd f /\ events f1 = events f /\
    Z.lor (Z.land (state f1) FDE_STATEMASK) (Z.land ev FDE_EVENTMASK) = ns /\
    fd_table L1 = fd_table L /\ select_n L1 = select_n L /\ pending L1 = pending L /\
    (forall b i, event_bit b -> i ∈ wset L1 b <->
       if decide (active f = true /\ i = fd f) then Z.testbit ev b = true else i ∈ wset L b).
Proof.
  intros HI Hf. rewrite has_active. destruct (active f) eqn:Ha.
  - unfold fdevent_update, get_fde. rewrite Hf. cbn [deref mbind outcome_bind].
    rewrite (active_bit L p f HI Hf Ha). cbn [mbind outcome_bind].
    eexists _, (set_state f ns). split; [done|]. cbn [fdes put_fde put_sets fd set_state events state].
    split_and!; [done|done|done|apply new_state_idem|done|done|done|].
    intros b i Hb. pose proof (elem_updated L f ev b i Hb) as H.
    unfold wset in *. cbn in *. rewrite H. repeat case_decide; tauto.
  - exists L, f. split_and!; try done. by rewrite insert_id.
Qed.

(** fdevent_set never fails on an allocated fdevent, keeps the invariant and
    makes the wanted events the requested ones. *)
Lemma fdevent_set_spec L p f ev :
  loop_inv L -> fdes L !! p = Some f ->
  exists L' f', fdevent_set L p ev = Done L' /\ loop_inv L' /\ fdes L' = <[p := f']> (fdes L) /\
    fd f' = fd f /\ active f' = active f /\
    (forall k, 0 <= k < 8 -> Z.testbit (state f') k = Z.testbit ev k) /\
    events f' = (if (Z.land (state f) FDE_EVENTMASK =? Z.land ev FDE_EVENTMASK) || negb (is_pending f)
                 then events f else Z.land (events f) (Z.lnot (Z.land ev FDE_EVENTMASK))) /\
    (is_pending f = true -> events f' <> 0 -> is_pending f' = true).
Proof.
  intros HI Hf. unfold fdevent_set, get_fde. rewrite Hf. cbn [deref mbind outcome_bind].
  destruct (Z.eqb_spec (Z.land (state f) FDE_EVENTMASK) (Z.land ev FDE_EVENTMASK)) as [Heq|Hne].
  { exists L, f. rewrite insert_id by done. split_and!; auto.
    intros k Hk. by apply low_bits_eq. }
  cbn [orb].
  destruct (update_if_active L p f ev HI Hf) as (L1 & f1 & -> & Hfd & Hfd1 & Hev1 & Hns & Ht & Hsn & Hpe & Hw).
  set (ns := Z.lor (Z.land (state f) FDE_STATEMASK) (Z.land ev FDE_EVENTMASK)) in *.
  cbn [mbind outcome_bind]. rewrite Hfd, lookup_insert_eq. cbn [deref mbind outcome_bind].
  rewrite Hns. cbn [state set_state].
  assert (forall k, 0 <= k < 8 -> Z.testbit ns k = Z.testbit ev k) as Hlow.
  { intros k Hk. unfold ns. rewrite new_state_bits by lia. by destruct (Z.ltb_spec k 8); [|lia]. }
  assert (Z.testbit ns 8 = active f) as H8
    by (unfold ns; rewrite new_state_bits by lia; apply andb_true_r).
  assert (Z.testbit ns 9 = is_pending f) as H9
    by (unfold ns; rewrite new_state_bits by lia; apply andb_true_r).
  assert (forall b, event_bit b -> Z.testbit ns b = Z.testbit ev b) as Hlow'
    by (intros b [->|[->| ->]]; apply Hlow; lia).
  replace (has ns FDE_PENDING) with (Z.testbit ns 9) by (symmetry; apply (has_bit _ 9); lia).
  rewrite H9.
  set (e' := Z.land (events (set_state f1 ns)) (Z.lnot (Z.land ev FDE_EVENTMASK))).
  assert (forall L' f', fdes L' = <[p := f']> (fdes L) -> fd f' = fd f ->
    (forall k, 0 <= k < 9 -> Z.testbit (state f') k = Z.testbit ns k) ->
    fd_table L' = fd_table L -> select_n L' = select_n L ->
    (forall b, wset L' b = wset L1 b) -> NoDup (pending L') ->
    (forall q, q ∈ pending L' <-> if decide (q = p) then is_pending f' = true else q ∈ pending L) ->
    loop_inv L') as Hrep.
  { intros L' f' E1 E2 E3 E4 E5 E6 E7 E8. apply (inv_replace L L' p f f'); auto.
    - unfold active at 1. rewrite E3 by lia. done.
    - intros b i Hb. rewrite E6, (Hw b i Hb), E3, Hlow' by (done || (destruct Hb as [->|[->| ->]]; lia)).
      done. }
  destruct (is_pending f) eqn:Hpf; [cbn [events set_events]; destruct (Z.eqb_spec e' 0)|].
  - eexists _, (set_state (set_events (set_state f1 ns) e') (clear ns FDE_PENDING)).
    split; [reflexivity|].
    assert (forall k, 0 <= k < 9 -> Z.testbit (clear ns FDE_PENDING) k = Z.testbit ns k) as Hcl.
    { intros k Hk. rewrite clear_pending_bits by lia. by rewrite (proj2 (Z.eqb_neq k 9)), andb_true_r by lia. }
    split_and!; cbn [fd set_state set_events fdes put_fde plist_remove put_pending].
    + apply (Hrep _ (set_state (set_events (set_state f1 ns) e') (clear ns FDE_PENDING)));
        cbn [fdes put_fde plist_remove put_pending fd set_state set_events fd_table select_n pending];
        auto.
      * by rewrite Hfd, insert_insert_eq.
      * rewrite Hpe. apply NoDup_filter, (li_nodup _ HI).
      * intros q. rewrite list_elem_of_filter, Hpe. unfold is_pending. cbn [state set_state].
        rewrite clear_pending_bits by lia. change (negb (9 =? 9)) with false.
        rewrite andb_false_r. clear. case_decide; intuition (congruence || done).
    + by rewrite Hfd, insert_insert_eq.
    + done.
    + unfold active at 1. cbn [state set_state]. by rewrite Hcl by lia.
    + intros k Hk. cbn [state set_state]. rewrite Hcl by lia. by apply Hlow.
    + cbn. unfold e'. cbn. by rewrite Hev1.
    + done.
  - eexists _, (set_events (set_state f1 ns) e'). split; [reflexivity|].
    split_and!; cbn [fd set_state set_events fdes put_fde]; auto.
    + apply (Hrep _ (set_events (set_state f1 ns) e'));
        cbn [fdes put_fde fd set_state set_events fd_table select_n pending]; auto.
      * by rewrite Hfd, insert_insert_eq.
      * rewrite Hpe. apply (li_nodup _ HI).
      * intros q. rewrite Hpe. unfold is_pending. cbn [state set_state set_events]. rewrite H9.
        destruct (decide (q = p)) as [->|]; [|done].
        rewrite (li_pending _ HI). clear -Hf Hpf. naive_solver.
    + by rewrite Hfd, insert_insert_eq.
    + cbn. unfold e'. cbn. by rewrite Hev1.
  - eexists _, (set_state f1 ns). split; [reflexivity|].
    split_and!; cbn [fd set_state fdes put_fde]; auto.
    + apply (Hrep _ (set_state f1 ns));
        cbn [fdes put_fde fd set_state fd_table select_n pending]; auto.
      * by rewrite Hfd, insert_insert_eq.
      * rewrite Hpe. apply (li_nodup _ HI).
      * intros q. rewrite Hpe. unfold is_pending. cbn [state set_state]. rewrite H9.
        destruct (decide (q = p)) as [->|]; [|done].
        rewrite (li_pending _ HI). clear -Hf Hpf. naive_solver.
    + by rewrite Hfd, insert_insert_eq.
    + done.
Qed.

(** *** Installing *)

Lemma grow_enough max i : 256 <= max -> 0 <= i <= 32000 -> max <= grow 8 max i /\ i < grow 8 max i.
Proof.
  intros Hm Hi. cbn [grow].
  repeat (match goal with |- context [Z.leb ?a ?b] => destruct (Z.leb_spec a b) end); lia.
Qed.

(** What the table holds at [i], the out-of-range slots counting as empty. *)
Definition slot (L : loop) (i : Z) : option ptr := mjoin (fd_table L !! Z.to_nat i).

Lemma slot_Some L i p : slot L i = Some p <-> fd_table L !! Z.to_nat i = Some (Some p).
Proof. unfold slot. destruct (fd_table L !! Z.to_nat i) as [[q|]|]; cbn; naive_solver. Qed.

(** What registering [p] on descriptor [i] does to the loop. *)
Definition registered (L : loop) (p : ptr) (i : Z) (L' : loop) : Prop :=
  fdes L' = fdes L /\ pending L' = pending L /\ select_n L' = select_n L /\
  (forall b, wset L' b = wset L b) /\
  (forall j, 0 <= j -> slot L' j = if decide (j = i) then Some p else slot L j) /\
  i < Z.of_nat (length (fd_table L')) /\
  (length (fd_table L) <= length (fd_table L'))%nat /\ table_size L'.

(** [L1] is [L] with a table that was only extended by empty slots. *)
Definition extended (L L1 : loop) : Prop :=
  fdes L1 = fdes L /\ pending L1 = pending L /\ select_n L1 = select_n L /\
  (forall b, wset L1 b = wset L b) /\ (forall j, 0 <= j -> slot L1 j = slot L j) /\
  (length (fd_table L) <= length (fd_table L1))%nat /\ 256 <= Z.of_nat (length (fd_table L1)).

Lemma extended_registered L L1 p i :
  extended L L1 -> 0 <= i < Z.of_nat (length (fd_table L1)) ->
  registered L p i (put_table L1 (<[Z.to_nat i:=Some p]> (fd_table L1))).
Proof.
  intros (E1 & E2 & E3 & E4 & E5 & E6 & E7) Hi. unfold registered, table_size.
  cbn [fdes put_table pending select_n fd_table]. rewrite length_insert. split_and!; auto; [|lia].
  intros j Hj. unfold slot at 1. cbn [fd_table put_table].
  destruct (decide (j = i)) as [->|Hne].
  - by rewrite list_lookup_insert_eq by lia.
  - rewrite list_lookup_insert_ne by lia. by apply E5.
Qed.

Lemma slot_app_empty L L1 k j :
  fd_table L1 = fd_table L ++ replicate k None -> slot L1 j = slot L j.
Proof.
  intros E. unfold slot. rewrite E.
  destruct (decide (Z.to_nat j < length (fd_table L))%nat).
  - by rewrite lookup_app_l.
  - rewrite lookup_app_r, (lookup_ge_None_2 (fd_table L)) by lia.
    destruct (replicate k None !! _) as [[q|]|] eqn:Hq; try done.
    by apply lookup_replicate_1 in Hq as [??].
Qed.

(** The table after growing for descriptor [i]. *)
Lemma grow_table_extended g L i :
  0 <= i <= 32000 -> table_size L -> (fd_table L = [] -> forall b, wset L b = ∅) ->
  i < Z.of_nat (length (fd_table (grow_table 4 g L i))) /\ extended L (grow_table 4 g L i).
Proof.
  intros Hi Hsz Hempty. unfold grow_table. set (len := Z.of_nat (length (fd_table L))).
  assert (exists L0 max0, (if len =? 0 then (fdevent_init L, 256) else (L, len)) = (L0, max0) /\
    256 <= max0 /\ len <= max0 /\ fdes L0 = fdes L /\ pending L0 = pending L /\
    select_n L0 = select_n L /\ fd_table L0 = fd_table L /\ forall b, wset L0 b = wset L b)
    as (L0 & max0 & -> & Hm & Hlm & E1 & E2 & E3 & E4 & E5).
  { destruct Hsz as [Hnil|Hsz].
    - subst len. rewrite Hnil. eexists _, _. split; [done|]. split_and!; try done.
      intros b. rewrite (Hempty Hnil). unfold wset. cbn. by repeat case_match.
    - exists L, len. destruct (Z.eqb_spec len 0); [lia|]. by split_and!. }
  destruct (grow_enough max0 i Hm Hi) as [Hg1 Hg2].
  rewrite (Z.mul_comm 4), Z.div_mul by lia.
  set (k := Z.to_nat (grow 8 max0 i - len)).
  assert (length (drop k (take k g)) = 0%nat) as Hd by (rewrite length_drop, length_take; lia).
  destruct (drop k (take k g)); [|done]. rewrite app_nil_r, E4.
  split.
  - cbn [fd_table put_table]. rewrite length_app, length_replicate. lia.
  - unfold extended. cbn [fdes put_table pending select_n fd_table].
    rewrite length_app, length_replicate. split_and!; auto; try lia.
    intros j _. by apply (slot_app_empty _ _ k).
Qed.

(** Registering on the 32-bit targets, where a slot has the size of an int. *)
Lemma fdevent_register_spec g L p f :
  fdes L !! p = Some f -> 0 <= fd f <= 32000 -> table_size L ->
  (fd_table L = [] -> forall b, wset L b = ∅) ->
  exists L', fdevent_register 4 g L p = Done L' /\ registered L p (fd f) L'.
Proof.
  intros Hf Hi Hsz Hempty. unfold fdevent_register, get_fde. rewrite Hf. cbn [deref mbind outcome_bind].
  destruct (Z.ltb_spec (fd f) 0); [lia|].
  rewrite Z.geb_leb. destruct (Z.leb_spec (Z.of_nat (length (fd_table L))) (fd f)) as [Hle|Hlt].
  - rewrite Z.gtb_ltb. destruct (Z.ltb_spec 32000 (fd f)); [lia|].
    destruct (grow_table_extended g L (fd f)) as [Hlen Hext]; auto.
    cbn [mbind outcome_bind]. eexists. split; [reflexivity|]. apply extended_registered; [done|lia].
  - cbn [mbind outcome_bind]. eexists. split; [reflexivity|]. apply extended_registered; [|lia].
    destruct Hsz as [E|]; [rewrite E in Hlt; cbn in Hlt; lia|]. by unfold extended.
Qed.

Lemma slot_active L p f :
  loop_inv L -> fdes L !! p = Some f -> active f = true -> slot L (fd f) = Some p.
Proof. intros HI Hf Ha. apply slot_Some. by apply (li_active _ HI). Qed.

Lemma slot_inv L i p :
  loop_inv L -> 0 <= i -> slot L i = Some p ->
  exists f, fdes L !! p = Some f /\ active f = true /\ fd f = i.
Proof.
  intros HI Hi Hs. apply slot_Some in Hs. destruct (li_table _ HI _ _ Hs) as (f & ? & ? & ?).
  exists f. split_and!; [done|done|lia].
Qed.

Lemma no_table_no_watch L b :
  loop_inv L -> event_bit b -> fd_table L = [] -> wset L b = ∅.
Proof.
  intros HI Hb Hnil. apply set_eq. intros i. rewrite (li_watch _ HI b i Hb). split; [|set_solver].
  intros (p & f & Hf & Ha & _). destruct (li_active _ HI _ _ Hf Ha) as [_ H].
  rewrite Hnil, lookup_nil in H. done.
Qed.

Lemma wset_cases L b : exists b', event_bit b' /\ wset L b = wset L b'.
Proof.
  unfold event_bit, wset. destruct (Z.eqb_spec b bit_read), (Z.eqb_spec b bit_write);
    [exists 0|exists 0|exists 1|exists 2]; subst; auto.
Qed.

(** [p] can be installed: it is neither active nor pending. *)
Definition idle (L : loop) (p : ptr) : Prop :=
  forall f, fdes L !! p = Some f -> active f = false /\ is_pending f = false.

(** The invariant from a table of slots: every other fdevent is as before, and [p]
    is newly active on the empty slot [i] and wants nothing. *)
Lemma inv_install L L' p f' :
  loop_inv L -> idle L p -> slot L (fd f') = None -> 0 <= fd f' ->
  fdes L' = <[p := f']> (fdes L) -> active f' = true -> is_pending f' = false ->
  (forall b, event_bit b -> Z.testbit (state f') b = false) ->
  pending L' = pending L -> (forall b, wset L' b = wset L b) ->
  (forall j, 0 <= j -> slot L' j = if decide (j = fd f') then Some p else slot L j) ->
  select_n L' = Z.max (select_n L) (fd f' + 1) -> select_n L' <= Z.of_nat (length (fd_table L')) ->
  fd f' < FD_SETSIZE -> table_size L' -> loop_inv L'.
Proof.
  intros HI Hidle Hslot H0 E1 Ha Hp Hb E2 E3 E4 E5 E6 E7 E8. split; auto.
  - intros q g Hq Hg. rewrite <- slot_Some. rewrite E1 in Hq.
    destruct (decide (q = p)) as [->|Hne].
    + rewrite lookup_insert_eq in Hq. injection Hq as <-. rewrite E4 by done.
      rewrite decide_True by done. split; [lia|done].
    + rewrite lookup_insert_ne in Hq by done. destruct (li_active _ HI _ _ Hq Hg) as [Hr _].
      pose proof (slot_active _ _ _ HI Hq Hg) as Hs. rewrite E4 by lia.
      rewrite decide_False by congruence. split; [lia|done].
  - intros i q Hq. assert (slot L' (Z.of_nat i) = Some q) as Hs by (apply slot_Some; by rewrite Nat2Z.id).
    rewrite E4 in Hs by lia. rewrite E1. destruct (decide (Z.of_nat i = fd f')) as [Ei|Hne].
    + injection Hs as <-. exists f'. by rewrite lookup_insert_eq.
    + destruct (slot_inv L (Z.of_nat i) q HI ltac:(lia) Hs) as (g & Hg & Hag & Hfg). exists g.
      rewrite lookup_insert_ne; [done|]. intros ->. destruct (Hidle _ Hg). congruence.
  - intros b i Hbb. rewrite E3, (li_watch _ HI b i Hbb). unfold wanted. rewrite E1.
    split; intros (q & g & Hq & Hag & Hfg & Ht); exists q, g.
    + rewrite lookup_insert_ne; [done|]. intros ->. destruct (Hidle _ Hq). congruence.
    + destruct (decide (q = p)) as [->|Hne].
      * rewrite lookup_insert_eq in Hq. injection Hq as <-. rewrite Hb in Ht by done. done.
      * by rewrite lookup_insert_ne in Hq by done.
  - rewrite E2. apply (li_nodup _ HI).
  - intros q. rewrite E2, (li_pending _ HI), E1. destruct (decide (q = p)) as [->|Hne].
    + rewrite lookup_insert_eq. split; intros (g & Hg & Hpg); [destruct (Hidle _ Hg)|]; congruence.
    + by rewrite lookup_insert_ne.
  - pose proof (li_select _ HI). lia.
Qed.

Lemma fdevent_install_spec g L p i fn a :
  loop_inv L -> idle L p -> 0 <= i < FD_SETSIZE -> slot L i = None ->
  exists L', fdevent_install 4 g L p i fn a = Done L' /\ loop_inv L' /\
    fdes L' = <[p := mk_fde i FDE_ACTIVE 0 fn a]> (fdes L).
Proof.
  intros HI Hidle Hi Hslot. unfold fdevent_install.
  set (f := mk_fde i FDE_ACTIVE 0 fn a). set (L0 := put_fde L p f).
  assert (fdes L0 !! p = Some f) as Hf by apply lookup_insert_eq.
  destruct (fdevent_register_spec g L0 p f Hf ltac:(unfold FD_SETSIZE in Hi; cbn; lia) (li_size _ HI)) as (L1 & -> & Hr).
  { intros Hnil b. destruct (wset_cases L b) as (b' & Hb' & E).
    change (wset L0 b) with (wset L b). rewrite E. by apply no_table_no_watch. }
  destruct Hr as (E1 & E2 & E3 & E4 & E5 & E6 & E7 & E8).
  cbn [mbind outcome_bind]. unfold fdevent_connect, get_fde. rewrite E1, Hf.
  cbn [deref mbind outcome_bind].
  set (L2 := if fd f >=? select_n L1 then put_select_n L1 (fd f + 1) else L1).
  assert (fdes L2 = fdes L1 /\ pending L2 = pending L1 /\ fd_table L2 = fd_table L1 /\
          (forall b, wset L2 b = wset L1 b) /\ select_n L2 = Z.max (select_n L1) (i + 1))
    as (F1 & F2 & F3 & F4 & F5).
  { unfold L2. rewrite Z.geb_leb. destruct (Z.leb_spec (select_n L1) (fd f)) as [H|H]; cbn in *;
      split_and!; try done; lia. }
  rewrite F1, E1, Hf. cbn [deref mbind outcome_bind]. eexists. split; [reflexivity|].
  assert (fdes (put_fde L2 p (set_state f (Z.lor (state f) FDE_ACTIVE))) = <[p := f]> (fdes L)) as Hfd.
  { cbn [fdes put_fde]. rewrite F1, E1. cbn [fdes put_fde L0]. apply insert_insert_eq. }
  split; [|done]. pose proof (li_select _ HI) as Hsel.
  apply (inv_install L _ p f); cbn [pending put_fde select_n fd_table]; auto; try done.
  - cbn. lia.
  - intros b [->|[->| ->]]; done.
  - by rewrite F2, E2.
  - intros b. change (wset (put_fde L2 p ?x) b) with (wset L2 b). by rewrite F4, E4.
  - intros j Hj. unfold slot at 1. cbn [fd_table put_fde]. rewrite F3. by apply E5.
  - rewrite F5, E3. done.
  - rewrite F5, E3, F3. cbn [select_n put_fde L0] in *. cbn [fd f] in E6. unfold L0 in *. cbn in E7. lia.
  - cbn. lia.
  - unfold table_size. cbn [fd_table put_fde]. rewrite F3. apply E8.
Qed.

(** *** Removing *)

Lemma last_used_bounds n t :
  0 <= last_used n t /\ (n = 0%nat \/ last_used n t < Z.of_nat n) /\
  forall i p, (i < n)%nat -> t !! i = Some (Some p) -> Z.of_nat i <= last_used n t.
Proof.
  induction n as [|n (IH1 & IH2 & IH3)]; [split_and!; [done|auto|lia]|]. cbn [last_used].
  destruct (t !! n) as [[q|]|] eqn:Hn.
  - split_and!; [lia|right; lia|]. intros i p Hi _. lia.
  - split_and!; [done|right; destruct IH2; subst; cbn; lia|]. intros i p Hi Hp.
    destruct (decide (i = n)) as [->|]; [congruence|]. apply (IH3 i p); [lia|done].
  - split_and!; [done|right; destruct IH2; subst; cbn; lia|]. intros i p Hi Hp.
    destruct (decide (i = n)) as [->|]; [congruence|]. apply (IH3 i p); [lia|done].
Qed.

(** The part of fdevent_remove for an active fdevent. *)
Lemma disconnect_unregister_spec L0 L p f :
  loop_inv L -> fdes L0 = fdes L -> fd_table L0 = fd_table L -> select_n L0 = select_n L ->
  (forall b, wset L0 b = wset L b) -> fdes L !! p = Some f -> active f = true ->
  exists L1, (L ← fdevent_disconnect L0 p; fdevent_unregister L p) = Done L1 /\
    fdes L1 = fdes L /\ pending L1 = pending L0 /\
    fd_table L1 = <[Z.to_nat (fd f) := None]> (fd_table L) /\
    select_n L1 = last_used (Z.to_nat (select_n L)) (fd_table L) + 1 /\
    (forall b, wset L1 b = wset L b ∖ {[fd f]}).
Proof.
  intros HI E1 E2 E3 E4 Hf Ha. destruct (li_active _ HI _ _ Hf Ha) as [Hr Ht].
  pose proof (li_select _ HI) as Hs. apply lookup_lt_Some in Ht as Hlt.
  unfold fdevent_disconnect, fdevent_unregister, get_fde. rewrite E1, Hf. cbn [deref mbind outcome_bind].
  rewrite (active_bit L p f HI Hf Ha).
  cbn [deref mbind outcome_bind select_n put_sets fd_table]. rewrite E2, E3.
  rewrite Z.gtb_ltb. destruct (Z.ltb_spec (Z.of_nat (length (fd_table L))) (select_n L)); [lia|].
  cbn [deref mbind outcome_bind select_n put_sets put_select_n fd_table fdes].
  rewrite E1, Hf. cbn [deref mbind outcome_bind]. rewrite E2, Z.geb_leb.
  destruct (Z.ltb_spec (fd f) 0); [lia|].
  destruct (Z.leb_spec (Z.of_nat (length (fd_table L))) (fd f)); [lia|]. cbn [orb].
  rewrite decide_True by done. eexists. split; [reflexivity|].
  assert (forall b, wset L b = if b =? bit_read then read_fds L0 else if b =? bit_write
            then write_fds L0 else error_fds L0) as HW by (intros b; by rewrite <- E4).
  assert (forall b, (if b =? bit_read then read_fds L0 ∖ {[fd f]} else if b =? bit_write
            then write_fds L0 ∖ {[fd f]} else error_fds L0 ∖ {[fd f]}) = wset L b ∖ {[fd f]}) as HW'
    by (intros b; rewrite HW; by repeat case_match).
  case_match; cbn; split_and!; auto; congruence.
Qed.

Lemma inv_uninstall L L' p f f' :
  loop_inv L -> fdes L !! p = Some f -> active f = true -> fdes L' = <[p := f']> (fdes L) ->
  active f' = false -> is_pending f' = false ->
  fd_table L' = <[Z.to_nat (fd f) := None]> (fd_table L) ->
  select_n L' = last_used (Z.to_nat (select_n L)) (fd_table L) + 1 ->
  (forall b, wset L' b = wset L b ∖ {[fd f]}) ->
  pending L' = filter (fun q => q <> p) (pending L) -> loop_inv L'.
Proof.
  intros HI Hf Ha E1 Ha' Hp' E2 E3 E4 E5. destruct (li_active _ HI _ _ Hf Ha) as [Hr Ht].
  destruct (last_used_bounds (Z.to_nat (select_n L)) (fd_table L)) as (B1 & B2 & B3).
  pose proof (li_select _ HI) as Hs.
  assert (forall q g, fdes L' !! q = Some g -> active g = true ->
            q <> p /\ fdes L !! q = Some g /\ fd g <> fd f) as Hother.
  { intros q g Hq Hg. rewrite E1 in Hq. destruct (decide (q = p)) as [->|Hne].
    - rewrite lookup_insert_eq in Hq. congruence.
    - rewrite lookup_insert_ne in Hq by done. split_and!; [done|done|].
      intros E. apply Hne. by apply (active_unique L q p g f). }
  split.
  - intros q g Hq Hg. destruct (Hother _ _ Hq Hg) as (Hne & HqL & Hfd).
    destruct (li_active _ HI _ _ HqL Hg) as [Hr' Ht']. rewrite E2, E3.
    specialize (B3 (Z.to_nat (fd g)) q ltac:(lia) Ht').
    split; [lia|]. by rewrite list_lookup_insert_ne by lia.
  - intros i q Hq. rewrite E2 in Hq. destruct (decide (i = Z.to_nat (fd f))) as [->|Hne].
    + apply lookup_lt_Some in Ht. by rewrite list_lookup_insert_eq in Hq by lia.
    + rewrite list_lookup_insert_ne in Hq by done.
      destruct (li_table _ HI _ _ Hq) as (g & Hg & Hag & Hfg). exists g. rewrite E1.
      rewrite lookup_insert_ne; [done|]. intros ->. rewrite Hf in Hg. injection Hg as <-. lia.
  - intros b i Hb. rewrite E4, elem_of_difference, (li_watch _ HI b i Hb), elem_of_singleton.
    unfold wanted. split.
    + intros [(q & g & Hq & Hag & Hfg & Hbit) Hne]. exists q, g. rewrite E1.
      rewrite lookup_insert_ne; [done|]. intros ->. congruence.
    + intros (q & g & Hq & Hag & Hfg & Hbit). destruct (Hother _ _ Hq Hag) as (Hne & HqL & Hfd).
      split; [|congruence]. by exists q, g.
  - rewrite E5. apply NoDup_filter, (li_nodup _ HI).
  - intros q. rewrite E5, list_elem_of_filter, (li_pending _ HI), E1.
    destruct (decide (q = p)) as [->|Hne].
    + rewrite lookup_insert_eq. split; [by intros []|intros (g & Hg & Hpg); congruence].
    + rewrite lookup_insert_ne by done. clear -Hne. naive_solver.
  - rewrite E2, E3, length_insert. lia.
  - unfold table_size. rewrite E2, length_insert. destruct (li_size _ HI) as [E|]; [|auto].
    rewrite E in Ht. done.
Qed.

Lemma fdevent_remove_spec L p f :
  loop_inv L -> fdes L !! p = Some f ->
  exists L', fdevent_remove L p = Done L' /\ loop_inv L' /\
    fdes L' = <[p := set_events (set_state f 0) 0]> (fdes L) /\ p ∉ pending L'.
Proof.
  intros HI Hf. unfold fdevent_remove, get_fde. rewrite Hf. cbn [deref mbind outcome_bind].
  rewrite has_pending, has_active.
  set (L0 := if is_pending f then plist_remove L p else L).
  assert (pending L0 = filter (fun q => q <> p) (pending L)) as Hp0.
  { unfold L0. destruct (is_pending f) eqn:Hpf; [done|]. symmetry. apply filter_all.
    intros q Hq ->. apply (li_pending _ HI) in Hq as (g & Hg & Hpg). congruence. }
  assert (fdes L0 = fdes L /\ fd_table L0 = fd_table L /\ select_n L0 = select_n L /\
          forall b, wset L0 b = wset L b) as (E1 & E2 & E3 & E4)
    by (unfold L0; by destruct (is_pending f)).
  assert (forall l, p ∉ filter (fun q => q <> p) l) as Hnp
    by (intros l H; apply list_elem_of_filter in H as [H _]; done).
  destruct (active f) eqn:Ha.
  - destruct (disconnect_unregister_spec L0 L p f) as (L1 & -> & F1 & F2 & F3 & F4 & F5); auto.
    cbn [mbind outcome_bind]. rewrite F1, Hf. cbn [deref mbind outcome_bind].
    eexists. split; [reflexivity|]. cbn [fdes put_fde pending]. rewrite F1, F2, Hp0.
    split_and!; auto.
    apply (inv_uninstall L _ p f (set_events (set_state f 0) 0));
      cbn [fdes put_fde fd_table select_n pending]; auto; congruence.
  - cbn [mbind outcome_bind]. rewrite E1, Hf. cbn [deref mbind outcome_bind].
    eexists. split; [reflexivity|]. cbn [fdes put_fde pending]. rewrite E1, Hp0. split_and!; auto.
    apply (inv_replace L _ p f (set_events (set_state f 0) 0));
      cbn [fdes put_fde fd_table select_n pending]; auto.
    + by rewrite E1.
    + intros b i _. rewrite decide_False by (intros []; congruence).
      change (wset (put_fde L0 p ?x) b) with (wset L0 b). by rewrite E4.
    + rewrite Hp0. apply NoDup_filter, (li_nodup _ HI).
    + intros q. rewrite Hp0, list_elem_of_filter. clear. destruct (decide (q = p)); naive_solver.
Qed.

(** *** One round of the loop *)

(** An fdevent that [ev] was reported for. *)
Definition receive (ev : Z) (f : fdevent) : fdevent :=
  if ev =? 0 then f
  else set_state (set_events f (Z.lor (events f) ev)) (Z.lor (state f) FDE_PENDING).

Lemma lor_pending_bits w k : 0 <= k -> Z.testbit (Z.lor w FDE_PENDING) k = Z.testbit w k || (k =? 9).
Proof.
  intros Hk. rewrite Z.lor_spec. f_equal. change FDE_PENDING with (2 ^ 9).
  destruct (Z.eqb_spec k 9) as [->|]; [done|]. apply Z.pow2_bits_false. lia.
Qed.

Lemma receive_fields ev f :
  fd (receive ev f) = fd f /\ active (receive ev f) = active f /\
  (forall b, event_bit b -> Z.testbit (state (receive ev f)) b = Z.testbit (state f) b) /\
  is_pending (receive ev f) = is_pending f || negb (ev =? 0) /\
  events (receive ev f) = Z.lor (events f) ev.
Proof.
  unfold receive. destruct (Z.eqb_spec ev 0) as [->|Hne].
  - by rewrite orb_false_r, Z.lor_0_r.
  - unfold active, is_pending. cbn [fd state events set_state set_events].
    split_and!; try done.
    + rewrite lor_pending_bits by lia. apply orb_false_r.
    + intros b Hb. rewrite lor_pending_bits by (destruct Hb as [->|[->| ->]]; lia).
      destruct Hb as [->|[->| ->]]; apply orb_false_r.
    + by rewrite lor_pending_bits by lia.
Qed.

Lemma watch_unchanged L p f b i :
  loop_inv L -> fdes L !! p = Some f -> event_bit b ->
  i ∈ wset L b <->
  if decide (active f = true /\ i = fd f) then Z.testbit (state f) b = true else i ∈ wset L b.
Proof.
  intros HI Hf Hb. destruct (decide _) as [[Ha ->]|]; [|done]. rewrite (li_watch _ HI b _ Hb). split.
  - intros (q & g & Hq & Hag & Hfg & Hbit).
    assert (q = p) as -> by (by apply (active_unique L q p g f)). congruence.
  - intros Hbit. by exists p, f.
Qed.

(** Flagging [p] pending, at the end of the list when it was not yet. *)
Lemma inv_receive L L' p f ev :
  loop_inv L -> fdes L !! p = Some f -> ev <> 0 -> fdes L' = <[p := receive ev f]> (fdes L) ->
  fd_table L' = fd_table L -> select_n L' = select_n L -> (forall b, wset L' b = wset L b) ->
  pending L' = (if is_pending f then pending L else pending L ++ [p]) -> loop_inv L'.
Proof.
  intros HI Hf Hev E1 E2 E3 E4 E5.
  destruct (receive_fields ev f) as (F1 & F2 & F3 & F4 & F5).
  apply (inv_replace L L' p f (receive ev f)); auto.
  - intros b i Hb. rewrite E4, F3 by done. by apply (watch_unchanged L p).
  - rewrite E5. destruct (is_pending f) eqn:Hp; [apply (li_nodup _ HI)|].
    apply NoDup_app. split_and!; [apply (li_nodup _ HI)| |apply NoDup_singleton].
    intros q Hq ->%list_elem_of_singleton. apply (li_pending _ HI) in Hq as (g & Hg & Hpg). congruence.
  - intros q. rewrite E5, F4, (proj2 (Z.eqb_neq ev 0) Hev), orb_true_r.
    assert (is_pending f = true -> p ∈ pending L) as Hin by (intros; apply (li_pending _ HI); eauto).
    destruct (decide (q = p)) as [->|Hne].
    + split; [done|]. intros _. destruct (is_pending f); [auto|]. apply elem_of_app. right. by left.
    + destruct (is_pending f); [done|]. rewrite elem_of_app, list_elem_of_singleton. clear -Hne. naive_solver.
Qed.

Lemma in_range (a : bool) lo hi x :
  a && (lo <=? x) && (x <? hi) = true <-> a = true /\ lo <= x /\ x < hi.
Proof. rewrite !andb_true_iff, Z.leb_le, Z.ltb_lt. tauto. Qed.

(** What the rounds over the descriptors of [lo, hi) do to the loop. *)
Definition processed (r w e : gset Z) (lo hi : Z) (L L' : loop) : Prop :=
  fd_table L' = fd_table L /\ select_n L' = select_n L /\ (forall b, wset L' b = wset L b) /\
  forall p, fdes L' !! p = (fun f => if active f && (lo <=? fd f) && (fd f <? hi)
                                     then receive (ready r w e (fd f)) f else f) <$> fdes L !! p.

(** The sets that select returns are subsets of those it was given. *)
Definition select_ok (r w e : gset Z) (L : loop) : Prop :=
  r ⊆ wset L bit_read /\ w ⊆ wset L bit_write /\ e ⊆ wset L bit_error.

Lemma ready_wanted r w e L i :
  loop_inv L -> select_ok r w e L -> ready r w e i <> 0 ->
  exists p f, fdes L !! p = Some f /\ active f = true /\ fd f = i /\ 0 <= i < select_n L /\
    fd_table L !! Z.to_nat i = Some (Some p).
Proof.
  intros HI (H1 & H2 & H3) Hr.
  assert (exists b, event_bit b /\ i ∈ wset L b) as (b & Hb & Hi).
  { unfold ready in Hr. unfold event_bit.
    destruct (decide (i ∈ r)); [exists 0; set_solver|].
    destruct (decide (i ∈ w)); [exists 1; set_solver|].
    destruct (decide (i ∈ e)); [exists 2; set_solver|done]. }
  apply (li_watch _ HI b i Hb) in Hi as (p & f & Hf & Ha & <- & _).
  destruct (li_active _ HI _ _ Hf Ha). exists p, f. split_and!; auto; lia.
Qed.

Lemma process_fd_spec r w e i n L :
  loop_inv L -> select_ok r w e L -> 0 <= i < FD_SETSIZE ->
  exists L', process_fd r w e i n L = Done (if ready r w e i =? 0 then n else n - 1, L') /\
    loop_inv L' /\ processed r w e i (i + 1) L L'.
Proof.
  intros HI Hsel H0. unfold process_fd. rewrite fd_bit_ok by done. cbn [mbind outcome_bind].
  destruct (Z.eqb_spec (ready r w e i) 0) as [Hz|Hnz].
  - exists L. unfold processed. split_and!; try done. intros p. destruct (fdes L !! p) as [f|]; [|done].
    cbn [fmap option_fmap option_map]. destruct (_ && _ && _) eqn:Hc; [|done].
    apply in_range in Hc as (_ & Hlo & Hhi). replace (fd f) with i by lia. by rewrite Hz.
  - destruct (ready_wanted _ _ _ _ _ HI Hsel Hnz) as (p & f & Hf & Ha & Hfd & Hr & Ht).
    rewrite Ht. unfold get_fde. rewrite Hf. cbn [deref mbind outcome_bind state set_events].
    rewrite has_pending.
    set (ev := ready r w e i) in *.
    assert (receive ev f = set_state (set_events f (Z.lor (events f) ev)) (Z.lor (state f) FDE_PENDING))
      as Hrec by (unfold receive; by destruct (Z.eqb_spec ev 0)).
    assert (is_pending f = true -> receive ev f = set_events f (Z.lor (events f) ev)) as Hrec'.
    { intros Hp. rewrite Hrec. unfold set_state, set_events. cbn. f_equal. apply Z.bits_inj'.
      intros k Hk. rewrite lor_pending_bits by done. destruct (Z.eqb_spec k 9) as [->|]; [|apply orb_false_r].
      unfold is_pending in Hp. by rewrite Hp. }
    assert (forall L', fdes L' = <[p := receive ev f]> (fdes L) -> fd_table L' = fd_table L ->
      select_n L' = select_n L -> (forall b, wset L' b = wset L b) ->
      processed r w e i (i + 1) L L') as Hpr.
    { intros L' E1 E2 E3 E4. unfold processed. split_and!; auto. intros q. rewrite E1.
      destruct (decide (q = p)) as [->|Hne].
      - rewrite lookup_insert_eq, Hf. cbn [fmap option_fmap option_map].
        rewrite (proj2 (in_range (active f) i (i + 1) (fd f))) by (split_and!; auto; lia). by rewrite Hfd.
      - rewrite lookup_insert_ne by done. destruct (fdes L !! q) as [g|] eqn:Hg; [|done].
        cbn [fmap option_fmap option_map]. destruct (_ && _ && _) eqn:Hc; [|done].
        apply in_range in Hc as (Hag & Hlo & Hhi). exfalso. apply Hne. apply (active_unique L q p g f); auto. lia. }
    destruct (is_pending f) eqn:Hp.
    + eexists. split; [reflexivity|]. rewrite <- Hrec' by done. split; [|by apply Hpr].
      apply (inv_receive L _ p f ev); auto. by rewrite Hp.
    + eexists. split; [reflexivity|]. cbn [state set_events]. change (set_state ?x ?y) with (set_state x y).
      rewrite <- Hrec. split; [|by apply Hpr].
      apply (inv_receive L _ p f ev); auto. by rewrite Hp.
Qed.

Lemma processed_trans r w e lo mid hi L L1 L2 :
  lo <= mid <= hi -> processed r w e lo mid L L1 -> processed r w e mid hi L1 L2 ->
  processed r w e lo hi L L2.
Proof.
  intros Hm (A1 & A2 & A3 & A4) (B1 & B2 & B3 & B4). unfold processed.
  split_and!; [congruence|congruence|intros b; by rewrite B3, A3|].
  intros p. rewrite B4, A4. destruct (fdes L !! p) as [f|]; [|done].
  cbn [fmap option_fmap option_map]. f_equal.
  destruct (active f && (lo <=? fd f) && (fd f <? mid)) eqn:H1.
  - destruct (receive_fields (ready r w e (fd f)) f) as (F1 & F2 & _). rewrite F1, F2.
    apply in_range in H1 as (Ha & Hlo & Hmid).
    rewrite (proj2 (in_range (active f) lo hi (fd f))) by (split_and!; auto; lia).
    destruct (_ && _ && _) eqn:H2; [|done]. apply in_range in H2. lia.
  - destruct (active f && (mid <=? fd f) && (fd f <? hi)) eqn:H2.
    + apply in_range in H2 as (Ha & Hlo & Hhi).
      by rewrite (proj2 (in_range (active f) lo hi (fd f))) by (split_and!; auto; lia).
    + destruct (active f && (lo <=? fd f) && (fd f <? hi)) eqn:H3; [|done].
      apply in_range in H3 as (Ha & Hlo & Hhi). exfalso.
      destruct (Z.lt_ge_cases (fd f) mid).
      * by rewrite (proj2 (in_range (active f) lo mid (fd f))) in H1 by (split_and!; auto; lia).
      * by rewrite (proj2 (in_range (active f) mid hi (fd f))) in H2 by (split_and!; auto; lia).
Qed.

Lemma processed_empty r w e i L : processed r w e i i L L.
Proof.
  unfold processed. split_and!; try done. intros p. destruct (fdes L !! p) as [f|]; [|done].
  cbn [fmap option_fmap option_map]. destruct (_ && _ && _) eqn:H; [|done]. apply in_range in H. lia.
Qed.

Lemma ready_zero r w e i : ready r w e i = 0 <-> i ∉ r ∪ w ∪ e.
Proof.
  unfold ready. split.
  - intros H Hi. destruct (decide (i ∈ r)), (decide (i ∈ w)), (decide (i ∈ e)); done || set_solver.
  - intros H. rewrite !decide_False by set_solver. done.
Qed.

(** Ready descriptors from [i] on. *)
Definition left_from (r w e : gset Z) (i : Z) : gset Z := filter (fun j => i <= j) (r ∪ w ∪ e).

Lemma left_from_step r w e i :
  Z.of_nat (size (left_from r w e i))
  = Z.of_nat (size (left_from r w e (i + 1))) + (if ready r w e i =? 0 then 0 else 1).
Proof.
  destruct (Z.eqb_spec (ready r w e i) 0) as [Hz|Hnz].
  - rewrite Z.add_0_r. do 2 f_equal. apply set_eq. intros j. unfold left_from.
    rewrite !elem_of_filter. apply ready_zero in Hz. split; intros [H1 H2]; split; try done; [|lia].
    destruct (decide (i = j)) as [->|]; [done|lia].
  - assert (left_from r w e i = {[i]} ∪ left_from r w e (i + 1)) as ->.
    { apply set_eq. intros j. unfold left_from. rewrite elem_of_union, !elem_of_filter, elem_of_singleton.
      assert (i ∈ r ∪ w ∪ e) as Hi.
      { destruct (decide (i ∈ r ∪ w ∪ e)); [done|]. exfalso. by apply Hnz, ready_zero. }
      destruct (decide (j = i)) as [->|]; [intuition lia|intuition lia]. }
    rewrite size_union, size_singleton; [lia|]. unfold left_from. intros j.
    rewrite elem_of_singleton, elem_of_filter. lia.
Qed.

Lemma process_loop_spec r w e k : forall i n L,
  loop_inv L -> select_ok r w e L -> 0 <= i -> i + Z.of_nat k = select_n L ->
  exists L' hi, process_loop k i r w e n L = Done L' /\ loop_inv L' /\ i <= hi <= select_n L /\
    processed r w e i hi L L' /\
    (Z.of_nat (size (left_from r w e i)) <= n -> hi = select_n L \/ left_from r w e hi = ∅).
Proof.
  induction k as [|k IH]; intros i n L HI Hsel H0 Hik; cbn [process_loop].
  { exists L, i. split_and!; auto; try lia. apply processed_empty. }
  rewrite Z.gtb_ltb. destruct (Z.ltb_spec 0 n) as [Hn|Hn].
  - pose proof (li_select _ HI) as Hsn0. destruct (process_fd_spec r w e i n L HI Hsel ltac:(lia)) as (L1 & -> & HI1 & Hp1).
    cbn [mbind outcome_bind fst snd].
    assert (select_n L1 = select_n L) as Hsn by apply Hp1.
    assert (select_ok r w e L1) as Hsel1.
    { destruct Hp1 as (_ & _ & E & _). unfold select_ok. rewrite !E. apply Hsel. }
    destruct (IH (i + 1) (if ready r w e i =? 0 then n else n - 1) L1)
      as (L' & hi & -> & HI' & Hhi & Hp' & Hcount); auto; try lia.
    exists L', hi. split_and!; auto; try lia.
    + apply (processed_trans r w e i (i + 1) hi L L1 L'); auto. lia.
    + intros Hsz. rewrite left_from_step in Hsz. rewrite Hsn in Hcount. apply Hcount.
      destruct (ready r w e i =? 0); lia.
  - exists L, i. split_and!; auto; try lia; [apply processed_empty|].
    intros Hsz. right. apply leibniz_equiv, size_empty_inv. lia.
Qed.

Lemma dispatch_spec L :
  loop_inv L ->
  match pending L with
  | [] => dispatch L = Done (None, L)
  | p :: rest => exists f L', fdes L !! p = Some f /\
      dispatch L = Done (Some (fd f, events f, func f, arg f), L') /\ loop_inv L' /\
      pending L' = rest /\
      fdes L' = <[p := set_state (set_events f 0) (clear (state f) FDE_PENDING)]> (fdes L)
  end.
Proof.
  intros HI. unfold dispatch. destruct (pending L) as [|p rest] eqn:Hp; [done|].
  destruct (proj1 (li_pending _ HI p) ltac:(rewrite Hp; by left)) as (f & Hf & Hpf).
  unfold get_fde. cbn [fdes put_pending]. rewrite Hf. cbn [deref mbind outcome_bind].
  eexists f, _. split_and!; [done|reflexivity| |done|done].
  pose proof (li_nodup _ HI) as Hnd. rewrite Hp in Hnd. apply NoDup_cons in Hnd as [Hnin Hnd].
  set (f' := set_state (set_events f 0) (clear (state f) FDE_PENDING)).
  assert (forall k, 0 <= k -> k <> 9 -> Z.testbit (state f') k = Z.testbit (state f) k) as Hbits.
  { intros k Hk Hne. cbn [f' state set_state]. rewrite clear_pending_bits by done.
    by rewrite (proj2 (Z.eqb_neq k 9) Hne), andb_true_r. }
  apply (inv_replace L _ p f f'); auto.
  - apply Hbits; lia.
  - intros b i Hb. change (wset (put_fde _ _ _) b) with (wset L b).
    rewrite Hbits by (destruct Hb as [->|[->| ->]]; lia). by apply (watch_unchanged L p).
  - intros q. cbn [pending put_fde put_pending]. rewrite ?Hp.
    destruct (decide (q = p)) as [->|Hne].
    + split; [done|]. unfold is_pending. cbn [f' state set_state]. rewrite clear_pending_bits by lia.
      cbn. by rewrite andb_false_r.
    + rewrite elem_of_cons. clear -Hne. naive_solver.
Qed.

Lemma fdevent_create_spec g L p i fn a :
  loop_inv L -> idle L p -> 0 <= i < FD_SETSIZE -> slot L i = None ->
  exists L', fdevent_create 4 g L p i fn a = Done L' /\ loop_inv L' /\
    fdes L' = <[p := mk_fde i (Z.lor FDE_ACTIVE FDE_CREATED) 0 fn a]> (fdes L).
Proof.
  intros HI Hid Hi Hs. unfold fdevent_create.
  destruct (fdevent_install_spec g L p i fn a HI Hid Hi Hs) as (L1 & -> & HI1 & E1).
  cbn [mbind outcome_bind]. unfold get_fde.
  assert (fdes L1 !! p = Some (mk_fde i FDE_ACTIVE 0 fn a)) as Hp by (rewrite E1; apply lookup_insert_eq).
  rewrite Hp. cbn [deref mbind outcome_bind]. eexists. split; [reflexivity|].
  split; [|cbn [fdes put_fde]; rewrite E1; apply insert_insert_eq].
  eapply (inv_replace L1 _ p _ _ HI1 Hp); [reflexivity|done..| | |].
  - intros b j Hb. etrans; [apply (watch_unchanged L1 p _ b j HI1 Hp Hb)|].
    by destruct Hb as [->|[->| ->]].
  - apply (li_nodup _ HI1).
  - intros q. cbn [pending put_fde]. destruct (decide (q = p)) as [->|]; [|done].
    rewrite (li_pending _ HI1), Hp. split; [|done]. by intros (f & [= <-] & H).
Qed.

(** *** The loop as a state machine *)

(** The operations that callbacks and fdevent_loop perform, in any order. *)
Inductive op :=
  | Install (garbage : list (option ptr)) (p : ptr) (i : Z) (fn a : nat)
  | Create (garbage : list (option ptr)) (p : ptr) (i : Z) (fn a : nat)
  | Remove (p : ptr)
  | Destroy (p : ptr)
  | SetEvents (p : ptr) (ev : Z)
  | AddEvents (p : ptr) (ev : Z)
  | DelEvents (p : ptr) (ev : Z)
  | Process (n : Z) (r w e : gset Z)
  | Dispatch.

Definition exec (o : op) (L : loop) : outcome loop :=
  match o with
  | Install g p i fn a => fdevent_install 4 g L p i fn a
  | Create g p i fn a => fdevent_create 4 g L p i fn a
  | Remove p => fdevent_remove L p
  | Destroy p => fdevent_destroy L p
  | SetEvents p ev => fdevent_set L p ev
  | AddEvents p ev => fdevent_add L p ev
  | DelEvents p ev => fdevent_del L p ev
  | Process n r w e => fdevent_process n r w e L
  | Dispatch => cL ← dispatch L; Done cL.2
  end.

(** What the callers owe: a descriptor is installed once, on a block of memory
    not in use, and it is one that an fd_set has a bit for, which the code does not check; the other operations are applied to allocated fdevents; select
    reports a subset of what it was asked about. *)
Definition pre (o : op) (L : loop) : Prop :=
  match o with
  | Install _ p i _ _ | Create _ p i _ _ => idle L p /\ 0 <= i < FD_SETSIZE /\ slot L i = None
  | Remove p | SetEvents p _ | AddEvents p _ | DelEvents p _ => is_Some (fdes L !! p)
  | Destroy p => p = NULL \/ exists f, fdes L !! p = Some f /\ has (state f) FDE_CREATED = true
  | Process _ r w e => select_ok r w e L
  | Dispatch => True
  end.

Definition empty_loop : loop := mk_loop ∅ [] [] ∅ ∅ ∅ 0 [].

Inductive reachable : loop -> Prop :=
  | reach_init : reachable empty_loop
  | reach_step L o L' : reachable L -> pre o L -> exec o L = Done L' -> reachable L'.

Lemma empty_inv : loop_inv empty_loop.
Proof.
  split; try done.
  - intros b i Hb. unfold wset, empty_loop. cbn. split; [repeat case_match; set_solver|].
    intros (p & f & Hf & _). done.
  - apply NoDup_nil_2.
  - intros p. cbn. split; [set_solver|]. by intros (f & Hf & _).
  - by left.
Qed.

Lemma exec_spec o L : loop_inv L -> pre o L -> exists L', exec o L = Done L' /\ loop_inv L'.
Proof.
  intros HI Hpre. destruct o; cbn [exec pre] in *.
  - destruct Hpre as (H1 & H2 & H3). destruct (fdevent_install_spec garbage L p i fn a HI H1 H2 H3) as (L' & ? & ? & _); eauto.
  - destruct Hpre as (H1 & H2 & H3). destruct (fdevent_create_spec garbage L p i fn a HI H1 H2 H3) as (L' & ? & ? & _); eauto.
  - destruct Hpre as [f Hf]. destruct (fdevent_remove_spec L p f HI Hf) as (L' & ? & ? & _); eauto.
  - unfold fdevent_destroy. destruct (Nat.eqb_spec p NULL) as [->|Hn]; [eauto|].
    destruct Hpre as [|(f & Hf & Hc)]; [done|]. unfold get_fde. rewrite Hf. cbn [deref mbind outcome_bind].
    rewrite Hc. cbn [negb]. destruct (fdevent_remove_spec L p f HI Hf) as (L' & ? & ? & _); eauto.
  - destruct Hpre as [f Hf]. destruct (fdevent_set_spec L p f ev HI Hf) as (L' & ? & ? & ? & _); eauto.
  - destruct Hpre as [f Hf]. unfold fdevent_add, get_fde. rewrite Hf. cbn [deref mbind outcome_bind].
    destruct (fdevent_set_spec L p f (Z.lor (Z.land (state f) FDE_EVENTMASK)
      (Z.land ev FDE_EVENTMASK)) HI Hf) as (L' & ? & ? & ? & _); eauto.
  - destruct Hpre as [f Hf]. unfold fdevent_del, get_fde. rewrite Hf. cbn [deref mbind outcome_bind].
    destruct (fdevent_set_spec L p f (Z.land (Z.land (state f) FDE_EVENTMASK)
      (Z.lnot (Z.land ev FDE_EVENTMASK))) HI Hf) as (L' & ? & ? & ? & _); eauto.
  - unfold fdevent_process. destruct (n <? 0); [eauto|]. pose proof (li_select _ HI).
    destruct (process_loop_spec r w e (Z.to_nat (select_n L)) 0 n L) as (L' & hi & ? & ? & _);
      eauto; lia.
  - pose proof (dispatch_spec L HI) as H. destruct (pending L).
    + rewrite H. cbn. eauto.
    + destruct H as (f & L' & _ & -> & ? & _). cbn. eauto.
Qed.

Lemma reachable_inv L : reachable L -> loop_inv L.
Proof.
  induction 1 as [|L o L' _ IH Hpre Hex]; [apply empty_inv|].
  destruct (exec_spec o L IH Hpre) as (L1 & H1 & H2). congruence.
Qed.
End invariant.

(** C2 (invariant). On a machine with pointers of 4 bytes and with memory left, and in every state the event loop
    reaches from the initial one by operations used as their callers owe (a descriptor from
    0 to FD_SETSIZE - 1 is installed once, on a block not in use; an fdevent is
    allocated, and made by fdevent_create when it is destroyed; select reports what it was asked for),
    every such operation completes (no FATAL check fires, no slot outside the table, no
    bit outside an fd_set and no freed fdevent is reached) and re-establishes the invariant: the table maps each descriptor to its active fdevent, the watch
    sets hold exactly the events that active fdevents want, and the pending list
    holds each fdevent flagged pending exactly once. *)
Theorem loop_safe (L : Fdevent.loop) (o : op) :
  reachable L -> pre o L -> exists L', exec o L = Done L' /\ loop_inv L'.
Proof. intros Hr. apply exec_spec. by apply reachable_inv. Qed.

Definition one_fde : Fdevent.loop :=
  match Fdevent.fdevent_create 4 [] empty_loop 7%nat 5 1 2 with Done L => L | _ => empty_loop end.

Lemma loop_safe_witness :
  exists L', exec (SetEvents 7%nat Fdevent.FDE_READ) one_fde = Done L' /\ loop_inv L'.
Proof.
  apply loop_safe.
  - apply (reach_step empty_loop (Create [] 7%nat 5 1 2)); [constructor| |by vm_compute].
    repeat split; by vm_compute.
  - vm_compute. eauto.
Defined.

(** When select reported at most as many descriptors as its
    result says, one call of fdevent_process hands every reported event to the
    fdevent of its descriptor: exactly the active fdevents with a reported event
    become pending, with that event added, and all others are left as they were. *)
Theorem process_delivers (L : Fdevent.loop) (n : Z) (r w e : gset Z) :
  loop_inv L -> select_ok r w e L -> Z.of_nat (size (r ∪ w ∪ e)) <= n ->
  exists L', Fdevent.fdevent_process n r w e L = Done L' /\ loop_inv L' /\
    forall p, Fdevent.fdes L' !! p =
      (fun f => if active f then receive (Fdevent.ready r w e (Fdevent.fd f)) f else f) <$> Fdevent.fdes L !! p.
Proof.
  intros HI Hsel Hsz. unfold Fdevent.fdevent_process. pose proof (li_select _ HI).
  destruct (Z.ltb_spec n 0); [lia|].
  destruct (process_loop_spec r w e (Z.to_nat (Fdevent.select_n L)) 0 n L)
    as (L' & hi & -> & HI' & Hhi & (_ & _ & _ & Hp) & Hcount); auto; try lia.
  exists L'. split_and!; auto. intros p. rewrite Hp.
  destruct (Fdevent.fdes L !! p) as [f|] eqn:Hf; [|done]. cbn [fmap option_fmap option_map]. f_equal.
  destruct (active f) eqn:Ha; [|done]. destruct (li_active _ HI _ _ Hf Ha) as [Hr _].
  destruct (_ && _ && _) eqn:Hc; [done|].
  replace (Fdevent.ready r w e (Fdevent.fd f)) with 0; [done|]. symmetry. apply ready_zero. intros Hin.
  assert (left_from r w e hi = ∅) as Hemp.
  { destruct Hcount as [->|]; [|by rewrite (proj2 (in_range true 0 (Fdevent.select_n L) (Fdevent.fd f))) in Hc
                                   by (split_and!; auto; lia)|done].
    etrans; [|apply Hsz]. apply inj_le, subseteq_size. unfold left_from. set_solver. }
  destruct (Z.lt_ge_cases (Fdevent.fd f) hi).
  - by rewrite (proj2 (in_range true 0 hi (Fdevent.fd f))) in Hc by (split_and!; auto; lia).
  - assert (Fdevent.fd f ∈ left_from r w e hi) as Hx by (apply elem_of_filter; split; [lia|done]).
    rewrite Hemp in Hx. set_solver.
Qed.

(** Withdrawing an event that is already pending does not keep
    it from being signalled: after fdevent_del the fdevent no longer wants the event,
    is still on the pending list and still carries it. *)
Theorem fdevent_del_still_signals (L : Fdevent.loop) (p : ptr) (f : Fdevent.fdevent) (b : Z) :
  loop_inv L -> Fdevent.fdes L !! p = Some f -> is_pending f = true -> event_bit b ->
  Z.testbit (Fdevent.state f) b = true -> Z.testbit (Fdevent.events f) b = true ->
  exists L' f', Fdevent.fdevent_del L p (2 ^ b) = Done L' /\ Fdevent.fdes L' !! p = Some f' /\
    Z.testbit (Fdevent.state f') b = false /\ Z.testbit (Fdevent.events f') b = true /\
    p ∈ Fdevent.pending L'.
Proof.
  intros HI Hf Hp Hb Hs He. unfold Fdevent.fdevent_del, Fdevent.get_fde. rewrite Hf.
  cbn [deref mbind outcome_bind].
  set (ev := Z.land (Z.land (Fdevent.state f) Fdevent.FDE_EVENTMASK)
                    (Z.lnot (Z.land (2 ^ b) Fdevent.FDE_EVENTMASK))).
  assert (Z.testbit ev b = false) as Hev.
  { unfold ev. rewrite Z.land_spec, Z.lnot_spec by (destruct Hb as [->|[->| ->]]; lia).
    rewrite (event_has (2 ^ b) b Hb), Z.pow2_bits_true by (destruct Hb as [->|[->| ->]]; lia).
    apply andb_false_r. }
  destruct (fdevent_set_spec L p f ev HI Hf) as (L' & f' & -> & HI' & Hfd & _ & _ & Hst & Hev' & Hpe).
  assert (0 <= b < 8) as Hb8 by (destruct Hb as [->|[->| ->]]; lia).
  assert (Z.testbit (Fdevent.events f') b = true) as He'.
  { rewrite Hev'. case_match; [done|]. rewrite Z.land_spec, Z.lnot_spec by lia.
    by rewrite (event_has ev b Hb), Hev, He. }
  exists L', f'. rewrite Hfd, lookup_insert_eq, Hst by done. split_and!; auto.
  apply (li_pending _ HI'). exists f'. rewrite Hfd, lookup_insert_eq. split; [done|].
  apply Hpe; [done|]. intros E. by rewrite E, Z.testbit_0_l in He'.
Qed.


(** Two more states of the example: the fdevent wants to read, then is readable. *)
Definition step_or (L : Fdevent.loop) (o : op) : Fdevent.loop :=
  match exec o L with Done L' => L' | _ => L end.
Definition reading_fde : Fdevent.loop := step_or one_fde (SetEvents 7%nat Fdevent.FDE_READ).
Definition readable_fde : Fdevent.loop := step_or reading_fde (Process 1 {[5]} ∅ ∅).

Lemma reading_reachable : reachable reading_fde.
Proof.
  apply (reach_step one_fde (SetEvents 7%nat Fdevent.FDE_READ));
    [|vm_compute; eauto|by vm_compute].
  apply (reach_step empty_loop (Create [] 7%nat 5 1 2)); [constructor| |by vm_compute].
  repeat split; by vm_compute.
Qed.

Lemma reading_select_ok : select_ok {[5]} ∅ ∅ reading_fde.
Proof. unfold select_ok. split_and!; [|set_solver|set_solver]. by_compute. Qed.

Lemma process_delivers_witness :
  exists L', Fdevent.fdevent_process 1 {[5]} ∅ ∅ reading_fde = Done L' /\ loop_inv L' /\
    forall p, Fdevent.fdes L' !! p =
      (fun f => if active f then receive (Fdevent.ready {[5]} ∅ ∅ (Fdevent.fd f)) f else f)
        <$> Fdevent.fdes reading_fde !! p.
Proof.
  apply process_delivers.
  - apply reachable_inv, reading_reachable.
  - apply reading_select_ok.
  - by vm_compute.
Defined.

Lemma fdevent_del_still_signals_witness :
  exists L' f', Fdevent.fdevent_del readable_fde 7%nat (2 ^ 0) = Done L' /\
    Fdevent.fdes L' !! 7%nat = Some f' /\ Z.testbit (Fdevent.state f') 0 = false /\
    Z.testbit (Fdevent.events f') 0 = true /\ 7%nat ∈ Fdevent.pending L'.
Proof.
  apply (fdevent_del_still_signals readable_fde 7%nat (Fdevent.mk_fde 5 0x701 1 1 2) 0);
    [|by vm_compute|by vm_compute|by left|by vm_compute|by vm_compute].
  apply reachable_inv, (reach_step reading_fde (Process 1 {[5]} ∅ ∅));
    [apply reading_reachable|apply reading_select_ok|by vm_compute].
Defined.

(** The memset of fdevent_register counts slots of the size of an
    int: with pointers of 8 bytes the upper half of a new table keeps whatever the
    reallocated memory held. *)
Theorem register_64bit_garbage (g : list (option ptr)) (L : Fdevent.loop) (i : Z) (j : nat) :
  Fdevent.fd_table L = [] -> 0 <= i < 256 -> (128 <= j < 256)%nat ->
  Fdevent.fd_table (Fdevent.grow_table 8 g L i) !! j = g !! j.
Proof.
  intros Hnil Hi Hj. unfold Fdevent.grow_table. rewrite Hnil. change (length []) with 0%nat.
  change (Z.of_nat 0 =? 0) with true. cbv iota.
  assert (Fdevent.grow 8 256 i = 256) as ->
    by (cbn [Fdevent.grow]; destruct (Z.leb_spec 256 i); [lia|done]).
  change (Z.to_nat (4 * (256 - Z.of_nat 0) / 8)) with 128%nat.
  change (Z.to_nat (256 - Z.of_nat 0)) with 256%nat.
  cbn [Fdevent.fd_table Fdevent.put_table Fdevent.fdevent_init Fdevent.put_sets]. rewrite Hnil, app_nil_l.
  rewrite lookup_app_r by (rewrite length_replicate; lia).
  rewrite length_replicate, lookup_drop, lookup_take_lt by lia. f_equal. lia.
Qed.

Lemma register_64bit_garbage_witness :
  Fdevent.fd_table (Fdevent.grow_table 8 (replicate 256 (Some 99%nat)) empty_loop 3) !! 200%nat
  = Some (Some 99%nat).
Proof. by rewrite register_64bit_garbage by (done || lia). Defined.

(** Descriptors from FD_SETSIZE to 32000 pass the checks of fdevent_register; asking for
    an event, removing the fdevent and a turn of the loop then reach behind an fd_set. *)
Example descriptor_outside_set :
  exists L, Fdevent.fdevent_create 4 [] empty_loop 7%nat 1024 1 2 = Done L /\
    Fdevent.fdevent_set L 7%nat Fdevent.FDE_READ = Undef "fd_set" /\
    Fdevent.fdevent_remove L 7%nat = Undef "fd_set" /\
    Fdevent.process_loop 1 1024 ∅ ∅ ∅ 1 L = Undef "fd_set".
Proof. eexists. split; [vm_compute; reflexivity|]. by vm_compute. Qed.
