(* ===== verification/Sockets.v ===== *)
(** * Sockets: the two ends of adb's streams (sockets.c, handle_packet of adb.c)

    A socket is local (bound to a descriptor), remote (bound to a stream of a
    transport) or smart (decoding the service a new client asks for); its
    [enqueue], [ready] and [close] pointers say which.  Sockets refer to each
    other by address: freeing one deletes it, and reading a freed or null
    address is [Undef].  The socket list lock is not recursive: taking it twice
    is [Stop].  [fuel] bounds the mutual calls of close handlers. *)

From S2P Require Import Prelude Dlist Io Packet Fdevent.

Module Sockets.

Inductive enqueue_fn := local_enqueue | remote_enqueue | smart_enqueue.
Inductive ready_fn := local_ready | local_ready_notify | remote_ready | smart_ready.
Inductive close_fn := local_close | local_close_notify | remote_close | smart_close.

#[export] Instance enqueue_fn_eq_dec : EqDecision enqueue_fn.
Proof. solve_decision. Defined.
#[export] Instance ready_fn_eq_dec : EqDecision ready_fn.
Proof. solve_decision. Defined.
#[export] Instance close_fn_eq_dec : EqDecision close_fn.
Proof. solve_decision. Defined.

(** [wants] are the events asked of [fde]; [queue] is the list from [pkt_first]
    to [pkt_last], each packet as the bytes from [ptr] that are still to write. *)
Record asocket := mk_sock {
  id : Z;
  closing : bool;
  peer : ptr;
  wants : Z;
  fd : Z;
  queue : list bytes;
  enqueue : enqueue_fn;
  ready : ready_fn;
  close : close_fn;
  transport : ptr
}.

Definition set_id (s : asocket) v :=
  mk_sock v (closing s) (peer s) (wants s) (fd s) (queue s) (enqueue s) (ready s) (close s) (transport s).
Definition set_closing (s : asocket) v :=
  mk_sock (id s) v (peer s) (wants s) (fd s) (queue s) (enqueue s) (ready s) (close s) (transport s).
Definition set_peer (s : asocket) v :=
  mk_sock (id s) (closing s) v (wants s) (fd s) (queue s) (enqueue s) (ready s) (close s) (transport s).
Definition set_wants (s : asocket) v :=
  mk_sock (id s) (closing s) (peer s) v (fd s) (queue s) (enqueue s) (ready s) (close s) (transport s).
Definition set_queue (s : asocket) v :=
  mk_sock (id s) (closing s) (peer s) (wants s) (fd s) v (enqueue s) (ready s) (close s) (transport s).
Definition set_handlers (s : asocket) r c :=
  mk_sock (id s) (closing s) (peer s) (wants s) (fd s) (queue s) (enqueue s) r c (transport s).
Definition set_transport (s : asocket) v :=
  mk_sock (id s) (closing s) (peer s) (wants s) (fd s) (queue s) (enqueue s) (ready s) (close s) v.

(** A message handed to send_packet: command, arg0, arg1 and payload. *)
Record sent_msg := mk_sent { s_cmd : Z; s_arg0 : Z; s_arg1 : Z; s_data : bytes }.

(** A nonblocking descriptor: the results its reads and writes will give (none
    left is EAGAIN) and the bytes written so far. *)
Record chan := mk_chan { reads : list Io.rd; writes : list Io.wr; written : bytes }.
Definition no_chan : chan := mk_chan [] [] [].

(** What the sockets read and write of a transport. *)
Record tinfo := mk_tinfo { connection_state : Z; product : option bytes }.

(** The file's state: the heap of sockets, the two lists, the id counter, the
    next block malloc returns, the list lock, the remote sockets on each
    transport's disconnect list, the transports, the packets sent, and the
    descriptors. *)
Record sys := mk_sys {
  socks : gmap ptr asocket;
  local_socket_list : list ptr;
  local_socket_closing_list : list ptr;
  local_socket_next_id : Z;
  brk : ptr;
  locked : bool;
  disconnects : gmap ptr (list ptr);
  transports : gmap ptr tinfo;
  sent : list (ptr * sent_msg);
  chans : gmap Z chan;
  closed_fds : list Z
}.

Definition put_socks (w : sys) v :=
  mk_sys v (local_socket_list w) (local_socket_closing_list w) (local_socket_next_id w) (brk w)
    (locked w) (disconnects w) (transports w) (sent w) (chans w) (closed_fds w).
Definition put_lists (w : sys) v v' :=
  mk_sys (socks w) v v' (local_socket_next_id w) (brk w)
    (locked w) (disconnects w) (transports w) (sent w) (chans w) (closed_fds w).
Definition put_next_id (w : sys) v :=
  mk_sys (socks w) (local_socket_list w) (local_socket_closing_list w) v (brk w)
    (locked w) (disconnects w) (transports w) (sent w) (chans w) (closed_fds w).
Definition put_brk (w : sys) v :=
  mk_sys (socks w) (local_socket_list w) (local_socket_closing_list w) (local_socket_next_id w) v
    (locked w) (disconnects w) (transports w) (sent w) (chans w) (closed_fds w).
Definition put_locked (w : sys) v :=
  mk_sys (socks w) (local_socket_list w) (local_socket_closing_list w) (local_socket_next_id w) (brk w)
    v (disconnects w) (transports w) (sent w) (chans w) (closed_fds w).
Definition put_disconnects (w : sys) v :=
  mk_sys (socks w) (local_socket_list w) (local_socket_closing_list w) (local_socket_next_id w) (brk w)
    (locked w) v (transports w) (sent w) (chans w) (closed_fds w).
Definition put_transports (w : sys) v :=
  mk_sys (socks w) (local_socket_list w) (local_socket_closing_list w) (local_socket_next_id w) (brk w)
    (locked w) (disconnects w) v (sent w) (chans w) (closed_fds w).
Definition put_sent (w : sys) v :=
  mk_sys (socks w) (local_socket_list w) (local_socket_closing_list w) (local_socket_next_id w) (brk w)
    (locked w) (disconnects w) (transports w) v (chans w) (closed_fds w).
Definition put_chans (w : sys) v :=
  mk_sys (socks w) (local_socket_list w) (local_socket_closing_list w) (local_socket_next_id w) (brk w)
    (locked w) (disconnects w) (transports w) (sent w) v (closed_fds w).
Definition put_closed (w : sys) v :=
  mk_sys (socks w) (local_socket_list w) (local_socket_closing_list w) (local_socket_next_id w) (brk w)
    (locked w) (disconnects w) (transports w) (sent w) (chans w) v.

Definition get (w : sys) (p : ptr) : outcome asocket := deref "asocket" (socks w !! p).
Definition put (w : sys) (p : ptr) (s : asocket) : sys := put_socks w (<[p := s]> (socks w)).
Definition free (w : sys) (p : ptr) : sys := put_socks w (delete p (socks w)).

(** [s->field = ...] through a pointer. *)
Definition modify (w : sys) (p : ptr) (f : asocket -> asocket) : outcome sys :=
  s ← get w p; Done (put w p (f s)).

Definition mutex_lock (w : sys) : outcome sys :=
  if locked w then Stop "socket_list_lock" else Done (put_locked w true).
Definition mutex_unlock (w : sys) : sys := put_locked w false.

Definition chan_of (w : sys) (i : Z) : chan := default no_chan (chans w !! i).
Definition put_chan (w : sys) (i : Z) (c : chan) : sys := put_chans w (<[i := c]> (chans w)).

(** [adb_write] on a nonblocking descriptor, for a nonempty buffer. *)
Definition chan_write (w : sys) (i : Z) (d : bytes) : Io.wrret * sys :=
  let c := chan_of w i in
  match Io.adb_write (writes c) (length d) with
  | Some (Io.Took r, l) => (Io.Took r, put_chan w i (mk_chan (reads c) l (written c ++ take r d)))
  | Some (r, l) => (r, put_chan w i (mk_chan (reads c) l (written c)))
  | None => (Io.TFail EAGAIN, w)
  end.

Definition chan_read (w : sys) (i : Z) (len : nat) : Io.rdret * sys :=
  let c := chan_of w i in
  match Io.adb_read (reads c) len with
  | Some (r, l) => (r, put_chan w i (mk_chan l (writes c) (written c)))
  | None => (Io.RFail EAGAIN, w)
  end.

(** writex on such a descriptor, whose result the callers below do not use. *)
Definition chan_writex (w : sys) (i : Z) (d : bytes) : Z * sys :=
  let c := chan_of w i in
  match Io.writex (writes c) d with
  | Io.TxOk out l => (0, put_chan w i (mk_chan (reads c) l (written c ++ out)))
  | Io.TxErr out l => (-1, put_chan w i (mk_chan (reads c) l (written c ++ out)))
  | Io.TxBlock out => (-1, put_chan w i (mk_chan (reads c) [] (written c ++ out)))
  | Io.TxFuel => (-1, w)
  end.

Definition hex_digit (n : Z) : Z := if n <? 10 then 48 + n else 87 + n.
(** printf's %04x of a 16-bit value *)
Definition hex4 (n : Z) : bytes :=
  [hex_digit (n / 4096 mod 16); hex_digit (n / 256 mod 16); hex_digit (n / 16 mod 16); hex_digit (n mod 16)].

Definition sendfailmsg (w : sys) (i : Z) (reason : bytes) : Z * sys :=
  let len := Z.min (Z.of_nat (length reason)) 0xffff in
  let '(r, w) := chan_writex w i (bs "FAIL" ++ hex4 len) in
  if negb (r =? 0) then (-1, w) else chan_writex w i (take (Z.to_nat len) reason).

(** Whether write_packet puts the next packet, after those sent before, whole on the
    transport's socket: the results of the system's writes. *)
Class TransportSockets := { write_packet_ok : list (ptr * sent_msg) -> ptr -> sent_msg -> bool }.

Section transports.
Context `{TransportSockets}.

(** send_packet: see Packet for the sealing; a null transport, and one whose socket does
    not take the packet, are fatal. *)
Definition send_packet (w : sys) (t : ptr) (m : sent_msg) : outcome sys :=
  if (t =? NULL)%nat then Stop "Transport is null"
  else if write_packet_ok (sent w) t m then Done (put_sent w (sent w ++ [(t, m)]))
  else Stop "cannot enqueue packet on transport socket".

(** ** Lists of sockets *)

Fixpoint find_in (w : sys) (l : list ptr) (i : Z) : outcome ptr :=
  match l with
  | [] => Done NULL
  | p :: l' => s ← get w p; if id s =? i then Done p else find_in w l' i
  end.

Definition find_local_socket (w : sys) (i : Z) : outcome (ptr * sys) :=
  w ← mutex_lock w;
  p ← find_in w (local_socket_list w) i;
  Done (p, mutex_unlock w).

Definition install_local_socket (w : sys) (p : ptr) : outcome sys :=
  w ← mutex_lock w;
  w ← modify w p (fun s => set_id s (local_socket_next_id w));
  let w := put_next_id w (u32 (local_socket_next_id w + 1)) in
  Done (mutex_unlock (put_lists w (local_socket_list w ++ [p]) (local_socket_closing_list w))).

Definition unlist (p : ptr) (l : list ptr) : list ptr := filter (fun q => q <> p) l.

(** remove_socket: a socket on no list has null links and is left alone. *)
Definition remove_socket (w : sys) (p : ptr) : outcome sys :=
  if decide (p ∈ local_socket_list w \/ p ∈ local_socket_closing_list w) then
    w ← modify w p (fun s => set_id s 0);
    Done (put_lists w (unlist p (local_socket_list w)) (unlist p (local_socket_closing_list w)))
  else Done w.

Definition add_transport_disconnect (w : sys) (t p : ptr) : sys :=
  put_disconnects w (<[t := default [] (disconnects w !! t) ++ [p]]> (disconnects w)).
Definition remove_transport_disconnect (w : sys) (t p : ptr) : sys :=
  put_disconnects w (<[t := unlist p (default [] (disconnects w !! t))]> (disconnects w)).

(** ** Closing *)

Definition local_socket_destroy (w : sys) (p : ptr) : outcome sys :=
  s ← get w p;
  let w := put_closed w (closed_fds w ++ [fd s]) in
  w ← remove_socket w p;
  Done (free w p).

(** The part of remote_socket_close and remote_socket_disconnect after the peer. *)
Definition drop_remote (w : sys) (p : ptr) : outcome sys :=
  s ← get w p;
  Done (free (remove_transport_disconnect w (transport s) p) p).

(** [s->close(s)], and local_socket_close_locked(s) with the lock held. *)
Fixpoint do_close (fuel : nat) (w : sys) (p : ptr) : outcome sys :=
  match fuel with
  | O => Undef "fuel"
  | S n =>
    s ← get w p;
    match close s with
    | local_close =>
        w ← mutex_lock w;
        w ← close_locked n w p;
        Done (mutex_unlock w)
    | local_close_notify =>
        w ← modify w p (fun s => set_handlers s local_ready local_close);
        let w := (sendfailmsg w (fd s) (bs "closed")).2 in
        do_close n w p
    | remote_close =>
        r ← (if (peer s =? NULL)%nat then Done (0, w)
             else q ← get w (peer s);
                  let w := put w (peer s) (set_peer q NULL) in
                  w ← do_close n w (peer s);
                  Done (id q, w));
        let '(a0, w) := r in
        s ← get w p;
        w ← send_packet w (transport s) (mk_sent Packet.A_CLSE a0 (id s) []);
        drop_remote w p
    | smart_close =>
        w ← (if (peer s =? NULL)%nat then Done w
             else w ← modify w (peer s) (fun q => set_peer q NULL);
                  w ← do_close n w (peer s);
                  modify w p (fun s => set_peer s NULL));
        _ ← get w p;
        Done (free w p)
    end
  end
with close_locked (fuel : nat) (w : sys) (p : ptr) : outcome sys :=
  match fuel with
  | O => Undef "fuel"
  | S n =>
    s ← get w p;
    w ← (if (peer s =? NULL)%nat then Done w
         else
           q ← get w (peer s);
           let w := put w (peer s) (set_peer q NULL) in
           w ← (if decide (close q = local_close) then close_locked n w (peer s)
                else do_close n w (peer s));
           modify w p (fun s => set_peer s NULL));
    s ← get w p;
    if closing s || bool_decide (queue s = []) then local_socket_destroy w p
    else
      w ← modify w p (fun s => set_wants (set_closing s true) (Z.land (wants s) (Z.lnot Fdevent.FDE_READ)));
      w ← remove_socket w p;
      Done (put_lists w (local_socket_list w) (local_socket_closing_list w ++ [p]))
  end.

(** Calls nest at most this deep: a notifying close, the close it becomes, its
    locked part, the peer's close and, for a peer that notifies, two more. *)
Definition close_fuel : nat := 8.
Definition close_socket (w : sys) (p : ptr) : outcome sys := do_close close_fuel w p.
Definition local_socket_close_locked (w : sys) (p : ptr) : outcome sys := close_locked close_fuel w p.

(** First socket of the list that depends on transport [t]; [s->peer] is read. *)
Fixpoint find_user (w : sys) (l : list ptr) (t : ptr) : outcome ptr :=
  match l with
  | [] => Done NULL
  | p :: l' =>
      s ← get w p;
      if (transport s =? t)%nat then Done p
      else if (peer s =? NULL)%nat then find_user w l' t
      else q ← get w (peer s);
           if (transport q =? t)%nat then Done p else find_user w l' t
  end.

(** The restarted loop of close_all_sockets; [n] bounds the restarts. *)
Fixpoint close_users (n : nat) (w : sys) (t : ptr) : outcome sys :=
  p ← find_user w (local_socket_list w) t;
  if (p =? NULL)%nat then Done w
  else match n with
       | O => Undef "fuel"
       | S n => w ← local_socket_close_locked w p; close_users n w t
       end.

Definition close_all_sockets (w : sys) (t : ptr) : outcome sys :=
  w ← mutex_lock w;
  w ← close_users (length (local_socket_list w)) w t;
  Done (mutex_unlock w).

(** ** Readiness *)

Definition want (w : sys) (p : ptr) (ev : Z) : outcome sys :=
  modify w p (fun s => set_wants s (Z.lor (wants s) ev)).
Definition unwant (w : sys) (p : ptr) (ev : Z) : outcome sys :=
  modify w p (fun s => set_wants s (Z.land (wants s) (Z.lnot ev))).

(** One [adb_write] whose result is not looked at. *)
Definition write_once (w : sys) (i : Z) (d : bytes) : sys := (chan_write w i d).2.

(** [s->ready(s)] *)
Definition do_ready (w : sys) (p : ptr) : outcome sys :=
  s ← get w p;
  match ready s with
  | local_ready => want w p Fdevent.FDE_READ
  | local_ready_notify =>
      w ← modify w p (fun s => set_handlers s local_ready local_close);
      want (write_once w (fd s) (bs "OKAY")) p Fdevent.FDE_READ
  | remote_ready =>
      q ← get w (peer s);
      send_packet w (transport s) (mk_sent Packet.A_OKAY (id q) (id s) [])
  | smart_ready => Done w
  end.

(** ** Creating *)

Definition malloc (w : sys) (s : asocket) : ptr * sys :=
  (brk w, put (put_brk w (S (brk w))) (brk w) s).

Definition create_local_socket (w : sys) (i : Z) : outcome (ptr * sys) :=
  let '(p, w) := malloc w (mk_sock 0 false NULL 0 i [] local_enqueue local_ready local_close NULL) in
  w ← install_local_socket w p;
  Done (p, w).

Definition create_remote_socket (w : sys) (i : Z) (t : ptr) : ptr * sys :=
  let '(p, w) := malloc w (mk_sock i false NULL 0 0 [] remote_enqueue remote_ready remote_close t) in
  (p, add_transport_disconnect w t p).

Definition create_smart_socket (w : sys) : ptr * sys :=
  malloc w (mk_sock 0 false NULL 0 0 [] smart_enqueue smart_ready smart_close NULL).

Definition connect_to_smartsocket (w : sys) (p : ptr) : outcome sys :=
  let '(ss, w) := create_smart_socket w in
  w ← modify w p (fun s => set_peer s ss);
  w ← modify w ss (fun s => set_peer s p);
  do_ready w p.

Definition connect_to_remote (w : sys) (p : ptr) (destination : bytes) : outcome sys :=
  s ← get w p;
  let len := Z.of_nat (length destination) + 1 in
  if len >? Packet.MAX_PAYLOAD - 1 then Stop "destination oversized"
  else send_packet w (transport s) (mk_sent Packet.A_OPEN (id s) 0 (destination ++ [0])).

(** ** Moving data *)

Inductive stop := Drained | Again | Broken.

(** [while(p->len > 0)] of local_socket_enqueue ([retry] false) and of
    local_socket_event_func, which retries on EINTR. *)
Fixpoint write_some (retry : bool) (fuel : nat) (w : sys) (i : Z) (d : bytes)
    : stop * bytes * sys :=
  match d with
  | [] => (Drained, [], w)
  | _ =>
    match fuel with
    | O => (Again, d, w)
    | S n =>
      match chan_write w i d with
      | (Io.Took r, w) => write_some retry n w i (drop r d)
      | (Io.TFail EAGAIN, w) => (Again, d, w)
      | (Io.TFail EINTR, w) => if retry then write_some retry n w i d else (Broken, d, w)
      | (_, w) => (Broken, d, w)
      end
    end
  end.

(** Each call of [adb_write] uses up one result, and the last answer is EAGAIN. *)
Definition write_fuel (w : sys) (i : Z) : nat := S (length (writes (chan_of w i))).

Definition local_socket_enqueue (w : sys) (p : ptr) (d : bytes) : outcome (Z * sys) :=
  s ← get w p;
  let backlog (w : sys) (d : bytes) :=
    w ← modify w p (fun s => set_queue s (queue s ++ [d]));
    w ← want w p Fdevent.FDE_WRITE;
    Done (1, w) in
  match queue s with
  | _ :: _ => backlog w d
  | [] =>
      match write_some false (write_fuel w (fd s)) w (fd s) d with
      | (Drained, _, w) => Done (0, w)
      | (Again, d, w) => backlog w d
      | (Broken, _, w) => w ← close_socket w p; Done (1, w)
      end
  end.

Definition remote_socket_enqueue (w : sys) (p : ptr) (d : bytes) : outcome (Z * sys) :=
  s ← get w p;
  q ← get w (peer s);
  w ← send_packet w (transport s) (mk_sent Packet.A_WRTE (id q) (id s) d);
  Done (1, w).

(** unhex of [len] characters *)
Definition unhex_digit (c : Z) : option Z :=
  if (48 <=? c) && (c <=? 57) then Some (c - 48)
  else if (97 <=? c) && (c <=? 102) then Some (c - 97 + 10)
  else if (65 <=? c) && (c <=? 70) then Some (c - 65 + 10)
  else None.
Fixpoint unhex (s : bytes) (len : nat) (n : Z) : Z :=
  match len, s with
  | S len, c :: s =>
      match unhex_digit c with
      | Some v => unhex s len (Z.lor (u32 (Z.shiftl n 4)) v)
      | None => 0xffffffff
      end
  | _, _ => n
  end.

Inductive transport_type := kTransportUsb | kTransportLocal | kTransportAny | kTransportHost.

Definition CS_OFFLINE : Z := 0.

(** Does [s] start with [pre], and what follows. *)
Fixpoint strip_prefix (pre s : bytes) : option bytes :=
  match pre, s with
  | [], _ => Some s
  | a :: pre, b :: s => if a =? b then strip_prefix pre s else None
  | _ :: _, [] => None
  end.

(** [strchr(s, c)]: what comes before and after the first [c]. *)
Fixpoint split_at (c : Z) (s : bytes) : option (bytes * bytes) :=
  match s with
  | [] => None
  | a :: s => if a =? c then Some ([], s) else
                match split_at c s with Some (x, y) => Some (a :: x, y) | None => None end
  end.

(** The host prefixes of smart_socket_enqueue: service, transport and serial. *)
Definition parse_service (s : bytes) : option bytes * transport_type * option bytes :=
  match strip_prefix (bs "host-serial:") s with
  | Some rest =>
      match split_at 58 rest with
      | Some (serial, service) => (Some service, kTransportAny, Some serial)
      | None => (Some rest, kTransportAny, None)
      end
  | None =>
    match strip_prefix (bs "host-usb:") s with
    | Some rest => (Some rest, kTransportUsb, None)
    | None =>
      match strip_prefix (bs "host-local:") s with
      | Some rest => (Some rest, kTransportLocal, None)
      | None =>
        match strip_prefix (bs "host:") s with
        | Some rest => (Some rest, kTransportAny, None)
        | None => (None, kTransportAny, None)
        end
      end
    end
  end.

End transports.
End Sockets.

(** What the sockets rely on in the other parts of adb: handle_host_request
    answers a request of smart socket [p] on the descriptor given, and can give
    the socket a transport; the services return descriptors, negative on failure. *)
Class Services := {
  handle_host_request : Sockets.sys -> bytes -> Sockets.transport_type -> option bytes -> Z -> ptr ->
    Z * Sockets.sys;
  host_service_to_fd : bytes -> option bytes -> Z;
  service_to_fd : bytes -> Z
}.

(** The part of handle_host_request's behaviour that matters to the sockets: it
    writes to descriptors and may set the transport of the smart socket. *)
Class ServicesSpec (H : Services) := handle_host_request_spec :
  forall w service ttype serial i p s, Sockets.socks w !! p = Some s ->
    exists t c, (handle_host_request w service ttype serial i p).2
                = Sockets.put_chans (Sockets.put w p (Sockets.set_transport s t)) c.

Module Streams.
Section streams.
Import Sockets.
Context `{Services} `{TransportSockets}.

Definition smart_fail (w : sys) (p : ptr) : outcome (Z * sys) :=
  w ← close_socket w p; Done (-1, w).

(** smart_socket_enqueue once the whole request [text] is there: the part for
    host services. *)
Definition smart_host (w : sys) (p : ptr) (service : bytes) (ttype : transport_type)
    (serial : option bytes) : outcome (Z * sys) :=
  s ← get w p;
  q ← get w (peer s);
  let '(r, w) := handle_host_request w service ttype serial (fd q) p in
  if r =? 0 then smart_fail w p
  else match strip_prefix (bs "transport") service with
  | Some _ => w ← modify w p (fun s => set_queue s [[]]); Done (0, w)
  | None =>
      let i := host_service_to_fd service serial in
      if i <? 0 then smart_fail (sendfailmsg w (fd q) (bs "unknown host service")).2 p
      else
        r ← create_local_socket w i;
        let '(s2, w) := r in
        let w := write_once w (fd q) (bs "OKAY") in
        s ← get w p;
        w ← modify w (peer s) (fun q => set_peer (set_handlers q local_ready local_close) s2);
        w ← modify w s2 (fun x => set_peer x (peer s));
        w ← modify w p (fun s => set_peer s NULL);
        w ← close_socket w p;
        w ← do_ready w s2;
        Done (0, w)
  end.

(** ... and the part that opens a stream to the device. *)
Definition smart_remote (w : sys) (p : ptr) (text : bytes) : outcome (Z * sys) :=
  s ← get w p;
  q ← get w (peer s);
  off ← (if (transport s =? NULL)%nat then Done true
         else t ← deref "atransport" (transports w !! transport s);
              Done (connection_state t =? CS_OFFLINE));
  if off : bool then smart_fail (sendfailmsg w (fd q) (bs "device offline (x)")).2 p
  else
    w ← modify w (peer s) (fun q =>
          set_transport (set_peer (set_handlers q local_ready_notify local_close_notify) NULL)
                        (transport s));
    w ← connect_to_remote w (peer s) text;
    w ← modify w p (fun s => set_peer s NULL);
    w ← close_socket w p;
    Done (1, w).

Definition smart_socket_enqueue (w : sys) (p : ptr) (d : bytes) : outcome (Z * sys) :=
  s ← get w p;
  r ← match queue s with
      | [] => w ← modify w p (fun s => set_queue s [d]); Done (Some d, w)
      | first :: _ =>
          if Z.of_nat (length first + length d) >? Packet.MAX_PAYLOAD then Done (None, w)
          else w ← modify w p (fun s => set_queue s [first ++ d]); Done (Some (first ++ d), w)
      end;
  match r with
  | (None, w) => smart_fail w p
  | (Some buf, w) =>
      if (length buf <? 4)%nat then Done (0, w)
      else
        let len := unhex buf 4 0 in
        if (len <? 1) || (len >? 1024) then smart_fail w p
        else if u32 (len + 4) >? Z.of_nat (length buf) then Done (0, w)
        else
          text ← deref "string" (cstring (take (Z.to_nat len) (drop 4 buf) ++ [0]));
          match parse_service text with
          | (Some service, ttype, serial) => smart_host w p service ttype serial
          | (None, _, _) => smart_remote w p text
          end
  end.

(** [s->enqueue(s, p)] *)
Definition do_enqueue (w : sys) (p : ptr) (d : bytes) : outcome (Z * sys) :=
  s ← get w p;
  match enqueue s with
  | local_enqueue => local_socket_enqueue w p d
  | remote_enqueue => remote_socket_enqueue w p d
  | smart_enqueue => smart_socket_enqueue w p d
  end.

(** [while((p = s->pkt_first) != 0)] of local_socket_event_func, at most [n] packets. *)
Fixpoint drain (n : nat) (w : sys) (p : ptr) (i : Z) : outcome (stop * sys) :=
  s ← get w p;
  match queue s with
  | [] => Done (Drained, w)
  | d :: rest =>
      match n with
      | O => Undef "fuel"
      | S n =>
          let '(st, d', w) := write_some true (write_fuel w i) w i d in
          match st with
          | Drained => w ← modify w p (fun s => set_queue s rest); drain n w p i
          | _ => w ← modify w p (fun s => set_queue s (d' :: rest)); Done (st, w)
          end
      end
  end.

(** The FDE_WRITE part; the flag says whether the handler goes on. *)
Definition on_writable (w : sys) (p : ptr) (i : Z) : outcome (bool * sys) :=
  s ← get w p;
  r ← drain (length (queue s)) w p i;
  match r with
  | (Again, w) => Done (false, w)
  | (Broken, w) => w ← close_socket w p; Done (false, w)
  | (Drained, w) =>
      s ← get w p;
      if closing s then w ← close_socket w p; Done (false, w)
      else
        w ← unwant w p Fdevent.FDE_WRITE;
        w ← do_ready w (peer s);
        Done (true, w)
  end.

(** [while(avail > 0)]: the data read and whether the end of file was seen. *)
Fixpoint read_some (fuel : nat) (w : sys) (i : Z) (avail : nat) (acc : bytes) : bytes * bool * sys :=
  match avail, fuel with
  | O, _ | _, O => (acc, false, w)
  | _, S n =>
      match chan_read w i avail with
      | (Io.Got d, w) => read_some n w i (avail - length d) (acc ++ d)
      | (Io.RFail EAGAIN, w) => (acc, false, w)
      | (Io.RFail EINTR, w) => read_some n w i avail acc
      | (_, w) => (acc, true, w)
      end
  end.

Definition on_readable (w : sys) (p : ptr) (i : Z) : outcome sys :=
  let '(d, is_eof, w) :=
    read_some (S (length (reads (chan_of w i)))) w i (Z.to_nat Packet.MAX_PAYLOAD) [] in
  s ← get w p;
  r ← (if bool_decide (d = []) || (peer s =? NULL)%nat then Done (0, w)
       else do_enqueue w (peer s) d);
  let '(r, w) := r in
  if r <? 0 then Done w
  else
    w ← (if r >? 0 then unwant w p Fdevent.FDE_READ else Done w);
    if is_eof : bool then close_socket w p else Done w.

Definition local_socket_event_func (w : sys) (i ev : Z) (p : ptr) : outcome sys :=
  r ← (if Fdevent.has ev Fdevent.FDE_WRITE then on_writable w p i else Done (true, w));
  let '(go, w) := r in
  if negb go then Done w
  else if Fdevent.has ev Fdevent.FDE_READ then on_readable w p i else Done w.

(** [HOST]: ADB_HOST.  On the device the sockets of jdwp and track-jdwp have functions of
    their own; Jdwp has their state, and here they are left undefined. *)
Definition jdwp_service (HOST : bool) (name : bytes) : bool :=
  negb HOST && (bool_decide (name = bs "jdwp") || bool_decide (name = bs "track-jdwp")).
Definition create_local_service_socket (HOST : bool) (w : sys) (name : bytes) : outcome (ptr * sys) :=
  let i := service_to_fd name in
  if jdwp_service HOST name then Undef "jdwp"
  else if i <? 0 then Done (NULL, w) else create_local_socket w i.

(** ** Transports going offline *)

Definition remote_socket_disconnect (w : sys) (p : ptr) : outcome sys :=
  s ← get w p;
  w ← (if (peer s =? NULL)%nat then Done w
       else w ← modify w (peer s) (fun q => set_peer q NULL);
            close_socket w (peer s));
  drop_remote w p.

(** [dis->next] on a transport's list; the head is [NULL]. *)
Fixpoint next_of (p : ptr) (l : list ptr) : ptr :=
  match l with
  | [] => NULL
  | q :: l => if (q =? p)%nat then default NULL (head l) else next_of p l
  end.

Definition disc_list (w : sys) (t : ptr) : list ptr := default [] (disconnects w !! t).

(** [n] bounds the length of the list. *)
Fixpoint run_from (n : nat) (w : sys) (t dis : ptr) : outcome sys :=
  if (dis =? NULL)%nat then Done w
  else match n with
       | O => Undef "fuel"
       | S n =>
           let next := next_of dis (disc_list w t) in
           w ← remote_socket_disconnect w dis;
           run_from n w t next
       end.

Definition run_transport_disconnects (w : sys) (t : ptr) : outcome sys :=
  run_from (length (disc_list w t)) w t (default NULL (head (disc_list w t))).

Definition put_state (w : sys) (t : ptr) (c : Z) : outcome sys :=
  i ← deref "atransport" (transports w !! t);
  Done (put_transports w (<[t := mk_tinfo c (product i)]> (transports w))).

(** handle_offline, after the state was set to CS_OFFLINE. *)
Definition go_offline (w : sys) (t : ptr) : outcome sys :=
  w ← put_state w t CS_OFFLINE;
  run_transport_disconnects w t.

Definition CS_BOOTLOADER : Z := 1.
Definition CS_DEVICE : Z := 2.
Definition CS_HOST : Z := 3.
Definition CS_RECOVERY : Z := 4.
Definition CS_NOPERM : Z := 5.

(** parse_banner on the string [banner]: the new state and product name. *)
Definition parse_banner (banner : bytes) (prod : option bytes) : tinfo :=
  let '(type, rest) := match split_at 58 banner with
                       | Some (a, b) => (a, b)
                       | None => (banner, [])
                       end in
  let name := match split_at 58 rest with Some (a, _) => a | None => rest end in
  let prod := match prod with
              | None => Some name
              | Some old => if bool_decide (name = old) then Some old else Some name
              end in
  mk_tinfo (if bool_decide (type = bs "bootloader") then CS_BOOTLOADER
            else if bool_decide (type = bs "device") then CS_DEVICE
            else if bool_decide (type = bs "recovery") then CS_RECOVERY
            else CS_HOST) prod.

Definition send_ready (w : sys) (local remote : Z) (t : ptr) : outcome sys :=
  send_packet w t (mk_sent Packet.A_OKAY local remote []).
Definition send_close (w : sys) (local remote : Z) (t : ptr) : outcome sys :=
  send_packet w t (mk_sent Packet.A_CLSE local remote []).

(** [HOST] and [adb_device_banner], with which the CNXN payload is printed. *)
Definition send_connect (HOST : bool) (banner : bytes) (w : sys) (t : ptr) : outcome sys :=
  send_packet w t (mk_sent Packet.A_CNXN Packet.A_VERSION Packet.MAX_PAYLOAD
    ((if HOST then bs "host" else banner) ++ bs "::" ++ [0])).

(** adb.c: the listeners, [i] being what accept returned. *)
Definition ss_listener_event_func (w : sys) (ev i : Z) : outcome sys :=
  if Fdevent.has ev Fdevent.FDE_READ then
    if i <? 0 then Done w
    else r ← create_local_socket w i; let '(s, w) := r in connect_to_smartsocket w s
  else Done w.

Definition listener_event_func (w : sys) (ev i : Z) (l_transport : ptr) (connect_to : bytes) : outcome sys :=
  if Fdevent.has ev Fdevent.FDE_READ then
    if i <? 0 then Done w
    else r ← create_local_socket w i;
         let '(s, w) := r in
         w ← modify w s (fun x => set_transport x l_transport);
         connect_to_remote w s connect_to
  else Done w.

(** The cases of handle_packet for an online transport. *)
Definition open_name (p : Packet.apacket) : outcome bytes :=
  let m := Packet.msg p in
  let at_ := if Packet.data_length m >? 0 then Packet.data_length m - 1 else 0 in
  dat ← deref "data" (store (Packet.data p) (Z.to_nat at_) 0);
  deref "data" (cstring dat).
Definition on_open (HOST : bool) (w : sys) (t : ptr) (p : Packet.apacket) : outcome sys :=
  let m := Packet.msg p in
  name ← open_name p;
  r ← create_local_service_socket HOST w name;
  let '(s, w) := r in
  if (s =? NULL)%nat then send_close w 0 (Packet.arg0 m) t
  else
    let '(q, w) := create_remote_socket w (Packet.arg0 m) t in
    w ← modify w s (fun x => set_peer x q);
    w ← modify w q (fun x => set_peer x s);
    x ← get w s;
    y ← get w q;
    w ← send_ready w (id x) (id y) t;
    do_ready w s.

Definition on_okay (w : sys) (t : ptr) (m : Packet.amessage) : outcome sys :=
  r ← find_local_socket w (Packet.arg1 m);
  let '(s, w) := r in
  if (s =? NULL)%nat then Done w
  else
    x ← get w s;
    w ← (if (peer x =? NULL)%nat then
           let '(q, w) := create_remote_socket w (Packet.arg0 m) t in
           w ← modify w s (fun x => set_peer x q);
           modify w q (fun x => set_peer x s)
         else Done w);
    do_ready w s.

Definition on_clse (w : sys) (m : Packet.amessage) : outcome sys :=
  r ← find_local_socket w (Packet.arg1 m);
  let '(s, w) := r in
  if (s =? NULL)%nat then Done w else close_socket w s.

Definition on_wrte (w : sys) (t : ptr) (p : Packet.apacket) : outcome sys :=
  let m := Packet.msg p in
  r ← find_local_socket w (Packet.arg1 m);
  let '(s, w) := r in
  if (s =? NULL)%nat then Done w
  else
    r ← do_enqueue w s (take (Z.to_nat (Packet.data_length m)) (Packet.data p));
    let '(r, w) := r in
    if r =? 0 then x ← get w s; send_ready w (id x) (Packet.arg0 m) t else Done w.

Definition handle_packet (HOST : bool) (banner : bytes) (w : sys) (t : ptr) (p : Packet.apacket)
    : outcome sys :=
  let m := Packet.msg p in
  let cmd := Packet.command m in
  let forward (w : sys) :=
    send_packet w t (mk_sent cmd (Packet.arg0 m) (Packet.arg1 m)
                       (take (Z.to_nat (Packet.data_length m)) (Packet.data p))) in
  i ← deref "atransport" (transports w !! t);
  let online := negb (connection_state i =? CS_OFFLINE) in
  if cmd =? Packet.A_SYNC then
    if negb (Packet.arg0 m =? 0) then
      w ← forward w;
      if HOST then send_connect HOST banner w t else Done w
    else
      w ← go_offline w t;
      forward w
  else if cmd =? Packet.A_CNXN then
    w ← (if online then go_offline w t else Done w);
    text ← deref "data" (cstring (Packet.data p));
    i ← deref "atransport" (transports w !! t);
    let w := put_transports w (<[t := parse_banner text (product i)]> (transports w)) in
    if HOST then Done w else send_connect HOST banner w t
  else if negb online then Done w
  else if cmd =? Packet.A_OPEN then on_open HOST w t p
  else if cmd =? Packet.A_OKAY then on_okay w t m
  else if cmd =? Packet.A_CLSE then on_clse w m
  else if cmd =? Packet.A_WRTE then on_wrte w t p
  else Done w.

End streams.
End Streams.

(** Transports that take every packet.  Section [stops] carries what is shown of them over to any
    transports; the theorems outside it that name no other are about these. *)
#[local] Instance all_enqueued : Sockets.TransportSockets | 100 := {| Sockets.write_packet_ok _ _ _ := true |}.

(** ** The invariant *)

Section invariant.
Import Sockets Streams.

(** What the invariant reads of a socket. *)
Record shape := mk_shape {
  sh_closing : bool; sh_peer : ptr; sh_enqueue : enqueue_fn; sh_ready : ready_fn;
  sh_close : close_fn; sh_transport : ptr
}.
Definition shape_of (s : asocket) : shape :=
  mk_shape (closing s) (peer s) (enqueue s) (ready s) (close s) (transport s).

(** The handlers of a socket of each kind. *)
Definition handlers_ok (s : shape) : Prop :=
  match sh_enqueue s with
  | local_enqueue => (sh_ready s = local_ready /\ sh_close s = local_close) \/
                     (sh_ready s = local_ready_notify /\ sh_close s = local_close_notify)
  | remote_enqueue => sh_ready s = remote_ready /\ sh_close s = remote_close /\ sh_transport s <> NULL
  | smart_enqueue => sh_ready s = smart_ready /\ sh_close s = smart_close
  end.

(** The invariant on the shapes [m] of the live sockets, the two lists [l] and
    [c], the disconnect lists [d] and the allocation bound [b]. *)
Record shapes_inv (m : gmap ptr shape) (l c : list ptr) (d : gmap ptr (list ptr)) (b : ptr) : Prop := {
  si_alloc : forall p, is_Some (m !! p) -> (NULL < p < b)%nat;
  si_brk : (NULL < b)%nat;
  si_handlers : forall p s, m !! p = Some s -> handlers_ok s;
  si_peer : forall p s, m !! p = Some s -> sh_peer s <> NULL ->
    exists q, m !! sh_peer s = Some q /\ sh_peer q = p /\ sh_peer s <> p /\
      (sh_enqueue s = local_enqueue \/ sh_enqueue q = local_enqueue) /\
      (sh_close s = local_close_notify -> sh_enqueue q = remote_enqueue) /\
      sh_closing s = false;
  si_list : forall p, p ∈ l <->
    exists s, m !! p = Some s /\ sh_enqueue s = local_enqueue /\ sh_closing s = false;
  si_closing : forall p, p ∈ c <->
    exists s, m !! p = Some s /\ sh_enqueue s = local_enqueue /\ sh_closing s = true;
  si_nodup : NoDup l /\ NoDup c;
  si_disc : forall t p, p ∈ default [] (d !! t) <->
    exists s, m !! p = Some s /\ sh_enqueue s = remote_enqueue /\ sh_transport s = t;
  si_disc_nodup : forall t, NoDup (default [] (d !! t))
}.

Definition winv (w : sys) : Prop :=
  shapes_inv (shape_of <$> socks w) (local_socket_list w) (local_socket_closing_list w)
    (disconnects w) (brk w).

Lemma elem_unlist p q l : q ∈ unlist p l <-> q <> p /\ q ∈ l.
Proof. unfold unlist. by rewrite list_elem_of_filter. Qed.

(** *** Changes of the shapes that keep the invariant *)

Definition with_peer (s : shape) (q : ptr) : shape :=
  mk_shape (sh_closing s) q (sh_enqueue s) (sh_ready s) (sh_close s) (sh_transport s).

(** Replacing the shape of one socket, membership of the lists unchanged. *)
Lemma inv_update m l c d b p s s' :
  shapes_inv m l c d b -> m !! p = Some s -> handlers_ok s' ->
  sh_closing s' = sh_closing s -> sh_peer s' = sh_peer s -> sh_enqueue s' = sh_enqueue s ->
  (sh_enqueue s = remote_enqueue -> sh_transport s' = sh_transport s) ->
  (sh_close s' = local_close_notify -> sh_close s = local_close_notify \/ sh_peer s = NULL) ->
  shapes_inv (<[p := s']> m) l c d b.
Proof.
  intros HI Hp Hh E1 E2 E3 E4 E5.
  assert (forall q x, m !! q = Some x -> exists y, <[p := s']> m !! q = Some y /\
    sh_closing y = sh_closing x /\ sh_peer y = sh_peer x /\ sh_enqueue y = sh_enqueue x /\
    (sh_enqueue x = remote_enqueue -> sh_transport y = sh_transport x)) as Hfw.
  { intros q x Hq. destruct (decide (p = q)) as [->|].
    - rewrite Hp in Hq. injection Hq as <-. exists s'. by rewrite lookup_insert_eq.
    - exists x. by rewrite lookup_insert_ne. }
  assert (forall q y, <[p := s']> m !! q = Some y -> exists x, m !! q = Some x /\
    sh_closing y = sh_closing x /\ sh_peer y = sh_peer x /\ sh_enqueue y = sh_enqueue x /\
    (sh_enqueue x = remote_enqueue -> sh_transport y = sh_transport x) /\
    (sh_close y = local_close_notify -> sh_close x = local_close_notify \/ sh_peer x = NULL)) as Hbw.
  { intros q y Hq. destruct (decide (p = q)) as [->|].
    - rewrite lookup_insert_eq in Hq. injection Hq as <-. exists s. by split_and!.
    - rewrite lookup_insert_ne in Hq by done. exists y. by split_and!; auto. }
  destruct HI as [I1 I2 I3 I4 I5 I6 I7 I8 I9]. split; try done.
  - intros q [y Hq]. destruct (Hbw _ _ Hq) as (x & Hx & _). apply I1. by exists x.
  - intros q y Hq. destruct (decide (p = q)) as [->|].
    + rewrite lookup_insert_eq in Hq. by injection Hq as <-.
    + rewrite lookup_insert_ne in Hq by done. by apply (I3 q).
  - intros q y Hq Hpe. destruct (Hbw _ _ Hq) as (x & Hx & F1 & F2 & F3 & F4 & F5).
    rewrite F2 in *. destruct (I4 _ _ Hx Hpe) as (z & Hz & G1 & G2 & G3 & G4 & G5).
    destruct (Hfw _ _ Hz) as (z' & Hz' & K1 & K2 & K3 & K4). exists z'.
    rewrite F1, F3, K3, K2. split_and!; auto. intros Hn. destruct (F5 Hn); [auto|done].
  - intros q. rewrite I5. split; intros (x & Hx & K1 & K2).
    + destruct (Hfw _ _ Hx) as (y & Hy & ? & ? & ? & _). exists y. split_and!; congruence.
    + destruct (Hbw _ _ Hx) as (y & Hy & ? & ? & ? & _). exists y. split_and!; congruence.
  - intros q. rewrite I6. split; intros (x & Hx & K1 & K2).
    + destruct (Hfw _ _ Hx) as (y & Hy & ? & ? & ? & _). exists y. split_and!; congruence.
    + destruct (Hbw _ _ Hx) as (y & Hy & ? & ? & ? & _). exists y. split_and!; congruence.
  - intros t q. rewrite I8. split; intros (x & Hx & K1 & K2).
    + destruct (Hfw _ _ Hx) as (y & Hy & ? & ? & ? & K). exists y. rewrite K by done. split_and!; congruence.
    + destruct (Hbw _ _ Hx) as (y & Hy & ? & ? & E & K & _). exists y.
      rewrite E in K1. rewrite K in K2 by done. split_and!; congruence.
Qed.

Definition peers_ok (m : gmap ptr shape) : Prop :=
  forall p s, m !! p = Some s -> sh_peer s <> NULL ->
    exists q, m !! sh_peer s = Some q /\ sh_peer q = p /\ sh_peer s <> p /\
      (sh_enqueue s = local_enqueue \/ sh_enqueue q = local_enqueue) /\
      (sh_close s = local_close_notify -> sh_enqueue q = remote_enqueue) /\
      sh_closing s = false.

(** Changing peers only. *)
Lemma inv_repeer m m' l c d b :
  shapes_inv m l c d b ->
  (forall q, (fun s => with_peer s NULL) <$> m' !! q = (fun s => with_peer s NULL) <$> m !! q) ->
  peers_ok m' -> shapes_inv m' l c d b.
Proof.
  intros HI Heq Hpe.
  assert (forall (R : shape -> Prop) q,
    (forall x y, R x -> sh_closing y = sh_closing x -> sh_enqueue y = sh_enqueue x ->
       sh_transport y = sh_transport x -> sh_ready y = sh_ready x -> sh_close y = sh_close x -> R y) ->
    (exists x, m' !! q = Some x /\ R x) <-> (exists x, m !! q = Some x /\ R x)) as Htr.
  { intros R q HR. specialize (Heq q). destruct (m' !! q) as [y|], (m !! q) as [x|]; try done.
    - injection Heq as H1 H2 H3 H4 H5. split; intros (z & [= <-] & Hz).
      + exists x. split; [done|]. by apply (HR y).
      + exists y. split; [done|]. by apply (HR x).
    }
  destruct HI as [I1 I2 I3 I4 I5 I6 I7 I8 I9]. split; try done.
  - intros q [y Hq]. apply I1. destruct (proj1 (Htr (fun _ => True) q (fun _ _ _ _ _ _ _ _ => I))) as (x & Hx & _); eauto.
  - intros q y Hq. specialize (Heq q). rewrite Hq in Heq. destruct (m !! q) as [x|] eqn:Hx; [|done].
    injection Heq as H1 H2 H3 H4 H5. specialize (I3 q x Hx). unfold handlers_ok in *.
    rewrite H2, H3, H4, H5. done.
  - intros q. rewrite I5. symmetry. apply Htr. intuition congruence.
  - intros q. rewrite I6. symmetry. apply Htr. intuition congruence.
  - intros t q. rewrite I8. symmetry. apply Htr. intuition congruence.
Qed.

Lemma inv_unpair m l c d b p q s t :
  shapes_inv m l c d b -> m !! p = Some s -> sh_peer s = q -> q <> NULL -> m !! q = Some t ->
  shapes_inv (<[p := with_peer s NULL]> (<[q := with_peer t NULL]> m)) l c d b.
Proof.
  intros HI Hp Hs Hq Ht. destruct (si_peer _ _ _ _ _ HI p s Hp) as (x & Hx & Hxp & Hpq & _); [congruence|].
  rewrite Hs, Ht in Hx. injection Hx as <-.
  apply (inv_repeer m); [done| |].
  - intros r. destruct (decide (r = p)) as [->|]; [by rewrite lookup_insert_eq, Hp|].
    rewrite lookup_insert_ne by done. destruct (decide (r = q)) as [->|]; [by rewrite lookup_insert_eq, Ht|].
    by rewrite lookup_insert_ne.
  - intros r y Hr Hy. destruct (decide (p = r)) as [->|];
      [rewrite lookup_insert_eq in Hr; by injection Hr as <-|rewrite lookup_insert_ne in Hr by done].
    destruct (decide (q = r)) as [->|];
      [rewrite lookup_insert_eq in Hr; by injection Hr as <-|rewrite lookup_insert_ne in Hr by done].
    destruct (si_peer _ _ _ _ _ HI r y Hr Hy) as (z & Hz & Hzr & Hne & Hrest). exists z.
    rewrite lookup_insert_ne by congruence. rewrite lookup_insert_ne by congruence. done.
Qed.

Lemma inv_pair m l c d b p q s t :
  shapes_inv m l c d b -> m !! p = Some s -> m !! q = Some t -> p <> q ->
  sh_peer s = NULL -> sh_peer t = NULL -> sh_closing s = false -> sh_closing t = false ->
  sh_enqueue s = local_enqueue ->
  (sh_close s = local_close_notify -> sh_enqueue t = remote_enqueue) ->
  sh_close t <> local_close_notify ->
  shapes_inv (<[q := with_peer t p]> (<[p := with_peer s q]> m)) l c d b.
Proof.
  intros HI Hp Hq Hne E1 E2 E3 E4 E5 E6 E7.
  apply (inv_repeer m); [done| |].
  - intros r. destruct (decide (r = q)) as [->|]; [by rewrite lookup_insert_eq, Hq|].
    rewrite lookup_insert_ne by done. destruct (decide (r = p)) as [->|]; [by rewrite lookup_insert_eq, Hp|].
    by rewrite lookup_insert_ne.
  - intros r y Hr Hy. destruct (decide (q = r)) as [->|];
      [rewrite lookup_insert_eq in Hr; injection Hr as <-|rewrite lookup_insert_ne in Hr by done].
    { cbn [sh_peer with_peer]. exists (with_peer s r).
      rewrite lookup_insert_ne by done. rewrite lookup_insert_eq. by split_and!; auto. }
    destruct (decide (p = r)) as [->|];
      [rewrite lookup_insert_eq in Hr; injection Hr as <-|rewrite lookup_insert_ne in Hr by done].
    { cbn [sh_peer with_peer]. exists (with_peer t r). rewrite lookup_insert_eq. by split_and!; auto. }
    destruct (si_peer _ _ _ _ _ HI r y Hr Hy) as (z & Hz & Hzr & Hne' & Hrest). exists z.
    assert (r <> NULL) by (pose proof (si_alloc _ _ _ _ _ HI r (mk_is_Some _ _ Hr)); lia).
    rewrite lookup_insert_ne by congruence. rewrite lookup_insert_ne by congruence. done.
Qed.

(** Freeing a socket that has no peer. *)
Lemma inv_drop m l c d b p s d' :
  shapes_inv m l c d b -> m !! p = Some s -> sh_peer s = NULL ->
  (forall t, default [] (d' !! t) = unlist p (default [] (d !! t))) ->
  shapes_inv (delete p m) (unlist p l) (unlist p c) d' b.
Proof.
  intros HI Hp Hs Hd. destruct HI as [I1 I2 I3 I4 I5 I6 [I7 I7'] I8 I9].
  assert (forall (R : shape -> Prop) q,
    (exists x, delete p m !! q = Some x /\ R x) <-> q <> p /\ (exists x, m !! q = Some x /\ R x)) as Hdel.
  { intros R q. destruct (decide (q = p)) as [->|].
    - rewrite lookup_delete_eq. split; [by intros (? & ? & ?)|by intros [??]].
    - rewrite lookup_delete_ne by done. naive_solver. }
  split; try done.
  - intros q [x Hx]. apply I1. apply lookup_delete_Some in Hx as [_ Hx]. by exists x.
  - intros q x Hx. apply lookup_delete_Some in Hx as [_ Hx]. by apply (I3 q).
  - intros q x Hx Hpe. apply lookup_delete_Some in Hx as [Hne Hx].
    destruct (I4 q x Hx Hpe) as (y & Hy & Hyq & Hrest). exists y. rewrite lookup_delete_ne; [done|].
    intros E. rewrite <- E, Hp in Hy. injection Hy as <-.
    pose proof (I1 q (mk_is_Some _ _ Hx)). rewrite Hyq in Hs. lia.
  - intros q. by rewrite elem_unlist, I5, Hdel.
  - intros q. by rewrite elem_unlist, I6, Hdel.
  - split; by apply NoDup_filter.
  - intros t q. by rewrite Hd, elem_unlist, I8, Hdel.
  - intros t. rewrite Hd. by apply NoDup_filter.
Qed.

(** Moving a local socket without a peer to the closing list. *)
Lemma inv_to_closing m l c d b p s s' :
  shapes_inv m l c d b -> m !! p = Some s -> sh_peer s = NULL -> sh_enqueue s = local_enqueue ->
  s' = mk_shape true NULL local_enqueue (sh_ready s) (sh_close s) (sh_transport s) ->
  shapes_inv (<[p := s']> m) (unlist p l) (unlist p c ++ [p]) d b.
Proof.
  intros HI Hp Hs He ->. destruct HI as [I1 I2 I3 I4 I5 I6 [I7 I7'] I8 I9]. split; try done.
  - intros q [x Hx]. apply I1. destruct (decide (p = q)) as [->|]; [by exists s|].
    rewrite lookup_insert_ne in Hx by done. by exists x.
  - intros q x Hx. destruct (decide (p = q)) as [->|].
    + rewrite lookup_insert_eq in Hx. injection Hx as <-. specialize (I3 _ _ Hp).
      unfold handlers_ok in *. rewrite He in I3. done.
    + rewrite lookup_insert_ne in Hx by done. by apply (I3 q).
  - intros q x Hx Hpe. destruct (decide (p = q)) as [->|].
    + rewrite lookup_insert_eq in Hx. by injection Hx as <-.
    + rewrite lookup_insert_ne in Hx by done. destruct (I4 q x Hx Hpe) as (y & Hy & Hyq & Hrest).
      exists y. rewrite lookup_insert_ne; [done|]. intros E. rewrite <- E, Hp in Hy. injection Hy as <-.
      pose proof (I1 q (mk_is_Some _ _ Hx)). rewrite Hyq in Hs. lia.
  - intros q. rewrite elem_unlist, I5. destruct (decide (p = q)) as [->|].
    + rewrite lookup_insert_eq. split; [by intros [??]|]. by intros (x & [= <-] & _ & ?).
    + rewrite lookup_insert_ne by done. naive_solver.
  - intros q. rewrite elem_of_app, elem_unlist, I6, list_elem_of_singleton. destruct (decide (p = q)) as [->|].
    + rewrite lookup_insert_eq. split; [|by right]. intros _. eexists. by split_and!.
    + rewrite lookup_insert_ne by done. naive_solver.
  - split; [by apply NoDup_filter|]. apply NoDup_app. split_and!; [by apply NoDup_filter| |apply NoDup_singleton].
    intros q [Hq _]%elem_unlist ->%list_elem_of_singleton. done.
  - intros t q. rewrite I8. destruct (decide (p = q)) as [->|].
    + rewrite lookup_insert_eq. split; intros (x & Hx & ? & ?); [congruence|]. by injection Hx as <-.
    + by rewrite lookup_insert_ne.
Qed.

(** A new socket at the allocation bound. *)
Lemma inv_alloc m l c d b s l' d' :
  shapes_inv m l c d b -> handlers_ok s -> sh_peer s = NULL -> sh_closing s = false ->
  l' = (if decide (sh_enqueue s = local_enqueue) then l ++ [b] else l) ->
  (forall t, default [] (d' !! t) = default [] (d !! t) ++
     (if decide (sh_enqueue s = remote_enqueue /\ t = sh_transport s) then [b] else [])) ->
  shapes_inv (<[b := s]> m) l' c d' (S b).
Proof.
  intros HI Hh Hpe Hcl Hl Hd. destruct HI as [I1 I2 I3 I4 I5 I6 [I7 I7'] I8 I9].
  assert (m !! b = None) as Hb.
  { destruct (m !! b) eqn:E; [|done]. destruct (I1 b (mk_is_Some _ _ E)). lia. }
  assert (forall q x, m !! q = Some x -> q <> b) as Hne by (intros q x Hx ->; congruence).
  assert (forall t, b ∉ default [] (d !! t)) as Hbd
    by (intros t (x & Hx & _)%I8; congruence).
  assert (b ∉ l) as Hbl by (intros (x & Hx & _)%I5; congruence).
  split.
  - intros q [x Hx]. destruct (decide (b = q)) as [->|]; [lia|].
    rewrite lookup_insert_ne in Hx by done. pose proof (I1 q (mk_is_Some _ _ Hx)). lia.
  - lia.
  - intros q x Hx. destruct (decide (b = q)) as [->|]; [rewrite lookup_insert_eq in Hx; by injection Hx as <-|].
    rewrite lookup_insert_ne in Hx by done. by apply (I3 q).
  - intros q x Hx Hp. destruct (decide (b = q)) as [->|]; [rewrite lookup_insert_eq in Hx; by injection Hx as <-|].
    rewrite lookup_insert_ne in Hx by done. destruct (I4 q x Hx Hp) as (y & Hy & Hrest). exists y.
    by rewrite lookup_insert_ne by (apply Hne in Hy; done).
  - intros q. rewrite Hl. destruct (decide (q = b)) as [->|Hq].
    + rewrite lookup_insert_eq. destruct (decide (sh_enqueue s = local_enqueue)).
      * split; [eauto|]. intros _. apply elem_of_app. right. by left.
      * split; [done|]. by intros (x & [= <-] & ? & _).
    + rewrite lookup_insert_ne by done. destruct (decide _); [|apply I5].
      rewrite elem_of_app, list_elem_of_singleton, I5. naive_solver.
  - intros q. rewrite I6. destruct (decide (q = b)) as [->|Hq].
    + rewrite lookup_insert_eq. split; intros (x & Hx & _ & ?); [congruence|].
      injection Hx as <-. congruence.
    + by rewrite lookup_insert_ne by done.
  - split; [|done]. rewrite Hl. destruct (decide _); [|done].
    apply NoDup_app. split_and!; [done| |apply NoDup_singleton]. intros q Hq ->%list_elem_of_singleton. done.
  - intros t q. rewrite Hd, elem_of_app. destruct (decide (q = b)) as [->|Hq].
    + rewrite lookup_insert_eq. destruct (decide (_ /\ _)) as [[H1 ->]|Hn].
      * split; [eauto|]. intros _. right. by left.
      * split; [intros [?%Hbd|?%not_elem_of_nil]; done|]. intros (x & [= <-] & ? & ?). naive_solver.
    + rewrite lookup_insert_ne by done. rewrite I8. destruct (decide (_ /\ _)).
      * rewrite list_elem_of_singleton. naive_solver.
      * rewrite elem_of_nil. naive_solver.
  - intros t. rewrite Hd. destruct (decide (_ /\ _)); [|by rewrite app_nil_r].
    apply NoDup_app. split_and!; [done| |apply NoDup_singleton].
    intros q Hq ->%list_elem_of_singleton. by apply Hbd in Hq.
Qed.

(** *** Closing, as functions of the state *)

Lemma get_Some w p s : socks w !! p = Some s -> get w p = Done s.
Proof. unfold get. by intros ->. Qed.

Lemma modify_Some w p s f : socks w !! p = Some s -> modify w p f = Done (put w p (f s)).
Proof. unfold modify. by intros ->%get_Some. Qed.

(** The effect of closing a local socket without a peer. *)
Definition kill_local (w : sys) (p : ptr) (s : asocket) : sys :=
  if closing s || bool_decide (queue s = []) then
    put_lists (put_socks (put_closed w (closed_fds w ++ [fd s])) (delete p (socks w)))
      (unlist p (local_socket_list w)) (unlist p (local_socket_closing_list w))
  else
    put_lists (put w p (set_id (set_wants (set_closing s true)
                                 (Z.land (wants s) (Z.lnot Fdevent.FDE_READ))) 0))
      (unlist p (local_socket_list w)) (unlist p (local_socket_closing_list w) ++ [p]).

Definition kill_remote (w : sys) (p : ptr) (s : asocket) : sys :=
  free (remove_transport_disconnect
          (put_sent w (sent w ++ [(transport s, mk_sent Packet.A_CLSE 0 (id s) [])])) (transport s) p) p.

Lemma close_locked_alone n w p s :
  socks w !! p = Some s -> peer s = NULL ->
  p ∈ local_socket_list w \/ p ∈ local_socket_closing_list w ->
  close_locked (S n) w p = Done (kill_local w p s).
Proof.
  intros Hp Hpe Hin. cbn [close_locked]. rewrite (get_Some _ _ _ Hp). cbn [mbind outcome_bind].
  rewrite Hpe, Nat.eqb_refl. cbn [mbind outcome_bind]. rewrite (get_Some _ _ _ Hp). cbn [mbind outcome_bind].
  unfold kill_local. destruct (closing s || bool_decide (queue s = [])).
  - unfold local_socket_destroy. rewrite (get_Some _ _ _ Hp). cbn [mbind outcome_bind].
    unfold remove_socket. cbn [local_socket_list local_socket_closing_list put_closed].
    rewrite decide_True by done. erewrite modify_Some by done. cbn [mbind outcome_bind].
    unfold free, put, put_socks, put_lists, put_closed. cbn. by rewrite delete_insert_eq.
  - erewrite modify_Some by done. cbn [mbind outcome_bind].
    unfold remove_socket. cbn [local_socket_list local_socket_closing_list put put_socks].
    rewrite decide_True by done. erewrite modify_Some by (cbn; by rewrite lookup_insert_eq).
    cbn [mbind outcome_bind]. unfold put, put_socks, put_lists. cbn. by rewrite insert_insert_eq.
Qed.

Lemma do_close_remote_alone n w p s :
  socks w !! p = Some s -> peer s = NULL -> close s = remote_close -> transport s <> NULL ->
  do_close (S n) w p = Done (kill_remote w p s).
Proof.
  intros Hp Hpe Hc Ht. cbn [do_close]. rewrite (get_Some _ _ _ Hp). cbn [mbind outcome_bind].
  rewrite Hc, Hpe, Nat.eqb_refl. cbn [mbind outcome_bind]. rewrite (get_Some _ _ _ Hp). cbn [mbind outcome_bind].
  unfold send_packet. rewrite (proj2 (Nat.eqb_neq _ _) Ht). cbn [mbind outcome_bind write_packet_ok all_enqueued].
  unfold drop_remote. rewrite (get_Some _ p s) by done. done.
Qed.

Lemma do_close_smart_alone n w p s :
  socks w !! p = Some s -> peer s = NULL -> close s = smart_close ->
  do_close (S n) w p = Done (free w p).
Proof.
  intros Hp Hpe Hc. cbn [do_close]. rewrite (get_Some _ _ _ Hp). cbn [mbind outcome_bind].
  rewrite Hc, Hpe, Nat.eqb_refl. cbn [mbind outcome_bind]. by rewrite (get_Some _ _ _ Hp).
Qed.

(** Closing the peer: what happens to a socket whose peer link was just cut. *)
Definition kill (w : sys) (q : ptr) (t : asocket) : sys :=
  match enqueue t with
  | local_enqueue => kill_local w q t
  | remote_enqueue => kill_remote w q t
  | smart_enqueue => free w q
  end.

Lemma put_put_ne w p q s t : p <> q -> put (put w p s) q t = put (put w q t) p s.
Proof. intros Hne. unfold put, put_socks. cbn. by rewrite insert_insert_ne. Qed.

Lemma kill_put w p q s t : p <> q -> kill (put w p s) q t = put (kill w q t) p s.
Proof.
  intros Hne. unfold kill. destruct (enqueue t).
  - unfold kill_local. destruct (_ || _).
    + unfold put, put_socks, put_lists, put_closed. cbn. by rewrite delete_insert_ne.
    + unfold put, put_socks, put_lists, put_closed. cbn. by rewrite insert_insert_ne.
  - unfold kill_remote, free, put, put_socks, remove_transport_disconnect, put_disconnects, put_sent. cbn.
    by rewrite delete_insert_ne.
  - unfold free, put, put_socks. cbn. by rewrite delete_insert_ne.
Qed.

Lemma kill_lookup_ne w p q t : p <> q -> socks (kill w q t) !! p = socks w !! p.
Proof.
  intros Hne. unfold kill. destruct (enqueue t).
  - unfold kill_local. destruct (_ || _); cbn; by rewrite ?lookup_delete_ne, ?lookup_insert_ne.
  - cbn. by rewrite lookup_delete_ne.
  - cbn. by rewrite lookup_delete_ne.
Qed.

Lemma shapes_lookup w p s :
  socks w !! p = Some s -> (shape_of <$> socks w) !! p = Some (shape_of s).
Proof. intros H. by rewrite lookup_fmap, H. Qed.

Lemma shapes_lookup_inv w p x :
  (shape_of <$> socks w) !! p = Some x -> exists s, socks w !! p = Some s /\ x = shape_of s.
Proof. rewrite lookup_fmap. destruct (socks w !! p); [|done]. intros [= <-]. eauto. Qed.

Lemma unlist_notin p l : p ∉ l -> unlist p l = l.
Proof. intros H. apply filter_all. intros q Hq ->. done. Qed.

Lemma winv_local_list w p s :
  winv w -> socks w !! p = Some s -> enqueue s = local_enqueue ->
  p ∈ local_socket_list w \/ p ∈ local_socket_closing_list w.
Proof.
  intros HI Hp He. destruct (closing s) eqn:Hc.
  - right. apply (si_closing _ _ _ _ _ HI). exists (shape_of s). by rewrite (shapes_lookup _ _ _ Hp).
  - left. apply (si_list _ _ _ _ _ HI). exists (shape_of s). by rewrite (shapes_lookup _ _ _ Hp).
Qed.

Lemma winv_not_listed w p s :
  winv w -> socks w !! p = Some s -> enqueue s <> local_enqueue ->
  (p ∉ local_socket_list w) /\ (p ∉ local_socket_closing_list w).
Proof.
  intros HI Hp He. split.
  - intros (x & Hx & Hl & _)%(si_list _ _ _ _ _ HI). rewrite (shapes_lookup _ _ _ Hp) in Hx. by injection Hx as <-.
  - intros (x & Hx & Hl & _)%(si_closing _ _ _ _ _ HI). rewrite (shapes_lookup _ _ _ Hp) in Hx. by injection Hx as <-.
Qed.

Lemma winv_not_disc w p s t :
  winv w -> socks w !! p = Some s -> enqueue s <> remote_enqueue \/ t <> transport s ->
  p ∉ default [] (disconnects w !! t).
Proof.
  intros HI Hp He (x & Hx & Hl & Ht)%(si_disc _ _ _ _ _ HI).
  rewrite (shapes_lookup _ _ _ Hp) in Hx. injection Hx as <-. cbn in *. intuition congruence.
Qed.

Lemma kill_inv w q t :
  winv w -> socks w !! q = Some t -> peer t = NULL -> winv (kill w q t).
Proof.
  intros HI Hq Hpe. unfold kill. destruct (enqueue t) eqn:He.
  - unfold kill_local. destruct (_ || _); unfold winv; cbn.
    + rewrite fmap_delete. apply (inv_drop _ _ _ (disconnects w) _ _ (shape_of t)); auto.
      { by apply shapes_lookup. }
      intros u. symmetry. apply unlist_notin, (winv_not_disc w q t); auto. left. congruence.
    + rewrite fmap_insert. apply (inv_to_closing _ _ _ _ _ _ (shape_of t)); auto.
      { by apply shapes_lookup. }
      unfold shape_of. cbn. by rewrite Hpe, He.
  - destruct (winv_not_listed w q t HI Hq) as [H1 H2]; [congruence|].
    unfold winv. cbn. rewrite fmap_delete.
    pose proof (inv_drop _ _ _ _ _ q (shape_of t)
      (<[transport t := unlist q (default [] (disconnects w !! transport t))]> (disconnects w))
      HI (shapes_lookup _ _ _ Hq) Hpe) as Hdrop.
    rewrite (unlist_notin q (local_socket_list w)), (unlist_notin q (local_socket_closing_list w)) in Hdrop by done.
    apply Hdrop. intros u. destruct (decide (transport t = u)) as [<-|Hne].
    + by rewrite lookup_insert_eq.
    + rewrite lookup_insert_ne by done. symmetry. apply unlist_notin, (winv_not_disc w q t); auto.
  - destruct (winv_not_listed w q t HI Hq) as [H1 H2]; [congruence|].
    unfold winv. cbn. rewrite fmap_delete.
    pose proof (inv_drop _ _ _ _ _ q (shape_of t) (disconnects w) HI (shapes_lookup _ _ _ Hq) Hpe) as Hdrop.
    rewrite (unlist_notin q (local_socket_list w)), (unlist_notin q (local_socket_closing_list w)) in Hdrop by done.
    apply Hdrop. intros u. symmetry. apply unlist_notin, (winv_not_disc w q t); auto. left. congruence.
Qed.

Definition cut (w : sys) (p : ptr) (s : asocket) (q : ptr) (t : asocket) : sys :=
  put (put w q (set_peer t NULL)) p (set_peer s NULL).

Lemma cut_inv w p s q t :
  winv w -> socks w !! p = Some s -> peer s = q -> q <> NULL -> socks w !! q = Some t ->
  winv (cut w p s q t).
Proof.
  intros HI Hp Hs Hq Ht. unfold winv, cut. cbn. rewrite !fmap_insert.
  apply (inv_unpair _ _ _ _ _ p q (shape_of s) (shape_of t)); auto; by apply shapes_lookup.
Qed.

Lemma winv_peer w p s :
  winv w -> socks w !! p = Some s -> peer s <> NULL ->
  exists t, socks w !! peer s = Some t /\ peer t = p /\ peer s <> p /\
    (enqueue s = local_enqueue \/ enqueue t = local_enqueue) /\
    (close s = local_close_notify -> enqueue t = remote_enqueue) /\ closing s = false.
Proof.
  intros HI Hp Hn. destruct (si_peer _ _ _ _ _ HI p (shape_of s)) as (x & Hx & Hrest); auto.
  { by apply shapes_lookup. }
  apply shapes_lookup_inv in Hx as (t & Ht & ->). exists t. split; [done|]. apply Hrest.
Qed.

Lemma winv_handlers w p s : winv w -> socks w !! p = Some s -> handlers_ok (shape_of s).
Proof. intros HI Hp. apply (si_handlers _ _ _ _ _ HI p). by apply shapes_lookup. Qed.

(** The state after closing a local socket, peer included. *)
Definition closed_state (w : sys) (p : ptr) (s : asocket) : sys :=
  match socks w !! peer s with
  | Some t => if (peer s =? NULL)%nat then kill w p s
              else kill (kill (cut w p s (peer s) t) (peer s) (set_peer t NULL)) p (set_peer s NULL)
  | None => kill w p s
  end.

Lemma closed_state_inv w p s : winv w -> socks w !! p = Some s -> winv (closed_state w p s).
Proof.
  intros HI Hp. unfold closed_state. destruct (Nat.eqb_spec (peer s) NULL) as [E|Hne].
  - destruct (socks w !! peer s); by apply kill_inv.
  - destruct (winv_peer w p s HI Hp Hne) as (t & Ht & Htp & Hpp & _). rewrite Ht.
    assert (socks (cut w p s (peer s) t) !! p = Some (set_peer s NULL)) as Hp' by apply lookup_insert_eq.
    assert (socks (cut w p s (peer s) t) !! peer s = Some (set_peer t NULL)) as Hq'.
    { cbn. rewrite lookup_insert_ne by done. apply lookup_insert_eq. }
    apply kill_inv; [|by rewrite kill_lookup_ne|done].
    apply kill_inv; [|done|done]. by apply cut_inv.
Qed.

Lemma winv_nonnull w p s : winv w -> socks w !! p = Some s -> p <> NULL.
Proof.
  intros HI Hp ->. pose proof (si_alloc _ _ _ _ _ HI NULL (mk_is_Some _ _ (shapes_lookup _ _ _ Hp))). lia.
Qed.

(** A local socket whose peer is local has no notifying handlers. *)
Lemma winv_local_peer w q t s :
  winv w -> socks w !! q = Some t -> enqueue t = local_enqueue -> socks w !! peer t = Some s ->
  enqueue s = local_enqueue -> close t = local_close.
Proof.
  intros HI Ht Het Hs Hes. pose proof (winv_handlers w q t HI Ht) as Hh. unfold handlers_ok in Hh.
  cbn in Hh. rewrite Het in Hh. destruct Hh as [[_ Hh]|[_ Hh]]; [done|].
  destruct (winv_peer w q t HI Ht) as (s' & Hs' & _ & _ & _ & Hn & _).
  { intros E. rewrite E in Hs. by apply (winv_nonnull w) in Hs. }
  rewrite Hs in Hs'. injection Hs' as <-. specialize (Hn Hh). congruence.
Qed.

(** What local_socket_close_locked does to the peer once the link is cut. *)
Lemma close_peer n w p s q t :
  winv w -> socks w !! p = Some s -> enqueue s = local_enqueue -> peer s = q -> q <> NULL ->
  socks w !! q = Some t ->
  let w1 := put w q (set_peer t NULL) in
  (if decide (close t = local_close) then close_locked (S n) w1 q else do_close (S n) w1 q)
  = Done (kill w1 q (set_peer t NULL)).
Proof.
  intros HI Hp He Hpe Hne Ht w1. subst q.
  destruct (winv_peer w p s HI Hp Hne) as (t' & Ht' & Htp & Hpp & _).
  rewrite Ht in Ht'. injection Ht' as <-.
  assert (socks w1 !! peer s = Some (set_peer t NULL)) as Hq1 by apply lookup_insert_eq.
  pose proof (winv_handlers w _ t HI Ht) as Hh. unfold handlers_ok, kill in *. cbn in Hh |- *.
  destruct (enqueue t) eqn:Het.
  - rewrite decide_True by (apply (winv_local_peer w (peer s) t s); auto; by rewrite Htp).
    apply close_locked_alone; [done|done|]. by apply (winv_local_list w (peer s) t).
  - destruct Hh as (_ & Hct & Htt). rewrite decide_False by congruence. by apply do_close_remote_alone.
  - destruct Hh as (_ & Hct). rewrite decide_False by congruence.
    by apply (do_close_smart_alone n w1 (peer s) (set_peer t NULL)).
Qed.

(** The recursion of the close handlers ends after two calls. *)
Lemma close_locked_spec n w p s :
  winv w -> socks w !! p = Some s -> enqueue s = local_enqueue ->
  close_locked (S (S n)) w p = Done (closed_state w p s).
Proof.
  intros HI Hp He. unfold closed_state.
  destruct (Nat.eqb_spec (peer s) NULL) as [E|Hne].
  { unfold kill. rewrite He, close_locked_alone with (s := s) by (auto; by apply (winv_local_list w p s)).
    by destruct (socks w !! peer s). }
  destruct (winv_peer w p s HI Hp Hne) as (t & Ht & Htp & Hpp & _ & _ & Hcl). rewrite Ht.
  pose proof (close_peer n w p s (peer s) t HI Hp He eq_refl Hne Ht) as Hpeer. cbv zeta in Hpeer.
  set (w1 := put w (peer s) (set_peer t NULL)) in *.
  assert (socks w1 !! p = Some s) as Hp1 by (cbn; by rewrite lookup_insert_ne).
  set (w2 := kill w1 (peer s) (set_peer t NULL)) in *.
  assert (socks w2 !! p = Some s) as Hp2 by (unfold w2; by rewrite kill_lookup_ne).
  assert (kill (cut w p s (peer s) t) (peer s) (set_peer t NULL) = put w2 p (set_peer s NULL)) as ->
    by (unfold cut; fold w1; by rewrite kill_put).
  remember (S n) as n1 eqn:Hn1. cbn [close_locked]. rewrite (get_Some _ _ _ Hp). cbn [mbind outcome_bind].
  rewrite (proj2 (Nat.eqb_neq (peer s) NULL) Hne), (get_Some _ _ _ Ht). cbn [mbind outcome_bind].
  fold w1. rewrite Hpeer. cbn [mbind outcome_bind]. rewrite (modify_Some _ _ _ _ Hp2). cbn [mbind outcome_bind].
  pose proof (close_locked_alone n (put w2 p (set_peer s NULL)) p (set_peer s NULL)) as Hlast.
  cbn [close_locked] in Hlast. rewrite (get_Some (put w2 p _) p (set_peer s NULL)) in * by apply lookup_insert_eq.
  cbn [mbind outcome_bind peer set_peer] in Hlast |- *. rewrite Nat.eqb_refl in Hlast.
  cbn [mbind outcome_bind] in Hlast. rewrite (get_Some (put w2 p _) p (set_peer s NULL)) in Hlast by apply lookup_insert_eq.
  cbn [mbind outcome_bind] in Hlast. unfold kill. cbn [enqueue set_peer]. rewrite He. apply Hlast; [apply lookup_insert_eq|done|].
  change (p ∈ local_socket_list w2 \/ p ∈ local_socket_closing_list w2).
  assert (winv (put w2 p (set_peer s NULL))) as HI2.
  { unfold w2. rewrite <- kill_put by done.
    change (winv (kill (cut w p s (peer s) t) (peer s) (set_peer t NULL))).
    apply kill_inv; [by apply cut_inv| |done]. cbn. rewrite lookup_insert_ne by done. apply lookup_insert_eq. }
  apply (winv_local_list (put w2 p (set_peer s NULL)) p (set_peer s NULL)); auto. apply lookup_insert_eq.
Qed.

(** *** Closing through the handler of a socket *)

(** Failure messages touch the descriptors only. *)
Lemma sendfailmsg_chans w i m :
  exists c, (sendfailmsg w i m).2 = put_chans w c /\
    forall w', chans w' = chans w -> (sendfailmsg w' i m).2 = put_chans w' c.
Proof.
  assert (forall u d, exists r c, chan_writex u i d = (r, put_chans u c) /\
    forall u', chans u' = chans u -> chan_writex u' i d = (r, put_chans u' c)) as Hx.
  { intros u d. unfold chan_writex, chan_of, put_chan.
    destruct (Io.writex (writes (default no_chan (chans u !! i))) d) eqn:E.
    1-3: eexists _, _; (split; [reflexivity|intros u' ->; rewrite E; reflexivity]).
    exists (-1), (chans u). split; [by destruct u|]. intros u' Hu. rewrite Hu, E, <- Hu. by destruct u'. }
  unfold sendfailmsg.
  destruct (Hx w (bs "FAIL" ++ hex4 (Z.min (Z.of_nat (length m)) 65535))) as (r & c & E1 & E2).
  rewrite E1. destruct (negb (r =? 0)) eqn:Er.
  - exists c. split; [done|]. intros w' Hw. rewrite E2 by done. by rewrite Er.
  - destruct (Hx (put_chans w c) (take (Z.to_nat (Z.min (Z.of_nat (length m)) 65535)) m)) as (r2 & c2 & F1 & F2).
    rewrite F1. exists c2. split; [done|]. intros w' Hw. rewrite E2 by done. rewrite Er, F2 by done. done.
Qed.

(** The effect of [close] on a local socket without a peer. *)
Definition shut (w : sys) (p : ptr) (s : asocket) : sys :=
  if decide (close s = local_close_notify) then
    let s' := set_handlers s local_ready local_close in
    kill_local (sendfailmsg (put w p s') (fd s) (bs "closed")).2 p s'
  else kill_local w p s.

Lemma kill_local_locked w p s :
  locked w = false -> mutex_unlock (kill_local (put_locked w true) p s) = kill_local w p s.
Proof. intros Hl. unfold kill_local. destruct w. cbn in *. subst. by destruct (_ || _). Qed.

Lemma do_close_local_alone n w p s :
  socks w !! p = Some s -> peer s = NULL -> locked w = false ->
  close s = local_close \/ close s = local_close_notify ->
  p ∈ local_socket_list w \/ p ∈ local_socket_closing_list w ->
  do_close (S (S (S n))) w p = Done (shut w p s).
Proof.
  intros Hp Hpe Hl Hc Hin.
  assert (forall k w' s', socks w' !! p = Some s' -> peer s' = NULL -> locked w' = false ->
    close s' = local_close -> p ∈ local_socket_list w' \/ p ∈ local_socket_closing_list w' ->
    do_close (S (S k)) w' p = Done (kill_local w' p s')) as Hlocal.
  { intros k w' s' H1 H2 H3 H4 H5. remember (S k) as k1. cbn [do_close]. rewrite (get_Some _ _ _ H1).
    cbn [mbind outcome_bind]. rewrite H4. unfold mutex_lock. rewrite H3. cbn [mbind outcome_bind]. subst k1.
    rewrite (close_locked_alone k (put_locked w' true) p s') by done.
    cbn [mbind outcome_bind]. by rewrite kill_local_locked. }
  unfold shut. destruct (decide (close s = local_close_notify)) as [Hn|Hn]; [|by apply Hlocal; intuition].
  remember (S (S n)) as k1. cbn [do_close]. rewrite (get_Some _ _ _ Hp). cbn [mbind outcome_bind].
  rewrite Hn, (modify_Some _ _ _ _ Hp). cbn [mbind outcome_bind].
  destruct (sendfailmsg_chans (put w p (set_handlers s local_ready local_close)) (fd s) (bs "closed")) as (c & -> & _).
  subst k1. apply Hlocal; try done. apply lookup_insert_eq.
Qed.

Lemma shut_put w p q s t : p <> q -> shut (put w p s) q t = put (shut w q t) p s.
Proof.
  intros Hne.
  assert (forall u x y, enqueue y = local_enqueue -> kill_local (put u p x) q y = put (kill_local u q y) p x) as Hk.
  { intros u x y Hy. pose proof (kill_put u p q x y Hne) as H. unfold kill in H. by rewrite Hy in H. }
  assert (forall u x y, kill_local (put u p x) q y = put (kill_local u q y) p x) as Hk'.
  { intros u x y. specialize (Hk u x (mk_sock (id y) (closing y) (peer y) (wants y) (fd y) (queue y)
      local_enqueue (ready y) (close y) (transport y)) eq_refl).
    unfold kill_local in *. cbn in *. destruct (_ || _); [done|].
    unfold put, put_socks, put_lists. cbn. by rewrite insert_insert_ne. }
  unfold shut. destruct (decide _); [|apply Hk'].
  destruct (sendfailmsg_chans (put w q (set_handlers t local_ready local_close)) (fd t) (bs "closed")) as (c & E1 & E2).
  rewrite E1, E2 by done.
  change (put_chans (put (put w p s) q ?x) c) with (put (put (put_chans w c) p s) q x).
  change (put_chans (put w q ?x) c) with (put (put_chans w c) q x).
  by rewrite put_put_ne, Hk' by done.
Qed.

Lemma shut_lookup_ne w p q t : p <> q -> socks (shut w q t) !! p = socks w !! p.
Proof.
  intros Hne.
  assert (forall u y, socks (kill_local u q y) !! p = socks u !! p) as Hk.
  { intros u y. unfold kill_local. destruct (_ || _); cbn; by rewrite ?lookup_delete_ne, ?lookup_insert_ne. }
  unfold shut. destruct (decide _); [|done]. rewrite Hk.
  destruct (sendfailmsg_chans (put w q (set_handlers t local_ready local_close)) (fd t) (bs "closed")) as (c & -> & _).
  cbn. by rewrite lookup_insert_ne.
Qed.

Lemma relocal_inv w p s :
  winv w -> socks w !! p = Some s -> enqueue s = local_enqueue ->
  winv (put w p (set_handlers s local_ready local_close)).
Proof.
  intros HI Hp He. unfold winv. cbn. rewrite fmap_insert.
  apply (inv_update _ _ _ _ _ p (shape_of s)); auto; try done.
  - by apply shapes_lookup.
  - unfold handlers_ok. cbn. rewrite He. by left.
Qed.

Lemma shut_inv w p s :
  winv w -> socks w !! p = Some s -> peer s = NULL -> enqueue s = local_enqueue -> winv (shut w p s).
Proof.
  intros HI Hp Hpe He. unfold shut. destruct (decide _) as [Hn|Hn].
  - destruct (sendfailmsg_chans (put w p (set_handlers s local_ready local_close)) (fd s) (bs "closed")) as (c & -> & _).
    pose proof (kill_inv (put_chans (put w p (set_handlers s local_ready local_close)) c) p
      (set_handlers s local_ready local_close)) as H. unfold kill in H. cbn [enqueue set_handlers] in H.
    rewrite He in H. apply H; [by apply (relocal_inv w)|apply lookup_insert_eq|done].
  - pose proof (kill_inv w p s HI Hp Hpe) as H. unfold kill in H. by rewrite He in H.
Qed.

(** *** What a close leaves behind *)

(** Both ends are gone, or are local and waiting on the closing list for their
    queue to drain; every other socket is untouched. *)
Record closed_rel (w : sys) (p : ptr) (s : asocket) (w' : sys) : Prop := {
  cr_inv : winv w';
  cr_fields : locked w' = locked w /\ brk w' = brk w /\ transports w' = transports w;
  cr_other : forall r, r <> p -> r <> peer s -> socks w' !! r = socks w !! r;
  cr_ends : forall r x, r = p \/ r = peer s -> socks w' !! r = Some x ->
    enqueue x = local_enqueue /\ closing x = true
}.

Lemma kill_fields w q t :
  locked (kill w q t) = locked w /\ brk (kill w q t) = brk w /\ transports (kill w q t) = transports w.
Proof. unfold kill, kill_local. destruct (enqueue t); [destruct (_ || _)|..]; done. Qed.

Lemma kill_self w q t x :
  socks (kill w q t) !! q = Some x -> enqueue x = local_enqueue /\ closing x = true.
Proof.
  unfold kill, kill_local. destruct (enqueue t) eqn:He; [destruct (_ || _)|..]; cbn;
    rewrite ?lookup_delete_eq, ?lookup_insert_eq; try done. intros [= <-]. cbn. done.
Qed.

Lemma closed_state_rel w p s :
  winv w -> socks w !! p = Some s -> closed_rel w p s (closed_state w p s).
Proof.
  intros HI Hp. split; [by apply closed_state_inv|..].
  - unfold closed_state. destruct (socks w !! peer s) as [t|]; [destruct (peer s =? NULL)%nat|];
      repeat match goal with |- context [kill ?u ?q ?x] => destruct (kill_fields u q x) as (-> & -> & ->) end; done.
  - intros r H1 H2. unfold closed_state. destruct (socks w !! peer s) as [t|];
      [destruct (peer s =? NULL)%nat|]; rewrite ?kill_lookup_ne by done; try done.
    cbn. by rewrite !lookup_insert_ne by done.
  - intros r x Hr. unfold closed_state. destruct (socks w !! peer s) as [t|] eqn:Ht;
      [destruct (Nat.eqb_spec (peer s) NULL) as [E|Hne]|].
    + rewrite E in Ht. by apply (winv_nonnull w) in Ht.
    + destruct (decide (r = p)) as [->|]; [apply kill_self|].
      rewrite kill_lookup_ne by done. destruct Hr as [->| ->]; [done|]. apply kill_self.
    + destruct Hr as [->| ->]; [apply kill_self|].
      destruct (decide (peer s = p)) as [E|]; [congruence|]. rewrite kill_lookup_ne, Ht by done. done.
Qed.

Lemma closed_state_locked w p s :
  locked w = false -> mutex_unlock (closed_state (put_locked w true) p s) = closed_state w p s.
Proof.
  intros Hl. unfold closed_state, cut. destruct w as [so l c n b lk d tr se ch cl]. cbn in *. subst lk.
  destruct (so !! peer s) as [t|]; [destruct (peer s =? NULL)%nat|];
    unfold kill, kill_local; cbn; repeat case_match; done.
Qed.

Lemma do_close_plain n w p s :
  winv w -> locked w = false -> socks w !! p = Some s -> enqueue s = local_enqueue ->
  close s = local_close -> do_close (S (S (S n))) w p = Done (closed_state w p s).
Proof.
  intros H1 H2 H3 H4 H5. remember (S (S n)) as k1. cbn [do_close]. rewrite (get_Some _ _ _ H3).
  cbn [mbind outcome_bind]. rewrite H5. unfold mutex_lock. rewrite H2. cbn [mbind outcome_bind]. subst k1.
  rewrite (close_locked_spec n (put_locked w true) p s) by done.
  cbn [mbind outcome_bind]. by rewrite closed_state_locked.
Qed.

Lemma do_close_local n w p s :
  winv w -> locked w = false -> socks w !! p = Some s -> enqueue s = local_enqueue ->
  exists w', do_close (S (S (S (S n)))) w p = Done w' /\ closed_rel w p s w'.
Proof.
  intros HI Hl Hp He.
  pose proof (winv_handlers w p s HI Hp) as Hh. unfold handlers_ok in Hh. cbn in Hh. rewrite He in Hh.
  destruct Hh as [[_ Hc]|[_ Hc]].
  - exists (closed_state w p s). split; [by apply do_close_plain|by apply closed_state_rel].
  - set (s' := set_handlers s local_ready local_close).
    remember (S (S (S n))) as k1. cbn [do_close]. rewrite (get_Some _ _ _ Hp). cbn [mbind outcome_bind].
    rewrite Hc, (modify_Some _ _ _ _ Hp). cbn [mbind outcome_bind]. fold s'.
    destruct (sendfailmsg_chans (put w p s') (fd s) (bs "closed")) as (c & -> & _).
    set (w2 := put_chans (put w p s') c).
    assert (winv w2) as HI2 by (by apply (relocal_inv w)).
    assert (socks w2 !! p = Some s') as Hp2 by apply lookup_insert_eq.
    exists (closed_state w2 p s'). subst k1. split; [by apply do_close_plain|].
    destruct (closed_state_rel w2 p s' HI2 Hp2) as [R1 R2 R3 R4]. split; try done.
    intros r H1 H2. rewrite R3 by done. cbn. by rewrite lookup_insert_ne.
Qed.

Lemma shut_fields w q t :
  locked (shut w q t) = locked w /\ brk (shut w q t) = brk w /\ transports (shut w q t) = transports w /\
  disconnects (shut w q t) = disconnects w.
Proof.
  assert (forall u x, locked (kill_local u q x) = locked u /\ brk (kill_local u q x) = brk u /\
    transports (kill_local u q x) = transports u /\ disconnects (kill_local u q x) = disconnects u) as Hk
    by (intros u x; unfold kill_local; destruct (_ || _); done).
  unfold shut. destruct (decide _); [|apply Hk].
  destruct (sendfailmsg_chans (put w q (set_handlers t local_ready local_close)) (fd t) (bs "closed")) as (c & -> & _).
  destruct (Hk (put_chans (put w q (set_handlers t local_ready local_close)) c) (set_handlers t local_ready local_close))
    as (-> & -> & -> & ->). done.
Qed.

Lemma shut_self w q t x :
  enqueue t = local_enqueue ->
  socks (shut w q t) !! q = Some x -> enqueue x = local_enqueue /\ closing x = true.
Proof.
  intros He. unfold shut.
  destruct (decide _); intros H.
  - refine (kill_self _ q (set_handlers t local_ready local_close) x _). unfold kill. cbn [enqueue set_handlers].
    by rewrite He.
  - refine (kill_self w q t x _). unfold kill. by rewrite He.
Qed.

(** The peer of a socket that is not local, cut off and closed. *)
Lemma shut_peer n w p s t :
  winv w -> locked w = false -> socks w !! p = Some s -> enqueue s <> local_enqueue ->
  peer s <> NULL -> socks w !! peer s = Some t ->
  enqueue t = local_enqueue /\ peer s <> p /\
  do_close (S (S (S n))) (put w (peer s) (set_peer t NULL)) (peer s)
    = Done (shut (put w (peer s) (set_peer t NULL)) (peer s) (set_peer t NULL)) /\
  winv (put (shut (put w (peer s) (set_peer t NULL)) (peer s) (set_peer t NULL)) p (set_peer s NULL)).
Proof.
  intros HI Hl Hp He Hne Ht. destruct (winv_peer w p s HI Hp Hne) as (t' & Ht' & Htp & Hpp & Hloc & _).
  rewrite Ht in Ht'. injection Ht' as <-. destruct Hloc as [|Het]; [done|].
  split; [done|]. split; [done|]. split.
  - pose proof (winv_handlers w _ t HI Ht) as Hh. unfold handlers_ok in Hh. cbn in Hh. rewrite Het in Hh.
    apply do_close_local_alone; auto; [apply lookup_insert_eq|cbn; tauto|].
    by apply (winv_local_list w (peer s) t).
  - rewrite <- shut_put by done. apply shut_inv; [by apply cut_inv| |done|done].
    cbn. rewrite lookup_insert_ne by done. apply lookup_insert_eq.
Qed.

Lemma free_put w p s : free (put w p s) p = free w p.
Proof. unfold free, put, put_socks. cbn. by rewrite delete_insert_eq. Qed.

Lemma do_close_smart n w p s :
  winv w -> locked w = false -> socks w !! p = Some s -> enqueue s = smart_enqueue ->
  exists w', do_close (S (S (S (S n)))) w p = Done w' /\ closed_rel w p s w'.
Proof.
  intros HI Hl Hp He. pose proof (winv_handlers w p s HI Hp) as Hh. unfold handlers_ok in Hh. cbn in Hh.
  rewrite He in Hh. destruct Hh as [_ Hc].
  destruct (decide (peer s = NULL)) as [E|Hne].
  { exists (free w p). split; [by apply (do_close_smart_alone _ w p s)|].
    assert (free w p = closed_state w p s) as ->; [|by apply closed_state_rel].
    unfold closed_state, kill. rewrite He, E. by destruct (socks w !! NULL). }
  destruct (winv_peer w p s HI Hp Hne) as (t & Ht & _).
  destruct (shut_peer n w p s t HI Hl Hp ltac:(congruence) Hne Ht) as (Het & Hpp & Hcl & HI1).
  set (w1 := shut (put w (peer s) (set_peer t NULL)) (peer s) (set_peer t NULL)) in *.
  assert (socks w1 !! p = Some s) as Hp1
    by (unfold w1; rewrite shut_lookup_ne by done; cbn; by rewrite lookup_insert_ne).
  exists (free w1 p). split.
  - remember (S (S (S n))) as k1. cbn [do_close]. rewrite (get_Some _ _ _ Hp). cbn [mbind outcome_bind].
    rewrite Hc, (proj2 (Nat.eqb_neq _ _) Hne), (modify_Some _ _ _ _ Ht). cbn [mbind outcome_bind].
    rewrite Hcl. cbn [mbind outcome_bind]. rewrite (modify_Some _ _ _ _ Hp1). cbn [mbind outcome_bind].
    rewrite (get_Some _ p (set_peer s NULL)) by apply lookup_insert_eq. cbn [mbind outcome_bind].
    by rewrite free_put.
  - destruct (shut_fields (put w (peer s) (set_peer t NULL)) (peer s) (set_peer t NULL)) as (F1 & F2 & F3 & _).
    split.
    + pose proof (kill_inv _ p (set_peer s NULL) HI1 ltac:(apply lookup_insert_eq) eq_refl) as H.
      unfold kill in H. cbn [enqueue set_peer] in H. rewrite He, free_put in H. done.
    + done.
    + intros r H1 H2. cbn. rewrite lookup_delete_ne by done. unfold w1. rewrite shut_lookup_ne by done.
      cbn. by rewrite lookup_insert_ne.
    + intros r x Hr. cbn. destruct (decide (r = p)) as [->|]; [by rewrite lookup_delete_eq|].
      rewrite lookup_delete_ne by done. destruct Hr as [->| ->]; [done|]. unfold w1. by apply shut_self.
Qed.

(** remote_socket_disconnect takes the socket off its transport's list. *)
Lemma remote_disconnect_spec w p s :
  winv w -> locked w = false -> socks w !! p = Some s -> enqueue s = remote_enqueue ->
  exists w', remote_socket_disconnect w p = Done w' /\ closed_rel w p s w' /\
    disc_list w' (transport s) = unlist p (disc_list w (transport s)).
Proof.
  intros HI Hl Hp He. unfold remote_socket_disconnect. rewrite (get_Some _ _ _ Hp). cbn [mbind outcome_bind].
  destruct (Nat.eqb_spec (peer s) NULL) as [E|Hne].
  - cbn [mbind outcome_bind]. unfold drop_remote. rewrite (get_Some _ _ _ Hp). cbn [mbind outcome_bind].
    eexists. split; [reflexivity|]. split; [split|].
    + pose proof (kill_inv w p s HI Hp E) as H. unfold kill in H. by rewrite He in H.
    + done.
    + intros r H1 H2. cbn. by rewrite lookup_delete_ne.
    + intros r x Hr. cbn. destruct Hr as [->| ->]; [by rewrite lookup_delete_eq|].
      destruct (decide (p = peer s)) as [->|]; [by rewrite lookup_delete_eq|].
      rewrite lookup_delete_ne by done. rewrite E. by intros ?%(winv_nonnull w).
    + unfold disc_list at 1. cbn. by rewrite lookup_insert_eq.
  - destruct (winv_peer w p s HI Hp Hne) as (t & Ht & _).
    destruct (shut_peer 5 w p s t HI Hl Hp ltac:(congruence) Hne Ht) as (Het & Hpp & Hcl & HI1).
    rewrite (modify_Some _ _ _ _ Ht). cbn [mbind outcome_bind].
    unfold close_socket. change close_fuel with 8%nat. rewrite Hcl. cbn [mbind outcome_bind].
    set (w1 := shut (put w (peer s) (set_peer t NULL)) (peer s) (set_peer t NULL)) in *.
    destruct (shut_fields (put w (peer s) (set_peer t NULL)) (peer s) (set_peer t NULL)) as (F1 & F2 & F3 & F4).
    fold w1 in F1, F2, F3, F4.
    assert (socks w1 !! p = Some s) as Hp1
      by (unfold w1; rewrite shut_lookup_ne by done; cbn; by rewrite lookup_insert_ne).
    unfold drop_remote. rewrite (get_Some _ _ _ Hp1). cbn [mbind outcome_bind].
    eexists. split; [reflexivity|]. split; [split|].
    + pose proof (kill_inv _ p (set_peer s NULL) HI1 ltac:(apply lookup_insert_eq) eq_refl) as H.
      unfold kill, kill_remote in H. cbn [enqueue set_peer transport id] in H. rewrite He in H.
      rewrite <- (free_put _ p (set_peer s NULL)). exact H.
    + done.
    + intros r H1 H2. cbn. rewrite lookup_delete_ne by done. unfold w1. rewrite shut_lookup_ne by done.
      cbn. by rewrite lookup_insert_ne.
    + intros r x Hr. cbn. destruct (decide (r = p)) as [->|]; [by rewrite lookup_delete_eq|].
      rewrite lookup_delete_ne by done. destruct Hr as [->| ->]; [done|]. unfold w1. by apply shut_self.
    + unfold disc_list at 1. cbn. rewrite lookup_insert_eq. cbn. by rewrite F4.
Qed.

Lemma run_from_spec l : forall w t,
  winv w -> locked w = false -> disc_list w t = l ->
  exists w', run_from (length l) w t (default NULL (head l)) = Done w' /\ winv w' /\ locked w' = false /\
    disc_list w' t = [] /\ transports w' = transports w.
Proof.
  induction l as [|p l IH]; intros w t HI Hl Hd; cbn [length run_from head].
  { exists w. change (default NULL None) with NULL. by rewrite Nat.eqb_refl. }
  destruct (proj1 (si_disc _ _ _ _ _ HI t p)) as (x & Hx & He & Ht).
  { unfold disc_list in Hd. rewrite Hd. by left. }
  apply shapes_lookup_inv in Hx as (s & Hs & ->). cbn in He, Ht. change (default NULL (Some p)) with p.
  rewrite (proj2 (Nat.eqb_neq p NULL)) by (by apply (winv_nonnull w p s)).
  pose proof (si_disc_nodup _ _ _ _ _ HI t) as Hnd. fold (disc_list w t) in Hnd. rewrite Hd in Hnd.
  apply NoDup_cons in Hnd as [Hnin Hnd].
  destruct (remote_disconnect_spec w p s HI Hl Hs He) as (w1 & -> & [R1 (R2 & _ & R3) _ _] & Hd1).
  cbn [mbind outcome_bind]. rewrite Hd. cbn [next_of]. rewrite Nat.eqb_refl.
  destruct (IH w1 t R1) as (w2 & H2 & ? & ? & ? & Htr); [congruence| |].
  - rewrite Ht, Hd in Hd1. rewrite Hd1. unfold unlist. rewrite filter_cons_False by (intros H; by apply H).
    by apply unlist_notin.
  - exists w2. split_and!; auto. congruence.
Qed.

(** *** Creating and connecting *)

Lemma create_local_spec w i :
  winv w -> locked w = false ->
  exists w', create_local_socket w i = Done (brk w, w') /\ winv w' /\ locked w' = false /\
    transports w' = transports w /\ brk w' = S (brk w) /\
    socks w' = <[brk w := mk_sock (local_socket_next_id w) false NULL 0 i [] local_enqueue
                            local_ready local_close NULL]> (socks w).
Proof.
  intros HI Hl. unfold create_local_socket, malloc, install_local_socket, mutex_lock.
  cbn [locked put put_socks put_brk]. rewrite Hl. cbn [mbind outcome_bind].
  erewrite modify_Some by apply lookup_insert_eq. cbn [mbind outcome_bind].
  eexists. split; [reflexivity|]. cbn. rewrite insert_insert_eq. split_and!; try done.
  unfold winv. cbn. rewrite insert_insert_eq, fmap_insert. eapply inv_alloc; [exact HI|..]; try done.
  - cbn. by left.
  - intros t. destruct (decide _) as [[??]|]; [done|]. by rewrite app_nil_r.
Qed.

Lemma create_remote_spec w i t q w' :
  winv w -> t <> NULL -> create_remote_socket w i t = (q, w') ->
  q = brk w /\ winv w' /\ locked w' = locked w /\ transports w' = transports w /\
  socks w' = <[q := mk_sock i false NULL 0 0 [] remote_enqueue remote_ready remote_close t]> (socks w).
Proof.
  intros HI Ht. unfold create_remote_socket, malloc. intros [= <- <-]. split_and!; try done.
  unfold winv. cbn. rewrite fmap_insert. eapply inv_alloc; [exact HI|..]; try done.
  intros u. cbn [sh_enqueue sh_transport shape_of enqueue transport].
  destruct (decide (t = u)) as [<-|Hne].
  - rewrite lookup_insert_eq. rewrite decide_True by done. done.
  - rewrite lookup_insert_ne, decide_False by naive_solver. by rewrite app_nil_r.
Qed.

(** Connecting two sockets that have no peers. *)
Lemma connect_spec w p q s t :
  winv w -> socks w !! p = Some s -> socks w !! q = Some t -> p <> q ->
  peer s = NULL -> peer t = NULL -> closing s = false -> closing t = false ->
  enqueue s = local_enqueue -> (close s = local_close_notify -> enqueue t = remote_enqueue) ->
  close t <> local_close_notify ->
  winv (put (put w p (set_peer s q)) q (set_peer t p)).
Proof.
  intros HI Hp Hq Hne. intros. unfold winv. cbn. rewrite !fmap_insert.
  apply (inv_pair _ _ _ _ _ p q (shape_of s) (shape_of t)); auto; by apply shapes_lookup.
Qed.

Lemma winv_upd w p s s' :
  winv w -> socks w !! p = Some s -> shape_of s' = shape_of s -> winv (put w p s').
Proof.
  intros HI Hp E. unfold winv. cbn. rewrite fmap_insert, E, insert_id; [exact HI|]. by apply shapes_lookup.
Qed.

Lemma find_local_spec w i :
  winv w -> locked w = false ->
  exists p, find_local_socket w i = Done (p, w) /\
    (p = NULL \/ exists s, socks w !! p = Some s /\ p <> NULL /\ enqueue s = local_enqueue /\
                           closing s = false /\ id s = i).
Proof.
  intros HI Hl. unfold find_local_socket, mutex_lock. rewrite Hl. cbn [mbind outcome_bind].
  assert (forall l, (forall p, p ∈ l -> p ∈ local_socket_list w) ->
    exists p, find_in (put_locked w true) l i = Done p /\
      (p = NULL \/ exists s, socks w !! p = Some s /\ p <> NULL /\ enqueue s = local_enqueue /\
                             closing s = false /\ id s = i)) as Hf.
  { induction l as [|p l IH]; intros Hin; cbn [find_in]; [eauto|].
    destruct (proj1 (si_list _ _ _ _ _ HI p)) as (x & Hx & He & Hc); [apply Hin; by left|].
    apply shapes_lookup_inv in Hx as (s & Hs & ->). rewrite (get_Some (put_locked w true) p s Hs). cbn [mbind outcome_bind].
    destruct (Z.eqb_spec (id s) i) as [E|_].
    - exists p. split; [done|]. right. exists s. split_and!; auto. by apply (winv_nonnull w p s).
    - apply IH. intros r Hr. apply Hin. by right. }
  destruct (Hf (local_socket_list w)) as (p & Hp & Hres); [done|]. exists p.
  change (local_socket_list (put_locked w true)) with (local_socket_list w). rewrite Hp. cbn [mbind outcome_bind].
  split; [|done]. do 2 f_equal. destruct w. cbn in *. by subst.
Qed.

Lemma put_chans_id w : put_chans w (chans w) = w.
Proof. by destruct w. Qed.

Lemma chan_write_chans w i d : exists r c, chan_write w i d = (r, put_chans w c).
Proof.
  unfold chan_write. destruct (Io.adb_write _ _) as [[[] l]|]; eexists _, _; try reflexivity.
  by rewrite put_chans_id.
Qed.

(** [s->ready(s)] on a local socket. *)
Lemma do_ready_local w p s :
  winv w -> socks w !! p = Some s -> enqueue s = local_enqueue ->
  exists w' s', do_ready w p = Done w' /\ winv w' /\ locked w' = locked w /\ transports w' = transports w /\
    brk w' = brk w /\ socks w' = <[p := s']> (socks w) /\ peer s' = peer s /\ enqueue s' = enqueue s.
Proof.
  intros HI Hp He. unfold do_ready. rewrite (get_Some _ _ _ Hp). cbn [mbind outcome_bind].
  pose proof (winv_handlers w p s HI Hp) as Hh. unfold handlers_ok in Hh. cbn in Hh. rewrite He in Hh.
  destruct Hh as [[-> _]|[-> _]].
  - unfold want. rewrite (modify_Some _ _ _ _ Hp). eexists _, _. split; [reflexivity|].
    split_and!; try done. by apply (winv_upd w p s).
  - rewrite (modify_Some _ _ _ _ Hp). cbn [mbind outcome_bind]. unfold write_once.
    destruct (chan_write_chans (put w p (set_handlers s local_ready local_close)) (fd s) (bs "OKAY")) as (r & c & ->).
    cbn [snd]. unfold want. erewrite modify_Some by apply lookup_insert_eq.
    eexists _, _. split; [reflexivity|]. cbn. rewrite insert_insert_eq. split_and!; try done.
    eapply (winv_upd (put_chans (put w p (set_handlers s local_ready local_close)) c));
      [by apply (relocal_inv w p s)|apply lookup_insert_eq|done].
Qed.

(** *** Writing to a descriptor *)

(** One write: what was taken is appended to what the descriptor received. *)
Lemma chan_write_spec w i d r w' :
  d <> [] -> chan_write w i d = (r, w') ->
  (exists c, w' = put_chans w c) /\
  written (chan_of w' i) = written (chan_of w i) ++ (match r with Io.Took n => take n d | _ => [] end) /\
  (r = Io.TFail EAGAIN \/ (length (writes (chan_of w' i)) < length (writes (chan_of w i)))%nat).
Proof.
  intros Hd. unfold chan_write, Io.adb_write.
  destruct (writes (chan_of w i)) as [|[n| |e] l] eqn:E; intros [= <- <-].
  - split; [by exists (chans w); rewrite put_chans_id|]. split; [by rewrite app_nil_r|auto].
  - split; [by eexists|]. unfold put_chan, chan_of. cbn. rewrite lookup_insert_eq. cbn. split; [done|right; lia].
  - split; [by eexists|]. unfold put_chan, chan_of. cbn. rewrite lookup_insert_eq. cbn.
    rewrite app_nil_r. split; [done|right; lia].
  - split; [by eexists|]. unfold put_chan, chan_of. cbn. rewrite lookup_insert_eq. cbn.
    rewrite app_nil_r. split; [done|right; lia].
Qed.

(** No byte is lost or reordered by the write loops. *)
Lemma write_some_spec retry n : forall w i d st rest w',
  write_some retry n w i d = (st, rest, w') ->
  (exists c, w' = put_chans w c) /\
  written (chan_of w' i) ++ rest = written (chan_of w i) ++ d /\ (st = Drained <-> rest = []).
Proof.
  induction n as [|n IH]; intros w i d st rest w'.
  { destruct d; cbn [write_some]; intros [= <- <- <-];
      (split; [by exists (chans w); rewrite put_chans_id|]); done. }
  cbn [write_some]. destruct d as [|x d]; [intros [= <- <- <-]|].
  { split; [by exists (chans w); rewrite put_chans_id|done]. }
  destruct (chan_write w i (x :: d)) as [r w1] eqn:Hw.
  destruct (chan_write_spec w i (x :: d) r w1) as ((c1 & Hc1) & Hwr & _); [done|done|].
  assert (forall u y, write_some retry n w1 i y = u -> (exists c, u.2 = put_chans w1 c) ->
    exists c, u.2 = put_chans w c) as Hch.
  { intros u y _ (c & Hc). exists c. rewrite Hc, Hc1. done. }
  destruct r as [k| |e].
  - intros H. destruct (IH _ _ _ _ _ _ H) as (Hc & Hb & Hst). split; [by apply (Hch _ _ H)|].
    split; [|done]. rewrite Hb, Hwr, <- app_assoc. by rewrite take_drop.
  - intros [= <- <- <-]. split; [eauto|]. by rewrite Hwr, app_nil_r.
  - rewrite app_nil_r in Hwr. destruct e; try (intros [= <- <- <-]; split; [eauto|]; by rewrite Hwr).
    destruct retry; [|intros [= <- <- <-]; split; [eauto|]; by rewrite Hwr].
    intros H. destruct (IH _ _ _ _ _ _ H) as (Hc & Hb & Hst). split; [by apply (Hch _ _ H)|].
    split; [|done]. by rewrite Hb, Hwr.
Qed.

(** More fuel than [write_fuel] changes nothing. *)
Lemma write_some_fuel retry n : forall k w i d,
  (length (writes (chan_of w i)) < n)%nat -> (n <= k)%nat ->
  write_some retry k w i d = write_some retry n w i d.
Proof.
  induction n as [|n IH]; intros k w i d Hn Hk; [lia|]. destruct k as [|k]; [lia|]. cbn [write_some].
  destruct d as [|x d]; [done|]. destruct (chan_write w i (x :: d)) as [r w1] eqn:Hw.
  destruct (chan_write_spec w i (x :: d) r w1) as (_ & _ & Hlen); [done|done|].
  destruct r as [j| |[]]; try done; destruct Hlen as [|Hlen]; try done; [apply IH; lia|].
  destruct retry; [apply IH; lia|done].
Qed.

(** Bytes given to a local socket that its descriptor has not received yet come
    after those it has, in the order they were given. *)
Definition stream (w : sys) (s : asocket) : bytes := written (chan_of w (fd s)) ++ concat (queue s).

Lemma local_enqueue_spec w p s d :
  winv w -> locked w = false -> socks w !! p = Some s -> enqueue s = local_enqueue ->
  exists r w', local_socket_enqueue w p d = Done (r, w') /\ winv w' /\ locked w' = false /\
    transports w' = transports w /\
    ((exists s', socks w' = <[p := s']> (socks w) /\ shape_of s' = shape_of s /\ id s' = id s /\
        fd s' = fd s /\ stream w' s' = stream w s ++ d /\ (r = 0 <-> queue s' = []) /\
        (r = 0 \/ (r = 1 /\ Z.testbit (wants s') 1 = true)))
     \/ (r = 1 /\ queue s = [] /\ closed_rel w p s w')).
Proof.
  intros HI Hl Hp He. unfold local_socket_enqueue. rewrite (get_Some _ _ _ Hp). cbn [mbind outcome_bind].
  assert (forall w1 d1 c, w1 = put_chans w c -> 
    exists s', (w2 ← modify w1 p (fun s => set_queue s (queue s ++ [d1])); w2 ← want w2 p Fdevent.FDE_WRITE; Done (1, w2))
      = Done (1, put w1 p s') /\ shape_of s' = shape_of s /\ id s' = id s /\ fd s' = fd s /\
      queue s' = queue s ++ [d1] /\ Z.testbit (wants s') 1 = true) as Hback.
  { intros w1 d1 c ->. exists (set_wants (set_queue s (queue s ++ [d1])) (Z.lor (wants s) Fdevent.FDE_WRITE)).
    rewrite (modify_Some _ p s) by done. cbn [mbind outcome_bind]. unfold want.
    erewrite modify_Some by apply lookup_insert_eq. cbn [mbind outcome_bind].
    split; [do 2 f_equal; unfold put, put_socks; cbn; by rewrite insert_insert_eq|].
    split_and!; try done. cbn [wants set_wants]. rewrite Z.lor_spec. apply orb_true_r. }
  destruct (queue s) as [|a l] eqn:Hq.
  - destruct (write_some false (write_fuel w (fd s)) w (fd s) d) as [[st rest] w1] eqn:Hw.
    destruct (write_some_spec _ _ _ _ _ _ _ _ Hw) as ((c & Hc) & Hb & Hst).
    assert (winv w1) as HI1 by (by subst w1). assert (socks w1 !! p = Some s) as Hp1 by (by subst w1).
    destruct st.
    + exists 0, w1. split; [done|]. split_and!; try (by subst w1). left. exists s.
      rewrite insert_id by done. split_and!; try done; [by subst w1| |auto].
      unfold stream. rewrite Hq. cbn [concat]. rewrite !app_nil_r.
      rewrite (proj1 Hst eq_refl), app_nil_r in Hb. done.
    + destruct (Hback w1 rest c Hc) as (s' & -> & E1 & E2 & E3 & E4 & E5).
      exists 1, (put w1 p s'). split; [done|]. split_and!; try (by subst w1).
      { by apply (winv_upd w1 p s). }
      left. exists s'. split_and!; try done; [by subst w1| | |auto].
      * unfold stream. change (chan_of (put w1 p s') (fd s')) with (chan_of w1 (fd s')).
        rewrite E3, E4, Hq. cbn. by rewrite !app_nil_r.
      * rewrite E4, ?Hq. by split.
    + unfold close_socket. change close_fuel with 8%nat.
      destruct (do_close_local 4 w1 p s HI1) as (w2 & -> & [R1 (R2 & R2' & R2'') R3 R4]); [by subst w1|done|done|].
      cbn [mbind outcome_bind]. exists 1, w2. split; [done|].
      split_and!; try done; [by rewrite R2; subst w1|by rewrite R2''; subst w1|].
      right. split_and!; try done. split; try done; [by subst w1|]. intros r H1 H2. rewrite R3 by done. by subst w1.
  - destruct (Hback w d (chans w)) as (s' & -> & E1 & E2 & E3 & E4 & E5); [by rewrite put_chans_id|].
    exists 1, (put w p s'). split; [done|]. split_and!; try done; [by apply (winv_upd w p s)|].
    left. exists s'. split_and!; try done; [|rewrite E4; by destruct l|auto].
    unfold stream. change (chan_of (put w p s') (fd s')) with (chan_of w (fd s')).
    rewrite E3, E4, Hq, concat_app. cbn. by rewrite app_nil_r, !app_assoc.
Qed.

(** *** Packets from a transport *)

(** The operation completes in a state that satisfies the invariant. *)
Definition safe (o : outcome sys) : Prop := exists w', o = Done w' /\ winv w' /\ locked w' = false.

Lemma send_packet_ok w t m : t <> NULL -> send_packet w t m = Done (put_sent w (sent w ++ [(t, m)])).
Proof. intros Ht. unfold send_packet. by rewrite (proj2 (Nat.eqb_neq _ _) Ht). Qed.

Lemma send_safe w t m : winv w -> locked w = false -> t <> NULL -> safe (send_packet w t m).
Proof. intros HI Hl Ht. rewrite send_packet_ok by done. eexists. by split_and!. Qed.

Lemma close_safe_any w p s :
  winv w -> locked w = false -> socks w !! p = Some s -> enqueue s = local_enqueue -> safe (close_socket w p).
Proof.
  intros HI Hl Hp He. destruct (do_close_local 4 w p s HI Hl Hp He) as (w' & E & [R1 (R2 & _) _ _]).
  exists w'. split_and!; [exact E|done|congruence].
Qed.

Lemma disconnects_safe w t :
  winv w -> locked w = false ->
  exists w', run_transport_disconnects w t = Done w' /\ winv w' /\ locked w' = false /\
    disc_list w' t = [] /\ transports w' = transports w.
Proof. intros HI Hl. unfold run_transport_disconnects. by apply run_from_spec. Qed.

Lemma go_offline_safe w t :
  winv w -> locked w = false -> is_Some (transports w !! t) ->
  exists w', go_offline w t = Done w' /\ winv w' /\ locked w' = false /\
    disc_list w' t = [] /\ is_Some (transports w' !! t).
Proof.
  intros HI Hl [i Hi]. unfold go_offline, put_state. rewrite Hi. cbn [deref mbind outcome_bind].
  destruct (disconnects_safe (put_transports w (<[t := mk_tinfo CS_OFFLINE (product i)]> (transports w))) t)
    as (w' & E & H1 & H2 & H3 & H4); [done|done|].
  exists w'. split_and!; auto. rewrite H4. cbn. rewrite lookup_insert_eq. eauto.
Qed.

(** Connecting a local socket to a new remote one and resuming it. *)
Lemma attach_remote w s x i t q w' :
  winv w -> locked w = false -> t <> NULL -> socks w !! s = Some x -> enqueue x = local_enqueue ->
  peer x = NULL -> closing x = false -> create_remote_socket w i t = (q, w') ->
  q <> s /\ winv (put (put w' s (set_peer x q)) q (set_peer (mk_sock i false NULL 0 0 [] remote_enqueue
    remote_ready remote_close t) s)) /\
  socks w' !! s = Some x /\ locked w' = false /\
  socks (put w' s (set_peer x q)) !! q
    = Some (mk_sock i false NULL 0 0 [] remote_enqueue remote_ready remote_close t).
Proof.
  intros HI Hl Ht Hs He Hpe Hcl Hcr.
  destruct (create_remote_spec w i t q w' HI Ht Hcr) as (-> & HI' & Hl' & _ & Hso).
  assert (brk w <> s) as Hne.
  { pose proof (si_alloc _ _ _ _ _ HI s (mk_is_Some _ _ (shapes_lookup _ _ _ Hs))). lia. }
  assert (socks w' !! s = Some x) as Hs' by (rewrite Hso; by rewrite lookup_insert_ne).
  assert (socks w' !! brk w = Some (mk_sock i false NULL 0 0 [] remote_enqueue remote_ready remote_close t)) as Hq
    by (rewrite Hso; apply lookup_insert_eq).
  split_and!; auto.
  - by apply connect_spec.
  - congruence.
  - cbn. by rewrite lookup_insert_ne.
Qed.

Lemma on_okay_safe w t m : winv w -> locked w = false -> t <> NULL -> safe (on_okay w t m).
Proof.
  intros HI Hl Ht. unfold on_okay.
  destruct (find_local_spec w (Packet.arg1 m) HI Hl) as (s & -> & [->|(x & Hs & Hn & He & Hc & _)]);
    cbn [mbind outcome_bind]; [rewrite Nat.eqb_refl; by exists w|].
  rewrite (proj2 (Nat.eqb_neq _ _) Hn), (get_Some _ _ _ Hs). cbn [mbind outcome_bind].
  destruct (Nat.eqb_spec (peer x) NULL) as [E|Hne].
  - destruct (create_remote_socket w (Packet.arg0 m) t) as [q w1] eqn:Hcr.
    destruct (attach_remote w s x _ t q w1 HI Hl Ht Hs He E Hc Hcr) as (Hq & HI2 & Hs1 & Hl1 & Hq1).
    rewrite (modify_Some _ _ _ _ Hs1). cbn [mbind outcome_bind]. rewrite (modify_Some _ _ _ _ Hq1).
    cbn [mbind outcome_bind].
    edestruct (do_ready_local _ s (set_peer x q) HI2) as (w3 & s3 & -> & HI3 & Hl3 & _);
      [cbn; rewrite lookup_insert_ne by done; apply lookup_insert_eq|done|].
    exists w3. split_and!; try done. by rewrite Hl3.
  - cbn [mbind outcome_bind]. destruct (do_ready_local w s x HI Hs He) as (w3 & s3 & -> & HI3 & Hl3 & _).
    exists w3. split_and!; try done. congruence.
Qed.

Lemma on_clse_safe w m : winv w -> locked w = false -> safe (on_clse w m).
Proof.
  intros HI Hl. unfold on_clse.
  destruct (find_local_spec w (Packet.arg1 m) HI Hl) as (s & -> & [->|(x & Hs & Hn & He & Hc & _)]);
    cbn [mbind outcome_bind]; [rewrite Nat.eqb_refl; by exists w|].
  rewrite (proj2 (Nat.eqb_neq _ _) Hn). by apply (close_safe_any w s x).
Qed.

Lemma on_wrte_safe `{Services} w t p : winv w -> locked w = false -> t <> NULL -> safe (on_wrte w t p).
Proof.
  intros HI Hl Ht. unfold on_wrte.
  destruct (find_local_spec w (Packet.arg1 (Packet.msg p)) HI Hl) as (s & -> & [->|(x & Hs & Hn & He & Hc & _)]);
    cbn [mbind outcome_bind]; [rewrite Nat.eqb_refl; by exists w|].
  rewrite (proj2 (Nat.eqb_neq _ _) Hn). unfold do_enqueue. rewrite (get_Some _ _ _ Hs). cbn [mbind outcome_bind].
  rewrite He.
  destruct (local_enqueue_spec w s x (take (Z.to_nat (Packet.data_length (Packet.msg p))) (Packet.data p)) HI Hl Hs He)
    as (r & w1 & -> & HI1 & Hl1 & _ & Hcase). cbn [mbind outcome_bind].
  destruct (Z.eqb_spec r 0) as [->|Hr]; [|by exists w1].
  destruct Hcase as [(s' & Hso & _)|[[=] _]].
  rewrite (get_Some w1 s s') by (rewrite Hso; apply lookup_insert_eq). cbn [mbind outcome_bind].
  by apply send_safe.
Qed.

Lemma cstring_total (l : bytes) : 0 ∈ l -> exists t, cstring l = Some t.
Proof.
  induction l as [|b l IH]; intros H; [by apply not_elem_of_nil in H|]. cbn [cstring].
  destruct (Z.eqb_spec b 0) as [|Hb]; [eauto|].
  apply elem_of_cons in H as [H|H]; [done|]. destruct (IH H) as (t & ->). cbn. eauto.
Qed.

Lemma on_open_safe `{Services} HOST w t p :
  winv w -> locked w = false -> t <> NULL ->
  0 <= Packet.data_length (Packet.msg p) <= Z.of_nat (length (Packet.data p)) ->
  (0 < length (Packet.data p))%nat -> (forall name, open_name p = Done name -> jdwp_service HOST name = false) ->
  safe (on_open HOST w t p).
Proof.
  intros HI Hl Ht Hd Hlen Hname. unfold on_open. unfold open_name in *.
  set (k := Z.to_nat _) in *. assert (k < length (Packet.data p))%nat as Hk.
  { unfold k. rewrite Z.gtb_ltb. destruct (Z.ltb_spec 0 (Packet.data_length (Packet.msg p))); lia. }
  unfold store in *. rewrite decide_True in * by done. cbn [deref mbind outcome_bind] in *.
  destruct (cstring_total (<[k := 0]> (Packet.data p))) as (name & Ename).
  { apply list_elem_of_lookup. exists k. by apply list_lookup_insert_eq. }
  rewrite Ename in *. cbn [deref mbind outcome_bind] in *. unfold create_local_service_socket. rewrite (Hname name eq_refl).
  destruct (service_to_fd name <? 0); cbn [mbind outcome_bind].
  { rewrite Nat.eqb_refl. by apply send_safe. }
  destruct (create_local_spec w (service_to_fd name) HI Hl) as (w1 & -> & HI1 & Hl1 & _ & Hb1 & Hso).
  cbn [mbind outcome_bind]. rewrite (proj2 (Nat.eqb_neq (brk w) NULL)) by (pose proof (si_brk _ _ _ _ _ HI); lia).
  destruct (create_remote_socket w1 (Packet.arg0 (Packet.msg p)) t) as [q w2] eqn:Hcr.
  assert (socks w1 !! brk w = Some (mk_sock (local_socket_next_id w) false NULL 0 (service_to_fd name) []
            local_enqueue local_ready local_close NULL)) as Hs1 by (rewrite Hso; apply lookup_insert_eq).
  destruct (attach_remote w1 (brk w) _ _ t q w2 HI1 Hl1 Ht Hs1 eq_refl eq_refl eq_refl Hcr)
    as (Hq & HI2 & Hs2 & Hl2 & Hq2).
  rewrite (modify_Some _ _ _ _ Hs2). cbn [mbind outcome_bind]. rewrite (modify_Some _ _ _ _ Hq2).
  cbn [mbind outcome_bind]. erewrite (get_Some _ (brk w)) by (cbn; rewrite lookup_insert_ne by done; apply lookup_insert_eq).
  cbn [mbind outcome_bind]. erewrite (get_Some _ q) by (cbn; apply lookup_insert_eq). cbn [mbind outcome_bind].
  unfold send_ready. rewrite send_packet_ok by done. cbn [mbind outcome_bind].
  match goal with |- safe (do_ready ?u _) =>
    edestruct (do_ready_local u (brk w)) as (w3 & s3 & -> & HI3 & Hl3 & _) end.
  - exact HI2.
  - cbn. rewrite lookup_insert_ne by done. apply lookup_insert_eq.
  - done.
  - exists w3. split_and!; try done. by rewrite Hl3.
Qed.

Lemma handle_packet_safe_any `{Services} HOST banner w t p :
  winv w -> locked w = false -> t <> NULL -> is_Some (transports w !! t) ->
  0 <= Packet.data_length (Packet.msg p) <= Z.of_nat (length (Packet.data p)) ->
  (0 < length (Packet.data p))%nat ->
  (Packet.command (Packet.msg p) = Packet.A_CNXN -> 0 ∈ Packet.data p) ->
  (Packet.command (Packet.msg p) = Packet.A_OPEN -> forall name, open_name p = Done name -> jdwp_service HOST name = false) ->
  safe (handle_packet HOST banner w t p).
Proof.
  intros HI Hl Ht Htr Hd Hlen Hban Hname. pose proof Htr as [i Hi]. unfold handle_packet. rewrite Hi.
  cbn [deref mbind outcome_bind].
  destruct (Packet.command (Packet.msg p) =? Packet.A_SYNC).
  { destruct (negb (Packet.arg0 (Packet.msg p) =? 0)).
    - rewrite send_packet_ok by done. cbn [mbind outcome_bind].
      destruct HOST; [by apply send_safe|]. eexists. by split_and!.
    - destruct (go_offline_safe w t HI Hl Htr) as (w1 & -> & HI1 & Hl1 & _). cbn [mbind outcome_bind].
      by apply send_safe. }
  destruct (Z.eqb_spec (Packet.command (Packet.msg p)) Packet.A_CNXN) as [Hc|_].
  { assert (exists w1, (if negb (connection_state i =? CS_OFFLINE) then go_offline w t else Done w) = Done w1 /\
      winv w1 /\ locked w1 = false /\ is_Some (transports w1 !! t)) as (w1 & -> & HI1 & Hl1 & [j Hj]).
    { destruct (negb _); [|by exists w]. destruct (go_offline_safe w t HI Hl Htr) as (w1 & ? & ? & ? & _ & ?).
      by exists w1. }
    cbn [mbind outcome_bind]. destruct (cstring_total (Packet.data p) (Hban Hc)) as (text & ->).
    cbn [deref mbind outcome_bind]. rewrite Hj. cbn [deref mbind outcome_bind].
    destruct HOST; [eexists; by split_and!|]. by apply send_safe. }
  destruct (negb (negb (connection_state i =? CS_OFFLINE))); [by exists w|].
  destruct (Z.eqb_spec (Packet.command (Packet.msg p)) Packet.A_OPEN); [by apply on_open_safe; auto|].
  destruct (_ =? Packet.A_OKAY); [by apply on_okay_safe|].
  destruct (_ =? Packet.A_CLSE); [by apply on_clse_safe|].
  destruct (_ =? Packet.A_WRTE); [by apply on_wrte_safe|]. by exists w.
Qed.

(** *** Smart sockets *)

Lemma winv_socks w w' :
  winv w -> socks w' = socks w -> local_socket_list w' = local_socket_list w ->
  local_socket_closing_list w' = local_socket_closing_list w -> disconnects w' = disconnects w ->
  brk w' = brk w -> winv w'.
Proof. unfold winv. by intros HI -> -> -> -> ->. Qed.

(** A smart socket and its peer: both alive, the peer local and not notifying. *)
Record smart_pair (w : sys) (p : ptr) (s : asocket) (q : asocket) : Prop := {
  sp_inv : winv w;
  sp_lock : locked w = false;
  sp_smart : socks w !! p = Some s /\ enqueue s = smart_enqueue /\ peer s <> NULL;
  sp_peer : socks w !! peer s = Some q /\ enqueue q = local_enqueue /\ peer q = p /\
            peer s <> p /\ closing q = false
}.

Lemma smart_pair_ok w p s :
  winv w -> locked w = false -> socks w !! p = Some s -> enqueue s = smart_enqueue -> peer s <> NULL ->
  exists q, smart_pair w p s q.
Proof.
  intros HI Hl Hp He Hne. destruct (winv_peer w p s HI Hp Hne) as (q & Hq & Hqp & Hpp & Hloc & _).
  exists q. split; auto. destruct Hloc as [|Heq]; [congruence|]. split_and!; auto.
  destruct (winv_peer w (peer s) q HI Hq) as (_ & _ & _ & _ & _ & _ & ?); [|done].
  rewrite Hqp. by apply (winv_nonnull w p s).
Qed.

(** The result of an enqueue as its caller, the socket [p], relies on it: an
    error return, or [p] is still there. *)
Definition enqueue_ok (o : outcome (Z * sys)) (p : ptr) : Prop :=
  exists r w', o = Done (r, w') /\ winv w' /\ locked w' = false /\
    (r < 0 \/ exists s, socks w' !! p = Some s /\ enqueue s = local_enqueue).

Lemma smart_fail_ok w p s r :
  winv w -> locked w = false -> socks w !! p = Some s -> enqueue s = smart_enqueue ->
  enqueue_ok (smart_fail w p) r.
Proof.
  intros HI Hl Hp He. unfold smart_fail, close_socket. change close_fuel with 8%nat.
  destruct (do_close_smart 4 w p s HI Hl Hp He) as (w' & -> & [R1 (R2 & _) _ _]). cbn [mbind outcome_bind].
  exists (-1), w'. split_and!; [done|done|congruence|by left].
Qed.

Lemma smart_fail_msg_ok w p s r i m :
  winv w -> locked w = false -> socks w !! p = Some s -> enqueue s = smart_enqueue ->
  enqueue_ok (smart_fail (sendfailmsg w i m).2 p) r.
Proof.
  intros HI Hl Hp He. destruct (sendfailmsg_chans w i m) as (c & -> & _). by apply (smart_fail_ok _ p s).
Qed.

(** Detaching a smart socket that hands its peer over: the shapes it leaves. *)
Lemma handover_inv w p s q q' :
  smart_pair w p s q -> enqueue q' = local_enqueue -> closing q' = false -> peer q' = NULL ->
  handlers_ok (shape_of q') ->
  winv (put (put w (peer s) q') p (set_peer s NULL)).
Proof.
  intros [HI Hl (Hp & He & Hne) (Hq & Heq & Hqp & Hpp & Hcl)] E1 E2 E3 Hh.
  pose proof (cut_inv w p s (peer s) q HI Hp eq_refl Hne Hq) as HI1.
  assert (winv (put (cut w p s (peer s) q) (peer s) q')) as HI2.
  { unfold winv. cbn. rewrite fmap_insert.
    apply (inv_update _ _ _ _ _ (peer s) (shape_of (set_peer q NULL))); cbn; auto; try congruence; try done.
    rewrite lookup_fmap, lookup_insert_ne by done. by rewrite lookup_insert_eq. }
  eapply winv_socks; [exact HI2|..]; try done. cbn.
  by rewrite (insert_insert_ne _ (peer s) p), insert_insert_eq by done.
Qed.

Lemma smart_remote_ok w p s q text :
  smart_pair w p s q -> (length text <= 1024)%nat ->
  (transport s = NULL \/ is_Some (transports w !! transport s)) ->
  enqueue_ok (smart_remote w p text) (peer s).
Proof.
  intros HP Hlen Htr. pose proof HP as [HI Hl (Hp & He & Hne) (Hq & Heq & Hqp & Hpp & Hcl)].
  unfold smart_remote. rewrite (get_Some _ _ _ Hp). cbn [mbind outcome_bind]. rewrite (get_Some _ _ _ Hq).
  cbn [mbind outcome_bind].
  destruct (Nat.eqb_spec (transport s) NULL) as [E|Hnt]; cbn [mbind outcome_bind];
    [by apply (smart_fail_msg_ok w p s)|].
  destruct Htr as [|[i Hi]]; [done|]. rewrite Hi. cbn [deref mbind outcome_bind].
  destruct (connection_state i =? CS_OFFLINE); [by apply (smart_fail_msg_ok w p s)|].
  rewrite (modify_Some _ _ _ _ Hq). cbn [mbind outcome_bind].
  set (q' := set_transport (set_peer (set_handlers q local_ready_notify local_close_notify) NULL) (transport s)).
  unfold connect_to_remote. rewrite (get_Some _ (peer s) q') by apply lookup_insert_eq. cbn [mbind outcome_bind].
  rewrite Z.gtb_ltb. destruct (Z.ltb_spec (Packet.MAX_PAYLOAD - 1) (Z.of_nat (length text) + 1)) as [H|_].
  { unfold Packet.MAX_PAYLOAD in H. lia. }
  rewrite send_packet_ok by done. cbn [mbind outcome_bind].
  rewrite (modify_Some _ p s) by (cbn; by rewrite lookup_insert_ne). cbn [mbind outcome_bind].
  assert (handlers_ok (shape_of q')) as Hh by (unfold handlers_ok; cbn; rewrite Heq; by right).
  pose proof (handover_inv w p s q q' HP Heq Hcl eq_refl Hh) as HI2.
  unfold close_socket. change close_fuel with 8%nat.
  pose proof (winv_handlers w p s HI Hp) as Hhs. unfold handlers_ok in Hhs. cbn in Hhs. rewrite He in Hhs.
  rewrite (do_close_smart_alone 7 _ p (set_peer s NULL)); [|apply lookup_insert_eq|done|apply Hhs].
  cbn [mbind outcome_bind]. eexists 1, _. split; [reflexivity|]. split_and!; [|done|].
  - pose proof (kill_inv _ p (set_peer s NULL) HI2 ltac:(apply lookup_insert_eq) eq_refl) as H.
    unfold kill in H. cbn [enqueue set_peer] in H. rewrite He in H. exact H.
  - right. exists q'. split; [|done]. cbn. rewrite lookup_delete_ne, lookup_insert_ne by done. apply lookup_insert_eq.
Qed.

Lemma set_transport_inv w p s t :
  winv w -> socks w !! p = Some s -> enqueue s <> remote_enqueue -> winv (put w p (set_transport s t)).
Proof.
  intros HI Hp He. unfold winv. cbn. rewrite fmap_insert.
  apply (inv_update _ _ _ _ _ p (shape_of s)); auto; try done.
  - by apply shapes_lookup.
  - pose proof (winv_handlers w p s HI Hp) as Hh. unfold handlers_ok in *. cbn in *. by destruct (enqueue s).
Qed.

(** Binding the client of a smart socket to the socket of a new host service. *)
Lemma bind_inv w p s q s2 x :
  smart_pair w p s q -> socks w !! s2 = Some x -> enqueue x = local_enqueue -> close x = local_close ->
  peer x = NULL -> closing x = false -> s2 <> p -> s2 <> peer s ->
  winv (put (put (put w (peer s) (set_peer (set_handlers q local_ready local_close) s2))
              s2 (set_peer x (peer s))) p (set_peer s NULL)).
Proof.
  intros HP Hx Hex Hcx Hpx Hclx N1 N2. pose proof HP as [HI Hl (Hp & He & Hne) (Hq & Heq & Hqp & Hpp & Hcl)].
  assert (handlers_ok (shape_of (set_peer (set_handlers q local_ready local_close) NULL))) as Hh
    by (unfold handlers_ok; cbn; rewrite Heq; by left).
  pose proof (handover_inv w p s q (set_peer (set_handlers q local_ready local_close) NULL) HP Heq Hcl eq_refl Hh) as HI1.
  eapply winv_socks; [apply (connect_spec _ (peer s) s2
    (set_peer (set_handlers q local_ready local_close) NULL) x HI1)|..]; try done.
  - cbn. rewrite lookup_insert_ne by done. apply lookup_insert_eq.
  - cbn. by rewrite !lookup_insert_ne by done.
  - cbn. congruence.
  - cbn. rewrite (insert_insert_ne _ (peer s) p), insert_insert_eq by done.
    rewrite (insert_insert_ne _ s2 p) by done. done.
Qed.

Lemma smart_host_ok `{HS : Services} `{!ServicesSpec HS} w p s q service ttype serial :
  smart_pair w p s q -> enqueue_ok (smart_host w p service ttype serial) (peer s).
Proof.
  intros HP. pose proof HP as [HI Hl (Hp & He & Hne) (Hq & Heq & Hqp & Hpp & Hcl)].
  unfold smart_host. rewrite (get_Some _ _ _ Hp). cbn [mbind outcome_bind]. rewrite (get_Some _ _ _ Hq).
  cbn [mbind outcome_bind].
  destruct (handle_host_request_spec w service ttype serial (fd q) p s Hp) as (t & c & E).
  destruct (handle_host_request w service ttype serial (fd q) p) as [r w1]. cbn [snd] in E.
  set (s1 := set_transport s t) in E.
  assert (winv w1) as HI1 by (subst w1; apply (set_transport_inv w p s t HI Hp); congruence).
  assert (socks w1 !! p = Some s1) as Hp1 by (subst w1; apply lookup_insert_eq).
  assert (socks w1 !! peer s1 = Some q) as Hq1 by (subst w1; cbn; by rewrite lookup_insert_ne).
  assert (locked w1 = false) as Hl1 by (by subst w1).
  destruct (r =? 0); [by apply (smart_fail_ok w1 p s1)|].
  destruct (strip_prefix (bs "transport") service).
  { rewrite (modify_Some _ _ _ _ Hp1). cbn [mbind outcome_bind]. eexists 0, _. split; [reflexivity|].
    split_and!; [by apply (winv_upd w1 p s1)|done|]. right. exists q.
    split; [|done]. cbn. by rewrite lookup_insert_ne. }
  destruct (host_service_to_fd service serial <? 0); [by apply (smart_fail_msg_ok w1 p s1)|].
  destruct (create_local_spec w1 (host_service_to_fd service serial) HI1 Hl1) as (w2 & -> & HI2 & Hl2 & _ & _ & Hso).
  cbn [mbind outcome_bind]. unfold write_once.
  destruct (chan_write_chans w2 (fd q) (bs "OKAY")) as (r2 & c2 & ->). cbn [snd].
  assert (forall a x, socks w1 !! a = Some x -> brk w1 <> a) as Hfresh.
  { intros a x Ha. pose proof (si_alloc _ _ _ _ _ HI1 a (mk_is_Some _ _ (shapes_lookup _ _ _ Ha))). lia. }
  pose proof (Hfresh _ _ Hp1) as Np. pose proof (Hfresh _ _ Hq1) as Nq. change (peer s1) with (peer s) in Nq.
  set (x := mk_sock _ _ _ _ _ _ _ _ _ _) in Hso.
  assert (smart_pair (put_chans w2 c2) p s1 q) as HP2.
  { split; [done|done| |].
    - cbn. rewrite Hso, lookup_insert_ne by done. done.
    - cbn. rewrite Hso, lookup_insert_ne by done. done. }
  assert (socks (put_chans w2 c2) !! brk w1 = Some x) as Hx2 by (cbn; rewrite Hso; apply lookup_insert_eq).
  pose proof (bind_inv _ p s1 q (brk w1) x HP2 Hx2 eq_refl eq_refl eq_refl eq_refl Np Nq) as HI3.
  pose proof HP2 as [_ _ (Hp2 & _) (Hq2 & _)]. change (peer s1) with (peer s) in *.
  rewrite (get_Some _ _ _ Hp2). cbn [mbind outcome_bind]. change (peer s1) with (peer s).
  rewrite (modify_Some _ _ _ _ Hq2). cbn [mbind outcome_bind].
  rewrite (modify_Some _ (brk w1) x) by (cbn; rewrite lookup_insert_ne by done; exact Hx2). cbn [mbind outcome_bind].
  rewrite (modify_Some _ p s1) by (cbn; rewrite !lookup_insert_ne by done; exact Hp2). cbn [mbind outcome_bind].
  unfold close_socket. change close_fuel with 8%nat.
  pose proof (winv_handlers w p s HI Hp) as Hhs. unfold handlers_ok in Hhs. cbn in Hhs. rewrite He in Hhs.
  rewrite (do_close_smart_alone 7 _ p (set_peer s1 NULL)); [|apply lookup_insert_eq|done|apply Hhs].
  cbn [mbind outcome_bind].
  pose proof (kill_inv _ p (set_peer s1 NULL) HI3 ltac:(apply lookup_insert_eq) eq_refl) as HI4.
  unfold kill in HI4. change (enqueue (set_peer s1 NULL)) with (enqueue s) in HI4. rewrite He in HI4.
  edestruct (do_ready_local _ (brk w1) (set_peer x (peer s)) HI4) as (w5 & s5 & E5 & HI5 & Hl5 & _ & _ & Hso5 & _);
    [cbn; rewrite lookup_delete_ne, lookup_insert_ne by done; apply lookup_insert_eq|done|].
  rewrite E5. cbn [mbind outcome_bind]. exists 0, w5. split_and!; [done|done|by rewrite Hl5|].
  right. eexists. rewrite Hso5. cbn.
  rewrite lookup_insert_ne, lookup_delete_ne, lookup_insert_ne, lookup_insert_ne by done.
  rewrite lookup_insert_eq. done.
Qed.

Lemma cstring_length (l t : bytes) : cstring l = Some t -> (length t < length l)%nat.
Proof.
  revert t. induction l as [|b l IH]; intros t; cbn [cstring]; [done|].
  destruct (b =? 0); [intros [= <-]; cbn; lia|]. destruct (cstring l) as [u|]; [|done].
  intros [= <-]. specialize (IH u eq_refl). cbn. lia.
Qed.

Lemma smart_enqueue_ok `{HS : Services} `{!ServicesSpec HS} w p s d :
  winv w -> locked w = false -> socks w !! p = Some s -> enqueue s = smart_enqueue -> peer s <> NULL ->
  (transport s = NULL \/ is_Some (transports w !! transport s)) ->
  enqueue_ok (smart_socket_enqueue w p d) (peer s).
Proof.
  intros HI Hl Hp He Hne Htr. unfold smart_socket_enqueue. rewrite (get_Some _ _ _ Hp). cbn [mbind outcome_bind].
  assert (forall buf,
    enqueue_ok (if (length buf <? 4)%nat then Done (0, put w p (set_queue s [buf]))
      else let len := unhex buf 4 0 in
        if (len <? 1) || (len >? 1024) then smart_fail (put w p (set_queue s [buf])) p
        else if u32 (len + 4) >? Z.of_nat (length buf) then Done (0, put w p (set_queue s [buf]))
        else text ← deref "string" (cstring (take (Z.to_nat len) (drop 4 buf) ++ [0]));
          match parse_service text with
          | (Some service, ttype, serial) => smart_host (put w p (set_queue s [buf])) p service ttype serial
          | (None, _, _) => smart_remote (put w p (set_queue s [buf])) p text
          end) (peer s)) as Hrest.
  { intros buf. set (s1 := set_queue s [buf]). set (w1 := put w p s1).
    assert (winv w1) as HI1 by (by apply (winv_upd w p s)).
    assert (socks w1 !! p = Some s1) as Hp1 by apply lookup_insert_eq.
    destruct (smart_pair_ok w1 p s1 HI1 Hl Hp1 He Hne) as (q & HP).
    assert (enqueue_ok (Done (0, w1)) (peer s)) as Hwait.
    { exists 0, w1. split_and!; try done. right. exists q. destruct HP as [_ _ _ (Hq & Heq & _)]. done. }
    destruct (length buf <? 4)%nat; [done|]. cbv zeta. set (len := unhex buf 4 0).
    rewrite Z.gtb_ltb. destruct (Z.ltb_spec len 1); cbn [orb]; [by apply (smart_fail_ok w1 p s1)|].
    destruct (Z.ltb_spec 1024 len); [by apply (smart_fail_ok w1 p s1)|].
    destruct (u32 (len + 4) >? Z.of_nat (length buf)); [done|].
    destruct (cstring_total (take (Z.to_nat len) (drop 4 buf) ++ [0])) as (text & Htext).
    { apply elem_of_app. right. by left. }
    rewrite Htext. cbn [deref mbind outcome_bind].
    apply cstring_length in Htext. rewrite length_app, length_take in Htext. cbn in Htext.
    destruct (parse_service text) as [[[service|] ttype] serial].
    - by apply (smart_host_ok w1 p s1 q).
    - apply (smart_remote_ok w1 p s1 q); [done|lia|done]. }
  destruct (queue s) as [|first l].
  - rewrite (modify_Some _ _ _ _ Hp). cbn [mbind outcome_bind]. apply Hrest.
  - destruct (_ >? _); cbn [mbind outcome_bind]; [by apply (smart_fail_ok w p s)|].
    rewrite (modify_Some _ _ _ _ Hp). cbn [mbind outcome_bind]. apply Hrest.
Qed.

(** *** The event handler of a local socket *)

Lemma drain_spec l : forall w p s,
  socks w !! p = Some s -> queue s = l ->
  exists st l' c, drain (length l) w p (fd s) = Done (st, put_chans (put w p (set_queue s l')) c) /\
    (st = Drained -> l' = []) /\
    written (chan_of (put_chans w c) (fd s)) ++ concat l' = stream w s.
Proof.
  induction l as [|d l IH]; intros w p s Hp Hq; cbn [drain length]; rewrite (get_Some _ _ _ Hp);
    cbn [mbind outcome_bind]; rewrite Hq.
  { exists Drained, [], (chans w). rewrite (put_chans_id w).
    assert (put w p (set_queue s []) = w) as ->.
    { unfold put, put_socks. rewrite insert_id; [by destruct w|]. rewrite Hp. f_equal. destruct s. cbn in *. by subst. }
    rewrite put_chans_id. split_and!; try done. unfold stream. by rewrite Hq. }
  destruct (write_some true (write_fuel w (fd s)) w (fd s) d) as [[st rest] w1] eqn:Hw.
  destruct (write_some_spec _ _ _ _ _ _ _ _ Hw) as ((c & ->) & Hb & Hst).
  assert (written (chan_of (put_chans w c) (fd s)) ++ rest ++ concat l = stream w s) as Hstr.
  { rewrite app_assoc, Hb. unfold stream. rewrite Hq. cbn [concat]. by rewrite app_assoc. }
  destruct st.
  - rewrite (modify_Some _ p s) by done. cbn [mbind outcome_bind].
    destruct (IH (put (put_chans w c) p (set_queue s l)) p (set_queue s l)) as (st & l' & c' & E & H1 & H2);
      [apply lookup_insert_eq|done|]. change (fd (set_queue s l)) with (fd s) in E, H2. rewrite E.
    exists st, l', c'. split; [|split; [done|]].
    + do 2 f_equal. unfold put, put_socks, put_chans. cbn. by rewrite insert_insert_eq.
    + etrans; [exact H2|]. rewrite <- Hstr, (proj1 Hst eq_refl). done.
  - rewrite (modify_Some _ p s) by done. cbn [mbind outcome_bind].
    exists Again, (rest :: l), c. by split_and!.
  - rewrite (modify_Some _ p s) by done. cbn [mbind outcome_bind].
    exists Broken, (rest :: l), c. by split_and!.
Qed.

Lemma chan_read_chans w i n : exists r c, chan_read w i n = (r, put_chans w c).
Proof.
  unfold chan_read. destruct (Io.adb_read _ _) as [[r l]|]; eexists _, _; [reflexivity|].
  by rewrite put_chans_id.
Qed.

Lemma read_some_chans n : forall w i avail acc,
  exists d e c, read_some n w i avail acc = (d, e, put_chans w c).
Proof.
  induction n as [|n IH]; intros w i avail acc; destruct avail as [|a]; cbn [read_some];
    try (eexists _, _, (chans w); by rewrite put_chans_id).
  destruct (chan_read_chans w i (S a)) as (r & c & ->).
  destruct r as [d| |[]]; eauto; [destruct (IH (put_chans w c) i (S a - length d)%nat (acc ++ d)) as (? & ? & ? & ->)|
    destruct (IH (put_chans w c) i (S a) acc) as (? & ? & ? & ->)]; eauto.
Qed.

(** What [s->peer] must be for the handler of [p]: remote or smart, and a smart
    socket's transport still registered. *)
Definition peer_ok (w : sys) (s : asocket) : Prop :=
  forall q, socks w !! peer s = Some q -> enqueue q <> local_enqueue /\
    (enqueue q = smart_enqueue -> transport q = NULL \/ is_Some (transports w !! transport q)).

Lemma on_readable_safe `{HS : Services} `{!ServicesSpec HS} w p s i :
  winv w -> locked w = false -> socks w !! p = Some s -> enqueue s = local_enqueue -> peer_ok w s ->
  safe (on_readable w p i).
Proof.
  intros HI Hl Hp He Hpeer. unfold on_readable.
  destruct (read_some_chans (S (length (reads (chan_of w i)))) w i (Z.to_nat Packet.MAX_PAYLOAD) [])
    as (d & e & c & ->).
  set (w1 := put_chans w c). assert (winv w1) as HI1 by done.
  assert (socks w1 !! p = Some s) as Hp1 by done. rewrite (get_Some _ _ _ Hp1). cbn [mbind outcome_bind].
  assert (forall w2 s2, winv w2 -> locked w2 = false -> socks w2 !! p = Some s2 -> enqueue s2 = local_enqueue ->
    safe (if e : bool then close_socket w2 p else Done w2)) as Hend.
  { intros w2 s2 H1 H2 H3 H4. destruct e; [by apply (close_safe_any w2 p s2)|by exists w2]. }
  assert (enqueue_ok (if bool_decide (d = []) || (peer s =? NULL)%nat then Done (0, w1)
                      else do_enqueue w1 (peer s) d) p) as (r & w2 & -> & HI2 & Hl2 & Hr).
  { destruct (bool_decide (d = [])); cbn [orb]; [exists 0, w1; split_and!; eauto|].
    destruct (Nat.eqb_spec (peer s) NULL) as [_|Hne]; [exists 0, w1; split_and!; eauto|].
    destruct (winv_peer w1 p s HI1 Hp1 Hne) as (q & Hq & Hqp & Hpp & _).
    destruct (Hpeer q Hq) as [Hnl Hsm]. unfold do_enqueue. rewrite (get_Some _ _ _ Hq). cbn [mbind outcome_bind].
    pose proof (winv_nonnull w p s HI Hp) as Hpn.
    destruct (enqueue q) eqn:Heq; [done| |].
    - unfold remote_socket_enqueue. rewrite (get_Some _ _ _ Hq). cbn [mbind outcome_bind].
      rewrite Hqp, (get_Some _ _ _ Hp1). cbn [mbind outcome_bind].
      pose proof (winv_handlers w1 _ q HI1 Hq) as Hh. unfold handlers_ok in Hh. cbn in Hh. rewrite Heq in Hh.
      rewrite send_packet_ok by apply Hh. cbn [mbind outcome_bind]. eexists 1, _. split; [reflexivity|].
      split_and!; eauto.
    - rewrite <- Hqp. apply smart_enqueue_ok; auto. congruence. }
  cbn [mbind outcome_bind]. destruct (Z.ltb_spec r 0); [by exists w2|].
  destruct Hr as [|(s2 & Hp2 & He2)]; [lia|].
  destruct (r >? 0); cbn [mbind outcome_bind]; [|by apply (Hend w2 s2)].
  unfold unwant. rewrite (modify_Some _ _ _ _ Hp2). cbn [mbind outcome_bind].
  eapply Hend; [by apply (winv_upd w2 p s2)|done|apply lookup_insert_eq|done].
Qed.

Lemma event_safe `{HS : Services} `{!ServicesSpec HS} w p s ev :
  winv w -> locked w = false -> socks w !! p = Some s -> enqueue s = local_enqueue -> peer_ok w s ->
  (Fdevent.has ev Fdevent.FDE_WRITE = true -> closing s = true \/ peer s <> NULL) ->
  safe (local_socket_event_func w (fd s) ev p).
Proof.
  intros HI Hl Hp He Hpeer Hw. unfold local_socket_event_func.
  destruct (Fdevent.has ev Fdevent.FDE_WRITE); cbn [mbind outcome_bind].
  2:{ cbn [negb]. destruct (Fdevent.has ev Fdevent.FDE_READ); [|by exists w]. by apply (on_readable_safe w p s). }
  unfold on_writable. rewrite (get_Some _ _ _ Hp). cbn [mbind outcome_bind].
  destruct (drain_spec (queue s) w p s Hp eq_refl) as (st & l & c & -> & Hst & _). cbn [mbind outcome_bind].
  set (s1 := set_queue s l). set (w1 := put_chans (put w p s1) c).
  assert (winv w1) as HI1 by (by apply (winv_upd w p s)).
  assert (socks w1 !! p = Some s1) as Hp1 by apply lookup_insert_eq.
  assert (safe (r ← (w2 ← close_socket w1 p; Done (false, w2)); let '(go, w2) := r in
            if negb go then Done w2 else if Fdevent.has ev Fdevent.FDE_READ then on_readable w2 p (fd s) else Done w2))
    as Hclose.
  { destruct (close_safe_any w1 p s1 HI1 Hl Hp1 He) as (w2 & -> & H2). by exists w2. }
  destruct st; [|by exists w1|exact Hclose].
  rewrite (get_Some _ _ _ Hp1). cbn [mbind outcome_bind]. change (closing s1) with (closing s).
  destruct (closing s) eqn:Hc; [exact Hclose|].
  destruct (Hw eq_refl) as [|Hne]; [done|].
  unfold unwant. rewrite (modify_Some _ _ _ _ Hp1). cbn [mbind outcome_bind].
  set (s2 := set_wants s1 _). set (w2 := put w1 p s2).
  assert (winv w2) as HI2 by (by apply (winv_upd w1 p s1)).
  assert (socks w2 !! p = Some s2) as Hp2 by apply lookup_insert_eq.
  destruct (winv_peer w2 p s2 HI2 Hp2 Hne) as (q & Hq & Hqp & Hpp & _).
  assert (socks w !! peer s = Some q) as Hq0.
  { cbn in Hq. change (peer s2) with (peer s) in *. by rewrite !lookup_insert_ne in Hq by done. }
  destruct (Hpeer q Hq0) as [Hnl Hsm]. change (peer s1) with (peer s). change (peer s2) with (peer s) in *.
  unfold do_ready. rewrite (get_Some _ _ _ Hq). cbn [mbind outcome_bind].
  pose proof (winv_handlers w2 _ q HI2 Hq) as Hh. unfold handlers_ok in Hh. cbn in Hh.
  assert (forall w3, winv w3 -> locked w3 = false -> socks w3 = socks w2 -> transports w3 = transports w ->
    safe (if negb true then Done w3 else if Fdevent.has ev Fdevent.FDE_READ then on_readable w3 p (fd s) else Done w3)) as Hgo.
  { intros w3 H1 H2 H3 H4. cbn [negb]. destruct (Fdevent.has ev Fdevent.FDE_READ); [|by exists w3].
    apply (on_readable_safe w3 p s2); try done; [by rewrite H3|].
    intros q' Hq'. rewrite H3 in Hq'. change (peer s2) with (peer s) in Hq'. rewrite Hq in Hq'.
    injection Hq' as <-. rewrite H4. done. }
  destruct (enqueue q) eqn:Heq; [done| |].
  - destruct Hh as (-> & _ & Htn). rewrite Hqp, (get_Some _ _ _ Hp2). cbn [mbind outcome_bind].
    rewrite send_packet_ok by done. cbn [mbind outcome_bind]. by apply Hgo.
  - destruct Hh as (-> & _). cbn [mbind outcome_bind]. by apply Hgo.
Qed.

(** *** New clients *)

Lemma ss_listener_safe w ev i :
  winv w -> locked w = false -> safe (ss_listener_event_func w ev i).
Proof.
  intros HI Hl. unfold ss_listener_event_func. destruct (Fdevent.has ev Fdevent.FDE_READ); [|by exists w].
  destruct (i <? 0); [by exists w|].
  destruct (create_local_spec w i HI Hl) as (w1 & -> & HI1 & Hl1 & _ & Hb1 & Hso). cbn [mbind outcome_bind].
  unfold connect_to_smartsocket, create_smart_socket, malloc.
  set (x := mk_sock _ _ _ _ i _ _ _ _ _) in Hso.
  set (y := mk_sock 0 false NULL 0 0 [] smart_enqueue smart_ready smart_close NULL).
  set (w2 := put (put_brk w1 (S (brk w1))) (brk w1) y).
  assert (brk w <> brk w1) as Hne by lia.
  assert (winv w2) as HI2.
  { unfold winv. cbn. rewrite fmap_insert. eapply inv_alloc; [exact HI1|..]; try done.
    intros t. destruct (decide _) as [[??]|]; [done|]. by rewrite app_nil_r. }
  assert (socks w2 !! brk w = Some x) as Hx by (cbn; rewrite lookup_insert_ne, Hso by done; apply lookup_insert_eq).
  rewrite (modify_Some _ _ _ _ Hx). cbn [mbind outcome_bind].
  rewrite (modify_Some _ (brk w1) y) by (cbn; rewrite lookup_insert_ne by done; apply lookup_insert_eq).
  cbn [mbind outcome_bind].
  assert (winv (put (put w2 (brk w) (set_peer x (brk w1))) (brk w1) (set_peer y (brk w)))) as HI3
    by (apply connect_spec; try done; apply lookup_insert_eq).
  edestruct (do_ready_local _ (brk w) (set_peer x (brk w1)) HI3) as (w4 & s4 & -> & HI4 & Hl4 & _);
    [cbn; rewrite lookup_insert_ne by done; apply lookup_insert_eq|done|].
  exists w4. split_and!; try done. by rewrite Hl4.
Qed.

Lemma listener_safe w ev i t dest :
  winv w -> locked w = false -> t <> NULL -> (length dest <= 4094)%nat ->
  safe (listener_event_func w ev i t dest).
Proof.
  intros HI Hl Ht Hd. unfold listener_event_func. destruct (Fdevent.has ev Fdevent.FDE_READ); [|by exists w].
  destruct (i <? 0); [by exists w|].
  destruct (create_local_spec w i HI Hl) as (w1 & -> & HI1 & Hl1 & _ & Hb1 & Hso). cbn [mbind outcome_bind].
  set (x := mk_sock _ _ _ _ i _ _ _ _ _) in Hso.
  assert (socks w1 !! brk w = Some x) as Hx by (rewrite Hso; apply lookup_insert_eq).
  rewrite (modify_Some _ _ _ _ Hx). cbn [mbind outcome_bind]. unfold connect_to_remote.
  erewrite get_Some by apply lookup_insert_eq. cbn [mbind outcome_bind].
  rewrite Z.gtb_ltb. destruct (Z.ltb_spec (Packet.MAX_PAYLOAD - 1) (Z.of_nat (length dest) + 1)) as [H|_].
  { unfold Packet.MAX_PAYLOAD in H. lia. }
  apply send_safe; [|done|done]. by apply (set_transport_inv w1 (brk w) x).
Qed.

(** *** Closing everything that uses a transport *)

(** Local socket [p] is bound to transport [t], itself or through its peer. *)
Definition uses (w : sys) (t p : ptr) : Prop :=
  exists s, socks w !! p = Some s /\
    (transport s = t \/ (peer s <> NULL /\ exists q, socks w !! peer s = Some q /\ transport q = t)).

Lemma find_user_spec w t l :
  winv w -> (forall p, p ∈ l -> p ∈ local_socket_list w) ->
  exists p, find_user w l t = Done p /\
    ((p = NULL /\ forall r, r ∈ l -> ~ uses w t r) \/ (p ∈ l /\ p <> NULL)).
Proof.
  intros HI. induction l as [|p l IH]; intros Hin; cbn [find_user].
  { exists NULL. split; [done|]. left. split; [done|]. intros r Hr. by apply not_elem_of_nil in Hr. }
  destruct (proj1 (si_list _ _ _ _ _ HI p)) as (x & Hx & He & Hc); [apply Hin; by left|].
  apply shapes_lookup_inv in Hx as (s & Hs & ->). rewrite (get_Some _ _ _ Hs). cbn [mbind outcome_bind].
  pose proof (winv_nonnull w p s HI Hs) as Hpn.
  destruct IH as (r & Hr & Hres); [intros r Hr; apply Hin; by right|].
  assert (~ uses w t p -> exists p0, find_user w l t = Done p0 /\
    ((p0 = NULL /\ forall r, r ∈ p :: l -> ~ uses w t r) \/ (p0 ∈ p :: l /\ p0 <> NULL))) as Hskip.
  { intros Hno. exists r. split; [done|]. destruct Hres as [[-> Hall]|[Hrl Hrn]]; [left|right].
    - split; [done|]. intros r' [->|Hr']%elem_of_cons; [done|by apply Hall].
    - split; [by right|done]. }
  destruct (Nat.eqb_spec (transport s) t) as [Et|Ht]; [exists p; split; [done|right; split; [by left|done]]|].
  destruct (Nat.eqb_spec (peer s) NULL) as [E|Hne].
  - apply Hskip. intros (s' & Hs' & [?|[? _]]); congruence.
  - destruct (winv_peer w p s HI Hs Hne) as (q & Hq & _). rewrite (get_Some _ _ _ Hq). cbn [mbind outcome_bind].
    destruct (Nat.eqb_spec (transport q) t) as [Et|Htq]; [exists p; split; [done|right; split; [by left|done]]|].
    apply Hskip. intros (s' & Hs' & [?|[_ (q' & Hq' & ?)]]); congruence.
Qed.

Lemma closed_list_shorter w p s w' :
  winv w -> socks w !! p = Some s -> p ∈ local_socket_list w -> closed_rel w p s w' ->
  (length (local_socket_list w') < length (local_socket_list w))%nat.
Proof.
  intros HI Hp Hin [R1 R2 R3 R4].
  assert (p :: local_socket_list w' ⊆+ local_socket_list w) as Hsub.
  2:{ apply submseteq_length in Hsub. cbn in Hsub. lia. }
  assert (forall r, r ∈ local_socket_list w' -> r <> p /\ r ∈ local_socket_list w) as Hl.
  { intros r (x & Hx & He & Hc)%(si_list _ _ _ _ _ R1). apply shapes_lookup_inv in Hx as (y & Hy & ->).
    cbn in He, Hc. destruct (decide (r = p \/ r = peer s)) as [Hr|Hr].
    - destruct (R4 r y Hr Hy). congruence.
    - split; [naive_solver|]. rewrite R3 in Hy by naive_solver. apply (si_list _ _ _ _ _ HI).
      exists (shape_of y). by rewrite (shapes_lookup _ _ _ Hy). }
  apply NoDup_submseteq.
  - apply NoDup_cons. split; [|apply (si_nodup _ _ _ _ _ R1)]. intros Hp'. by destruct (Hl _ Hp').
  - intros r [->|Hr]%elem_of_cons; [done|]. by apply Hl.
Qed.

Lemma close_users_spec n : forall w t,
  winv w -> (length (local_socket_list w) <= n)%nat ->
  exists w', close_users n w t = Done w' /\ winv w' /\ locked w' = locked w /\
    forall r, r ∈ local_socket_list w' -> ~ uses w' t r.
Proof.
  induction n as [|n IH]; intros w t HI Hn; cbn [close_users].
  - destruct (local_socket_list w) eqn:E; [|cbn in Hn; lia]. cbn [find_user mbind outcome_bind].
    rewrite Nat.eqb_refl. exists w. split_and!; try done. rewrite E. intros r Hr. by apply not_elem_of_nil in Hr.
  - destruct (find_user_spec w t (local_socket_list w) HI) as (p & -> & Hp); [done|]. cbn [mbind outcome_bind].
    destruct Hp as [[-> Hall]|[Hp Hpn]]; [rewrite Nat.eqb_refl; by exists w|].
    rewrite (proj2 (Nat.eqb_neq _ _) Hpn).
    destruct (proj1 (si_list _ _ _ _ _ HI p) Hp) as (x & Hx & He & Hc).
    apply shapes_lookup_inv in Hx as (s & Hs & ->). unfold local_socket_close_locked.
    change close_fuel with 8%nat. rewrite (close_locked_spec 6 w p s HI Hs He). cbn [mbind outcome_bind].
    pose proof (closed_state_rel w p s HI Hs) as Hrel.
    pose proof (closed_list_shorter w p s _ HI Hs Hp Hrel). destruct Hrel as [R1 (R2 & _) _ _].
    destruct (IH (closed_state w p s) t R1) as (w' & -> & ? & ? & ?); [lia|].
    exists w'. split_and!; auto. congruence.
Qed.

End invariant.

(** ** Transports that do not take a packet *)

Section stops.
Import Sockets Streams.
Context `{TS : TransportSockets}.
Implicit Types (w : sys) (s l : list (ptr * sent_msg)).

(** The packets [l], sent after those of [s], are all taken. *)
Fixpoint accepted s l : bool :=
  match l with
  | [] => true
  | (t, m) :: l => write_packet_ok s t m && accepted (s ++ [(t, m)]) l
  end.
Definition fatal {A} : outcome A := Stop "cannot enqueue packet on transport socket".

Lemma accepted_app l1 : forall s l2, accepted s (l1 ++ l2) = accepted s l1 && accepted (s ++ l1) l2.
Proof.
  induction l1 as [|[t m] l1 IH]; intros s l2; cbn [app accepted]; [by rewrite app_nil_r|].
  by rewrite IH, <- app_assoc, andb_assoc.
Qed.

(** [m1] is [m2], where every packet is enqueued, up to the first that is not. *)
Definition stopped {A} (st : A -> sys) s (m1 m2 : outcome A) : Prop :=
  match m2 with
  | Done x => exists l, sent (st x) = s ++ l /\ m1 = if accepted s l then Done x else fatal
  | _ => m1 = m2 \/ m1 = fatal
  end.

Lemma stopped_done {A} (st : A -> sys) s x : sent (st x) = s -> stopped st s (Done x) (Done x).
Proof. intros E. exists []. by rewrite app_nil_r. Qed.
Lemma stopped_tail {A} (st : A -> sys) s m : (forall x, m = Done x -> sent (st x) = s) -> stopped st s m m.
Proof. intros Hm. destruct m as [x| |]; [apply stopped_done; by apply Hm|by left..]. Qed.
Lemma stopped_same {A B} (st : B -> sys) s (m : outcome A) f1 f2 :
  (forall x, m = Done x -> stopped st s (f1 x) (f2 x)) -> stopped st s (m ≫= f1) (m ≫= f2).
Proof. intros Hf. destruct m as [x| |]; cbn; [by apply Hf|by left..]. Qed.
Lemma stopped_bind {A B} (sa : A -> sys) (st : B -> sys) s m1 m2 f1 f2 :
  stopped sa s m1 m2 -> (forall x, m2 = Done x -> stopped st (sent (sa x)) (f1 x) (f2 x)) ->
  stopped st s (m1 ≫= f1) (m2 ≫= f2).
Proof.
  intros Hm Hf. destruct m2 as [x| |]; cbn [mbind outcome_bind].
  - destruct Hm as (l & El & ->). specialize (Hf x eq_refl). destruct (accepted s l) eqn:Ea; cbn [mbind outcome_bind].
    + unfold stopped in *. destruct (f2 x) as [y| |]; [|done..]. destruct Hf as (l2 & E2 & ->). exists (l ++ l2).
      rewrite E2, El, accepted_app, Ea, app_assoc. done.
    + unfold stopped in *. destruct (f2 x) as [y| |]; [|by right..]. destruct Hf as (l2 & E2 & _). exists (l ++ l2).
      rewrite E2, El, accepted_app, Ea, app_assoc. done.
  - by destruct Hm as [->| ->]; [left|right].
  - by destruct Hm as [->| ->]; [left|right].
Qed.

(** What sends nothing. *)
Lemma modify_sent w p f w' : modify w p f = Done w' -> sent w' = sent w.
Proof. unfold modify. intros E. apply bind_Done in E as (x & _ & [= <-]). done. Qed.
Lemma lock_sent w w' : mutex_lock w = Done w' -> sent w' = sent w.
Proof. unfold mutex_lock. destruct (locked w); [done|]. by intros [= <-]. Qed.
Lemma want_sent w p ev w' : want w p ev = Done w' -> sent w' = sent w.
Proof. apply modify_sent. Qed.
Lemma remove_sent w p w' : remove_socket w p = Done w' -> sent w' = sent w.
Proof.
  unfold remove_socket. destruct (decide _); [|by intros [= <-]]. intros E. apply bind_Done in E as (x & E & [= <-]).
  by apply modify_sent in E.
Qed.
Lemma destroy_sent w p w' : local_socket_destroy w p = Done w' -> sent w' = sent w.
Proof.
  unfold local_socket_destroy. intros E. apply bind_Done in E as (x & _ & E). apply bind_Done in E as (w1 & E & [= <-]).
  by apply remove_sent in E.
Qed.
Lemma drop_remote_sent w p w' : drop_remote w p = Done w' -> sent w' = sent w.
Proof. unfold drop_remote. intros E. by apply bind_Done in E as (x & _ & [= <-]). Qed.
Lemma chan_writex_sent w i d : sent (chan_writex w i d).2 = sent w.
Proof. unfold chan_writex. by destruct (Io.writex _ _). Qed.
Lemma failmsg_sent w i d : sent (sendfailmsg w i d).2 = sent w.
Proof.
  unfold sendfailmsg. destruct (chan_writex w i _) as [r w1] eqn:E. pose proof (chan_writex_sent w i (bs "FAIL" ++ hex4 (Z.min (Z.of_nat (length d)) 0xffff))) as E1.
  rewrite E in E1. destruct (negb _); [done|]. by rewrite chan_writex_sent.
Qed.
Lemma write_once_sent w i d : sent (write_once w i d) = sent w.
Proof. unfold write_once, chan_write. by destruct (Io.adb_write _ _) as [[[] ?]|]. Qed.
Lemma write_some_sent retry fuel : forall w i d, sent (write_some retry fuel w i d).2 = sent w.
Proof.
  induction fuel as [|fuel IH]; intros w i [|b d]; cbn [write_some]; [done..|].
  unfold chan_write. destruct (Io.adb_write _ _) as [[[] ?]|]; cbn [snd]; try done; [by rewrite IH|].
  destruct e; try done. destruct retry; [by rewrite IH|done].
Qed.
Lemma install_sent w p w' : install_local_socket w p = Done w' -> sent w' = sent w.
Proof.
  unfold install_local_socket. intros E. apply bind_Done in E as (w1 & E1 & E). apply bind_Done in E as (w2 & E2 & [= <-]).
  apply lock_sent in E1. apply modify_sent in E2. cbn. congruence.
Qed.
Lemma create_sent w i r w' : create_local_socket w i = Done (r, w') -> sent w' = sent w.
Proof.
  unfold create_local_socket, malloc. intros E. apply bind_Done in E as (w1 & E & [= <- <-]). by apply install_sent in E.
Qed.
Lemma find_local_sent w i r w' : find_local_socket w i = Done (r, w') -> sent w' = sent w.
Proof.
  unfold find_local_socket. intros E. apply bind_Done in E as (w1 & E1 & E). apply bind_Done in E as (q & _ & [= <- <-]).
  by apply lock_sent in E1.
Qed.
Lemma put_state_sent w t c w' : put_state w t c = Done w' -> sent w' = sent w.
Proof. unfold put_state. intros E. by apply bind_Done in E as (x & _ & [= <-]). Qed.
Lemma service_sent `{Services} HOST w name r w' : create_local_service_socket HOST w name = Done (r, w') -> sent w' = sent w.
Proof.
  unfold create_local_service_socket. destruct (jdwp_service _ _); [done|]. destruct (_ <? 0); [by intros [= <- <-]|]. apply create_sent.
Qed.

Create HintDb stopped.
(** The sends, and everything that leads to one. *)
Lemma send_stopped s w t m : sent w = s -> stopped (fun w => w) s (send_packet w t m) (@send_packet all_enqueued w t m).
Proof.
  intros <-. unfold send_packet. destruct (t =? NULL)%nat; [by left|]. cbn [write_packet_ok all_enqueued]. exists [(t, m)].
  split; [done|]. cbn [accepted]. by destruct (write_packet_ok _ _ _).
Qed.


Ltac sends_nothing E :=
  try first [apply modify_sent in E | apply lock_sent in E | apply want_sent in E | apply remove_sent in E | apply destroy_sent in E
        | apply drop_remote_sent in E | apply create_sent in E | apply find_local_sent in E | apply put_state_sent in E | apply service_sent in E].
Ltac same_sent :=
  cbn [fst snd]; rewrite ?failmsg_sent, ?write_once_sent in *;
  cbn [sent put_socks put_lists put_next_id put_brk put_locked put_disconnects put_transports put_chans put_closed put free
       mutex_unlock remove_transport_disconnect add_transport_disconnect] in *;
  congruence.
#[local] Hint Extern 1 (@eq (list (ptr * sent_msg)) _ _) => same_sent : stopped.
#[local] Hint Resolve send_stopped : stopped.
Ltac walk :=
  match goal with
  | |- stopped _ _ (Done _) (Done _) => apply stopped_done; same_sent
  | |- stopped _ _ (Undef _) (Undef _) => by left
  | |- stopped _ _ (Stop _) (Stop _) => by left
  | |- stopped _ _ (mbind _ (match ?x with _ => _ end)) (mbind _ (match ?x with _ => _ end)) =>
      destruct x eqn:?; cbn [mbind outcome_bind]; walk
  | |- stopped _ _ (mbind _ (Done _)) (mbind _ (Done _)) => cbn [mbind outcome_bind]; walk
  | |- stopped _ _ (mbind _ ?m) (mbind _ ?m) =>
      lazymatch m with mbind _ _ => fail | _ => idtac end;
      let x := fresh "x" in let E := fresh "E" in apply stopped_same; intros x E;
      try match type of x with prod _ _ => destruct x end; cbv beta iota zeta; sends_nothing E; walk
  | |- @stopped ?A ?st ?s (@mbind _ _ ?B ?A ?f1 ?m1) (@mbind _ _ ?B ?A ?f2 ?m2) =>
      let x := fresh "x" in let E := fresh "E" in
      match B with
      | prod _ _ => apply (stopped_bind snd st s m1 m2 f1 f2)
      | _ => apply (stopped_bind (fun w => w) st s m1 m2 f1 f2)
      end;
      [first [solve [eauto with stopped] | walk] | intros x E; try match type of x with prod _ _ => destruct x end; cbn [snd]; cbv beta iota zeta; clear E; walk]
  | |- stopped _ _ ?m ?m =>
      let x := fresh "x" in let E := fresh "E" in apply stopped_tail; intros x E;
      try match type of x with prod _ _ => destruct x end; sends_nothing E; same_sent
  | |- stopped _ _ (match ?x with _ => _ end) (match ?x with _ => _ end) => destruct x eqn:?; walk
  | _ => try solve [eauto with stopped]
  end.

Lemma close_stopped n :
  (forall s w p, sent w = s -> stopped (fun w => w) s (do_close n w p) (@do_close all_enqueued n w p)) /\
  (forall s w p, sent w = s -> stopped (fun w => w) s (close_locked n w p) (@close_locked all_enqueued n w p)).
Proof.
  induction n as [|n [IH1 IH2]]; [by split; left|]. split; intros s w p Es; cbn [do_close close_locked]; walk.
Qed.
Lemma close_socket_stopped s w p : sent w = s -> stopped (fun w => w) s (close_socket w p) (@close_socket all_enqueued w p).
Proof. apply close_stopped. Qed.
Lemma close_locked_stopped s w p : sent w = s ->
  stopped (fun w => w) s (local_socket_close_locked w p) (@local_socket_close_locked all_enqueued w p).
Proof. apply close_stopped. Qed.
#[local] Hint Resolve close_socket_stopped close_locked_stopped : stopped.

Lemma close_users_stopped n : forall s w t, sent w = s -> stopped (fun w => w) s (close_users n w t) (@close_users all_enqueued n w t).
Proof. induction n as [|n IH]; intros s w t Es; cbn [close_users]; walk. Qed.
#[local] Hint Resolve close_users_stopped : stopped.
Lemma close_all_stopped s w t : sent w = s ->
  stopped (fun w => w) s (close_all_sockets w t) (@close_all_sockets all_enqueued w t).
Proof. intros Es. unfold close_all_sockets. walk. Qed.

Lemma do_ready_stopped s w p : sent w = s -> stopped (fun w => w) s (do_ready w p) (@do_ready all_enqueued w p).
Proof. intros Es. unfold do_ready. walk. Qed.
#[local] Hint Resolve do_ready_stopped : stopped.

Lemma local_enqueue_stopped s w p d : sent w = s ->
  stopped snd s (local_socket_enqueue w p d) (@local_socket_enqueue all_enqueued w p d).
Proof.
  intros Es. unfold local_socket_enqueue. apply stopped_same. intros x _. destruct (queue x); [|walk].
  pose proof (write_some_sent false (write_fuel w (fd x)) w (fd x) d) as Ew.
  destruct (write_some _ _ _ _ _) as [[st r] w1]. cbn [snd] in Ew. walk.
Qed.

Lemma disconnect_stopped s w p : sent w = s ->
  stopped (fun w => w) s (remote_socket_disconnect w p) (@remote_socket_disconnect all_enqueued w p).
Proof. intros Es. unfold remote_socket_disconnect. walk. Qed.
#[local] Hint Resolve disconnect_stopped : stopped.
Lemma run_from_stopped n : forall s w t dis, sent w = s ->
  stopped (fun w => w) s (run_from n w t dis) (@run_from all_enqueued n w t dis).
Proof. induction n as [|n IH]; intros s w t dis Es; cbn [run_from]; walk. Qed.
#[local] Hint Resolve run_from_stopped : stopped.
Lemma go_offline_stopped s w t : sent w = s -> stopped (fun w => w) s (go_offline w t) (@go_offline all_enqueued w t).
Proof. intros Es. unfold go_offline, run_transport_disconnects. walk. Qed.
#[local] Hint Resolve go_offline_stopped : stopped.

Lemma on_open_stopped `{Services} s HOST w t p : sent w = s ->
  stopped (fun w => w) s (on_open HOST w t p) (on_open HOST w t p (H0 := all_enqueued)).
Proof. intros Es. unfold on_open, send_ready, send_close, create_remote_socket, malloc. walk. Qed.
Lemma on_okay_stopped s w t m : sent w = s -> stopped (fun w => w) s (on_okay w t m) (@on_okay all_enqueued w t m).
Proof. intros Es. unfold on_okay, create_remote_socket, malloc. walk. Qed.
Lemma on_clse_stopped s w m : sent w = s -> stopped (fun w => w) s (on_clse w m) (@on_clse all_enqueued w m).
Proof. intros Es. unfold on_clse. walk. Qed.
#[local] Hint Resolve on_open_stopped on_okay_stopped on_clse_stopped : stopped.
Lemma on_wrte_stopped `{Services} w t p : winv w -> locked w = false ->
  stopped (fun w => w) (sent w) (on_wrte w t p) (on_wrte w t p (H0 := all_enqueued)).
Proof.
  intros HI Hl. unfold on_wrte. destruct (find_local_spec w (Packet.arg1 (Packet.msg p)) HI Hl) as (q & -> & Hq).
  cbn [mbind outcome_bind]. destruct Hq as [->|(x & Hx & Hn & He & _)]; [rewrite Nat.eqb_refl; by apply stopped_done|].
  rewrite (proj2 (Nat.eqb_neq _ _) Hn). unfold do_enqueue, send_ready. rewrite (get_Some _ _ _ Hx). cbn [mbind outcome_bind].
  rewrite He. apply (stopped_bind snd); [by apply local_enqueue_stopped|]. intros [r w1] _. cbn [snd]. walk.
Qed.

(** A packet is handled as if every packet it leads to could be enqueued, up to the first
    that cannot. *)
Lemma handle_packet_stopped `{Services} HOST banner w t p : winv w -> locked w = false ->
  stopped (fun w => w) (sent w) (handle_packet HOST banner w t p) (handle_packet HOST banner w t p (H0 := all_enqueued)).
Proof.
  intros HI Hl. pose proof (on_wrte_stopped w t p HI Hl) as Hw. unfold handle_packet, send_connect. walk.
Qed.

End stops.

(** C1 (safety). From every state that satisfies the invariant, in which no socket of
    jdwp or track-jdwp is open, any packet that a transport hands in and that does not
    open one of these two is handled to completion: no freed or null socket is
    dereferenced, the list lock is not taken twice, and the invariant (peers refer
    to each other, each local socket is on exactly one of the two lists, the
    disconnect lists hold the remote sockets of their transport) holds again.  Or it is
    handled up to the first packet that the socket of its transport does not take, where send_packet stops
    the process.  The payload has at least one byte and not less than the header says; the banner of a
    CNXN packet has to contain its terminator. *)
Theorem handle_packet_safe `{Services} `{Sockets.TransportSockets} (HOST : bool) (banner : bytes) (w : Sockets.sys) (t : ptr)
    (p : Packet.apacket) :
  winv w -> Sockets.locked w = false -> t <> NULL -> is_Some (Sockets.transports w !! t) ->
  0 <= Packet.data_length (Packet.msg p) <= Z.of_nat (length (Packet.data p)) ->
  (0 < length (Packet.data p))%nat ->
  (Packet.command (Packet.msg p) = Packet.A_CNXN -> 0 ∈ Packet.data p) ->
  (Packet.command (Packet.msg p) = Packet.A_OPEN -> forall name, Streams.open_name p = Done name -> Streams.jdwp_service HOST name = false) ->
  exists w' l, winv w' /\ Sockets.locked w' = false /\ Sockets.sent w' = Sockets.sent w ++ l /\
    Streams.handle_packet HOST banner w t p =
      if accepted (Sockets.sent w) l then Done w' else Stop "cannot enqueue packet on transport socket".
Proof.
  intros HI Hl Ht Htr Hd Hlen Hban Hname. pose proof (handle_packet_stopped HOST banner w t p HI Hl) as Hs.
  destruct (handle_packet_safe_any HOST banner w t p HI Hl Ht Htr Hd Hlen Hban Hname) as (w' & E & HI' & Hl').
  rewrite E in Hs. destruct Hs as (l & El & ->). by exists w', l.
Qed.

(** C14 (termination). close_all_sockets restarts its scan at most once per local
    socket, completes with the lock released, and leaves no local socket that is
    bound to the transport, itself or through its peer; or it stops the process at the first CLSE
    packet that the socket of its transport does not take. *)
Theorem close_all_sockets_complete `{Sockets.TransportSockets} (w : Sockets.sys) (t : ptr) :
  winv w -> Sockets.locked w = false ->
  exists w' l, winv w' /\ Sockets.locked w' = false /\
    (forall p, p ∈ Sockets.local_socket_list w' -> ~ uses w' t p) /\ Sockets.sent w' = Sockets.sent w ++ l /\
    Sockets.close_all_sockets w t =
      if accepted (Sockets.sent w) l then Done w' else Stop "cannot enqueue packet on transport socket".
Proof.
  intros HI Hl. pose proof (close_all_stopped (Sockets.sent w) w t eq_refl) as Hs.
  assert (exists w', @Sockets.close_all_sockets all_enqueued w t = Done w' /\ winv w' /\ Sockets.locked w' = false /\
    forall p, p ∈ Sockets.local_socket_list w' -> ~ uses w' t p) as (w' & E & HI' & Hl' & Hu).
  { unfold Sockets.close_all_sockets, Sockets.mutex_lock. rewrite Hl. cbn [mbind outcome_bind].
    destruct (close_users_spec (length (Sockets.local_socket_list (Sockets.put_locked w true)))
      (Sockets.put_locked w true) t) as (w' & -> & HI' & _ & Hu); [done|done|]. cbn [mbind outcome_bind].
    eexists. split; [reflexivity|]. done. }
  rewrite E in Hs. destruct Hs as (l & El & ->). by exists w', l.
Qed.

(** The event handler of a local socket completes and keeps the
    invariant when the socket's peer is remote or smart, and when, for a writable
    event, the socket is draining before its close or has a peer. *)
Theorem local_socket_event_safe `{HS : Services} `{!ServicesSpec HS} (w : Sockets.sys) (p : ptr)
    (s : Sockets.asocket) (ev : Z) :
  winv w -> Sockets.locked w = false -> Sockets.socks w !! p = Some s ->
  Sockets.enqueue s = Sockets.local_enqueue -> peer_ok w s ->
  (Fdevent.has ev Fdevent.FDE_WRITE = true -> Sockets.closing s = true \/ Sockets.peer s <> NULL) ->
  exists w', Streams.local_socket_event_func w (Sockets.fd s) ev p = Done w' /\ winv w' /\
    Sockets.locked w' = false.
Proof.
  intros H1 H2 H3 H4 H5 H6. destruct (event_safe w p s ev H1 H2 H3 H4 H5 H6) as (w' & E & H7). by exists w'.
Qed.

(** local_socket_enqueue either closes the socket because its
    descriptor failed, or accepts the data whole: what the descriptor received
    followed by what is queued is what it was, followed by the new data; it
    returns 0 exactly when nothing is left to write, and otherwise watches for
    writability. *)
Theorem local_socket_enqueue_stream (w : Sockets.sys) (p : ptr) (s : Sockets.asocket) (d : bytes) :
  winv w -> Sockets.locked w = false -> Sockets.socks w !! p = Some s ->
  Sockets.enqueue s = Sockets.local_enqueue ->
  exists r w', Sockets.local_socket_enqueue w p d = Done (r, w') /\
    ((exists s', Sockets.socks w' !! p = Some s' /\ stream w' s' = stream w s ++ d /\
        (r = 0 <-> Sockets.queue s' = []) /\
        (r = 0 \/ (r = 1 /\ Z.testbit (Sockets.wants s') 1 = true)))
     \/ (r = 1 /\ Sockets.queue s = [] /\ closed_rel w p s w')).
Proof.
  intros HI Hl Hp He.
  destruct (local_enqueue_spec w p s d HI Hl Hp He) as (r & w' & E & _ & _ & _ & Hcase).
  exists r, w'. split; [done|]. destruct Hcase as [(s' & Hso & _ & _ & _ & H1 & H2 & H3)|]; [left|by right].
  exists s'. rewrite Hso, lookup_insert_eq. by split_and!.
Qed.

(** Closing a local socket that is connected to a stream of a
    device sends exactly one packet, a CLSE whose local id is zero. *)
Theorem close_sends_clse (w : Sockets.sys) (p : ptr) (s q : Sockets.asocket) :
  winv w -> Sockets.locked w = false -> Sockets.socks w !! p = Some s ->
  Sockets.enqueue s = Sockets.local_enqueue -> Sockets.close s = Sockets.local_close ->
  Sockets.socks w !! Sockets.peer s = Some q -> Sockets.enqueue q = Sockets.remote_enqueue ->
  exists w', Sockets.close_socket w p = Done w' /\
    Sockets.sent w' = Sockets.sent w ++
      [(Sockets.transport q, Sockets.mk_sent Packet.A_CLSE 0 (Sockets.id q) [])].
Proof.
  intros HI Hl Hp He Hc Hq Heq. exists (closed_state w p s).
  split; [by apply (do_close_plain 5 w p s)|].
  assert (Sockets.peer s <> NULL) as Hne by (intros E; rewrite E in Hq; by apply (winv_nonnull w) in Hq).
  unfold closed_state. rewrite Hq, (proj2 (Nat.eqb_neq _ _) Hne).
  unfold kill at 1. cbn [Sockets.enqueue Sockets.set_peer]. rewrite He. unfold kill_local. cbn [Sockets.closing
    Sockets.set_peer Sockets.queue]. unfold kill. cbn [Sockets.enqueue Sockets.set_peer]. rewrite Heq.
  destruct (_ || _); done.
Qed.

(** *** Examples and counterexamples *)

(** Services that refuse everything but one shell. *)
#[local] Instance demo_services : Services := {|
  handle_host_request w service ttype serial i p := (-1, w);
  host_service_to_fd service serial := -1;
  service_to_fd name := if bool_decide (name = bs "shell:") then 10 else -1
|}.

#[local] Instance demo_services_spec : ServicesSpec demo_services.
Proof.
  intros w service ttype serial i p s Hp. exists (Sockets.transport s), (Sockets.chans w). cbn.
  assert (Sockets.put w p (Sockets.set_transport s (Sockets.transport s)) = w) as ->; [|by destruct w].
  unfold Sockets.put, Sockets.put_socks. rewrite insert_id; [by destruct w|]. rewrite Hp. f_equal. by destruct s.
Qed.

(** One device, online, at address 90; no sockets. *)
Definition no_sockets : Sockets.sys :=
  Sockets.mk_sys ∅ [] [] 1 1%nat false ∅ {[90%nat := Sockets.mk_tinfo 2 None]} [] ∅ [].

Lemma no_sockets_inv : winv no_sockets.
Proof.
  unfold winv, no_sockets. cbn [Sockets.socks Sockets.local_socket_list Sockets.local_socket_closing_list
    Sockets.disconnects Sockets.brk]. rewrite fmap_empty.
  assert (forall (R : shape -> Prop) p, (exists s, (∅ : gmap ptr shape) !! p = Some s /\ R s) -> False) as Hno
    by (intros R p (s & Hs & _); by rewrite lookup_empty in Hs).
  split.
  - intros p [s Hs]. by rewrite lookup_empty in Hs.
  - unfold NULL. lia.
  - intros p s Hs. by rewrite lookup_empty in Hs.
  - intros p s Hs. by rewrite lookup_empty in Hs.
  - intros p. split; [intros H; by apply not_elem_of_nil in H|intros H; by apply Hno in H].
  - intros p. split; [intros H; by apply not_elem_of_nil in H|intros H; by apply Hno in H].
  - split; apply NoDup_nil_2.
  - intros t p. rewrite lookup_empty. split; [intros H; by apply not_elem_of_nil in H|intros H; by apply Hno in H].
  - intros t. rewrite lookup_empty. apply NoDup_nil_2.
Qed.

Definition packet (cmd a0 a1 : Z) (d : bytes) : Packet.apacket :=
  Packet.mk_pkt (Packet.mk_msg cmd a0 a1 (Z.of_nat (length d)) 0 0) (d ++ replicate (4096 - length d) 0).

(** The device opens a stream to the shell. *)
Definition open_shell : Packet.apacket := packet Packet.A_OPEN 77 0 (bs "shell:" ++ [0]).
Definition get_done (o : outcome Sockets.sys) : Sockets.sys :=
  match o with Done w => w | _ => no_sockets end.
Definition shell_open : Sockets.sys :=
  get_done (Streams.handle_packet false (bs "device") no_sockets 90%nat open_shell).

(** A transport whose socket takes two packets more. *)
Definition two_more : Sockets.TransportSockets := {| Sockets.write_packet_ok s _ _ := (length s <? 2)%nat |}.

Lemma handle_packet_safe_witness :
  exists w' l, winv w' /\ Sockets.locked w' = false /\ Sockets.sent w' = Sockets.sent no_sockets ++ l /\
    Streams.handle_packet (H0 := two_more) false (bs "device") no_sockets 90%nat open_shell =
      if accepted (TS := two_more) (Sockets.sent no_sockets) l then Done w' else Stop "cannot enqueue packet on transport socket".
Proof.
  apply handle_packet_safe; [apply no_sockets_inv|done|done|by_compute|by vm_compute|vm_compute; lia|done|].
  intros _ name E. vm_compute in E. by injection E as <-.
Defined.

(** Without the socket taking any, the answer to the first packet ends the process. *)
Example open_not_answered :
  Streams.handle_packet (H0 := {| Sockets.write_packet_ok _ _ _ := false |}) false (bs "device") no_sockets 90%nat open_shell =
    Stop "cannot enqueue packet on transport socket".
Proof. by vm_compute. Qed.

Lemma shell_open_inv : winv shell_open.
Proof.
  destruct (handle_packet_safe_any false (bs "device") no_sockets 90%nat open_shell) as (w' & E & H & _);
    [apply no_sockets_inv|done|done|by_compute|by vm_compute|vm_compute; lia|done| |].
  { intros _ name E. vm_compute in E. by injection E as <-. }
  unfold shell_open. by rewrite E.
Qed.

Lemma close_all_sockets_complete_witness :
  exists w' l, winv w' /\ Sockets.locked w' = false /\
    (forall p, p ∈ Sockets.local_socket_list w' -> ~ uses w' 90%nat p) /\ Sockets.sent w' = Sockets.sent shell_open ++ l /\
    Sockets.close_all_sockets shell_open 90%nat =
      if accepted (Sockets.sent shell_open) l then Done w' else Stop "cannot enqueue packet on transport socket".
Proof. apply close_all_sockets_complete; [apply shell_open_inv|by vm_compute]. Defined.

(** The two sockets of that stream. *)
Definition shell_local : Sockets.asocket :=
  Sockets.mk_sock 1 false 2%nat 1 10 [] Sockets.local_enqueue Sockets.local_ready Sockets.local_close NULL.
Definition shell_remote : Sockets.asocket :=
  Sockets.mk_sock 77 false 1%nat 0 0 [] Sockets.remote_enqueue Sockets.remote_ready Sockets.remote_close 90%nat.

Lemma local_socket_event_safe_witness :
  exists w', Streams.local_socket_event_func shell_open 10 Fdevent.FDE_READ 1%nat = Done w' /\ winv w' /\
    Sockets.locked w' = false.
Proof.
  apply (local_socket_event_safe shell_open 1%nat shell_local);
    [apply shell_open_inv|by vm_compute|by vm_compute|done| |done].
  intros q Hq. change (Sockets.peer shell_local) with 2%nat in Hq.
  assert (q = shell_remote) as -> by (vm_compute in Hq; by injection Hq as <-). done.
Defined.

Lemma local_socket_enqueue_stream_witness :
  exists r w', Sockets.local_socket_enqueue shell_open 1%nat (bs "ls") = Done (r, w') /\
    ((exists s', Sockets.socks w' !! 1%nat = Some s' /\ stream w' s' = stream shell_open shell_local ++ bs "ls" /\
        (r = 0 <-> Sockets.queue s' = []) /\
        (r = 0 \/ (r = 1 /\ Z.testbit (Sockets.wants s') 1 = true)))
     \/ (r = 1 /\ Sockets.queue shell_local = [] /\ closed_rel shell_open 1%nat shell_local w')).
Proof. apply local_socket_enqueue_stream; [apply shell_open_inv|by vm_compute|by vm_compute|done]. Defined.

Lemma close_sends_clse_witness :
  exists w', Sockets.close_socket shell_open 1%nat = Done w' /\
    Sockets.sent w' = Sockets.sent shell_open ++ [(90%nat, Sockets.mk_sent Packet.A_CLSE 0 77 [])].
Proof.
  apply (close_sends_clse shell_open 1%nat shell_local shell_remote);
    [apply shell_open_inv|by vm_compute|by vm_compute|done|done|by vm_compute|done].
Defined.

(** Two local sockets bound to each other, as a client and a host service are;
    the client has sent a byte and the service's descriptor is broken. *)
Definition local_pair : Sockets.sys :=
  Sockets.mk_sys
    {[1%nat := Sockets.mk_sock 1 false 2%nat 1 10 [] Sockets.local_enqueue Sockets.local_ready Sockets.local_close NULL;
      2%nat := Sockets.mk_sock 2 false 1%nat 1 11 [] Sockets.local_enqueue Sockets.local_ready Sockets.local_close NULL]}
    [1%nat; 2%nat] [] 3 3%nat false ∅ ∅ []
    {[10 := Sockets.mk_chan [Io.RData 65 []] [] []; 11 := Sockets.mk_chan [] [Io.WErr EOTHER] []]} [].

(** When the peer of a local socket is a local socket whose
    descriptor fails, the peer's enqueue frees the reading socket, returns 1
    instead of an error, and the handler goes on with the freed socket. *)
Theorem local_peer_error_use_after_free :
  Streams.local_socket_event_func local_pair 10 Fdevent.FDE_READ 1%nat = Undef "asocket".
Proof. by vm_compute. Qed.

(** A client waiting for the device to accept its stream: no peer yet. *)
Definition waiting : Sockets.sys :=
  Sockets.mk_sys
    {[1%nat := Sockets.mk_sock 1 false NULL 0 10 [] Sockets.local_enqueue Sockets.local_ready_notify
                 Sockets.local_close_notify 90%nat]}
    [1%nat] [] 2 2%nat false ∅ {[90%nat := Sockets.mk_tinfo 2 None]} [] ∅ [].

(** A device that sends data on a stream before accepting it makes
    the host dereference a null peer once the data has been written out: the WRTE
    packet is queued on the waiting socket, and the next writable event drains it. *)
Theorem early_write_null_peer :
  exists w, Streams.handle_packet true [] waiting 90%nat (packet Packet.A_WRTE 5 1 (bs "x")) = Done w /\
    Streams.local_socket_event_func (Sockets.put_chan w 10 (Sockets.mk_chan [] [Io.WTake 0] []))
      10 Fdevent.FDE_WRITE 1%nat = Undef "asocket".
Proof. eexists. split; [by vm_compute|]. by vm_compute. Qed.

(** A CNXN packet whose payload array holds no terminator is read
    beyond its end by parse_banner. *)
Theorem banner_overread :
  Streams.handle_packet true [] no_sockets 90%nat
    (Packet.mk_pkt (Packet.mk_msg Packet.A_CNXN 0 0 4096 0 0) (replicate 4096 65)) = Undef "data".
Proof. by vm_compute. Qed.
