(* ===== verification/Transport.v ===== *)
(** * Choosing and listing transports (transport.c, transport_local.c, adb.c)

    [Transport] has acquire_one_transport, the textual list of transports that
    clients see, the table of emulator connections and the test for an adb USB
    interface.  The transport list is the list of transports in order of
    registration (see Dlist for its pointers, and Lifecycle for how it changes). *)

From S2P Require Import Prelude Dlist Packet Sockets.

Module Transport.

(** The fields of an atransport that are looked at here. *)
Record atransport := mk_t {
  addr : ptr;
  connection_state : Z;
  type : Sockets.transport_type;
  serial : option bytes;
  adb_port : Z
}.

#[export] Instance transport_type_eq_dec : EqDecision Sockets.transport_type.
Proof. solve_decision. Defined.

Definition CS_ANY : Z := -1.

Definition not_found : bytes := bs "device not found".
Definition no_permission : bytes := bs "insufficient permissions for device".
Definition offline : bytes := bs "device offline".
Definition bad_state : bytes := bs "invalid device state".

(** The test of the loop body for [t], without and with a serial number. *)
Definition type_matches (ttype : Sockets.transport_type) (t : atransport) : bool :=
  match ttype with
  | Sockets.kTransportUsb => bool_decide (type t = Sockets.kTransportUsb)
  | Sockets.kTransportLocal => bool_decide (type t = Sockets.kTransportLocal)
  | Sockets.kTransportAny => true
  | Sockets.kTransportHost => false
  end.
Definition serial_matches (s : bytes) (t : atransport) : bool :=
  match serial t with Some x => bool_decide (s = x) | None => false end.

Definition more_than_one (ttype : Sockets.transport_type) : bytes :=
  match ttype with
  | Sockets.kTransportUsb => bs "more than one device"
  | Sockets.kTransportLocal => bs "more than one emulator"
  | _ => bs "more than one device and emulator"
  end.

(** The loop over transport_list: [result], [ambiguous] and [*error_out]. *)
Fixpoint scan (ttype : Sockets.transport_type) (s : option bytes) (l : list atransport)
    (result : option atransport) (err : bytes) : option atransport * bool * bytes :=
  match l with
  | [] => (result, false, err)
  | t :: l =>
      if connection_state t =? Streams.CS_NOPERM then scan ttype s l result no_permission
      else match s with
      | Some x => if serial_matches x t then (Some t, false, err) else scan ttype s l result err
      | None =>
          if type_matches ttype t then
            match result with
            | Some _ => (None, true, more_than_one ttype)
            | None => scan ttype s l (Some t) err
            end
          else scan ttype s l result err
      end
  end.

(** One pass: a transport, an error, or another try after a second. *)
Inductive pass := Taken (t : atransport) | Failed (err : bytes) | Retry.

Definition acquire_pass (state : Z) (ttype : Sockets.transport_type) (s : option bytes)
    (l : list atransport) : pass :=
  let '(result, ambiguous, err) := scan ttype s l None not_found in
  let '(result, err) :=
    match result with
    | None => (None, err)
    | Some t =>
        let '(r, err) := if connection_state t =? Sockets.CS_OFFLINE then (None, offline) else (Some t, err) in
        match r with
        | Some t => if negb (state =? CS_ANY) && negb (connection_state t =? state)
                    then (None, bad_state) else (Some t, err)
        | None => (None, err)
        end
    end in
  match result with
  | Some t => Taken t
  | None => if negb (state =? CS_ANY) && (bool_decide (s <> None) || negb ambiguous)
            then Retry else Failed err
  end.

(** acquire_one_transport over the lists that its successive passes see. *)
Fixpoint acquire_one_transport (state : Z) (ttype : Sockets.transport_type) (s : option bytes)
    (snapshots : list (list atransport)) : option pass :=
  match snapshots with
  | [] => None
  | l :: rest =>
      match acquire_pass state ttype s l with
      | Retry => acquire_one_transport state ttype s rest
      | r => Some r
      end
  end.

Definition statename (c : Z) : bytes :=
  if c =? Sockets.CS_OFFLINE then bs "offline"
  else if c =? Streams.CS_BOOTLOADER then bs "bootloader"
  else if c =? Streams.CS_DEVICE then bs "device"
  else if c =? Streams.CS_HOST then bs "host"
  else if c =? Streams.CS_RECOVERY then bs "recovery"
  else if c =? Streams.CS_NOPERM then bs "no permissions"
  else bs "unknown".

(** adb.c: connection_state_name *)
Definition connection_state_name (c : option Z) : bytes :=
  match c with
  | None => bs "unknown"
  | Some c => if c =? Streams.CS_BOOTLOADER then bs "bootloader"
              else if c =? Streams.CS_DEVICE then bs "device"
              else if c =? Sockets.CS_OFFLINE then bs "offline"
              else bs "unknown"
  end.

(** The line of one transport, ["%s\t%s\n"]. *)
Definition line (t : atransport) : bytes :=
  let s := match serial t with
           | Some (c :: l) => c :: l
           | _ => bs "????????????"
           end in
  s ++ [9] ++ statename (connection_state t) ++ [10].

(** snprintf into [mem] at [p], [size] bytes available: at most [size - 1]
    characters and a terminator are stored, the whole length is returned. *)
Definition snprintf (mem : bytes) (p size : nat) (text : bytes) : option bytes :=
  match size with
  | O => Some mem
  | S n => store_bytes mem p (take n text ++ [0])
  end.

(** The loop of list_transports, and of jdwp_process_list; [None] is a store outside
    the buffer. *)
Fixpoint print_lines (l : list bytes) (mem : bytes) (p : nat) : option (bytes * nat) :=
  match l with
  | [] => Some (mem, p)
  | x :: l =>
      mem' ← snprintf mem p (length mem - p) x;
      if (length mem <=? p + length x)%nat then Some (mem', p)
      else print_lines l mem' (p + length x)
  end.

(** The loop and the terminator: the buffer and the length of the text. *)
Definition print_list (l : list bytes) (buf : bytes) : option (bytes * nat) :=
  r ← print_lines l buf 0;
  let '(mem, p) := r in
  mem ← store mem p 0;
  Some (mem, p).

Definition list_transports (l : list atransport) (buf : bytes) : option (bytes * nat) :=
  print_list (line <$> l) buf.

(** list_transports_msg: the list after its length in hexadecimal. *)
Definition print_list_msg (l : list bytes) (buffer : bytes) : option (bytes * nat) :=
  r ← print_list l (drop 4 buffer);
  let '(mem, len) := r in
  Some (Sockets.hex4 (Z.of_nat len) ++ mem, (len + 4)%nat).
Definition list_transports_msg (l : list atransport) : bytes -> option (bytes * nat) := print_list_msg (line <$> l).

Fixpoint find_transport (s : bytes) (l : list atransport) : option atransport :=
  match l with
  | [] => None
  | t :: l => if serial_matches s t then Some t else find_transport s l
  end.

(** transport_local.c: the table of ADB_LOCAL_TRANSPORT_MAX emulator connections. *)
Definition ADB_LOCAL_TRANSPORT_MAX : nat := 16.
Abbreviation table := (list (option atransport)).

Fixpoint find_emulator_transport_by_adb_port (port : Z) (tbl : table) : option atransport :=
  match tbl with
  | [] => None
  | Some t :: tbl => if adb_port t =? port then Some t else find_emulator_transport_by_adb_port port tbl
  | None :: tbl => find_emulator_transport_by_adb_port port tbl
  end.

Fixpoint get_available_local_transport_index (i : Z) (tbl : table) : Z :=
  match tbl with
  | [] => -1
  | None :: _ => i
  | Some _ :: tbl => get_available_local_transport_index (i + 1) tbl
  end.

(** init_socket_transport on a new transport at [a]: 0 and the table with it, or
    a failure. *)
Definition init_socket_transport (HOST local : bool) (a : ptr) (port : Z) (tbl : table)
    : Z * atransport * table :=
  let t := mk_t a Sockets.CS_OFFLINE Sockets.kTransportLocal None 0 in
  if HOST && local then
    let t := mk_t a Sockets.CS_OFFLINE Sockets.kTransportLocal None port in
    let index := get_available_local_transport_index 0 tbl in
    match find_emulator_transport_by_adb_port port tbl with
    | Some _ => (-1, t, tbl)
    | None => if index <? 0 then (-1, t, tbl) else (0, t, <[Z.to_nat index := Some t]> tbl)
    end
  else (0, t, tbl).

(** The part of remote_kick that frees the slot of transport [a]. *)
Fixpoint remote_kick (a : ptr) (tbl : table) : table :=
  match tbl with
  | [] => []
  | Some t :: tbl => if (addr t =? a)%nat then None :: tbl else Some t :: remote_kick a tbl
  | None :: tbl => None :: remote_kick a tbl
  end.

(** transport_usb.c *)
Definition ADB_CLASS : Z := 0xff.
Definition ADB_SUBCLASS : Z := 0x42.
Definition ADB_PROTOCOL : Z := 0x1.
Fixpoint is_adb_interface (vendorIds : list Z) (vid usb_class usb_subclass usb_protocol : Z) : Z :=
  match vendorIds with
  | [] => 0
  | v :: vs =>
      if vid =? v then
        if (usb_class =? ADB_CLASS) && (usb_subclass =? ADB_SUBCLASS) && (usb_protocol =? ADB_PROTOCOL)
        then 1 else 0
      else is_adb_interface vs vid usb_class usb_subclass usb_protocol
  end.

End Transport.

Section choose.
Import Transport.

(** The transports that can be chosen: accessible ones of the wanted type. *)
Definition candidates (ttype : Sockets.transport_type) (l : list atransport) : list atransport :=
  filter (fun t => connection_state t <> Streams.CS_NOPERM /\ type_matches ttype t = true) l.

Lemma scan_type ttype l : forall r err,
  scan ttype None l r err =
  match r, candidates ttype l with
  | None, [] => (None, false, if existsb (fun t => connection_state t =? Streams.CS_NOPERM) l
                              then no_permission else err)
  | None, [t] | Some t, [] => (Some t, false, if existsb (fun t => connection_state t =? Streams.CS_NOPERM) l
                              then no_permission else err)
  | _, _ => (None, true, more_than_one ttype)
  end.
Proof.
  induction l as [|t l IH]; intros r err; cbn [scan existsb]; [by destruct r|].
  unfold candidates. rewrite filter_cons. fold (candidates ttype l).
  destruct (Z.eqb_spec (connection_state t) Streams.CS_NOPERM) as [E|E]; cbn [orb].
  - rewrite decide_False by naive_solver. rewrite IH.
    destruct r, (candidates ttype l) as [|? [|]]; try done; by destruct (existsb _ l).
  - destruct (type_matches ttype t) eqn:Hm.
    + rewrite decide_True by done. destruct r as [r|]; [by destruct (candidates ttype l)|].
      rewrite IH. by destruct (candidates ttype l).
    + rewrite decide_False by naive_solver. apply IH.
Qed.
End choose.

(** Without a serial number, one pass of acquire_one_transport
    for any state takes the transport exactly when it is the only accessible one of
    the wanted type and is not offline, and otherwise reports which of the reasons
    applies; it never asks for a retry. *)
Theorem acquire_any_unique (ttype : Sockets.transport_type) (l : list Transport.atransport) :
  Transport.acquire_pass Transport.CS_ANY ttype None l =
  match candidates ttype l with
  | [] => Transport.Failed
            (if existsb (fun t => Transport.connection_state t =? Streams.CS_NOPERM) l
             then Transport.no_permission else Transport.not_found)
  | [t] => if Transport.connection_state t =? Sockets.CS_OFFLINE
           then Transport.Failed Transport.offline else Transport.Taken t
  | _ => Transport.Failed (Transport.more_than_one ttype)
  end.
Proof.
  unfold Transport.acquire_pass. rewrite scan_type.
  destruct (candidates ttype l) as [|t [|t' c]]; [done| |done].
  by destruct (Transport.connection_state t =? Sockets.CS_OFFLINE).
Qed.

Section listing.
Import Transport.

(** As many whole lines as fit, with their terminator, in [cap] bytes. *)
Fixpoint fits (cap : nat) (lines : list bytes) : bytes :=
  match lines with
  | [] => []
  | x :: l => if (length x <? cap)%nat then x ++ fits (cap - length x) l else []
  end.

Lemma snprintf_spec (mem : bytes) (p : nat) (text : bytes) :
  (p < length mem)%nat ->
  exists mem', snprintf mem p (length mem - p) text = Some mem' /\ length mem' = length mem /\
    take p mem' = take p mem /\
    ((p + length text < length mem)%nat -> take (p + length text) mem' = take p mem ++ text).
Proof.
  intros Hp. unfold snprintf. destruct (length mem - p)%nat as [|n] eqn:Hn; [lia|].
  unfold store_bytes. set (data := take n text ++ [0]).
  assert (length data = Nat.min n (length text) + 1)%nat as Hd
    by (unfold data; rewrite length_app, length_take; cbn; lia).
  rewrite decide_True by lia. eexists. split; [reflexivity|].
  assert (length (take p mem) = p) as Htp by (rewrite length_take; lia).
  split_and!.
  - rewrite !length_app, length_take, length_drop. lia.
  - by rewrite <- Htp at 1; rewrite take_app_length.
  - intros Hfit. assert (take n text = text) as Ht by (apply take_ge; lia).
    unfold data. rewrite Ht, <- app_assoc, app_assoc.
    assert (p + length text = length (take p mem ++ text))%nat as -> by (rewrite length_app; lia).
    by rewrite take_app_length.
Qed.

Lemma print_lines_spec l : forall mem p,
  (p < length mem)%nat ->
  let text := fits (length mem - p) l in
  exists mem', print_lines l mem p = Some (mem', p + length text)%nat /\ length mem' = length mem /\
    (p + length text < length mem)%nat /\ take (p + length text) mem' = take p mem ++ text.
Proof.
  induction l as [|x l IH]; intros mem p Hp; cbn [print_lines fits].
  { exists mem. cbn. rewrite Nat.add_0_r, app_nil_r. done. }
  destruct (snprintf_spec mem p x Hp) as (mem1 & -> & Hl1 & Hk & Ht). cbn [mbind option_bind].
  destruct (Nat.ltb_spec (length x) (length mem - p)) as [Hfit|Hfit].
  - rewrite (proj2 (Nat.leb_gt _ _)) by lia.
    destruct (IH mem1 (p + length x)%nat) as (mem2 & -> & Hl2 & Hlt & Ht2); [lia|].
    rewrite Hl1 in *. rewrite Nat.sub_add_distr in *. exists mem2. rewrite length_app.
    rewrite Nat.add_assoc. split_and!; [done|congruence|lia|]. by rewrite Ht2, Ht, app_assoc by lia.
  - rewrite (proj2 (Nat.leb_le _ _)) by lia. exists mem1. cbn. rewrite Nat.add_0_r, app_nil_r. done.
Qed.

Lemma print_list_spec l buf :
  (0 < length buf)%nat ->
  let text := fits (length buf) l in
  exists rest, print_list l buf = Some (text ++ 0 :: rest, length text) /\
    length (text ++ 0 :: rest) = length buf.
Proof.
  intros Hb text. unfold print_list.
  destruct (print_lines_spec l buf 0 Hb) as (mem & E & Hl & Hlt & Ht).
  rewrite Nat.sub_0_r, Nat.add_0_l in *. fold text in E, Hlt, Ht. rewrite E. cbn [mbind option_bind].
  rewrite take_0, app_nil_l in Ht. unfold store. rewrite decide_True by lia. cbn [mbind option_bind].
  rewrite <- Hl in *. exists (drop (S (length text)) mem). split.
  - do 2 f_equal. rewrite insert_take_drop by lia. by rewrite Ht.
  - rewrite length_app. cbn. rewrite length_drop. lia.
Qed.

Lemma fits_short cap l : (0 < cap)%nat -> (length (fits cap l) < cap)%nat.
Proof.
  revert cap. induction l as [|x l IH]; intros cap Hc; cbn [fits]; [cbn; lia|].
  destruct (Nat.ltb_spec (length x) cap); [|cbn; lia]. rewrite length_app. pose proof (IH (cap - length x)%nat). lia.
Qed.
End listing.

(** list_transports stores only inside its buffer, whatever the
    serial numbers and however short the buffer, as long as it has one byte: the
    result is the lines of the first transports, as many as fit whole, followed by
    a terminator, and the length returned is that of the text. *)
Theorem list_transports_text (l : list Transport.atransport) (buf : bytes) :
  (0 < length buf)%nat ->
  let text := fits (length buf) (Transport.line <$> l) in
  exists rest, Transport.list_transports l buf = Some (text ++ 0 :: rest, length text) /\
    length (text ++ 0 :: rest) = length buf.
Proof. apply print_list_spec. Qed.

Lemma list_transports_text_witness :
  let l := [Transport.mk_t 1%nat 2 Sockets.kTransportUsb (Some (bs "HT1")) 0;
            Transport.mk_t 2%nat 0 Sockets.kTransportUsb None 0] in
  exists rest, Transport.list_transports l (replicate 12 7)
    = Some (bs "HT1" ++ [9] ++ bs "device" ++ [10] ++ 0 :: rest, 11%nat).
Proof.
  intros l. destruct (list_transports_text l (replicate 12 7)) as (rest & E & _); [cbn; lia|].
  exists rest. exact E.
Defined.

Section emulators.
Import Transport.

Lemma find_emulator_None port tbl :
  find_emulator_transport_by_adb_port port tbl = None <->
  forall i t, tbl !! i = Some (Some t) -> adb_port t <> port.
Proof.
  induction tbl as [|[t|] tbl IH]; cbn.
  - split; [done|]. done.
  - destruct (Z.eqb_spec (adb_port t) port) as [E|E].
    + split; [done|]. intros H. by specialize (H 0%nat t eq_refl).
    + rewrite IH. split.
      * intros H [|i] x Hx; [by injection Hx as <-|]. by apply (H i).
      * intros H i x Hx. by apply (H (S i)).
  - rewrite IH. split; [intros H [|i] x Hx; [done|by apply (H i)]|intros H i x Hx; by apply (H (S i))].
Qed.

Lemma find_emulator_Some port tbl t :
  find_emulator_transport_by_adb_port port tbl = Some t ->
  adb_port t = port /\ exists i, tbl !! i = Some (Some t).
Proof.
  induction tbl as [|[x|] tbl IH]; cbn; [done| |].
  - destruct (Z.eqb_spec (adb_port x) port) as [E|E].
    + intros [= <-]. split; [done|]. by exists 0%nat.
    + intros (H & i & Hi)%IH. split; [done|]. by exists (S i).
  - intros (H & i & Hi)%IH. split; [done|]. by exists (S i).
Qed.

Lemma available_index tbl : forall k,
  (get_available_local_transport_index k tbl = -1 /\ forall i, tbl !! i <> Some None) \/
  (exists i, get_available_local_transport_index k tbl = k + Z.of_nat i /\ tbl !! i = Some None).
Proof.
  induction tbl as [|[t|] tbl IH]; intros k; cbn.
  - left. by split; [|intros i].
  - destruct (IH (k + 1)) as [[-> H]|(i & -> & Hi)].
    + left. split; [done|]. intros [|i]; [done|apply H].
    + right. exists (S i). split; [lia|done].
  - right. exists 0%nat. split; [lia|done].
Qed.

(** No two connections to the same emulator. *)
Definition ports_unique (tbl : table) : Prop :=
  forall i j t u, tbl !! i = Some (Some t) -> tbl !! j = Some (Some u) -> adb_port t = adb_port u -> i = j.
End emulators.

(** On the host, init_socket_transport admits a local connection
    exactly when its port is not connected yet and one of the table's slots is free;
    then the table finds it by its port, its size is unchanged and still no two
    entries have the same port; a refusal leaves the table as it was. *)
Theorem init_socket_transport_unique (a : ptr) (port : Z) (tbl : Transport.table) :
  ports_unique tbl ->
  let '(fail, t, tbl') := Transport.init_socket_transport true true a port tbl in
  ports_unique tbl' /\ length tbl' = length tbl /\
  (fail = 0 <-> Transport.find_emulator_transport_by_adb_port port tbl = None /\
                exists i, tbl !! i = Some None) /\
  (fail = 0 -> Transport.find_emulator_transport_by_adb_port port tbl' = Some t) /\
  (fail <> 0 -> tbl' = tbl).
Proof.
  intros Hu. unfold Transport.init_socket_transport. cbn [andb].
  destruct (Transport.find_emulator_transport_by_adb_port port tbl) as [x|] eqn:Hf.
  { split_and!; try done. naive_solver. }
  destruct (available_index tbl 0) as [[-> Hno]|(i & -> & Hi)].
  { cbn. split_and!; try done. split; [done|]. intros [_ (i & Hi)]. by apply Hno in Hi. }
  destruct (Z.ltb_spec (0 + Z.of_nat i) 0); [lia|]. rewrite Z.add_0_l, Nat2Z.id.
  pose proof (lookup_lt_Some _ _ _ Hi) as Hlt. pose proof (proj1 (find_emulator_None port tbl) Hf) as Hport.
  set (t := Transport.mk_t a Sockets.CS_OFFLINE Sockets.kTransportLocal None port).
  assert (forall j x, <[i := Some t]> tbl !! j = Some (Some x) ->
            (j = i /\ x = t) \/ (j <> i /\ tbl !! j = Some (Some x))) as Hlook.
  { intros j x Hj. destruct (decide (j = i)) as [->|Hne].
    - rewrite list_lookup_insert_eq in Hj by done. left. by injection Hj as <-.
    - rewrite list_lookup_insert_ne in Hj by done. auto. }
  assert (ports_unique (<[i := Some t]> tbl)) as Hu'.
  { intros j k x y Hj Hk E. destruct (Hlook _ _ Hj) as [[-> ->]|[Nj Hj']], (Hlook _ _ Hk) as [[-> ->]|[Nk Hk']].
    - done.
    - exfalso. by apply (Hport k y Hk').
    - exfalso. by apply (Hport j x Hj').
    - by apply (Hu j k x y). }
  split_and!; [done|by rewrite length_insert|split; [by eauto|done]| |done].
  intros _. destruct (Transport.find_emulator_transport_by_adb_port port (<[i := Some t]> tbl)) as [y|] eqn:Hy.
  - destruct (find_emulator_Some _ _ _ Hy) as (Hyp & j & Hj). destruct (Hlook _ _ Hj) as [[_ ->]|[_ Hj']]; [done|].
    exfalso. by apply (Hport j y Hj').
  - exfalso. apply (proj1 (find_emulator_None port _) Hy i t); [|done]. by apply list_lookup_insert_eq.
Qed.

Lemma init_socket_transport_unique_witness :
  let '(fail, t, tbl') := Transport.init_socket_transport true true 7%nat 5555 (replicate 16 None) in
  ports_unique tbl' /\ length tbl' = length (replicate 16 (@None Transport.atransport)) /\
  (fail = 0 <-> Transport.find_emulator_transport_by_adb_port 5555 (replicate 16 None) = None /\
                exists i, replicate 16 (@None Transport.atransport) !! i = Some None) /\
  (fail = 0 -> Transport.find_emulator_transport_by_adb_port 5555 tbl' = Some t) /\
  (fail <> 0 -> tbl' = replicate 16 None).
Proof.
  apply (init_socket_transport_unique 7%nat 5555 (replicate 16 None)).
  intros i j t u Hi. by apply lookup_replicate_1 in Hi as [??].
Defined.
