(* ===== verification/Lifecycle.v ===== *)
(** * The life of a transport (transport.c)

    [Lifecycle] has registration, the two threads of a transport, reference
    counts, kicking and removal, on the pointers of the transport list; freeing a
    transport makes its memory inaccessible.  [phases] says where in its life each
    transport is; the theorems show that a transport is freed exactly once and
    only after both its threads are done, as long as nobody disconnects it by
    hand, and exhibit what goes wrong then.  [Pump] has the filter of the input
    thread that discards stale packets. *)

From S2P Require Import Prelude Dlist Packet Sockets.

Module Lifecycle.
Import Dlist.

(** The head of transport_list. *)
Definition transport_list : ptr := 1%nat.

Record atransport := mk_tr {
  ref_count : Z;
  kicked : bool;
  connection_state : Z;
  local : bool;           (* kTransportLocal, otherwise USB *)
  transport_socket : Z;
  fd : Z;
  sfd : Z
}.

(** The list's pointers, the transports, the registration pipe with the action of
    each message ([true]: add), the number of running threads of each transport,
    and the descriptors closed. *)
Record tsys := mk_ts {
  links : heap;
  ts : gmap ptr atransport;
  pipe : list (ptr * bool);
  threads : gmap ptr nat;
  closed : list Z
}.

Definition put_links (w : tsys) h := mk_ts h (ts w) (pipe w) (threads w) (closed w).
Definition put_t (w : tsys) t x := mk_ts (links w) (<[t := x]> (ts w)) (pipe w) (threads w) (closed w).
Definition put_pipe (w : tsys) l := mk_ts (links w) (ts w) l (threads w) (closed w).
Definition put_threads (w : tsys) t n := mk_ts (links w) (ts w) (pipe w) (<[t := n]> (threads w)) (closed w).
Definition put_closed (w : tsys) l := mk_ts (links w) (ts w) (pipe w) (threads w) l.
Definition set_kicked (x : atransport) :=
  mk_tr (ref_count x) true (connection_state x) (local x) (transport_socket x) (fd x) (sfd x).
Definition set_ref (x : atransport) r :=
  mk_tr r (kicked x) (connection_state x) (local x) (transport_socket x) (fd x) (sfd x).
Definition set_sfd (x : atransport) s :=
  mk_tr (ref_count x) (kicked x) (connection_state x) (local x) (transport_socket x) (fd x) s.
Definition set_fds (x : atransport) s0 s1 :=
  mk_tr (ref_count x) (kicked x) (connection_state x) (local x) s0 s1 (sfd x).

Definition get (w : tsys) (t : ptr) : outcome atransport := deref "atransport" (ts w !! t).
Definition run_links (w : tsys) (o : option heap) : outcome tsys :=
  h ← deref "transport links" o; Done (put_links w h).

(** [t->next->prev = t->prev; t->prev->next = t->next;] *)
Definition unlink_transport (h : heap) (t : ptr) : option heap :=
  n ← get_next h t; p ← get_prev h t; h ← set_prev h n p;
  p ← get_prev h t; n ← get_next h t; set_next h p n.

(** [t->kick(t)] and [t->close(t)]: remote_kick and remote_close of
    transport_local.c; the USB ones do nothing to descriptors. *)
Definition do_kick (w : tsys) (t : ptr) : outcome tsys :=
  x ← get w t;
  Done (if local x then put_closed (put_t w t (set_sfd x (-1))) (closed w ++ [sfd x]) else w).
Definition do_close (w : tsys) (t : ptr) : outcome tsys :=
  x ← get w t;
  Done (if local x then put_closed w (closed w ++ [fd x]) else w).

Definition kick_transport (w : tsys) (t : ptr) : outcome tsys :=
  if (t =? NULL)%nat then Done w
  else x ← get w t;
       if kicked x then Done w else do_kick (put_t w t (set_kicked x)) t.

Definition register_transport (w : tsys) (t : ptr) : tsys := put_pipe w (pipe w ++ [(t, true)]).
Definition remove_transport (w : tsys) (t : ptr) : tsys := put_pipe w (pipe w ++ [(t, false)]).

Definition transport_unref_locked (w : tsys) (t : ptr) : outcome tsys :=
  x ← get w t;
  let w := put_t w t (set_ref x (ref_count x - 1)) in
  if ref_count x - 1 =? 0 then
    w ← (if kicked x then Done w else do_kick (put_t w t (set_kicked (set_ref x (ref_count x - 1)))) t);
    w ← do_close w t;
    Done (remove_transport w t)
  else Done w.

Definition transport_unref (w : tsys) (t : ptr) : outcome tsys :=
  if (t =? NULL)%nat then Done w else transport_unref_locked w t.

(** calloc and register_transport, in register_socket_transport and
    register_usb_transport. *)
Definition register_new (w : tsys) (t : ptr) (state : Z) (loc : bool) (s : Z) : tsys :=
  let h := mk_heap (<[t := NULL]> (nxt (links w))) (<[t := NULL]> (prv (links w))) in
  register_transport (put_t (put_links w h) t (mk_tr 0 false state loc 0 0 s)) t.

(** transport_registration_func on the next message; [s0], [s1] is the socket
    pair it creates. *)
Definition transport_registration_func (w : tsys) (s0 s1 : Z) : outcome tsys :=
  match pipe w with
  | [] => Done w
  | (t, false) :: rest =>
      let w := put_pipe w rest in
      x ← get w t;
      let w := put_closed w (closed w ++ [transport_socket x; fd x]) in
      w ← run_links w (unlink_transport (links w) t);
      Done (mk_ts (mk_heap (delete t (nxt (links w))) (delete t (prv (links w))))
              (delete t (ts w)) (pipe w) (threads w) (closed w))
  | (t, true) :: rest =>
      let w := put_pipe w rest in
      x ← get w t;
      let w := if connection_state x =? Streams.CS_NOPERM then w
               else put_threads (put_t w t (set_fds (set_ref x 2) s0 s1)) t 2 in
      run_links w (link_tail (links w) t transport_list)
  end.

(** The end of input_thread and of output_thread. *)
Definition thread_exit (w : tsys) (t : ptr) : outcome tsys :=
  let w := put_threads w t (default 0%nat (threads w !! t) - 1) in
  w ← kick_transport w t;
  transport_unref w t.

(** "adb disconnect" *)
Definition unregister_transport (w : tsys) (t : ptr) : outcome tsys :=
  w ← run_links w (unlink_transport (links w) t);
  w ← kick_transport w t;
  transport_unref w t.

(** The walks over the list, which look the next transport up first; [adb_port] is
    the field of the transports, 0 for other connections than emulators.  A list has
    no more transports than there are nodes. *)
Fixpoint walk (fuel : nat) (visit : tsys -> ptr -> outcome tsys) (w : tsys) (t : ptr) : outcome tsys :=
  match fuel with
  | O => Stop "fuel"
  | S fuel =>
      if (t =? transport_list)%nat then Done w
      else
        next ← deref "transport links" (get_next (links w) t);
        w ← visit w t;
        walk fuel visit w next
  end.
Definition walk_transports (visit : tsys -> ptr -> outcome tsys) (w : tsys) : outcome tsys :=
  first ← deref "transport links" (get_next (links w) transport_list);
  walk (S (size (nxt (links w)))) visit w first.

(** "adb disconnect" without an address. *)
Definition unregister_tcp (adb_port : ptr -> Z) (w : tsys) (t : ptr) : outcome tsys :=
  x ← get w t;
  if local x && (adb_port t =? 0) then
    w ← run_links w (unlink_transport (links w) t);
    w ← kick_transport w t;
    transport_unref_locked w t
  else Done w.
Definition unregister_all_tcp_transports (adb_port : ptr -> Z) : tsys -> outcome tsys := walk_transports (unregister_tcp adb_port).

Definition close_usb_devices : tsys -> outcome tsys := walk_transports kick_transport.

End Lifecycle.

(** The input thread: packets that the event loop sends, and what goes out. *)
Module Pump.

(** [active], [t->sync_token] and the packets in the order they are read; [true]
    when the loop ended on a SYNC offline. *)
Fixpoint input_thread (token : Z) (active : bool) (l : list Sockets.sent_msg) : list Sockets.sent_msg * bool :=
  match l with
  | [] => ([], false)
  | p :: l =>
      if Sockets.s_cmd p =? Packet.A_SYNC then
        if Sockets.s_arg0 p =? 0 then ([], true)
        else input_thread token (if Sockets.s_arg1 p =? token then true else active) l
      else
        let '(out, e) := input_thread token active l in
        ((if active then p :: out else out), e)
  end.

(** What the output thread hands to the event loop: SYNC online, the packets read
    from the device, SYNC offline. *)
Definition output_thread (token : Z) (from_device : list Sockets.sent_msg) : list Sockets.sent_msg :=
  Sockets.mk_sent Packet.A_SYNC 1 (u32 (token + 1)) [] :: from_device
    ++ [Sockets.mk_sent Packet.A_SYNC 0 0 []].

End Pump.

Section pump.
Import Pump Sockets.

Definition is_sync (p : sent_msg) : bool := s_cmd p =? Packet.A_SYNC.

(** The packets before the first SYNC offline. *)
Fixpoint before_offline (l : list sent_msg) : list sent_msg :=
  match l with
  | [] => []
  | p :: l => if is_sync p && (s_arg0 p =? 0) then [] else p :: before_offline l
  end.

(** ... and of those, the ones from the first SYNC online with [token] on. *)
Fixpoint after_online (token : Z) (l : list sent_msg) : list sent_msg :=
  match l with
  | [] => []
  | p :: l => if is_sync p && negb (s_arg0 p =? 0) && (s_arg1 p =? token) then l else after_online token l
  end.

Lemma input_active token l :
  (input_thread token true l).1 = filter (fun p => is_sync p = false) (before_offline l).
Proof.
  induction l as [|p l IH]; cbn [input_thread before_offline]; [done|].
  change (s_cmd p =? Packet.A_SYNC) with (is_sync p). destruct (is_sync p) eqn:Hc; cbn [andb].
  - destruct (s_arg0 p =? 0); [done|]. rewrite filter_cons_False by congruence.
    destruct (s_arg1 p =? token); apply IH.
  - rewrite filter_cons_True by done.
    destruct (input_thread token true l) as [out e]. cbn in *. by rewrite IH.
Qed.
End pump.

(** The input thread writes to the device exactly the packets
    that come after a SYNC online with the transport's current token and before
    the SYNC offline: nothing queued for an earlier connection is sent. *)
Theorem input_thread_filters (token : Z) (l : list Sockets.sent_msg) :
  (Pump.input_thread token false l).1
  = filter (fun p => is_sync p = false) (after_online token (before_offline l)).
Proof.
  induction l as [|p l IH]; cbn [Pump.input_thread before_offline]; [done|].
  change (Sockets.s_cmd p =? Packet.A_SYNC) with (is_sync p). destruct (is_sync p) eqn:Hc; cbn [andb].
  - destruct (Sockets.s_arg0 p =? 0) eqn:Ha; [done|]. cbn [after_online]. rewrite Hc, Ha.
    cbn [andb negb]. destruct (Sockets.s_arg1 p =? token); [apply input_active|apply IH].
  - cbn [after_online]. rewrite Hc. cbn [andb].
    destruct (Pump.input_thread token false l) as [out e]. apply IH.
Qed.

(** ** Phases *)

Section phases.
Import Dlist Lifecycle.

(** Queued for registration; on the list with [k] threads; on the list with a
    removal queued; on the list without threads for lack of permissions. *)
Inductive phase := Queued | Running (k : nat) | Dying | Inaccessible.

Definition running (f : option phase) : nat := match f with Some (Running k) => k | _ => 0%nat end.

Record phases (w : tsys) (xs : list ptr) (ph : gmap ptr phase) : Prop := {
  p_dlist : dlist (links w) transport_list xs;
  p_alive : forall t, is_Some (ts w !! t) <-> is_Some (ph !! t);
  p_links : forall t, is_Some (ph !! t) -> t <> NULL /\ t <> transport_list /\
    is_Some (nxt (links w) !! t) /\ is_Some (prv (links w) !! t);
  p_list : forall t, t ∈ xs <-> exists f, ph !! t = Some f /\ f <> Queued;
  p_pipe : NoDup (pipe w);
  p_queued : forall t, (t, true) ∈ pipe w <-> ph !! t = Some Queued;
  p_dying : forall t, (t, false) ∈ pipe w <-> ph !! t = Some Dying;
  p_threads : forall t, default 0%nat (threads w !! t) = running (ph !! t);
  p_refs : forall t k x, ph !! t = Some (Running k) -> ts w !! t = Some x ->
    (0 < k)%nat /\ ref_count x = Z.of_nat k
}.

Lemma unlink_transport_spec h hd l1 x l2 :
  dlist h hd (l1 ++ x :: l2) ->
  exists h', unlink_transport h x = Some h' /\ dlist h' hd (l1 ++ l2) /\
    same_but (fun y => y ∈ hd :: l1 ++ x :: l2) h h'.
Proof.
  intros Hd. destruct (unlink_spec _ _ _ _ _ Hd) as (p & n & _ & [Hp Hp'] & [Hn Hn'] & N1 & N2 & I1 & I2 & Hd').
  exists (unlinked h p n). split_and!; [|done|by apply unlinked_same].
  unfold unlink_transport, get_next, get_prev, set_next, set_prev.
  rewrite Hn. cbn [mbind option_bind]. rewrite Hp'. cbn [mbind option_bind]. rewrite Hn'. cbn [mbind option_bind prv nxt].
  rewrite lookup_insert_ne, Hp' by done. cbn [mbind option_bind]. rewrite Hn. cbn [mbind option_bind].
  by rewrite Hp.
Qed.

Lemma dlist_delete h hd xs x :
  x ∉ hd :: xs -> dlist h hd xs -> dlist (mk_heap (delete x (nxt h)) (delete x (prv h))) hd xs.
Proof.
  intros Hx [Hnd Hp]. split; [done|].
  apply (path_frame h); [| |done]; intros y Hy; cbn; apply lookup_delete_ne; intros ->; apply Hx.
  - rewrite app_comm_cons, removelast_snoc in Hy. done.
  - cbn in Hy. set_solver.
Qed.

(** *** Registration *)

Lemma register_new_phases w xs ph t c loc s :
  phases w xs ph -> ts w !! t = None -> t <> NULL -> t <> transport_list ->
  phases (register_new w t c loc s) xs (<[t := Queued]> ph).
Proof.
  intros [P1 P2 P3 P4 P5 P6 P7 P8 P9] Hf Hn Hh.
  assert (ph !! t = None) as Hph by (destruct (ph !! t) eqn:E; [|done];
    destruct (proj2 (P2 t) ltac:(eauto)); congruence).
  assert (t ∉ transport_list :: xs) as Hnin.
  { intros [->|Hx]%elem_of_cons; [done|]. apply P4 in Hx as (f & Hx & _). congruence. }
  split; cbn.
  - by apply dlist_set_self.
  - intros u. destruct (decide (t = u)) as [->|]; [by rewrite !lookup_insert_eq|by rewrite !lookup_insert_ne].
  - intros u Hu. destruct (decide (t = u)) as [->|].
    + rewrite !lookup_insert_eq. eauto.
    + rewrite lookup_insert_ne in Hu by done. rewrite !lookup_insert_ne by done. by apply P3.
  - intros u. rewrite P4. destruct (decide (t = u)) as [->|]; [|by rewrite lookup_insert_ne].
    rewrite lookup_insert_eq, Hph. split; [by intros (? & ? & _)|]. by intros (f & [= <-] & ?).
  - apply NoDup_app. split_and!; [done| |apply NoDup_singleton].
    intros [u b] Hu [= -> ->]%list_elem_of_singleton. apply P6 in Hu. congruence.
  - intros u. rewrite elem_of_app, list_elem_of_singleton, P6.
    destruct (decide (t = u)) as [->|Hne]; [rewrite lookup_insert_eq; naive_solver|].
    rewrite lookup_insert_ne by done. naive_solver.
  - intros u. rewrite elem_of_app, list_elem_of_singleton, P7.
    destruct (decide (t = u)) as [->|Hne]; [rewrite lookup_insert_eq, Hph; naive_solver|].
    rewrite lookup_insert_ne by done. naive_solver.
  - intros u. rewrite P8. destruct (decide (t = u)) as [->|]; [by rewrite lookup_insert_eq, Hph|by rewrite lookup_insert_ne].
  - intros u k x Hu Hx. destruct (decide (t = u)) as [->|]; [by rewrite lookup_insert_eq in Hu|].
    rewrite lookup_insert_ne in Hu by done. unfold register_new in Hx. cbn in Hx.
    rewrite lookup_insert_ne in Hx by done. by apply (P9 u).
Qed.

(** A queued transport is put on the list, with its threads when accessible. *)
Lemma add_phases w xs ph t rest s0 s1 :
  phases w xs ph -> pipe w = (t, true) :: rest ->
  exists w' f, transport_registration_func w s0 s1 = Done w' /\ phases w' (xs ++ [t]) (<[t := f]> ph) /\
    f <> Queued /\ (forall u, is_Some (ts w !! u) -> is_Some (ts w' !! u)).
Proof.
  intros [P1 P2 P3 P4 P5 P6 P7 P8 P9] Hp. unfold transport_registration_func. rewrite Hp.
  assert (ph !! t = Some Queued) as Ht by (apply P6; rewrite Hp; by left).
  destruct (proj2 (P2 t) ltac:(eauto)) as [x Hx]. unfold get. cbn [ts put_pipe]. rewrite Hx. cbn [deref mbind outcome_bind].
  destruct (P3 t ltac:(eauto)) as (Hn & Hh & Ln & Lp).
  assert (t ∉ transport_list :: xs) as Hnin.
  { intros [->|Hu]%elem_of_cons; [done|]. apply P4 in Hu as (f & Hu & ?). congruence. }
  destruct (insertions_agree (links w) transport_list xs t P1 Hnin Ln Lp) as (p & ys & E & Hpath & _ & _ & El & _).
  destruct (inserted_dlist (links w) transport_list xs t p ys P1 Hnin Ln Lp E Hpath) as (Hd & Hsame).
  destruct Hsame as (_ & S2 & S3).
  set (np := connection_state x =? Streams.CS_NOPERM).
  set (w1 := if np then put_pipe w rest else put_threads (put_t (put_pipe w rest) t (set_fds (set_ref x 2) s0 s1)) t 2).
  assert (links w1 = links w /\ pipe w1 = rest) as [L1 L2] by (unfold w1; by destruct np).
  rewrite L1. unfold run_links. rewrite El. cbn [deref mbind outcome_bind].
  set (f := if np then Inaccessible else Running 2).
  assert (f <> Queued /\ f <> Dying) as [Hf1 Hf2] by (unfold f; by destruct np).
  assert (forall u, is_Some (ts w1 !! u) <-> is_Some (ts w !! u)) as T1.
  { intros u. unfold w1. destruct np; [done|]. cbn. destruct (decide (t = u)) as [->|].
    - rewrite lookup_insert_eq, Hx. split; eauto.
    - by rewrite lookup_insert_ne. }
  rewrite Hp in P5. apply NoDup_cons in P5 as [P5 P5'].
  eexists _, f. split; [reflexivity|]. split; [|split; [done|intros u Hu; by apply T1]].
  split; cbn [links put_links ts pipe threads]; [done| | | |by rewrite L2|..].
  - intros u. rewrite T1, P2. destruct (decide (t = u)) as [->|]; [rewrite lookup_insert_eq; split; eauto|by rewrite lookup_insert_ne].
  - intros u Hu. rewrite <- S2, <- S3. apply P3. destruct (decide (t = u)) as [->|]; [eauto|by rewrite lookup_insert_ne in Hu].
  - intros u. rewrite elem_of_app, list_elem_of_singleton, P4. destruct (decide (t = u)) as [->|].
    + rewrite lookup_insert_eq. split; [eauto|by right].
    + rewrite lookup_insert_ne by done. split; [by intros [?|?]|by left].
  - intros u. rewrite L2. destruct (decide (t = u)) as [->|].
    + rewrite lookup_insert_eq. split; [done|intros [= ?]; done].
    + rewrite lookup_insert_ne, <- P6, Hp, elem_of_cons by done. split; [by right|intros [[=]|?]; done].
  - intros u. rewrite L2. destruct (decide (t = u)) as [->|].
    + rewrite lookup_insert_eq. split; [|intros [= ?]; done]. intros Hu. exfalso.
      assert ((u, false) ∈ pipe w) as H by (rewrite Hp; by right). apply P7 in H. congruence.
    + rewrite lookup_insert_ne, <- P7, Hp, elem_of_cons by done. split; [by right|intros [[=]|?]; done].
  - intros u. unfold w1, f. destruct (decide (t = u)) as [->|].
    + rewrite lookup_insert_eq. destruct np; cbn; [|by rewrite lookup_insert_eq].
      rewrite P8, Ht. done.
    + rewrite (lookup_insert_ne ph) by done. destruct np; cbn; [apply P8|]. by rewrite lookup_insert_ne.
  - intros u k y Hu Hy. unfold w1, f in *. destruct (decide (t = u)) as [->|].
    + rewrite lookup_insert_eq in Hu. destruct np; [done|]. injection Hu as <-. cbn in Hy.
      rewrite lookup_insert_eq in Hy. injection Hy as <-. cbn. split; [lia|done].
    + rewrite lookup_insert_ne in Hu by done. apply (P9 u); [done|]. destruct np; [done|].
      cbn in Hy. by rewrite lookup_insert_ne in Hy.
Qed.

(** *** Removal *)

(** A transport whose removal was queued is taken off the list and freed. *)
Lemma free_phases w xs ph t rest s0 s1 :
  phases w xs ph -> pipe w = (t, false) :: rest ->
  exists w' xs', transport_registration_func w s0 s1 = Done w' /\ phases w' xs' (delete t ph) /\
    ph !! t = Some Dying /\ ts w' = delete t (ts w).
Proof.
  intros [P1 P2 P3 P4 P5 P6 P7 P8 P9] Hp. unfold transport_registration_func. rewrite Hp.
  assert (ph !! t = Some Dying) as Ht by (apply P7; rewrite Hp; by left).
  destruct (proj2 (P2 t) ltac:(eauto)) as [x Hx]. unfold get. cbn [ts put_pipe]. rewrite Hx. cbn [deref mbind outcome_bind].
  destruct (P3 t ltac:(eauto)) as (Hn & Hh & Ln & Lp).
  assert (t ∈ xs) as Hin by (apply P4; eauto).
  apply list_elem_of_split in Hin as (l1 & l2 & ->).
  destruct (unlink_transport_spec (links w) transport_list l1 t l2 P1) as (h' & Hu & Hd & (_ & S2 & S3)).
  unfold run_links. cbn [links put_closed put_pipe]. rewrite Hu. cbn [deref mbind outcome_bind].
  assert (t ∉ transport_list :: l1 ++ l2) as Hnin.
  { destruct P1 as [Hnd _]. rewrite app_comm_cons, <- Permutation_middle in Hnd. by apply NoDup_cons in Hnd as [? _]. }
  rewrite Hp in P5. apply NoDup_cons in P5 as [P5 P5'].
  eexists _, (l1 ++ l2). split; [reflexivity|]. cbn [ts put_links put_closed put_pipe].
  split; [|by split]. split; cbn.
  - by apply dlist_delete.
  - intros u. destruct (decide (t = u)) as [->|]; [by rewrite !lookup_delete_eq|by rewrite !lookup_delete_ne].
  - intros u Hu'. destruct (decide (t = u)) as [->|]; [by rewrite lookup_delete_eq in Hu'; destruct Hu'|].
    rewrite lookup_delete_ne in Hu' by done. rewrite !lookup_delete_ne, <- S2, <- S3 by done. by apply P3.
  - intros u. destruct (decide (t = u)) as [->|Hne].
    + rewrite lookup_delete_eq. split; [intros H; exfalso; apply Hnin; by right|by intros (? & ? & _)].
    + rewrite lookup_delete_ne, <- P4 by done. clear -Hne. set_solver.
  - done.
  - intros u. destruct (decide (t = u)) as [->|Hne].
    + rewrite lookup_delete_eq. split; [|done]. intros Hu'. exfalso.
      assert ((u, true) ∈ pipe w) as H by (rewrite Hp; by right). apply P6 in H. congruence.
    + rewrite lookup_delete_ne, <- P6, Hp, elem_of_cons by done. split; [by right|intros [[=]|?]; done].
  - intros u. destruct (decide (t = u)) as [->|Hne].
    + rewrite lookup_delete_eq. done.
    + rewrite lookup_delete_ne, <- P7, Hp, elem_of_cons by done. split; [by right|intros [[=]|?]; done].
  - intros u. rewrite P8. destruct (decide (t = u)) as [->|]; [by rewrite lookup_delete_eq, Ht|by rewrite lookup_delete_ne].
  - intros u k y Hu' Hy. apply lookup_delete_Some in Hu' as [Hne Hu'].
    rewrite lookup_delete_ne in Hy by done. by apply (P9 u).
Qed.

(** *** Threads *)

Lemma do_kick_ok w t x :
  ts w !! t = Some x ->
  exists w' x', do_kick w t = Done w' /\ links w' = links w /\ pipe w' = pipe w /\ threads w' = threads w /\
    ts w' = <[t := x']> (ts w) /\ ref_count x' = ref_count x /\ kicked x' = kicked x.
Proof.
  intros Hx. unfold do_kick, get. rewrite Hx. cbn [deref mbind outcome_bind]. destruct (local x).
  - eexists _, (set_sfd x (-1)). by split_and!.
  - exists w, x. split_and!; try done. by rewrite insert_id.
Qed.

Lemma kick_ok w t x :
  t <> NULL -> ts w !! t = Some x ->
  exists w' x', kick_transport w t = Done w' /\ links w' = links w /\ pipe w' = pipe w /\
    threads w' = threads w /\ ts w' = <[t := x']> (ts w) /\ ref_count x' = ref_count x /\ kicked x' = true.
Proof.
  intros Hn Hx. unfold kick_transport. rewrite (proj2 (Nat.eqb_neq _ _) Hn). unfold get. rewrite Hx.
  cbn [deref mbind outcome_bind]. destruct (kicked x) eqn:Hk.
  - exists w, x. split_and!; try done. by rewrite insert_id.
  - destruct (do_kick_ok (put_t w t (set_kicked x)) t (set_kicked x)) as (w' & x' & -> & ? & ? & ? & E & ? & ?);
      [apply lookup_insert_eq|].
    exists w', x'. split_and!; try done. rewrite E. cbn. by rewrite insert_insert_eq.
Qed.

(** The last thread leaves a closed transport with its removal queued, the other
    one a smaller count. *)
Lemma unref_ok w t x :
  t <> NULL -> ts w !! t = Some x -> kicked x = true ->
  exists w', transport_unref w t = Done w' /\ links w' = links w /\ threads w' = threads w /\
    (exists x', ts w' = <[t := x']> (ts w) /\ ref_count x' = ref_count x - 1) /\
    pipe w' = pipe w ++ (if ref_count x - 1 =? 0 then [(t, false)] else []).
Proof.
  intros Hn Hx Hk. unfold transport_unref, transport_unref_locked. rewrite (proj2 (Nat.eqb_neq _ _) Hn).
  unfold get. rewrite Hx. cbn [deref mbind outcome_bind]. rewrite Hk.
  destruct (ref_count x - 1 =? 0).
  - cbn [mbind outcome_bind]. unfold do_close, get. cbn [ts put_t]. rewrite lookup_insert_eq.
    cbn [deref mbind outcome_bind]. eexists. split; [reflexivity|].
    cbn [local set_ref]. destruct (local x); cbn; split_and!; try done; eauto.
  - eexists. split; [reflexivity|]. cbn. rewrite app_nil_r. split_and!; try done; eauto.
Qed.

Lemma thread_exit_phases w xs ph t :
  phases w xs ph -> (0 < default 0%nat (threads w !! t))%nat ->
  exists w' f, thread_exit w t = Done w' /\ phases w' xs (<[t := f]> ph) /\
    (forall u, is_Some (ts w !! u) -> is_Some (ts w' !! u)).
Proof.
  intros [P1 P2 P3 P4 P5 P6 P7 P8 P9] Hth. rewrite P8 in Hth.
  destruct (ph !! t) as [[|k| |]|] eqn:Ht; cbn in Hth; try lia.
  destruct (proj2 (P2 t) ltac:(eauto)) as [x Hx]. destruct (P3 t ltac:(eauto)) as (Hn & Hh & Ln & Lp).
  destruct (P9 t k x Ht Hx) as [Hk Hr].
  unfold thread_exit.
  destruct (kick_ok (put_threads w t (default 0%nat (threads w !! t) - 1)) t x Hn Hx)
    as (w1 & x1 & -> & A1 & A2 & A3 & A4 & A5 & A6). cbn [mbind outcome_bind].
  destruct (unref_ok w1 t x1 Hn) as (w2 & -> & B1 & B2 & (x2 & B3 & B3') & B4); [rewrite A4; apply lookup_insert_eq|done|].
  rewrite A5, Hr in B4. rewrite P8, Ht in A3. cbn [running threads put_threads] in A3.
  rewrite A4, insert_insert_eq in B3. cbn [ts put_threads] in B3. rewrite A2 in B4. cbn [pipe put_threads] in B4.
  rewrite A3 in B2. rewrite A1 in B1. cbn [links put_threads] in B1.
  exists w2, (if (k =? 1)%nat then Dying else Running (k - 1)). split; [done|].
  assert (forall u, is_Some (ts w2 !! u) <-> is_Some (ts w !! u)) as T1.
  { intros u. rewrite B3. destruct (decide (t = u)) as [->|]; [rewrite lookup_insert_eq, Hx; split; eauto|by rewrite lookup_insert_ne]. }
  assert (((t, true) ∉ pipe w) /\ ((t, false) ∉ pipe w)) as [Q1 Q2].
  { split; intros H; [apply P6 in H|apply P7 in H]; congruence. }
  split; [|intros u Hu; by apply T1].
  assert (((Z.of_nat k - 1 =? 0) = (k =? 1)%nat)) as Hk1.
  { destruct (Z.eqb_spec (Z.of_nat k - 1) 0), (Nat.eqb_spec k 1); done || lia. }
  rewrite Hk1 in B4. set (f := if (k =? 1)%nat then Dying else Running (k - 1)).
  assert (f <> Queued) as Hfq by (unfold f; by destruct (k =? 1)%nat).
  split; rewrite ?B1; [done| | | | | | | |].
  - intros u. rewrite T1, P2. destruct (decide (t = u)) as [->|]; [rewrite lookup_insert_eq, Ht; split; eauto|by rewrite lookup_insert_ne].
  - intros u Hu. apply P3. destruct (decide (t = u)) as [->|]; [eauto|by rewrite lookup_insert_ne in Hu].
  - intros u. rewrite P4. destruct (decide (t = u)) as [->|]; [|by rewrite lookup_insert_ne].
    rewrite lookup_insert_eq, Ht. split; intros _; eauto.
  - rewrite B4. destruct (k =? 1)%nat; [|by rewrite app_nil_r]. apply NoDup_app.
    split_and!; [done| |apply NoDup_singleton]. intros [u b] Hu [= -> ->]%list_elem_of_singleton. done.
  - intros u. rewrite B4, elem_of_app, P6. destruct (decide (t = u)) as [->|].
    + rewrite lookup_insert_eq, Ht. split; [|naive_solver]. intros [?|H]; [done|].
      destruct (k =? 1)%nat; [by apply list_elem_of_singleton in H|by apply not_elem_of_nil in H].
    + rewrite lookup_insert_ne by done. split; [|by left]. intros [?|H]; [done|].
      destruct (k =? 1)%nat; [by apply list_elem_of_singleton in H|by apply not_elem_of_nil in H].
  - intros u. rewrite B4, elem_of_app, P7. unfold f. destruct (decide (t = u)) as [->|].
    + rewrite lookup_insert_eq, Ht. destruct (k =? 1)%nat.
      * split; [done|]. intros _. right. by left.
      * split; [intros [?|H]; [done|by apply not_elem_of_nil in H]|done].
    + rewrite lookup_insert_ne by done. split; [|by left]. intros [?|H]; [done|].
      destruct (k =? 1)%nat; [apply list_elem_of_singleton in H; naive_solver|by apply not_elem_of_nil in H].
  - intros u. rewrite B2. unfold f. destruct (decide (t = u)) as [->|].
    + rewrite !lookup_insert_eq. destruct (Nat.eqb_spec k 1) as [->|]; done.
    + rewrite !lookup_insert_ne by done. apply P8.
  - intros u j y Hu Hy. rewrite B3 in Hy. unfold f in Hu. destruct (decide (t = u)) as [->|].
    + rewrite lookup_insert_eq in Hu. rewrite lookup_insert_eq in Hy. injection Hy as <-. destruct (Nat.eqb_spec k 1); [done|].
      injection Hu as <-. lia.
    + rewrite lookup_insert_ne in Hu by done. rewrite lookup_insert_ne in Hy by done. by apply (P9 u).
Qed.

(** *** The walks *)

Lemma filter_same {A} (P Q : A -> Prop) `{!forall x, Decision (P x)} `{!forall x, Decision (Q x)} (l : list A) :
  (forall x, x ∈ l -> P x <-> Q x) -> filter P l = filter Q l.
Proof.
  induction l as [|x l IH]; intros Hl; [done|]. rewrite !filter_cons.
  rewrite IH by (intros y Hy; apply Hl; by apply list_elem_of_further).
  pose proof (Hl x ltac:(apply list_elem_of_here)). by repeat case_decide; try tauto.
Qed.

(** What unregister_all_tcp_transports leaves on the list. *)
Definition kept (adb_port : ptr -> Z) (w : tsys) (t : ptr) : bool :=
  match ts w !! t with Some x => negb (local x && (adb_port t =? 0)) | None => true end.

Lemma unregister_tcp_at adb_port w t x : ts w !! t = Some x ->
  unregister_tcp adb_port w t =
    if local x && (adb_port t =? 0) then
      w ← run_links w (unlink_transport (links w) t);
      w ← kick_transport w t;
      transport_unref_locked w t
    else Done w.
Proof. intros Hx. unfold unregister_tcp, get. by rewrite Hx. Qed.

Lemma walk_unregisters adb_port l2 : forall l1 w fuel,
  dlist (links w) transport_list (l1 ++ l2) -> (length l2 < fuel)%nat ->
  (forall u, u ∈ l2 -> u <> NULL /\ is_Some (ts w !! u)) ->
  exists w', walk fuel (unregister_tcp adb_port) w (default transport_list (head l2)) = Done w' /\
    dlist (links w') transport_list (l1 ++ filter (fun u => kept adb_port w u = true) l2).
Proof.
  induction l2 as [|t l2 IH]; intros l1 w fuel Hd Hf Hl; (destruct fuel as [|fuel]; [cbn in Hf; lia|]); cbn [walk head default from_option id].
  { exists w. by rewrite filter_nil. }
  pose proof Hd as [Hnd _]. destruct (dlist_split _ _ _ _ _ Hd) as (ys & p & n & zs & _ & E2 & _ & [Hn _] & _).
  assert (t <> transport_list) as Ht.
  { intros ->. apply NoDup_cons in Hnd as [Hnd _]. apply Hnd. apply elem_of_app. right. apply list_elem_of_here. }
  assert (n = default transport_list (head l2)) as -> by (destruct l2; cbn in E2; by injection E2).
  assert (forall w1, (forall u, u <> t -> ts w1 !! u = ts w !! u) ->
    filter (fun u => kept adb_port w1 u = true) l2 = filter (fun u => kept adb_port w u = true) l2) as Hsame.
  { intros w1 H1. apply filter_same. intros u Hu. unfold kept. rewrite H1; [done|].
    intros ->. apply NoDup_cons in Hnd as [_ Hnd]. apply NoDup_app in Hnd as (_ & _ & Hnd). apply NoDup_cons in Hnd as [Hnd _]. done. }
  rewrite (proj2 (Nat.eqb_neq _ _) Ht). unfold get_next. rewrite Hn. cbn [deref mbind outcome_bind].
  destruct (Hl t ltac:(apply list_elem_of_here)) as [Htn [x Hx]].
  rewrite (unregister_tcp_at adb_port w t x Hx).
  assert (kept adb_port w t = negb (local x && (adb_port t =? 0))) as Hk by (unfold kept; by rewrite Hx).
  destruct (local x && (adb_port t =? 0)) eqn:Eb.
  - rewrite filter_cons_False by (rewrite Hk; done).
    destruct (unlink_transport_spec _ _ _ _ _ Hd) as (h & Eh & Hdh & _). rewrite Eh. unfold run_links. cbn [deref mbind outcome_bind].
    destruct (kick_ok (put_links w h) t x Htn Hx) as (w1 & x1 & -> & L1 & _ & _ & T1 & _ & K1). cbn [mbind outcome_bind].
    destruct (unref_ok w1 t x1 Htn ltac:(rewrite T1; apply lookup_insert_eq) K1) as (w2 & E & L2 & _ & (x2 & T2 & _) & _).
    unfold transport_unref in E. rewrite (proj2 (Nat.eqb_neq _ _) Htn) in E. rewrite E. cbn [mbind outcome_bind].
    assert (forall u, u <> t -> ts w2 !! u = ts w !! u) as Hts by (intros u Hu; by rewrite T2, T1, !lookup_insert_ne).
    rewrite <- (Hsame w2 Hts). apply IH; [by rewrite L2, L1|cbn in Hf; lia|].
    intros u Hu. rewrite Hts; [apply Hl; by apply list_elem_of_further|].
    intros ->. apply NoDup_cons in Hnd as [_ Hnd]. apply NoDup_app in Hnd as (_ & _ & Hnd). by apply NoDup_cons in Hnd as [Hnd _].
  - rewrite filter_cons_True by (by rewrite Hk). cbn [mbind outcome_bind].
    destruct (IH (l1 ++ [t]) w fuel) as (w' & E & Hd'); [by rewrite <- app_assoc|cbn in Hf; lia| |].
    + intros u Hu. apply Hl. by apply list_elem_of_further.
    + exists w'. split; [done|]. by rewrite <- app_assoc in Hd'.
Qed.

(** All connections over TCP leave the list, the others stay in order. *)
Lemma unregister_all_unlinks adb_port w xs :
  dlist (links w) transport_list xs -> (forall u, u ∈ xs -> u <> NULL /\ is_Some (ts w !! u)) ->
  exists w', unregister_all_tcp_transports adb_port w = Done w' /\
    dlist (links w') transport_list (filter (fun u => kept adb_port w u = true) xs).
Proof.
  intros Hd Hl. unfold unregister_all_tcp_transports, walk_transports.
  assert (get_next (links w) transport_list = Some (default transport_list (head xs))) as ->.
  { destruct Hd as [_ Hp]. destruct xs; cbn in Hp; destruct Hp as [[Hp _] _]; exact Hp. }
  cbn [deref mbind outcome_bind]. apply (walk_unregisters adb_port xs []); [done| |done].
  pose proof (dlist_heads _ _ _ Hd) as Hin. destruct Hd as [Hnd _]. apply Nat.lt_succ_r.
  assert (list_to_set xs ⊆ dom (nxt (links w))) as Hs.
  { intros u Hu%elem_of_list_to_set. apply elem_of_dom. apply (Hin u). by apply list_elem_of_further. }
  apply subseteq_size in Hs. rewrite size_dom, size_list_to_set in Hs by (by apply NoDup_cons in Hnd as [_ ?]). exact Hs.
Qed.

(** *** The machine *)

Inductive lop :=
  | Register (t : ptr) (state : Z) (loc : bool) (s : Z)
  | Process (s0 s1 : Z)
  | ThreadExit (t : ptr)
  | Unregister (t : ptr).

Definition lexec (o : lop) (w : tsys) : outcome tsys :=
  match o with
  | Register t c loc s => Done (register_new w t c loc s)
  | Process s0 s1 => transport_registration_func w s0 s1
  | ThreadExit t => thread_exit w t
  | Unregister t => unregister_transport w t
  end.

(** What happens by itself: fresh memory is registered, messages are processed,
    running threads end. *)
Definition lpre (o : lop) (w : tsys) : Prop :=
  match o with
  | Register t _ _ _ => ts w !! t = None /\ t <> NULL /\ t <> transport_list
  | Process _ _ => True
  | ThreadExit t => (0 < default 0%nat (threads w !! t))%nat
  | Unregister _ => False
  end.

Definition no_transports : tsys :=
  mk_ts (mk_heap {[transport_list := transport_list]} {[transport_list := transport_list]}) ∅ [] ∅ [].

Inductive lreach : tsys -> Prop :=
  | lreach_init : lreach no_transports
  | lreach_step w o w' : lreach w -> lpre o w -> lexec o w = Done w' -> lreach w'.

Lemma no_transports_phases : phases no_transports [] ∅.
Proof.
  split; cbn.
  - split; [apply NoDup_singleton|]. cbn. split; [|done]. split; cbn; apply lookup_insert_eq.
  - intros t. by rewrite !lookup_empty.
  - intros t [? H]. by rewrite lookup_empty in H.
  - intros t. rewrite lookup_empty. split; [intros H; by apply not_elem_of_nil in H|naive_solver].
  - apply NoDup_nil_2.
  - intros t. rewrite lookup_empty. split; [intros H; by apply not_elem_of_nil in H|done].
  - intros t. rewrite lookup_empty. split; [intros H; by apply not_elem_of_nil in H|done].
  - intros t. by rewrite !lookup_empty.
  - intros t k x H. by rewrite lookup_empty in H.
Qed.

Lemma lexec_phases o w xs ph :
  phases w xs ph -> lpre o w ->
  exists w', lexec o w = Done w' /\ (exists xs' ph', phases w' xs' ph') /\
    forall t, is_Some (ts w !! t) -> ts w' !! t = None -> default 0%nat (threads w !! t) = 0%nat.
Proof.
  intros HP Hpre. destruct o as [t c loc s|s0 s1|t|t]; cbn [lexec lpre] in *.
  - destruct Hpre as (H1 & H2 & H3). eexists. split; [reflexivity|]. split.
    + eexists _, _. by apply register_new_phases.
    + intros u [x Hu] Hnone. unfold register_new in Hnone. cbn in Hnone.
      destruct (decide (t = u)) as [->|]; [by rewrite lookup_insert_eq in Hnone|].
      rewrite lookup_insert_ne in Hnone by done. congruence.
  - destruct (pipe w) as [|[t []] rest] eqn:Hp.
    + exists w. unfold transport_registration_func. rewrite Hp. split_and!; [done|eauto|].
      intros t [x Hx] Hn. congruence.
    + destruct (add_phases w xs ph t rest s0 s1 HP Hp) as (w' & f & E & HP' & _ & Halive).
      exists w'. split_and!; [done|eauto|]. intros u Hu Hn. destruct (Halive u Hu). congruence.
    + destruct (free_phases w xs ph t rest s0 s1 HP Hp) as (w' & xs' & E & HP' & Ht & Hts).
      exists w'. split_and!; [done|eauto|]. intros u [x Hu] Hn. rewrite Hts in Hn.
      destruct (decide (t = u)) as [->|]; [by rewrite (p_threads _ _ _ HP), Ht|].
      rewrite lookup_delete_ne in Hn by done. congruence.
  - destruct (thread_exit_phases w xs ph t HP Hpre) as (w' & f & E & HP' & Halive).
    exists w'. split_and!; [done|eauto|]. intros u Hu Hn. destruct (Halive u Hu). congruence.
  - done.
Qed.

Lemma lreach_phases w : lreach w -> exists xs ph, phases w xs ph.
Proof.
  induction 1 as [|w o w' _ (xs & ph & IH) Hpre Hex]; [eexists _, _; apply no_transports_phases|].
  destruct (lexec_phases o w xs ph IH Hpre) as (w1 & E & H & _).
  rewrite Hex in E. by injection E as <-.
Qed.
End phases.

(** C11 (invariant). In every state reached by registrations, registration
    messages and ending threads, each of these steps completes on live memory, the
    transports stay in the phases described by [phases] (in particular the reference
    count of a running transport is the number of its threads, and a removal is
    queued once, by the last of them), and a transport is freed only when none of
    its threads runs. *)
Theorem transport_lifecycle (w : Lifecycle.tsys) (o : lop) :
  lreach w -> lpre o w ->
  exists w', lexec o w = Done w' /\ (exists xs ph, phases w' xs ph) /\
    forall t, is_Some (Lifecycle.ts w !! t) -> Lifecycle.ts w' !! t = None ->
      default 0%nat (Lifecycle.threads w !! t) = 0%nat.
Proof. intros (xs & ph & HP)%lreach_phases. by apply (lexec_phases o w xs ph). Qed.

(** One local transport at address 5, registered. *)
Definition registered_one : Lifecycle.tsys := Lifecycle.register_new no_transports 5%nat 0 true 20.

Lemma transport_lifecycle_witness :
  exists w', lexec (Process 30 31) registered_one = Done w' /\ (exists xs ph, phases w' xs ph) /\
    forall t, is_Some (Lifecycle.ts registered_one !! t) -> Lifecycle.ts w' !! t = None ->
      default 0%nat (Lifecycle.threads registered_one !! t) = 0%nat.
Proof.
  apply transport_lifecycle; [|done].
  apply (lreach_step no_transports (Register 5%nat 0 true 20)); [constructor| |done].
  cbn. split; [apply lookup_empty|]. by split.
Defined.

(** Running a sequence of steps. *)
Fixpoint lrun (l : list lop) (w : Lifecycle.tsys) : outcome Lifecycle.tsys :=
  match l with [] => Done w | o :: l => w ← lexec o w; lrun l w end.

(** After "adb disconnect" the two references of the threads no
    longer cover both of them: the first thread to end drops the last reference,
    the transport is freed, and the second thread uses freed memory. *)
Theorem unregister_use_after_free :
  lrun [Register 5%nat 0 true 20; Process 30 31; Unregister 5%nat; ThreadExit 5%nat; Process 0 0; ThreadExit 5%nat]
    no_transports = Undef "atransport".
Proof. by vm_compute. Qed.

(** A local transport that ends by itself closes its half of the
    socket pair twice: once in remote_close, which closes [fd] instead of the
    socket, and once when the registration function removes the transport. *)
Theorem local_transport_double_close :
  exists w, lrun [Register 5%nat 0 true 20; Process 30 31; ThreadExit 5%nat; ThreadExit 5%nat; Process 0 0]
    no_transports = Done w /\ Lifecycle.closed w = [20; 31; 30; 31].
Proof. eexists. split; by vm_compute. Qed.
