(* ===== verification/Trackers.v ===== *)
(** * The clients of track-devices (tools/adb/transport.c)

    A device tracker is a socket of the server that gets the list of transports
    when it is made and by every call of update_transports; its peer is the local socket of the client.  Of the local
    sockets only the packets they take, a client that is gone, and the close that
    comes back to the tracker matter here (see Sockets).  The list of trackers is
    singly linked; it is the list of their addresses.  The theorem shows that no order
    of events reaches a freed tracker and which list every tracker has. *)

From S2P Require Import Prelude Dlist Sockets Transport.

Record tracker := mk_tracker { peer : ptr; update_needed : Z }.

(** [peers]: the peer of a local socket; [queued]: the packets it took; [gone]: those
    whose client cannot be written to; [closed_peers]: those that were closed. *)
Record trackers := mk_trackers {
  heap : gmap ptr tracker; device_tracker_list : list ptr; brk : ptr;
  peers : gmap ptr ptr; queued : gmap ptr (list bytes); gone : gset ptr; closed_peers : list ptr
}.
Definition put_heap (d : trackers) h l : trackers := mk_trackers h l (brk d) (peers d) (queued d) (gone d) (closed_peers d).
Definition put_tracker (d : trackers) (t : ptr) (x : tracker) : trackers := put_heap d (<[t := x]> (heap d)) (device_tracker_list d).
Definition put_peers (d : trackers) v c : trackers := mk_trackers (heap d) (device_tracker_list d) (brk d) v (queued d) (gone d) c.
Definition put_queued (d : trackers) v : trackers := mk_trackers (heap d) (device_tracker_list d) (brk d) (peers d) v (gone d) (closed_peers d).
Definition put_gone (d : trackers) v : trackers := mk_trackers (heap d) (device_tracker_list d) (brk d) (peers d) (queued d) v (closed_peers d).

(** device_tracker_remove *)
Definition device_tracker_remove (d : trackers) (t : ptr) : trackers :=
  put_heap d (heap d) (filter (fun q => q <> t) (device_tracker_list d)).

(** The end of device_tracker_close: the tracker leaves the list and is freed. *)
Definition tracker_free (d : trackers) (t : ptr) : outcome trackers :=
  _ ← deref "tracker" (heap d !! t);
  let d := device_tracker_remove d t in
  Done (put_heap d (delete t (heap d)) (device_tracker_list d)).

(** close of a local socket: it takes its peer's link away and closes the peer. *)
Definition peer_close (d : trackers) (r : ptr) : outcome trackers :=
  let d' := put_peers d (delete r (peers d)) (closed_peers d ++ [r]) in
  match peers d !! r with
  | None => Done d'
  | Some t => tracker_free d' t
  end.

Definition device_tracker_close (d : trackers) (t : ptr) : outcome trackers :=
  x ← deref "tracker" (heap d !! t);
  d ← (if (peer x =? NULL)%nat then Done d
       else peer_close (put_peers d (delete (peer x) (peers d)) (closed_peers d)) (peer x));
  tracker_free d t.

(** A tracker cannot be written to. *)
Definition device_tracker_enqueue (d : trackers) (t : ptr) : outcome (Z * trackers) :=
  d ← device_tracker_close d t; Done (-1, d).

(** enqueue of a local socket. *)
Definition peer_enqueue (d : trackers) (r : ptr) (p : bytes) : outcome trackers :=
  if decide (r ∈ gone d) then peer_close d r
  else Done (put_queued d (<[r := default [] (queued d !! r) ++ [p]]> (queued d))).

Definition device_tracker_send (d : trackers) (t : ptr) (buffer : bytes) : outcome trackers :=
  x ← deref "tracker" (heap d !! t);
  if (peer x =? NULL)%nat then Undef "peer" else peer_enqueue d (peer x) buffer.

(** list_transports_msg into 1024 bytes, as many of them as it returns. *)
Definition transports_msg (l : list Transport.atransport) : outcome bytes :=
  '(mem, len) ← deref "buffer" (Transport.list_transports_msg l (replicate 1024 0));
  Done (take len mem).

Definition device_tracker_ready (l : list Transport.atransport) (d : trackers) (t : ptr) : outcome trackers :=
  x ← deref "tracker" (heap d !! t);
  if 0 <? update_needed x then
    let d := put_tracker d t (mk_tracker (peer x) 0) in
    buffer ← transports_msg l;
    device_tracker_send d t buffer
  else Done d.

Definition create_device_tracker (d : trackers) : ptr * trackers :=
  let t := brk d in
  (t, mk_trackers (<[t := mk_tracker NULL 1]> (heap d)) (t :: device_tracker_list d) (S t)
        (peers d) (queued d) (gone d) (closed_peers d)).

(** The loop of update_transports: sending may free the tracker, so the next one is
    looked up before. *)
Fixpoint send_all (d : trackers) (buffer : bytes) (l : list ptr) : outcome trackers :=
  match l with
  | [] => Done d
  | t :: l => d ← device_tracker_send d t buffer; send_all d buffer l
  end.
Definition update_transports (l : list Transport.atransport) (d : trackers) : outcome trackers :=
  buffer ← transports_msg l; send_all d buffer (device_tracker_list d).

(** ** What happens to the trackers *)

(** A client of local socket [r] asks for the list: the smart socket ties it to a new
    tracker, and the tracker is ready (sockets.c: smart_socket_enqueue). *)
Definition track (l : list Transport.atransport) (d : trackers) (r : ptr) : outcome trackers :=
  let '(t, d) := create_device_tracker d in
  x ← deref "tracker" (heap d !! t);
  let d := put_tracker d t (mk_tracker r (update_needed x)) in
  let d := put_queued (put_gone (put_peers d (<[r := t]> (peers d)) (closed_peers d)) (gone d ∖ {[r]})) (<[r := []]> (queued d)) in
  device_tracker_ready l d t.

Inductive happening :=
  | Track (r : ptr)                                   (* a new client *)
  | Writes (t : ptr)                                  (* a client sends something *)
  | Leaves (r : ptr)                                  (* its local socket is closed *)
  | Vanishes (r : ptr)                                (* it cannot be written to any more *)
  | Ready (t : ptr)
  | Change (l : list Transport.atransport)            (* the transports are others, and update_transports is called *)
  | Quiet (l : list Transport.atransport).            (* they are others without that call *)

(** The state: the transports and the trackers.  update_transports is called when a
    transport is registered or freed and when a banner makes it a bootloader, a device or
    a recovery system; a transport that goes offline or becomes a host, and one that is
    only taken off the list, change it quietly. *)
Definition happen (s : list Transport.atransport * trackers) (h : happening) : outcome (list Transport.atransport * trackers) :=
  let '(l, d) := s in
  match h with
  | Track r => d ← track l d r; Done (l, d)
  | Writes t => '(_, d) ← device_tracker_enqueue d t; Done (l, d)
  | Leaves r => d ← peer_close d r; Done (l, d)
  | Vanishes r => Done (l, put_gone d (gone d ∪ {[r]}))
  | Ready t => d ← device_tracker_ready l d t; Done (l, d)
  | Change l => d ← update_transports l d; Done (l, d)
  | Quiet l => Done (l, d)
  end.

(** What can happen: new sockets have an address of their own, others exist. *)
Definition possible (d : trackers) (h : happening) : Prop :=
  match h with
  | Track r => r <> NULL /\ peers d !! r = None
  | Writes t | Ready t => is_Some (heap d !! t)
  | Leaves r | Vanishes r => is_Some (peers d !! r)
  | Change _ | Quiet _ => True
  end.

Definition none : trackers := mk_trackers ∅ [] 1 ∅ ∅ ∅ [].

(** For each tracker the transports as they were when it was made or, later, when
    update_transports was last called. *)
Definition recall (l : list Transport.atransport) (d : trackers) (h : happening) (since : ptr -> list Transport.atransport)
    : ptr -> list Transport.atransport :=
  match h with
  | Track _ => fun t => if decide (t = brk d) then l else since t
  | Change l => fun _ => l
  | _ => since
  end.

Inductive reach : list Transport.atransport * trackers -> (ptr -> list Transport.atransport) -> Prop :=
  | reach_start l : reach (l, none) (fun _ => l)
  | reach_next l d since h s' : reach (l, d) since -> possible d h -> happen (l, d) h = Done s' -> reach s' (recall l d h since).

(** ** The invariant *)

Definition packets (d : trackers) (r : ptr) : list bytes := default [] (queued d !! r).
Definition list_msg (l : list Transport.atransport) : bytes :=
  let text := fits 1020 (Transport.line <$> l) in Sockets.hex4 (Z.of_nat (length text)) ++ text.

Record linked (d : trackers) : Prop := {
  t_nodup : NoDup (device_tracker_list d);
  t_list t : t ∈ device_tracker_list d <-> is_Some (heap d !! t);
  t_peer t x : heap d !! t = Some x -> peer x <> NULL /\ peers d !! peer x = Some t /\ update_needed x = 0;
  t_back r t : peers d !! r = Some t -> exists x, heap d !! t = Some x /\ peer x = r;
  t_brk t : is_Some (heap d !! t) -> (t < brk d)%nat
}.
(** Every tracker [t] of [P] was last sent [m t]. *)
Definition last_sent (P : ptr -> Prop) (d : trackers) (m : ptr -> bytes) : Prop :=
  forall t x, P t -> heap d !! t = Some x -> last (packets d (peer x)) = Some (m t).
Definition inv (d : trackers) (since : ptr -> list Transport.atransport) : Prop :=
  linked d /\ last_sent (fun _ => True) d (fun t => list_msg (since t)).

Lemma transports_msg_ok l : transports_msg l = Done (list_msg l).
Proof.
  unfold transports_msg, Transport.list_transports_msg, Transport.print_list_msg. change 1024%nat with (4 + 1020)%nat.
  rewrite drop_replicate. destruct (print_list_spec (Transport.line <$> l) (replicate (4 + 1020 - 4) 0)) as (rest & -> & _); [rewrite length_replicate; cbn; lia|].
  rewrite length_replicate. cbn [deref mbind option_bind outcome_bind]. cbv beta iota. unfold list_msg. change (4 + 1020 - 4)%nat with 1020%nat.
  f_equal. rewrite Nat.add_comm. set (h := Sockets.hex4 _). change 4%nat with (length h). rewrite <- length_app, app_assoc. apply take_app_length.
Qed.

(** Freeing a tracker whose link is gone. *)
Lemma tracker_free_ok d t x r : linked d -> heap d !! t = Some x -> peer x = r -> forall d', d' = put_peers d (delete r (peers d)) (closed_peers d ++ [r]) ->
  exists d1, tracker_free d' t = Done d1 /\ linked d1 /\ heap d1 = delete t (heap d) /\ queued d1 = queued d /\ gone d1 = gone d /\
    device_tracker_list d1 = filter (fun q => q <> t) (device_tracker_list d).
Proof.
  intros [Hn Hl Hp Hb Hk] Ex Er d' ->. unfold tracker_free. cbn [put_peers heap]. rewrite Ex. cbn [deref mbind outcome_bind].
  eexists. split; [reflexivity|]. split; [|done]. constructor; cbn.
  - by apply NoDup_filter.
  - intros q. rewrite list_elem_of_filter, Hl. destruct (decide (q = t)) as [->|Hq].
    + rewrite lookup_delete_eq. split; [by intros []|by intros []].
    + rewrite lookup_delete_ne by done. tauto.
  - intros q y Hy. apply lookup_delete_Some in Hy as [Hq Hy]. destruct (Hp q y Hy) as (H1 & H2 & H3).
    split_and!; [done| |done]. rewrite lookup_delete_ne; [done|]. intros E. destruct (Hp t x Ex) as (_ & H4 & _). subst r. rewrite E in H4. congruence.
  - intros q q' Hq. apply lookup_delete_Some in Hq as [Hne Hq]. destruct (Hb q q' Hq) as (y & Hy & Ey). exists y. split; [|done].
    rewrite lookup_delete_ne; [done|]. intros <-. congruence.
  - intros q Hq. apply Hk. destruct Hq as [y Hy]. apply lookup_delete_Some in Hy as [_ Hy]. eauto.
Qed.

Lemma peer_close_ok d t x : linked d -> heap d !! t = Some x ->
  exists d1, peer_close d (peer x) = Done d1 /\ linked d1 /\ heap d1 = delete t (heap d) /\ queued d1 = queued d /\ gone d1 = gone d /\
    device_tracker_list d1 = filter (fun q => q <> t) (device_tracker_list d).
Proof.
  intros Hd Ex. unfold peer_close. destruct (t_peer d Hd t x Ex) as (_ & -> & _). by eapply tracker_free_ok.
Qed.

(** What sending to a tracker does: it has the packet, or it is gone. *)
Lemma device_tracker_send_ok d t x m : linked d -> heap d !! t = Some x ->
  exists d1, device_tracker_send d t m = Done d1 /\ linked d1 /\
    ((heap d1 = heap d /\ device_tracker_list d1 = device_tracker_list d /\ gone d1 = gone d /\ peer x ∉ gone d /\
      queued d1 = <[peer x := packets d (peer x) ++ [m]]> (queued d)) \/
     (heap d1 = delete t (heap d) /\ queued d1 = queued d /\ peer x ∈ gone d /\
      device_tracker_list d1 = filter (fun q => q <> t) (device_tracker_list d))).
Proof.
  intros Hd Ex. unfold device_tracker_send. rewrite Ex. cbn [deref mbind outcome_bind].
  destruct (t_peer d Hd t x Ex) as (Hn & _ & _). rewrite (proj2 (Nat.eqb_neq _ _) Hn). unfold peer_enqueue.
  destruct (decide (peer x ∈ gone d)) as [Hg|Hg].
  - destruct (peer_close_ok d t x Hd Ex) as (d1 & E & Hd1 & H1 & H2 & _ & H3). exists d1. split_and!; [done..|]. by right.
  - eexists. split; [reflexivity|]. split; [|left; done]. by destruct Hd.
Qed.

(** Two trackers have two peers. *)
Lemma peers_apart d t x q y : linked d -> heap d !! t = Some x -> heap d !! q = Some y -> t <> q -> peer x <> peer y.
Proof.
  intros Hd Ex Ey Hne E. destruct (t_peer d Hd t x Ex) as (_ & H1 & _), (t_peer d Hd q y Ey) as (_ & H2 & _). rewrite E in H1. congruence.
Qed.

Lemma last_packet d t x m d1 : linked d -> heap d !! t = Some x -> heap d1 = heap d ->
  queued d1 = <[peer x := packets d (peer x) ++ [m]]> (queued d) -> forall q y, heap d1 !! q = Some y ->
  last (packets d1 (peer y)) = if decide (q = t) then Some m else last (packets d (peer y)).
Proof.
  intros Hd Ex Eh Eq q y Hy. rewrite Eh in Hy. unfold packets. rewrite Eq. case_decide as Hqt.
  - subst q. assert (y = x) as -> by congruence. rewrite lookup_insert_eq. cbn [default from_option id]. by rewrite last_snoc.
  - rewrite lookup_insert_ne; [done|]. by eapply (peers_apart d t x q y).
Qed.

Lemma send_all_ok m l : forall d, linked d -> NoDup l -> (forall t, t ∈ l -> is_Some (heap d !! t)) ->
  last_sent (fun t => t ∉ l) d (fun _ => m) ->
  exists d1, send_all d m l = Done d1 /\ linked d1 /\ last_sent (fun _ => True) d1 (fun _ => m).
Proof.
  induction l as [|t l IH]; intros d Hd Hn Hl Hs; cbn [send_all].
  { exists d. split_and!; [done..|]. intros q y _ Hy. eapply Hs; [|done]. apply not_elem_of_nil. }
  apply NoDup_cons in Hn as [Hnt Hn]. destruct (Hl t ltac:(apply list_elem_of_here)) as [x Ex].
  destruct (device_tracker_send_ok d t x m Hd Ex) as (d1 & -> & Hd1 & Hcase). cbn [mbind outcome_bind]. apply IH; [done|done| |].
  - intros q Hq. assert (q <> t) by (intros ->; done). destruct (Hl q ltac:(by apply list_elem_of_further)) as [y Hy].
    exists y. destruct Hcase as [(-> & _)|(-> & _)]; [done|]. by rewrite lookup_delete_ne.
  - intros q y Hq Hy. destruct Hcase as [(Eh & _ & _ & _ & Eq)|(Eh & Eq & _)].
    + rewrite (last_packet d t x m d1 Hd Ex Eh Eq q y Hy). case_decide; [done|]. rewrite Eh in Hy.
      apply (Hs q y); [|done]. rewrite elem_of_cons. tauto.
    + rewrite Eh in Hy. apply lookup_delete_Some in Hy as [Hne Hy]. unfold packets. rewrite Eq.
      apply (Hs q y); [|done]. rewrite elem_of_cons. intros [->|?]; done.
Qed.

Lemma last_sent_delete d d1 t m : last_sent (fun _ => True) d m -> heap d1 = delete t (heap d) -> queued d1 = queued d ->
  last_sent (fun _ => True) d1 m.
Proof.
  intros Hs Eh Eq q y _ Hy. rewrite Eh in Hy. apply lookup_delete_Some in Hy as [_ Hy]. unfold packets. rewrite Eq. by apply (Hs q y).
Qed.

Lemma device_tracker_close_ok d t x : linked d -> heap d !! t = Some x ->
  exists d1, device_tracker_close d t = Done d1 /\ linked d1 /\ heap d1 = delete t (heap d) /\ queued d1 = queued d.
Proof.
  intros Hd Ex. unfold device_tracker_close. rewrite Ex. cbn [deref mbind outcome_bind].
  destruct (t_peer d Hd t x Ex) as (Hn & _ & _). rewrite (proj2 (Nat.eqb_neq _ _) Hn). unfold peer_close at 1.
  cbn [put_peers peers]. rewrite lookup_delete_eq. cbn [mbind outcome_bind].
  destruct (tracker_free_ok d t x (peer x) Hd Ex eq_refl _ eq_refl) as (d1 & E & H1 & H2 & H3 & _).
  exists d1. rewrite <- E. split; [|done]. unfold put_peers. cbn. by rewrite (delete_delete_eq (peers d)).
Qed.

Lemma track_ok l d r since : linked d -> r <> NULL -> peers d !! r = None -> last_sent (fun _ => True) d (fun t => list_msg (since t)) ->
  exists d1, track l d r = Done d1 /\ linked d1 /\
    last_sent (fun _ => True) d1 (fun t => list_msg (recall l d (Track r) since t)).
Proof.
  intros Hd Hr Ep Hs. unfold track, create_device_tracker. set (t := brk d). cbn [heap]. rewrite lookup_insert_eq.
  cbn [deref mbind outcome_bind update_needed]. unfold device_tracker_ready. cbn [put_queued put_gone put_peers put_tracker put_heap heap].
  rewrite lookup_insert_eq. cbn [deref mbind outcome_bind update_needed]. change (0 <? 1) with true. cbv iota.
  rewrite transports_msg_ok. cbn [mbind outcome_bind peer]. unfold put_tracker, put_heap, put_queued, put_gone, put_peers.
  cbn [heap device_tracker_list brk peers queued gone closed_peers]. rewrite !insert_insert_eq.
  set (d0 := mk_trackers _ _ _ _ _ _ _).
  assert (heap d !! t = None) as Hnew.
  { destruct (heap d !! t) eqn:E; [|done]. pose proof (t_brk d Hd t ltac:(eauto)). unfold t in *. lia. }
  assert (linked d0) as Hd0.
  { destruct Hd as [Hn Hl Hp Hb Hk]. constructor; cbn.
    - apply NoDup_cons. split; [|done]. rewrite Hl, Hnew. by intros [].
    - intros q. rewrite elem_of_cons, Hl, lookup_insert_is_Some'. naive_solver.
    - intros q y Hy. apply lookup_insert_Some in Hy as [[<- <-]|[Hne Hy]].
      + cbn. by rewrite lookup_insert_eq.
      + destruct (Hp q y Hy) as (H1 & H2 & H3). split_and!; [done| |done]. rewrite lookup_insert_ne; [done|]. intros E0. rewrite <- E0 in H2. congruence.
    - intros q q' Hq. apply lookup_insert_Some in Hq as [[<- <-]|[Hne Hq]].
      + exists (mk_tracker r 0). by rewrite lookup_insert_eq.
      + destruct (Hb q q' Hq) as (y & Hy & Ey). exists y. split; [|done]. rewrite lookup_insert_ne; [done|]. intros <-. congruence.
    - intros q Hq. apply lookup_insert_is_Some' in Hq as [->|Hq]; [lia|]. apply Hk in Hq. unfold t in *. lia. }
  assert (heap d0 !! t = Some (mk_tracker r 0)) as Et by apply lookup_insert_eq.
  destruct (device_tracker_send_ok d0 t _ (list_msg l) Hd0 Et) as (d1 & E & Hd1 & [(Eh & _ & _ & _ & Eq)|(_ & _ & Hg & _)]).
  2: { cbn in Hg. set_solver. }
  exists d1. split_and!; [done..|]. intros q y _ Hy.
  rewrite (last_packet d0 t _ (list_msg l) d1 Hd0 Et Eh Eq q y Hy). cbn [recall]. fold t. case_decide as Hq; [done|].
  rewrite Eh in Hy. cbn in Hy. rewrite lookup_insert_ne in Hy by done.
  assert (peer y <> r). { destruct (t_peer d Hd q y Hy) as (_ & H2 & _). intros E0. rewrite E0 in H2. congruence. }
  unfold packets. cbn. rewrite lookup_insert_ne by done. by apply (Hs q y).
Qed.

Lemma happen_ok l d since h : inv d since -> possible d h ->
  exists l' d', happen (l, d) h = Done (l', d') /\ inv d' (recall l d h since).
Proof.
  intros [Hd Hs] Hp. destruct h as [r|t|r|r|t|l'|l']; cbn [happen possible] in *; [..|by exists l', d].
  - destruct Hp as [Hr Ep]. destruct (track_ok l d r since Hd Hr Ep Hs) as (d1 & -> & H1). by exists l, d1.
  - destruct Hp as [x Ex]. destruct (device_tracker_close_ok d t x Hd Ex) as (d1 & E & Hd1 & Eh & Eq).
    unfold device_tracker_enqueue. rewrite E. exists l, d1. split; [done|]. split; [done|]. by eapply last_sent_delete.
  - destruct Hp as [t Et]. destruct (t_back d Hd r t Et) as (x & Ex & <-).
    destruct (peer_close_ok d t x Hd Ex) as (d1 & -> & Hd1 & Eh & Eq & _). exists l, d1. split; [done|].
    split; [done|]. by eapply last_sent_delete.
  - eexists _, _. split; [reflexivity|]. by destruct Hd.
  - destruct Hp as [x Ex]. unfold device_tracker_ready. rewrite Ex. destruct (t_peer d Hd t x Ex) as (_ & _ & E0).
    cbn [deref mbind outcome_bind]. rewrite E0. by exists l, d.
  - unfold update_transports. rewrite transports_msg_ok. cbn [mbind outcome_bind].
    destruct (send_all_ok (list_msg l') (device_tracker_list d) d Hd (t_nodup d Hd)) as (d1 & -> & H1).
    + intros t. apply (t_list d Hd).
    + intros t x Hn Hx. exfalso. apply Hn, (t_list d Hd). eauto.
    + by exists l', d1.
Qed.

Lemma reach_inv s since : reach s since -> inv s.2 since.
Proof.
  induction 1 as [l|l d since h s' _ IH Hp E].
  - split; [|done]. constructor; cbn; try done; [constructor| |by intros ? []].
    split; [by intros ?%elem_of_nil|by intros []].
  - destruct (happen_ok l d since h IH Hp) as (l1 & d1 & E1 & H1). rewrite E1 in E. by injection E as <-.
Qed.

(** C33 (invariant). In every order of new clients, lost and leaving clients and changes
    of the transports, with or without a call of update_transports: what can happen next
    never reaches a freed tracker or a null peer, and the last packet that every
    tracker's client was sent is the list of transports of the moment when the tracker was
    made or, if that is later, of the last call of update_transports, as many whole lines
    as 1020 bytes hold, after its length in hexadecimal.  Changes for which the code does
    not call update_transports are not sent ([tracker_stale]). *)
Theorem device_trackers_current l d since :
  reach (l, d) since ->
  (forall h, possible d h -> exists s', happen (l, d) h = Done s' /\ reach s' (recall l d h since)) /\
  (forall t, t ∈ device_tracker_list d <-> is_Some (heap d !! t)) /\
  (forall t x, heap d !! t = Some x ->
     let text := fits 1020 (Transport.line <$> since t) in
     last (packets d (peer x)) = Some (Sockets.hex4 (Z.of_nat (length text)) ++ text)).
Proof.
  intros Hr. pose proof (reach_inv _ _ Hr) as Hi. cbn [snd] in Hi. split_and!.
  - intros h Hp. destruct (happen_ok l d since h Hi Hp) as (l' & d' & E & _). exists (l', d'). split; [done|]. by eapply reach_next.
  - apply Hi.
  - intros t x Hx. apply (proj2 Hi t x I Hx).
Qed.

(** Two clients, a change, one client gone, another change. *)
Definition phone (s : string) (state : Z) : Transport.atransport := Transport.mk_t 1%nat state Sockets.kTransportUsb (Some (bs s)) 0.

(** One after the other, if it is possible. *)
Definition run (l : list happening) (s : list Transport.atransport * trackers) : outcome (list Transport.atransport * trackers) :=
  foldl (fun m h => s ← m; happen s h) (Done s) l.

(** A phone goes offline, the way handle_packet sets its state: the tracker's client still
    has it as a device. *)
Lemma tracker_stale :
  match run [Track 101%nat; Change [phone "HT1" 2]; Quiet [phone "HT1" 0]] ([], none) with
  | Done (l, d) => l = [phone "HT1" 0] /\ last (packets d 101%nat) = Some (bs "000bHT1" ++ [9] ++ bs "device" ++ [10])
  | _ => False
  end.
Proof. vm_compute. done. Qed.

(** One more step of a run, evaluated. *)
Ltac step_run H h H' :=
  match type of H with reach (?l, ?d) ?since =>
    let r := eval vm_compute in (happen (l, d) h) in
    lazymatch r with Done ?s' => assert (happen (l, d) h = Done s') as H' by (vm_compute; reflexivity); eapply (reach_next l d since h s' H) in H' end
  end; [|vm_compute; by eauto].

Lemma device_trackers_current_witness :
  exists d since, reach ([phone "HT1" 0], d) since /\ device_tracker_list d = [2%nat] /\
    (forall t x, heap d !! t = Some x -> last (packets d (peer x)) = Some (bs "000bHT1" ++ [9] ++ bs "device" ++ [10])).
Proof.
  pose proof (reach_start []) as H0. unfold none in H0.
  step_run H0 (Track 101%nat) H1. step_run H1 (Track 102%nat) H2. step_run H2 (Vanishes 101%nat) H3.
  step_run H3 (Change [phone "HT1" 2]) H4. step_run H4 (Quiet [phone "HT1" 0]) H5.
  match type of H5 with reach (_, ?d) ?since => exists d, since end. split; [exact H5|]. split; [reflexivity|].
  destruct (device_trackers_current _ _ _ H5) as (_ & _ & Hc). exact Hc.
Defined.
