(* ===== verification/BootImg.v ===== *)
(** * Boot images (tools/fastboot/bootimg.c, tools/mkbootimg/mkbootimg.c)

    [FastbootImg] builds an image in memory for fastboot's boot and flash:raw
    commands; [MkBootImg] is the command line tool that writes one to a file.
    [layout] reads an image the way the comment of bootimg.h describes it: the
    theorems show that both tools put kernel and ramdisk where that reader looks
    for them, the tool for a page size of twice the one it puts in the header. *)

From S2P Require Import Prelude Sha.

Module FastbootImg.

Definition BOOT_MAGIC : bytes := bs "ANDROID!".
Definition BOOT_NAME_SIZE : nat := 16.
Definition BOOT_ARGS_SIZE : nat := 512.

(** struct boot_img_hdr: offsets of its fields and its size. *)
Definition off_kernel_size : nat := 8.
Definition off_kernel_addr : nat := 12.
Definition off_ramdisk_size : nat := 16.
Definition off_ramdisk_addr : nat := 20.
Definition off_second_size : nat := 24.
Definition off_second_addr : nat := 28.
Definition off_tags_addr : nat := 32.
Definition off_page_size : nat := 36.
Definition off_name : nat := 48.
Definition off_cmdline : nat := 64.
Definition HDR_SIZE : nat := 608.

(** [(size + page_mask) & (~page_mask)] on 32-bit words *)
Definition round_up (size page_mask : Z) : Z := Z.land (u32 (size + page_mask)) (not32 page_mask).

Definition store32 (mem : bytes) (off : nat) (v : Z) : option bytes := store_bytes mem off (le_split 4 v).

(** mkbootimg; [None] is a store outside the allocated image. *)
Definition mkbootimg (kernel ramdisk second : bytes) (page_size base : Z) : option (bytes * Z) :=
  let kernel_size := Z.of_nat (length kernel) in
  let ramdisk_size := Z.of_nat (length ramdisk) in
  let second_size := Z.of_nat (length second) in
  let page_mask := u32 (page_size - 1) in
  let kernel_actual := round_up kernel_size page_mask in
  let ramdisk_actual := round_up ramdisk_size page_mask in
  let second_actual := round_up second_size page_mask in
  let bootimg_size := u32 (page_size + kernel_actual + ramdisk_actual + second_actual) in
  let hdr := replicate (Z.to_nat bootimg_size) 0 in
  hdr ← store_bytes hdr 0 BOOT_MAGIC;
  hdr ← store32 hdr off_kernel_size kernel_size;
  hdr ← store32 hdr off_ramdisk_size ramdisk_size;
  hdr ← store32 hdr off_second_size second_size;
  hdr ← store32 hdr off_kernel_addr (u32 (base + 0x00008000));
  hdr ← store32 hdr off_ramdisk_addr (u32 (base + 0x01000000));
  hdr ← store32 hdr off_second_addr (u32 (base + 0x00F00000));
  hdr ← store32 hdr off_tags_addr (u32 (base + 0x00000100));
  hdr ← store32 hdr off_page_size page_size;
  hdr ← store_bytes hdr (Z.to_nat page_size) kernel;
  hdr ← store_bytes hdr (Z.to_nat (page_size + kernel_actual)) ramdisk;
  hdr ← store_bytes hdr (Z.to_nat (page_size + kernel_actual + ramdisk_actual)) second;
  Some (hdr, bootimg_size).

(** strcpy into the cmdline field; a longer string overwrites what follows it. *)
Definition bootimg_set_cmdline (img cmdline : bytes) : option bytes :=
  store_bytes img off_cmdline (cmdline ++ [0]).

End FastbootImg.

Module MkBootImg.
Import FastbootImg.

(** A file being written on a disk with [room] bytes left. *)
Record file := mk_file { contents : bytes; room : nat }.

Definition write (f : file) (d : bytes) : option file :=
  if decide (length d <= room f)%nat then Some (mk_file (contents f ++ d) (room f - length d)) else None.

Definition write_padding (f : file) (pagesize itemsize : Z) : option file :=
  let pagemask := pagesize - 1 in
  if Z.land itemsize pagemask =? 0 then Some f
  else write f (replicate (Z.to_nat (pagesize - Z.land itemsize pagemask)) 0).

Definition write_page_padding (f : file) (pagesize itemsize : Z) : option file :=
  let pagecount := itemsize / pagesize in
  let pagecount := if itemsize mod pagesize =? 0 then pagecount else pagecount + 1 in
  if pagecount mod 2 =? 0 then Some f else write f (replicate (Z.to_nat pagesize) 0).

Record options := mk_opt {
  bootimg : option bytes; kernel_fn : option bytes; ramdisk_fn : option bytes;
  second_fn : option bytes; cmdline : bytes; board : bytes; base : option bytes
}.
Definition no_options : options := mk_opt None None None None [] [] None.

(** The loop over the arguments; [None] is usage(). *)
Fixpoint parse_args (o : options) (argv : list bytes) : option options :=
  match argv with
  | [] => Some o
  | [_] => None
  | arg :: val :: argv =>
      if bool_decide (arg = bs "--output") || bool_decide (arg = bs "-o") then
        parse_args (mk_opt (Some val) (kernel_fn o) (ramdisk_fn o) (second_fn o) (cmdline o) (board o) (base o)) argv
      else if bool_decide (arg = bs "--kernel") then
        parse_args (mk_opt (bootimg o) (Some val) (ramdisk_fn o) (second_fn o) (cmdline o) (board o) (base o)) argv
      else if bool_decide (arg = bs "--ramdisk") then
        parse_args (mk_opt (bootimg o) (kernel_fn o) (Some val) (second_fn o) (cmdline o) (board o) (base o)) argv
      else if bool_decide (arg = bs "--second") then
        parse_args (mk_opt (bootimg o) (kernel_fn o) (ramdisk_fn o) (Some val) (cmdline o) (board o) (base o)) argv
      else if bool_decide (arg = bs "--cmdline") then
        parse_args (mk_opt (bootimg o) (kernel_fn o) (ramdisk_fn o) (second_fn o) val (board o) (base o)) argv
      else if bool_decide (arg = bs "--base") then
        parse_args (mk_opt (bootimg o) (kernel_fn o) (ramdisk_fn o) (second_fn o) (cmdline o) (board o) (Some val)) argv
      else if bool_decide (arg = bs "--board") then
        parse_args (mk_opt (bootimg o) (kernel_fn o) (ramdisk_fn o) (second_fn o) (cmdline o) val (base o)) argv
      else None
  end.

Definition pagesize : Z := 2048.

(** A string in a field of [n] bytes, the rest zero. *)
Definition field (n : nat) (s : bytes) : bytes := s ++ replicate (n - length s) 0.

(** The header as main leaves it: the addresses that --base set were overwritten
    with those of boardconfig.h (the Makefile does not define GENERIC), [id] is the
    SHA-1 of the contents in a field of 32 bytes. *)
Definition header (kernel ramdisk second cmd name sha : bytes) : bytes :=
  BOOT_MAGIC ++
  le_split 4 (Z.of_nat (length kernel)) ++ le_split 4 0x208000 ++
  le_split 4 (Z.of_nat (length ramdisk)) ++ le_split 4 0x1200000 ++
  le_split 4 (Z.of_nat (length second)) ++ le_split 4 0x1100000 ++
  le_split 4 0x200100 ++ le_split 4 pagesize ++ le_split 4 0 ++ le_split 4 0 ++
  field BOOT_NAME_SIZE name ++ field BOOT_ARGS_SIZE cmd ++ field 32 sha.

(** The six SHA_update calls and SHA_final. *)
Definition image_id (ctx : Sha.SHA_CTX) (kernel ramdisk second : bytes) : option bytes :=
  let ctx := Sha.SHA_init ctx in
  let ctx := Sha.SHA_update ctx kernel in
  let ctx := Sha.SHA_update ctx (le_split 4 (Z.of_nat (length kernel))) in
  let ctx := Sha.SHA_update ctx ramdisk in
  let ctx := Sha.SHA_update ctx (le_split 4 (Z.of_nat (length ramdisk))) in
  let ctx := Sha.SHA_update ctx second in
  let ctx := Sha.SHA_update ctx (le_split 4 (Z.of_nat (length second))) in
  ctx ← Sha.SHA_final ctx;
  Some (take 20 (Sha.buf ctx)).

(** One item: the data and its two paddings, by the size [itemsize]. *)
Definition write_item (f : file) (d : bytes) (itemsize : Z) : option file :=
  f ← write f d;
  f ← write_padding f pagesize itemsize;
  write_page_padding f pagesize itemsize.

Definition write_image (f : file) (hdr kernel ramdisk : bytes) (second : option bytes) : option file :=
  f ← write_item f hdr (Z.of_nat HDR_SIZE);
  f ← write_item f kernel (Z.of_nat (length kernel));
  f ← write_item f ramdisk (Z.of_nat (length ramdisk));
  match second with
  | None => Some f
  | Some d => write_item f d (Z.of_nat (length ramdisk))
  end.

Inductive result := Usage | Failed | Image (img : bytes).

(** main; [load_file] gives the contents of a file, [space] is the room on the
    disk and [ctx] the uninitialised hash context. *)
Definition main (load_file : bytes -> option bytes) (space : nat) (ctx : Sha.SHA_CTX)
    (argv : list bytes) : result :=
  match parse_args no_options argv with
  | None => Usage
  | Some o =>
    match bootimg o, kernel_fn o, ramdisk_fn o with
    | Some _, Some k, Some r =>
      if (BOOT_NAME_SIZE <=? length (board o))%nat then Usage
      else if (BOOT_ARGS_SIZE - 1 <? length (cmdline o))%nat then Failed
      else match load_file k, (if bool_decide (r = bs "NONE") then Some [] else load_file r) with
      | Some kernel, Some ramdisk =>
        match (match second_fn o with None => Some None | Some fn => Some <$> load_file fn end) with
        | None => Failed
        | Some second =>
            let sec := default [] second in
            match image_id ctx kernel ramdisk sec with
            | None => Failed
            | Some sha =>
                match write_image (mk_file [] space)
                        (header kernel ramdisk sec (cmdline o) (board o) sha) kernel ramdisk second with
                | Some f => Image (contents f)
                | None => Failed
                end
            end
        end
      | _, _ => Failed
      end
    | _, _, _ => Usage
    end
  end.

End MkBootImg.

(** ** The documented layout *)

Section layout.
Import FastbootImg.

(** bootimg.h: header in one page, then kernel, ramdisk and second stage, each in
    as many pages as it needs. *)
Definition pages (page n : nat) : nat := (n + page - 1) / page.

Definition word (img : bytes) (off : nat) : nat := Z.to_nat (le_combine (take 4 (drop off img))).

Definition slice (img : bytes) (off n : nat) : bytes := take n (drop off img).

Definition layout (page : nat) (img : bytes) : bytes * bytes * bytes :=
  let k := word img off_kernel_size in
  let r := word img off_ramdisk_size in
  let s := word img off_second_size in
  (slice img page k,
   slice img (page + page * pages page k) r,
   slice img (page + page * pages page k + page * pages page r) s).
End layout.

Section memory.
Import FastbootImg.

Lemma slice_app_l (a b : bytes) off n : (off + n <= length a)%nat -> slice (a ++ b) off n = slice a off n.
Proof.
  intros H. unfold slice. rewrite drop_app_le by lia. rewrite take_app_le; [done|]. rewrite length_drop. lia.
Qed.

Lemma slice_app_r (a b : bytes) off n : (length a <= off)%nat -> slice (a ++ b) off n = slice b (off - length a) n.
Proof. intros H. unfold slice. by rewrite drop_app_ge by lia. Qed.

Lemma slice_all (a b : bytes) : slice (a ++ b) 0 (length a) = a.
Proof. unfold slice. by rewrite drop_0, take_app_length. Qed.

(** A store inside the object, and what reading back gives. *)
Lemma store_bytes_ok (mem d : bytes) off :
  (off + length d <= length mem)%nat ->
  exists mem', store_bytes mem off d = Some mem' /\ length mem' = length mem /\
    slice mem' off (length d) = d /\
    forall o n, (o + n <= off \/ off + length d <= o)%nat -> slice mem' o n = slice mem o n.
Proof.
  intros H. unfold store_bytes. rewrite decide_True by done. eexists. split; [reflexivity|].
  assert (length (take off mem) = off) as Hl by (rewrite length_take; lia).
  split_and!.
  - rewrite !length_app, length_drop, Hl. lia.
  - rewrite slice_app_r by lia. rewrite Hl, Nat.sub_diag. apply slice_all.
  - intros o n [Ho|Ho].
    + rewrite slice_app_l by lia. unfold slice. rewrite <- (take_drop off mem) at 2.
      rewrite drop_app_le by lia. rewrite take_app_le; [done|]. rewrite length_drop. lia.
    + rewrite slice_app_r by lia. rewrite slice_app_r by lia. unfold slice. rewrite Hl, drop_drop. do 2 f_equal. lia.
Qed.

Lemma word_slice img off v :
  0 <= v < 2 ^ 32 -> slice img off 4 = le_split 4 v -> word img off = Z.to_nat v.
Proof.
  intros Hv Hs. unfold word, slice in *. rewrite Hs, le_combine_split.
  change (8 * Z.of_nat 4) with 32. by rewrite Z.mod_small.
Qed.

Lemma pages_spec page n : (0 < page)%nat ->
  (n <= page * pages page n)%nat /\ (page * pages page n < n + page)%nat.
Proof.
  intros Hp. unfold pages.
  pose proof (Nat.div_mod (n + page - 1) page ltac:(lia)).
  pose proof (Nat.mod_upper_bound (n + page - 1) page ltac:(lia)). lia.
Qed.

(** Rounding up with a mask is rounding up to whole pages. *)
Lemma round_up_pages k n :
  0 <= k < 32 -> Z.of_nat n + 2 ^ k <= 2 ^ 32 ->
  round_up (Z.of_nat n) (2 ^ k - 1) = Z.of_nat (Z.to_nat (2 ^ k) * pages (Z.to_nat (2 ^ k)) n).
Proof.
  intros Hk Hn. assert (0 < 2 ^ k) by lia. unfold round_up.
  assert (u32 (Z.of_nat n + (2 ^ k - 1)) = Z.of_nat n + 2 ^ k - 1) as -> by (unfold u32; rewrite Z.mod_small; lia).
  set (x := Z.of_nat n + 2 ^ k - 1).
  assert (Z.land x (not32 (2 ^ k - 1)) = 2 ^ k * (x / 2 ^ k)) as ->.
  { unfold not32. apply Z.bits_inj'. intros i Hi. rewrite Z.land_spec, Z.lxor_spec.
    replace (2 ^ k - 1) with (Z.ones k) by (rewrite Z.ones_equiv; lia).
    replace (2 ^ 32 - 1) with (Z.ones 32) by done.
    rewrite !Z.testbit_ones_nonneg by lia. rewrite Z.mul_comm, Z.mul_pow2_bits by lia.
    destruct (Z.ltb_spec i k) as [Hik|Hik].
    - rewrite (Z.testbit_neg_r _ (i - k)) by lia. destruct (Z.ltb_spec i 32); [apply andb_false_r|lia].
    - rewrite Z.div_pow2_bits by lia. replace (i - k + k) with i by lia.
      destruct (Z.ltb_spec i 32) as [H32|H32]; [apply andb_true_r|].
      rewrite andb_false_r. symmetry. apply Z.bits_above_log2; [lia|].
      destruct (decide (x = 0)) as [->|]; [cbn; lia|]. apply Z.log2_lt_pow2; [lia|].
      apply (Z.lt_le_trans _ (2 ^ 32)); [lia|]. apply Z.pow_le_mono_r; lia. }
  unfold pages. rewrite Nat2Z.inj_mul, Z2Nat.id by lia. f_equal.
  rewrite Nat2Z.inj_div, Z2Nat.id by lia. f_equal. unfold x. lia.
Qed.
End memory.

Section fastboot_img.
Import FastbootImg.

(** Run one store of mkbootimg, keeping what reading back gives. *)
Ltac run_store :=
  match goal with
  | |- context [store_bytes ?m ?o ?d] =>
      let m' := fresh "m" in let E := fresh "E" in let L := fresh "L" in
      let R := fresh "R" in let F := fresh "F" in
      destruct (store_bytes_ok m d o) as (m' & E & L & R & F);
      [rewrite ?length_le_split; try change (length (bs "ANDROID!")) with 8%nat; lia
      |rewrite E; cbn [mbind option_bind]; clear E]
  end.

(** Read past the stores that do not touch the range. *)
Ltac past_stores :=
  repeat match goal with
  | F : forall o n, _ -> slice ?im o n = _ |- context [slice ?im ?o ?n] => rewrite (F o n) by lia
  end.

Lemma mkbootimg_ok k kernel ramdisk second base page total :
  page = Z.to_nat (2 ^ k) ->
  total = (page + page * pages page (length kernel) + page * pages page (length ramdisk)
           + page * pages page (length second))%nat ->
  6 <= k < 32 -> Z.of_nat total < 2 ^ 32 ->
  exists img, mkbootimg kernel ramdisk second (2 ^ k) base = Some (img, Z.of_nat total) /\
    length img = total /\ layout page img = (kernel, ramdisk, second) /\ slice img 0 8 = BOOT_MAGIC.
Proof.
  intros Hpg Htot Hk Ht.
  assert (64 <= 2 ^ k) as H64 by (change 64 with (2 ^ 6); apply Z.pow_le_mono_r; lia).
  assert (Z.of_nat page = 2 ^ k) as Hpage by (subst page; rewrite Z2Nat.id; lia).
  destruct (pages_spec page (length kernel) ltac:(lia)) as [K1 K2].
  destruct (pages_spec page (length ramdisk) ltac:(lia)) as [R1 R2].
  destruct (pages_spec page (length second) ltac:(lia)) as [S1 S2].
  unfold mkbootimg.
  assert (u32 (2 ^ k - 1) = 2 ^ k - 1) as -> by (unfold u32; apply Z.mod_small; pose proof (Z.pow_lt_mono_r 2 k 32); lia).
  rewrite !round_up_pages by lia. rewrite <- !Hpg. unfold layout.
  set (ka := (page * pages page (length kernel))%nat) in *.
  set (ra := (page * pages page (length ramdisk))%nat) in *.
  set (sa := (page * pages page (length second))%nat) in *.
  assert (u32 (2 ^ k + Z.of_nat ka + Z.of_nat ra + Z.of_nat sa) = Z.of_nat total) as ->
    by (unfold u32; rewrite Z.mod_small; lia).
  rewrite Nat2Z.id.
  assert (Z.to_nat (2 ^ k + Z.of_nat ka) = (page + ka)%nat) as -> by lia.
  assert (Z.to_nat (2 ^ k + Z.of_nat ka + Z.of_nat ra) = (page + ka + ra)%nat) as -> by lia.
  set (m := replicate total 0). assert (length m = total) as Lm by apply length_replicate.
  unfold store32, off_kernel_size, off_ramdisk_size, off_second_size, off_kernel_addr, off_ramdisk_addr,
    off_second_addr, off_tags_addr, off_page_size, BOOT_MAGIC. cbv zeta.
  do 12 run_store. rewrite ?length_le_split in *. change (length (bs "ANDROID!")) with 8%nat in *.
  eexists. split; [reflexivity|]. split; [congruence|].
  rewrite (word_slice _ 8 (Z.of_nat (length kernel))) by (try lia; by past_stores).
  rewrite (word_slice _ 16 (Z.of_nat (length ramdisk))) by (try lia; by past_stores).
  rewrite (word_slice _ 24 (Z.of_nat (length second))) by (try lia; by past_stores).
  rewrite !Nat2Z.id. fold ka ra. split; [|by past_stores].
  repeat f_equal; by past_stores.
Qed.
End fastboot_img.

(** C40 (roundtrip). For any power-of-two page size of at least 64 bytes, and
    contents that fit in 32 bits, fastboot's mkbootimg builds an image inside the
    memory it allocates, from which the documented layout reads back exactly the
    kernel, the ramdisk and the second stage. *)
Theorem fastboot_mkbootimg_layout (k : Z) (kernel ramdisk second : bytes) (base : Z) :
  let page := Z.to_nat (2 ^ k) in
  let total := (page + page * pages page (length kernel) + page * pages page (length ramdisk)
                + page * pages page (length second))%nat in
  6 <= k < 32 -> Z.of_nat total < 2 ^ 32 ->
  exists img, FastbootImg.mkbootimg kernel ramdisk second (2 ^ k) base = Some (img, Z.of_nat total) /\
    length img = total /\ layout page img = (kernel, ramdisk, second).
Proof.
  intros page total Hk Ht.
  destruct (mkbootimg_ok k kernel ramdisk second base page total eq_refl eq_refl Hk Ht) as (img & H1 & H2 & H3 & _).
  by exists img.
Qed.

Lemma fastboot_mkbootimg_layout_witness :
  exists img, FastbootImg.mkbootimg [1; 2; 3] [4] [] (2 ^ 6) 0x10000000 = Some (img, 192) /\
    length img = 192%nat /\ layout 64 img = ([1; 2; 3], [4], []).
Proof. apply (fastboot_mkbootimg_layout 6 [1; 2; 3] [4] []); [lia|by vm_compute]. Defined.

(** ** The command line tool *)

Section tool.
Import FastbootImg MkBootImg.

(** What is written after an item of [n] bytes: zeros up to a multiple of two pages. *)
Definition fill (n : nat) : bytes := replicate (4096 * pages 4096 n - n) 0.

Lemma write_ok f d :
  (length d <= room f)%nat -> write f d = Some (mk_file (contents f ++ d) (room f - length d)).
Proof. intros H. unfold write. by rewrite decide_True. Qed.

Lemma pages_two n :
  exists c, (4096 * pages 4096 n)%nat = (2048 * (c + c mod 2))%nat /\ (n <= 2048 * c < n + 2048)%nat /\
    Z.of_nat c = (if Z.of_nat n mod 2048 =? 0 then Z.of_nat n / 2048 else Z.of_nat n / 2048 + 1).
Proof.
  exists (pages 2048 n). destruct (pages_spec 2048 n ltac:(lia)) as [H1 H2].
  destruct (pages_spec 4096 n ltac:(lia)) as [H3 H4].
  pose proof (Nat.div_mod (pages 2048 n) 2 ltac:(lia)). pose proof (Nat.mod_upper_bound (pages 2048 n) 2 ltac:(lia)).
  split; [nia|]. split; [lia|].
  pose proof (Z.div_mod (Z.of_nat n) 2048 ltac:(lia)). pose proof (Z.mod_pos_bound (Z.of_nat n) 2048 ltac:(lia)).
  destruct (Z.eqb_spec (Z.of_nat n mod 2048) 0); nia.
Qed.

Lemma write_item_ok f d n :
  (length d + length (fill n) <= room f)%nat ->
  write_item f d (Z.of_nat n)
  = Some (mk_file (contents f ++ d ++ fill n) (room f - (length d + length (fill n)))).
Proof.
  destruct (pages_two n) as (c & Hc & Hn & Hcz).
  unfold fill. rewrite length_replicate, Hc. intros Hr. unfold write_item.
  rewrite write_ok by lia. cbn [mbind option_bind]. unfold write_padding.
  assert (Z.land (Z.of_nat n) (pagesize - 1) = Z.of_nat n mod 2048) as ->
    by (change (pagesize - 1) with (Z.ones 11); rewrite Z.land_ones by lia; done).
  pose proof (Z.div_mod (Z.of_nat n) 2048 ltac:(lia)) as Hdm.
  pose proof (Z.mod_pos_bound (Z.of_nat n) 2048 ltac:(lia)) as Hmb.
  assert (exists f1, (if Z.of_nat n mod 2048 =? 0 then Some (mk_file (contents f ++ d) (room f - length d))
     else write (mk_file (contents f ++ d) (room f - length d))
            (replicate (Z.to_nat (pagesize - Z.of_nat n mod 2048)) 0)) = Some f1 /\
     f1 = mk_file (contents f ++ d ++ replicate (2048 * c - n) 0) (room f - (length d + (2048 * c - n)))) as (f1 & E1 & ->).
  { destruct (Z.eqb_spec (Z.of_nat n mod 2048) 0) as [Hz|Hz].
    - assert (2048 * c - n = 0)%nat as -> by lia. eexists. split; [reflexivity|].
      cbn [replicate]. rewrite app_nil_r, Nat.add_0_r. done.
    - rewrite write_ok; cbn [room contents]; rewrite ?length_replicate; unfold pagesize; [|lia].
      eexists. split; [reflexivity|].
      assert (Z.to_nat (2048 - Z.of_nat n mod 2048) = (2048 * c - n)%nat) as -> by lia.
      rewrite app_assoc. f_equal. lia. }
  rewrite E1. cbn [mbind option_bind]. unfold write_page_padding. change pagesize with 2048. rewrite <- Hcz.
  assert (Z.of_nat c mod 2 = Z.of_nat (c mod 2)) as -> by (by rewrite Nat2Z.inj_mod).
  pose proof (Nat.mod_upper_bound c 2 ltac:(lia)).
  destruct (Z.eqb_spec (Z.of_nat (c mod 2)) 0) as [Hz|Hz].
  - assert (c mod 2 = 0)%nat as -> by lia. rewrite Nat.add_0_r. done.
  - rewrite write_ok; cbn [room contents]; rewrite length_replicate; change (Z.to_nat 2048) with 2048%nat; [|lia].
    do 2 f_equal; [|lia]. rewrite <- !app_assoc. do 2 f_equal. rewrite <- replicate_add. f_equal. lia.
Qed.

(** The hash of the header is the SHA-1 digest of the contents and their sizes. *)
Definition hashed (kernel ramdisk second : bytes) : bytes :=
  kernel ++ le_split 4 (Z.of_nat (length kernel)) ++ ramdisk ++ le_split 4 (Z.of_nat (length ramdisk))
  ++ second ++ le_split 4 (Z.of_nat (length second)).

Lemma image_id_digest ctx kernel ramdisk second :
  length (Sha.buf ctx) = 64%nat -> Forall is_u8 kernel -> Forall is_u8 ramdisk -> Forall is_u8 second ->
  8 * Z.of_nat (length (hashed kernel ramdisk second)) < 2 ^ 64 ->
  image_id ctx kernel ramdisk second = Some (Fips.digest (hashed kernel ramdisk second)).
Proof.
  intros Hb Hk Hr Hs Hlen. unfold image_id.
  assert (forall c m d, Forall is_u8 d -> Forall is_u8 m /\ absorbed c m ->
            Forall is_u8 (m ++ d) /\ absorbed (Sha.SHA_update c d) (m ++ d)) as Hstep.
  { intros c m d Hd [Hm Hc]. split; [by apply Forall_app|by apply SHA_update_absorbs]. }
  assert (forall v, Forall is_u8 (le_split 4 v)) as Hle by (intros; apply le_split_bytes).
  pose proof (conj (Forall_nil_2 is_u8) (SHA_init_absorbed ctx Hb)) as H0.
  apply (Hstep _ _ kernel Hk), (Hstep _ _ _ (Hle (Z.of_nat (length kernel)))) in H0.
  apply (Hstep _ _ ramdisk Hr), (Hstep _ _ _ (Hle (Z.of_nat (length ramdisk)))) in H0.
  apply (Hstep _ _ second Hs), (Hstep _ _ _ (Hle (Z.of_nat (length second)))) in H0.
  cbn [app] in H0. rewrite <- !app_assoc in H0. fold (hashed kernel ramdisk second) in H0.
  destruct H0 as [Hu Ha].
  destruct (SHA_final_digest _ (hashed kernel ramdisk second) Hu Hlen Ha) as (c & Hc & E).
  rewrite Hc. cbn [mbind option_bind]. by rewrite E.
Qed.

Lemma digest_length m : length (Fips.digest m) = 20%nat.
Proof.
  unfold Fips.digest. set (l := Fips.chain _ _ _). assert (length l = 5%nat) as Hl by apply length_chain.
  clearbody l. do 6 (destruct l as [|? l]; [try done|]); done.
Qed.

Lemma field_length n s : (length s <= n)%nat -> length (field n s) = n.
Proof. intros H. unfold field. rewrite length_app, length_replicate. lia. Qed.

Lemma header_length kernel ramdisk second cmd name sha :
  (length name <= 16)%nat -> (length cmd <= 512)%nat -> length sha = 20%nat ->
  length (header kernel ramdisk second cmd name sha) = HDR_SIZE.
Proof.
  intros H1 H2 H3. unfold header. rewrite !length_app, !length_le_split, !field_length; [done|lia|done|done].
Qed.

(** Step over the fields in front of the one that is read. *)
Ltac skip_words :=
  repeat (rewrite slice_app_r by (rewrite ?length_le_split; try change (length BOOT_MAGIC) with 8%nat; lia);
          rewrite ?length_le_split; try change (length BOOT_MAGIC) with 8%nat; cbn [Nat.sub]).

Lemma header_words kernel ramdisk second cmd name sha rest :
  Z.of_nat (length kernel) < 2 ^ 32 -> Z.of_nat (length ramdisk) < 2 ^ 32 -> Z.of_nat (length second) < 2 ^ 32 ->
  let img := header kernel ramdisk second cmd name sha ++ rest in
  word img off_kernel_size = length kernel /\ word img off_ramdisk_size = length ramdisk /\
  word img off_second_size = length second /\ word img off_page_size = 2048%nat.
Proof.
  intros Hk Hr Hs img. unfold img, header. rewrite <- !app_assoc.
  unfold off_kernel_size, off_ramdisk_size, off_second_size, off_page_size.
  assert (forall v tl, slice (le_split 4 v ++ tl) 0 4 = le_split 4 v) as Hsl
    by (intros v tl; apply (slice_all (le_split 4 v) tl)).
  split_and!.
  - rewrite (word_slice _ _ (Z.of_nat (length kernel))); [apply Nat2Z.id|lia|]. skip_words. apply Hsl.
  - rewrite (word_slice _ _ (Z.of_nat (length ramdisk))); [apply Nat2Z.id|lia|]. skip_words. apply Hsl.
  - rewrite (word_slice _ _ (Z.of_nat (length second))); [apply Nat2Z.id|lia|]. skip_words. apply Hsl.
  - rewrite (word_slice _ _ 2048); [done|lia|]. skip_words. apply Hsl.
Qed.

Lemma header_id kernel ramdisk second cmd name sha rest :
  (length name <= 16)%nat -> (length cmd <= 512)%nat -> length sha = 20%nat ->
  slice (header kernel ramdisk second cmd name sha ++ rest) 576 20 = sha.
Proof.
  intros H1 H2 H3. unfold header. rewrite <- !app_assoc. skip_words.
  rewrite slice_app_r by (rewrite field_length; unfold BOOT_NAME_SIZE; lia). rewrite field_length by (unfold BOOT_NAME_SIZE; lia).
  rewrite slice_app_r by (rewrite field_length; unfold BOOT_NAME_SIZE, BOOT_ARGS_SIZE; lia).
  rewrite field_length by (unfold BOOT_ARGS_SIZE; lia). unfold BOOT_NAME_SIZE, BOOT_ARGS_SIZE. cbn [Nat.sub].
  unfold field. rewrite <- app_assoc, <- H3. apply slice_all.
Qed.

Lemma fill_length n : (n + length (fill n))%nat = (4096 * pages 4096 n)%nat.
Proof. unfold fill. rewrite length_replicate. destruct (pages_spec 4096 n ltac:(lia)). lia. Qed.

(** The image that the writes produce, and its layout for pages of 4096 bytes. *)
Lemma write_image_ok space hdr kernel ramdisk second :
  length hdr = HDR_SIZE ->
  (4096 + 4096 * pages 4096 (length kernel) + 4096 * pages 4096 (length ramdisk)
   + length (default [] second) + 4096 <= space)%nat ->
  exists f tail, write_image (mk_file [] space) hdr kernel ramdisk second = Some f /\
    contents f = hdr ++ fill 608 ++ kernel ++ fill (length kernel) ++ ramdisk ++ fill (length ramdisk)
                 ++ default [] second ++ tail.
Proof.
  intros Hh Hsp. unfold write_image, HDR_SIZE in *.
  pose proof (fill_length 608) as F1. pose proof (fill_length (length kernel)) as F2.
  pose proof (fill_length (length ramdisk)) as F3. change (4096 * pages 4096 608)%nat with 4096%nat in F1.
  rewrite write_item_ok by (cbn [room]; lia). cbn [mbind option_bind room contents app].
  rewrite write_item_ok by (cbn [room]; lia). cbn [mbind option_bind room contents].
  rewrite write_item_ok by (cbn [room]; lia). cbn [mbind option_bind room contents].
  destruct second as [d|]; cbn [default from_option] in *.
  - destruct (pages_spec 4096 (length ramdisk) ltac:(lia)).
    rewrite write_item_ok by (cbn [room]; change (Datatypes.id d) with d in *; lia).
    eexists _, (fill (length ramdisk)). split; [reflexivity|]. cbn [contents]. rewrite <- !app_assoc. reflexivity.
  - eexists _, []. split; [reflexivity|]. cbn [contents]. rewrite <- !app_assoc, !app_nil_r. reflexivity.
Qed.

Lemma layout_image hdr kernel ramdisk sec tail (img := hdr ++ fill 608 ++ kernel ++ fill (length kernel)
    ++ ramdisk ++ fill (length ramdisk) ++ sec ++ tail) :
  length hdr = HDR_SIZE -> word img off_kernel_size = length kernel ->
  word img off_ramdisk_size = length ramdisk -> word img off_second_size = length sec ->
  layout 4096 img = (kernel, ramdisk, sec).
Proof.
  intros Hh W1 W2 W3. unfold layout. rewrite W1, W2, W3. unfold img. clear W1 W2 W3 img. unfold HDR_SIZE in Hh.
  pose proof (fill_length 608) as F1. pose proof (fill_length (length kernel)) as F2.
  pose proof (fill_length (length ramdisk)) as F3. change (4096 * pages 4096 608)%nat with 4096%nat in F1.
  set (pk := (4096 * pages 4096 (length kernel))%nat) in *.
  set (pr := (4096 * pages 4096 (length ramdisk))%nat) in *.
  assert (forall (a b c : bytes) o, (length a <= o)%nat -> (o - length a = 0)%nat -> slice (a ++ b ++ c) o (length b) = b) as Hs.
  { intros a b c o H1 H2. rewrite slice_app_r by done. rewrite H2. apply slice_all. }
  repeat f_equal.
  - rewrite (app_assoc hdr). apply Hs; rewrite length_app; lia.
  - rewrite (app_assoc hdr), (app_assoc (hdr ++ _)), (app_assoc ((hdr ++ _) ++ _)).
    apply Hs; rewrite !length_app; lia.
  - rewrite (app_assoc hdr), (app_assoc (hdr ++ _)), (app_assoc ((hdr ++ _) ++ _)),
      (app_assoc (((hdr ++ _) ++ _) ++ _)), (app_assoc ((((hdr ++ _) ++ _) ++ _) ++ _)).
    apply Hs; rewrite !length_app; lia.
Qed.
End tool.

(** With valid arguments, readable files and room on the disk,
    the mkbootimg tool writes an image from which the documented layout reads back
    kernel, ramdisk and second stage, and whose id is the SHA-1 digest of them and
    their sizes; but for pages of 4096 bytes, while the header it writes says 2048. *)
Theorem mkbootimg_tool_layout (load_file : bytes -> option bytes) (space : nat) (ctx : Sha.SHA_CTX)
    (argv : list bytes) (o : MkBootImg.options) (out k r kernel ramdisk : bytes) (second : option bytes) :
  MkBootImg.parse_args MkBootImg.no_options argv = Some o ->
  MkBootImg.bootimg o = Some out -> MkBootImg.kernel_fn o = Some k -> MkBootImg.ramdisk_fn o = Some r ->
  load_file k = Some kernel ->
  (if bool_decide (r = bs "NONE") then Some [] else load_file r) = Some ramdisk ->
  match MkBootImg.second_fn o with None => Some None | Some fn => Some <$> load_file fn end = Some second ->
  (length (MkBootImg.board o) < 16)%nat -> (length (MkBootImg.cmdline o) < 512)%nat ->
  length (Sha.buf ctx) = 64%nat ->
  Forall is_u8 kernel -> Forall is_u8 ramdisk -> Forall is_u8 (default [] second) ->
  Z.of_nat (length kernel + length ramdisk + length (default [] second)) < 2 ^ 31 ->
  (4096 + 4096 * pages 4096 (length kernel) + 4096 * pages 4096 (length ramdisk)
   + length (default [] second) + 4096 <= space)%nat ->
  exists img, MkBootImg.main load_file space ctx argv = MkBootImg.Image img /\
    layout 4096 img = (kernel, ramdisk, default [] second) /\
    word img FastbootImg.off_page_size = 2048%nat /\
    slice img 576 20 = Fips.digest (hashed kernel ramdisk (default [] second)).
Proof.
  intros Hargs H1 H2 H3 Hk Hr Hs Hb Hc Hctx U1 U2 U3 Hlen Hsp. unfold MkBootImg.main.
  rewrite Hargs, H1, H2, H3.
  destruct (Nat.leb_spec FastbootImg.BOOT_NAME_SIZE (length (MkBootImg.board o))) as [H|_];
    [unfold FastbootImg.BOOT_NAME_SIZE in H; lia|].
  destruct (Nat.ltb_spec (FastbootImg.BOOT_ARGS_SIZE - 1) (length (MkBootImg.cmdline o))) as [H|_];
    [unfold FastbootImg.BOOT_ARGS_SIZE in H; lia|].
  rewrite Hk, Hr, Hs. set (sec := default [] second) in *.
  assert (8 * Z.of_nat (length (hashed kernel ramdisk sec)) < 2 ^ 64) as Hh
    by (unfold hashed; rewrite !length_app, !length_le_split; lia).
  rewrite image_id_digest by done. set (sha := Fips.digest _).
  assert (length sha = 20%nat) as Hsha by apply digest_length.
  set (hdr := MkBootImg.header kernel ramdisk sec (MkBootImg.cmdline o) (MkBootImg.board o) sha).
  assert (length hdr = FastbootImg.HDR_SIZE) as Hhl by (apply header_length; [lia|lia|done]).
  destruct (write_image_ok space hdr kernel ramdisk second Hhl Hsp) as (f & tail & -> & Hf). fold sec in Hf.
  destruct (header_words kernel ramdisk sec (MkBootImg.cmdline o) (MkBootImg.board o) sha
    (fill 608 ++ kernel ++ fill (length kernel) ++ ramdisk ++ fill (length ramdisk) ++ sec ++ tail))
    as (W1 & W2 & W3 & W4); [lia|lia|lia|]. fold hdr in W1, W2, W3, W4.
  exists (MkBootImg.contents f). rewrite Hf. split_and!; [done|by apply layout_image|done|].
  apply header_id; [lia|lia|done].
Qed.

Lemma mkbootimg_tool_layout_witness :
  let files fn := if bool_decide (fn = bs "k") then Some [1; 2; 3] else if bool_decide (fn = bs "r") then Some [4] else None in
  exists img, MkBootImg.main files 40000 ctx_any [bs "-o"; bs "boot.img"; bs "--kernel"; bs "k"; bs "--ramdisk"; bs "r"]
      = MkBootImg.Image img /\
    layout 4096 img = ([1; 2; 3], [4], []) /\ word img FastbootImg.off_page_size = 2048%nat /\
    slice img 576 20 = Fips.digest (hashed [1; 2; 3] [4] []).
Proof.
  intros files.
  apply (mkbootimg_tool_layout files 40000 ctx_any _
    (MkBootImg.mk_opt (Some (bs "boot.img")) (Some (bs "k")) (Some (bs "r")) None [] [] None)
    (bs "boot.img") (bs "k") (bs "r") [1; 2; 3] [4] None); try done; try by_compute; try (vm_compute; lia).
Defined.
