(* ===== verification/Fastboot.v ===== *)
(** * The fastboot protocol and action queue (tools/fastboot/protocol.c, engine.c)

    [Protocol] sends a command to the boot loader and interprets its replies;
    [Engine] queues actions and runs them until one fails.  The device is the
    list of replies it will give; running off that list is a call that never
    returns. *)

From S2P Require Import Prelude.

Module Protocol.

(** The link: what the reads to come return ([None]: the read fails; a read asks
    for 64 bytes, so none is longer), results of the writes to come (full length
    when the list runs out), what was written, whether the handle was closed, the
    text of strerror for a failed call, the ERROR string and the lines printed for
    INFO. *)
Record usb := mk_usb {
  replies : list (option bytes);
  wresults : list Z;
  written : list bytes;
  closed : bool;
  strerror : bytes;
  error : bytes;
  printed : list bytes
}.

Definition put_replies (u : usb) l := mk_usb l (wresults u) (written u) (closed u) (strerror u) (error u) (printed u).
Definition set_error (u : usb) e := mk_usb (replies u) (wresults u) (written u) (closed u) (strerror u) e (printed u).
Definition usb_close (u : usb) := mk_usb (replies u) (wresults u) (written u) true (strerror u) (error u) (printed u).
Definition paren (msg : string) (detail : bytes) : bytes := bs msg ++ bs " (" ++ detail ++ bs ")".
Definition print (u : usb) s := mk_usb (replies u) (wresults u) (written u) (closed u) (strerror u) (error u) (printed u ++ [s]).
Definition usb_write (u : usb) (d : bytes) : Z * usb :=
  match wresults u with
  | [] => (Z.of_nat (length d), mk_usb (replies u) [] (written u ++ [d]) (closed u) (strerror u) (error u) (printed u))
  | r :: l => (r, mk_usb (replies u) l (written u ++ [d]) (closed u) (strerror u) (error u) (printed u))
  end.

(** [%s] of a buffer: up to the first zero byte. *)
Definition hex_value (c : Z) : option Z :=
  if (48 <=? c) && (c <=? 57) then Some (c - 48)
  else if (97 <=? c) && (c <=? 102) then Some (c - 87)
  else if (65 <=? c) && (c <=? 70) then Some (c - 55)
  else None.
Fixpoint hex_digits (s : bytes) (acc : Z) : Z :=
  match s with
  | [] => acc
  | c :: s => match hex_value c with Some v => hex_digits s (Z.min (16 * acc + v) (2 ^ 64 - 1)) | None => acc end
  end.
(** An optional sign, an optional 0x in front of a digit. *)
Definition strip_sign (s : bytes) : bool * bytes :=
  match s with
  | c :: s' => if c =? 45 then (true, s') else if c =? 43 then (false, s') else (false, s)
  | [] => (false, [])
  end.
Definition strip_0x (s : bytes) : bytes :=
  match s with
  | z :: x :: d :: s' =>
      if (z =? 48) && ((x =? 120) || (x =? 88)) && bool_decide (hex_value d <> None) then d :: s' else s
  | _ => s
  end.
(** [strtoul(s, 0, 16)] with a 64-bit long, assigned to an unsigned. *)
Definition strtoul16 (s : bytes) : Z :=
  let '(neg, s) := strip_sign (skip_space s) in
  let v := hex_digits (strip_0x s) 0 in
  u32 (if neg : bool then u64 (- v) else v).

Definition starts (p s : bytes) : bool := bool_decide (take (length p) s = p).

(** check_response: the value returned and the text for [response]; [None] when
    the device never answers. *)
Fixpoint check_response (l : list (option bytes)) (u : usb) (size : Z) (data_okay : bool)
    : option (Z * bytes * usb) :=
  match l with
  | [] => None
  | None :: l => Some (-1, [], usb_close (set_error (put_replies u l) (paren "status read failed" (strerror u))))
  | Some status :: l' =>
      let u := put_replies u l' in
      if (length status <? 4)%nat then Some (-1, [], usb_close (set_error u (paren "status malformed" ([48 + Z.of_nat (length status)] ++ bs " bytes"))))
      else
        let text := until_nul (drop 4 status) in
        if starts (bs "INFO") status then check_response l' (print u text) size data_okay
        else if starts (bs "OKAY") status then Some (0, text, u)
        else if starts (bs "FAIL") status then
          Some (-1, [], set_error u (if (4 <? length status)%nat then bs "remote: " ++ text
                                     else bs "remote failure"))
        else if starts (bs "DATA") status && data_okay then
          let dsize := strtoul16 text in
          if dsize >? size then Some (-1, [], usb_close (set_error u (bs "data size too large")))
          else Some (i32 dsize, [], u)
        else Some (-1, [], usb_close (set_error u (bs "unknown status code")))
  end.

Definition respond (u : usb) (size : Z) (data_okay : bool) : option (Z * bytes * usb) :=
  check_response (replies u) u size data_okay.

(** _command_send: result, response and link. *)
Definition command_send (u : usb) (cmd : bytes) (data : option bytes) (size : Z) : option (Z * bytes * usb) :=
  if (64 <? length cmd)%nat then Some (-1, [], set_error u (bs "command too large"))
  else
    let '(r, u) := usb_write u cmd in
    if negb (r =? Z.of_nat (length cmd)) then Some (-1, [], usb_close (set_error u (paren "command write failed" (strerror u))))
    else match data with
    | None => respond u size false
    | Some d =>
        match respond u size true with
        | None => None
        | Some (r, _, u) =>
            if r <? 0 then Some (-1, [], u)
            else
              let size := r in
              let '(ok, u) :=
                if size =? 0 then (true, u)
                else
                  let '(r, u) := usb_write u (take (Z.to_nat size) d) in
                  if r <? 0 then (false, usb_close (set_error u (paren "data transfer failure" (strerror u))))
                  else if negb (r =? size) then
                    (false, usb_close (set_error u (bs "data transfer failure (short transfer)")))
                  else (true, u) in
              if negb ok then Some (-1, [], u)
              else match respond u 0 false with
                   | None => None
                   | Some (r, _, u) => if r <? 0 then Some (-1, [], u) else Some (size, [], u)
                   end
        end
    end.

Definition fb_command (u : usb) (cmd : bytes) : option (Z * usb) :=
  '(r, _, u) ← command_send u cmd None 0; Some (r, u).
Definition fb_command_response (u : usb) (cmd : bytes) : option (Z * bytes * usb) :=
  command_send u cmd None 0.

(** "%08x" *)
Definition hexdigit (n : Z) : Z := if n <? 10 then 48 + n else 87 + n.
Fixpoint hexn (k : nat) (n : Z) : bytes :=
  match k with O => [] | S k => hexn k (n / 16) ++ [hexdigit (n mod 16)] end.

Definition fb_download_data (u : usb) (data : bytes) : option (Z * usb) :=
  let size := Z.of_nat (length data) in
  '(r, _, u) ← command_send u (bs "download:" ++ hexn 8 size) (Some data) size;
  Some (if r <? 0 then -1 else 0, u).

End Protocol.

Module Engine.
Import Protocol.

(** The callback of an action decides what a status and a response mean. *)
Inductive callback := cb_default | cb_require | cb_reject | cb_display | cb_do_nothing.

Inductive action :=
  | Download (data : bytes) (func : callback)
  | Command (cmd : bytes) (func : callback)
  | Query (cmd : bytes) (values : list bytes) (func : callback)
  | Notice (text : bytes).

Abbreviation queue := (list action).

(** queue_action prints the command into [cmd], an array of 64 characters, and
    links the action at the end; [None] when the text does not fit. *)
Definition queue_action (q : queue) (cmd : bytes) (a : action) : option queue :=
  if (length cmd <? 64)%nat then Some (q ++ [a]) else None.

Definition fb_queue_erase (q : queue) (ptn : bytes) : option queue :=
  let cmd := bs "erase:" ++ ptn in queue_action q cmd (Command cmd cb_default).
Definition fb_queue_flash (q : queue) (ptn data : bytes) : option queue :=
  q ← queue_action q [] (Download data cb_default);
  let cmd := bs "flash:" ++ ptn in queue_action q cmd (Command cmd cb_default).
Definition fb_queue_require (q : queue) (var : bytes) (invert : bool) (values : list bytes) : option queue :=
  let cmd := bs "getvar:" ++ var in
  queue_action q cmd (Query cmd values (if invert then cb_reject else cb_require)).
Definition fb_queue_display (q : queue) (var name : bytes) : option queue :=
  let cmd := bs "getvar:" ++ var in queue_action q cmd (Query cmd [name] cb_display).
Definition fb_queue_reboot (q : queue) : option queue :=
  queue_action q (bs "reboot") (Command (bs "reboot") cb_do_nothing).
(** The command is the format itself: one with a '%' in it (37) reads arguments
    that are not there. *)
Definition fb_queue_command (q : queue) (cmd : bytes) : option queue :=
  if existsb (Z.eqb 37) cmd then None else queue_action q cmd (Command cmd cb_default).
Definition fb_queue_download (q : queue) (data : bytes) : option queue :=
  queue_action q [] (Download data cb_default).
Definition fb_queue_notice (q : queue) (text : bytes) : option queue := queue_action q [] (Notice text).

(** [!strncmp(a, b, n)] on strings of which [a] has at least [n] characters *)
Definition is_prefix (a b : bytes) : bool := bool_decide (take (length a) b = a).

(** match: a value that ends in '*' and is longer than that matches by prefix. *)
Definition match_one (str val : bytes) : bool :=
  match last val with
  | Some 42 => if (1 <? length val)%nat then is_prefix (take (length val - 1) val) str
               else bool_decide (val = str)
  | _ => bool_decide (val = str)
  end.
Definition match_ (str : bytes) (values : list bytes) : bool := existsb (match_one str) values.

Definition call (f : callback) (values : list bytes) (status : Z) (resp : bytes) : Z :=
  match f with
  | cb_default | cb_display => status
  | cb_do_nothing => 0
  | cb_require => if negb (status =? 0) then status else if match_ resp values then 0 else -1
  | cb_reject => if negb (status =? 0) then status else if negb (match_ resp values) then 0 else -1
  end.

Definition run_action (a : action) (u : usb) : option (Z * usb) :=
  match a with
  | Download data f => '(r, u) ← fb_download_data u data; Some (call f [] r (if r =? 0 then [] else error u), u)
  | Command cmd f => '(r, u) ← fb_command u cmd; Some (call f [] r (if r =? 0 then [] else error u), u)
  | Query cmd values f =>
      '(r, resp, u) ← fb_command_response u cmd;
      Some (call f values r (if r =? 0 then resp else error u), u)
  | Notice _ => Some (0, u)
  end.

(** fb_execute_queue stops at the first nonzero status, which it returns here. *)
Fixpoint fb_execute_queue (q : queue) (u : usb) : option (Z * usb) :=
  match q with
  | [] => Some (0, u)
  | a :: q =>
      '(r, u) ← run_action a u;
      if negb (r =? 0) then Some (r, u) else fb_execute_queue q u
  end.

End Engine.

Section hex.
Import Protocol.

Lemma hex_value_digit n : 0 <= n < 16 -> hex_value (hexdigit n) = Some n.
Proof.
  intros Hn. unfold hex_value, hexdigit. destruct (Z.ltb_spec n 10).
  - rewrite (proj2 (Z.leb_le 48 (48 + n))), (proj2 (Z.leb_le (48 + n) 57)) by lia. cbn. f_equal. lia.
  - destruct (Z.leb_spec 48 (87 + n)), (Z.leb_spec (87 + n) 57); try lia. cbn.
    rewrite (proj2 (Z.leb_le 97 (87 + n))), (proj2 (Z.leb_le (87 + n) 102)) by lia. cbn. f_equal. lia.
Qed.

Lemma hexdigit_plain n : 0 <= n < 16 ->
  is_space (hexdigit n) = false /\ hexdigit n <> 45 /\ hexdigit n <> 43 /\ hexdigit n <> 120 /\ hexdigit n <> 88.
Proof.
  intros Hn. unfold is_space, hexdigit. destruct (Z.ltb_spec n 10).
  - destruct (Z.eqb_spec (48 + n) 32), (Z.leb_spec 9 (48 + n)), (Z.leb_spec (48 + n) 13); cbn; split_and!; done || lia.
  - destruct (Z.eqb_spec (87 + n) 32), (Z.leb_spec 9 (87 + n)), (Z.leb_spec (87 + n) 13); cbn; split_and!; done || lia.
Qed.

Lemma hex_digits_hexn k : forall n s acc,
  0 <= n < 16 ^ Z.of_nat k -> 0 <= acc -> (acc + 1) * 16 ^ Z.of_nat k <= 2 ^ 64 ->
  hex_digits (hexn k n ++ s) acc = hex_digits s (acc * 16 ^ Z.of_nat k + n).
Proof.
  induction k as [|k IH]; intros n s acc Hn Ha Hb; cbn [hexn].
  { cbn [app]. f_equal. change (16 ^ Z.of_nat 0) with 1 in *. lia. }
  rewrite Nat2Z.inj_succ, Z.pow_succ_r in * by lia.
  pose proof (Z.div_mod n 16 ltac:(lia)). pose proof (Z.mod_pos_bound n 16 ltac:(lia)).
  rewrite <- app_assoc, IH by nia. cbn [app hex_digits]. rewrite hex_value_digit by done.
  f_equal. rewrite Z.min_l by nia. nia.
Qed.

Lemma strtoul16_hexn n : 0 <= n < 2 ^ 32 -> strtoul16 (hexn 8 n) = n.
Proof.
  intros Hn. unfold strtoul16.
  pose proof (hex_digits_hexn 8 n [] 0 ltac:(change (16 ^ Z.of_nat 8) with (2 ^ 32); lia) ltac:(lia) ltac:(done)) as Hd.
  rewrite app_nil_r in Hd. change (hex_digits [] (0 * 16 ^ Z.of_nat 8 + n)) with n in Hd.
  assert (exists a b c l, hexn 8 n = hexdigit a :: hexdigit b :: c :: l /\ 0 <= a < 16 /\ 0 <= b < 16)
    as (a & b & c & l & E & Ha & Hb).
  { cbn [hexn app]. eexists _, _, _, _. split; [reflexivity|]. split; apply Z.mod_pos_bound; lia. }
  destruct (hexdigit_plain a Ha) as (S1 & N1 & N2 & _). destruct (hexdigit_plain b Hb) as (_ & _ & _ & N3 & N4).
  rewrite E in Hd |- *. cbn [skip_space]. rewrite S1. cbn [strip_sign].
  rewrite (proj2 (Z.eqb_neq _ _) N1), (proj2 (Z.eqb_neq _ _) N2). cbn [strip_0x].
  rewrite (proj2 (Z.eqb_neq _ _) N3), (proj2 (Z.eqb_neq _ _) N4). cbn [orb]. rewrite andb_false_r. cbn [andb].
  rewrite Hd. unfold u32. apply Z.mod_small. lia.
Qed.
End hex.

Section protocol.
Import Protocol.

Definition info (t : bytes) : option bytes := Some (bs "INFO" ++ t).

Lemma check_response_infos ts : forall l u size ok,
  exists p, check_response (map info ts ++ l) u size ok =
    check_response l (mk_usb (replies u) (wresults u) (written u) (closed u) (strerror u) (error u) p) size ok.
Proof.
  induction ts as [|t ts IH]; intros l u size ok; cbn [map app].
  { exists (printed u). by destruct u. }
  cbn [check_response info].
  destruct (IH l (print (put_replies u (map info ts ++ l)) (until_nul (drop 4 (bs "INFO" ++ t)))) size ok) as (p & E).
  exists p. change (length (bs "INFO" ++ t) <? 4)%nat with false.
  change (starts (bs "INFO") (bs "INFO" ++ t)) with true. cbv iota. rewrite E.
  destruct l as [|[s|] l]; done.
Qed.

(** The device answers OKAY, after any number of INFO messages. *)
Lemma respond_okay u ts v rest size ok :
  replies u = map info ts ++ Some (bs "OKAY" ++ v) :: rest ->
  exists u', respond u size ok = Some (0, until_nul v, u') /\ replies u' = rest /\
    wresults u' = wresults u /\ written u' = written u /\ closed u' = closed u.
Proof.
  intros Hr. unfold respond. rewrite Hr.
  destruct (check_response_infos ts (Some (bs "OKAY" ++ v) :: rest) u size ok) as (p & ->).
  cbn [check_response]. change (length (bs "OKAY" ++ v) <? 4)%nat with false.
  change (starts (bs "INFO") (bs "OKAY" ++ v)) with false. change (starts (bs "OKAY") (bs "OKAY" ++ v)) with true.
  cbv iota. eexists. split; [reflexivity|]. done.
Qed.

(** ... or asks for [m] bytes of data. *)
Lemma respond_data u ts m rest size :
  replies u = map info ts ++ Some (bs "DATA" ++ hexn 8 m) :: rest -> 0 <= m <= size -> size < 2 ^ 31 ->
  exists u', respond u size true = Some (m, [], u') /\ replies u' = rest /\
    wresults u' = wresults u /\ written u' = written u /\ closed u' = closed u.
Proof.
  intros Hr Hm Hs. unfold respond. rewrite Hr.
  destruct (check_response_infos ts (Some (bs "DATA" ++ hexn 8 m) :: rest) u size true) as (p & ->).
  cbn [check_response]. change (length (bs "DATA" ++ hexn 8 m) <? 4)%nat with false.
  change (starts (bs "INFO") (bs "DATA" ++ hexn 8 m)) with false.
  change (starts (bs "OKAY") (bs "DATA" ++ hexn 8 m)) with false.
  change (starts (bs "FAIL") (bs "DATA" ++ hexn 8 m)) with false.
  change (starts (bs "DATA") (bs "DATA" ++ hexn 8 m)) with true. cbn [andb]. cbv iota.
  change (drop 4 (bs "DATA" ++ hexn 8 m)) with (hexn 8 m).
  assert (until_nul (hexn 8 m) = hexn 8 m) as ->.
  { assert (forall k n, until_nul (hexn k n) = hexn k n) as H; [|done].
    assert (forall a b, (forall x, x ∈ a -> x <> 0) -> until_nul (a ++ b) = a ++ until_nul b) as Happ.
    { induction a as [|x a IH]; intros b H; [done|]. cbn [app until_nul].
      rewrite (proj2 (Z.eqb_neq x 0)) by (apply H; by left). f_equal. apply IH. intros y Hy. apply H. by right. }
    assert (forall k n x, x ∈ hexn k n -> x <> 0) as Hne.
    { induction k as [|k IH]; intros n x; cbn [hexn]; [intros Hx; by apply not_elem_of_nil in Hx|].
      intros [Hx|Hx%list_elem_of_singleton]%elem_of_app; [by apply (IH (n / 16))|]. subst x.
      unfold hexdigit. pose proof (Z.mod_pos_bound n 16 ltac:(lia)). destruct (_ <? 10); lia. }
    intros k n. rewrite <- (app_nil_r (hexn k n)) at 1. rewrite Happ by apply Hne. apply app_nil_r. }
  rewrite strtoul16_hexn by lia. rewrite Z.gtb_ltb. destruct (Z.ltb_spec size m); [lia|].
  assert (i32 m = m) as -> by (unfold i32; rewrite Z.mod_small; lia).
  eexists. split; [reflexivity|]. done.
Qed.

Lemma usb_write_all u d :
  wresults u = [] ->
  exists u', usb_write u d = (Z.of_nat (length d), u') /\ replies u' = replies u /\ wresults u' = [] /\
    written u' = written u ++ [d] /\ closed u' = closed u.
Proof. intros Hw. unfold usb_write. rewrite Hw. eexists. by split_and!. Qed.

Lemma length_hexn k n : length (hexn k n) = k.
Proof. revert n. induction k as [|k IH]; intros n; [done|]. cbn [hexn]. rewrite length_app, IH. cbn. lia. Qed.
End protocol.

(** When the boot loader answers a download with a request for
    [m] bytes, at most as many as there are, and then accepts, whatever INFO lines
    it sends in between, fb_download_data succeeds after sending the command and
    exactly the first [m] bytes; it reports success also when that is not all. *)
Theorem fb_download_conversation (u : Protocol.usb) (data : bytes) (m : Z) (ts1 ts2 : list bytes) (v : bytes)
    (rest : list (option bytes)) :
  Z.of_nat (length data) < 2 ^ 31 -> 0 <= m <= Z.of_nat (length data) -> Protocol.wresults u = [] ->
  Protocol.replies u = map info ts1 ++ Some (bs "DATA" ++ Protocol.hexn 8 m)
                       :: map info ts2 ++ Some (bs "OKAY" ++ v) :: rest ->
  exists u', Protocol.fb_download_data u data = Some (0, u') /\ Protocol.replies u' = rest /\
    Protocol.closed u' = Protocol.closed u /\
    Protocol.written u' = Protocol.written u ++
      [bs "download:" ++ Protocol.hexn 8 (Z.of_nat (length data))] ++
      (if m =? 0 then [] else [take (Z.to_nat m) data]).
Proof.
  intros Hlen Hm Hw Hr. unfold Protocol.fb_download_data, Protocol.command_send.
  set (cmd := bs "download:" ++ _).
  assert (length cmd = 17%nat) as Hc by (unfold cmd; rewrite length_app, length_hexn; done).
  rewrite Hc. change (64 <? 17)%nat with false. cbv iota.
  destruct (usb_write_all u cmd Hw) as (u1 & -> & R1 & W1 & O1 & C1). rewrite Hc, Z.eqb_refl. cbn [negb].
  rewrite Hr in R1.
  destruct (respond_data u1 ts1 m _ (Z.of_nat (length data)) R1 Hm Hlen) as (u2 & -> & R2 & W2 & O2 & C2).
  destruct (Z.ltb_spec m 0); [lia|]. rewrite W1 in W2.
  destruct (Z.eqb_spec m 0) as [->|Hm0].
  - destruct (respond_okay u2 ts2 v rest 0 false R2) as (u3 & E & R3 & W3 & O3 & C3).
    cbn [negb]. rewrite E. cbn. exists u3. split_and!; try congruence. by rewrite O3, O2, O1.
  - destruct (usb_write_all u2 (take (Z.to_nat m) data) W2) as (u3 & -> & R3 & W3 & O3 & C3).
    rewrite length_take_le by lia. rewrite Z2Nat.id by lia. destruct (Z.ltb_spec m 0); [lia|].
    rewrite Z.eqb_refl. cbn [negb]. rewrite R2 in R3.
    destruct (respond_okay u3 ts2 v rest 0 false R3) as (u4 & E & R4 & W4 & O4 & C4). rewrite E. cbn [Z.ltb Z.compare].
    cbn [mbind option_bind]. destruct (Z.ltb_spec m 0); [lia|]. exists u4.
    split_and!; [done|done|congruence|]. rewrite O4, O3, O2, O1, <- app_assoc. done.
Qed.

Definition demo_usb (l : list (option bytes)) : Protocol.usb := Protocol.mk_usb l [] [] false (bs "EIO") [] [].

Lemma fb_download_conversation_witness :
  exists u', Protocol.fb_download_data (demo_usb [info (bs "hi"); Some (bs "DATA00000002"); Some (bs "OKAY")]) [7; 8; 9]
      = Some (0, u') /\ Protocol.replies u' = [] /\ Protocol.closed u' = false /\
    Protocol.written u' = [] ++ [bs "download:00000003"] ++ [[7; 8]].
Proof.
  apply (fb_download_conversation
    (demo_usb [info (bs "hi"); Some (bs "DATA00000002"); Some (bs "OKAY")]) [7; 8; 9] 2 [bs "hi"] [] [] []);
    [by vm_compute|cbn; lia|done|done].
Defined.

Section engine.
Import Protocol Engine.

Lemma match_one_spec str val :
  match_one str val = true <->
  val = str \/ exists p rest, p <> [] /\ val = p ++ [42] /\ str = p ++ rest.
Proof.
  unfold match_one. destruct (last val) as [c|] eqn:Hl.
  2:{ apply last_None in Hl as ->. rewrite bool_decide_eq_true. split; [auto|].
      intros [?|(p & r & Hp & E & _)]; [done|]. by destruct p. }
  apply last_Some in Hl as (q & ->). rewrite length_app. cbn [length].
  assert (take (length q + 1 - 1) (q ++ [c]) = q) as Htk.
  { replace (length q + 1 - 1)%nat with (length q) by lia. apply take_app_length. }
  assert (bool_decide (q ++ [c] = str) = true <->
    q ++ [c] = str \/ (c = 42 /\ q = [] /\ False)) as Hexact by (rewrite bool_decide_eq_true; tauto).
  destruct (decide (c = 42)) as [->|Hc].
  - destruct (Nat.ltb_spec 1 (length q + 1)) as [H1|H1].
    + rewrite Htk. unfold is_prefix. rewrite bool_decide_eq_true. split.
      * intros Hp. right. exists q, (drop (length q) str). split; [by destruct q; cbn in H1; [lia|]|].
        split; [done|]. by rewrite <- Hp at 1; rewrite take_drop.
      * intros [<-|(p & r & _ & E & ->)]; [by rewrite take_app_length|].
        apply app_inj_tail in E as [-> _]. apply take_app_length.
    + destruct q; [|cbn in H1; lia]. rewrite bool_decide_eq_true. split; [auto|].
      intros [?|(p & r & Hp & E & _)]; [done|]. destruct p as [|x [|y p]]; done.
  - assert ((match c with 42 => if (1 <? length q + 1)%nat then is_prefix (take (length q + 1 - 1) (q ++ [c])) str
              else bool_decide (q ++ [c] = str) | _ => bool_decide (q ++ [c] = str) end)
            = bool_decide (q ++ [c] = str)) as ->.
    { repeat (case_match; try done). }
    rewrite bool_decide_eq_true. split; [auto|].
    intros [?|(p & r & Hp & E & _)]; [done|]. apply app_inj_tail in E as [_ ?]. done.
Qed.
End engine.

(** The queue is run in order and stops at the first action
    that fails: running two queues one after the other is running the second one
    exactly when the first one succeeded. *)
Theorem execute_queue_app (a b : Engine.queue) (u : Protocol.usb) :
  Engine.fb_execute_queue (a ++ b) u =
  ('(r, u') ← Engine.fb_execute_queue a u;
   if negb (r =? 0) then Some (r, u') else Engine.fb_execute_queue b u').
Proof.
  revert u. induction a as [|x a IH]; intros u; cbn [app Engine.fb_execute_queue]; [done|].
  destruct (Engine.run_action x u) as [[r u']|]; [|done]. cbn [mbind option_bind].
  destruct (negb (r =? 0)) eqn:Hr; [cbn [mbind option_bind]; by rewrite Hr|]. apply IH.
Qed.

(** A requirement on a device variable guards what is queued after
    it: when the device reports a value that none of the allowed ones matches (by
    equality, or by prefix for one that ends in a star), the run ends with an
    error after sending nothing but the query. *)
Theorem require_guards (u : Protocol.usb) (var v : bytes) (values : list bytes) (q : Engine.queue)
    (ts : list bytes) (rest : list (option bytes)) :
  (length var <= 56)%nat -> Protocol.wresults u = [] -> no_nul v ->
  Protocol.replies u = map info ts ++ Some (bs "OKAY" ++ v) :: rest ->
  (forall val, val ∈ values -> val <> v /\ forall p s, p <> [] -> val = p ++ [42] -> v <> p ++ s) ->
  exists q0 u', Engine.fb_queue_require [] var false values = Some q0 /\
    Engine.fb_execute_queue (q0 ++ q) u = Some (-1, u') /\
    Protocol.written u' = Protocol.written u ++ [bs "getvar:" ++ var].
Proof.
  intros Hvar Hw Hv Hr Hno. unfold Engine.fb_queue_require, Engine.queue_action.
  destruct (Nat.ltb_spec (length (bs "getvar:" ++ var)) 64) as [_|Hl]; [|rewrite length_app in Hl; cbn in Hl; lia].
  exists [Engine.Query (bs "getvar:" ++ var) values Engine.cb_require]. cbn [app Engine.fb_execute_queue Engine.run_action].
  unfold Protocol.fb_command_response, Protocol.command_send. set (cmd := bs "getvar:" ++ var).
  assert (length cmd = (7 + length var)%nat) as Hc by (unfold cmd; by rewrite length_app).
  rewrite Hc. destruct (Nat.ltb_spec 64 (7 + length var)); [lia|].
  destruct (usb_write_all u cmd Hw) as (u1 & -> & R1 & W1 & O1 & C1). rewrite Hc, Z.eqb_refl. cbn [negb].
  rewrite Hr in R1. destruct (respond_okay u1 ts v rest 0 false R1) as (u2 & -> & R2 & W2 & O2 & C2).
  cbn [mbind option_bind]. rewrite Z.eqb_refl. unfold Engine.call. rewrite Z.eqb_refl. cbn [negb].
  rewrite (until_nul_id v) by done.
  assert (Engine.match_ v values = false) as ->.
  { unfold Engine.match_. apply not_true_is_false. intros (val & Hin & Hm)%existsb_exists.
    apply list_elem_of_In in Hin. destruct (Hno val Hin) as [N1 N2].
    apply match_one_spec in Hm as [?|(p & s & Hp & E & E')]; [done|]. by apply (N2 p s). }
  cbn. exists u2. split; [done|]. split; [done|]. by rewrite O2, O1.
Qed.

Lemma require_guards_witness :
  exists q0 u', Engine.fb_queue_require [] (bs "product") false [bs "twm*"] = Some q0 /\
    Engine.fb_execute_queue (q0 ++ [Engine.Command (bs "flash:boot") Engine.cb_default])
      (demo_usb [Some (bs "OKAY" ++ bs "t1")]) = Some (-1, u') /\
    Protocol.written u' = [] ++ [bs "getvar:product"].
Proof.
  apply (require_guards (demo_usb [Some (bs "OKAY" ++ bs "t1")]) (bs "product") (bs "t1") [bs "twm*"] _ [] []);
    [cbn; lia|done|by_compute|done|].
  intros val ->%list_elem_of_singleton. split; [done|]. intros p s Hp E.
  assert (p = bs "twm") as -> by (apply (app_inj_tail p (bs "twm") 42 42); by rewrite <- E).
  done.
Defined.
