(* ===== verification/FastbootMain.v ===== *)
(** * The fastboot command (tools/fastboot/fastboot.c)

    The options and commands of the command line, the requirements of
    android-info.txt, and the images and update packages that are queued for
    Fastboot's engine, which runs at the end.  die and usage stop the process; a
    write or read outside a buffer is undefined. *)

From S2P Require Import Prelude BootImg Fastboot.

Import Protocol Engine.

(** What the command asks of its surroundings.  [load]: how the calls of load_file
    on a file come out, [None] when it cannot be opened: the results of the two
    lseeks and what read gives when it is asked for that many bytes.  [package] is
    the zip library on the bytes of a package, [None] when it is not one: by name the
    size of an entry and what decompressing it into a buffer of a size gives. *)
Record loaded := mk_loaded { seek_end : Z; seek_set : Z; read_all : Z -> option bytes }.
Class Surroundings := {
  load : bytes -> option loaded;
  package : bytes -> option (bytes -> option (Z * (Z -> option bytes)));
  my_path : bytes;
  getenv : string -> option bytes
}.

Section fastboot.
Context `{Surroundings}.

Definition die {A} (msg : string) : outcome A := Stop ("error: " ++ msg)%string.
Definition usage {A} : outcome A := Stop "usage".

Definition PATH_MAX : nat := 4096.

(** sprintf into the rest of a buffer of [n] characters. *)
Definition sprintf (n : nat) (s : bytes) : outcome bytes :=
  if (length s <? n)%nat then Done s else Undef "buffer overrun".

(** find_item: [None] is a null pointer. *)
Definition item_file (item : bytes) : option bytes :=
  if bool_decide (item = bs "boot") then Some (bs "boot.img")
  else if bool_decide (item = bs "recovery") then Some (bs "recovery.img")
  else if bool_decide (item = bs "system") then Some (bs "system.img")
  else if bool_decide (item = bs "userdata") then Some (bs "userdata.img")
  else if bool_decide (item = bs "info") then Some (bs "android-info.txt")
  else None.
Definition find_item (item : bytes) (product : option bytes) : outcome (option bytes) :=
  match item_file item with
  | None => Done None
  | Some fn =>
      match product with
      | Some product =>
          path ← sprintf (PATH_MAX + 128) (my_path ++ bs "../../../target/product/" ++ product ++ bs "/" ++ fn);
          Done (Some path)
      | None =>
          match getenv "ANDROID_PRODUCT_OUT" with
          | None | Some [] => die "neither -p product specified nor ANDROID_PRODUCT_OUT set"
          | Some dir => path ← sprintf (PATH_MAX + 128) (dir ++ bs "/" ++ fn); Done (Some path)
          end
      end
  end.

(** load_file: the data, as many as the file's size. *)
Definition load_file (fn : bytes) : option bytes :=
  f ← load fn;
  let sz := i32 (seek_end f) in
  if sz <? 0 then None
  else if negb (seek_set f =? 0) then None
  else
    d ← read_all f sz;
    if Z.of_nat (length d) =? sz then Some d else None.

(** ** The device on the bus *)

Record usb_ifc_info := mk_ifc {
  dev_vendor : Z; ifc_class : Z; ifc_subclass : Z; ifc_protocol : Z; writable : bool; serial_number : bytes
}.

(** [vendor_id] and [serial] are the values of -i and -s; [true] is 0. *)
Definition match_fastboot (vendor_id : Z) (serial : option bytes) (info : usb_ifc_info) : bool :=
  if negb ((negb (vendor_id =? 0) && (dev_vendor info =? vendor_id)) ||
           existsb (Z.eqb (dev_vendor info))
             [0x18d1; 0x0451; 0x0502; 0x0fce; 0x05c6; 0x22b8; 0x0955; 0x413c; 0x0408; 0x0bb4])
  then false
  else if negb (ifc_class info =? 0xff) then false
  else if negb (ifc_subclass info =? 0x42) then false
  else if negb (ifc_protocol info =? 0x03) then false
  else match serial with
       | Some s => bool_decide (s = serial_number info)
       | None => true
       end.

(** The line for a device; the callback declines every device. *)
Definition list_devices_callback (info : usb_ifc_info) : bytes :=
  if match_fastboot 0 None info then
    let serial := if negb (writable info) then bs "no permissions" else serial_number info in
    let serial := match serial with [] => bs "????????????" | _ => serial end in
    serial ++ [9] ++ bs "fastboot" ++ [10]
  else [].
(** usb_open calls it for every interface on the bus. *)
Definition list_devices (bus : list usb_ifc_info) : bytes := concat (map list_devices_callback bus).

(** open_device: usb_open opens the first interface that matches; otherwise the
    bus is looked at again after a second. *)
Fixpoint open_device (vendor_id : Z) (serial : option bytes) (scans : list (list usb_ifc_info)) : outcome usb_ifc_info :=
  match scans with
  | [] => Stop "waiting for device"
  | bus :: scans =>
      match List.find (match_fastboot vendor_id serial) bus with
      | Some info => Done info
      | None => open_device vendor_id serial scans
      end
  end.

(** ** Boot images *)

Definition deref_img {A} (o : option A) : outcome A := deref "write outside the image" o.

(** load_bootable_image: [None] is a null pointer. *)
Definition load_bootable_image (page_size base_addr : Z) (kernel ramdisk cmdline : option bytes) : outcome (option bytes) :=
  match kernel with
  | None => Done None
  | Some kernel =>
      match load_file kernel with
      | None => Done None
      | Some kdata =>
          if (length kdata <? 8)%nat then Undef "memcmp past the end of the file"
          else if bool_decide (take 8 kdata = FastbootImg.BOOT_MAGIC) then
            kdata ← (match cmdline with
                     | Some c => deref_img (FastbootImg.bootimg_set_cmdline kdata c)
                     | None => Done kdata
                     end);
            Done (match ramdisk with Some _ => None | None => Some kdata end)
          else
            match (match ramdisk with Some r => load_file r | None => Some [] end) with
            | None => Done None
            | Some rdata =>
                '(bdata, bsize) ← deref_img (FastbootImg.mkbootimg kdata rdata [] page_size base_addr);
                bdata ← (match cmdline with
                         | Some c => deref_img (FastbootImg.bootimg_set_cmdline bdata c)
                         | None => Done bdata
                         end);
                Done (Some bdata)
            end
      end
  end.

(** ** Packages *)

(** The product with the double 1.001, rounded to 53 bits and then to an integer. *)
Definition round53 (p : Z) : Z :=
  let e := Z.log2 p + 1 - 53 in
  if e <=? 0 then p
  else
    let q := p / 2 ^ e in
    let r := p mod 2 ^ e in
    (if (2 ^ e <? 2 * r) || ((2 * r =? 2 ^ e) && Z.odd q) then q + 1 else q) * 2 ^ e.
Definition times_1_001 (sz : Z) : Z := round53 (sz * (2 * 2254051613498933)) / 2 ^ 52.

(** unzip_file: [None] is a null pointer; what is used of the data are the [sz]
    bytes in front. *)
Definition unzip_file (zip : bytes -> option (Z * (Z -> option bytes))) (name : bytes) : outcome (option bytes) :=
  match zip name with
  | None => Done None
  | Some (sz, decompress_zipentry) =>
      let datasz := times_1_001 sz in
      if 2 ^ 32 <=? datasz then Undef "size out of range"
      else match decompress_zipentry datasz with
      | None => Done None
      | Some data => Done (Some (take (Z.to_nat sz) data))
      end
  end.

(** ** Requirements *)

Definition strip (s : bytes) : bytes := rev (skip_space (rev (skip_space s))).

(** strchr: what is before and behind the first [ch]. *)
Fixpoint strchr (ch : Z) (s : bytes) : option (bytes * bytes) :=
  match s with
  | [] => None
  | b :: s => if b =? ch then Some ([], s) else (fun x => (b :: x.1, x.2)) <$> strchr ch s
  end.

Definition MAX_OPTIONS : nat := 32.

(** The values between '|' (124); the last of [n] takes all that is left. *)
Fixpoint split_values (n : nat) (s : bytes) : list bytes :=
  match n with
  | O => [s]
  | S n => match strchr 124 s with
           | None => [s]
           | Some (v, rest) => v :: split_values n rest
           end
  end.

Definition queued (o : option queue) : outcome queue := deref "command of more than 63 characters" o.

(** The text that was cut off when it starts [s]. *)
Definition after (p s : bytes) : option bytes :=
  if bool_decide (take (length p) s = p) then Some (drop (length p) s) else None.

Definition setup_requirement_line (q : queue) (name : bytes) : outcome queue :=
  let '(name, invert) :=
    match after (bs "reject ") name with
    | Some rest => (rest, true)
    | None => match after (bs "require ") name with
              | Some rest => (rest, false)
              | None => (name, false)
              end
    end in
  match strchr 61 name with
  | None => Done q
  | Some (name, rest) =>
      let val := map strip (split_values (MAX_OPTIONS - 1) rest) in
      let name := strip name in
      let name := if bool_decide (name = bs "board") then bs "product" else name in
      queued (fb_queue_require q name invert (map strip val))
  end.

(** The loop over the text: [line] is what was seen since the last newline (10), a C
    string for setup_requirement_line. *)
Fixpoint requirements_loop (q : queue) (line rest : bytes) : outcome queue :=
  match rest with
  | [] => Done q
  | ch :: rest =>
      if ch =? 10 then
        q ← setup_requirement_line q (until_nul line);
        requirements_loop q [] rest
      else requirements_loop q (line ++ [ch]) rest
  end.
Definition setup_requirements (q : queue) (data : bytes) : outcome queue := requirements_loop q [] data.

(** ** Queueing *)

Definition queue_info_dump (q : queue) : outcome queue :=
  q ← queued (fb_queue_notice q (bs "--------------------------------------------"));
  q ← queued (fb_queue_display q (bs "version-bootloader") (bs "Bootloader Version..."));
  q ← queued (fb_queue_display q (bs "version-baseband") (bs "Baseband Version....."));
  q ← queued (fb_queue_display q (bs "serialno") (bs "Serial Number........"));
  queued (fb_queue_notice q (bs "--------------------------------------------")).

Definition queue_signature (q : queue) (data : bytes) : outcome queue :=
  q ← queued (fb_queue_download q data);
  queued (fb_queue_command q (bs "signature")).

Definition do_update_signature (q : queue) (zip : bytes -> option (Z * (Z -> option bytes))) (fn : bytes) : outcome queue :=
  data ← unzip_file zip fn;
  match data with
  | None => Done q
  | Some data => queue_signature q data
  end.

(** The text of android-info.txt, or what older packages have instead. *)
Definition update_info (zip : bytes -> option (Z * (Z -> option bytes))) : outcome bytes :=
  data ← unzip_file zip (bs "android-info.txt");
  match data with
  | Some data => Done data
  | None =>
      data ← unzip_file zip (bs "android-product.txt");
      match data with
      | None | Some [] => die "update package has no android-info.txt or android-product.txt"
      | Some data =>
          text ← deref "android-product.txt has no end" (cstring data);
          sprintf (length data + 128) (bs "board=" ++ text ++ bs "version-baseband=0.66.04.19" ++ [10])
      end
  end.

Definition do_update (q : queue) (fn : bytes) : outcome queue :=
  q ← queue_info_dump q;
  match load_file fn with
  | None => die "failed to load"
  | Some zdata =>
      match package zdata with
      | None => die "failed to access zipdata"
      | Some zip =>
          info ← update_info zip;
          q ← setup_requirements q info;
          boot ← unzip_file zip (bs "boot.img");
          match boot with
          | None => die "update package missing boot.img"
          | Some boot =>
              q ← do_update_signature q zip (bs "boot.sig");
              q ← queued (fb_queue_flash q (bs "boot") boot);
              recovery ← unzip_file zip (bs "recovery.img");
              q ← (match recovery with
                   | None => Done q
                   | Some recovery =>
                       q ← do_update_signature q zip (bs "recovery.sig");
                       queued (fb_queue_flash q (bs "recovery") recovery)
                   end);
              system ← unzip_file zip (bs "system.img");
              match system with
              | None => die "update package missing system.img"
              | Some system =>
                  q ← do_update_signature q zip (bs "system.sig");
                  queued (fb_queue_flash q (bs "system") system)
              end
          end
      end
  end.

(** The name of the signature beside an image. *)
Fixpoint strrchr_dot (s : bytes) : option (bytes * bytes) :=
  match s with
  | [] => None
  | b :: s =>
      match strrchr_dot s with
      | Some (l, r) => Some (b :: l, r)
      | None => if b =? 46 then Some ([], b :: s) else None
      end
  end.
Definition do_send_signature (q : queue) (fn : bytes) : outcome queue :=
  match strrchr_dot fn with
  | None => Done q
  | Some (stem, xtn) =>
      if bool_decide (xtn = bs ".img") then
        match load_file (stem ++ bs ".sig") with
        | None => Done q
        | Some data => queue_signature q data
        end
      else Done q
  end.

(** find_item gives a name for these items. *)
Definition load_item (item : string) (product : option bytes) : outcome (bytes * option bytes) :=
  fname ← find_item (bs item) product;
  fname ← deref "null file name" fname;
  Done (fname, load_file fname).

Definition flash_image (q : queue) (item : string) (fname data : bytes) : outcome queue :=
  q ← do_send_signature q fname;
  queued (fb_queue_flash q (bs item) data).

Definition do_flashall (q : queue) (product : option bytes) : outcome queue :=
  q ← queue_info_dump q;
  info ← find_item (bs "info") product;
  match info with
  | None => die "cannot find android-info.txt"
  | Some info =>
      match load_file info with
      | None => die "could not load android-info.txt"
      | Some data =>
          q ← setup_requirements q data;
          '(fname, data) ← load_item "boot" product;
          match data with
          | None => die "could not load boot.img"
          | Some data =>
              q ← flash_image q "boot" fname data;
              '(fname, data) ← load_item "recovery" product;
              q ← (match data with
                   | None => Done q
                   | Some data => flash_image q "recovery" fname data
                   end);
              '(fname, data) ← load_item "system" product;
              match data with
              | None => die "could not load system.img"
              | Some data => flash_image q "system" fname data
              end
          end
      end
  end.

(** do_oem_command: the words, joined in an array of 256 characters. *)
Fixpoint join_words (argv : list bytes) : bytes :=
  match argv with
  | [] => []
  | [w] => w
  | w :: argv => w ++ [32] ++ join_words argv
  end.
Definition do_oem_command (q : queue) (argv : list bytes) : outcome queue :=
  if (length argv <=? 1)%nat then Done q
  else
    command ← sprintf 256 (join_words argv);
    queued (fb_queue_command q command).

(** ** The command line *)

(** strtoul with base 0: the value as an unsigned long of 64 bits and the rest of
    the text. *)
Definition digit_of (c : Z) : Z :=
  if (48 <=? c) && (c <=? 57) then c - 48
  else if (97 <=? c) && (c <=? 122) then c - 87
  else if (65 <=? c) && (c <=? 90) then c - 55
  else 36.
Fixpoint digits_rest (base : Z) (s : bytes) (acc : Z) : Z * bytes :=
  match s with
  | [] => (acc, [])
  | c :: s' => if digit_of c <? base then digits_rest base s' (acc * base + digit_of c) else (acc, s)
  end.
(** The base and the text behind its prefix; 0x counts when a digit follows. *)
Definition base_of (s : bytes) : Z * bytes :=
  match s with
  | z :: x :: d :: _ =>
      if z =? 48 then
        if ((x =? 120) || (x =? 88)) && (digit_of d <? 16) then (16, drop 2 s) else (8, s)
      else (10, s)
  | z :: _ => if z =? 48 then (8, s) else (10, s)
  | [] => (10, s)
  end.
Definition strtoul_0 (s0 : bytes) : Z * bytes :=
  let '(neg, s) := strip_sign (skip_space s0) in
  let '(base, s) := base_of s in
  let '(v, rest) := digits_rest base s 0 in
  if (length rest =? length s)%nat then (0, s0)
  else if 2 ^ 64 <=? v then (2 ^ 64 - 1, rest)
  else (if neg : bool then u64 (- v) else v, rest).

(** The variables of main and of the file. *)
Record opts := mk_opts {
  actions : queue; serial : option bytes; product : option bytes; cmdline : option bytes;
  vendor_id : Z; base_addr : Z; page_size : Z;
  wants_wipe : bool; wants_reboot : bool; wants_reboot_bootloader : bool
}.
Definition set_actions (o : opts) q := mk_opts q (serial o) (product o) (cmdline o) (vendor_id o) (base_addr o) (page_size o) (wants_wipe o) (wants_reboot o) (wants_reboot_bootloader o).
Definition set_serial (o : opts) x := mk_opts (actions o) x (product o) (cmdline o) (vendor_id o) (base_addr o) (page_size o) (wants_wipe o) (wants_reboot o) (wants_reboot_bootloader o).
Definition set_product (o : opts) x := mk_opts (actions o) (serial o) x (cmdline o) (vendor_id o) (base_addr o) (page_size o) (wants_wipe o) (wants_reboot o) (wants_reboot_bootloader o).
Definition set_cmdline (o : opts) x := mk_opts (actions o) (serial o) (product o) x (vendor_id o) (base_addr o) (page_size o) (wants_wipe o) (wants_reboot o) (wants_reboot_bootloader o).
Definition set_vendor (o : opts) x := mk_opts (actions o) (serial o) (product o) (cmdline o) x (base_addr o) (page_size o) (wants_wipe o) (wants_reboot o) (wants_reboot_bootloader o).
Definition set_base (o : opts) x := mk_opts (actions o) (serial o) (product o) (cmdline o) (vendor_id o) x (page_size o) (wants_wipe o) (wants_reboot o) (wants_reboot_bootloader o).
Definition set_page (o : opts) x := mk_opts (actions o) (serial o) (product o) (cmdline o) (vendor_id o) (base_addr o) x (wants_wipe o) (wants_reboot o) (wants_reboot_bootloader o).
Definition set_wipe (o : opts) := mk_opts (actions o) (serial o) (product o) (cmdline o) (vendor_id o) (base_addr o) (page_size o) true (wants_reboot o) (wants_reboot_bootloader o).
Definition set_reboot (o : opts) := mk_opts (actions o) (serial o) (product o) (cmdline o) (vendor_id o) (base_addr o) (page_size o) (wants_wipe o) true (wants_reboot_bootloader o).
Definition set_bootloader (o : opts) := mk_opts (actions o) (serial o) (product o) (cmdline o) (vendor_id o) (base_addr o) (page_size o) (wants_wipe o) (wants_reboot o) true.

Definition queue_in (o : opts) (q : option queue) : outcome opts :=
  q ← queued q; Done (set_actions o q).

(** require(2) for a word with one argument. *)
Definition with_arg {A} (args : list bytes) (k : bytes -> list bytes -> outcome A) : outcome A :=
  match args with
  | arg :: args => k arg args
  | [] => usage
  end.

(** One turn of the loop: the word and what follows it; [None]: main returns 1. *)
Definition one_word (o : opts) (word : bytes) (args : list bytes) : outcome (option (opts * list bytes)) :=
  let go o args := Done (Some (o, args)) in
  let named w := bool_decide (word = bs w) in
  if named "-w" then go (set_wipe o) args
  else if named "-b" then with_arg args (fun x args => go (set_base o (strtoul16 x)) args)
  else if named "-n" then
    with_arg args (fun x args =>
      let page_size := u32 (strtoul_0 x).1 in
      if page_size =? 0 then die "invalid page size" else go (set_page o page_size) args)
  else if named "-s" then with_arg args (fun x args => go (set_serial o (Some x)) args)
  else if named "-p" then with_arg args (fun x args => go (set_product o (Some x)) args)
  else if named "-c" then with_arg args (fun x args => go (set_cmdline o (Some x)) args)
  else if named "-i" then
    with_arg args (fun x args =>
      let '(val, rest) := strtoul_0 x in
      match rest with
      | [] => if 0xffff <? val then die "invalid vendor id" else go (set_vendor o val) args
      | _ => die "invalid vendor id"
      end)
  else if named "getvar" then
    with_arg args (fun x args => o ← queue_in o (fb_queue_display (actions o) x x); go o args)
  else if named "erase" then
    with_arg args (fun x args => o ← queue_in o (fb_queue_erase (actions o) x); go o args)
  else if named "signature" then
    with_arg args (fun x args =>
      match load_file x with
      | None => die "could not load"
      | Some data =>
          if negb (Z.of_nat (length data) =? 256) then die "signature must be 256 bytes"
          else q ← queue_signature (actions o) data; go (set_actions o q) args
      end)
  else if named "reboot" then go (set_reboot o) args
  else if named "reboot-bootloader" then go (set_bootloader o) args
  else if named "continue" then o ← queue_in o (fb_queue_command (actions o) (bs "continue")); go o args
  else if named "boot" then
    let kname := head args in
    let args := tail args in
    let rname := head args in
    let args := tail args in
    data ← load_bootable_image (page_size o) (base_addr o) kname rname (cmdline o);
    match data with
    | None => Done None
    | Some data =>
        o ← queue_in o (fb_queue_download (actions o) data);
        o ← queue_in o (fb_queue_command (actions o) (bs "boot"));
        go o args
    end
  else if named "flash" then
    with_arg args (fun pname args =>
      fname ← (match args with
               | fname :: _ => Done (Some fname)
               | [] => find_item pname (product o)
               end);
      match fname with
      | None => die "cannot determine image filename"
      | Some fname =>
          match load_file fname with
          | None => die "cannot load"
          | Some data => o ← queue_in o (fb_queue_flash (actions o) pname data); go o (tail args)
          end
      end)
  else if named "flash:raw" then
    match args with
    | [] => Undef "argv read past its end"
    | [_] => usage
    | pname :: kname :: args =>
        data ← load_bootable_image (page_size o) (base_addr o) (Some kname) (head args) (cmdline o);
        match data with
        | None => die "cannot load bootable image"
        | Some data => o ← queue_in o (fb_queue_flash (actions o) pname data); go o (tail args)
        end
    end
  else if named "flashall" then
    q ← do_flashall (actions o) (product o); go (set_reboot (set_actions o q)) args
  else if named "update" then
    match args with
    | fn :: args => q ← do_update (actions o) fn; go (set_reboot (set_actions o q)) args
    | [] => q ← do_update (actions o) (bs "update.zip"); go (set_reboot (set_actions o q)) []
    end
  else if named "oem" then q ← do_oem_command (actions o) (word :: args); go (set_actions o q) []
  else usage.

Fixpoint words (fuel : nat) (o : opts) (args : list bytes) : outcome (option opts) :=
  match args with
  | [] => Done (Some o)
  | word :: args =>
      match fuel with
      | O => Stop "fuel"
      | S fuel =>
          r ← one_word o word args;
          match r with
          | None => Done None
          | Some (o, args) => words fuel o args
          end
      end
  end.

(** What is queued behind the commands. *)
Definition finish (o : opts) : outcome queue :=
  q ← (if wants_wipe o then
         q ← queued (fb_queue_erase (actions o) (bs "userdata"));
         queued (fb_queue_erase q (bs "cache"))
       else Done (actions o));
  if wants_reboot o then queued (fb_queue_reboot q)
  else if wants_reboot_bootloader o then queued (fb_queue_command q (bs "reboot-bootloader"))
  else Done q.

Definition start : opts := mk_opts [] (getenv "ANDROID_SERIAL") None None 0 0x10000000 2048 false false false.

(** What main comes to: the list of devices, an early return of 1, or the device it
    opened and the link after the queue ran; [None]: a device that never answers.
    The status that fb_execute_queue stopped with is not returned. *)
Inductive ending :=
  | Listed (text : bytes)
  | Returned1
  | Ran (info : usb_ifc_info) (result : option usb).

Definition main (args : list bytes) (scans : list (list usb_ifc_info)) (link : usb) : outcome ending :=
  match args with
  | [] => usage
  | word :: _ =>
      if bool_decide (word = bs "devices") then Done (Listed (list_devices (default [] (head scans))))
      else
        o ← words (length args) start args;
        match o with
        | None => Done Returned1
        | Some o =>
            q ← finish o;
            info ← open_device (vendor_id o) (serial o) scans;
            Done (Ran info (snd <$> fb_execute_queue q link))
        end
  end.

End fastboot.

(** ** Requirements read back *)

Section requirements.

Record requirement := mk_req { rq_name : bytes; rq_reject : bool; rq_values : list bytes }.

Fixpoint join_values (vs : list bytes) : bytes :=
  match vs with
  | [] => []
  | [v] => v
  | v :: vs => v ++ [124] ++ join_values vs
  end.
(** The line as it stands in android-info.txt, without its newline. *)
Definition req_line (r : requirement) : bytes :=
  (if rq_reject r then bs "reject " else bs "require ") ++ rq_name r ++ [61] ++ join_values (rq_values r).
Definition req_text (rs : list requirement) : bytes := concat (map (fun r => req_line r ++ [10]) rs).

Definition variable (r : requirement) : bytes :=
  if bool_decide (rq_name r = bs "board") then bs "product" else rq_name r.
Definition req_query (r : requirement) : action :=
  Query (bs "getvar:" ++ variable r) (rq_values r) (if rq_reject r then cb_reject else cb_require).

(** No character that has a meaning, and no space at the ends. *)
Definition clean_word (w : bytes) : Prop :=
  Forall (fun c => c <> 0 /\ c <> 10 /\ c <> 61 /\ c <> 124) w /\ strip w = w.
Record clean (r : requirement) : Prop := {
  clean_name : clean_word (rq_name r);
  clean_short : (length (rq_name r) <= 56)%nat;
  clean_values : Forall clean_word (rq_values r);
  clean_count : (1 <= length (rq_values r) <= MAX_OPTIONS)%nat
}.

Lemma strchr_none ch s : Forall (fun c => c <> ch) s -> strchr ch s = None.
Proof.
  induction 1 as [|c s Hc _ IH]; cbn [strchr]; [done|]. by rewrite (proj2 (Z.eqb_neq c ch)), IH.
Qed.
Lemma strchr_first ch s rest : Forall (fun c => c <> ch) s -> strchr ch (s ++ ch :: rest) = Some (s, rest).
Proof.
  induction 1 as [|c s Hc _ IH]; cbn [app strchr]; [by rewrite Z.eqb_refl|].
  by rewrite (proj2 (Z.eqb_neq c ch)), IH.
Qed.

Lemma clean_not w ch : clean_word w -> ch = 0 \/ ch = 10 \/ ch = 61 \/ ch = 124 -> Forall (fun c => c <> ch) w.
Proof. intros [Hw _] Hch. eapply Forall_impl; [exact Hw|]. cbn. intros c (?&?&?&?). destruct Hch as [->|[->|[->| ->]]]; done. Qed.

Lemma split_join vs : forall n, Forall clean_word vs -> (1 <= length vs <= S n)%nat -> split_values n (join_values vs) = vs.
Proof.
  induction vs as [|v vs IH]; intros n Hvs Hn; [cbn in Hn; lia|]. apply Forall_cons in Hvs as [Hv Hvs].
  destruct vs as [|v' vs].
  - cbn [join_values]. destruct n as [|n]; [done|]. cbn [split_values]. by rewrite strchr_none by (apply clean_not; auto).
  - change (join_values (v :: v' :: vs)) with (v ++ 124 :: join_values (v' :: vs)).
    destruct n as [|n]; [cbn in Hn; lia|]. cbn [split_values]. rewrite strchr_first by (apply clean_not; auto).
    by rewrite IH by (done || (cbn [length] in *; lia)).
Qed.

Lemma map_strip vs : Forall clean_word vs -> map strip vs = vs.
Proof. induction 1 as [|v vs [_ Hv] _ IH]; cbn; [done|by rewrite Hv, IH]. Qed.

Lemma after_app p s : after p (p ++ s) = Some s.
Proof. unfold after. rewrite take_app_length, bool_decide_eq_true_2 by done. by rewrite drop_app_length. Qed.

Lemma line_queued q r : clean r -> setup_requirement_line q (req_line r) = Done (q ++ [req_query r]).
Proof.
  intros [Hn Hshort Hvs Hc]. unfold setup_requirement_line, req_line.
  assert (forall s, after (bs "reject ") (bs "require " ++ s) = None) as Hnot by done.
  set (line := rq_name r ++ [61] ++ join_values (rq_values r)).
  assert ((match after (bs "reject ") ((if rq_reject r then bs "reject " else bs "require ") ++ line) with
           | Some rest => (rest, true)
           | None => match after (bs "require ") ((if rq_reject r then bs "reject " else bs "require ") ++ line) with
                     | Some rest => (rest, false) | None => ((if rq_reject r then bs "reject " else bs "require ") ++ line, false) end
           end) = (line, rq_reject r)) as ->.
  { destruct (rq_reject r); [by rewrite after_app|]. by rewrite Hnot, after_app. }
  unfold line. cbn [app]. rewrite strchr_first by (apply clean_not; auto).
  rewrite split_join by (done || (unfold MAX_OPTIONS in *; lia)). rewrite !(map_strip (rq_values r) Hvs).
  destruct Hn as [_ ->]. fold (variable r). unfold fb_queue_require, queue_action.
  assert (length (variable r) <= 56)%nat by (unfold variable; case_bool_decide; [cbn; lia|done]).
  destruct (Nat.ltb_spec (length (bs "getvar:" ++ variable r)) 64) as [_|Hl]; [done|].
  rewrite length_app in Hl. cbn in Hl. lia.
Qed.

Lemma loop_line line : forall q seen rest, Forall (fun c => c <> 10) line ->
  requirements_loop q seen (line ++ 10 :: rest) =
  (q ← setup_requirement_line q (until_nul (seen ++ line)); requirements_loop q [] rest).
Proof.
  induction line as [|c line IH]; intros q seen rest Hl; cbn [app requirements_loop]; [by rewrite app_nil_r|].
  apply Forall_cons in Hl as [Hc Hl]. rewrite (proj2 (Z.eqb_neq c 10)) by done. rewrite IH by done.
  by rewrite <- app_assoc.
Qed.
Lemma loop_tail tail : forall q seen, Forall (fun c => c <> 10) tail -> requirements_loop q seen tail = Done q.
Proof.
  induction tail as [|c tail IH]; intros q seen Ht; cbn [requirements_loop]; [done|].
  apply Forall_cons in Ht as [Hc Ht]. rewrite (proj2 (Z.eqb_neq c 10)) by done. by apply IH.
Qed.

Lemma join_chars (P : Z -> Prop) vs : P 124 -> Forall (Forall P) vs -> Forall P (join_values vs).
Proof.
  intros Hp. induction 1 as [|v vs Hv Hvs IH]; [constructor|]. destruct vs as [|v' vs]; [done|].
  change (join_values (v :: v' :: vs)) with (v ++ 124 :: join_values (v' :: vs)). apply Forall_app. split; [done|].
  by constructor.
Qed.
Lemma req_line_chars r ch : clean r -> ch = 0 \/ ch = 10 -> Forall (fun c => c <> ch) (req_line r).
Proof.
  intros [Hn _ Hvs _] Hch. unfold req_line. apply Forall_app. split.
  { destruct (rq_reject r), Hch as [->| ->]; by_compute. }
  apply Forall_app. split; [apply clean_not; [done|tauto]|].
  constructor; [destruct Hch as [->| ->]; done|]. apply join_chars; [destruct Hch as [->| ->]; done|].
  eapply Forall_impl; [exact Hvs|]. intros v Hv. apply clean_not; [done|tauto].
Qed.

(** C39 (roundtrip). Requirements written as lines of android-info.txt are queued as
    the queries they stand for, in their order, each with its values and with the
    name board read as product; what follows the last newline is not looked at. *)
Theorem requirements_roundtrip q rs tail :
  Forall clean rs -> Forall (fun c => c <> 10) tail ->
  setup_requirements q (req_text rs ++ tail) = Done (q ++ map req_query rs).
Proof.
  intros Hrs Ht. unfold setup_requirements. revert q. induction Hrs as [|r rs Hr _ IH]; intros q.
  - cbn. rewrite app_nil_r. by apply loop_tail.
  - change (req_text (r :: rs)) with ((req_line r ++ [10]) ++ req_text rs). rewrite <- !app_assoc. cbn [app].
    rewrite loop_line by (apply req_line_chars; auto). cbn [app].
    rewrite until_nul_id by (apply req_line_chars; auto). rewrite line_queued by done.
    cbv [mbind outcome_bind]. rewrite IH. cbn [map]. by rewrite <- app_assoc.
Qed.

Lemma requirements_roundtrip_witness :
  setup_requirements [] (req_text [mk_req (bs "board") false [bs "twm"; bs "t1*"]; mk_req (bs "version") true [bs "0.1"]]
                         ++ bs "require version=2") =
  Done ([] ++ map req_query [mk_req (bs "board") false [bs "twm"; bs "t1*"]; mk_req (bs "version") true [bs "0.1"]]).
Proof.
  apply requirements_roundtrip; [|by_compute].
  assert (forall r, clean_word (rq_name r) -> (length (rq_name r) <= 56)%nat -> Forall clean_word (rq_values r) ->
            (1 <= length (rq_values r) <= MAX_OPTIONS)%nat -> clean r) as Hc by (by constructor).
  assert (forall w, forallb (fun c => negb (existsb (Z.eqb c) [0; 10; 61; 124])) w = true -> strip w = w -> clean_word w) as Hw.
  { intros w Hf Hs. split; [|done]. rewrite Forall_forall. intros c Hin. rewrite forallb_forall in Hf.
    specialize (Hf c ltac:(by apply list_elem_of_In)). cbn in Hf.
    destruct (Z.eqb_spec c 0), (Z.eqb_spec c 10), (Z.eqb_spec c 61), (Z.eqb_spec c 124); done. }
  repeat constructor; cbn; try lia; by vm_compute.
Defined.

(** A file without a newline at its end loses its last requirement. *)
Lemma last_line_ignored q line : Forall (fun c => c <> 10) line -> setup_requirements q line = Done q.
Proof. apply loop_tail. Qed.
End requirements.

(** ** Nothing is flashed before the requirements hold *)

Section guard.
Context `{Surroundings}.

Definition is_requirement (a : action) : Prop :=
  match a with Query _ _ (cb_require | cb_reject) => True | _ => False end.
Definition is_question (a : action) : Prop :=
  match a with Query cmd _ f => (exists var, cmd = bs "getvar:" ++ var) /\ f <> cb_do_nothing | Notice _ => True | _ => False end.
(** What questions send. *)
Definition queries (qs : list action) : list bytes := omap (fun a => match a with Query cmd _ _ => Some cmd | _ => None end) qs.

(** The device's replies are answers to these questions, one for each and in their order:
    any number of INFO messages and an OKAY whose value the question's callback
    accepts; [l'] is what comes after them. *)
Definition is_info (m : option bytes) : Prop := exists t, m = Some (bs "INFO" ++ t).
Inductive answered : list action -> list (option bytes) -> list (option bytes) -> Prop :=
  | answered_none l : answered [] l l
  | answered_notice t qs l l' : answered qs l l' -> answered (Notice t :: qs) l l'
  | answered_query cmd values f infos raw qs l l' :
      Forall is_info infos -> call f values 0 (until_nul raw) = 0 -> answered qs l l' ->
      answered (Query cmd values f :: qs) (infos ++ Some (bs "OKAY" ++ raw) :: l) l'.

Lemma starts_spec p s : starts p s = true -> exists rest, s = p ++ rest.
Proof. unfold starts. rewrite bool_decide_eq_true. intros E. exists (drop (length p) s). by rewrite <- E at 1; rewrite take_drop. Qed.

Lemma check_response_answer l : forall u size r resp u',
  check_response l u size false = Some (r, resp, u') ->
  written u' = written u /\
  (r = 0 -> exists infos raw, l = infos ++ Some (bs "OKAY" ++ raw) :: replies u' /\ Forall is_info infos /\ resp = until_nul raw).
Proof.
  induction l as [|[status|] l IH]; intros u size r resp u' E; [done| |].
  2:{ cbn in E. injection E as <- <- <-. by split. }
  cbn [check_response] in E.
  destruct (length status <? 4)%nat; [injection E as <- <- <-; by split|]. cbv zeta in E.
  destruct (starts (bs "INFO") status) eqn:Ei.
  { destruct (IH _ _ _ _ _ E) as (Hw & Hok). split; [by rewrite Hw|]. intros Hr. destruct (Hok Hr) as (infos & raw & -> & Hin & ->).
    apply starts_spec in Ei as (t & ->). exists (Some (bs "INFO" ++ t) :: infos), raw. split_and!; [done| |done].
    constructor; [by exists t|done]. }
  destruct (starts (bs "OKAY") status) eqn:Eok.
  { injection E as <- <- <-. apply starts_spec in Eok as (raw & ->). split; [done|]. intros _. by exists [], raw. }
  destruct (starts (bs "FAIL") status); [injection E as <- <- <-; by split|].
  rewrite andb_false_r in E. injection E as <- <- <-. by split.
Qed.

Lemma usb_write_fields u d : replies (usb_write u d).2 = replies u /\ written (usb_write u d).2 = written u ++ [d].
Proof. unfold usb_write. by destruct (wresults u). Qed.

(** A question sends its query at most; one that does not fail has been answered. *)
Lemma question_runs a u r u' :
  is_question a -> run_action a u = Some (r, u') ->
  (exists k, written u' = written u ++ take k (queries [a])) /\
  (r = 0 -> written u' = written u ++ queries [a] /\
            forall qs l', answered qs (replies u') l' -> answered (a :: qs) (replies u) l').
Proof.
  destruct a as [| |cmd values f|t]; cbn [is_question]; try done.
  2:{ intros _ [= <- <-]. split; [exists 0%nat; by rewrite app_nil_r|]. intros _. split; [by rewrite app_nil_r|]. intros qs l'. by constructor. }
  intros ((var & ->) & Hf) E. cbn [run_action] in E. unfold fb_command_response, command_send in E.
  set (cmd := bs "getvar:" ++ var) in *. change (queries [Query cmd values f]) with [cmd].
  assert (forall resp, call f values (-1) resp = 0 -> False) as Hbad by (intros resp; destruct f; cbn; try done; by destruct Hf).
  destruct (64 <? length cmd)%nat.
  { cbn [mbind option_bind] in E. injection E as <- <-. split; [exists 0%nat; by rewrite app_nil_r|]. intros H0. by apply Hbad in H0. }
  destruct (usb_write u cmd) as [n u1] eqn:Ew. pose proof (usb_write_fields u cmd) as [Hr Hw]. rewrite Ew in Hr, Hw. cbn [snd] in Hr, Hw.
  destruct (negb (n =? Z.of_nat (length cmd))).
  { cbn [mbind option_bind] in E. injection E as <- <-. split; [by exists 1%nat|]. intros H0. by apply Hbad in H0. }
  unfold respond in E. rewrite Hr in E.
  destruct (check_response (replies u) u1 0 false) as [[[r1 resp] u2]|] eqn:Ec; [|done].
  cbn [mbind option_bind] in E. injection E as <- <-.
  destruct (check_response_answer _ _ _ _ _ _ Ec) as (Hw2 & Hok). rewrite Hw in Hw2. split; [by exists 1%nat|].
  intros H0. split; [done|]. assert (r1 = 0) as ->.
  { destruct f; cbn in H0; try done; destruct (Z.eqb_spec r1 0); done. }
  destruct (Hok eq_refl) as (infos & raw & -> & Hi & ->). intros qs l' Hqs. by constructor.
Qed.

Lemma queries_cons a qs : queries (a :: qs) = queries [a] ++ queries qs.
Proof. by destruct a. Qed.

(** Questions in front of a queue: if the run gets past them, all are answered. *)
Lemma questions_first qs rest : forall u r u',
  Forall is_question qs -> fb_execute_queue (qs ++ rest) u = Some (r, u') ->
  (exists sent, written u' = written u ++ sent /\ sent `prefix_of` queries qs) \/
  (exists l', answered qs (replies u) l').
Proof.
  induction qs as [|a qs IH]; intros u r u' Hq E.
  { right. eexists. constructor. }
  apply Forall_cons in Hq as [Ha Hq]. cbn [app fb_execute_queue] in E. rewrite queries_cons.
  destruct (run_action a u) as [[r1 u1]|] eqn:Ea; [|done]. cbn [mbind option_bind] in E.
  destruct (question_runs a u r1 u1 Ha Ea) as ((k & Hw1) & Hok).
  destruct (Z.eqb_spec r1 0) as [->|Hne]; cbn [negb] in E.
  - destruct (Hok eq_refl) as (Hw & Hans). destruct (IH u1 r u' Hq E) as [(sent & Hs & Hp)|(l' & Hl)].
    + left. exists (queries [a] ++ sent). split; [by rewrite Hs, Hw, app_assoc|by apply prefix_app].
    + right. exists l'. by apply Hans.
  - injection E as <- <-. left. eexists. split; [exact Hw1|]. etrans; [apply prefix_take|]. by apply prefix_app_r.
Qed.

Lemma queued_app (q q' : queue) o : o = Some q' -> queued o = Done q'.
Proof. by intros ->. Qed.

(** Every operation adds to the end of the queue. *)
Definition extends (P : action -> Prop) (q : queue) (r : outcome queue) : Prop :=
  forall q', r = Done q' -> exists ext, q' = q ++ ext /\ Forall P ext.

Lemma queue_action_inv q cmd a q' : queued (queue_action q cmd a) = Done q' -> q' = q ++ [a] /\ (length cmd < 64)%nat.
Proof. unfold queue_action. destruct (Nat.ltb_spec (length cmd) 64); cbn; [intros [= <-]; by split|done]. Qed.

Lemma extends_bind P q (m : outcome queue) (k : queue -> outcome queue) :
  extends P q m -> (forall q1, extends P q1 (k q1)) -> extends P q (q1 ← m; k q1).
Proof.
  intros Hm Hk q' E. destruct m as [q1|w|w]; [|done|done]. cbv [mbind outcome_bind] in E.
  destruct (Hm q1 eq_refl) as (e1 & -> & H1). destruct (Hk _ q' E) as (e2 & -> & H2).
  exists (e1 ++ e2). split; [by rewrite app_assoc|by apply Forall_app].
Qed.

Lemma line_extends q name : extends (fun a => is_question a /\ is_requirement a) q (setup_requirement_line q name).
Proof.
  intros q' E. unfold setup_requirement_line in E. destruct (match after (bs "reject ") name with
    | Some rest => (rest, true) | None => _ end) as [nm inv].
  destruct (strchr 61 nm) as [[nm' rest]|].
  2:{ injection E as <-. exists []. by rewrite app_nil_r. }
  apply queue_action_inv in E as [-> _]. eexists. split; [done|]. constructor; [|done].
  split; [split; [by eexists|by destruct inv]|]. cbn. by destruct inv.
Qed.
Lemma requirements_extend data : forall q line, extends (fun a => is_question a /\ is_requirement a) q (requirements_loop q line data).
Proof.
  induction data as [|c data IH]; intros q line; cbn [requirements_loop].
  - intros q' [= <-]. exists []. by rewrite app_nil_r.
  - destruct (c =? 10); [|apply IH]. apply extends_bind; [apply line_extends|]. intros q1. apply IH.
Qed.

Lemma info_dump_exact q : exists dump, queue_info_dump q = Done (q ++ dump) /\ Forall is_question dump.
Proof.
  eexists. split.
  - unfold queue_info_dump, fb_queue_notice, fb_queue_display, queue_action, queued. cbn. by rewrite <- !app_assoc.
  - cbn. repeat constructor; cbn; try done; by eexists.
Qed.

Definition anything (a : action) : Prop := True.
Lemma any_ext (q ext : queue) : exists ext', q ++ ext = q ++ ext' /\ Forall anything ext'.
Proof. exists ext. split; [done|]. by apply Forall_true. Qed.
Lemma queued_any (q : queue) cmd a : extends anything q (queued (queue_action q cmd a)).
Proof. intros q' E. apply queue_action_inv in E as [-> _]. apply any_ext. Qed.
Lemma flash_any q ptn data : extends anything q (queued (fb_queue_flash q ptn data)).
Proof.
  intros q' E. unfold fb_queue_flash in E. cbn [queue_action length Nat.ltb Nat.leb mbind option_bind] in E.
  apply queue_action_inv in E as [-> _]. rewrite <- app_assoc. apply any_ext.
Qed.
Lemma command_any q cmd : extends anything q (queued (fb_queue_command q cmd)).
Proof. unfold fb_queue_command. destruct (existsb _ _); [done|]. apply queued_any. Qed.
Lemma signature_any q data : extends anything q (queue_signature q data).
Proof. apply extends_bind; [apply queued_any|]. intros q1. apply command_any. Qed.
Lemma done_any (q : queue) : extends anything q (Done q).
Proof. intros q' [= <-]. exists []. by rewrite app_nil_r. Qed.
Lemma extends_bind_any {A} (m : outcome A) q k : (forall x, extends anything q (k x)) -> extends anything q (x ← m; k x).
Proof. intros Hk q' E. destruct m as [x|w|w]; [|done|done]. by apply (Hk x). Qed.
End guard.

Create HintDb fastboot.
#[local] Hint Resolve flash_any command_any signature_any done_any queued_any : fastboot.

(** Goals [extends anything]: through the binds and the branches. *)
Ltac extending :=
  repeat first
    [ done
    | solve [auto with fastboot]
    | apply extends_bind; [|intros ?]
    | apply extends_bind_any; intros ?
    | case_match ].

Section update.
Context `{Surroundings}.

Lemma update_signature_any q zip fn : extends anything q (do_update_signature q zip fn).
Proof. unfold do_update_signature. extending. Qed.
Lemma send_signature_any q fn : extends anything q (do_send_signature q fn).
Proof. unfold do_send_signature. extending. Qed.
Lemma flash_image_any q item fname data : extends anything q (flash_image q item fname data).
Proof. apply extends_bind; [apply send_signature_any|]. intros q1. apply flash_any. Qed.
#[local] Hint Resolve update_signature_any send_signature_any flash_image_any : fastboot.

(** The queue of either command: the information, the requirements, the rest. *)
(** The two commands that flash a whole system, and the text of the requirements that
    they find. *)
Inductive reflash := Update (fn : bytes) | Flashall (product : option bytes).
Definition reflash_queue (cmd : reflash) : outcome queue :=
  match cmd with Update fn => do_update [] fn | Flashall product => do_flashall [] product end.
Definition info_text (cmd : reflash) (info : bytes) : Prop :=
  match cmd with
  | Update fn => exists zdata zip, load_file fn = Some zdata /\ package zdata = Some zip /\ update_info zip = Done info
  | Flashall product => exists name, find_item (bs "info") product = Done (Some name) /\ load_file name = Some info
  end.

(** Questions, then the requirements of a text, then the rest. *)
Definition guarded (info : bytes) (q : queue) : Prop :=
  exists dump reqs rest, q = dump ++ reqs ++ rest /\ Forall is_question dump /\ Forall is_question reqs /\ Forall is_requirement reqs /\
    setup_requirements dump info = Done (dump ++ reqs).

Lemma requirements_then data (k : queue -> outcome queue) q :
  (q1 ← queue_info_dump []; q2 ← setup_requirements q1 data; k q2) = Done q -> (forall q2, extends anything q2 (k q2)) -> guarded data q.
Proof.
  intros E Hk. destruct (info_dump_exact []) as (dump & Ed & Hd). rewrite Ed in E. cbn [app] in E.
  apply bind_Done in E as (q1 & [= <-] & E). apply bind_Done in E as (q2 & E2 & E).
  destruct (requirements_extend data dump [] q2 E2) as (reqs & -> & Hreqs).
  destruct (Hk _ q E) as (ext & -> & _). exists dump, reqs, ext. split; [by rewrite app_assoc|]. split; [done|].
  split_and!; [..|done]; eapply Forall_impl; try exact Hreqs; cbn; tauto.
Qed.

Lemma do_update_guarded fn q : do_update [] fn = Done q -> exists info, info_text (Update fn) info /\ guarded info q.
Proof.
  intros E. unfold do_update in E. apply bind_Done in E as (q1 & E1 & E).
  destruct (load_file fn) as [zdata|] eqn:Ez; [|done]. destruct (package zdata) as [zip|] eqn:Ep; [|done].
  apply bind_Done in E as (info & Ei & E). exists info. split; [by exists zdata, zip|]. eapply (requirements_then info _ q).
  - rewrite E1. exact E.
  - intros q2. extending.
Qed.

Lemma do_flashall_guarded product q : do_flashall [] product = Done q -> exists info, info_text (Flashall product) info /\ guarded info q.
Proof.
  intros E. unfold do_flashall in E. apply bind_Done in E as (q1 & E1 & E).
  apply bind_Done in E as (name & En & E). destruct name as [name|]; [|done].
  destruct (load_file name) as [data|] eqn:El; [|done]. exists data. split; [by exists name|]. eapply (requirements_then data _ q).
  - rewrite E1. exact E.
  - intros q2. extending.
Qed.

(** C38 (safety). fastboot update and fastboot flashall: the queue is the questions of the
    information dump, the requirements that setup_requirements reads from the package's
    text (a last line without a newline is not read, [last_line_ignored]), and then the
    rest.  Whatever the device answers and however the writes come out, either all that
    was sent to it are the first of these questions' queries, in their order; or the
    device's replies begin with an answer to each question, in the order of the
    questions, OKAY after any INFO messages, and each requirement accepts the value of
    its own answer. *)
Theorem flash_after_requirements (cmd : reflash) (q : queue) (link link' : usb) (r : Z) :
  reflash_queue cmd = Done q -> fb_execute_queue q link = Some (r, link') ->
  exists info dump reqs rest, info_text cmd info /\ q = dump ++ reqs ++ rest /\ Forall is_question (dump ++ reqs) /\
    setup_requirements dump info = Done (dump ++ reqs) /\ Forall is_requirement reqs /\
    ((exists sent, written link' = written link ++ sent /\ sent `prefix_of` queries (dump ++ reqs)) \/
     (exists later, answered (dump ++ reqs) (replies link) later)).
Proof.
  intros Hq E. assert (exists info, info_text cmd info /\ guarded info q) as (info & Hi & dump & reqs & rest & -> & Hd & Hqs & Hr & Es).
  { destruct cmd as [fn|product]; [by apply do_update_guarded|by apply do_flashall_guarded]. }
  exists info, dump, reqs, rest. assert (Forall is_question (dump ++ reqs)) as Hall by (by apply Forall_app).
  split_and!; [done..|]. rewrite app_assoc in E. by apply (questions_first _ _ _ _ _ Hall E).
Qed.

(** *** The loop over the words *)

Lemma with_arg_inv {A} (args : list bytes) (k : bytes -> list bytes -> outcome A) r :
  with_arg args k = Done r -> exists x rest, args = x :: rest /\ k x rest = Done r.
Proof. destruct args as [|x rest]; [done|eauto]. Qed.

(** Every word is followed by less than it was. *)
Lemma one_word_consumes o w args o' args' : one_word o w args = Done (Some (o', args')) -> (length args' <= length args)%nat.
Proof.
  intros E. unfold one_word in E.
  repeat match type of E with
  | with_arg _ _ = _ => apply with_arg_inv in E as (? & ? & -> & E)
  | (mbind _ _ = _) => apply bind_Done in E as (? & _ & E)
  | context [let '(_, _) := ?x in _] => destruct x eqn:?
  | context [match ?x with _ => _ end] => destruct x eqn:?
  end; simplify_eq; cbn [length tail];
    repeat match goal with |- context [tail ?l] => is_var l; destruct l; cbn [length tail] end; lia.
Qed.

Lemma words_fuel n : forall o args k, (length args <= n)%nat -> words (n + k) o args = words n o args.
Proof.
  induction n as [|n IH]; intros o args k Hn; (destruct args as [|w args]; [by destruct k|]); [cbn in Hn; lia|].
  cbn [plus words]. destruct (one_word o w args) as [[[o' args']|]|e|e] eqn:E; cbv [mbind outcome_bind]; cbv beta iota; try done.
  apply one_word_consumes in E. apply IH. cbn in Hn. lia.
Qed.

(** *** Where the buffers are too small *)

Lemma oem_overflow q argv : (1 < length argv)%nat -> (256 <= length (join_words argv))%nat ->
  do_oem_command q argv = Undef "buffer overrun".
Proof.
  intros Hn Hl. unfold do_oem_command, sprintf. destruct (Nat.leb_spec (length argv) 1); [lia|].
  by destruct (Nat.ltb_spec (length (join_words argv)) 256); [lia|].
Qed.

(** The text of android-product.txt is printed as a string, which it is not. *)
Lemma product_text_overread zip sz data decompress :
  zip (bs "android-info.txt") = None -> zip (bs "android-product.txt") = Some (sz, decompress) ->
  0 < sz -> times_1_001 sz < 2 ^ 32 -> decompress (times_1_001 sz) = Some data ->
  Z.of_nat (length data) = sz -> no_nul data ->
  update_info zip = Undef "android-product.txt has no end".
Proof.
  intros H1 H2 Hsz Hr Hd Hl Hn. unfold update_info, unzip_file. rewrite H1, H2. cbv [mbind outcome_bind]. cbv beta iota zeta.
  destruct (Z.leb_spec (2 ^ 32) (times_1_001 sz)); [lia|]. rewrite Hd. cbv beta iota.
  rewrite <- Hl, Nat2Z.id, take_ge by lia. destruct data as [|c data]; [cbn in Hl; lia|].
  assert (cstring (c :: data) = None) as ->; [|done]. clear -Hn. revert Hn. generalize (c :: data). intros l.
  induction 1 as [|b l Hb _ IH]; [done|]. cbn [cstring]. rewrite (proj2 (Z.eqb_neq b 0)) by done. by rewrite IH.
Qed.

(** flash:raw alone looks at the word after the end of the arguments. *)
Lemma flash_raw_overread o : one_word o (bs "flash:raw") [] = Undef "argv read past its end".
Proof. reflexivity. Qed.

(** The magic is compared in eight bytes of a file that may have fewer. *)
Lemma short_kernel page_size base kernel ramdisk cmdline kdata :
  load_file kernel = Some kdata -> (length kdata < 8)%nat ->
  load_bootable_image page_size base (Some kernel) ramdisk cmdline = Undef "memcmp past the end of the file".
Proof. intros Hk Hl. unfold load_bootable_image. rewrite Hk. by destruct (Nat.ltb_spec (length kdata) 8); [|lia]. Qed.

(** The buffer of an entry is never smaller than the entry. *)
Lemma unzip_room sz : 0 <= sz < 2 ^ 32 -> sz <= times_1_001 sz.
Proof.
  intros Hsz. unfold times_1_001. apply Z.div_le_lower_bound; [lia|].
  destruct (Z.eq_dec sz 0) as [->|Hnz]; [done|].
  set (p := sz * (2 * 2254051613498933)). assert (2 ^ 52 * sz <= p < 2 ^ 85) as Hp by (unfold p; lia).
  unfold round53. set (e := Z.log2 p + 1 - 53). destruct (Z.leb_spec e 0); [lia|].
  assert (Z.log2 p < 85) as Hlog by (apply Z.log2_lt_pow2; lia).
  assert (0 < 2 ^ e) by (apply Z.pow_pos_nonneg; lia).
  assert (2 ^ 52 = 2 ^ (52 - e) * 2 ^ e) as E52 by (rewrite <- Z.pow_add_r by lia; f_equal; lia).
  assert (2 ^ (52 - e) * sz <= p / 2 ^ e) as Hq by (apply Z.div_le_lower_bound; [done|rewrite E52 in Hp; lia]).
  assert (p / 2 ^ e <= if (2 ^ e <? 2 * (p mod 2 ^ e)) || ((2 * (p mod 2 ^ e) =? 2 ^ e) && Z.odd (p / 2 ^ e))
                       then p / 2 ^ e + 1 else p / 2 ^ e) by (destruct (_ || _); lia).
  rewrite E52. nia.
Qed.
End update.

(** ** A package and a device that is not the right one *)

Module Package.
#[global] Instance surroundings : Surroundings := {
  load fn := if bool_decide (fn = bs "u.zip") then Some (mk_loaded 1 0 (fun _ => Some [1])) else None;
  package _ := Some (fun name =>
    if bool_decide (name = bs "android-info.txt") then Some (18, fun _ => Some (bs "require board=twm" ++ [10]))
    else if bool_decide (name = bs "boot.img") then Some (1, fun _ => Some [7])
    else if bool_decide (name = bs "system.img") then Some (1, fun _ => Some [8])
    else None);
  my_path := bs "/";
  getenv _ := None
}.
Definition info : usb_ifc_info := mk_ifc 0x18d1 0xff 0x42 0x03 true (bs "1").
Definition answers : list (option bytes) := replicate 3 (Some (bs "OKAY1")) ++ [Some (bs "OKAY" ++ bs "t1")].

(** The whole command: the requirement fails, and four queries are all that was sent. *)
Example update_refused :
  match main [bs "update"; bs "u.zip"] [[]; [info]] (demo_usb answers) with
  | Done (Ran i (Some link)) => i = info /\
      written link = [bs "getvar:version-bootloader"; bs "getvar:version-baseband"; bs "getvar:serialno"; bs "getvar:product"]
  | _ => False
  end.
Proof. vm_compute. done. Qed.
End Package.

Lemma flash_after_requirements_witness :
  exists q link', reflash_queue (Update (bs "u.zip")) = Done q /\
    fb_execute_queue q (demo_usb Package.answers) = Some (-1, link') /\
    exists info dump reqs rest, info_text (Update (bs "u.zip")) info /\ q = dump ++ reqs ++ rest /\ Forall is_question (dump ++ reqs) /\
      setup_requirements dump info = Done (dump ++ reqs) /\ Forall is_requirement reqs /\
      ((exists sent, written link' = written (demo_usb Package.answers) ++ sent /\ sent `prefix_of` queries (dump ++ reqs)) \/
       (exists later, answered (dump ++ reqs) (replies (demo_usb Package.answers)) later)).
Proof.
  eexists _, _. split; [vm_compute; reflexivity|]. split; [vm_compute; reflexivity|].
  eapply (flash_after_requirements (Update (bs "u.zip")) _ (demo_usb Package.answers) _ (-1)); vm_compute; reflexivity.
Defined.
