(* ===== verification/FbUsb.v ===== *)
(** * The USB back end of fastboot on Linux (tools/fastboot/usb_linux.c)

    find_usb_device walks the device files of the USB bus and filter_usb_device takes
    their descriptors apart; usb_write and usb_read cut transfers into calls of at
    most 4096 bytes.  The calls of the system are the class [UsbFs], with what the
    descriptors it gives are in [UsbFsLaws]; transfers are over the list of results
    their calls will give.  The buffer of the descriptors is the bytes that were read:
    looking behind them is undefined.  The theorems show that this never happens,
    that the interface chosen is the first one that is accepted with its own
    endpoints, that no descriptor is left open, and that the transfers are the replies
    and writes that Fastboot works with. *)

From S2P Require Import Prelude Fastboot FastbootMain.

Class UsbFs (W : Type) := {
  u_dir : W -> bytes -> option (list bytes);               (* opendir, readdir: the names *)
  u_open : W -> bytes -> bool -> Z * W;                     (* open; true: to read and write *)
  u_read : W -> Z -> nat -> option bytes * W;               (* read; None: -1 *)
  u_string : W -> Z -> Z -> Z -> option bytes * W;          (* a string descriptor, by index and language; None: -1 *)
  u_claim : W -> Z -> Z -> Z * W;                           (* USBDEVFS_CLAIMINTERFACE *)
  u_close : W -> Z -> W
}.

(** The open descriptors. *)
Class UsbFsLaws (W : Type) `{UsbFs W} := {
  u_fds : W -> gset Z;
  u_open_fds w p rw : let '(fd, w') := u_open w p rw in
    if fd <? 0 then u_fds w' = u_fds w else ((fd ∉ u_fds w) /\ u_fds w' = {[ fd ]} ∪ u_fds w);
  u_read_fds w fd n : u_fds (u_read w fd n).2 = u_fds w;
  u_string_fds w fd i l : u_fds (u_string w fd i l).2 = u_fds w;
  u_claim_fds w fd i : u_fds (u_claim w fd i).2 = u_fds w;
  u_close_fds w fd : u_fds (u_close w fd) = u_fds w ∖ {[ fd ]}
}.

(** ** Descriptors *)

Definition USB_DT_DEVICE : Z := 1.
Definition USB_DT_CONFIG : Z := 2.
Definition USB_DT_INTERFACE : Z := 4.
Definition USB_DT_ENDPOINT : Z := 5.
Definition USB_DT_DEVICE_SIZE : Z := 18.
Definition USB_DT_CONFIG_SIZE : Z := 9.
Definition USB_DT_INTERFACE_SIZE : Z := 9.
Definition USB_DT_ENDPOINT_SIZE : Z := 7.

Definition badname (name : bytes) : bool := existsb (fun c => negb ((48 <=? c) && (c <=? 57))) name.

Definition byte_at (d : bytes) (i : nat) : outcome Z := deref "descriptor" (d !! i).
Definition short_at (d : bytes) (i : nat) : outcome Z :=
  lo ← byte_at d i; hi ← byte_at d (i + 1); Done (lo + 256 * hi).

(** [true]: -1. *)
Definition check (d : bytes) (i : nat) (len type size : Z) : outcome bool :=
  if len <? size then Done true
  else
    n ← byte_at d i;
    if n <? size then Done true
    else if n >? len then Done true
    else t ← byte_at d (i + 1); Done (negb (t =? type)).

(** The words of a string descriptor behind the first, cut to bytes. *)
Fixpoint shorts (d : bytes) : list Z :=
  match d with
  | a :: b :: d => a + 256 * b :: shorts d
  | _ => []
  end.
Definition serial_of (d : bytes) : bytes := u8 <$> tail (shorts d).

(** What the callback sees. *)
Record ifc_info := mk_ifc_info {
  seen : usb_ifc_info;
  dev_product : Z; dev_class : Z; dev_subclass : Z; dev_protocol : Z;
  has_bulk_in : bool; has_bulk_out : bool
}.

Record match_result := mk_match { m_in : Z; m_out : Z; m_ifc : Z }.

Section scan.
Context {W : Type} `{UsbFs W} (callback : ifc_info -> bool).  (* true: 0 *)

(** The loop over the endpoints of an interface: where it ends, and the last
    addresses. *)
Fixpoint scan_endpoints (k : nat) (d : bytes) (i : nat) (len inp out : Z) : outcome (option (nat * Z * Z * Z)) :=
  match k with
  | O => Done (Some (i, len, inp, out))
  | S k =>
      bad ← check d i len USB_DT_ENDPOINT USB_DT_ENDPOINT_SIZE;
      if bad : bool then Done None
      else
        n ← byte_at d i;
        attributes ← byte_at d (i + 3);
        if negb (Z.land attributes 3 =? 2) then scan_endpoints k d (i + Z.to_nat n) (len - n) inp out
        else
          address ← byte_at d (i + 2);
          if negb (Z.land address 0x80 =? 0) then scan_endpoints k d (i + Z.to_nat n) (len - n) address out
          else scan_endpoints k d (i + Z.to_nat n) (len - n) inp address
  end.

(** The loop over the interfaces: those shown to the callback, and the one it took. *)
Fixpoint scan_interfaces (k : nat) (d : bytes) (i : nat) (len : Z) (dev : Z -> Z -> Z -> bool -> bool -> ifc_info)
    (shown : list ifc_info) : outcome (list ifc_info * option match_result) :=
  match k with
  | O => Done (shown, None)
  | S k =>
      bad ← check d i len USB_DT_INTERFACE USB_DT_INTERFACE_SIZE;
      if bad : bool then Done (shown, None)
      else
        n ← byte_at d i;
        number ← byte_at d (i + 2);
        count ← byte_at d (i + 4);
        class ← byte_at d (i + 5);
        subclass ← byte_at d (i + 6);
        protocol ← byte_at d (i + 7);
        r ← scan_endpoints (Z.to_nat count) d (i + Z.to_nat n) (len - n) (-1) (-1);
        match r with
        | None => Done (shown, None)
        | Some (i, len, inp, out) =>
            let info := dev class subclass protocol (negb (inp =? -1)) (negb (out =? -1)) in
            if callback info then Done (shown ++ [info], Some (mk_match inp out number))
            else scan_interfaces k d i len dev (shown ++ [info])
        end
  end.

Definition filter_usb_device (w : W) (fd : Z) (d : bytes) (len : Z) (writable : bool)
    : outcome (list ifc_info * option match_result * W) :=
  bad ← check d 0 len USB_DT_DEVICE USB_DT_DEVICE_SIZE;
  if bad : bool then Done ([], None, w)
  else
    n ← byte_at d 0;
    let i := Z.to_nat n in
    let len := len - n in
    bad ← check d i len USB_DT_CONFIG USB_DT_CONFIG_SIZE;
    if bad : bool then Done ([], None, w)
    else
      n ← byte_at d i;
      vendor ← short_at d 8;
      product ← short_at d 10;
      class ← byte_at d 4;
      subclass ← byte_at d 5;
      protocol ← byte_at d 6;
      serial_index ← byte_at d 16;
      let '(serial, w) :=
        if serial_index =? 0 then ([], w)
        else
          let '(r, w) := u_string w fd serial_index 0x0409 in
          (match r with Some text => until_nul (serial_of (take 256 text)) | None => [] end, w) in
      count ← byte_at d (i + 4);
      let dev c s p bulk_in bulk_out :=
        mk_ifc_info (mk_ifc vendor c s p writable serial) product class subclass protocol bulk_in bulk_out in
      '(shown, m) ← scan_interfaces (Z.to_nat count) d (i + Z.to_nat n) (len - n) dev [];
      Done (shown, m, w).

(** ** The device files *)

Record usb_handle := mk_usb_handle { fname : bytes; desc : Z; ep_in : Z; ep_out : Z }.

(** sprintf of a directory and a name into 64 bytes. *)
Definition file_name (dir name : bytes) : outcome bytes :=
  let s := dir ++ bs "/" ++ name in
  if (length s <? 64)%nat then Done s else Undef "devname".

Definition open_either (w : W) (devname : bytes) : Z * bool * W :=
  let '(fd, w) := u_open w devname true in
  if fd <? 0 then let '(fd, w) := u_open w devname false in (fd, false, w) else (fd, true, w).

(** One device file. *)
Definition find_device (w : W) (devname : bytes) : outcome (list ifc_info * option usb_handle * W) :=
  let '(fd, writable, w) := open_either w devname in
  if fd <? 0 then Done ([], None, w)
  else
    let '(r, w) := u_read w fd 1024 in
    let '(d, n) := match r with Some d => (take 1024 d, Z.of_nat (length (take 1024 d))) | None => ([], -1) end in
    '(shown, m, w) ← filter_usb_device w fd d n writable;
    match m with
    | Some m =>
        let '(n, w) := u_claim w fd (m_ifc m) in
        if negb (n =? 0) then Done (shown, None, u_close w fd)
        else Done (shown, Some (mk_usb_handle devname fd (u8 (m_in m)) (u8 (m_out m))), w)
    | None => Done (shown, None, u_close w fd)
    end.

Fixpoint find_in_bus (w : W) (busname : bytes) (names : list bytes) : outcome (list ifc_info * option usb_handle * W) :=
  match names with
  | [] => Done ([], None, w)
  | name :: names =>
      if badname name then find_in_bus w busname names
      else
        devname ← file_name busname name;
        '(shown, h, w) ← find_device w devname;
        match h with
        | Some _ => Done (shown, h, w)
        | None => '(shown', h, w) ← find_in_bus w busname names; Done (shown ++ shown', h, w)
        end
  end.

Fixpoint find_buses (w : W) (base : bytes) (names : list bytes) : outcome (list ifc_info * option usb_handle * W) :=
  match names with
  | [] => Done ([], None, w)
  | name :: names =>
      if badname name then find_buses w base names
      else
        busname ← file_name base name;
        match u_dir w busname with
        | None => find_buses w base names
        | Some files =>
            '(shown, h, w) ← find_in_bus w busname files;
            match h with
            | Some _ => Done (shown, h, w)
            | None => '(shown', h, w) ← find_buses w base names; Done (shown ++ shown', h, w)
            end
        end
  end.

Definition find_usb_device (w : W) (base : bytes) : outcome (list ifc_info * option usb_handle * W) :=
  match u_dir w base with
  | None => Done ([], None, w)
  | Some names => find_buses w base names
  end.

Definition usb_open (w : W) : outcome (list ifc_info * option usb_handle * W) := find_usb_device w (bs "/dev/bus/usb").

(** usb_kick and usb_close. *)
Definition usb_close (w : W) (h : usb_handle) : usb_handle * W :=
  let fd := desc h in
  let h := mk_usb_handle (fname h) (-1) (ep_in h) (ep_out h) in
  (h, if 0 <=? fd then u_close w fd else w).
Definition usb_kick := usb_close.

End scan.

(** ** Transfers

    The results of the ioctl calls to come: what a write returns, what a read
    brings ([None]: -1).  [None] as the result: a call that never returns. *)

Definition MAX_RETRIES : Z := 5.
Definition xfer_max : nat := Z.to_nat 4096.
Arguments xfer_max : simpl never.
Lemma xfer_max_val : Z.of_nat xfer_max = 4096.
Proof. done. Qed.

Fixpoint write_loop (results : list Z) (data : bytes) (count : Z) (sent : list bytes) : option (Z * list bytes * list Z) :=
  match data with
  | [] => Some (i32 count, sent, results)
  | _ =>
      match results with
      | [] => None
      | n :: results =>
          let x := take xfer_max data in
          if negb (n =? Z.of_nat (length x)) then Some (-1, sent ++ [x], results)
          else write_loop results (drop xfer_max data) (u32 (count + Z.of_nat (length x))) (sent ++ [x])
      end
  end.

Definition usb_write (h : usb_handle) (data : bytes) (results : list Z) : option (Z * list bytes * list Z) :=
  if ep_out h =? 0 then Some (-1, [], results)
  else match data with
       | [] =>
           match results with
           | [] => None
           | n :: results => Some (if negb (n =? 0) then -1 else 0, [[]], results)
           end
       | _ => write_loop results data 0 []
       end.

(** A call brings no more than it was asked for. *)
Fixpoint read_loop (results : list (option bytes)) (retry : Z) (len : nat) (count : Z) (data : bytes)
    : option (Z * bytes * list (option bytes)) :=
  match len with
  | O => Some (i32 count, data, results)
  | _ =>
      match results with
      | [] => None
      | None :: results =>
          if retry + 1 >? MAX_RETRIES then Some (-1, data, results)
          else read_loop results (retry + 1) len count data
      | Some d :: results =>
          let xfer := Nat.min len xfer_max in
          let d := take xfer d in
          let count := u32 (count + Z.of_nat (length d)) in
          if (length d <? xfer)%nat then Some (i32 count, data ++ d, results)
          else read_loop results 0 (len - length d) count (data ++ d)
      end
  end.

Definition usb_read (h : usb_handle) (len : nat) (results : list (option bytes)) : option (Z * bytes * list (option bytes)) :=
  if ep_in h =? 0 then Some (-1, [], results) else read_loop results 0 len 0 [].

(** ** Nothing behind the bytes that were read is looked at *)

Section safe.
Context {W : Type} `{UsbFs W} (callback : ifc_info -> bool).

Lemma byte_at_lt d i : (i < length d)%nat -> exists b, byte_at d i = Done b /\ d !! i = Some b.
Proof. intros Hi. destruct (lookup_lt_is_Some_2 d i Hi) as [b E]. exists b. unfold byte_at. by rewrite E. Qed.

(** A descriptor that passes is there as a whole. *)
Lemma check_ok d i len type size : 2 <= size -> Z.of_nat i + len <= Z.of_nat (length d) ->
  check d i len type size = Done true \/
  check d i len type size = Done false /\
    exists n, byte_at d i = Done n /\ size <= n <= len /\ byte_at d (i + 1) = Done type.
Proof.
  intros Hs Hl. unfold check. destruct (Z.ltb_spec len size); [by left|].
  destruct (byte_at_lt d i) as (n & E & _); [lia|]. rewrite E. cbv [mbind outcome_bind]; cbv beta iota.
  destruct (Z.ltb_spec n size); [by left|]. rewrite Z.gtb_ltb. destruct (Z.ltb_spec len n); [by left|].
  destruct (byte_at_lt d (i + 1)) as (t & Et & _); [lia|]. rewrite Et.
  destruct (Z.eqb_spec t type) as [->|]; [|by left]. right. split; [done|]. exists n. by split_and!.
Qed.

(** Split on a check, and read within what it has found. *)
Ltac checked n Hn :=
  match goal with
  | |- context [check ?d ?i ?len ?t ?s] =>
      destruct (check_ok d i len t s) as [->|[-> (n & -> & Hn & ?)]];
      [by_compute|lia| |]; cbv [mbind outcome_bind]; cbv beta iota
  end.
Ltac reads :=
  repeat match goal with
  | |- context [byte_at ?d ?i] =>
      let b := fresh "b" in let E := fresh "E" in
      destruct (byte_at_lt d i) as (b & E & _); [lia|]; rewrite E; cbv [mbind outcome_bind]; cbv beta iota
  end.

Lemma scan_endpoints_ok k d : forall i len inp out, Z.of_nat i + len <= Z.of_nat (length d) ->
  match scan_endpoints k d i len inp out with
  | Done (Some (i', len', _, _)) => Z.of_nat i' + len' <= Z.of_nat (length d)
  | Done None => True
  | _ => False
  end.
Proof.
  induction k as [|k IH]; intros i len inp out Hl; cbn [scan_endpoints]; [done|].
  cbv [mbind outcome_bind]. unfold USB_DT_ENDPOINT_SIZE. checked n Hn; [done|]. reads.
  destruct (negb _); [apply IH; lia|]. reads. destruct (negb _); apply IH; lia.
Qed.

Lemma scan_interfaces_ok k d dev : forall i len shown, Z.of_nat i + len <= Z.of_nat (length d) ->
  exists r, scan_interfaces callback k d i len dev shown = Done r.
Proof.
  induction k as [|k IH]; intros i len shown Hl; cbn [scan_interfaces]; [eauto|].
  cbv [mbind outcome_bind]. unfold USB_DT_INTERFACE_SIZE. checked n Hn; [eauto|]. reads.
  match goal with |- context [scan_endpoints ?k ?d ?i ?len ?a ?b] => pose proof (scan_endpoints_ok k d i len a b) as He end.
  specialize (He ltac:(lia)). destruct (scan_endpoints _ _ _ _ _ _) as [[[[[i' len'] inp] out]|]| |]; [|eauto|done..].
  destruct (callback _); [eauto|]. by apply IH.
Qed.

Lemma filter_safe w fd d len wr : len <= Z.of_nat (length d) ->
  exists r, filter_usb_device callback w fd d len wr = Done r.
Proof.
  intros Hl. unfold filter_usb_device, short_at. unfold USB_DT_DEVICE_SIZE, USB_DT_CONFIG_SIZE.
  checked n Hn; [eauto|]. checked m Hm; [eauto|]. reads.
  destruct (if b6 =? 0 then _ else _) as [serial w']. reads.
  match goal with |- context [scan_interfaces ?c ?k ?d ?i ?len ?dev ?s] => destruct (scan_interfaces_ok k d dev i len s) as [[shown r] ->] end.
  { lia. } eauto.
Qed.
End safe.

(** ** Reading back a device's descriptors *)

(** The descriptors as they are laid out, each with the fields that are not used here
    and what may come behind the fields of the standard. *)
Record endpoint := mk_ep { ep_address : Z; ep_attributes : Z; ep_more : bytes }.
Record interface := mk_if { if_number : Z; if_alternate : Z; if_class : Z; if_subclass : Z; if_protocol : Z;
  if_more : bytes; if_endpoints : list endpoint }.
Record device := mk_dev { d_usb : Z * Z; d_class : Z; d_subclass : Z; d_protocol : Z; d_packet : Z; d_vendor : Z;
  d_product : Z; d_release : Z * Z; d_names : Z * Z; d_serial : Z; d_more : bytes;
  c_total : Z * Z; c_more : bytes; d_interfaces : list interface; d_rest : bytes }.

Definition put_endpoint (e : endpoint) : bytes :=
  [4 + Z.of_nat (length (ep_more e)); USB_DT_ENDPOINT; ep_address e; ep_attributes e] ++ ep_more e.
Definition put_interface (f : interface) : bytes :=
  ([8 + Z.of_nat (length (if_more f)); USB_DT_INTERFACE; if_number f; if_alternate f; Z.of_nat (length (if_endpoints f));
    if_class f; if_subclass f; if_protocol f] ++ if_more f) ++ concat (map put_endpoint (if_endpoints f)).
Definition put_device (d : device) : bytes :=
  ([17 + Z.of_nat (length (d_more d)); USB_DT_DEVICE; (d_usb d).1; (d_usb d).2; d_class d; d_subclass d; d_protocol d;
    d_packet d; d_vendor d mod 256; d_vendor d / 256; d_product d mod 256; d_product d / 256;
    (d_release d).1; (d_release d).2; (d_names d).1; (d_names d).2; d_serial d] ++ d_more d) ++
  ([5 + Z.of_nat (length (c_more d)); USB_DT_CONFIG; (c_total d).1; (c_total d).2; Z.of_nat (length (d_interfaces d))] ++ c_more d) ++
  concat (map put_interface (d_interfaces d)) ++ d_rest d.

(** Each descriptor has the fields of the standard. *)
Definition endpoint_ok (e : endpoint) : Prop := (3 <= length (ep_more e))%nat.
Definition interface_ok (f : interface) : Prop := (1 <= length (if_more f))%nat /\ Forall endpoint_ok (if_endpoints f).
Definition device_ok (d : device) : Prop :=
  (1 <= length (d_more d))%nat /\ (4 <= length (c_more d))%nat /\ Forall interface_ok (d_interfaces d).

(** The last bulk endpoint of a direction. *)
Definition is_bulk (inward : bool) (e : endpoint) : Prop :=
  Z.land (ep_attributes e) 3 = 2 /\ negb (Z.land (ep_address e) 0x80 =? 0) = inward.
#[export] Instance is_bulk_dec inward e : Decision (is_bulk inward e).
Proof. unfold is_bulk. apply _. Defined.
Definition last_bulk (inward : bool) (es : list endpoint) (none : Z) : Z :=
  default none (last (ep_address <$> filter (is_bulk inward) es)).

Definition view_of (wr : bool) (serial : bytes) (d : device) (f : interface) : ifc_info :=
  mk_ifc_info (mk_ifc (d_vendor d) (if_class f) (if_subclass f) (if_protocol f) wr serial)
    (d_product d) (d_class d) (d_subclass d) (d_protocol d)
    (negb (last_bulk true (if_endpoints f) (-1) =? -1)) (negb (last_bulk false (if_endpoints f) (-1) =? -1)).
Definition match_of (f : interface) : match_result :=
  mk_match (last_bulk true (if_endpoints f) (-1)) (last_bulk false (if_endpoints f) (-1)) (if_number f).

(** What is shown until one is taken. *)
Fixpoint taken {A B} (accepts : B -> bool) (view : A -> B) (l : list A) : list B * option A :=
  match l with
  | [] => ([], None)
  | a :: l => if accepts (view a) then ([view a], Some a) else let '(s, r) := taken accepts view l in (view a :: s, r)
  end.

Lemma byte_at_skip p d k : byte_at (p ++ d) (length p + k) = byte_at d k.
Proof. unfold byte_at. rewrite lookup_app_r by lia. by replace (length p + k - length p)%nat with k by lia. Qed.
Lemma byte_at_here p d : byte_at (p ++ d) (length p) = byte_at d 0.
Proof. rewrite <- (byte_at_skip p d 0). by rewrite Nat.add_0_r. Qed.

Lemma check_passes d i len type size n :
  byte_at d i = Done n -> byte_at d (i + 1) = Done type -> size <= n <= len -> check d i len type size = Done false.
Proof.
  intros Hn Ht Hs. unfold check. rewrite Hn, Ht. cbv [mbind outcome_bind]; cbv beta iota. rewrite Z.gtb_ltb.
  destruct (Z.ltb_spec len size); [lia|]. destruct (Z.ltb_spec n size); [lia|]. destruct (Z.ltb_spec len n); [lia|]. by rewrite Z.eqb_refl.
Qed.

Lemma last_bulk_cons inward e es none :
  last_bulk inward (e :: es) none = last_bulk inward es (if bool_decide (is_bulk inward e) then ep_address e else none).
Proof.
  unfold last_bulk. rewrite filter_cons. case_bool_decide as Hb; [rewrite decide_True by done|by rewrite decide_False].
  rewrite fmap_cons, last_cons. by destruct (last _).
Qed.

Lemma length_put_endpoint e : length (put_endpoint e) = (4 + length (ep_more e))%nat.
Proof. unfold put_endpoint. rewrite length_app. cbn. lia. Qed.

Lemma scan_endpoints_put es : forall p q inp out, Forall endpoint_ok es ->
  scan_endpoints (length es) (p ++ concat (map put_endpoint es) ++ q) (length p)
    (Z.of_nat (length (concat (map put_endpoint es)) + length q)) inp out =
  Done (Some ((length p + length (concat (map put_endpoint es)))%nat, Z.of_nat (length q),
              last_bulk true es inp, last_bulk false es out)).
Proof.
  induction es as [|e es IH]; intros p q inp out Hok.
  { cbn. by rewrite Nat.add_0_r. }
  apply Forall_cons in Hok as [He Hok]. unfold endpoint_ok in He. cbn [map concat length scan_endpoints].
  pose proof (length_put_endpoint e) as Hl. rewrite length_app, <- app_assoc.
  assert (forall k, (k < 4)%nat -> byte_at (p ++ put_endpoint e ++ concat (map put_endpoint es) ++ q) (length p + k) =
    byte_at [4 + Z.of_nat (length (ep_more e)); USB_DT_ENDPOINT; ep_address e; ep_attributes e] k) as Hb.
  { intros k Hk. rewrite byte_at_skip. unfold put_endpoint, byte_at. rewrite <- !app_assoc. by rewrite lookup_app_l by done. }
  pose proof (Hb 0%nat ltac:(lia)) as H0. rewrite Nat.add_0_r in H0.
  rewrite (check_passes _ _ _ _ _ _ H0 (Hb 1%nat ltac:(lia))) by (unfold USB_DT_ENDPOINT_SIZE; lia).
  rewrite H0, !Hb by lia. cbn [byte_at lookup list_lookup deref]. cbv [mbind outcome_bind]; cbv beta iota.
  rewrite !last_bulk_cons.
  assert (forall a b, scan_endpoints (length es) (p ++ put_endpoint e ++ concat (map put_endpoint es) ++ q)
    (length p + Z.to_nat (4 + Z.of_nat (length (ep_more e))))
    (Z.of_nat (length (put_endpoint e) + length (concat (map put_endpoint es)) + length q) - (4 + Z.of_nat (length (ep_more e)))) a b =
    Done (Some ((length p + (length (put_endpoint e) + length (concat (map put_endpoint es))))%nat, Z.of_nat (length q),
      last_bulk true es a, last_bulk false es b))) as Hnext.
  { intros a b. specialize (IH (p ++ put_endpoint e) q a b Hok). rewrite <- app_assoc, length_app in IH.
    rewrite Hl in *. replace (length p + Z.to_nat (4 + Z.of_nat (length (ep_more e))))%nat with (length p + (4 + length (ep_more e)))%nat by lia.
    match goal with |- scan_endpoints _ _ _ ?z _ _ = _ => replace z with (Z.of_nat (length (concat (map put_endpoint es)) + length q)) by lia end.
    rewrite IH. by match goal with |- Done (Some (?a, _, _, _)) = Done (Some (?b, _, _, _)) => replace a with b by lia end. }
  destruct (Z.eqb_spec (Z.land (ep_attributes e) 3) 2) as [Hy|Hn]; cbn [negb].
  - destruct (negb (Z.land (ep_address e) 128 =? 0)) eqn:Ed; rewrite Hnext;
      repeat first [rewrite (bool_decide_eq_true_2 (is_bulk _ e)) by done
                   |rewrite (bool_decide_eq_false_2 (is_bulk _ e)) by (unfold is_bulk; rewrite Ed; by intros [_ ?])]; done.
  - rewrite Hnext. by rewrite !(bool_decide_eq_false_2 (is_bulk _ e)) by (by intros [? _]).
Qed.

Lemma length_put_interface f :
  length (put_interface f) = (8 + length (if_more f) + length (concat (map put_endpoint (if_endpoints f))))%nat.
Proof. unfold put_interface. rewrite !length_app. cbn. lia. Qed.

Section reading.
Context {W : Type} `{UsbFs W} (callback : ifc_info -> bool).

Lemma scan_interfaces_put wr serial d fs : forall p q shown, Forall interface_ok fs ->
  scan_interfaces callback (length fs) (p ++ concat (map put_interface fs) ++ q) (length p)
    (Z.of_nat (length (concat (map put_interface fs)) + length q))
    (fun c s k bi bo => mk_ifc_info (mk_ifc (d_vendor d) c s k wr serial) (d_product d) (d_class d) (d_subclass d) (d_protocol d) bi bo) shown =
  Done (shown ++ (taken callback (view_of wr serial d) fs).1, match_of <$> (taken callback (view_of wr serial d) fs).2).
Proof.
  induction fs as [|f fs IH]; intros p q shown Hok.
  { cbn. by rewrite app_nil_r. }
  apply Forall_cons in Hok as [[Hm He] Hok]. cbn [map concat length scan_interfaces taken].
  pose proof (length_put_interface f) as Hl. rewrite length_app, <- app_assoc.
  set (es := concat (map put_endpoint (if_endpoints f))) in *. set (n := 8 + Z.of_nat (length (if_more f))).
  assert (forall k, (k < 8)%nat -> byte_at (p ++ put_interface f ++ concat (map put_interface fs) ++ q) (length p + k) =
    byte_at [n; USB_DT_INTERFACE; if_number f; if_alternate f; Z.of_nat (length (if_endpoints f)); if_class f; if_subclass f; if_protocol f] k) as Hb.
  { intros k Hk. rewrite byte_at_skip. unfold put_interface, byte_at. rewrite <- !app_assoc. by rewrite lookup_app_l by done. }
  pose proof (Hb 0%nat ltac:(lia)) as H0. rewrite Nat.add_0_r in H0.
  rewrite (check_passes _ _ _ _ _ _ H0 (Hb 1%nat ltac:(lia))) by (unfold USB_DT_INTERFACE_SIZE; lia).
  rewrite H0, !Hb by lia. cbn [byte_at lookup list_lookup deref]. cbv [mbind outcome_bind]; cbv beta iota. rewrite Nat2Z.id.
  pose proof (scan_endpoints_put (if_endpoints f) (p ++ [n; USB_DT_INTERFACE; if_number f; if_alternate f;
    Z.of_nat (length (if_endpoints f)); if_class f; if_subclass f; if_protocol f] ++ if_more f)
    (concat (map put_interface fs) ++ q) (-1) (-1) He) as Es. fold es in Es.
  rewrite !length_app, <- !app_assoc in Es. cbn [length] in Es.
  match goal with |- context [scan_endpoints ?k ?m ?i ?len ?a ?b] =>
    replace i with (length p + (8 + length (if_more f)))%nat by lia;
    replace len with (Z.of_nat (length es + (length (concat (map put_interface fs)) + length q))) by lia end.
  unfold put_interface at 1. rewrite <- !app_assoc. fold es n. rewrite Es.
  cbn [dev_product]. fold (view_of wr serial d f). destruct (callback (view_of wr serial d f)); [done|].
  specialize (IH (p ++ put_interface f) q (shown ++ [view_of wr serial d f]) Hok).
  rewrite length_app, <- app_assoc, Hl in IH.
  match goal with |- scan_interfaces _ _ _ ?i ?z _ _ = _ =>
    replace i with (length p + (8 + length (if_more f) + length es))%nat by lia;
    replace z with (Z.of_nat (length (concat (map put_interface fs)) + length q)) by lia end.
  rewrite IH. destruct (taken _ _ fs) as [l r]. cbn [fst snd]. by rewrite <- app_assoc.
Qed.

(** The serial number of the standard's string descriptor, and what asking for it does. *)
Definition asked_serial (w : W) (fd : Z) (d : device) : bytes * W :=
  if d_serial d =? 0 then ([], w)
  else let '(r, w) := u_string w fd (d_serial d) 0x0409 in
       (match r with Some text => until_nul (serial_of (take 256 text)) | None => [] end, w).

Lemma short_at_split d i v : byte_at d i = Done (v mod 256) -> byte_at d (i + 1) = Done (v / 256) -> short_at d i = Done v.
Proof.
  intros E1 E2. unfold short_at. rewrite E1, E2. cbv [mbind outcome_bind]; cbv beta iota. f_equal.
  pose proof (Z.div_mod v 256). lia.
Qed.

(** C36 (roundtrip). Any device's descriptors are read as what they say: the callback sees the
    interfaces in their order with the device's fields, until it takes one; that one's
    number and its last bulk endpoints are the result. *)
Theorem filter_reads_descriptors w fd d wr : device_ok d ->
  filter_usb_device callback w fd (put_device d) (Z.of_nat (length (put_device d))) wr =
  let '(serial, w) := asked_serial w fd d in
  let '(shown, f) := taken callback (view_of wr serial d) (d_interfaces d) in
  Done (shown, match_of <$> f, w).
Proof.
  intros (Hd & Hc & Hi). unfold put_device, filter_usb_device, asked_serial.
  set (h1 := [17 + Z.of_nat (length (d_more d)); USB_DT_DEVICE; (d_usb d).1; (d_usb d).2; d_class d; d_subclass d; d_protocol d;
    d_packet d; d_vendor d mod 256; d_vendor d / 256; d_product d mod 256; d_product d / 256;
    (d_release d).1; (d_release d).2; (d_names d).1; (d_names d).2; d_serial d]).
  set (h2 := [5 + Z.of_nat (length (c_more d)); USB_DT_CONFIG; (c_total d).1; (c_total d).2; Z.of_nat (length (d_interfaces d))]).
  set (ifs := concat (map put_interface (d_interfaces d))).
  set (all := (h1 ++ d_more d) ++ (h2 ++ c_more d) ++ ifs ++ d_rest d).
  assert (length all = (17 + length (d_more d)) + ((5 + length (c_more d)) + (length ifs + length (d_rest d))))%nat as Hl
    by (unfold all; rewrite !length_app; done).
  assert (forall k, (k < 17)%nat -> byte_at all k = byte_at h1 k) as H1.
  { intros k Hk. unfold all, byte_at. rewrite <- !app_assoc. by rewrite lookup_app_l by done. }
  assert (forall k, (k < 5)%nat -> byte_at all (Z.to_nat (17 + Z.of_nat (length (d_more d))) + k) = byte_at h2 k) as H2.
  { intros k Hk. replace (Z.to_nat (17 + Z.of_nat (length (d_more d))))%nat with (length (h1 ++ d_more d)) by (rewrite length_app; cbn; lia).
    unfold all. rewrite byte_at_skip. unfold byte_at. rewrite <- !app_assoc. by rewrite lookup_app_l by done. }
  pose proof (H2 0%nat ltac:(lia)) as H20. rewrite Nat.add_0_r in H20.
  rewrite (check_passes _ _ _ _ _ _ (H1 0%nat ltac:(lia)) (H1 1%nat ltac:(lia))) by (unfold USB_DT_DEVICE_SIZE; lia).
  rewrite (short_at_split _ 8 (d_vendor d)) by (rewrite H1 by lia; done).
  rewrite (short_at_split _ 10 (d_product d)) by (rewrite H1 by lia; done).
  rewrite !H1 by lia. cbn [byte_at h1 lookup list_lookup deref]. cbv [mbind outcome_bind]; cbv beta iota.
  rewrite (check_passes _ _ _ _ _ _ H20 (H2 1%nat ltac:(lia))) by (unfold USB_DT_CONFIG_SIZE; lia).
  rewrite H20, !H2 by lia. cbn [byte_at h2 lookup list_lookup deref]. cbv [mbind outcome_bind]; cbv beta iota.
  destruct (if d_serial d =? 0 then _ else _) as [serial w']. rewrite Nat2Z.id.
  pose proof (scan_interfaces_put wr serial d (d_interfaces d) ((h1 ++ d_more d) ++ h2 ++ c_more d) (d_rest d) [] Hi) as Hs.
  rewrite <- !app_assoc in Hs. fold ifs in Hs. unfold all. rewrite <- !app_assoc.
  rewrite !length_app in *. cbn [length] in *.
  match goal with |- context [scan_interfaces _ _ _ ?i ?z _ _] =>
    replace i with (length h1 + (length (d_more d) + (length h2 + length (c_more d))))%nat by (cbn [length h1 h2]; lia);
    replace z with (Z.of_nat (length ifs + length (d_rest d))) by (cbn [length h1 h2]; lia) end.
  rewrite Hs. by destruct (taken _ _ _) as [l r].
Qed.
End reading.

(** ** Opening a device *)

Section opening.
Context {W : Type} `{UsbFsLaws W} (callback : ifc_info -> bool).

(** What a search leaves: the descriptor of the device found and no other, and
    nothing was found unless the callback took what it saw last. *)
Definition search_ok (w : W) (r : list ifc_info * option usb_handle * W) : Prop :=
  let '(shown, h, w') := r in
  match h with
  | Some h => (desc h ∉ u_fds w) /\ u_fds w' = {[ desc h ]} ∪ u_fds w /\ 0 <= desc h /\
      exists before i, shown = before ++ [i] /\ callback i = true
  | None => u_fds w' = u_fds w
  end.

(** Past a step that is known to have worked; the case of a test. *)
Ltac skip_bind E := apply bind_Done in E as (? & _ & E).
Ltac split_if E := match type of E with (if ?b then _ else _) = _ => destruct b end.

Lemma scan_interfaces_last k d dev : forall i len shown shown' m,
  scan_interfaces callback k d i len dev shown = Done (shown', Some m) ->
  exists before x, shown' = before ++ [x] /\ callback x = true.
Proof.
  induction k as [|k IH]; intros i len shown shown' m E; cbn [scan_interfaces] in E; [done|].
  do 2 (skip_bind E; try (split_if E; [done|])). do 6 skip_bind E.
  match type of E with context [match ?r with Some _ => _ | None => _ end] => destruct r as [[[[i' len'] inp] out]|]; [|done] end.
  destruct (callback _) eqn:Ec; [injection E as <- _; eauto|]. by eapply IH.
Qed.

Lemma filter_fds w fd d len wr shown m w' :
  filter_usb_device callback w fd d len wr = Done (shown, m, w') ->
  u_fds w' = u_fds w /\ (is_Some m -> exists before i, shown = before ++ [i] /\ callback i = true).
Proof.
  unfold filter_usb_device. intros E.
  skip_bind E. split_if E; [injection E as <- <- <-; by split; [|intros [? ?]]|].
  do 2 skip_bind E. split_if E; [injection E as <- <- <-; by split; [|intros [? ?]]|].
  do 6 skip_bind E. apply bind_Done in E as (index & _ & E).
  destruct (if index =? 0 then _ else _) as [serial w1] eqn:Es.
  skip_bind E. apply bind_Done in E as ([s m'] & Ei & E). injection E as <- <- <-. split.
  - destruct (index =? 0); [by injection Es as _ <-|]. pose proof (u_string_fds w fd index 0x0409) as Hf.
    destruct (u_string _ _ _ _) as [t w2]. by injection Es as _ <-.
  - intros [y ->]. by eapply scan_interfaces_last.
Qed.

Lemma find_device_ok w devname : exists r, find_device callback w devname = Done r /\ search_ok w r.
Proof.
  unfold find_device, open_either.
  pose proof (u_open_fds w devname true) as H1. destruct (u_open w devname true) as [fd1 w1].
  assert (exists fd wr w2, (if fd1 <? 0 then let '(fd, w) := u_open w1 devname false in (fd, false, w) else (fd1, true, w1)) = (fd, wr, w2) /\
    (if fd <? 0 then u_fds w2 = u_fds w else (fd ∉ u_fds w) /\ u_fds w2 = {[ fd ]} ∪ u_fds w)) as (fd & wr & w2 & -> & Hw2).
  { destruct (fd1 <? 0) eqn:E1; [|by exists fd1, true, w1; rewrite E1].
    pose proof (u_open_fds w1 devname false) as H2. destruct (u_open w1 devname false) as [fd2 w2]. exists fd2, false, w2. by rewrite H1 in H2. }
  destruct (Z.ltb_spec fd 0); [by eexists|]. destruct Hw2 as [Hn Hw2].
  pose proof (u_read_fds w2 fd 1024) as Hr. destruct (u_read w2 fd 1024) as [r w3]. cbn [snd] in Hr.
  destruct (match r with Some d => _ | None => _ end) as [d n] eqn:Ed.
  assert (n <= Z.of_nat (length d)) as Hlen by (destruct r; injection Ed as <- <-; cbn; lia).
  destruct (filter_safe callback w3 fd d n wr Hlen) as [[[shown m] w4] Ef]. rewrite Ef. cbv [mbind outcome_bind]; cbv beta iota.
  apply filter_fds in Ef as [Hf Hm].
  assert (forall w5, u_fds w5 = u_fds w4 -> u_fds (u_close w5 fd) = u_fds w) as Hc.
  { intros w5 E5. rewrite u_close_fds, E5, Hf, Hr, Hw2. set_solver. }
  destruct m as [m|]; [|eexists; split; [done|]; by apply Hc].
  pose proof (u_claim_fds w4 fd (m_ifc m)) as Hk. destruct (u_claim _ _ _) as [k w5]. cbn [snd] in Hk.
  destruct (k =? 0); cbn [negb]; (eexists; split; [done|]); [|by apply Hc].
  cbn. split_and!; [done|by rewrite Hk, Hf, Hr|done|by apply Hm].
Qed.

(** Searching on after nothing was found. *)
Lemma search_ok_app w w1 s1 s2 h w2 :
  search_ok w (s1, None, w1) -> search_ok w1 (s2, h, w2) -> search_ok w (s1 ++ s2, h, w2).
Proof.
  cbn. intros E1. rewrite E1. destruct h; [|done]. intros (? & ? & ? & before & i & -> & ?). split_and!; try done.
  exists (s1 ++ before), i. by rewrite app_assoc.
Qed.

Lemma find_in_bus_ok busname names : (length busname <= 37)%nat -> Forall (fun n => length n <= 24)%nat names ->
  forall w, exists r, find_in_bus callback w busname names = Done r /\ search_ok w r.
Proof.
  intros Hb. induction 1 as [|name names Hn _ IH]; intros w; cbn [find_in_bus]; [by eexists|].
  destruct (badname name); [apply IH|]. unfold file_name. rewrite !length_app.
  destruct (Nat.ltb_spec (length busname + (length (bs "/") + length name)) 64); [|cbn in *; lia].
  cbv [mbind outcome_bind]; cbv beta iota.
  destruct (find_device_ok w (busname ++ bs "/" ++ name)) as ([[s h] w1] & -> & Hs).
  destruct h as [h|]; [by eexists|]. destruct (IH w1) as ([[s2 h2] w2] & -> & Hs2).
  eexists. split; [done|]. by eapply search_ok_app.
Qed.

Lemma find_buses_ok base names : (length base <= 12)%nat -> Forall (fun n => length n <= 24)%nat names ->
  (forall w p l, u_dir w p = Some l -> Forall (fun n => length n <= 24)%nat l) ->
  forall w, exists r, find_buses callback w base names = Done r /\ search_ok w r.
Proof.
  intros Hb Hnames Hdir. induction Hnames as [|name names Hn _ IH]; intros w; cbn [find_buses]; [by eexists|].
  destruct (badname name); [apply IH|]. unfold file_name. rewrite !length_app.
  destruct (Nat.ltb_spec (length base + (length (bs "/") + length name)) 64); [|cbn in *; lia].
  cbv [mbind outcome_bind]; cbv beta iota. destruct (u_dir w _) as [files|] eqn:Ed; [|apply IH].
  destruct (find_in_bus_ok (base ++ bs "/" ++ name) files ltac:(rewrite !length_app; cbn; lia) (Hdir _ _ _ Ed) w) as ([[s h] w1] & -> & Hs).
  destruct h as [h|]; [by eexists|]. destruct (IH w1) as ([[s2 h2] w2] & -> & Hs2).
  eexists. split; [done|]. by eapply search_ok_app.
Qed.

(** C37 (safety). Whatever is on the bus and whichever calls fail, looking for a device ends without
    an access behind a buffer (the names of the bus being short), leaves open at most
    the descriptor of the device it returns, and returns one only when the callback
    took the interface it was shown last. *)
Theorem usb_open_sound w : (forall w p l, u_dir w p = Some l -> Forall (fun n => length n <= 24)%nat l) ->
  exists shown h w', usb_open callback w = Done (shown, h, w') /\
    match h with
    | Some h => (desc h ∉ u_fds w) /\ u_fds w' = {[ desc h ]} ∪ u_fds w /\
        u_fds (usb_close w' h).2 = u_fds w /\
        exists before i, shown = before ++ [i] /\ callback i = true
    | None => u_fds w' = u_fds w
    end.
Proof.
  intros Hdir. unfold usb_open, find_usb_device. destruct (u_dir w _) as [names|] eqn:Ed; [|by eexists _, _, _].
  destruct (find_buses_ok (bs "/dev/bus/usb") names ltac:(done) (Hdir _ _ _ Ed) Hdir w) as ([[s h] w'] & -> & Hs).
  exists s, h, w'. split; [done|]. destruct h as [h|]; [|done]. destruct Hs as (Hn & Hw & Hpos & Ht).
  split_and!; [done..| |done]. unfold usb_close. destruct (Z.leb_spec 0 (desc h)); [|lia]. cbn [snd].
  rewrite u_close_fds, Hw. set_solver.
Qed.
End opening.

(** ** Transfers *)

Section transfers.
Implicit Types h : usb_handle.

(** The pieces of a transfer. *)
Fixpoint pieces (fuel : nat) (data : bytes) : list bytes :=
  match fuel, data with
  | S fuel, _ :: _ => take xfer_max data :: pieces fuel (drop xfer_max data)
  | _, _ => []
  end.
Definition pieces_of (data : bytes) : list bytes := pieces (length data) data.

Lemma pieces_fuel n m : forall data, (length data <= n)%nat -> (length data <= m)%nat -> pieces n data = pieces m data.
Proof.
  pose proof xfer_max_val as Hx.
  revert m. induction n as [|n IH]; intros m [|b data] Hn Hm; cbn in Hn; try lia; [by destruct m..|].
  destruct m as [|m]; cbn in Hm; [lia|]. cbn [pieces]. f_equal. apply IH; rewrite length_drop; cbn; lia.
Qed.
Lemma pieces_cons data : data <> [] -> pieces_of data = take xfer_max data :: pieces_of (drop xfer_max data).
Proof.
  pose proof xfer_max_val as Hx.
  intros Hd. unfold pieces_of. destruct data as [|b data]; [done|]. cbn [length pieces]. f_equal.
  apply pieces_fuel; rewrite length_drop; cbn; lia.
Qed.
Lemma concat_pieces data : concat (pieces_of data) = data.
Proof.
  pose proof xfer_max_val as Hx.
  induction data as [data IH] using (induction_ltof1 _ (@length Z)). unfold ltof in IH.
  destruct (decide (data = [])) as [->|Hd]; [done|]. rewrite pieces_cons by done. cbn [concat].
  rewrite IH, take_drop; [done|]. rewrite length_drop. destruct data; [done|]. cbn. lia.
Qed.
Lemma Forall_pieces data : Forall (fun x => 0 < Z.of_nat (length x) <= 4096) (pieces_of data).
Proof.
  pose proof xfer_max_val as Hx.
  induction data as [data IH] using (induction_ltof1 _ (@length Z)). unfold ltof in IH.
  destruct (decide (data = [])) as [->|Hd]; [constructor|]. rewrite pieces_cons by done. constructor.
  - rewrite length_take. destruct data; [done|]. cbn [length]. lia.
  - apply IH. rewrite length_drop. destruct data; [done|]. cbn. lia.
Qed.

Lemma write_loop_pieces data : forall results count sent,
  (count + Z.of_nat (length data) < 2 ^ 31) -> 0 <= count ->
  let sizes := (fun x => Z.of_nat (length x)) <$> pieces_of data in
  match write_loop results data count sent with
  | None => results `prefix_of` sizes
  | Some (n, out, rest) =>
      (n = count + Z.of_nat (length data) /\ results = sizes ++ rest /\ out = sent ++ pieces_of data) \/
      (n = -1 /\ ~ sizes `prefix_of` results /\ exists done_, out = sent ++ done_ /\ done_ `prefix_of` pieces_of data)
  end.
Proof.
  pose proof xfer_max_val as Hx.
  induction data as [data IH] using (induction_ltof1 _ (@length Z)). unfold ltof in IH.
  intros results count sent Hlen Hcount. destruct (decide (data = [])) as [->|Hd].
  { replace (write_loop results [] count sent) with (Some (i32 count, sent, results)) by (by destruct results).
    cbn in *. left. rewrite app_nil_r, i32_small by lia. split; [lia|done]. }
  rewrite pieces_cons by done. destruct data as [|b data]; [done|]. set (d := b :: data) in *.
  rewrite fmap_cons. destruct results as [|n results]; [apply prefix_nil|]. cbn [write_loop].
  assert (Z.of_nat (length (take xfer_max d)) + Z.of_nat (length (drop xfer_max d)) = Z.of_nat (length d)) as Hsum
    by (rewrite length_take, length_drop; lia).
  destruct (Z.eqb_spec n (Z.of_nat (length (take xfer_max d)))) as [->|Hn]; cbn [negb].
  2: { right. split_and!; [done|intros E%prefix_cons_inv_1; congruence|]. exists [take xfer_max d]. split; [done|]. apply prefix_cons, prefix_nil. }
  specialize (IH (drop xfer_max d) ltac:(rewrite length_drop; cbn; lia) results (count + Z.of_nat (length (take xfer_max d))) (sent ++ [take xfer_max d])).
  rewrite u32_small by lia. specialize (IH ltac:(lia) ltac:(lia)). cbn zeta in IH.
  destruct (write_loop _ _ _ _) as [[[n out] rest]|]; [|by apply prefix_cons].
  destruct IH as [(-> & -> & ->)|(-> & Hnot & done_ & -> & Hp)].
  - left. rewrite <- app_assoc. split; [lia|done].
  - right. split_and!; [done|by intros ?%prefix_cons_inv_2|]. exists (take xfer_max d :: done_). rewrite <- app_assoc. split; [done|]. by apply prefix_cons.
Qed.

(** usb_write: the data go out in order, in pieces of at most 4096 bytes; the length is
    returned exactly when every piece was taken whole, and nothing is sent after the
    first that was not. *)
Lemma usb_write_spec h data results : ep_out h <> 0 -> data <> [] -> Z.of_nat (length data) < 2 ^ 31 ->
  let sizes := (fun x => Z.of_nat (length x)) <$> pieces_of data in
  match usb_write h data results with
  | None => results `prefix_of` sizes
  | Some (n, out, rest) =>
      (n = Z.of_nat (length data) /\ results = sizes ++ rest /\ concat out = data) \/
      (n = -1 /\ ~ sizes `prefix_of` results /\ concat out `prefix_of` data)
  end.
Proof.
  intros He Hd Hlen sizes. unfold usb_write. destruct (Z.eqb_spec (ep_out h) 0); [done|].
  pose proof (write_loop_pieces data results 0 [] ltac:(lia) ltac:(lia)) as Hw. fold sizes in Hw. cbn zeta in Hw.
  destruct data as [|b data]; [done|]. destruct (write_loop _ _ _ _) as [[[k0 out] rest]|]; [|done].
  destruct Hw as [(-> & -> & ->)|(-> & Hnot & done_ & -> & k & Hk)]; [left|right]; cbn [app].
  - by rewrite concat_pieces.
  - split_and!; [done..|]. exists (concat k). by rewrite <- (concat_pieces (b :: data)), Hk, concat_app.
Qed.

(** The replies that Fastboot's link is made of: reads of 64 bytes, each tried again
    up to five times. *)
Fixpoint replies_of (results : list (option bytes)) (failed : Z) : list (option bytes) :=
  match results with
  | [] => []
  | None :: results => if failed + 1 >? MAX_RETRIES then None :: replies_of results 0 else replies_of results (failed + 1)
  | Some d :: results => Some (take 64 d) :: replies_of results 0
  end.

Lemma read_status results : forall failed,
  match read_loop results failed 64 0 [] with
  | None => replies_of results failed = []
  | Some (n, d, rest) =>
      exists r, replies_of results failed = r :: replies_of rest 0 /\
      match r with Some t => n = Z.of_nat (length t) /\ d = t | None => n = -1 end
  end.
Proof.
  induction results as [|[d|] results IH]; intros failed; cbn [read_loop replies_of]; [done| |].
  - replace (Nat.min 64 xfer_max) with 64%nat by (pose proof xfer_max_val; lia). cbn [app]. pose proof (length_take d 64) as Hl.
    assert (i32 (u32 (0 + Z.of_nat (length (take 64 d)))) = Z.of_nat (length (take 64 d))) as Hi
      by (rewrite u32_small, i32_small by lia; lia).
    destruct (Nat.ltb_spec (length (take 64 d)) 64).
    + eexists. split; [done|]. by rewrite Hi.
    + replace (64 - length (take 64 d))%nat with 0%nat by lia. destruct results; cbn [read_loop];
        (eexists; split; [done|]; by rewrite Hi).
  - destruct (failed + 1 >? MAX_RETRIES); [|apply IH]. by eexists.
Qed.

(** usb_read of a status is the fresh_fd reply of the link. *)
Lemma usb_read_reply h results : ep_in h <> 0 ->
  match usb_read h 64 results with
  | None => replies_of results 0 = []
  | Some (n, d, rest) =>
      exists r, replies_of results 0 = r :: replies_of rest 0 /\
      match r with Some t => n = Z.of_nat (length t) /\ d = t | None => n = -1 end
  end.
Proof.
  intros He. unfold usb_read. destruct (Z.eqb_spec (ep_in h) 0); [done|]. apply read_status.
Qed.
End transfers.

(** ** A bus with one phone *)

(** The state is the list of open descriptors; the file of the phone can be opened and
    claimed. *)
Module Demo.
Definition phone : device :=
  mk_dev (0, 2) 0 0 0 64 0x18d1 0x0c02 (0, 1) (1, 2) 3 [1] (0, 0) [1; 0; 128; 250]
    [mk_if 0 0 255 66 1 [0] [mk_ep 0x81 2 [0; 2; 0]; mk_ep 1 2 [0; 2; 0]];
     mk_if 1 0 255 66 3 [0] [mk_ep 0x83 3 [8; 0; 4]; mk_ep 0x82 2 [0; 2; 0]; mk_ep 2 2 [0; 2; 0]]] [9; 9].

Definition fresh_fd (w : list Z) : Z := 1 + foldr Z.max 0 w.
#[export] Instance bus : UsbFs (list Z) := {
  u_dir w p :=
    if bool_decide (p = bs "/dev/bus/usb") then Some [bs "."; bs ".."; bs "001"]
    else if bool_decide (p = bs "/dev/bus/usb/001") then Some [bs "."; bs ".."; bs "001"; bs "002"] else None;
  u_open w p rw := if bool_decide (p = bs "/dev/bus/usb/002/001") then (-1, w) else (fresh_fd w, fresh_fd w :: w);
  u_read w fd n := (if fd =? 1 then Some (put_device phone) else None, w);
  u_string w fd i l := (Some ([8; 3] ++ [84; 0; 49; 0; 97; 0]), w);
  u_claim w fd i := (0, w);
  u_close w fd := filter (fun x => x <> fd) w
}.

Lemma fresh_fd_new w : fresh_fd w ∉ w.
Proof.
  assert (forall x, x ∈ w -> x <= foldr Z.max 0 w) as Hm.
  { induction w as [|y w IH]; [by intros x ?%elem_of_nil|]. intros x [->|Hx]%elem_of_cons; cbn; [lia|]. specialize (IH x Hx). lia. }
  intros Hn. specialize (Hm _ Hn). unfold fresh_fd in Hm. lia.
Qed.
#[export] Instance bus_laws : UsbFsLaws (list Z).
Proof.
  refine {| u_fds := (list_to_set : list Z -> gset Z) |}.
  - intros w p rw. cbn. case_bool_decide; [done|]. unfold fresh_fd. destruct (Z.ltb_spec (1 + foldr Z.max 0 w) 0) as [Hlt|Hlt].
    + exfalso. clear -Hlt. assert (0 <= foldr Z.max 0 w) by (clear; induction w; cbn; lia). lia.
    + split; [|done]. rewrite elem_of_list_to_set. apply fresh_fd_new.
  - done.
  - done.
  - done.
  - intros w fd. cbn. apply set_eq. intros x. rewrite elem_of_difference, !elem_of_list_to_set, list_elem_of_filter, elem_of_singleton. tauto.
Defined.

Lemma names_short (w : list Z) p l : u_dir w p = Some l -> Forall (fun n => length n <= 24)%nat l.
Proof. cbn. repeat case_bool_decide; intros E; simplify_eq; repeat constructor; cbn; lia. Qed.

(** The second interface is taken, with its bulk endpoints and the serial number. *)
Lemma phone_found : usb_open (fun i => match_fastboot 0 None (seen i)) [] =
  Done (view_of true (bs "T1a") phone <$> d_interfaces phone, Some (mk_usb_handle (bs "/dev/bus/usb/001/001") 1 0x82 2), [1]).
Proof. by vm_compute. Qed.
End Demo.
Import Demo.

Lemma usb_open_sound_witness :
  exists shown h w', usb_open (fun i => match_fastboot 0 None (seen i)) (W := list Z) [] = Done (shown, h, w') /\
    match h with
    | Some h => (desc h ∉ (u_fds [] : gset Z)) /\ u_fds w' = {[ desc h ]} ∪ (u_fds [] : gset Z) /\
        u_fds (usb_close w' h).2 = (u_fds [] : gset Z) /\
        exists before i, shown = before ++ [i] /\ match_fastboot 0 None (seen i) = true
    | None => u_fds w' = (u_fds [] : gset Z)
    end.
Proof. apply (usb_open_sound (fun i => match_fastboot 0 None (seen i)) []). apply names_short. Defined.

(** An interface without a bulk endpoint is not refused by match_fastboot, and the
    missing endpoint becomes 255, which the tests of usb_read and usb_write for 0 do not
    see. *)
Lemma missing_endpoint_is_255 :
  let d := mk_dev (0, 2) 0 0 0 64 0x18d1 0x0c02 (0, 1) (1, 2) 0 [1] (0, 0) [1; 0; 128; 250] [mk_if 0 0 255 66 3 [0] [mk_ep 1 2 [0; 2; 0]]] [] in
  exists i m, filter_usb_device (fun i => match_fastboot 0 None (seen i)) (W := list Z) [] 1 (put_device d) (Z.of_nat (length (put_device d))) true = Done ([i], Some m, []) /\
    has_bulk_in i = false /\
    usb_read (mk_usb_handle [] 1 (u8 (m_in m)) (u8 (m_out m))) 64 [Some (bs "OKAY")] = Some (4, bs "OKAY", []).
Proof. eexists _, _. split; [by vm_compute|]. split; by vm_compute. Qed.

(** A transfer of 5000 bytes, and reads that fail and are tried again. *)
Example write_demo : usb_write (mk_usb_handle [] 1 0x82 2) (replicate 5000 7) [4096; 904; 3] = Some (5000, [replicate 4096 7; replicate 904 7], [3]).
Proof. by vm_compute. Qed.
Example read_demo : replies_of [None; None; Some (bs "OKAY"); None; None; None; None; None; None] 0 = [Some (bs "OKAY"); None].
Proof. by vm_compute. Qed.

Lemma filter_reads_descriptors_witness :
  device_ok phone /\
  filter_usb_device (fun i => ifc_protocol (seen i) =? 3) (W := list Z) [1] 1 (put_device phone) (Z.of_nat (length (put_device phone))) true =
  Done (view_of true (bs "T1a") phone <$> d_interfaces phone, Some (mk_match 0x82 2 1), [1]).
Proof.
  assert (device_ok phone) as Hok by (split_and!; [cbn; lia|cbn; lia|repeat constructor; cbn; lia]).
  split; [exact Hok|]. rewrite (filter_reads_descriptors (fun i => ifc_protocol (seen i) =? 3) [1] 1 phone true Hok).
  vm_compute. reflexivity.
Defined.
