(* ===== verification/FileSync.v ===== *)
(** * The file sync protocol (tools/adb/file_sync_service.c, file_sync_client.c)

    [Wire] is the connection and the messages, [FileSystem] the interface to the
    operating system's files, [Service] the loop that runs on the device, [Client]
    the push and pull routines of the host.  The theorems put the two ends
    together over any file system that keeps the documented laws of open, write
    and close. *)

From S2P Require Import Prelude Io.

Module Wire.

(** One end of a connection as readx and writex see it: the bytes that will
    arrive, whether the stream then ends (it blocks otherwise), the bytes sent, how
    many more can be sent before writes fail ([None]: any number), and whether the
    descriptor was closed. *)
Record conn := mk_conn {
  inp : bytes; eof : bool; outp : bytes; room : option nat; closed : bool
}.
Definition fresh (i : bytes) : conn := mk_conn i true [] None false.

(** readx: [None] is -1; the bytes that came before the end are lost then. *)
Definition readx (c : conn) (len : Z) : outcome (option bytes * conn) :=
  if len <=? Z.of_nat (length (inp c)) then
    Done (Some (take (Z.to_nat len) (inp c)),
          mk_conn (drop (Z.to_nat len) (inp c)) (eof c) (outp c) (room c) (closed c))
  else if eof c then Done (None, mk_conn [] true (outp c) (room c) (closed c))
  else Stop "read waits".

(** The same into a buffer of [cap] bytes: what arrives beyond it overwrites
    other memory. *)
Definition read_buf (cap : Z) (c : conn) (len : Z) : outcome (option bytes * conn) :=
  if cap <? Z.min len (Z.of_nat (length (inp c))) then Undef "buffer overrun" else readx c len.

(** writex: [true] is 0. *)
Definition writex (c : conn) (p : bytes) : bool * conn :=
  match room c with
  | None => (true, mk_conn (inp c) (eof c) (outp c ++ p) None (closed c))
  | Some k =>
      if decide (length p <= k)%nat then
        (true, mk_conn (inp c) (eof c) (outp c ++ p) (Some (k - length p)%nat) (closed c))
      else (false, mk_conn (inp c) (eof c) (outp c ++ take k p) (Some 0%nat) (closed c))
  end.

Definition adb_close (c : conn) : conn := mk_conn (inp c) (eof c) (outp c) (room c) true.

(** [if(writex(a) || writex(b))] *)
Definition writex2 (c : conn) (a b : bytes) : bool * conn :=
  let '(ok, c) := writex c a in if ok then writex c b else (false, c).

Definition MKID (s : string) : Z := le_combine (bs s).
Definition ID_STAT := MKID "STAT".
Definition ID_LIST := MKID "LIST".
Definition ID_SEND := MKID "SEND".
Definition ID_RECV := MKID "RECV".
Definition ID_DENT := MKID "DENT".
Definition ID_DONE := MKID "DONE".
Definition ID_DATA := MKID "DATA".
Definition ID_OKAY := MKID "OKAY".
Definition ID_FAIL := MKID "FAIL".
Definition ID_QUIT := MKID "QUIT".

Definition SYNC_DATA_MAX : Z := 64 * 1024.

(** The syncmsg union: words in the order of the structs (little-endian). *)
Definition word (w : Z) : bytes := le_split 4 w.
Definition msg2 (id size : Z) : bytes := word id ++ word size.
Definition msg_stat (mode size time : Z) : bytes := word ID_STAT ++ word mode ++ word size ++ word time.
Definition msg_dent (id mode size time namelen : Z) : bytes :=
  word id ++ word mode ++ word size ++ word time ++ word namelen.
(** The [i]-th word of a message that was read. *)
Definition get (i : nat) (m : bytes) : Z := le_combine (take 4 (drop (4 * i) m)).

(** The C string in a buffer after a zero was put behind its bytes. *)
Definition fail_message (c : conn) (reason : bytes) : bool * conn :=
  writex2 c (msg2 ID_FAIL (Z.of_nat (length reason))) reason.

End Wire.

(** ** The operating system's files *)

(** The calls the code makes.  A descriptor is a number; [fs_open_read] gives the
    results the reads of the new descriptor will have and [fs_seek_end] what
    lseek to its end returns ([None]: it fails); a failed [fs_writex] may
    have written a part. *)
Class FileSystem (F : Type) := {
  fs_umask : Z;
  fs_open_excl : F -> bytes -> Z -> (Z + errno) * F;
  fs_open_write : F -> bytes -> (Z + errno) * F;
  fs_creat : F -> bytes -> Z -> (Z + errno) * F;
  fs_writex : F -> Z -> bytes -> option errno * F;
  fs_close : F -> Z -> F;
  fs_unlink : F -> bytes -> F;
  fs_mkdir : F -> bytes -> Z -> option errno * F;
  fs_symlink : F -> bytes -> bytes -> option errno * F;
  fs_utime : F -> bytes -> Z -> F;
  fs_lstat : F -> bytes -> option (Z * Z * Z);
  fs_readdir : F -> bytes -> option (list bytes);
  fs_open_read : F -> bytes -> list Io.rd + errno;
  fs_seek_end : F -> bytes -> option Z;
  fs_readlink : F -> bytes -> bytes + errno;
  fs_strerror : errno -> bytes
}.

(** What the code relies on.  [fs_writing f fd p perm d n]: the descriptor is open
    for writing at offset [n] of the regular file [p] of permissions [perm] and
    contents [d]; [fs_regular f p perm d]: [p] is such a file. *)
Class FileSystemLaws (F : Type) `{FileSystem F} := {
  fs_writing : F -> Z -> bytes -> Z -> bytes -> nat -> Prop;
  fs_regular : F -> bytes -> Z -> bytes -> Prop;
  open_excl_new f p m fd f' :
    fs_open_excl f p m = (inl fd, f') -> fs_writing f' fd p (Z.ldiff m fs_umask) [] 0;
  open_write_old f p fd f' :
    fs_open_write f p = (inl fd, f') -> exists perm old, fs_writing f' fd p perm old 0;
  creat_empty f p m fd f' :
    fs_creat f p m = (inl fd, f') -> exists perm, fs_writing f' fd p perm [] 0;
  writex_at f fd p perm d n b f' :
    fs_writing f fd p perm d n -> fs_writex f fd b = (None, f') ->
    fs_writing f' fd p perm (take n d ++ b ++ drop (n + length b) d) (n + length b);
  close_keeps f fd p perm d n : fs_writing f fd p perm d n -> fs_regular (fs_close f fd) p perm d;
  utime_keeps f p perm d t : fs_regular f p perm d -> fs_regular (fs_utime f p t) p perm d;
  strerror_short e : (length (fs_strerror e) <= 256)%nat
}.

Module Service.
Import Wire.

Section service.
Context {F : Type} `{FileSystem F}.

Definition fail_errno (c : conn) (e : errno) : bool * conn := fail_message c (fs_strerror e).

(** mkdirs after the first character: a mkdir (0775) for every prefix that ends
    before a '/' (47), until one fails. *)
Fixpoint mkdirs_from (f : F) (pre rest : bytes) : bool * F :=
  match rest with
  | [] => (true, f)
  | ch :: rest =>
      if ch =? 47 then
        match fs_mkdir f pre 0x1FD with
        | (Some e, f') => if decide (e = EEXIST) then mkdirs_from f' (pre ++ [ch]) rest else (false, f')
        | (None, f') => mkdirs_from f' (pre ++ [ch]) rest
        end
      else mkdirs_from f (pre ++ [ch]) rest
  end.
Definition mkdirs (f : F) (name : bytes) : bool * F :=
  match name with
  | ch :: rest => if ch =? 47 then mkdirs_from f [ch] rest else (false, f)
  | [] => (false, f)
  end.

Definition do_stat (f : F) (c : conn) (path : bytes) : bool * conn :=
  writex c (match fs_lstat f path with
            | None => msg_stat 0 0 0
            | Some (mode, size, time) => msg_stat mode size time
            end).

(** The loop over the directory; [tmp] has 1024 + 256 + 1 bytes. *)
Fixpoint list_entries (f : F) (c : conn) (path : bytes) (names : list bytes) : outcome (bool * conn) :=
  match names with
  | [] => Done (true, c)
  | name :: names =>
      if 256 <? Z.of_nat (length name) then list_entries f c path names
      else if (1281 <? length path + 1 + length name + 1)%nat then Undef "tmp overrun"
      else match fs_lstat f (path ++ [47] ++ name) with
      | None => list_entries f c path names
      | Some (mode, size, time) =>
          let '(ok, c) := writex2 c (msg_dent ID_DENT mode size time (Z.of_nat (length name))) name in
          if ok then list_entries f c path names else Done (false, c)
      end
  end.

Definition do_list (f : F) (c : conn) (path : bytes) : outcome (bool * conn) :=
  '(ok, c) ← match fs_readdir f path with
             | None => Done (true, c)
             | Some names => list_entries f c path names
             end;
  if negb ok then Done (false, c) else Done (writex c (msg_dent ID_DONE 0 0 0 0)).

(** The three attempts to open the file that is received. *)
Definition open_target (f : F) (path : bytes) (mode : Z) : (Z + errno) * F :=
  let '(r, f) := fs_open_excl f path mode in
  let '(r, f) :=
    match r with
    | inr ENOENT => let '(_, f) := mkdirs f path in fs_open_excl f path mode
    | _ => (r, f)
    end in
  match r with
  | inr EEXIST => fs_open_write f path
  | _ => (r, f)
  end.

Definition cleanup (f : F) (fd : option Z) (path : bytes) : F :=
  fs_unlink (match fd with Some fd => fs_close f fd | None => f end) path.

(** The loop over the data messages and what follows it. *)
Fixpoint receive_loop (fuel : nat) (f : F) (c : conn) (path : bytes) (fd : option Z)
    : outcome (bool * F * conn) :=
  match fuel with
  | O => Stop "fuel"
  | S fuel =>
    '(m, c) ← readx c 8;
    match m with
    | None => Done (false, cleanup f fd path, c)
    | Some m =>
      if negb (get 0 m =? ID_DATA) then
        if get 0 m =? ID_DONE then
          match fd with
          | None => Done (true, f, c)
          | Some fd =>
              let f := fs_utime (fs_close f fd) path (get 1 m) in
              let '(ok, c) := writex c (msg2 ID_OKAY 0) in Done (ok, f, c)
          end
        else
          let '(_, c) := fail_message c (bs "invalid data message") in
          Done (false, cleanup f fd path, c)
      else
        let len := get 1 m in
        if SYNC_DATA_MAX <? len then
          let '(_, c) := fail_message c (bs "oversize data message") in
          Done (false, cleanup f fd path, c)
        else
          '(d, c) ← read_buf SYNC_DATA_MAX c len;
          match d with
          | None => Done (false, cleanup f fd path, c)
          | Some d =>
              match fd with
              | None => receive_loop fuel f c path None
              | Some fd =>
                  match fs_writex f fd d with
                  | (None, f) => receive_loop fuel f c path (Some fd)
                  | (Some e, f) =>
                      let f := fs_unlink (fs_close f fd) path in
                      let '(ok, c) := fail_errno c e in
                      if ok then receive_loop fuel f c path None else Done (false, f, c)
                  end
              end
          end
    end
  end.

Definition handle_send_file (f : F) (c : conn) (path : bytes) (mode : Z) : outcome (bool * F * conn) :=
  let '(r, f) := open_target f path mode in
  let fuel := S (length (inp c)) in
  match r with
  | inl fd => receive_loop fuel f c path (Some fd)
  | inr e =>
      let '(ok, c) := fail_errno c e in
      if ok then receive_loop fuel f c path None else Done (false, f, c)
  end.

(** The link target is the C string in the buffer; a message without a zero byte
    leaves it unterminated. *)
Definition handle_send_link (f : F) (c : conn) (path : bytes) : outcome (bool * F * conn) :=
  '(m, c) ← readx c 8;
  match m with
  | None => Done (false, f, c)
  | Some m =>
    if negb (get 0 m =? ID_DATA) then
      let '(_, c) := fail_message c (bs "invalid data message: expected ID_DATA") in Done (false, f, c)
    else
      let len := get 1 m in
      if SYNC_DATA_MAX <? len then
        let '(_, c) := fail_message c (bs "oversize data message") in Done (false, f, c)
      else
        '(d, c) ← read_buf SYNC_DATA_MAX c len;
        match d with
        | None => Done (false, f, c)
        | Some d =>
            target ← deref "unterminated link" (cstring d);
            let '(ret, f) := fs_symlink f target path in
            let '(ret, f) :=
              match ret with
              | Some ENOENT => let '(_, f) := mkdirs f path in fs_symlink f target path
              | _ => (ret, f)
              end in
            match ret with
            | Some e => let '(_, c) := fail_errno c e in Done (false, f, c)
            | None =>
                '(m, c) ← readx c 8;
                match m with
                | None => Done (false, f, c)
                | Some m =>
                    if get 0 m =? ID_DONE then
                      let '(ok, c) := writex c (msg2 ID_OKAY 0) in Done (ok, f, c)
                    else
                      let '(_, c) := fail_message c (bs "invalid data message: expected ID_DONE") in
                      Done (false, f, c)
                end
            end
        end
  end.

End service.

(** [strrchr(path, ch)]: what is before and after the last [ch]. *)
Fixpoint strrchr (ch : Z) (s : bytes) : option (bytes * bytes) :=
  match s with
  | [] => None
  | b :: s =>
      match strrchr ch s with
      | Some (l, r) => Some (b :: l, r)
      | None => if b =? ch then Some ([], s) else None
      end
  end.

(** strtoul with base 0 on the 32-bit device: the value and whether errno was
    set to ERANGE. *)
Definition digit_value (c : Z) : Z :=
  if (48 <=? c) && (c <=? 57) then c - 48
  else if (97 <=? c) && (c <=? 122) then c - 87
  else if (65 <=? c) && (c <=? 90) then c - 55
  else 36.
Fixpoint digits (base : Z) (s : bytes) (acc : Z) : Z :=
  match s with
  | [] => acc
  | c :: s => if digit_value c <? base then digits base s (acc * base + digit_value c) else acc
  end.
Definition strtoul0 (s : bytes) : Z * bool :=
  let '(neg, s) :=
    match skip_space s with
    | 45 :: s' => (true, s')
    | 43 :: s' => (false, s')
    | s' => (false, s')
    end in
  let v :=
    match s with
    | 48 :: 120 :: d :: s' | 48 :: 88 :: d :: s' =>
        if digit_value d <? 16 then digits 16 (d :: s') 0 else 0
    | 48 :: s' => digits 8 s' 0
    | _ => digits 10 s 0
    end in
  if 2 ^ 32 - 1 <? v then (2 ^ 32 - 1, true) else (if neg : bool then u32 (- v) else v, false).

Definition S_ISLNK (mode : Z) : bool := Z.land mode 0xF000 =? 0xA000.
Definition S_ISREG (mode : Z) : bool := Z.land mode 0xF000 =? 0x8000.

(** The user's permission bits copied to group and other. *)
Definition spread (mode : Z) : Z :=
  let mode := Z.lor mode (Z.land (Z.shiftr mode 3) 0x38) in
  Z.lor mode (Z.land (Z.shiftr mode 3) 7).

Section service2.
Context {F : Type} `{FileSystem F}.

(** Modes 0644 and 0777. *)
Definition do_send (f : F) (c : conn) (path : bytes) : outcome (bool * F * conn) :=
  let '(path, mode, is_link) :=
    match strrchr 44 path with
    | None => (path, 0x1A4, false)
    | Some (p, text) =>
        let '(v, erange) := strtoul0 text in
        if erange then (p, 0x1A4, false) else (p, Z.land v 0x1FF, S_ISLNK v)
    end in
  let f := fs_unlink f path in
  if is_link : bool then handle_send_link f c path else handle_send_file f c path (spread mode).

(** The data messages of do_recv, read after read of the file. *)
Fixpoint send_loop (fuel : nat) (s : list Io.rd) (c : conn) : outcome (bool * conn) :=
  match fuel with
  | O => Stop "fuel"
  | S fuel =>
    match Io.adb_read s (Z.to_nat SYNC_DATA_MAX) with
    | None => Stop "read waits"
    | Some (Io.RZero, _) => Done (writex c (msg2 ID_DONE 0))
    | Some (Io.RFail EINTR, s) => send_loop fuel s c
    | Some (Io.RFail e, _) => Done (fail_errno c e)
    | Some (Io.Got d, s) =>
        let '(ok, c) := writex2 c (msg2 ID_DATA (Z.of_nat (length d))) d in
        if ok then send_loop fuel s c else Done (false, c)
    end
  end.

Definition do_recv (f : F) (c : conn) (path : bytes) : outcome (bool * conn) :=
  match fs_open_read f path with
  | inr e => let '(ok, c) := fail_errno c e in Done (ok, c)
  | inl s => send_loop (S (rd_weight s)) s c
  end.

(** One turn of file_sync_service: [true] to go on. *)
Definition request (f : F) (c : conn) : outcome (bool * F * conn) :=
  '(m, c) ← readx c 8;
  match m with
  | None => let '(_, c) := fail_message c (bs "command read failure") in Done (false, f, c)
  | Some m =>
    let namelen := get 1 m in
    if 1024 <? namelen then
      let '(_, c) := fail_message c (bs "invalid namelen") in Done (false, f, c)
    else
      '(name, c) ← read_buf 1025 c namelen;
      match name with
      | None => let '(_, c) := fail_message c (bs "filename read failure") in Done (false, f, c)
      | Some name =>
          let name := until_nul name in
          let id := get 0 m in
          if id =? ID_STAT then let '(ok, c) := do_stat f c name in Done (ok, f, c)
          else if id =? ID_LIST then '(ok, c) ← do_list f c name; Done (ok, f, c)
          else if id =? ID_SEND then do_send f c name
          else if id =? ID_RECV then '(ok, c) ← do_recv f c name; Done (ok, f, c)
          else if id =? ID_QUIT then Done (false, f, c)
          else let '(_, c) := fail_message c (bs "unknown command") in Done (false, f, c)
      end
  end.

Fixpoint service_loop (fuel : nat) (f : F) (c : conn) : outcome (F * conn) :=
  match fuel with
  | O => Stop "fuel"
  | S fuel =>
      '(go, f, c) ← request f c;
      if go : bool then service_loop fuel f c else Done (f, adb_close c)
  end.

(** Every request that goes on has consumed its eight bytes at least. *)
Definition file_sync_service (f : F) (c : conn) : outcome (F * conn) :=
  service_loop (S (length (inp c))) f c.

End service2.
End Service.

Module Client.
Import Wire Service.

Section client.
Context {F : Type} `{FileSystem F}.

(** The host's files, the connection to the device and the transfer counter. *)
Record client := mk_client { files : F; con : conn; total_bytes : Z }.
Definition with_con (cl : client) (c : conn) : client := mk_client (files cl) c (total_bytes cl).
Definition with_files (cl : client) (f : F) : client := mk_client f (con cl) (total_bytes cl).
Definition count (cl : client) (n : nat) : client :=
  mk_client (files cl) (con cl) (u32 (total_bytes cl + Z.of_nat n)).
Definition put (cl : client) (p : bytes) : bool * client :=
  let '(ok, c) := writex (con cl) p in (ok, with_con cl c).
Definition put2 (cl : client) (a b : bytes) : bool * client :=
  let '(ok, c) := writex2 (con cl) a b in (ok, with_con cl c).
Definition close (cl : client) : client := with_con cl (adb_close (con cl)).

Definition sync_quit (cl : client) : client := (put cl (msg2 ID_QUIT 0)).2.

(** sync_ls: the entries given to the callback, and whether it returns 0.  The
    length is an int, converted to size_t by readx; [buf] has 257 bytes. *)
Fixpoint ls_loop (fuel : nat) (c : conn) (acc : list (Z * Z * Z * bytes))
    : outcome (bool * list (Z * Z * Z * bytes) * conn) :=
  match fuel with
  | O => Stop "fuel"
  | S fuel =>
    '(m, c) ← readx c 20;
    match m with
    | None => Done (false, acc, adb_close c)
    | Some m =>
      if get 0 m =? ID_DONE then Done (true, acc, c)
      else if negb (get 0 m =? ID_DENT) then Done (false, acc, adb_close c)
      else
        let len := i32 (get 4 m) in
        if 256 <? len then Done (false, acc, adb_close c)
        else
          '(name, c) ← read_buf 257 c (u64 len);
          match name with
          | None => Done (false, acc, adb_close c)
          | Some name => ls_loop fuel c (acc ++ [(get 1 m, get 2 m, get 3 m, until_nul name)])
          end
    end
  end.
Definition sync_ls (c : conn) (path : bytes) : outcome (bool * list (Z * Z * Z * bytes) * conn) :=
  if 1024 <? Z.of_nat (length path) then Done (false, [], adb_close c)
  else
    let '(ok, c) := writex2 c (msg2 ID_LIST (Z.of_nat (length path))) path in
    if negb ok then Done (false, [], adb_close c)
    else ls_loop (S (length (inp c))) c [].

Definition sync_start_readtime (c : conn) (path : bytes) : bool * conn :=
  writex2 c (msg2 ID_STAT (Z.of_nat (length path))) path.
(** The time, mode and size of a STAT reply. *)
Definition sync_finish_readtime (c : conn) : outcome (option (Z * Z * Z) * conn) :=
  '(m, c) ← readx c 16;
  Done (match m with
        | Some m => if get 0 m =? ID_STAT then Some (get 3 m, get 1 m, get 2 m) else None
        | None => None
        end, c).
Definition sync_readtime (c : conn) (path : bytes) : outcome (option Z * conn) :=
  let '(ok, c) := sync_start_readtime c path in
  if negb ok then Done (None, c)
  else '(r, c) ← sync_finish_readtime c; Done (option_map (fun x : Z * Z * Z => x.1.1) r, c).
Definition sync_readmode (c : conn) (path : bytes) : outcome (option Z * conn) :=
  let '(ok, c) := sync_start_readtime c path in
  if negb ok then Done (None, c)
  else '(r, c) ← sync_finish_readtime c; Done (option_map (fun x : Z * Z * Z => x.1.2) r, c).

(** The data messages of a local file.  A read error ends the loop like the end
    of the file does. *)
Fixpoint file_loop (fuel : nat) (s : list Io.rd) (cl : client) : outcome (bool * client) :=
  match fuel with
  | O => Stop "fuel"
  | S fuel =>
    match Io.adb_read s (Z.to_nat SYNC_DATA_MAX) with
    | None => Stop "read waits"
    | Some (Io.RZero, _) => Done (true, cl)
    | Some (Io.RFail EINTR, s) => file_loop fuel s cl
    | Some (Io.RFail _, _) => Done (true, cl)
    | Some (Io.Got d, s) =>
        let '(ok, cl) := put cl (msg2 ID_DATA (Z.of_nat (length d)) ++ d) in
        if ok then file_loop fuel s (count cl (length d)) else Done (false, cl)
    end
  end.
Definition write_data_file (cl : client) (path : bytes) : outcome (bool * client) :=
  match fs_open_read (files cl) path with
  | inr _ => Done (false, cl)
  | inl s => file_loop (S (rd_weight s)) s cl
  end.

Fixpoint buffer_loop (fuel : nat) (rest : bytes) (cl : client) : outcome (bool * client) :=
  match rest with
  | [] => Done (true, cl)
  | _ =>
    match fuel with
    | O => Stop "fuel"
    | S fuel =>
      let d := take (Z.to_nat SYNC_DATA_MAX) rest in
      let '(ok, cl) := put cl (msg2 ID_DATA (Z.of_nat (length d)) ++ d) in
      if ok then buffer_loop fuel (drop (Z.to_nat SYNC_DATA_MAX) rest) (count cl (length d))
      else Done (false, cl)
    end
  end.
Definition write_data_buffer (cl : client) (file_buffer : bytes) : outcome (bool * client) :=
  buffer_loop (length file_buffer) file_buffer cl.

Definition write_data_link (cl : client) (path : bytes) : outcome (bool * client) :=
  match fs_readlink (files cl) path with
  | inr _ => Done (false, cl)
  | inl target =>
      let d := take (Z.to_nat SYNC_DATA_MAX - 1) target ++ [0] in
      let '(ok, cl) := put cl (msg2 ID_DATA (Z.of_nat (length d)) ++ d) in
      if ok then Done (true, count cl (length d)) else Done (false, cl)
  end.

(** The package check of verifyApk: the whole file in one read, then the zip
    library, which is [has_manifest] here.  [inr] is the value sync_send returns. *)
Definition load_package (has_manifest : bytes -> bool) (f : F) (lpath : bytes) : outcome (bytes + Z) :=
  match fs_open_read f lpath with
  | inr _ => Done (inr (-1))
  | inl s =>
    match fs_seek_end f lpath with
    | None => Done (inr 1)
    | Some size =>
        if size =? 0 then Done (if has_manifest [] then inl [] else inr 1)
        else match Io.adb_read s (Z.to_nat size) with
        | None => Stop "read waits"
        | Some (Io.Got d, _) =>
            Done (if (Z.of_nat (length d) =? size) && has_manifest d then inl d else inr 1)
        | Some _ => Done (inr 1)
        end
    end
  end.

(** The request, the data, the time stamp and the answer.  What the three data
    functions return is not looked at. *)
Definition send_data (cl : client) (lpath : bytes) (package : option bytes) (mode : Z)
    : outcome (option client) :=
  match package with
  | Some d => '(_, cl) ← write_data_buffer cl d; Done (Some cl)
  | None =>
      if S_ISREG mode then '(_, cl) ← write_data_file cl lpath; Done (Some cl)
      else if S_ISLNK mode then '(_, cl) ← write_data_link cl lpath; Done (Some cl)
      else Done None
  end.

Definition read_status (cl : client) : outcome (Z * client) :=
  '(m, c) ← readx (con cl) 8;
  match m with
  | None => Done (-1, with_con cl c)
  | Some m =>
      if get 0 m =? ID_OKAY then Done (0, with_con cl c)
      else if get 0 m =? ID_FAIL then
        let len := i32 (get 1 m) in
        let len := if 256 <? len then 256 else len in
        '(_, c) ← read_buf SYNC_DATA_MAX c (u64 len);
        Done (-1, with_con cl c)
      else Done (-1, with_con cl c)
  end.

Definition sync_send (has_manifest : bytes -> bool) (cl : client) (lpath rpath : bytes)
    (mtime mode : Z) (verifyApk : bool) : outcome (Z * client) :=
  if 1024 <? Z.of_nat (length rpath) then Done (-1, close cl)
  else
    let tmp := 44 :: decimal (i32 mode) in
    package ← (if verifyApk then
                 r ← load_package has_manifest (files cl) lpath;
                 Done (match r with inl d => inl (Some d) | inr e => inr e end)
               else Done (inl None));
    match package with
    | inr e => Done (e, cl)
    | inl package =>
        let '(ok, cl) := put cl (msg2 ID_SEND (Z.of_nat (length rpath + length tmp))) in
        let '(ok, cl) := if ok : bool then put2 cl rpath tmp else (false, cl) in
        if negb ok then Done (-1, close cl)
        else
          r ← send_data cl lpath package mode;
          match r with
          | None => Done (-1, close cl)
          | Some cl =>
              let '(ok, cl) := put cl (msg2 ID_DONE mtime) in
              if negb ok then Done (-1, close cl) else read_status cl
          end
    end.

(** sync_recv.  The loop starts with the message already read; [None] for the
    descriptor is -1. *)
Definition remote_error (cl : client) (m lpath : bytes) (lfd : option Z) : outcome (Z * client) :=
  let f := match lfd with Some fd => fs_close (files cl) fd | None => files cl end in
  let cl := with_files cl (fs_unlink f lpath) in
  if get 0 m =? ID_FAIL then
    let len := i32 (get 1 m) in
    let len := if 256 <? len then 256 else len in
    '(d, c) ← read_buf SYNC_DATA_MAX (con cl) (u64 len);
    Done (match d with None => -1 | Some _ => 0 end, with_con cl c)
  else Done (0, cl).

Fixpoint recv_loop (fuel : nat) (cl : client) (m lpath : bytes) (lfd : Z) : outcome (Z * client) :=
  match fuel with
  | O => Stop "fuel"
  | S fuel =>
    let len := i32 (get 1 m) in
    if get 0 m =? ID_DONE then Done (0, with_files cl (fs_close (files cl) lfd))
    else if negb (get 0 m =? ID_DATA) then remote_error cl m lpath (Some lfd)
    else if SYNC_DATA_MAX <? len then Done (-1, with_files cl (fs_close (files cl) lfd))
    else
      '(d, c) ← read_buf SYNC_DATA_MAX (con cl) (u64 len);
      let cl := with_con cl c in
      match d with
      | None => Done (-1, with_files cl (fs_close (files cl) lfd))
      | Some d =>
          match fs_writex (files cl) lfd d with
          | (Some _, f) => Done (-1, with_files cl (fs_close f lfd))
          | (None, f) =>
              let cl := count (with_files cl f) (length d) in
              '(m, c) ← readx (con cl) 8;
              match m with
              | None => Done (-1, with_con cl c)
              | Some m => recv_loop fuel (with_con cl c) m lpath lfd
              end
          end
      end
  end.

(** mkdirs of the client starts behind the first character whatever it is. *)
Definition mkdirs_local (f : F) (name : bytes) : outcome (bool * F) :=
  match name with
  | ch :: rest => Done (mkdirs_from f [ch] rest)
  | [] => Undef "mkdirs of an empty name"
  end.

Definition sync_recv (cl : client) (rpath lpath : bytes) : outcome (Z * client) :=
  if 1024 <? Z.of_nat (length rpath) then Done (-1, cl)
  else
    let '(ok, cl) := put2 cl (msg2 ID_RECV (Z.of_nat (length rpath))) rpath in
    if negb ok then Done (-1, cl)
    else
      '(m, c) ← readx (con cl) 8;
      let cl := with_con cl c in
      match m with
      | None => Done (-1, cl)
      | Some m =>
          if (get 0 m =? ID_DATA) || (get 0 m =? ID_DONE) then
            '(_, f) ← mkdirs_local (fs_unlink (files cl) lpath) lpath;
            match fs_creat f lpath 0x1A4 with
            | (inr _, f) => Done (-1, with_files cl f)
            | (inl lfd, f) => recv_loop (S (length (inp (con cl)))) (with_files cl f) m lpath lfd
            end
          else remote_error cl m lpath None
      end.

End client.
Arguments client : clear implicits.
End Client.

(** ** Messages and streams *)

Section messages.
Import Wire.

Lemma get_word i m w rest :
  is_u32 w -> drop (4 * i) m = word w ++ rest -> get i m = w.
Proof.
  intros Hw E. unfold get, word in *. rewrite E, take_app_le, take_ge by (rewrite length_le_split; lia).
  rewrite le_combine_split. by apply Z.mod_small.
Qed.
Lemma get0_msg2 a b : is_u32 a -> get 0 (msg2 a b) = a.
Proof. intros Ha. by apply (get_word 0 (msg2 a b) a (word b)). Qed.
Lemma get1_msg2 a b : is_u32 b -> get 1 (msg2 a b) = b.
Proof. intros Hb. apply (get_word 1 (msg2 a b) b []); [done|]. by rewrite app_nil_r. Qed.
Lemma length_msg2 a b : length (msg2 a b) = 8%nat.
Proof. done. Qed.

Definition with_inp (c : conn) (i : bytes) : conn := mk_conn i (eof c) (outp c) (room c) (closed c).
Definition sends (c : conn) (p : bytes) : conn := mk_conn (inp c) (eof c) (outp c ++ p) (room c) (closed c).

Lemma readx_app c n p rest :
  inp c = p ++ rest -> n = Z.of_nat (length p) -> readx c n = Done (Some p, with_inp c rest).
Proof.
  intros E ->. unfold readx, with_inp. rewrite E, length_app.
  destruct (Z.leb_spec (Z.of_nat (length p)) (Z.of_nat (length p + length rest))); [|lia].
  by rewrite Nat2Z.id, take_app_length, drop_app_length.
Qed.
Lemma read_buf_app cap c n p rest :
  inp c = p ++ rest -> n = Z.of_nat (length p) -> n <= cap ->
  read_buf cap c n = Done (Some p, with_inp c rest).
Proof.
  intros E Hn Hcap. unfold read_buf. destruct (Z.ltb_spec cap (Z.min n (Z.of_nat (length (inp c))))); [lia|].
  by apply readx_app.
Qed.
Lemma writex_room c p : room c = None -> writex c p = (true, sends c p).
Proof. intros E. unfold writex, sends. by rewrite E. Qed.
Lemma writex2_room c a b : room c = None -> writex2 c a b = (true, sends c (a ++ b)).
Proof.
  intros E. unfold writex2. rewrite (writex_room c a E), writex_room by done.
  unfold sends; cbn. by rewrite app_assoc.
Qed.
Lemma sends_sends c a b : sends (sends c a) b = sends c (a ++ b).
Proof. unfold sends; cbn. by rewrite app_assoc. Qed.
Lemma sends_nil c : sends c [] = c.
Proof. destruct c. unfold sends; cbn. by rewrite app_nil_r. Qed.

(** The data messages of a file cut into the pieces [ds]. *)
Definition chunk (d : bytes) : bytes := msg2 ID_DATA (Z.of_nat (length d)) ++ d.
Definition chunks (ds : list bytes) : bytes := concat (map chunk ds).
Definition fits (d : bytes) : Prop := Z.of_nat (length d) <= SYNC_DATA_MAX.

(** What readx on a descriptor does is what it does on the bytes that the
    descriptor delivers. *)
Lemma readx_refines s c (len : nat) :
  deliver s = (inp c, if eof c then Broken else Exhausted) ->
  match Io.readx s len, readx c (Z.of_nat len) with
  | Io.RxOk d s', Done (Some d', c') => d = d' /\ deliver s' = (inp c', if eof c' then Broken else Exhausted)
  | Io.RxErr _, Done (None, _) | Io.RxBlock, Stop _ => True
  | _, _ => False
  end.
Proof.
  intros Hd. pose proof (read_loop_spec (S (length s)) s len [] ltac:(lia)) as Hs. rewrite Hd in Hs.
  unfold Io.readx, readx. destruct (decide (len <= length (inp c))%nat).
  - destruct Hs as (s' & -> & E). destruct (Z.leb_spec (Z.of_nat len) (Z.of_nat (length (inp c)))); [|lia].
    by rewrite Nat2Z.id.
  - destruct (Z.leb_spec (Z.of_nat len) (Z.of_nat (length (inp c)))); [lia|].
    destruct (eof c); [destruct Hs as (s' & ->)|rewrite Hs]; done.
Qed.
End messages.

Section reading.
Import Wire Service.

(** A read of a descriptor whose data end: a piece, the end, or an error. *)
Lemma adb_read_step s d :
  deliver s = (d, Broken) ->
  exists r s', Io.adb_read s (Z.to_nat SYNC_DATA_MAX) = Some (r, s') /\
    match r with
    | Io.Got p => fits p /\ (rd_weight s' < rd_weight s)%nat /\ exists d', d = p ++ d' /\ deliver s' = (d', Broken)
    | Io.RFail EINTR => deliver s' = (d, Broken) /\ (rd_weight s' < rd_weight s)%nat
    | _ => d = []
    end.
Proof.
  intros Hd. assert (0 < Z.to_nat SYNC_DATA_MAX)%nat as Hpos by (unfold SYNC_DATA_MAX; lia).
  destruct (Io.adb_read s (Z.to_nat SYNC_DATA_MAX)) as [[r s']|] eqn:E.
  2:{ destruct s as [|[b l| |e] s]; cbn in Hd, E; [done|repeat case_match; done|done|done]. }
  exists r, s'. split; [done|].
  pose proof (adb_read_deliver s _ r s' Hpos E) as H. pose proof (adb_read_weight s _ r s' Hpos E) as W.
  destruct r as [p| |e].
  - destruct H as (Hp & H & _). rewrite Hd in H. injection H as -> H. unfold fits.
    split; [lia|]. split; [done|]. exists (deliver s').1. split; [done|]. destruct (deliver s'); cbn in *. by subst.
  - rewrite Hd in H. by injection H.
  - destruct e; try (rewrite Hd in H; by injection H). destruct H as [H _]. by rewrite <- H.
Qed.
End reading.

Section push_client.
Import Wire Service Client.
Context {F : Type} `{FileSystem F}.

Definition moved (cl : client F) (p : bytes) (tb : Z) : client F := mk_client (files cl) (sends (con cl) p) tb.

Lemma put_room (cl : client F) p : room (con cl) = None -> put cl p = (true, moved cl p (total_bytes cl)).
Proof. intros E. unfold put. by rewrite writex_room. Qed.

Lemma moved_nil (cl : client F) : moved cl (chunks []) (total_bytes cl) = cl.
Proof. unfold moved, chunks. cbn [map concat]. rewrite sends_nil. by destruct cl. Qed.

Lemma count_moved (cl : client F) p ds t n tb :
  moved (count (moved cl (chunk p) t) n) (chunks ds) tb = moved cl (chunks (p :: ds)) tb.
Proof.
  unfold count, moved. cbn [con files total_bytes]. rewrite sends_sends.
  change (chunks (p :: ds)) with (chunk p ++ chunks ds). reflexivity.
Qed.

(** A whole file leaves as data messages that fit the receiver's buffer. *)
Lemma file_loop_chunks fuel s d :
  deliver s = (d, Broken) -> (rd_weight s < fuel)%nat ->
  exists ds, concat ds = d /\ Forall fits ds /\ forall cl : client F, room (con cl) = None ->
    exists tb, file_loop fuel s cl = Done (true, moved cl (chunks ds) tb).
Proof.
  revert s d. induction fuel as [|fuel IH]; intros s d Hd Hf; [lia|]. cbn [file_loop].
  destruct (adb_read_step s d Hd) as (r & s' & -> & Hstep).
  assert (d = [] -> exists ds, concat ds = d /\ Forall fits ds /\ forall cl : client F, room (con cl) = None ->
            exists tb, Done (true, cl) = Done (true, moved cl (chunks ds) tb)) as Hend.
  { intros ->. exists []. split_and!; [done|constructor|]. intros cl _. exists (total_bytes cl). by rewrite moved_nil. }
  destruct r as [p| |e].
  - destruct Hstep as (Hp & Hw & d' & -> & Hd'). destruct (IH s' d' Hd' ltac:(lia)) as (ds & E & Hfit & Hrun).
    exists (p :: ds). cbn [concat]. rewrite E. split_and!; [done|by constructor|]. intros cl Hr.
    rewrite (put_room cl _ Hr).
    destruct (Hrun (count (moved cl (chunk p) (total_bytes cl)) (length p)) Hr) as (tb & Hloop).
    exists tb. change (msg2 ID_DATA (Z.of_nat (length p)) ++ p) with (chunk p). rewrite Hloop.
    rewrite count_moved. reflexivity.
  - by apply Hend.
  - destruct e; try (by apply Hend). destruct Hstep as [Hd' Hw]. apply IH; [done|lia].
Qed.

(** A package goes in messages of 64 KB, and what is left. *)
Fixpoint packets (fuel : nat) (rest : bytes) : list bytes :=
  match rest, fuel with
  | [], _ | _, O => []
  | _, S fuel => take (Z.to_nat SYNC_DATA_MAX) rest :: packets fuel (drop (Z.to_nat SYNC_DATA_MAX) rest)
  end.

Lemma buffer_loop_chunks fuel d :
  (length d <= fuel)%nat ->
  concat (packets fuel d) = d /\ Forall fits (packets fuel d) /\ forall cl : client F, room (con cl) = None ->
    exists tb, buffer_loop fuel d cl = Done (true, moved cl (chunks (packets fuel d)) tb).
Proof.
  revert d. induction fuel as [|fuel IH]; intros d Hl.
  all: destruct d as [|x d].
  1,3: split_and!; [done|constructor|]; intros cl _; exists (total_bytes cl); by rewrite moved_nil.
  { cbn in Hl. lia. }
  set (rest := x :: d) in *. set (p := take (Z.to_nat SYNC_DATA_MAX) rest).
  assert (0 < Z.to_nat SYNC_DATA_MAX)%nat as Hpos by (unfold SYNC_DATA_MAX; lia).
  destruct (IH (drop (Z.to_nat SYNC_DATA_MAX) rest)) as (E & Hfit & Hrun); [rewrite length_drop; lia|].
  change (packets (S fuel) rest) with (p :: packets fuel (drop (Z.to_nat SYNC_DATA_MAX) rest)).
  cbn [concat]. rewrite E. unfold p at 1. rewrite take_drop.
  split_and!; [done|constructor; [unfold fits, p; rewrite length_take; lia|done]|]. intros cl Hr.
  destruct (Hrun (count (moved cl (chunk p) (total_bytes cl)) (length p)) Hr) as (tb & Hloop). exists tb.
  unfold rest at 1. cbn [buffer_loop]. fold rest. fold p. rewrite (put_room cl _ Hr).
  change (msg2 ID_DATA (Z.of_nat (length p)) ++ p) with (chunk p). rewrite Hloop. rewrite count_moved. reflexivity.
Qed.
End push_client.

Section push_service.
Import Wire Service.
Context {F : Type} `{FileSystemLaws F}.

Lemma length_chunk d : length (chunk d) = (8 + length d)%nat.
Proof. unfold chunk. by rewrite length_app. Qed.

Lemma fits_u32 d : fits d -> is_u32 (Z.of_nat (length d)).
Proof. unfold fits, is_u32, SYNC_DATA_MAX. lia. Qed.

(** One data message is read whole. *)
Lemma receive_data fuel (f : F) c path fd p rest :
  fits p -> inp c = chunk p ++ rest ->
  receive_loop (S fuel) f c path fd =
  match fd with
  | None => receive_loop fuel f (with_inp c rest) path None
  | Some fd =>
      match fs_writex f fd p with
      | (None, f) => receive_loop fuel f (with_inp c rest) path (Some fd)
      | (Some e, f) =>
          let f := fs_unlink (fs_close f fd) path in
          let '(ok, c) := fail_errno (with_inp c rest) e in
          if ok then receive_loop fuel f c path None else Done (false, f, c)
      end
  end.
Proof.
  intros Hp E. cbn [receive_loop]. unfold chunk in E. rewrite <- app_assoc in E.
  rewrite (readx_app c 8 _ _ E) by done. cbn [mbind outcome_bind].
  rewrite get0_msg2, Z.eqb_refl by done. cbn [negb]. rewrite get1_msg2 by (by apply fits_u32).
  unfold fits in Hp. destruct (Z.ltb_spec SYNC_DATA_MAX (Z.of_nat (length p))); [lia|].
  rewrite (read_buf_app _ (with_inp c (p ++ rest)) _ p rest) by done. done.
Qed.

(** Without a file the data are skipped. *)
Lemma receive_skip ds : forall fuel (f : F) c path t rest,
  Forall fits ds -> is_u32 t -> inp c = chunks ds ++ msg2 ID_DONE t ++ rest -> (length ds < fuel)%nat ->
  receive_loop fuel f c path None = Done (true, f, with_inp c rest).
Proof.
  induction ds as [|p ds IH]; intros fuel f c path t rest Hfit Ht E Hf; (destruct fuel as [|fuel]; [cbn in Hf; lia|]).
  - cbn [receive_loop]. rewrite (readx_app c 8 (msg2 ID_DONE t) rest E) by done. cbn [mbind outcome_bind].
    by rewrite get0_msg2.
  - apply Forall_cons in Hfit as [Hp Hfit]. change (chunks (p :: ds)) with (chunk p ++ chunks ds) in E. rewrite <- app_assoc in E.
    rewrite (receive_data fuel f c path None p _ Hp E).
    rewrite (IH fuel f (with_inp c _) path t rest Hfit Ht eq_refl) by (cbn in Hf; lia). done.
Qed.

(** *** What a push does to the files *)

(** The pieces are written one after the other until a write fails. *)
Fixpoint write_pieces (f : F) (fd : Z) (ds : list bytes) : option errno * F :=
  match ds with
  | [] => (None, f)
  | d :: ds => match fs_writex f fd d with (None, f) => write_pieces f fd ds | r => r end
  end.

(** The pieces, then the time stamp; a file whose data cannot be written is removed. *)
Definition store_pieces (f : F) (fd : Z) (path : bytes) (t : Z) (ds : list bytes) : option errno * F :=
  match write_pieces f fd ds with
  | (None, f) => (None, fs_utime (fs_close f fd) path t)
  | (Some e, f) => (Some e, fs_unlink (fs_close f fd) path)
  end.

(** The service's answer to a push: OKAY, or FAIL with the text of the error. *)
Definition refusal (e : errno) : bytes := msg2 ID_FAIL (Z.of_nat (length (fs_strerror e))) ++ fs_strerror e.
Definition answer (r : option errno) : bytes := match r with None => msg2 ID_OKAY 0 | Some e => refusal e end.

Lemma write_pieces_at ds : forall (f f' : F) fd path perm dn old,
  fs_writing f fd path perm (dn ++ drop (length dn) old) (length dn) -> write_pieces f fd ds = (None, f') ->
  fs_writing f' fd path perm ((dn ++ concat ds) ++ drop (length (dn ++ concat ds)) old) (length (dn ++ concat ds)).
Proof.
  induction ds as [|d ds IH]; intros f f' fd path perm dn old Hw E; cbn [write_pieces concat] in *.
  - injection E as <-. by rewrite app_nil_r.
  - destruct (fs_writex f fd d) as [[e|] f1] eqn:Ew; [done|].
    pose proof (writex_at _ _ _ _ _ _ _ _ Hw Ew) as Hw1.
    rewrite take_app_length, drop_app_add, drop_drop, app_assoc, <- length_app in Hw1 by done.
    rewrite app_assoc. by apply (IH f1).
Qed.

Lemma store_pieces_stored (f f' : F) fd path perm old t ds :
  fs_writing f fd path perm old 0 -> store_pieces f fd path t ds = (None, f') ->
  fs_regular f' path perm (concat ds ++ drop (length (concat ds)) old).
Proof.
  intros Hw. unfold store_pieces. destruct (write_pieces f fd ds) as [[e|] f1] eqn:E; [done|]. intros [= <-].
  eapply utime_keeps, close_keeps. apply (write_pieces_at ds f f1 fd path perm [] old Hw E).
Qed.

Lemma receive_chunks ds : forall (f : F) path fd t fuel c rest,
  Forall fits ds -> is_u32 t -> inp c = chunks ds ++ msg2 ID_DONE t ++ rest -> (length ds < fuel)%nat -> room c = None ->
  receive_loop fuel f c path (Some fd) =
    Done (true, (store_pieces f fd path t ds).2, sends (with_inp c rest) (answer (store_pieces f fd path t ds).1)).
Proof.
  induction ds as [|p ds IH]; intros f path fd t fuel c rest Hfit Ht E Hf Hr; (destruct fuel as [|fuel]; [cbn in Hf; lia|]).
  - cbn [receive_loop]. rewrite (readx_app c 8 (msg2 ID_DONE t) rest E) by done. cbn [mbind outcome_bind].
    rewrite get0_msg2 by done. change (ID_DONE =? ID_DATA) with false. change (ID_DONE =? ID_DONE) with true.
    cbn [negb]. rewrite get1_msg2 by done. by rewrite writex_room by done.
  - apply Forall_cons in Hfit as [Hp Hfit]. change (chunks (p :: ds)) with (chunk p ++ chunks ds) in E. rewrite <- app_assoc in E.
    cbn [length] in Hf. rewrite (receive_data fuel f c path (Some fd) p _ Hp E). unfold store_pieces. cbn [write_pieces].
    destruct (fs_writex f fd p) as [[e|] f1] eqn:Ew.
    + cbv zeta. unfold fail_errno, fail_message. rewrite writex2_room by done.
      rewrite (receive_skip ds fuel _ (sends (with_inp c (chunks ds ++ msg2 ID_DONE t ++ rest)) _) path t rest Hfit Ht eq_refl)
        by lia. done.
    + rewrite (IH f1 path fd t fuel (with_inp c (chunks ds ++ msg2 ID_DONE t ++ rest)) rest Hfit Ht eq_refl) by (done || lia). done.
Qed.
End push_service.

Section mode_text.
Import Wire Service Client.

Lemma strrchr_none ch s : (ch ∉ s) -> strrchr ch s = None.
Proof.
  induction s as [|b s IH]; intros Hn; [done|]. apply not_elem_of_cons in Hn as [Hb Hs]. cbn.
  rewrite (IH Hs). by rewrite (proj2 (Z.eqb_neq b ch)) by congruence.
Qed.
Lemma strrchr_last ch p s : (ch ∉ s) -> strrchr ch (p ++ ch :: s) = Some (p, s).
Proof.
  intros Hn. induction p as [|b p IH]; cbn.
  - by rewrite (strrchr_none ch s Hn), Z.eqb_refl.
  - by rewrite IH.
Qed.

(** The first of the digits of a positive number is not zero. *)
Lemma decn_spec k : forall n, 0 < n < 10 ^ Z.of_nat k ->
  exists c l, decn k n = c :: l /\ 49 <= c <= 57 /\ Forall (fun b => 48 <= b <= 57) l /\
    forall s acc, digits 10 (decn k n ++ s) acc = digits 10 s (acc * 10 ^ Z.of_nat (length (decn k n)) + n).
Proof.
  assert (forall v s acc, 0 <= v < 10 -> digits 10 ((48 + v) :: s) acc = digits 10 s (acc * 10 + v)) as Hd.
  { intros v s acc Hv. cbn [digits]. unfold digit_value.
    rewrite (proj2 (Z.leb_le 48 (48 + v))), (proj2 (Z.leb_le (48 + v) 57)) by lia. cbn [andb].
    replace (48 + v - 48) with v by lia. by rewrite (proj2 (Z.ltb_lt v 10)) by lia. }
  induction k as [|k IH]; intros n Hn; [change (10 ^ Z.of_nat 0) with 1 in Hn; lia|].
  cbn [decn]. destruct (Z.ltb_spec n 10).
  - exists (48 + n), []. split; [done|]. split; [lia|]. split; [done|]. intros s acc. cbn [app length]. by rewrite Hd by lia.
  - rewrite Nat2Z.inj_succ, Z.pow_succ_r in Hn by lia.
    pose proof (Z.div_mod n 10 ltac:(lia)). pose proof (Z.mod_pos_bound n 10 ltac:(lia)).
    destruct (IH (n / 10) ltac:(lia)) as (c & l & E & Hc & Hl & Hdig).
    exists c, (l ++ [48 + n mod 10]). rewrite E. split; [done|]. split; [lia|]. split.
    { apply Forall_app. split; [done|]. constructor; [lia|done]. }
    intros s acc. rewrite <- E, <- app_assoc, Hdig. cbn [app]. rewrite Hd by done.
    rewrite length_app. cbn [length]. rewrite Nat.add_1_r, Nat2Z.inj_succ, Z.pow_succ_r by lia. f_equal. nia.
Qed.

Lemma decimal_spec n : 0 < n < 2 ^ 31 ->
  strtoul0 (decimal n) = (n, false) /\ Forall (fun b => 48 <= b <= 57) (decimal n).
Proof.
  intros Hn. unfold decimal. destruct (Z.ltb_spec n 0); [lia|].
  destruct (decn_spec 11 n) as (c & l & E & Hc & Hl & Hdig); [lia|].
  specialize (Hdig [] 0). rewrite app_nil_r, Z.mul_0_l, Z.add_0_l in Hdig. change (digits 10 [] n) with n in Hdig.
  rewrite E in Hdig |- *. split; [|constructor; [lia|done]].
  assert (c = 49 \/ c = 50 \/ c = 51 \/ c = 52 \/ c = 53 \/ c = 54 \/ c = 55 \/ c = 56 \/ c = 57) as Hcases by lia.
  unfold strtoul0. destruct Hcases as [->|[->|[->|[->|[->|[->|[->|[->| ->]]]]]]]];
    cbn [skip_space is_space Z.eqb Z.leb Z.compare Pos.eqb Pos.compare Pos.compare_cont andb orb];
    rewrite Hdig; destruct (Z.ltb_spec (2 ^ 32 - 1) n); done || lia.
Qed.

Lemma length_chunks ds : (length ds <= length (chunks ds))%nat.
Proof.
  induction ds as [|d ds IH]; [done|]. change (chunks (d :: ds)) with (chunk d ++ chunks ds).
  rewrite length_app, length_chunk. cbn [length]. lia.
Qed.
End mode_text.

Section push.
Import Wire Service Client.
Context {F : Type} `{FileSystemLaws F}.

(** The permissions a pushed file is created with. *)
Definition push_perm (mode : Z) : Z := spread (Z.land mode 0x1FF).
(** What opening the target in the state [f] gives: a new file, or one that exists
    there, perhaps after the missing directories were made. *)
Definition opened (f : F) (path : bytes) (m perm : Z) (old : bytes) : Prop :=
  (perm = Z.ldiff m fs_umask /\ old = []) \/
  (exists f0 f1, fs_open_excl f0 path m = (inr EEXIST, f1) /\
     (f0 = f \/ exists f2, fs_open_excl f path m = (inr ENOENT, f2) /\ f0 = (Service.mkdirs f2 path).2)).

Lemma open_target_ok (f : F) path m fd f' :
  open_target f path m = (inl fd, f') ->
  exists perm old, fs_writing f' fd path perm old 0 /\ opened f path m perm old.
Proof.
  unfold open_target.
  assert (forall f0 r1 f1, fs_open_excl f0 path m = (r1, f1) ->
    (f0 = f \/ exists f2, fs_open_excl f path m = (inr ENOENT, f2) /\ f0 = (Service.mkdirs f2 path).2) ->
    match r1 with inr EEXIST => fs_open_write f1 path | _ => (r1, f1) end = (inl fd, f') ->
    exists perm old, fs_writing f' fd path perm old 0 /\ opened f path m perm old) as Hlast.
  { intros f0 r1 f1 E Hf0. destruct r1 as [fd1|[]]; try done.
    - intros [= -> ->]. eexists _, []. split; [by eapply open_excl_new|]. by left.
    - intros Ew. apply open_write_old in Ew as (perm & old & Hw). exists perm, old. split; [done|]. right. eauto. }
  destruct (fs_open_excl f path m) as [r1 f1] eqn:E1.
  destruct r1 as [fd1|[]]; try exact (Hlast f _ f1 E1 (or_introl eq_refl)).
  destruct (Service.mkdirs f1 path) as [b f2] eqn:Em. destruct (fs_open_excl f2 path m) as [r2 f3] eqn:E2.
  apply (Hlast f2 r2 f3 E2). right. exists f1. by rewrite Em.
Qed.

(** The request is read and the target opened. *)
Lemma request_opens (f : F) c rpath mode stream :
  no_nul rpath -> (length rpath + S (length (decimal mode)) <= 1024)%nat -> 0 < mode < 2 ^ 31 ->
  S_ISREG mode = true ->
  inp c = (msg2 ID_SEND (Z.of_nat (length rpath + S (length (decimal mode)))) ++ rpath ++ 44 :: decimal mode) ++ stream ->
  request f c =
    match open_target (fs_unlink f rpath) rpath (push_perm mode) with
    | (inl fd, f1) => receive_loop (S (length stream)) f1 (with_inp c stream) rpath (Some fd)
    | (inr e, f1) =>
        let '(ok, c2) := fail_errno (with_inp c stream) e in
        if ok then receive_loop (S (length stream)) f1 c2 rpath None else Done (false, f1, c2)
    end.
Proof.
  intros Hnul Hlen Hmode Hreg E. destruct (decimal_spec mode Hmode) as [Hparse Hdig].
  set (name := rpath ++ 44 :: decimal mode).
  assert (Z.of_nat (length rpath + S (length (decimal mode))) = Z.of_nat (length name)) as Hn
    by (unfold name; by rewrite length_app).
  assert (no_nul name) as Hnn.
  { apply Forall_app. split; [done|]. constructor; [done|]. eapply Forall_impl; [exact Hdig|]. cbn. lia. }
  rewrite Hn in E. fold name in E. rewrite <- !app_assoc in E. unfold request.
  rewrite (readx_app c 8 _ _ E) by done. cbn [mbind outcome_bind].
  rewrite get0_msg2 by done. rewrite get1_msg2 by (unfold is_u32; lia).
  destruct (Z.ltb_spec 1024 (Z.of_nat (length name))); [lia|].
  rewrite (read_buf_app 1025 (with_inp c _) _ name _ eq_refl) by (done || lia). cbn [mbind outcome_bind].
  rewrite (until_nul_id name Hnn). change (ID_SEND =? ID_STAT) with false. change (ID_SEND =? ID_LIST) with false.
  change (ID_SEND =? ID_SEND) with true. cbv iota. unfold do_send, name.
  rewrite strrchr_last.
  2:{ intros Hin. rewrite Forall_forall in Hdig. specialize (Hdig _ Hin). cbn in Hdig. lia. }
  rewrite Hparse. assert (S_ISLNK mode = false) as ->.
  { unfold S_ISLNK, S_ISREG in *. apply Z.eqb_eq in Hreg. by rewrite Hreg. }
  fold (push_perm mode). unfold handle_send_file.
  destruct (open_target (fs_unlink f rpath) rpath (push_perm mode)) as [[fd|e] f1]; done.
Qed.

(** The files after a push: the target unlinked, opened and written. *)
Definition push_file (f : F) (rpath : bytes) (mode mtime : Z) (ds : list bytes) : option errno * F :=
  match open_target (fs_unlink f rpath) rpath (push_perm mode) with
  | (inl fd, f1) => store_pieces f1 fd rpath mtime ds
  | (inr e, f1) => (Some e, f1)
  end.

(** A push that went well: the data, in front of what is left of an old file that
    could not be unlinked. *)
Definition stored (f f' : F) (rpath : bytes) (mode : Z) (data : bytes) : Prop :=
  exists perm old, fs_regular f' rpath perm (data ++ drop (length data) old) /\
    opened (fs_unlink f rpath) rpath (push_perm mode) perm old.

Lemma push_file_stored (f f' : F) rpath mode mtime ds :
  push_file f rpath mode mtime ds = (None, f') -> stored f f' rpath mode (concat ds).
Proof.
  unfold push_file. destruct (open_target (fs_unlink f rpath) rpath (push_perm mode)) as [[fd|e] f1] eqn:Eo; [|done].
  intros E. destruct (open_target_ok _ _ _ _ _ Eo) as (perm & old & Hw & Hop). exists perm, old. split; [|done].
  by apply (store_pieces_stored f1 f' fd rpath perm old mtime).
Qed.

(** A push request as the service handles it. *)
Lemma request_push (f : F) rpath mode mtime ds c rest :
  no_nul rpath -> (length rpath + S (length (decimal mode)) <= 1024)%nat -> 0 < mode < 2 ^ 31 ->
  S_ISREG mode = true -> is_u32 mtime -> Forall fits ds -> room c = None ->
  inp c = (msg2 ID_SEND (Z.of_nat (length rpath + S (length (decimal mode)))) ++ rpath ++ 44 :: decimal mode)
          ++ chunks ds ++ msg2 ID_DONE mtime ++ rest ->
  request f c = Done (true, (push_file f rpath mode mtime ds).2,
                      sends (with_inp c rest) (answer (F:=F) (push_file f rpath mode mtime ds).1)).
Proof.
  intros Hnul Hlen Hmode Hreg Ht Hfit Hr E.
  assert (length ds < S (length (chunks ds ++ msg2 ID_DONE mtime ++ rest)))%nat as Hfuel.
  { pose proof (length_chunks ds). rewrite length_app. lia. }
  rewrite (request_opens f c rpath mode (chunks ds ++ msg2 ID_DONE mtime ++ rest)) by done. unfold push_file.
  destruct (open_target (fs_unlink f rpath) rpath (push_perm mode)) as [[fd|e] f1] eqn:Eo.
  - by rewrite (receive_chunks ds f1 rpath fd mtime _ (with_inp c _) rest).
  - unfold fail_errno, fail_message. rewrite writex2_room by done.
    by rewrite (receive_skip ds _ f1 (sends (with_inp c (chunks ds ++ msg2 ID_DONE mtime ++ rest)) _) rpath mtime rest Hfit Ht eq_refl).
Qed.

(** The client reads the answer. *)
Lemma read_status_okay (L : Type) (cl : client L) rest : inp (con cl) = msg2 ID_OKAY 0 ++ rest ->
  read_status cl = Done (0, with_con cl (with_inp (con cl) rest)).
Proof.
  intros E. unfold read_status. rewrite (readx_app _ 8 (msg2 ID_OKAY 0) rest E) by done.
  cbn [mbind outcome_bind]. by rewrite get0_msg2.
Qed.
Lemma read_status_refused (L : Type) (cl : client L) e rest :
  inp (con cl) = refusal (F:=F) e ++ rest ->
  read_status cl = Done (-1, with_con cl (with_inp (con cl) rest)).
Proof.
  intros E. unfold refusal in E. rewrite <- app_assoc in E. unfold read_status. pose proof (strerror_short (F:=F) e) as Hs.
  rewrite (readx_app _ 8 _ _ E) by done. cbn [mbind outcome_bind].
  rewrite get0_msg2 by done. change (ID_FAIL =? ID_OKAY) with false. change (ID_FAIL =? ID_FAIL) with true.
  rewrite get1_msg2 by (unfold is_u32; lia). cbv iota. rewrite i32_small by lia.
  destruct (Z.ltb_spec 256 (Z.of_nat (length (fs_strerror (F:=F) e)))); [lia|]. rewrite u64_small by lia.
  rewrite (read_buf_app _ (with_inp (con cl) _) _ (fs_strerror e) rest).
  - done.
  - done.
  - done.
  - unfold SYNC_DATA_MAX. lia.
Qed.
(** The value of sync_send for an answer. *)
Definition status (r : option errno) : Z := match r with None => 0 | Some _ => -1 end.

Lemma read_status_answer (L : Type) (cl : client L) r rest :
  inp (con cl) = answer (F:=F) r ++ rest ->
  read_status cl = Done (status r, with_con cl (with_inp (con cl) rest)).
Proof. destruct r; [apply read_status_refused|apply read_status_okay]. Qed.
End push.

Section push_send.
Import Wire Service Client.
Context {L : Type} `{FileSystem L}.

(** The data of the local file: what its reads deliver, or the package that
    passed the check. *)
Definition source (zip : bytes -> bool) (lf : L) (lpath : bytes) (verify : bool) (data : bytes) : Prop :=
  if verify then load_package zip lf lpath = Done (inl data)
  else exists s, fs_open_read lf lpath = inl s /\ deliver s = (data, Broken).

Definition push_header (rpath : bytes) (mode : Z) : bytes :=
  msg2 ID_SEND (Z.of_nat (length rpath + S (length (decimal mode)))) ++ rpath ++ 44 :: decimal mode.

(** What the client sends for a regular file does not depend on the answer. *)
Lemma sync_send_stream zip (lf : L) lpath rpath mtime mode verify data :
  (length rpath <= 1024)%nat -> 0 < mode < 2 ^ 31 -> S_ISREG mode = true -> source zip lf lpath verify data ->
  exists ds, concat ds = data /\ Forall fits ds /\ (verify = true -> ds = packets (length data) data) /\
    forall cl, files cl = lf -> room (con cl) = None -> exists tb',
    sync_send zip cl lpath rpath mtime mode verify =
    read_status (moved cl (push_header rpath mode ++ chunks ds ++ msg2 ID_DONE mtime) tb').
Proof.
  intros Hl Hmode Hreg Hsrc.
  assert (exists ds, concat ds = data /\ Forall fits ds /\ (verify = true -> ds = packets (length data) data) /\
    forall cl : client L, room (con cl) = None -> files cl = lf -> exists tb', send_data cl lpath (if verify then Some data else None) mode =
      Done (Some (moved cl (chunks ds) tb'))) as (ds & E & Hfit & Hpk & Hrun).
  { destruct verify; unfold send_data.
    - destruct (buffer_loop_chunks (F:=L) (length data) data ltac:(lia)) as (E & Hfit & Hrun). eexists.
      split; [exact E|]. split; [exact Hfit|]. split; [done|]. intros cl Hr _. destruct (Hrun cl Hr) as (tb' & Hloop). exists tb'.
      unfold write_data_buffer. by rewrite Hloop.
    - destruct Hsrc as (s & Ho & Hd).
      destruct (file_loop_chunks (F:=L) (S (rd_weight s)) s data Hd ltac:(lia)) as (ds & E & Hfit & Hrun). exists ds.
      split_and!; [done|done|done|]. intros cl Hr Hf. destruct (Hrun cl Hr) as (tb' & Hloop). exists tb'.
      rewrite Hreg. unfold write_data_file. by rewrite Hf, Ho, Hloop. }
  exists ds. split_and!; [done|done|done|]. intros cl0 Hlf Hr0.
  unfold sync_send. destruct (Z.ltb_spec 1024 (Z.of_nat (length rpath))); [lia|]. rewrite i32_small by lia.
  cbv zeta. rewrite Hlf.
  assert ((if verify then r ← load_package zip lf lpath;
             Done (match r with inl d => inl (Some d) | inr e => inr e end) else Done (inl None))
          = Done (inl (if verify then Some data else None) : option bytes + Z)) as ->.
  { destruct verify; [|done]. cbn in Hsrc. by rewrite Hsrc. }
  cbn [mbind outcome_bind]. rewrite put_room by done. unfold put2. rewrite writex2_room by done. cbn [negb].
  set (cl := with_con _ _). destruct (Hrun cl Hr0 Hlf) as (tb' & Hdata).
  exists tb'. cbn [mbind outcome_bind] in *. rewrite Hdata. cbn [mbind outcome_bind]. rewrite put_room by done.
  cbn [negb]. f_equal. unfold cl, moved, push_header. cbn [con files with_con total_bytes length]. rewrite !sends_sends.
  by rewrite <- !app_assoc.
Qed.
End push_send.

(** C3 (roundtrip). A push of a regular file, whatever pieces it is read in, or of
    a package that passed the check; [data] is what the reads of the file deliver before
    its end or an error, or the package.  sync_send cuts the data into messages, and
    with the device's answer as its input it terminates; the device's service handles
    the bytes it sent as one request, to the last one, and what it does to the files is
    [push_file]: unlink the target, open it, write the pieces, set the time.  sync_send
    returns 0 exactly when the opening and every write of this run succeed, and -1
    otherwise, with the error in the device's answer.  After a 0 the path holds exactly
    the data with the permissions asked for (less the umask), or, if the exclusive open
    found an old file there that the unlink had not removed, that file with the data
    written over its beginning. *)
Theorem push_roundtrip {F L : Type} `{FileSystemLaws F} `{FileSystem L} (zip : bytes -> bool)
    (lf : L) (tb : Z) (f : F) (lpath rpath : bytes) (mtime mode : Z) (verify : bool) (data : bytes) :
  no_nul rpath -> (length rpath + S (length (decimal mode)) <= 1024)%nat ->
  0 < mode < 2 ^ 31 -> Service.S_ISREG mode = true -> is_u32 mtime -> source zip lf lpath verify data ->
  exists ds failed f' cl c,
    concat ds = data /\ Forall fits ds /\ push_file f rpath mode mtime ds = (failed, f') /\
    Client.sync_send zip (Client.mk_client lf (Wire.fresh (answer (F:=F) failed)) tb) lpath rpath mtime mode verify
      = Done (status failed, cl) /\
    Wire.outp (Client.con cl) = push_header rpath mode ++ chunks ds ++ Wire.msg2 Wire.ID_DONE mtime /\
    Service.request f (Wire.fresh (Wire.outp (Client.con cl))) = Done (true, f', c) /\
    Wire.inp c = [] /\ Wire.outp c = answer (F:=F) failed /\ Wire.inp (Client.con cl) = [] /\
    (failed = None -> stored f f' rpath mode data).
Proof.
  intros Hnul Hlen Hmode Hreg Ht Hsrc.
  destruct (sync_send_stream zip lf lpath rpath mtime mode verify data ltac:(lia) Hmode Hreg Hsrc)
    as (ds & Hds & Hfit & _ & Hsend).
  set (stream := push_header rpath mode ++ chunks ds ++ Wire.msg2 Wire.ID_DONE mtime) in *.
  pose proof (request_push f rpath mode mtime ds (Wire.fresh stream) [] Hnul Hlen Hmode Hreg Ht Hfit eq_refl
                ltac:(by rewrite app_nil_r)) as Hreq.
  destruct (push_file f rpath mode mtime ds) as [failed f'] eqn:Ep.
  destruct (Hsend (Client.mk_client lf (Wire.fresh (answer (F:=F) failed)) tb) eq_refl eq_refl) as (tb' & Hrun).
  rewrite (read_status_answer (F:=F) _ _ failed []) in Hrun by (by rewrite app_nil_r).
  eexists ds, failed, f', _, _. split; [done|]. split; [done|]. split; [done|]. split; [exact Hrun|].
  split; [done|]. split; [exact Hreq|]. split_and!; [done..|].
  intros ->. rewrite <- Hds. by apply (push_file_stored f f' rpath mode mtime).
Qed.

(** ** A file system in memory

    Regular files only, in directories that all exist: an instance of the
    interface that keeps its laws. *)

Module Disk.

Record disk := mk_disk { nodes : gmap bytes (Z * bytes * Z); handles : list (bytes * nat) }.

Definition open_at (d : disk) (p : bytes) (n : Z * bytes * Z) : (Z + errno) * disk :=
  (inl (Z.of_nat (length (handles d))), mk_disk (<[p := n]> (nodes d)) (handles d ++ [(p, 0%nat)])).

#[global] Instance disk_fs : FileSystem disk := {
  fs_umask := 0x12;
  fs_open_excl d p m :=
    match nodes d !! p with Some _ => (inr EEXIST, d) | None => open_at d p (Z.ldiff m 0x12, [], 0) end;
  fs_open_write d p := match nodes d !! p with Some n => open_at d p n | None => (inr ENOENT, d) end;
  fs_creat d p m := open_at d p (Z.ldiff m 0x12, [], 0);
  fs_writex d fd b :=
    match handles d !! Z.to_nat fd with
    | None => (Some EOTHER, d)
    | Some (p, n) =>
        match nodes d !! p with
        | None => (Some EOTHER, d)
        | Some (perm, old, t) =>
            (None, mk_disk (<[p := (perm, take n old ++ b ++ drop (n + length b) old, t)]> (nodes d))
                           (<[Z.to_nat fd := (p, (n + length b)%nat)]> (handles d)))
        end
    end;
  fs_close d _ := d;
  fs_unlink d p := mk_disk (delete p (nodes d)) (handles d);
  fs_mkdir d _ _ := (None, d);
  fs_symlink d _ _ := (Some EOTHER, d);
  fs_utime d p t := mk_disk (alter (fun x => (x.1, t)) p (nodes d)) (handles d);
  fs_lstat d p := (fun x => (0x8000 + x.1.1, Z.of_nat (length x.1.2), x.2)) <$> nodes d !! p;
  fs_readdir _ _ := None;
  fs_open_read d p :=
    match nodes d !! p with
    | Some (_, b :: l, _) => inl [Io.RData b l; Io.REof]
    | Some (_, [], _) => inl [Io.REof]
    | None => inr ENOENT
    end;
  fs_seek_end d p := (fun x => Z.of_nat (length x.1.2)) <$> nodes d !! p;
  fs_readlink _ _ := inr EOTHER;
  fs_strerror _ := bs "error"
}.

#[global] Program Instance disk_laws : FileSystemLaws disk := {
  fs_writing d fd p perm data n :=
    handles d !! Z.to_nat fd = Some (p, n) /\ exists t, nodes d !! p = Some (perm, data, t);
  fs_regular d p perm data := exists t, nodes d !! p = Some (perm, data, t)
}.
Next Obligation.
  intros f p m fd f'. cbn. destruct (nodes f !! p); [done|]. intros [= <- <-]. cbn. rewrite Nat2Z.id. split.
  - by rewrite list_lookup_middle.
  - rewrite lookup_insert_eq. eauto.
Qed.
Next Obligation.
  intros f p fd f'. cbn. destruct (nodes f !! p) as [[[perm old] t]|]; [|done]. intros [= <- <-]. cbn.
  rewrite Nat2Z.id, lookup_insert_eq. exists perm, old. split; [by rewrite list_lookup_middle|eauto].
Qed.
Next Obligation.
  intros f p m fd f'. cbn. intros [= <- <-]. cbn.
  rewrite Nat2Z.id, lookup_insert_eq. eexists. split; [by rewrite list_lookup_middle|eauto].
Qed.
Next Obligation.
  intros f fd p perm d n b f' [Hh (t & Hn)]. cbn. rewrite Hh, Hn. intros [= <-]. cbn. split.
  - apply list_lookup_insert_eq. by eapply lookup_lt_Some.
  - rewrite lookup_insert_eq. eauto.
Qed.
Next Obligation. by intros f fd p perm d n [_ ?]. Qed.
Next Obligation. intros f p perm d t (t' & E). cbn. exists t. rewrite lookup_alter_eq, E. done. Qed.
Next Obligation. cbn. lia. Qed.

Definition demo (p d : bytes) : disk := mk_disk {[ p := (0x1A4, d, 7) ]} [].
End Disk.

Lemma push_roundtrip_witness :
  exists ds failed f' cl c,
    concat ds = [1; 2; 3] /\ Forall fits ds /\
    push_file (Disk.demo (bs "x") [9]) (bs "/data/a,b") 0x81A4 77 ds = (failed, f') /\
    Client.sync_send (fun _ => true) (Client.mk_client (Disk.demo (bs "a") [1; 2; 3]) (Wire.fresh (answer (F:=Disk.disk) failed)) 0)
      (bs "a") (bs "/data/a,b") 77 0x81A4 false = Done (status failed, cl) /\
    Wire.outp (Client.con cl) = push_header (bs "/data/a,b") 0x81A4 ++ chunks ds ++ Wire.msg2 Wire.ID_DONE 77 /\
    Service.request (Disk.demo (bs "x") [9]) (Wire.fresh (Wire.outp (Client.con cl))) = Done (true, f', c) /\
    Wire.inp c = [] /\ Wire.outp c = answer (F:=Disk.disk) failed /\ Wire.inp (Client.con cl) = [] /\
    (failed = None -> stored (Disk.demo (bs "x") [9]) f' (bs "/data/a,b") 0x81A4 [1; 2; 3]).
Proof.
  apply (push_roundtrip (F:=Disk.disk) (L:=Disk.disk) (fun _ => true) (Disk.demo (bs "a") [1; 2; 3]) 0
           (Disk.demo (bs "x") [9]) (bs "a") (bs "/data/a,b") 77 0x81A4 false [1; 2; 3]).
  - by_compute.
  - by_compute.
  - lia.
  - reflexivity.
  - by_compute.
  - eexists. split; [vm_compute; reflexivity|reflexivity].
Defined.

Section pull.
Import Wire Service Client.

(** The data of a descriptor that is read to its end without an error. *)
Fixpoint file_data (s : list Io.rd) : option bytes :=
  match s with
  | Io.RData b d :: s => (fun l => b :: d ++ l) <$> file_data s
  | Io.RErr EINTR :: s => file_data s
  | Io.REof :: _ => Some []
  | _ => None
  end.

Lemma adb_read_clean s d :
  file_data s = Some d ->
  exists r s', Io.adb_read s (Z.to_nat SYNC_DATA_MAX) = Some (r, s') /\
    match r with
    | Io.Got p => fits p /\ (rd_weight s' < rd_weight s)%nat /\ exists d', d = p ++ d' /\ file_data s' = Some d'
    | Io.RZero => d = []
    | Io.RFail e => e = EINTR /\ file_data s' = Some d /\ (rd_weight s' < rd_weight s)%nat
    end.
Proof.
  assert (0 < Z.to_nat SYNC_DATA_MAX)%nat as Hpos by (unfold SYNC_DATA_MAX; lia).
  unfold fits. set (M := Z.to_nat SYNC_DATA_MAX) in *.
  assert (SYNC_DATA_MAX = Z.of_nat M) as -> by (unfold M; rewrite Z2Nat.id; done). clearbody M.
  destruct s as [|[b p| |e] s]; [done| | |]; cbn [file_data]; intros Hd.
  - apply fmap_Some in Hd as (l & Hl & ->). cbn [Io.adb_read]. case_decide as Hlen.
    + eexists _, _. split; [done|]. split; [lia|]. split; [cbn; lia|]. exists l. by split.
    + destruct (drop M (b :: p)) as [|x q] eqn:E.
      { apply (f_equal length) in E. rewrite length_drop in E. cbn in E, Hlen. lia. }
      eexists _, _. split; [done|]. split; [rewrite length_take; lia|].
      pose proof (f_equal length E) as El. rewrite length_drop in El. cbn [length] in El, Hlen.
      split; [cbn [rd_weight]; lia|]. exists (x :: q ++ l). cbn [file_data]. rewrite Hl. split; [|done].
      change (x :: q ++ l) with ((x :: q) ++ l). by rewrite <- E, app_assoc, take_drop.
  - injection Hd as <-. by eexists _, _.
  - destruct e; try done. eexists _, _. split; [done|]. cbn. split_and!; [done|done|lia].
Qed.

Lemma send_loop_chunks {D} `{FileSystem D} fuel s d :
  file_data s = Some d -> (rd_weight s < fuel)%nat ->
  exists ds, concat ds = d /\ Forall fits ds /\ forall c, room c = None ->
    send_loop (F:=D) fuel s c = Done (true, sends c (chunks ds ++ msg2 ID_DONE 0)).
Proof.
  revert s d. induction fuel as [|fuel IH]; intros s d Hd Hf; [lia|]. cbn [send_loop].
  destruct (adb_read_clean s d Hd) as (r & s' & -> & Hstep). destruct r as [p| |e].
  - destruct Hstep as (Hp & Hw & d' & -> & Hd'). destruct (IH s' d' Hd' ltac:(lia)) as (ds & E & Hfit & Hrun).
    exists (p :: ds). cbn [concat]. rewrite E. split_and!; [done|by constructor|]. intros c Hr.
    rewrite writex2_room, Hrun by done. rewrite sends_sends, app_assoc. reflexivity.
  - subst d. exists []. split_and!; [done|constructor|]. intros c Hr. by rewrite writex_room.
  - destruct Hstep as (-> & Hd' & Hw). apply IH; [done|lia].
Qed.

Context {F : Type} `{FileSystemLaws F}.

Lemma with_inp_outp c i : outp (with_inp c i) = outp c.
Proof. done. Qed.

(** What the client comes to does not depend on what follows the answer; on success
    all of the answer has been read. *)
Definition receives (f f' : F) (r : Z) (stream answer : bytes) (run : client F -> outcome (Z * client F)) : Prop :=
  forall cl rest, files cl = f -> room (con cl) = None -> inp (con cl) = answer ++ rest ->
    exists cl', run cl = Done (r, cl') /\ files cl' = f' /\ room (con cl') = None /\
      outp (con cl') = outp (con cl) ++ stream /\ (r = 0 -> con cl' = sends (with_inp (con cl) rest) stream).

(** The files after a pull: the pieces are written to the new file, which is closed. *)
Definition keep_pieces (f : F) (lfd : Z) (ds : list bytes) : option errno * F :=
  let '(r, f) := write_pieces f lfd ds in (r, fs_close f lfd).

(** The receiving loop, its first message read already. *)
Lemma recv_loop_chunks ds : forall (f : F) lpath lfd (stream := chunks ds ++ msg2 ID_DONE 0),
  Forall fits ds -> forall fuel, (length ds < fuel)%nat ->
  receives f (keep_pieces f lfd ds).2 (status (keep_pieces f lfd ds).1) [] (drop 8 stream)
    (fun cl => recv_loop fuel cl (take 8 stream) lpath lfd).
Proof.
  induction ds as [|p ds IH]; intros f lpath lfd stream Hfit fuel Hf cl rest Hl Hr Hi; (destruct fuel as [|fuel]; [cbn in Hf; lia|]).
  - cbn [recv_loop].
    change (take 8 stream) with (msg2 ID_DONE 0). rewrite get0_msg2 by done. change (ID_DONE =? ID_DONE) with true.
    cbv iota. eexists. split; [done|]. cbn [files with_files con]. rewrite Hl, app_nil_r. split_and!; [done|done|done|].
    intros _. rewrite sends_nil. destruct (con cl). cbn in *. by subst.
  - apply Forall_cons in Hfit as [Hp Hfit]. set (next := chunks ds ++ msg2 ID_DONE 0).
    assert (forall fuel (cl : client F) rest, inp (con cl) = drop 8 stream ++ rest ->
      recv_loop (S fuel) cl (take 8 stream) lpath lfd =
      match fs_writex (files cl) lfd p with
      | (Some _, f) => Done (-1, with_files (with_con cl (with_inp (con cl) (next ++ rest))) (fs_close f lfd))
      | (None, f) =>
          recv_loop fuel (with_con (count (with_files (with_con cl (with_inp (con cl) (next ++ rest))) f) (length p))
             (with_inp (con cl) (drop 8 next ++ rest))) (take 8 next) lpath lfd
      end) as Hstep.
    { clear fuel Hf cl rest Hl Hr Hi. intros fuel cl rest Hi. cbn [recv_loop].
      assert (inp (con cl) = p ++ next ++ rest) as Hi' by (rewrite Hi; change (drop 8 stream) with ((p ++ chunks ds) ++ msg2 ID_DONE 0); unfold next; by rewrite <- !app_assoc).
      change (take 8 stream) with (msg2 ID_DATA (Z.of_nat (length p))).
      rewrite get0_msg2 by done. change (ID_DATA =? ID_DONE) with false. change (ID_DATA =? ID_DATA) with true.
      cbn [negb]. rewrite get1_msg2 by (by apply fits_u32). pose proof Hp as Hp'. unfold fits, SYNC_DATA_MAX in Hp'.
      rewrite i32_small by lia. destruct (Z.ltb_spec SYNC_DATA_MAX (Z.of_nat (length p))); [unfold fits in Hp; lia|].
      rewrite u64_small by lia. rewrite (read_buf_app _ (con cl) _ p _ Hi') by done. cbn [mbind outcome_bind].
      cbn [files with_con]. destruct (fs_writex (files cl) lfd p) as [[e|] f1]; [done|].
      rewrite (readx_app _ 8 (take 8 next) (drop 8 next ++ rest)); [done| |].
      - cbn [con count with_files with_con inp with_inp]. by rewrite app_assoc, take_drop.
      - rewrite length_take_le; [done|]. unfold next. rewrite length_app, length_msg2. lia. }
    rewrite (Hstep fuel cl rest Hi), Hl. unfold keep_pieces. cbn [write_pieces].
    destruct (fs_writex f lfd p) as [[e|] f1] eqn:Ew.
    + eexists. split; [done|]. cbn. by rewrite app_nil_r.
    + exact (IH f1 lpath lfd Hfit fuel ltac:(cbn in Hf; lia) (with_con (count (with_files (with_con cl (with_inp (con cl) (next ++ rest))) f1)
        (length p)) (with_inp (con cl) (drop 8 next ++ rest))) rest eq_refl Hr eq_refl).
Qed.

(** The old file is unlinked, directories are made, the new one is created and written. *)
Definition pull_file (f : F) (lpath : bytes) (ds : list bytes) : option errno * F :=
  match lpath with
  | [] => (None, f)
  | ch :: rest =>
      match fs_creat (mkdirs_from (fs_unlink f lpath) [ch] rest).2 lpath 0x1A4 with
      | (inr e, f1) => (Some e, f1)
      | (inl lfd, f1) => keep_pieces f1 lfd ds
      end
  end.

Lemma pull_file_kept (f f' : F) lpath ds :
  lpath <> [] -> pull_file f lpath ds = (None, f') -> exists perm, fs_regular f' lpath perm (concat ds).
Proof.
  intros Hlp. unfold pull_file. destruct lpath as [|ch rest] eqn:El; [done|]. rewrite <- El in *.
  destruct (fs_creat _ lpath 0x1A4) as [[lfd|e] f1] eqn:Ec; [|done].
  destruct (creat_empty _ _ _ _ _ Ec) as (perm & Hw). unfold keep_pieces.
  destruct (write_pieces f1 lfd ds) as [[e|] f2] eqn:E; [done|]. intros [= <-]. exists perm. eapply close_keeps.
  pose proof (write_pieces_at ds f1 f2 lfd lpath perm [] [] Hw E) as Hw2.
  rewrite drop_nil, app_nil_r in Hw2. exact Hw2.
Qed.

Lemma sync_recv_chunks (f : F) rpath lpath ds :
  (length rpath <= 1024)%nat -> lpath <> [] -> Forall fits ds ->
  receives f (pull_file f lpath ds).2 (status (pull_file f lpath ds).1)
    (msg2 ID_RECV (Z.of_nat (length rpath)) ++ rpath) (chunks ds ++ msg2 ID_DONE 0)
    (fun cl => sync_recv cl rpath lpath).
Proof.
  intros Hl Hlp Hfit. set (stream := chunks ds ++ msg2 ID_DONE 0) in *.
  set (req := msg2 ID_RECV (Z.of_nat (length rpath)) ++ rpath).
  destruct lpath as [|ch lpath'] eqn:Elp; [done|]. rewrite <- Elp in *.
  destruct (mkdirs_from (fs_unlink f lpath) [ch] lpath') as [b f0] eqn:Em.
  assert (mkdirs_local (fs_unlink f lpath) lpath = Done (b, f0)) as Hmk by (rewrite Elp in *; cbn; by rewrite Em).
  assert (pull_file f lpath ds = match fs_creat f0 lpath 0x1A4 with
            (inr e, f1) => (Some e, f1) | (inl lfd, f1) => keep_pieces f1 lfd ds end) as ->.
  { unfold pull_file. rewrite Elp in *. by rewrite Em. }
  assert (forall (cl : client F) rest, files cl = f -> room (con cl) = None -> inp (con cl) = stream ++ rest ->
    sync_recv cl rpath lpath =
    match fs_creat f0 lpath 0x1A4 with
    | (inr _, f1) => Done (-1, with_files (with_con cl (with_inp (sends (con cl) req) (drop 8 stream ++ rest))) f1)
    | (inl lfd, f1) => recv_loop (S (length (drop 8 stream ++ rest)))
        (with_files (with_con cl (with_inp (sends (con cl) req) (drop 8 stream ++ rest))) f1) (take 8 stream) lpath lfd
    end) as Hstep.
  { intros cl rest Hf Hr Hi. unfold sync_recv. destruct (Z.ltb_spec 1024 (Z.of_nat (length rpath))); [lia|].
    unfold put2. rewrite writex2_room by done. cbn [negb].
    rewrite (readx_app _ 8 (take 8 stream) (drop 8 stream ++ rest)).
    2:{ cbn [con with_con inp sends]. by rewrite app_assoc, take_drop. }
    2:{ rewrite length_take_le; [done|]. unfold stream. rewrite length_app, length_msg2. lia. }
    cbn [mbind outcome_bind].
    assert ((get 0 (take 8 stream) =? ID_DATA) || (get 0 (take 8 stream) =? ID_DONE) = true) as ->.
    { destruct ds as [|p ds]; [done|]. change (take 8 stream) with (msg2 ID_DATA (Z.of_nat (length p))).
      by rewrite get0_msg2. }
    cbn [files with_con]. rewrite Hf, Hmk. cbn [mbind outcome_bind].
    by destruct (fs_creat f0 lpath 0x1A4) as [[lfd|e] f1]. }
  intros cl rest Hf Hr Hi. rewrite (Hstep cl rest Hf Hr Hi).
  destruct (fs_creat f0 lpath 0x1A4) as [[lfd|e] f1] eqn:Ec; [|by eexists].
  assert (length ds < S (length (drop 8 stream ++ rest)))%nat as Hfuel.
  { unfold stream. rewrite length_app, length_drop, length_app, length_msg2. pose proof (length_chunks ds). lia. }
  destruct (recv_loop_chunks ds f1 lpath lfd Hfit _ Hfuel (with_files (with_con cl (with_inp (sends (con cl) req) (drop 8 stream ++ rest))) f1) rest
              eq_refl Hr eq_refl) as (cl' & E & Hf' & Hr' & Ho & Hc).
  exists cl'. split; [exact E|]. split; [done|]. split; [done|]. split.
  - rewrite Ho. cbn. by rewrite app_nil_r.
  - intros Er. rewrite (Hc Er). unfold sends, with_inp. cbn. by rewrite app_nil_r.
Qed.

Lemma request_pull {D} `{FileSystem D} (df : D) rpath s d :
  no_nul rpath -> (length rpath <= 1024)%nat -> fs_open_read df rpath = inl s -> file_data s = Some d ->
  exists ds, concat ds = d /\ Forall fits ds /\
    forall c rest, room c = None -> inp c = (msg2 ID_RECV (Z.of_nat (length rpath)) ++ rpath) ++ rest ->
      request df c = Done (true, df, sends (with_inp c rest) (chunks ds ++ msg2 ID_DONE 0)).
Proof.
  intros Hnul Hl Ho Hd.
  destruct (send_loop_chunks (D:=D) (S (rd_weight s)) s d Hd ltac:(lia)) as (ds & E & Hfit & Hrun).
  exists ds. split_and!; [done|done|]. intros c rest Hr Hi. rewrite <- app_assoc in Hi.
  unfold request. rewrite (readx_app c 8 _ _ Hi) by done. cbn [mbind outcome_bind].
  rewrite get0_msg2 by done. rewrite get1_msg2 by (unfold is_u32; lia).
  destruct (Z.ltb_spec 1024 (Z.of_nat (length rpath))); [lia|].
  rewrite (read_buf_app 1025 (with_inp c (rpath ++ rest)) _ rpath rest) by (done || lia).
  cbn [mbind outcome_bind]. rewrite (until_nul_id rpath Hnul).
  change (ID_RECV =? ID_STAT) with false. change (ID_RECV =? ID_LIST) with false.
  change (ID_RECV =? ID_SEND) with false. change (ID_RECV =? ID_RECV) with true. cbv iota.
  unfold do_recv. rewrite Ho. by rewrite Hrun.
Qed.
End pull.

(** C6 (roundtrip). A pull of a file that the device can read to its end without an
    error, in whatever pieces (when a read fails, sync_recv can return 0 with a
    part of the data): sync_recv terminates on the device's answer, the data messages
    and DONE, to the request it sends; the service stays ready for the next request.
    What is done to the local files is [pull_file]: unlink, make directories, create,
    write the pieces, close.  sync_recv returns 0 exactly when the creation and every
    write of this run succeed, and then it has consumed the answer and the local file
    holds exactly the data of the remote one; otherwise it returns -1. *)
Theorem pull_roundtrip {D F : Type} `{FileSystem D} `{FileSystemLaws F} (df : D) (lf : F) (tb : Z)
    (rpath lpath : bytes) (s : list Io.rd) (data : bytes) :
  no_nul rpath -> (length rpath <= 1024)%nat -> lpath <> [] ->
  fs_open_read df rpath = inl s -> file_data s = Some data ->
  exists ds failed lf' cl c,
    concat ds = data /\ Forall fits ds /\ pull_file lf lpath ds = (failed, lf') /\
    Wire.outp c = chunks ds ++ Wire.msg2 Wire.ID_DONE 0 /\
    Client.sync_recv (Client.mk_client lf (Wire.fresh (Wire.outp c)) tb) rpath lpath = Done (status failed, cl) /\
    Client.files cl = lf' /\
    Wire.outp (Client.con cl) = Wire.msg2 Wire.ID_RECV (Z.of_nat (length rpath)) ++ rpath /\
    Service.request df (Wire.fresh (Wire.outp (Client.con cl))) = Done (true, df, c) /\
    Wire.inp c = [] /\
    (failed = None -> Wire.inp (Client.con cl) = [] /\ exists perm, fs_regular lf' lpath perm data).
Proof.
  intros Hnul Hl Hlp Ho Hd.
  destruct (request_pull df rpath s data Hnul Hl Ho Hd) as (ds & Hds & Hfit & Hreq).
  set (req := Wire.msg2 Wire.ID_RECV (Z.of_nat (length rpath)) ++ rpath) in *.
  pose proof (sync_recv_chunks lf rpath lpath ds Hl Hlp Hfit) as Hrun.
  destruct (pull_file lf lpath ds) as [failed lf'] eqn:Ep.
  destruct (Hrun (Client.mk_client lf (Wire.fresh (chunks ds ++ Wire.msg2 Wire.ID_DONE 0)) tb) [] eq_refl eq_refl
              ltac:(cbn; by rewrite app_nil_r)) as (cl & E & Hf & Hr & Hout & Hc).
  exists ds, failed, lf', cl, (sends (with_inp (Wire.fresh req) []) (chunks ds ++ Wire.msg2 Wire.ID_DONE 0)).
  split; [done|]. split; [done|]. split; [done|]. split; [done|].
  split; [exact E|]. split; [exact Hf|]. split; [exact Hout|]. rewrite Hout. cbn [Client.con Wire.outp Wire.fresh app].
  split; [apply (Hreq (Wire.fresh req) []); [done|by rewrite app_nil_r]|]. split; [done|].
  intros ->. split; [by rewrite Hc|]. rewrite <- Hds. by apply (pull_file_kept lf lf' lpath ds).
Qed.

Lemma pull_roundtrip_witness :
  exists ds failed lf' cl c,
    concat ds = [1; 2; 3] /\ Forall fits ds /\ pull_file (Disk.demo (bs "b") [9; 9]) (bs "b") ds = (failed, lf') /\
    Wire.outp c = chunks ds ++ Wire.msg2 Wire.ID_DONE 0 /\
    Client.sync_recv (Client.mk_client (Disk.demo (bs "b") [9; 9]) (Wire.fresh (Wire.outp c)) 0) (bs "/a") (bs "b")
      = Done (status failed, cl) /\
    Client.files cl = lf' /\
    Wire.outp (Client.con cl) = Wire.msg2 Wire.ID_RECV (Z.of_nat (length (bs "/a"))) ++ bs "/a" /\
    Service.request (Disk.demo (bs "/a") [1; 2; 3]) (Wire.fresh (Wire.outp (Client.con cl)))
      = Done (true, Disk.demo (bs "/a") [1; 2; 3], c) /\
    Wire.inp c = [] /\
    (failed = None -> Wire.inp (Client.con cl) = [] /\ exists perm, fs_regular lf' (bs "b") perm [1; 2; 3]).
Proof.
  apply (pull_roundtrip (D:=Disk.disk) (F:=Disk.disk) (Disk.demo (bs "/a") [1; 2; 3]) (Disk.demo (bs "b") [9; 9]) 0
           (bs "/a") (bs "b") [Io.RData 1 [2; 3]; Io.REof] [1; 2; 3]).
  - by_compute.
  - by_compute.
  - done.
  - by vm_compute.
  - reflexivity.
Defined.

(** The length check of sync_recv is on a signed int and does not
    stop a length of 2^31 or more: a device that announces such a message and
    sends more than 64 KB writes past the end of the client's buffer. *)
Theorem sync_recv_overrun {F : Type} `{FileSystem F} (lf : F) (tb n lfd : Z) (rpath lpath payload : bytes) (f1 f2 : F) :
  (length rpath <= 1024)%nat -> 2 ^ 31 <= n < 2 ^ 32 -> Wire.SYNC_DATA_MAX < Z.of_nat (length payload) ->
  Z.of_nat (length payload) < 2 ^ 63 ->
  Client.mkdirs_local (fs_unlink lf lpath) lpath = Done (true, f1) -> fs_creat f1 lpath 0x1A4 = (inl lfd, f2) ->
  Client.sync_recv (Client.mk_client lf (Wire.fresh (Wire.msg2 Wire.ID_DATA n ++ payload)) tb) rpath lpath
    = Undef "buffer overrun".
Proof.
  intros Hl Hn Hp Hp' Hm Hc. unfold Client.sync_recv. destruct (Z.ltb_spec 1024 (Z.of_nat (length rpath))); [lia|].
  unfold Client.put2. rewrite writex2_room by done. cbn [negb].
  rewrite (readx_app _ 8 (Wire.msg2 Wire.ID_DATA n) payload) by done. cbn [mbind outcome_bind].
  rewrite get0_msg2, Z.eqb_refl by done. cbn [orb Client.files Client.with_con]. rewrite Hm. cbn [mbind outcome_bind].
  rewrite Hc. cbn [Client.recv_loop]. rewrite get0_msg2 by done. rewrite get1_msg2 by (unfold is_u32; lia).
  change (Wire.ID_DATA =? Wire.ID_DONE) with false. change (Wire.ID_DATA =? Wire.ID_DATA) with true. cbn [negb].
  assert (i32 n = n - 2 ^ 32) as Hi by (unfold i32; rewrite <- (Z.mod_unique (n + 2 ^ 31) (2 ^ 32) 1 (n - 2 ^ 31)); lia).
  rewrite Hi. unfold Wire.SYNC_DATA_MAX in *. destruct (Z.ltb_spec (64 * 1024) (n - 2 ^ 32)); [lia|].
  assert (u64 (n - 2 ^ 32) = n - 2 ^ 32 + 2 ^ 64) as Hu
    by (unfold u64; symmetry; apply (Z.mod_unique _ _ (-1)); lia).
  rewrite Hu. unfold Wire.read_buf. cbn [Client.con Client.with_files Client.with_con Wire.inp with_inp].
  destruct (Z.ltb_spec (64 * 1024) (Z.min (n - 2 ^ 32 + 2 ^ 64) (Z.of_nat (length payload)))); [done|lia].
Qed.

Lemma sync_recv_overrun_witness :
  Client.sync_recv (Client.mk_client (Disk.demo (bs "b") [])
    (Wire.fresh (Wire.msg2 Wire.ID_DATA (2 ^ 32 - 1) ++ replicate (Z.to_nat 65537) 65)) 0) (bs "/a") (bs "b")
  = Undef "buffer overrun".
Proof.
  eapply (sync_recv_overrun (Disk.demo (bs "b") []) 0 (2 ^ 32 - 1) _ (bs "/a") (bs "b") (replicate (Z.to_nat 65537) 65)).
  - by_compute.
  - lia.
  - rewrite length_replicate. unfold Wire.SYNC_DATA_MAX. lia.
  - rewrite length_replicate. lia.
  - vm_compute. reflexivity.
  - vm_compute. reflexivity.
Defined.

(** The guard of do_list lets a name of 256 characters pass, one more than [tmp]
    holds behind a path of 1024. *)
Lemma do_list_overrun {F : Type} `{FileSystem F} (f : F) (c : Wire.conn) (path name : bytes) :
  length path = 1024%nat -> length name = 256%nat -> fs_readdir f path = Some [name] ->
  Service.do_list f c path = Undef "tmp overrun".
Proof.
  intros Hp Hn Hd. unfold Service.do_list. rewrite Hd. cbn [Service.list_entries]. by rewrite Hp, Hn.
Qed.
