(* ===== verification/SyncDirs.v ===== *)
(** * Copies of directories (tools/adb/file_sync_client.c)

    The part of the file sync client above its transfers of single files: the
    lists of files under a local and a remote directory, the comparison of time
    stamps, and the commands ls, push, pull and sync.  The files, the connection and
    the transfers are FileSync's.  What the commands print about their progress is a
    list of [report]s; the messages of the single transfers are left out there. *)

From S2P Require Import Prelude Io FileSync.

Import Wire Service Client.

(** The client's stat follows links, lstat does not. *)
Class StatFiles (F : Type) := fs_stat : F -> bytes -> option (Z * Z * Z).

Definition S_ISDIR (mode : Z) : bool := Z.land mode 0xF000 =? 0x4000.
Definition S_ISCHR (mode : Z) : bool := Z.land mode 0xF000 =? 0x2000.
Definition S_ISBLK (mode : Z) : bool := Z.land mode 0xF000 =? 0x6000.

Inductive report :=
  | Entry (mode size time : Z) (name : bytes)
  | CannotOpen (path : bytes)
  | CannotStat (path : bytes)
  | SkippingSpecial (path : bytes)
  | Push (would : bool) (s d : bytes)
  | Pushed (pushed skipped : Z)
  | BuildingList
  | Pull (s d : bytes)
  | Pulled (pulled skipped : Z)
  | Rate (kbs transferred sec msec : Z)
  | NoRemote (path : bytes)
  | NotFileOrDirectory (path : bytes)
  | Syncing (path : bytes)
  | ConnectError.

(** END: nothing is said about a transfer of no bytes; [t] is the time since
    BEGIN, in microseconds. *)
Definition END (t total : Z) : list report :=
  if total =? 0 then []
  else
    let t := if t =? 0 then 1000000 else t in
    [Rate (Z.quot (Z.quot (total * 1000000) t) 1024) (i32 total) (Z.quot t 1000000)
          (Z.quot (Z.rem t 1000000) 1000)].

(** ** The lists *)

Record copyinfo := mk_copyinfo {
  src : bytes; dst : bytes; time : Z; mode : Z; size : Z; flag : bool
}.
Definition set_flag (ci : copyinfo) : copyinfo :=
  mk_copyinfo (src ci) (dst ci) (time ci) (mode ci) (size ci) true.
Definition stamped (ci : copyinfo) (mode size time : Z) : copyinfo :=
  mk_copyinfo (src ci) (dst ci) time mode size (flag ci).

(** snprintf of the text [s] into [n] bytes. *)
Definition snprintf (n : Z) (s : bytes) : bytes := take (Z.to_nat (n - 1)) s.

Definition mkcopyinfo (spath dpath name : bytes) (isdir : bool) : copyinfo :=
  let slen := Z.of_nat (length spath) in
  let dlen := Z.of_nat (length dpath) in
  let nlen := Z.of_nat (length name) in
  let ssize := slen + nlen + 2 in
  let dsize := dlen + nlen + 2 in
  let slash := if isdir then [47] else [] in
  mk_copyinfo (snprintf ssize (spath ++ name ++ slash)) (snprintf dsize (dpath ++ name ++ slash)) 0 0 0 false.

Definition PATH_MAX : Z := 4096.

(** The entries "." and "..". *)
Definition is_dots (name : bytes) : bool :=
  match name with
  | c0 :: [] => c0 =? 46
  | c0 :: c1 :: [] => (c0 =? 46) && (c1 =? 46)
  | _ => false
  end.

Section local.
Context {F : Type} `{FileSystem F} `{StatFiles F}.

(** The loop over readdir.  [st] is the one stat buffer of the call: the result of
    stat is not looked at, so what was there before stays when it fails, and at
    first nothing was. *)
Fixpoint local_scan (f : F) (lpath rpath : bytes) (names : list bytes) (st : option (Z * Z * Z))
    (dirlist filelist : list copyinfo) (log : list report)
    : outcome (Z * list copyinfo * list copyinfo * list report) :=
  match names with
  | [] => Done (0, dirlist, filelist, log)
  | name :: names =>
      if is_dots name then local_scan f lpath rpath names st dirlist filelist log
      else if PATH_MAX <? Z.of_nat (length lpath) + Z.of_nat (length name) + 1 then
        local_scan f lpath rpath names st dirlist filelist log
      else
        let st := match fs_stat f (lpath ++ name) with Some s => Some s | None => st end in
        s ← deref "stat buffer never filled" st;
        if S_ISDIR s.1.1 then
          local_scan f lpath rpath names st (mkcopyinfo lpath rpath name true :: dirlist) filelist log
        else
          let ci := mkcopyinfo lpath rpath name false in
          match fs_lstat f (src ci) with
          | None => Done (-1, dirlist, filelist, log ++ [CannotStat (src ci)])
          | Some s =>
              if negb (S_ISREG s.1.1) && negb (S_ISLNK s.1.1) then
                local_scan f lpath rpath names (Some s) dirlist filelist (log ++ [SkippingSpecial (src ci)])
              else
                let ci := stamped ci s.1.1 (u32 s.1.2) (u32 s.2) in
                local_scan f lpath rpath names (Some s) dirlist (ci :: filelist) log
          end
  end.

(** The loop over the directories that were found; what the calls return is not
    looked at. *)
Fixpoint each_dir (visit : bytes -> bytes -> list copyinfo -> list report -> outcome (Z * list copyinfo * list report))
    (dirlist filelist : list copyinfo) (log : list report) : outcome (list copyinfo * list report) :=
  match dirlist with
  | [] => Done (filelist, log)
  | ci :: dirlist =>
      '(_, filelist, log) ← visit (src ci) (dst ci) filelist log;
      each_dir visit dirlist filelist log
  end.

Fixpoint local_build_list (fuel : nat) (f : F) (lpath rpath : bytes) (filelist : list copyinfo) (log : list report)
    : outcome (Z * list copyinfo * list report) :=
  match fuel with
  | O => Stop "fuel"
  | S fuel =>
      match fs_readdir f lpath with
      | None => Done (-1, filelist, log ++ [CannotOpen lpath])
      | Some names =>
          '(r, dirlist, filelist, log) ← local_scan f lpath rpath names None [] filelist log;
          if negb (r =? 0) then Done (r, filelist, log)
          else
            '(filelist, log) ← each_dir (local_build_list fuel f) dirlist filelist log;
            Done (0, filelist, log)
      end
  end.

(** A path grows by a character at least on the way down, and longer ones than
    PATH_MAX are passed over. *)
Definition list_fuel : nat := S (Z.to_nat PATH_MAX).

(** ** Push and sync *)

Definition with_slash (path : bytes) : bytes :=
  if negb (default 0 (last path) =? 47) then snprintf (Z.of_nat (length path) + 2) (path ++ [47]) else path.

Fixpoint start_all (cl : client F) (filelist : list copyinfo) : bool * client F :=
  match filelist with
  | [] => (true, cl)
  | ci :: filelist =>
      let '(ok, c) := sync_start_readtime (con cl) (dst ci) in
      if ok then start_all (with_con cl c) filelist else (false, with_con cl c)
  end.

(** The test that sets the flag; for links the time cannot be set on the device. *)
Definition unchanged (ci : copyinfo) (timestamp rmode rsize : Z) : bool :=
  (rsize =? size ci) &&
  ((S_ISREG (Z.land (mode ci) rmode) && (timestamp =? time ci)) ||
   (S_ISLNK (Z.land (mode ci) rmode) && (time ci <=? timestamp))).

Fixpoint finish_all (cl : client F) (filelist : list copyinfo) : outcome (option (list copyinfo) * client F) :=
  match filelist with
  | [] => Done (Some [], cl)
  | ci :: filelist =>
      '(r, c) ← sync_finish_readtime (con cl);
      match r with
      | None => Done (None, with_con cl c)
      | Some (timestamp, rmode, rsize) =>
          let ci := if unchanged ci timestamp rmode rsize then set_flag ci else ci in
          '(r, cl) ← finish_all (with_con cl c) filelist;
          Done (option_map (cons ci) r, cl)
      end
  end.

(** The third loop; [pushed] and [skipped] are its counters. *)
Fixpoint push_all (zip : bytes -> bool) (listonly : bool) (cl : client F) (filelist : list copyinfo)
    (pushed skipped : Z) (log : list report) : outcome (Z * client F * list report) :=
  match filelist with
  | [] => Done (0, cl, log ++ [Pushed pushed skipped])
  | ci :: filelist =>
      if flag ci then push_all zip listonly cl filelist pushed (i32 (skipped + 1)) log
      else
        let log := log ++ [Push listonly (src ci) (dst ci)] in
        if listonly then push_all zip listonly cl filelist (i32 (pushed + 1)) skipped log
        else
          '(r, cl) ← sync_send zip cl (src ci) (dst ci) (time ci) (mode ci) false;
          if negb (r =? 0) then Done (1, cl, log)
          else push_all zip listonly cl filelist (i32 (pushed + 1)) skipped log
  end.

(** The comparison with the device; [None]: the copy returns 1. *)
Definition check_times (cl : client F) (filelist : list copyinfo) : outcome (option (list copyinfo) * client F) :=
  let '(ok, cl) := start_all cl filelist in
  if negb ok then Done (None, cl) else finish_all cl filelist.

Definition copy_local_dir_remote (zip : bytes -> bool) (cl : client F) (lpath rpath : bytes)
    (checktimestamps listonly : bool) (log : list report) : outcome (Z * client F * list report) :=
  if bool_decide (lpath = []) || bool_decide (rpath = []) then Done (-1, cl, log)
  else
    let lpath := with_slash lpath in
    let rpath := with_slash rpath in
    '(r, filelist, log) ← local_build_list list_fuel (files cl) lpath rpath [] log;
    if negb (r =? 0) then Done (-1, cl, log)
    else
      '(filelist, cl) ← (if checktimestamps : bool then check_times cl filelist else Done (Some filelist, cl));
      match filelist with
      | None => Done (1, cl, log)
      | Some filelist => push_all zip listonly cl filelist 0 0 log
      end.

(** adb_dirstop finds the last '/'. *)
Definition base_name (path : bytes) : bytes :=
  match strrchr 47 path with None => path | Some (_, name) => name end.

(** The path [dir]/[name] for a copy of a file to a directory. *)
Definition into_dir (dir name : bytes) : bytes :=
  snprintf (Z.of_nat (length name) + Z.of_nat (length dir) + 2) (dir ++ [47] ++ name).

(** [connection] is what adb_connect gave for the service sync:, [t] the time the
    copy takes. *)
Definition do_sync_push (zip : bytes -> bool) (f : F) (connection : option conn) (t : Z) (lpath rpath : bytes)
    (verifyApk : bool) : outcome (Z * option (client F) * list report) :=
  match connection with
  | None => Done (1, None, [ConnectError])
  | Some c =>
      let cl := mk_client f c 0 in
      match fs_stat f lpath with
      | None => Done (1, Some (sync_quit cl), [CannotStat lpath])
      | Some st =>
          if S_ISDIR st.1.1 then
            '(r, cl, log) ← copy_local_dir_remote zip cl lpath rpath false false [];
            if negb (r =? 0) then Done (1, Some cl, log)
            else Done (0, Some (sync_quit cl), log ++ END t (total_bytes cl))
          else
            '(m, c) ← sync_readmode (con cl) rpath;
            let cl := with_con cl c in
            match m with
            | None => Done (1, Some cl, [])
            | Some m =>
                let rpath := if negb (m =? 0) && S_ISDIR m then into_dir rpath (base_name lpath) else rpath in
                '(r, cl) ← sync_send zip cl lpath rpath (u32 st.2) st.1.1 verifyApk;
                if negb (r =? 0) then Done (1, Some cl, [])
                else Done (0, Some (sync_quit cl), END t (total_bytes cl))
            end
      end
  end.

Definition do_sync_sync (zip : bytes -> bool) (f : F) (connection : option conn) (t : Z) (lpath rpath : bytes)
    (listonly : bool) : outcome (Z * option (client F) * list report) :=
  match connection with
  | None => Done (1, None, [Syncing rpath; ConnectError])
  | Some c =>
      '(r, cl, log) ← copy_local_dir_remote zip (mk_client f c 0) lpath rpath true listonly [Syncing rpath];
      if negb (r =? 0) then Done (1, Some cl, log)
      else Done (0, Some (sync_quit cl), log ++ END t (total_bytes cl))
  end.

(** ** Pull *)

(** do_sync_ls_cb *)
Definition do_sync_ls_cb (e : Z * Z * Z * bytes) : report :=
  let '(m, s, t, name) := e in Entry m s t name.

Definition do_sync_ls (connection : option conn) (path : bytes) : outcome (Z * option conn * list report) :=
  match connection with
  | None => Done (1, None, [ConnectError])
  | Some c =>
      '(ok, entries, c) ← sync_ls c path;
      let log := map do_sync_ls_cb entries in
      if negb ok then Done (1, Some c, log)
      else let '(_, c) := writex c (msg2 ID_QUIT 0) in Done (0, Some c, log)
  end.

(** One entry of a listing: it goes to the directories, to the files or nowhere. *)
Definition sync_ls_build_list_cb (rpath lpath : bytes) (args : list copyinfo * list copyinfo * list report)
    (e : Z * Z * Z * bytes) : list copyinfo * list copyinfo * list report :=
  let '(dirlist, filelist, log) := args in
  let '(m, s, t, name) := e in
  if S_ISDIR m then
    if is_dots name then args else (mkcopyinfo rpath lpath name true :: dirlist, filelist, log)
  else if S_ISREG m || S_ISLNK m then
    (dirlist, stamped (mkcopyinfo rpath lpath name false) m s t :: filelist, log)
  else (dirlist, filelist, log ++ [SkippingSpecial name]).

(** The recursion over the directories that were found, here until one fails. *)
Fixpoint until_fails (visit : bytes -> bytes -> conn -> list copyinfo -> list report ->
      outcome (bool * conn * list copyinfo * list report))
    (dirlist : list copyinfo) (c : conn) (filelist : list copyinfo) (log : list report)
    : outcome (bool * conn * list copyinfo * list report) :=
  match dirlist with
  | [] => Done (true, c, filelist, log)
  | ci :: dirlist =>
      '(ok, c, filelist, log) ← visit (src ci) (dst ci) c filelist log;
      if negb ok then Done (false, c, filelist, log) else until_fails visit dirlist c filelist log
  end.

(** [true] is 0. *)
Fixpoint remote_build_list (fuel : nat) (rpath lpath : bytes) (c : conn) (filelist : list copyinfo) (log : list report)
    : outcome (bool * conn * list copyinfo * list report) :=
  match fuel with
  | O => Stop "fuel"
  | S fuel =>
      '(ok, entries, c) ← sync_ls c rpath;
      let '(dirlist, filelist, log) := foldl (sync_ls_build_list_cb rpath lpath) ([], filelist, log) entries in
      if negb ok then Done (false, c, filelist, log)
      else until_fails (remote_build_list fuel) dirlist c filelist log
  end.

(** sync_ls refuses a path of more than 1024 characters. *)
Definition remote_fuel : nat := Z.to_nat 1026.

(** No file is flagged here: the comparison of time stamps is compiled out. *)
Fixpoint pull_all (cl : client F) (filelist : list copyinfo) (pulled skipped : Z) (log : list report)
    : outcome (Z * client F * list report) :=
  match filelist with
  | [] => Done (0, cl, log ++ [Pulled pulled skipped])
  | ci :: filelist =>
      if flag ci then pull_all cl filelist pulled (i32 (skipped + 1)) log
      else
        let log := log ++ [Pull (src ci) (dst ci)] in
        '(r, cl) ← sync_recv cl (src ci) (dst ci);
        if negb (r =? 0) then Done (1, cl, log)
        else pull_all cl filelist (i32 (pulled + 1)) skipped log
  end.

Definition copy_remote_dir_local (cl : client F) (rpath lpath : bytes) (log : list report)
    : outcome (Z * client F * list report) :=
  if bool_decide (rpath = []) || bool_decide (lpath = []) then Done (-1, cl, log)
  else
    let rpath := with_slash rpath in
    let lpath := with_slash lpath in
    '(ok, c, filelist, log) ← remote_build_list remote_fuel rpath lpath (con cl) [] (log ++ [BuildingList]);
    let cl := with_con cl c in
    if negb ok then Done (-1, cl, log) else pull_all cl filelist 0 0 log.

Definition do_sync_pull (f : F) (connection : option conn) (t : Z) (rpath lpath : bytes)
    : outcome (Z * option (client F) * list report) :=
  match connection with
  | None => Done (1, None, [ConnectError])
  | Some c =>
      '(m, c) ← sync_readmode c rpath;
      let cl := mk_client f c 0 in
      match m with
      | None => Done (1, Some cl, [])
      | Some m =>
          if m =? 0 then Done (1, Some cl, [NoRemote rpath])
          else if S_ISREG m || S_ISLNK m || S_ISCHR m || S_ISBLK m then
            let lpath :=
              match fs_stat f lpath with
              | Some st => if S_ISDIR st.1.1 then into_dir lpath (base_name rpath) else lpath
              | None => lpath
              end in
            '(r, cl) ← sync_recv cl rpath lpath;
            if negb (r =? 0) then Done (1, Some cl, [])
            else Done (0, Some (sync_quit cl), END t (total_bytes cl))
          else if S_ISDIR m then
            '(r, cl, log) ← copy_remote_dir_local cl rpath lpath [];
            if negb (r =? 0) then Done (1, Some cl, log)
            else Done (0, Some (sync_quit cl), log ++ END t (total_bytes cl))
          else Done (1, Some cl, [NotFileOrDirectory rpath])
      end
  end.

End local.

(** ** Paths *)

Section paths.

Lemma snprintf_fits n s : Z.of_nat (length s) < n -> snprintf n s = s.
Proof. intros Hn. unfold snprintf. apply take_ge. lia. Qed.

Lemma mkcopyinfo_exact (s d n : bytes) (isdir : bool) (slash : bytes := if isdir then [47] else []) :
  mkcopyinfo s d n isdir = mk_copyinfo (s ++ n ++ slash) (d ++ n ++ slash) 0 0 0 false.
Proof.
  unfold mkcopyinfo. fold slash. assert (length slash <= 1)%nat by (unfold slash; destruct isdir; cbn; lia).
  rewrite !snprintf_fits by (rewrite !length_app; lia). done.
Qed.

Lemma with_slash_exact p : p <> [] -> with_slash p = p \/ with_slash p = p ++ [47].
Proof.
  intros _. unfold with_slash. destruct (negb _); [right|by left].
  apply snprintf_fits. rewrite length_app. cbn. lia.
Qed.

Lemma into_dir_exact d n : into_dir d n = d ++ [47] ++ n.
Proof. unfold into_dir. apply snprintf_fits. rewrite !length_app. cbn. lia. Qed.
End paths.

(** ** The recursions end *)

Section ending.
Context {F : Type} `{FileSystem F} `{StatFiles F}.

(** Directories that are found lie deeper, and their path still fits. *)
Definition below (bound : nat) (path : bytes) (ci : copyinfo) : Prop :=
  (length path < length (src ci) <= bound)%nat.

Definition scanned {A B C} (P : B -> Prop) (r : outcome (A * B * C * list report)) : Prop :=
  match r with Done (_, b, _, _) => P b | Undef w => w = "stat buffer never filled" | Stop _ => False end.

Lemma local_scan_below (f : F) lpath rpath names : forall st dl fl log,
  Forall (below (Z.to_nat PATH_MAX) lpath) dl ->
  scanned (Forall (below (Z.to_nat PATH_MAX) lpath)) (local_scan f lpath rpath names st dl fl log).
Proof.
  induction names as [|name names IH]; intros st dl fl log Hdl; cbn [local_scan]; [done|].
  destruct (is_dots name); [by apply IH|].
  destruct (Z.ltb_spec PATH_MAX (Z.of_nat (length lpath) + Z.of_nat (length name) + 1)); [by apply IH|].
  set (st' := match fs_stat f (lpath ++ name) with Some s => Some s | None => st end).
  destruct st' as [s|]; cbv [deref mbind outcome_bind]; cbv beta iota; [|done].
  destruct (S_ISDIR s.1.1).
  - apply IH. constructor; [|done]. rewrite mkcopyinfo_exact. unfold below. cbn. rewrite !length_app. cbn. lia.
  - destruct (fs_lstat f (src (mkcopyinfo lpath rpath name false))) as [s'|]; [|exact Hdl].
    destruct (negb _ && negb _); by apply IH.
Qed.

(** Neither fuel nor input is missing; the one undefined value is the stat buffer's. *)
Definition listed {A} (r : outcome A) : Prop :=
  match r with Done _ => True | Undef w => w = "stat buffer never filled" | Stop _ => False end.

Lemma listed_cases {A} (r : outcome A) : listed r -> (exists x, r = Done x) \/ r = Undef "stat buffer never filled".
Proof. destruct r as [x|w|w]; cbn; [eauto|done|intros ->; by right]. Qed.

Lemma each_dir_listed visit dl : forall fl log,
  (forall ci fl log, ci ∈ dl -> listed (visit (src ci) (dst ci) fl log)) -> listed (each_dir visit dl fl log).
Proof.
  induction dl as [|ci dl IH]; intros fl log Hv; cbn [each_dir]; [done|].
  pose proof (Hv ci fl log ltac:(apply list_elem_of_here)) as Hci.
  destruct (visit (src ci) (dst ci) fl log) as [[[r fl'] log']|w|w]; cbn in *; [|done|done].
  apply IH. intros ci' fl2 log2 Hin. apply Hv. by apply list_elem_of_further.
Qed.

Lemma local_build_list_listed (f : F) fuel : forall lpath rpath fl log,
  (Z.to_nat PATH_MAX - length lpath < fuel)%nat -> listed (local_build_list fuel f lpath rpath fl log).
Proof.
  induction fuel as [|fuel IH]; intros lpath rpath fl log Hf; [lia|]. cbn [local_build_list].
  destruct (fs_readdir f lpath) as [names|]; [|done].
  pose proof (local_scan_below f lpath rpath names None [] fl log ltac:(constructor)) as Hs.
  destruct (local_scan f lpath rpath names None [] fl log) as [[[[r dl] fl'] log']|w|w]; cbn in *; [|done|done].
  destruct (negb (r =? 0)); [done|].
  assert (listed (each_dir (local_build_list fuel f) dl fl' log')) as He.
  { apply each_dir_listed. intros ci fl2 log2 Hin. apply IH. rewrite Forall_forall in Hs.
    pose proof (Hs ci Hin) as Hb. unfold below in Hb. lia. }
  destruct (each_dir (local_build_list fuel f) dl fl' log') as [[fl2 log2]|w|w]; done.
Qed.

(** *** The same for the device's directories *)

(** The connection ends, it does not block. *)
Definition answered {A} (P : A -> Prop) (r : outcome A) : Prop :=
  match r with Done x => P x | Undef w => w = "buffer overrun" | Stop _ => False end.

Lemma readx_ends c n : eof c = true -> 0 < n ->
  match readx c n with
  | Done (Some _, c') => eof c' = true /\ (length (inp c') < length (inp c))%nat
  | Done (None, c') => eof c' = true
  | _ => False
  end.
Proof.
  intros He Hn. unfold readx. destruct (Z.leb_spec n (Z.of_nat (length (inp c)))); cbn.
  - split; [done|]. rewrite length_drop. lia.
  - by rewrite He.
Qed.

Lemma ls_loop_ends fuel : forall c acc, eof c = true -> (length (inp c) < fuel)%nat ->
  answered (fun x => eof x.2 = true) (ls_loop fuel c acc).
Proof.
  induction fuel as [|fuel IH]; intros c acc He Hf; [lia|]. cbn [ls_loop].
  pose proof (readx_ends c 20 He ltac:(lia)) as Hr. destruct (readx c 20) as [[[m|] c1]|w|w]; cbv [mbind outcome_bind]; cbv beta iota; [|exact Hr|done|done].
  destruct Hr as [He1 Hl1]. destruct (get 0 m =? ID_DONE); [exact He1|]. destruct (negb _); [exact He1|].
  destruct (256 <? i32 (get 4 m)); [exact He1|].
  unfold read_buf. destruct (257 <? _); [reflexivity|]. unfold readx.
  destruct (Z.leb_spec (u64 (i32 (get 4 m))) (Z.of_nat (length (inp c1)))); cbn.
  - apply IH; [done|]. cbn. rewrite length_drop. lia.
  - rewrite He1. done.
Qed.

Lemma writex2_keeps c a b : inp (writex2 c a b).2 = inp c /\ eof (writex2 c a b).2 = eof c.
Proof.
  unfold writex2, writex. repeat (case_match; cbn); simplify_eq; done.
Qed.

Lemma sync_ls_ends c path : eof c = true -> answered (fun x => eof x.2 = true) (sync_ls c path).
Proof.
  intros He. unfold sync_ls. destruct (1024 <? _); [done|].
  pose proof (writex2_keeps c (msg2 ID_LIST (Z.of_nat (length path))) path) as [_ Hk].
  destruct (writex2 c _ path) as [ok c1]. cbn in Hk. destruct (negb ok); [cbn; by rewrite Hk|].
  apply ls_loop_ends; [by rewrite Hk|lia].
Qed.

(** A path that is listed has at most 1024 characters. *)
Lemma sync_ls_long c path : (1024 < length path)%nat -> sync_ls c path = Done (false, [], adb_close c).
Proof. intros Hl. unfold sync_ls. by destruct (Z.ltb_spec 1024 (Z.of_nat (length path))); [|lia]. Qed.

Lemma cb_below rpath lpath es : forall args,
  Forall (fun ci => length rpath < length (src ci))%nat args.1.1 ->
  Forall (fun ci => length rpath < length (src ci))%nat (foldl (sync_ls_build_list_cb rpath lpath) args es).1.1.
Proof.
  induction es as [|[[[m s] t] name] es IH]; intros [[dl fl] log] Hdl; cbn [foldl]; [done|]. apply IH.
  unfold sync_ls_build_list_cb. destruct (S_ISDIR m).
  - destruct (is_dots name); [done|]. constructor; [|done]. rewrite mkcopyinfo_exact. cbn. rewrite !length_app. cbn. lia.
  - destruct (S_ISREG m || S_ISLNK m); done.
Qed.

Lemma until_fails_ends visit dl : forall c fl log, eof c = true ->
  (forall ci c fl log, ci ∈ dl -> eof c = true -> answered (fun x => eof x.1.1.2 = true) (visit (src ci) (dst ci) c fl log)) ->
  answered (fun x => eof x.1.1.2 = true) (until_fails visit dl c fl log).
Proof.
  induction dl as [|ci dl IH]; intros c fl log He Hv; cbn [until_fails]; [done|].
  pose proof (Hv ci c fl log ltac:(apply list_elem_of_here) He) as Hci.
  destruct (visit (src ci) (dst ci) c fl log) as [[[[ok c1] fl1] log1]|w|w]; cbn in *; [|done|done].
  destruct (negb ok); [done|]. apply IH; [done|]. intros ci' c2 fl2 log2 Hin. apply Hv. by apply list_elem_of_further.
Qed.

Lemma remote_build_list_ends fuel : forall rpath lpath c fl log, eof c = true -> (1025 - length rpath < fuel)%nat ->
  answered (fun x => eof x.1.1.2 = true) (remote_build_list fuel rpath lpath c fl log).
Proof.
  induction fuel as [|fuel IH]; intros rpath lpath c fl log He Hf; [lia|]. cbn [remote_build_list].
  destruct (decide (1024 < length rpath)%nat) as [Hlong|Hshort].
  { rewrite sync_ls_long by done. cbn. done. }
  pose proof (sync_ls_ends c rpath He) as Hs. destruct (sync_ls c rpath) as [[[ok es] c1]|w|w]; cbn in *; [|done|done].
  pose proof (cb_below rpath lpath es ([], fl, log) ltac:(constructor)) as Hb.
  destruct (foldl _ _ es) as [[dl fl1] log1]. cbn in Hb. destruct (negb ok); [done|].
  apply until_fails_ends; [done|]. intros ci c2 fl2 log2 Hin He2. apply IH; [done|].
  rewrite Forall_forall in Hb. pose proof (Hb ci Hin). cbn in *. lia.
Qed.
End ending.

(** ** What a directory holds *)

(** A directory tree: a file with its mode, size and time, or the entries of a
    directory. *)
Inductive node :=
  | File (m s t : Z)
  | Directory (l : list (bytes * node)).

Definition entry : Type := bytes * node.

(** What the commands copy of a tree that is called [name] in the directory
    [lp], and where to in [rp]: the regular files and the links. *)
Fixpoint node_files (lp rp name : bytes) (n : node) : list copyinfo :=
  match n with
  | File m s t =>
      if S_ISREG m || S_ISLNK m then [mk_copyinfo (lp ++ name) (rp ++ name) (u32 t) m (u32 s) false] else []
  | Directory l =>
      concat (map (fun x : entry => node_files (lp ++ name ++ [47]) (rp ++ name ++ [47]) x.1 x.2) l)
  end.
Definition tree_files (lp rp : bytes) (l : list entry) : list copyinfo :=
  concat (map (fun x => node_files lp rp x.1 x.2) l).

Section complete.
Context {F : Type} `{FileSystem F} `{StatFiles F}.

(** readdir gives the names, with "." and ".." among them, and their paths fit. *)
Definition names_at (f : F) (path : bytes) (names : list bytes) : Prop :=
  exists all, fs_readdir f path = Some all /\ filter (fun name => is_dots name = false) all = names /\
    Forall (fun name => Z.of_nat (length path) + Z.of_nat (length name) + 1 <= PATH_MAX) names.

Fixpoint node_at (f : F) (path name : bytes) (n : node) : Prop :=
  match n with
  | File m s t =>
      fs_lstat f (path ++ name) = Some (m, s, t) /\
      exists st, fs_stat f (path ++ name) = Some st /\ S_ISDIR st.1.1 = false
  | Directory l =>
      (exists st, fs_stat f (path ++ name) = Some st /\ S_ISDIR st.1.1 = true) /\
      names_at f (path ++ name ++ [47]) (map fst l) /\
      foldr (fun x P => node_at f (path ++ name ++ [47]) x.1 x.2 /\ P) True l
  end.
Definition tree_at (f : F) (path : bytes) (l : list entry) : Prop :=
  names_at f path (map fst l) /\ foldr (fun x P => node_at f path x.1 x.2 /\ P) True l.

Definition is_directory (x : entry) : bool := match x.2 with Directory _ => true | File _ _ _ => false end.
Definition subtree (x : entry) : list entry := match x.2 with Directory l => l | File _ _ _ => [] end.
Definition plain (l : list entry) : list entry := filter (fun x => is_directory x = false) l.
Definition subdirs (l : list entry) : list entry := filter (fun x => is_directory x = true) l.
Definition subfiles (lp rp : bytes) (x : entry) : list copyinfo :=
  tree_files (lp ++ x.1 ++ [47]) (rp ++ x.1 ++ [47]) (subtree x).

Lemma tree_files_cons lp rp x l : tree_files lp rp (x :: l) = node_files lp rp x.1 x.2 ++ tree_files lp rp l.
Proof. done. Qed.

Lemma tree_files_split lp rp l :
  tree_files lp rp l ≡ₚ tree_files lp rp (plain l) ++ concat (map (subfiles lp rp) (subdirs l)).
Proof.
  induction l as [|[name [m s t|l']] l IH]; [done| |]; unfold plain, subdirs; rewrite !filter_cons;
    rewrite tree_files_cons, IH; cbn [is_directory snd]; repeat case_decide; try done.
  - rewrite tree_files_cons. by rewrite <- app_assoc.
  - cbn [map concat]. change (subfiles lp rp (name, Directory l')) with (node_files lp rp name (Directory l')).
    cbn [fst snd]. fold (plain l) (subdirs l).
    rewrite !app_assoc. apply Permutation_app_tail, Permutation_app_comm.
Qed.

(** The loop over readdir sorts the entries of a tree. *)
Lemma local_scan_tree (f : F) lpath rpath names : forall l st dl fl log,
  filter (fun name => is_dots name = false) names = map fst l ->
  Forall (fun name => Z.of_nat (length lpath) + Z.of_nat (length name) + 1 <= PATH_MAX) (map fst l) ->
  foldr (fun x P => node_at f lpath x.1 x.2 /\ P) True l ->
  exists dl' fl' log', local_scan f lpath rpath names st dl fl log = Done (0, dl', fl', log') /\
    dl' ≡ₚ map (fun x : entry => mkcopyinfo lpath rpath x.1 true) (subdirs l) ++ dl /\
    fl' ≡ₚ tree_files lpath rpath (plain l) ++ fl.
Proof.
  induction names as [|name names IH]; intros l st dl fl log Hn Hlen Hat.
  { destruct l; [|done]. by eexists _, _, _. }
  cbn [local_scan]. rewrite filter_cons in Hn. case_decide as Hd.
  2:{ apply not_false_is_true in Hd. rewrite Hd. by apply IH. }
  rewrite Hd. destruct l as [|[name' n] l]; [done|]. cbn [map fst] in Hn, Hlen. injection Hn as <- Hn.
  apply Forall_cons in Hlen as [Hl Hlen]. destruct Hat as [Hx Hat]. cbn [fst snd] in Hx.
  destruct (Z.ltb_spec PATH_MAX (Z.of_nat (length lpath) + Z.of_nat (length name) + 1)); [lia|].
  unfold plain, subdirs. rewrite !filter_cons. cbn [is_directory snd]. destruct n as [m s t|l']; cbn [node_at] in Hx.
  - destruct Hx as (Hls & st' & -> & Hnd). cbv [deref mbind outcome_bind]. cbv beta iota. rewrite Hnd.
    rewrite mkcopyinfo_exact. cbv beta iota zeta. rewrite !app_nil_r. cbn [src]. rewrite Hls. cbn [fst snd].
    repeat (case_decide; try done). rewrite tree_files_cons. cbn [node_files fst snd].
    destruct (S_ISREG m), (S_ISLNK m); cbn [negb andb orb];
      edestruct (IH l (Some (m, s, t))) as (dl' & fl' & log' & E & Hdl & Hfl); try done;
      (eexists dl', fl', log'; split; [exact E|]; split; [exact Hdl|]; rewrite Hfl); try done.
    all: cbn [app]; symmetry; apply Permutation_middle.
  - destruct Hx as ((st' & -> & Hdir) & _). cbv [deref mbind outcome_bind]. cbv beta iota. rewrite Hdir.
    repeat (case_decide; try done).
    destruct (IH l (Some st') (mkcopyinfo lpath rpath name true :: dl) fl log Hn Hlen Hat) as (dl' & fl' & log' & E & Hdl & Hfl).
    exists dl', fl', log'. split; [exact E|]. split; [|exact Hfl]. rewrite Hdl. cbn [map fst app].
    symmetry. apply Permutation_middle.
Qed.

Lemma each_dir_tree visit (g : entry -> list copyinfo) lpath rpath xs : forall fl log,
  (forall x fl log, x ∈ xs -> exists fl' log',
     visit (lpath ++ x.1 ++ [47]) (rpath ++ x.1 ++ [47]) fl log = Done (0, fl', log') /\ fl' ≡ₚ g x ++ fl) ->
  exists fl' log', each_dir visit (map (fun x : entry => mkcopyinfo lpath rpath x.1 true) xs) fl log = Done (fl', log') /\
    fl' ≡ₚ concat (map g xs) ++ fl.
Proof.
  induction xs as [|x xs IH]; intros fl log Hv; cbn [map each_dir]; [by eexists _, _|].
  destruct (Hv x fl log ltac:(apply list_elem_of_here)) as (fl1 & log1 & E & Hp).
  rewrite mkcopyinfo_exact. cbn [src dst]. rewrite E. cbv [mbind outcome_bind]. cbv beta iota.
  destruct (IH fl1 log1) as (fl2 & log2 & E2 & Hp2).
  { intros y fl' log' Hy. apply Hv. by apply list_elem_of_further. }
  exists fl2, log2. split; [exact E2|]. rewrite Hp2, Hp. cbn [map concat]. rewrite <- app_assoc.
  apply Permutation_app_swap_app.
Qed.

Lemma in_subdirs x l (P : entry -> Prop) :
  x ∈ subdirs l -> foldr (fun x Q => P x /\ Q) True l -> exists l', x = (x.1, Directory l') /\ P x /\ x.1 ∈ map fst l.
Proof.
  intros Hx Hl. apply list_elem_of_filter in Hx as [Hd Hx]. revert Hd Hl. induction Hx as [x l|x y l Hx IH]; intros Hd [Hp Hl].
  - destruct x as [name [|l']]; [done|]. exists l'. split_and!; [done|done|]. cbn. apply list_elem_of_here.
  - destruct (IH Hd Hl) as (l' & E & Hp' & Hin). exists l'. split_and!; [done|done|]. cbn. by apply list_elem_of_further.
Qed.

Lemma local_build_list_tree (f : F) fuel : forall lpath rpath l fl log,
  (Z.to_nat PATH_MAX - length lpath < fuel)%nat -> tree_at f lpath l ->
  exists fl' log', local_build_list fuel f lpath rpath fl log = Done (0, fl', log') /\
    fl' ≡ₚ tree_files lpath rpath l ++ fl.
Proof.
  induction fuel as [|fuel IH]; intros lpath rpath l fl log Hf [(all & Hall & Hnames & Hlen) Hat]; [lia|].
  cbn [local_build_list]. rewrite Hall.
  destruct (local_scan_tree f lpath rpath all l None [] fl log Hnames Hlen Hat) as (dl & fl1 & log1 & E & Hdl & Hfl).
  rewrite E. cbv [mbind outcome_bind]. cbn [negb Z.eqb]. rewrite app_nil_r in Hdl.
  apply Permutation_map_inv in Hdl as (xs & -> & Hxs).
  destruct (each_dir_tree (local_build_list fuel f) (subfiles lpath rpath) lpath rpath xs fl1 log1)
    as (fl2 & log2 & E2 & Hfl2).
  { intros x fl' log' Hx. rewrite <- Hxs in Hx.
    destruct (in_subdirs x l (fun x => node_at f lpath x.1 x.2) Hx Hat) as (l' & Ex & Hn & Hin).
    rewrite Ex in Hn |- *. cbn [fst snd node_at] in Hn |- *. destruct Hn as (_ & Hsub).
    apply IH; [|exact Hsub]. rewrite Forall_forall in Hlen. specialize (Hlen _ Hin).
    rewrite !length_app. cbn [length]. lia. }
  rewrite E2. eexists _, _. split; [done|].
  rewrite Hfl2, Hfl, (tree_files_split lpath rpath l), Hxs.
  rewrite !app_assoc. apply Permutation_app_tail, Permutation_app_comm.
Qed.
End complete.

(** ** Different files have different targets *)

Section targets.

(** The names of a directory differ, and there is no '/' in them. *)
Fixpoint node_names (n : node) : Prop :=
  match n with
  | File _ _ _ => True
  | Directory l => NoDup (map fst l) /\ foldr (fun x P => (47 ∉ x.1) /\ node_names x.2 /\ P) True l
  end.
Definition tree_names (l : list entry) : Prop := node_names (Directory l).

Lemma node_induct (P : node -> Prop) :
  (forall m s t, P (File m s t)) -> (forall l, Forall (fun x : entry => P x.2) l -> P (Directory l)) -> forall n, P n.
Proof.
  intros Hf Hd. fix IH 1. intros [m s t|l]; [apply Hf|]. apply Hd.
  induction l as [|x l IHl]; constructor; [apply IH|exact IHl].
Qed.

(** Nothing, or a '/' and more. *)
Definition tail_path (r : bytes) : Prop := r = [] \/ exists r', r = 47 :: r'.

Lemma node_files_dst n : forall lp rp name ci, ci ∈ node_files lp rp name n ->
  exists r, dst ci = rp ++ name ++ r /\ tail_path r.
Proof.
  induction n as [m s t|l Hl] using node_induct; intros lp rp name ci Hin; cbn [node_files] in Hin.
  - destruct (S_ISREG m || S_ISLNK m); [|by apply not_elem_of_nil in Hin].
    apply list_elem_of_singleton in Hin as ->. exists []. cbn. rewrite app_nil_r. split; [done|by left].
  - induction Hl as [|[name' n'] l Hx _ IHl]; [by apply not_elem_of_nil in Hin|]. cbn in Hx.
    cbn [map concat fst snd] in Hin. apply elem_of_app in Hin as [Hin|Hin]; [|by apply IHl].
    destruct (Hx _ _ _ _ Hin) as (r & -> & _). exists (47 :: name' ++ r). split; [by rewrite <- !app_assoc|right; eauto].
Qed.

Lemma names_apart a b r r' : (47 ∉ a) -> (47 ∉ b) -> tail_path r -> tail_path r' -> a ++ r = b ++ r' -> a = b.
Proof.
  revert b. induction a as [|x a IH]; intros [|y b] Ha Hb Hr Hr' E; cbn in E; [done| | |].
  - destruct Hr as [->|(r1 & ->)]; [done|]. injection E as <- _. destruct Hb. apply list_elem_of_here.
  - destruct Hr' as [->|(r1 & ->)]; [done|]. injection E as -> _. destruct Ha. apply list_elem_of_here.
  - injection E as -> E. apply not_elem_of_cons in Ha as [_ Ha]. apply not_elem_of_cons in Hb as [_ Hb].
    by rewrite (IH b Ha Hb Hr Hr' E).
Qed.

Lemma in_tree_files lp rp l ci : ci ∈ tree_files lp rp l -> exists x, x ∈ l /\ ci ∈ node_files lp rp x.1 x.2.
Proof.
  unfold tree_files. induction l as [|x l IH]; cbn [map concat]; intros Hin; [by apply not_elem_of_nil in Hin|].
  apply elem_of_app in Hin as [Hin|Hin].
  - exists x. split; [apply list_elem_of_here|done].
  - destruct (IH Hin) as (y & Hy & Hc). exists y. split; [by apply list_elem_of_further|done].
Qed.

Lemma tree_files_nodup l : forall lp rp,
  NoDup (map fst l) -> (forall x, x ∈ l -> (47 ∉ x.1) /\ forall lp rp, NoDup (map dst (node_files lp rp x.1 x.2))) ->
  NoDup (map dst (tree_files lp rp l)).
Proof.
  induction l as [|x l IH]; intros lp rp Hnd Hx; [constructor|]. rewrite tree_files_cons, map_app.
  cbn [map] in Hnd. apply NoDup_cons in Hnd as [Hxl Hnd]. destruct (Hx x ltac:(apply list_elem_of_here)) as [Hs Hn].
  apply NoDup_app. split; [apply Hn|]. split.
  - intros d Hd Hd'. apply list_elem_of_fmap in Hd as (ci & -> & Hci). apply list_elem_of_fmap in Hd' as (ci' & E & Hci').
    apply in_tree_files in Hci' as (y & Hy & Hci').
    apply node_files_dst in Hci as (r & E1 & Hr). apply node_files_dst in Hci' as (r' & E2 & Hr').
    rewrite E1, E2 in E. apply app_inv_head in E.
    destruct (Hx y ltac:(by apply list_elem_of_further)) as [Hs' _].
    apply (names_apart _ _ r r' Hs Hs' Hr Hr') in E. apply Hxl. rewrite E. by apply list_elem_of_fmap_2.
  - apply IH; [done|]. intros y Hy. apply Hx. by apply list_elem_of_further.
Qed.

Lemma node_files_nodup n : forall lp rp name, node_names n -> NoDup (map dst (node_files lp rp name n)).
Proof.
  induction n as [m s t|l Hl] using node_induct; intros lp rp name Hok; cbn [node_files].
  - destruct (S_ISREG m || S_ISLNK m); [apply NoDup_singleton|constructor].
  - destruct Hok as [Hnd Hok]. change (concat _) with (tree_files (lp ++ name ++ [47]) (rp ++ name ++ [47]) l).
    apply tree_files_nodup; [done|]. clear Hnd. intros x Hx.
    induction Hx as [x l|x y l Hx IHx]; apply Forall_cons in Hl as [Hy Hl]; destruct Hok as (Hs & Hn & Hok).
    + split; [done|]. intros lp' rp'. by apply Hy.
    + by apply IHx.
Qed.

Lemma targets_differ lp rp l : tree_names l -> NoDup (map dst (tree_files lp rp l)).
Proof.
  intros [Hnd Hok]. apply tree_files_nodup; [done|]. clear Hnd. intros x Hx.
  induction Hx as [x l|x y l Hx IHx]; destruct Hok as (Hs & Hn & Hok); [|by apply IHx].
  split; [done|]. intros lp' rp'. by apply node_files_nodup.
Qed.
End targets.

(** ** The lists of files *)

Section lists.
Context {F : Type} `{FileSystem F} `{StatFiles F}.

(** Listing ends, whatever the directories look like: on the
    host even where links make them loop, because paths that do not fit are passed
    over, and on the device whatever it answers, because longer paths are
    refused and its answers are consumed.  The fuel is enough; besides a result there
    are only the two undefined behaviours, a stat buffer that was never filled and a name
    length that is negative as an int. *)
Theorem listings_end (f : F) lpath rpath fl log :
  ((exists x, local_build_list list_fuel f lpath rpath fl log = Done x) \/
   local_build_list list_fuel f lpath rpath fl log = Undef "stat buffer never filled") /\
  forall c, eof c = true ->
    (exists x, remote_build_list remote_fuel rpath lpath c fl log = Done x) \/
    remote_build_list remote_fuel rpath lpath c fl log = Undef "buffer overrun".
Proof.
  split.
  - apply listed_cases, local_build_list_listed. unfold list_fuel. lia.
  - intros c He. pose proof (remote_build_list_ends remote_fuel rpath lpath c fl log He ltac:(unfold remote_fuel; lia)) as Hr.
    destruct (remote_build_list remote_fuel rpath lpath c fl log) as [x|w|w]; cbn in Hr; [eauto|done|subst; by right].
Qed.

(** The list of a readable directory tree is complete and exact: every
    regular file and every link below it once, with its size, mode and time, its own
    path and its place under the target, and nothing else. *)
Theorem local_list_complete (f : F) lpath rpath l fl log :
  tree_at f lpath l ->
  exists fl' log', local_build_list list_fuel f lpath rpath fl log = Done (0, fl', log') /\
    fl' ≡ₚ tree_files lpath rpath l ++ fl.
Proof. intros Ht. apply local_build_list_tree; [unfold list_fuel; lia|done]. Qed.

(** A link to nothing as the first entry: the mode that is tested was never written. *)
Lemma dangling_link_first (f : F) fuel lpath rpath name names fl log :
  is_dots name = false -> Z.of_nat (length lpath) + Z.of_nat (length name) + 1 <= PATH_MAX ->
  fs_readdir f lpath = Some (name :: names) -> fs_stat f (lpath ++ name) = None ->
  local_build_list (S fuel) f lpath rpath fl log = Undef "stat buffer never filled".
Proof.
  intros Hd Hl Hr Hs. cbn [local_build_list]. rewrite Hr.
  cbn [local_scan]. rewrite Hd, Hs. by destruct (Z.ltb_spec PATH_MAX (Z.of_nat (length lpath) + Z.of_nat (length name) + 1)); [lia|].
Qed.

(** ... and behind a directory: the link is taken for a directory and dropped. *)
Lemma dangling_link_dropped (f : F) lpath rpath name names st dl fl log :
  is_dots name = false -> Z.of_nat (length lpath) + Z.of_nat (length name) + 1 <= PATH_MAX ->
  fs_stat f (lpath ++ name) = None -> S_ISDIR st.1.1 = true ->
  local_scan f lpath rpath (name :: names) (Some st) dl fl log =
  local_scan f lpath rpath names (Some st) (mkcopyinfo lpath rpath name true :: dl) fl log.
Proof.
  intros Hd Hl Hs Hst. cbn [local_scan]. rewrite Hd, Hs.
  destruct (Z.ltb_spec PATH_MAX (Z.of_nat (length lpath) + Z.of_nat (length name) + 1)); [lia|].
  cbv [deref mbind outcome_bind]. cbv beta iota. by rewrite Hst.
Qed.

(** What a recursive call returns is not looked at: a directory below that cannot be
    opened leaves its files out, and the list is a success all the same. *)
Lemma unreadable_directory_ignored (f : F) fuel lpath rpath name st fl log :
  is_dots name = false -> Z.of_nat (length lpath) + Z.of_nat (length name) + 1 <= PATH_MAX ->
  fs_readdir f lpath = Some [name] -> fs_stat f (lpath ++ name) = Some st -> S_ISDIR st.1.1 = true ->
  fs_readdir f (lpath ++ name ++ [47]) = None ->
  local_build_list (S (S fuel)) f lpath rpath fl log = Done (0, fl, log ++ [CannotOpen (lpath ++ name ++ [47])]).
Proof.
  intros Hd Hl Hr Hs Hst Hr2. cbn [local_build_list]. rewrite Hr. cbn [local_scan]. rewrite Hd, Hs.
  destruct (Z.ltb_spec PATH_MAX (Z.of_nat (length lpath) + Z.of_nat (length name) + 1)); [lia|].
  cbv [deref mbind outcome_bind]. cbv beta iota. rewrite Hst. cbn [negb Z.eqb each_dir].
  rewrite mkcopyinfo_exact. cbn [src dst]. rewrite Hr2. reflexivity.
Qed.

(** The test of the types is on the bits the two modes share: a link here and a
    regular file there of the same size and time count as unchanged. *)
Lemma link_taken_for_file :
  S_ISLNK 0xA1FF = true /\ S_ISREG 0x81A4 = true /\
  unchanged (mk_copyinfo (bs "l") (bs "r") 7 0xA1FF 3 false) 7 0x81A4 3 = true.
Proof. by vm_compute. Qed.

(** "." and ".." are not followed, but a file's name may lead out of the target. *)
Lemma remote_name_escapes rpath lpath s t log :
  sync_ls_build_list_cb rpath lpath ([], [], log) (0x81A4, s, t, bs "../x") =
  ([], [mk_copyinfo (rpath ++ bs "../x") (lpath ++ bs "../x") t 0x81A4 s false], log).
Proof. unfold sync_ls_build_list_cb. change (S_ISDIR 0x81A4) with false. change (S_ISREG 0x81A4) with true.
  cbn [orb]. rewrite mkcopyinfo_exact. cbv beta iota zeta. by rewrite !app_nil_r. Qed.
End lists.
