(* ===== verification/SyncPush.v ===== *)
(** * Pushing and syncing a directory against the device's service

    SyncDirs' copy_local_dir_remote on one end and FileSync's file_sync_service on
    the other: the requests are served one after the other, the STAT replies mark
    what need not be sent, and the files that are sent arrive, each in its place. *)

From S2P Require Import Prelude Io FileSync SyncDirs.

Import Wire Service Client.

(** ** The device *)

(** Requests for one path leave the files at others alone. *)
Class FileSystemFrame (F : Type) `{FileSystemLaws F} := {
  open_excl_frame f p m r f' q perm d :
    p <> q -> fs_open_excl f p m = (r, f') -> fs_regular f q perm d -> fs_regular f' q perm d;
  open_write_frame f p r f' q perm d :
    p <> q -> fs_open_write f p = (r, f') -> fs_regular f q perm d -> fs_regular f' q perm d;
  creat_frame f p m r f' q perm d :
    p <> q -> fs_creat f p m = (r, f') -> fs_regular f q perm d -> fs_regular f' q perm d;
  writex_frame f fd p perm' d' n b r f' q perm d :
    p <> q -> fs_writing f fd p perm' d' n -> fs_writex f fd b = (r, f') ->
    fs_regular f q perm d -> fs_regular f' q perm d;
  close_frame f fd q perm d : fs_regular f q perm d -> fs_regular (fs_close f fd) q perm d;
  unlink_frame f p q perm d : p <> q -> fs_regular f q perm d -> fs_regular (fs_unlink f p) q perm d;
  mkdir_frame f p m r f' q perm d : fs_mkdir f p m = (r, f') -> fs_regular f q perm d -> fs_regular f' q perm d;
  utime_frame f p t q perm d : p <> q -> fs_regular f q perm d -> fs_regular (fs_utime f p t) q perm d
}.

Create HintDb frame.
#[export] Hint Resolve open_excl_frame open_write_frame creat_frame writex_frame close_frame unlink_frame mkdir_frame utime_frame : frame.

Section device.
Context {F : Type} `{FileSystemFrame F}.

Lemma mkdirs_from_frame rest : forall f pre q perm d,
  fs_regular f q perm d -> fs_regular (mkdirs_from f pre rest).2 q perm d.
Proof.
  induction rest as [|ch rest IH]; intros f pre q perm d Hq; cbn [mkdirs_from]; [done|].
  destruct (ch =? 47); [|by apply IH].
  destruct (fs_mkdir f pre 0x1FD) as [[e|] f'] eqn:E; [case_decide|]; try apply IH; cbn [snd]; eauto with frame.
Qed.

Lemma mkdirs_frame f name q perm d : fs_regular f q perm d -> fs_regular (Service.mkdirs f name).2 q perm d.
Proof.
  intros Hq. unfold Service.mkdirs. destruct name as [|ch rest]; [done|].
  destruct (ch =? 47); [by apply mkdirs_from_frame|done].
Qed.

Lemma open_target_frame f p m r f' q perm d :
  p <> q -> open_target f p m = (r, f') -> fs_regular f q perm d -> fs_regular f' q perm d.
Proof.
  intros Hne E Hq. unfold open_target in E. destruct (fs_open_excl f p m) as [r1 f1] eqn:E1.
  assert (fs_regular f1 q perm d) as Hq1 by eauto with frame.
  assert (forall r2 f2, fs_regular f2 q perm d ->
    match r2 with inr EEXIST => fs_open_write f2 p | _ => (r2, f2) end = (r, f') -> fs_regular f' q perm d) as Hlast.
  { intros r2 f2 Hq2 E2. destruct r2 as [fd|[]]; simplify_eq; eauto with frame. }
  destruct r1 as [fd|[]]; try match type of E1 with _ = (?r1, _) => exact (Hlast r1 f1 Hq1 E) end.
  destruct (Service.mkdirs f1 p) as [b f2] eqn:Em. destruct (fs_open_excl f2 p m) as [r2 f3] eqn:E2.
  eapply (Hlast r2 f3); [|exact E]. eapply open_excl_frame; [done|exact E2|].
  change f2 with ((b, f2).2). rewrite <- Em. by apply mkdirs_frame.
Qed.

Lemma write_pieces_frame ds : forall f fd p perm' d' n r f' q perm d,
  p <> q -> fs_writing f fd p perm' d' n -> write_pieces f fd ds = (r, f') ->
  fs_regular f q perm d -> fs_regular f' q perm d.
Proof.
  induction ds as [|b ds IH]; intros f fd p perm' d' n r f' q perm d Hne Hw E Hq; cbn [write_pieces] in E; [by simplify_eq|].
  destruct (fs_writex f fd b) as [[e|] f1] eqn:Ew; [simplify_eq; eauto with frame|].
  eapply IH; [done|by eapply writex_at|exact E|eauto with frame].
Qed.
#[local] Hint Resolve write_pieces_frame : frame.

(** A push to [p] leaves the file at [q] alone. *)
Lemma push_file_frame f p m t ds q perm d :
  p <> q -> fs_regular f q perm d -> fs_regular (push_file f p m t ds).2 q perm d.
Proof.
  intros Hne Hq. unfold push_file. assert (fs_regular (fs_unlink f p) q perm d) as Hq0 by eauto with frame.
  destruct (open_target (fs_unlink f p) p (push_perm m)) as [[fd|e] f1] eqn:Eo; [|by eapply open_target_frame].
  assert (fs_regular f1 q perm d) as Hq1 by (by eapply open_target_frame).
  destruct (open_target_ok _ _ _ _ _ Eo) as (perm' & old & Hw & _).
  unfold store_pieces. destruct (write_pieces f1 fd ds) as [[e|] f2] eqn:E; cbn [snd]; eauto 6 with frame.
Qed.

(** *** Requests served one after the other *)

Inductive serves : F -> conn -> F -> conn -> Prop :=
  | serves_none f c : serves f c f c
  | serves_more f c f1 c1 f2 c2 :
      request f c = Done (true, f1, c1) -> (length (inp c1) < length (inp c))%nat ->
      serves f1 c1 f2 c2 -> serves f c f2 c2.

Lemma serves_trans f c f1 c1 f2 c2 : serves f c f1 c1 -> serves f1 c1 f2 c2 -> serves f c f2 c2.
Proof. intros Ha Hb. induction Ha; [done|]. econstructor; eauto. Qed.

Lemma serves_loop f c f' c' : serves f c f' c' -> forall fuel, (length (inp c) < fuel)%nat ->
  exists fuel', (length (inp c') < fuel')%nat /\ service_loop fuel f c = service_loop fuel' f' c'.
Proof.
  induction 1 as [f c|f c f1 c1 f2 c2 Hreq Hlt _ IH]; intros fuel Hf; [eauto|].
  destruct fuel as [|fuel]; [lia|]. destruct (IH fuel ltac:(lia)) as (fuel' & Hf' & E).
  exists fuel'. split; [done|]. cbn [service_loop]. rewrite Hreq. exact E.
Qed.

(** What the service says when the stream ends without a QUIT. *)
Definition read_failure : bytes := msg2 ID_FAIL 20 ++ bs "command read failure".

(** QUIT ends the service, and so does the end of the connection. *)
Lemma service_quit f c f' c' :
  serves f c f' c' -> inp c' = msg2 ID_QUIT 0 -> file_sync_service f c = Done (f', adb_close (with_inp c' [])).
Proof.
  intros Hs E. destruct (serves_loop _ _ _ _ Hs (S (length (inp c))) ltac:(lia)) as (fuel & Hf & Hrun).
  unfold file_sync_service. rewrite Hrun. destruct fuel as [|fuel]; [lia|]. cbn [service_loop]. unfold request.
  rewrite (readx_app c' 8 (msg2 ID_QUIT 0) []) by (by rewrite ?app_nil_r). by destruct c'.
Qed.
Lemma service_eof f c f' c' :
  serves f c f' c' -> inp c' = [] -> eof c' = true -> room c' = None ->
  file_sync_service f c = Done (f', adb_close (sends c' read_failure)).
Proof.
  intros Hs E He Hr. destruct (serves_loop _ _ _ _ Hs (S (length (inp c))) ltac:(lia)) as (fuel & Hf & Hrun).
  unfold file_sync_service. rewrite Hrun. destruct fuel as [|fuel]; [lia|]. cbn [service_loop].
  unfold request. assert (readx c' 8 = Done (None, c')) as ->.
  { unfold readx. rewrite E, He. cbn. destruct c'. cbn in *. by subst. }
  cbv [mbind outcome_bind]. unfold fail_message. by rewrite writex2_room by done.
Qed.
End device.

(** ** A directory is pushed *)

Section pushing.
Context {F L : Type} `{FileSystemFrame F} `{FileSystem L} `{StatFiles L}.
Variable zip : bytes -> bool.

(** A regular file that the client can read, with a target the protocol carries. *)
Record sendable (lf : L) (ci : copyinfo) (data : bytes) : Prop := {
  send_regular : S_ISREG (mode ci) = true;
  send_mode : 0 < mode ci < 2 ^ 31;
  send_time : is_u32 (time ci);
  send_text : no_nul (dst ci);
  send_short : (length (dst ci) + S (length (decimal (mode ci))) <= 1024)%nat;
  send_source : exists s, fs_open_read lf (src ci) = inl s /\ deliver s = (data, Broken)
}.

(** What one end sends and what the other answers: the client ran on the replies,
    the service on the stream. *)
Definition client_run (lf : L) (stream replies : bytes) (r : Z) (run : client L -> outcome (Z * client L)) : Prop :=
  forall cl rest, files cl = lf -> room (con cl) = None -> inp (con cl) = replies ++ rest ->
    exists tb, run cl = Done (r, mk_client lf (sends (with_inp (con cl) rest) stream) tb).
Definition service_run (f f' : F) (stream replies : bytes) : Prop :=
  forall c rest, room c = None -> inp c = stream ++ rest -> serves f c f' (sends (with_inp c rest) replies).

Definition push_stream (ci : copyinfo) (ds : list bytes) : bytes :=
  push_header (dst ci) (mode ci) ++ chunks ds ++ msg2 ID_DONE (time ci).
Definition push_one (f : F) (ci : copyinfo) (ds : list bytes) : option errno * F :=
  push_file f (dst ci) (mode ci) (time ci) ds.

Lemma one_push_of (lf : L) ci verify data :
  S_ISREG (mode ci) = true -> 0 < mode ci < 2 ^ 31 -> is_u32 (time ci) -> no_nul (dst ci) ->
  (length (dst ci) + S (length (decimal (mode ci))) <= 1024)%nat -> source zip lf (src ci) verify data ->
  exists ds, concat ds = data /\ Forall fits ds /\ (verify = true -> ds = packets (length data) data) /\ forall f : F,
    client_run lf (push_stream ci ds) (answer (F:=F) (push_one f ci ds).1) (status (push_one f ci ds).1)
      (fun cl => sync_send zip cl (src ci) (dst ci) (time ci) (mode ci) verify) /\
    service_run f (push_one f ci ds).2 (push_stream ci ds) (answer (F:=F) (push_one f ci ds).1).
Proof.
  intros Hreg Hm Ht Hnul Hlen Hsrc.
  destruct (sync_send_stream zip lf (src ci) (dst ci) (time ci) (mode ci) verify data ltac:(lia) Hm Hreg Hsrc)
    as (ds & Hds & Hfit & Hpk & Hsend).
  exists ds. split; [done|]. split; [done|]. split; [done|]. intros f. unfold push_one.
  pose proof (fun c rest => request_push f (dst ci) (mode ci) (time ci) ds c rest Hnul Hlen Hm Hreg Ht Hfit) as Hreq.
  destruct (push_file f (dst ci) (mode ci) (time ci) ds) as [r f']. cbn [fst snd] in *. split.
  - intros cl rest Hl Hr E. destruct (Hsend cl Hl Hr) as (tb & ->). exists tb.
    rewrite (read_status_answer (F:=F) _ _ r rest) by done.
    unfold moved, with_con, with_inp, sends. cbn. by rewrite Hl.
  - intros c rest Hr E. eapply serves_more; [apply (Hreq c rest Hr)| |constructor].
    + rewrite E. unfold push_stream, push_header. by rewrite <- !app_assoc.
    + cbn [inp sends with_inp]. rewrite E, length_app. unfold push_stream, push_header. rewrite !length_app, length_msg2. lia.
Qed.

Lemma one_push (lf : L) ci data :
  sendable lf ci data ->
  exists ds, concat ds = data /\ Forall fits ds /\ forall f : F,
    client_run lf (push_stream ci ds) (answer (F:=F) (push_one f ci ds).1) (status (push_one f ci ds).1)
      (fun cl => sync_send zip cl (src ci) (dst ci) (time ci) (mode ci) false) /\
    service_run f (push_one f ci ds).2 (push_stream ci ds) (answer (F:=F) (push_one f ci ds).1).
Proof.
  intros [Hreg Hm Ht Hnul Hlen Hsrc]. destruct (one_push_of lf ci false data Hreg Hm Ht Hnul Hlen Hsrc) as (ds & ? & ? & _ & ?).
  by exists ds.
Qed.

(** *** Many pushes, one after the other, up to the first that fails *)

(** What became of the files, what was sent and answered, and which push failed. *)
Record transfer := { t_files : F; t_stream : bytes; t_replies : bytes; t_error : option (copyinfo * errno) }.

Fixpoint push_files (f : F) (l : list (copyinfo * list bytes)) : transfer :=
  match l with
  | [] => {| t_files := f; t_stream := []; t_replies := []; t_error := None |}
  | (ci, ds) :: l =>
      match push_one f ci ds with
      | (Some e, f1) => {| t_files := f1; t_stream := push_stream ci ds; t_replies := refusal (F:=F) e; t_error := Some (ci, e) |}
      | (None, f1) =>
          let t := push_files f1 l in
          {| t_files := t_files t; t_stream := push_stream ci ds ++ t_stream t;
             t_replies := msg2 ID_OKAY 0 ++ t_replies t; t_error := t_error t |}
      end
  end.
(** The value of the command. *)
Definition code (t : transfer) : Z := match t_error t with None => 0 | Some _ => 1 end.

(** The files with the pieces their data are cut into. *)
Definition cut (data : copyinfo -> bytes) (l : list (copyinfo * list bytes)) : Prop :=
  Forall (fun x => concat x.2 = data x.1 /\ Forall fits x.2) l.

(** Every file is where it belongs, as it was stored in the state that the pushes before
    it had left, and what lies elsewhere is as before. *)
Definition all_stored (f : F) (data : copyinfo -> bytes) (l : list (copyinfo * list bytes)) : Prop :=
  (forall l1 ci ds l2, l = l1 ++ (ci, ds) :: l2 ->
     stored (t_files (push_files f l1)) (t_files (push_files f l)) (dst ci) (mode ci) (data ci)) /\
  (forall q perm d, (q ∉ map dst l.*1) -> fs_regular f q perm d -> fs_regular (t_files (push_files f l)) q perm d).

Lemma push_files_frame l : forall f q perm d,
  (q ∉ map dst l.*1) -> fs_regular f q perm d -> fs_regular (t_files (push_files f l)) q perm d.
Proof.
  induction l as [|[ci ds] l IH]; intros f q perm d Hq Hf; [done|]. cbn [map fmap list_fmap fst] in Hq.
  apply not_elem_of_cons in Hq as [Hne Hq]. pose proof (push_file_frame f (dst ci) (mode ci) (time ci) ds q perm d ltac:(congruence) Hf) as Hf1.
  cbn [push_files]. unfold push_one. destruct (push_file f (dst ci) (mode ci) (time ci) ds) as [[e|] f1]; [done|].
  by apply IH.
Qed.

Lemma push_files_stored data l : forall f,
  cut data l -> NoDup (map dst l.*1) -> t_error (push_files f l) = None -> all_stored f data l.
Proof.
  intros f Hcut Hnd Herr. split; [|intros q perm d; apply push_files_frame].
  revert f Hcut Hnd Herr. induction l as [|[ci ds] l IH]; intros f Hcut Hnd Herr l1 cj dj l2 E; [by destruct l1|].
  apply Forall_cons in Hcut as [[Hds _] Hcut]. cbn [fst snd] in Hds. cbn [map fmap list_fmap fst] in Hnd. apply NoDup_cons in Hnd as [Hnin Hnd].
  cbn [push_files] in *. destruct (push_one f ci ds) as [[e|] f1] eqn:Ep; [done|]. cbn [t_error] in Herr.
  destruct l1 as [|x l1]; cbn [app] in E.
  - injection E as <- <- _. cbn [push_files t_files]. destruct (push_file_stored _ _ _ _ _ _ Ep) as (perm & old & Hreg & Hop).
    exists perm, old. rewrite <- Hds. split; [|done]. by apply push_files_frame.
  - injection E as <- E2. cbn [push_files]. rewrite Ep. cbn [t_files]. by apply (IH f1 Hcut Hnd Herr l1 cj dj l2).
Qed.

(** The files that are sent, and what is said about them. *)
Definition todo (fl : list copyinfo) : list copyinfo := filter (fun ci => flag ci = false) fl.
Definition said (listonly : bool) (fl : list copyinfo) : list report :=
  map (fun ci => Push listonly (src ci) (dst ci)) (todo fl).
Definition summary (pushed skipped : Z) (fl : list copyinfo) : report :=
  Pushed (i32 (pushed + Z.of_nat (length (todo fl)))) (i32 (skipped + Z.of_nat (length fl - length (todo fl))%nat)).

Lemma length_todo fl : (length (todo fl) <= length fl)%nat.
Proof. apply length_filter. Qed.

Lemma todo_flagged ci fl : flag ci = true -> todo (ci :: fl) = todo fl.
Proof. intros E. unfold todo. rewrite filter_cons. case_decide; congruence. Qed.
Lemma todo_unflagged ci fl : flag ci = false -> todo (ci :: fl) = ci :: todo fl.
Proof. intros E. unfold todo. rewrite filter_cons. case_decide; congruence. Qed.

Lemma i32_add_l a b : i32 (i32 a + b) = i32 (a + b).
Proof.
  unfold i32. f_equal. replace (((a + 2 ^ 31) mod 2 ^ 32 - 2 ^ 31) + b + 2 ^ 31) with ((a + 2 ^ 31) mod 2 ^ 32 + b) by lia.
  rewrite Zplus_mod_idemp_l. f_equal. lia.
Qed.
Lemma i32_idem a : i32 (i32 a) = i32 a.
Proof. replace (i32 (i32 a)) with (i32 (i32 a + 0)) by (f_equal; lia). rewrite i32_add_l. f_equal. lia. Qed.

Lemma summary_nil pushed skipped : i32 pushed = pushed -> i32 skipped = skipped ->
  summary pushed skipped [] = Pushed pushed skipped.
Proof. intros Hp Hs. unfold summary. cbn. by rewrite !Z.add_0_r, Hp, Hs. Qed.
Lemma summary_sent pushed skipped ci fl : flag ci = false ->
  summary (i32 (pushed + 1)) skipped fl = summary pushed skipped (ci :: fl).
Proof.
  intros E. unfold summary. rewrite todo_unflagged, i32_add_l by done. cbn [length]. do 2 f_equal; lia.
Qed.
Lemma summary_skipped pushed skipped ci fl : flag ci = true ->
  summary pushed (i32 (skipped + 1)) fl = summary pushed skipped (ci :: fl).
Proof.
  intros E. unfold summary. rewrite todo_flagged, i32_add_l by done. cbn [length]. pose proof (length_todo fl).
  do 2 f_equal; lia.
Qed.

Lemma with_inp_same c : with_inp c (inp c) = c.
Proof. by destruct c. Qed.

Lemma sends_sends_inp c s1 s2 i1 i2 : sends (with_inp (sends (with_inp c i1) s1) i2) s2 = sends (with_inp c i2) (s1 ++ s2).
Proof. unfold sends, with_inp. cbn. by rewrite app_assoc. Qed.

Lemma service_run_app f f1 f2 s1 s2 p1 p2 :
  service_run f f1 s1 p1 -> service_run f1 f2 s2 p2 -> service_run f f2 (s1 ++ s2) (p1 ++ p2).
Proof.
  intros Ha Hb c rest Hr E. rewrite <- app_assoc in E. eapply serves_trans; [by apply (Ha c (s2 ++ rest))|].
  rewrite <- (sends_sends_inp c p1 p2 (s2 ++ rest) rest). by apply Hb.
Qed.

(** The whole loop against the service: it sends the files until one is refused. *)
Lemma push_all_served (lf : L) (data : copyinfo -> bytes) fl :
  Forall (fun ci => sendable lf ci (data ci)) (todo fl) ->
  exists l, l.*1 = todo fl /\ cut data l /\ forall (f : F) pushed skipped log (t := push_files f l),
    i32 pushed = pushed -> i32 skipped = skipped ->
    service_run f (t_files t) (t_stream t) (t_replies t) /\
    exists log', (t_error t = None -> log' = log ++ said false fl ++ [summary pushed skipped fl]) /\
      forall cl rest, files cl = lf -> room (con cl) = None -> inp (con cl) = t_replies t ++ rest ->
        exists tb, push_all zip false cl fl pushed skipped log =
          Done (code t, mk_client lf (sends (with_inp (con cl) rest) (t_stream t)) tb, log').
Proof.
  induction fl as [|ci fl IH]; intros Hsend.
  { exists []. split; [done|]. split; [constructor|]. intros f pushed skipped log t Hp Hs. split.
    - intros c rest Hr E. cbn in E. cbn [t t_files t_stream t_replies push_files]. rewrite sends_nil, <- E, with_inp_same. constructor.
    - exists (log ++ [summary pushed skipped []]). split; [done|]. intros cl rest Hl Hr E. exists (total_bytes cl). cbn [push_all].
      rewrite summary_nil by done. cbn in E. cbn [t t_stream push_files]. rewrite sends_nil, <- E, with_inp_same, <- Hl. by destruct cl. }
  destruct (flag ci) eqn:Efl.
  { rewrite todo_flagged in Hsend by done. destruct (IH Hsend) as (l & Hl & Hcut & Hrun).
    exists l. rewrite todo_flagged by done. split; [done|]. split; [done|]. intros f pushed skipped log t Hp Hs.
    destruct (Hrun f pushed (i32 (skipped + 1)) log Hp (i32_idem _)) as (Hserve & log' & Hlog & Hcl).
    split; [exact Hserve|]. exists log'. cbn [push_all]. rewrite Efl. split; [|exact Hcl].
    rewrite (summary_skipped pushed skipped ci fl Efl) in Hlog. unfold said in *. by rewrite todo_flagged. }
  rewrite todo_unflagged in Hsend |- * by done. apply Forall_cons in Hsend as [Hci Hsend].
  destruct (one_push lf ci (data ci) Hci) as (ds & Hds & Hfit & Hone). destruct (IH Hsend) as (l & Hl & Hcut & Hrun).
  exists ((ci, ds) :: l). split; [by cbn; rewrite <- Hl|]. split; [by constructor|].
  intros f pushed skipped log t Hp Hs. subst t. cbn [push_files]. destruct (Hone f) as [Hcl1 Hserve1].
  destruct (push_one f ci ds) as [[e|] f1]; cbn [fst snd answer status] in Hcl1, Hserve1.
  { split; [exact Hserve1|]. exists (log ++ [Push false (src ci) (dst ci)]). split; [done|]. intros cl rest Hlf Hr E. cbn [push_all]. rewrite Efl.
    destruct (Hcl1 cl rest Hlf Hr E) as (tb & ->). by exists tb. }
  destruct (Hrun f1 (i32 (pushed + 1)) skipped (log ++ [Push false (src ci) (dst ci)]) (i32_idem _) Hs) as (Hserve2 & log' & Hlog & Hcl2).
  cbn [t_files t_stream t_replies t_error]. split; [by eapply service_run_app|].
  exists log'. split.
  - intros Herr. rewrite (Hlog Herr), (summary_sent pushed skipped ci fl Efl). unfold said. rewrite todo_unflagged by done.
    by rewrite <- app_assoc.
  - intros cl rest Hlf Hr E. rewrite <- app_assoc in E. cbn [push_all]. rewrite Efl.
    destruct (Hcl1 cl _ Hlf Hr E) as (tb & ->). cbv [mbind outcome_bind]. cbn [negb Z.eqb].
    destruct (Hcl2 (mk_client lf (sends (with_inp (con cl) (t_replies (push_files f1 l) ++ rest)) (push_stream ci ds)) tb) rest eq_refl Hr eq_refl)
      as (tb2 & ->).
    exists tb2. cbn [con]. by rewrite sends_sends_inp.
Qed.

(** *** The comparison with the device *)

(** What a STAT reply says of the file at [p]. *)
Definition device_stat (f : F) (p : bytes) : Z * Z * Z :=
  match fs_lstat f p with None => (0, 0, 0) | Some (m, s, t) => (u32 m, u32 s, u32 t) end.
(** The device has the file: of the same size, and a regular file of the same time or
    a link that is not older. *)
Definition same_on (f : F) (ci : copyinfo) : bool :=
  let '(m, s, t) := device_stat f (dst ci) in
  bool_decide (s = size ci /\ (S_ISREG (Z.land (mode ci) m) = true /\ t = time ci \/
                               S_ISLNK (Z.land (mode ci) m) = true /\ time ci <= t)).
Lemma same_on_unchanged f ci m s t : device_stat f (dst ci) = (m, s, t) -> same_on f ci = unchanged ci t m s.
Proof.
  intros E. unfold same_on, unchanged. rewrite E.
  apply eq_true_iff_eq. rewrite bool_decide_eq_true, andb_true_iff, orb_true_iff, !andb_true_iff, !Z.eqb_eq, Z.leb_le. done.
Qed.
Definition mark (f : F) (ci : copyinfo) : copyinfo := if same_on f ci then set_flag ci else ci.

Definition stat_stream (fl : list copyinfo) : bytes :=
  concat (map (fun ci => msg2 ID_STAT (Z.of_nat (length (dst ci))) ++ dst ci) fl).
Definition stat_reply (f : F) (ci : copyinfo) : bytes :=
  let '(m, s, t) := device_stat f (dst ci) in msg_stat m s t.
Definition stat_replies (f : F) (fl : list copyinfo) : bytes := concat (map (stat_reply f) fl).

Lemma word_u32 w : word (u32 w) = word w.
Proof.
  unfold word. pose proof (le_combine_split 4 w) as E. change (2 ^ (8 * Z.of_nat 4)) with (2 ^ 32) in E. fold (u32 w) in E.
  rewrite <- E. apply (le_split_combine (le_split 4 w)), le_split_bytes.
Qed.

Lemma start_all_sends (cl : client L) fl :
  room (con cl) = None -> start_all cl fl = (true, with_con cl (sends (con cl) (stat_stream fl))).
Proof.
  revert cl. induction fl as [|ci fl IH]; intros cl Hr; cbn [start_all].
  - change (stat_stream []) with ([] : bytes). rewrite sends_nil. by destruct cl.
  - unfold sync_start_readtime. rewrite writex2_room by done. rewrite IH by done.
    unfold with_con, sends. cbn. by rewrite <- app_assoc.
Qed.

Lemma length_stat_reply f ci : length (stat_reply f ci) = 16%nat.
Proof. unfold stat_reply. by destruct (device_stat f (dst ci)) as [[m s] t]. Qed.

Lemma device_stat_words f p : is_u32 (device_stat f p).1.1 /\ is_u32 (device_stat f p).1.2 /\ is_u32 (device_stat f p).2.
Proof. unfold device_stat. destruct (fs_lstat f p) as [[[m s] t]|]; cbn; auto with word. split_and!; by_compute. Qed.

Lemma get_stat f ci m s t : device_stat f (dst ci) = (m, s, t) ->
  get 0 (stat_reply f ci) = ID_STAT /\ get 1 (stat_reply f ci) = m /\ get 2 (stat_reply f ci) = s /\ get 3 (stat_reply f ci) = t.
Proof.
  intros E. pose proof (device_stat_words f (dst ci)) as (Hm & Hs & Ht). unfold stat_reply. rewrite E in *. cbn in Hm, Hs, Ht.
  unfold msg_stat. split_and!.
  - by apply (get_word 0 _ _ (word m ++ word s ++ word t)).
  - by apply (get_word 1 _ _ (word s ++ word t)).
  - by apply (get_word 2 _ _ (word t)).
  - apply (get_word 3 _ _ []); [done|]. by rewrite app_nil_r.
Qed.

Lemma finish_all_marks (f : F) fl : forall (cl : client L) rest,
  inp (con cl) = stat_replies f fl ++ rest ->
  finish_all cl fl = Done (Some (map (mark f) fl), with_con cl (with_inp (con cl) rest)).
Proof.
  induction fl as [|ci fl IH]; intros cl rest E; cbn [finish_all map].
  - cbn in E. destruct cl as [fs [i e o rm k] tb]. cbn in *. by subst.
  - change (stat_replies f (ci :: fl)) with (stat_reply f ci ++ stat_replies f fl) in E. rewrite <- app_assoc in E.
    unfold sync_finish_readtime. rewrite (readx_app _ 16 _ _ E) by (by rewrite length_stat_reply).
    cbv [mbind outcome_bind]. cbv beta iota.
    destruct (device_stat f (dst ci)) as [[m s] t] eqn:Ed. destruct (get_stat f ci m s t Ed) as (-> & -> & -> & ->).
    rewrite Z.eqb_refl. rewrite (IH _ rest) by done. cbn [option_map]. unfold mark. by rewrite (same_on_unchanged _ _ _ _ _ Ed).
Qed.

Lemma check_times_marks (f : F) fl (cl : client L) rest :
  room (con cl) = None -> inp (con cl) = stat_replies f fl ++ rest ->
  check_times cl fl = Done (Some (map (mark f) fl), with_con cl (sends (with_inp (con cl) rest) (stat_stream fl))).
Proof.
  intros Hr E. unfold check_times. rewrite start_all_sends by done. cbn [negb].
  by rewrite (finish_all_marks f fl _ rest) by done.
Qed.

Lemma request_stat (f : F) p c rest :
  no_nul p -> (length p <= 1024)%nat -> room c = None ->
  inp c = (msg2 ID_STAT (Z.of_nat (length p)) ++ p) ++ rest ->
  request f c = Done (true, f, sends (with_inp c rest) (let '(m, s, t) := device_stat f p in msg_stat m s t)).
Proof.
  intros Hnul Hl Hr E. rewrite <- app_assoc in E. unfold request. rewrite (readx_app c 8 _ _ E) by done.
  cbv [mbind outcome_bind]. cbv beta iota zeta. rewrite get0_msg2 by done. rewrite get1_msg2 by (unfold is_u32; lia).
  destruct (Z.ltb_spec 1024 (Z.of_nat (length p))); [lia|].
  rewrite (read_buf_app 1025 (with_inp c (p ++ rest)) _ p rest) by (done || lia).
  cbv beta iota. rewrite (until_nul_id p Hnul). change (ID_STAT =? ID_STAT) with true. cbv iota. unfold do_stat.
  rewrite writex_room by done. unfold device_stat. destruct (fs_lstat f p) as [[[m s] t]|]; [|done].
  unfold msg_stat. by rewrite !word_u32.
Qed.

Lemma stats_served (f : F) fl :
  Forall (fun ci => no_nul (dst ci) /\ (length (dst ci) <= 1024)%nat) fl ->
  service_run f f (stat_stream fl) (stat_replies f fl).
Proof.
  induction 1 as [|ci fl [Hn Hl] _ IH]; intros c rest Hr E.
  - cbn in E. change (stat_replies f []) with ([] : bytes). rewrite sends_nil.
    assert (with_inp c rest = c) as -> by (destruct c; cbn in *; by subst). constructor.
  - change (stat_stream (ci :: fl)) with ((msg2 ID_STAT (Z.of_nat (length (dst ci))) ++ dst ci) ++ stat_stream fl) in E.
    rewrite <- (app_assoc (_ ++ _)) in E. eapply serves_more; [by apply request_stat| |].
    + cbn [inp sends with_inp]. rewrite E, !length_app, length_msg2. lia.
    + pose proof (IH (sends (with_inp c (stat_stream fl ++ rest)) (stat_reply f ci)) rest Hr eq_refl) as Hs.
      replace (sends (with_inp c rest) (stat_replies f (ci :: fl))) with
        (sends (with_inp (sends (with_inp c (stat_stream fl ++ rest)) (stat_reply f ci)) rest) (stat_replies f fl)); [done|].
      unfold sends, with_inp. cbn. by rewrite <- app_assoc.
Qed.
(** *** The whole copy *)

Lemma tree_files_unflagged lp rp l : Forall (fun ci => flag ci = false) (tree_files lp rp l).
Proof.
  rewrite Forall_forall. intros ci Hci. apply in_tree_files in Hci as ([name n] & _ & Hci). cbn [fst snd] in Hci.
  revert lp rp name Hci. induction n as [m s t|l' Hl] using node_induct; intros lp rp name Hci; cbn [node_files] in Hci.
  - destruct (S_ISREG m || S_ISLNK m); [|by apply not_elem_of_nil in Hci]. by apply list_elem_of_singleton in Hci as ->.
  - apply in_tree_files in Hci as (x & Hx & Hci). rewrite Forall_forall in Hl. by eapply Hl.
Qed.

(** The files that are sent: with the comparison those that differ. *)
Definition to_send (check : bool) (f : F) (fl : list copyinfo) : list copyinfo :=
  filter (fun ci => check && same_on f ci = false) fl.

Lemma todo_to_send check f fl : Forall (fun ci => flag ci = false) fl ->
  todo (if check : bool then map (mark f) fl else fl) = to_send check f fl.
Proof.
  unfold todo, to_send. induction 1 as [|ci fl Hci _ IH]; destruct check; cbn [map] in *; try done.
  - rewrite !filter_cons, IH. unfold mark. cbn [andb]. destruct (same_on f ci); cbn [flag set_flag];
      repeat case_decide; congruence.
  - rewrite !filter_cons, IH. cbn [andb]. repeat case_decide; congruence.
Qed.

Lemma said_to_send check lo f fl : Forall (fun ci => flag ci = false) fl ->
  said lo (if check : bool then map (mark f) fl else fl) = map (fun ci => Push lo (src ci) (dst ci)) (to_send check f fl).
Proof. intros Hfl. unfold said. by rewrite todo_to_send. Qed.

(** A tree on the host that can be sent: [data] are its files' contents. *)
Record host_tree (lf : L) (lpath rpath : bytes) (l : list entry) (data : copyinfo -> bytes) : Prop := {
  host_paths : lpath <> [] /\ rpath <> [];
  host_tree_at : tree_at lf (with_slash lpath) l;
  host_names : tree_names l;
  host_files : forall ci, ci ∈ tree_files (with_slash lpath) (with_slash rpath) l -> sendable lf ci (data ci)
}.

(** The list of a tree, in the order in which its files are handled. *)
Lemma host_list lf lpath rpath l data log :
  host_tree lf lpath rpath l data ->
  exists fl log0, local_build_list list_fuel lf (with_slash lpath) (with_slash rpath) [] log = Done (0, fl, log0) /\
    fl ≡ₚ tree_files (with_slash lpath) (with_slash rpath) l /\
    Forall (fun ci => flag ci = false) fl /\ NoDup (map dst fl) /\ Forall (fun ci => sendable lf ci (data ci)) fl.
Proof.
  intros [_ Hat Hnames Hsend].
  destruct (local_build_list_tree lf list_fuel (with_slash lpath) (with_slash rpath) l [] log) as (fl & log0 & E & Hfl).
  { unfold list_fuel. lia. } { done. }
  rewrite app_nil_r in Hfl. exists fl, log0. split_and!; [done|done| | |].
  - rewrite Hfl. apply tree_files_unflagged.
  - rewrite Hfl. by apply targets_differ.
  - rewrite Forall_forall. intros ci Hci. apply Hsend. by rewrite <- Hfl.
Qed.

(** The requests and replies of a copy, with those of the comparison in front. *)
Definition copy_stream (check : bool) (fl : list copyinfo) (t : transfer) : bytes :=
  (if check then stat_stream fl else []) ++ t_stream t.
Definition copy_replies (check : bool) (f : F) (fl : list copyinfo) (t : transfer) : bytes :=
  (if check then stat_replies f fl else []) ++ t_replies t.
(** What the user is told of the files. *)
Definition copy_said (check : bool) (f : F) (fl : list copyinfo) : list report :=
  map (fun ci => Push false (src ci) (dst ci)) (to_send check f fl) ++ [summary 0 0 (if check then map (mark f) fl else fl)].

Lemma copy_served (lf : L) (f : F) lpath rpath l data check log :
  host_tree lf lpath rpath l data ->
  exists fl sent before log', let t := push_files f sent in
    fl ≡ₚ tree_files (with_slash lpath) (with_slash rpath) l /\
    sent.*1 = to_send check f fl /\ cut data sent /\ (t_error t = None -> all_stored f data sent /\ log' = before ++ copy_said check f fl) /\
    (forall cl rest, files cl = lf -> room (con cl) = None -> inp (con cl) = copy_replies check f fl t ++ rest ->
       exists tb, copy_local_dir_remote zip cl lpath rpath check false log =
         Done (code t, mk_client lf (sends (with_inp (con cl) rest) (copy_stream check fl t)) tb, log')) /\
    service_run f (t_files t) (copy_stream check fl t) (copy_replies check f fl t).
Proof.
  intros Ht. destruct (host_list lf lpath rpath l data log Ht) as (fl & log0 & Hlist & Hperm & Hflag & Hnd & Hok).
  destruct Ht as [[Hlp Hrp] _ _ _].
  set (fl' := if check then map (mark f) fl else fl).
  assert (todo fl' = to_send check f fl) as Etodo by (by apply todo_to_send).
  assert (to_send check f fl `sublist_of` fl) as Hsub by apply sublist_filter.
  destruct (push_all_served lf data fl') as (sent & Esent & Hcut & Hrun).
  { rewrite Etodo. rewrite Forall_forall in Hok |- *. intros ci Hci. apply list_elem_of_filter in Hci as [_ Hci]. by apply Hok. }
  rewrite Etodo in Esent. destruct (Hrun f 0 0 log0 eq_refl eq_refl) as (Hserve & log' & Hlog & Hcl).
  exists fl, sent, log0, log'. cbv zeta. split; [done|]. split; [done|]. split; [done|]. split; [|split].
  - intros Herr. split.
    + apply push_files_stored; [done| |done]. rewrite Esent. eapply sublist_NoDup; [exact Hnd|by apply (fmap_sublist dst)].
    + rewrite (Hlog Herr). unfold copy_said, fl'. by rewrite said_to_send by done.
  - intros cl rest Hl Hr E. unfold copy_local_dir_remote. rewrite !bool_decide_eq_false_2 by done. cbn [orb].
    rewrite Hl, Hlist. cbv [mbind outcome_bind]. cbn [negb Z.eqb]. cbv zeta beta iota.
    unfold copy_replies, copy_stream in *. destruct check.
    + rewrite <- app_assoc in E. rewrite (check_times_marks f fl cl _ Hr E). cbv beta iota. fold fl'.
      destruct (Hcl (with_con cl (sends (with_inp (con cl) (t_replies (push_files f sent) ++ rest)) (stat_stream fl))) rest Hl Hr eq_refl) as (tb & ->).
      exists tb. cbn [con with_con]. by rewrite sends_sends_inp.
    + by apply Hcl.
  - unfold copy_replies, copy_stream. destruct check; [|exact Hserve]. eapply service_run_app; [|exact Hserve]. apply stats_served.
    eapply Forall_impl; [exact Hok|]. intros ci [? ? ? ? ? ?]. split; [done|lia].
Qed.
End pushing.

(** ** The commands *)

Section commands.
Context {F L : Type} `{FileSystemFrame F} `{FileSystem L} `{StatFiles L}.

(** The two ways a conversation ends: QUIT after the stream, or the client gone. *)
Lemma served_to_quit (f f' : F) stream replies : service_run f f' stream replies ->
  exists c, file_sync_service f (fresh (stream ++ msg2 ID_QUIT 0)) = Done (f', c) /\ outp c = replies.
Proof.
  intros Hs. pose proof (Hs (fresh (stream ++ msg2 ID_QUIT 0)) (msg2 ID_QUIT 0) eq_refl eq_refl) as Hrun.
  eexists. split; [by apply (service_quit _ _ _ _ Hrun)|done].
Qed.
Lemma served_to_end (f f' : F) stream replies : service_run f f' stream replies ->
  exists c, file_sync_service f (fresh stream) = Done (f', c) /\ outp c = replies ++ read_failure.
Proof.
  intros Hs. pose proof (Hs (fresh stream) [] eq_refl ltac:(by rewrite app_nil_r)) as Hrun.
  eexists. split; [exact (service_eof _ _ _ _ Hrun eq_refl eq_refl eq_refl)|done].
Qed.

(** What a command that pushes a tree comes to, with [run] the command given the
    device's replies and [f] the device before.  The client sends the requests of
    [push_files] on the files of the tree (with [check]: on those that differ, after
    the questions about all of them), and QUIT if all went well; the service, run on
    exactly that, gives exactly the replies the client was given, followed by its
    complaint about the end of the stream if there was no QUIT; the client has read all
    replies.  The command's value is 0 or 1 as [push_files] has no failed push or one. *)
Definition pushes_tree (check : bool) (lf : L) (f : F) (lpath rpath : bytes) (l : list entry) (data : copyinfo -> bytes)
    (run : bytes -> outcome (Z * option (client L) * list report)) : Prop :=
  exists fl sent cl c log before after, let t := push_files f sent in
    fl ≡ₚ tree_files (with_slash lpath) (with_slash rpath) l /\ sent.*1 = to_send check f fl /\ cut data sent /\
    run (copy_replies check f fl t) = Done (code t, Some cl, log) /\
    outp (con cl) = copy_stream check fl t ++ (if code t =? 0 then msg2 ID_QUIT 0 else []) /\ inp (con cl) = [] /\
    file_sync_service f (fresh (outp (con cl))) = Done (t_files t, c) /\
    outp c = copy_replies check f fl t ++ (if code t =? 0 then [] else read_failure) /\
    (t_error t = None -> all_stored f data sent /\ log = before ++ copy_said check f fl ++ after).

(** A command that copies and then quits. *)
Lemma copy_command zip (lf : L) (f : F) lpath rpath l data check log0 (finish : Z -> list report) :
  host_tree lf lpath rpath l data ->
  pushes_tree check lf f lpath rpath l data (fun replies =>
    '(r, cl, log) ← copy_local_dir_remote zip (mk_client lf (fresh replies) 0) lpath rpath check false log0;
    if negb (r =? 0) then Done (1, Some cl, log)
    else Done (0, Some (sync_quit cl), log ++ finish (total_bytes cl))).
Proof.
  intros Ht. destruct (copy_served zip lf f lpath rpath l data check log0 Ht)
    as (fl & sent & before & log & Hfl & Hsent & Hcut & Hres & Hrun & Hserve).
  set (t := push_files f sent) in *.
  destruct (Hrun (mk_client lf (fresh (copy_replies check f fl t)) 0) [] eq_refl eq_refl ltac:(by rewrite app_nil_r)) as (tb & E).
  unfold code in *. destruct (t_error t) as [[ci e]|] eqn:Et.
  - destruct (served_to_end _ _ _ _ Hserve) as (c & Es & Eo).
    exists fl, sent. eexists _, c, _, before, []. cbv zeta. fold t. unfold code. rewrite Et, E.
    split; [done|]. split; [done|]. split; [done|]. split; [reflexivity|].
    cbn [con outp inp sends with_inp fresh app Z.eqb]. rewrite app_nil_r. by split_and!.
  - destruct (served_to_quit _ _ _ _ Hserve) as (c & Es & Eo). destruct (Hres eq_refl) as [Hst ->].
    exists fl, sent. eexists _, c, _, before, (finish tb). cbv zeta. fold t. unfold code. rewrite Et, E.
    split; [done|]. split; [done|]. split; [done|]. split; [reflexivity|]. unfold sync_quit, put.
    rewrite writex_room by done. cbn [snd con with_con outp inp sends with_inp fresh app Z.eqb]. rewrite app_nil_r.
    split; [done|]. split; [done|]. split; [exact Es|]. split; [done|]. intros _. split; [done|]. by rewrite <- app_assoc.
Qed.

(** C7 (roundtrip). adb push of a directory: for every tree of regular files that the
    host can open, do_sync_push on the answers of the device's service, and the service
    on what do_sync_push sends, agree and terminate ([pushes_tree]): the files of the
    tree, and no others, are pushed one after the other, each to its own place under the
    target directory, up to the first one whose opening or writing fails on the device;
    that one the service refuses, and the command returns 1.  Without such a failure it
    returns 0, and every file is at its place with its own data (what its reads deliver)
    and permissions, nothing else on the device disturbed; an old file that could not be
    unlinked keeps what lies behind the new data, and its permissions ([stored]). *)
Theorem push_dir_roundtrip zip (lf : L) (f : F) t lpath rpath verify st l data :
  fs_stat lf lpath = Some st -> S_ISDIR st.1.1 = true -> host_tree lf lpath rpath l data ->
  pushes_tree false lf f lpath rpath l data
    (fun replies => do_sync_push zip lf (Some (fresh replies)) t lpath rpath verify).
Proof.
  intros Hst Hd Ht. pose proof (copy_command zip lf f lpath rpath l data false [] (END t) Ht) as Hrun.
  unfold do_sync_push. rewrite Hst, Hd. exact Hrun.
Qed.


Lemma push_all_dry zip (cl : client L) fl : forall pushed skipped log,
  i32 pushed = pushed -> i32 skipped = skipped ->
  push_all zip true cl fl pushed skipped log = Done (0, cl, log ++ said true fl ++ [summary pushed skipped fl]).
Proof.
  induction fl as [|ci fl IH]; intros pushed skipped log Hp Hs; cbn [push_all].
  - by rewrite summary_nil.
  - destruct (flag ci) eqn:Efl.
    + rewrite IH by auto using i32_idem. rewrite (summary_skipped _ _ ci fl Efl). unfold said. by rewrite todo_flagged.
    + rewrite IH by auto using i32_idem. rewrite (summary_sent _ _ ci fl Efl). unfold said.
      rewrite todo_unflagged by done. cbn [map]. by rewrite <- !app_assoc.
Qed.

(** adb sync -l is a rehearsal: it sends only STAT requests and
    QUIT, the device is left as it was, it always returns 0 and names exactly the files
    that adb sync would send. *)
Theorem sync_dry_run zip (lf : L) (f : F) t lpath rpath l data :
  host_tree lf lpath rpath l data ->
  exists fl replies cl c before,
    fl ≡ₚ tree_files (with_slash lpath) (with_slash rpath) l /\
    do_sync_sync zip lf (Some (fresh replies)) t lpath rpath true =
      Done (0, Some cl, before ++ map (fun ci => Push true (src ci) (dst ci)) (to_send true f fl) ++
                        [summary 0 0 (map (mark f) fl)]) /\
    outp (con cl) = stat_stream fl ++ msg2 ID_QUIT 0 /\ files cl = lf /\
    file_sync_service f (fresh (outp (con cl))) = Done (f, c) /\ outp c = replies.
Proof.
  intros Ht. destruct (host_list lf lpath rpath l data [Syncing rpath] Ht) as (fl & before & Hlist & Hperm & Hflag & Hnd & Hok).
  destruct Ht as [[Hlp Hrp] _ _ _].
  assert (service_run f f (stat_stream fl) (stat_replies f fl)) as Hserve.
  { apply stats_served. eapply Forall_impl; [exact Hok|]. intros ci [? ? ? ? ? ?]. split; [done|lia]. }
  destruct (served_to_quit f f _ _ Hserve) as (c & Es & Eo).
  exists fl, (stat_replies f fl). eexists _, c, before. split; [done|]. split.
  { unfold do_sync_sync, copy_local_dir_remote. rewrite !bool_decide_eq_false_2 by done. cbn [orb files].
    rewrite Hlist. cbv [mbind outcome_bind]. cbn [negb Z.eqb]. cbv zeta beta iota.
    rewrite (check_times_marks f fl _ []) by (cbn; by rewrite ?app_nil_r). cbv beta iota.
    rewrite push_all_dry by done. cbn [negb Z.eqb]. cbv iota. cbn [END total_bytes with_con Z.eqb]. rewrite app_nil_r.
    change (map (mark f) fl) with (if true then map (mark f) fl else fl) at 1. rewrite said_to_send by done. reflexivity. }
  unfold sync_quit, put. rewrite writex_room by done. by split_and!.
Qed.
End commands.

(** ** Instances and concrete runs *)

#[global] Program Instance disk_frame : FileSystemFrame Disk.disk := {}.
Next Obligation.
  intros f p m r f' q perm d Hne. cbn. destruct (Disk.nodes f !! p); [by intros [= <- <-]|].
  intros [= <- <-] [t Hq]. exists t. cbn. by rewrite lookup_insert_ne.
Qed.
Next Obligation.
  intros f p r f' q perm d Hne. cbn. destruct (Disk.nodes f !! p); [|by intros [= <- <-]].
  intros [= <- <-] [t Hq]. exists t. cbn. by rewrite lookup_insert_ne.
Qed.
Next Obligation.
  intros f p m r f' q perm d Hne. cbn. intros [= <- <-] [t Hq]. exists t. cbn. by rewrite lookup_insert_ne.
Qed.
Next Obligation.
  intros f fd p perm' d' n b r f' q perm d Hne [Hh (t' & Hn)]. cbn. rewrite Hh, Hn.
  intros [= <- <-] [t Hq]. exists t. cbn. by rewrite lookup_insert_ne.
Qed.
Next Obligation. done. Qed.
Next Obligation. intros f p q perm d Hne [t Hq]. exists t. cbn. by rewrite lookup_delete_ne. Qed.
Next Obligation. intros f p m r f' q perm d. cbn. by intros [= <- <-]. Qed.
Next Obligation. intros f p t q perm d Hne [t' Hq]. exists t'. cbn. by rewrite lookup_alter_ne. Qed.

(** A host with files and directories that are only read. *)
Module Host.

Record host := mk_host { plain_files : list (bytes * (Z * Z * bytes)); dirs : list (bytes * list bytes) }.

Definition find {A} (p : bytes) (l : list (bytes * A)) : option A := snd <$> List.find (fun x => bool_decide (x.1 = p)) l.

Definition look (h : host) (p : bytes) : option (Z * Z * Z) :=
  match find p (plain_files h) with
  | Some x => Some (x.1.1, Z.of_nat (length x.2), x.1.2)
  | None => (fun _ => (0x41ED, 0, 0)) <$> find (p ++ [47]) (dirs h)
  end.

#[global] Instance host_fs : FileSystem host := {
  fs_umask := 0;
  fs_open_excl h _ _ := (inr EOTHER, h);
  fs_open_write h _ := (inr EOTHER, h);
  fs_creat h _ _ := (inr EOTHER, h);
  fs_writex h _ _ := (Some EOTHER, h);
  fs_close h _ := h;
  fs_unlink h _ := h;
  fs_mkdir h _ _ := (Some EOTHER, h);
  fs_symlink h _ _ := (Some EOTHER, h);
  fs_utime h _ _ := h;
  fs_lstat h p := look h p;
  fs_readdir h p := find p (dirs h);
  fs_open_read h p := match find p (plain_files h) with
                      | Some (_, _, b :: l) => inl [Io.RData b l; Io.REof]
                      | Some (_, _, []) => inl [Io.REof]
                      | None => inr ENOENT
                      end;
  fs_seek_end h p := (fun x => Z.of_nat (length x.2)) <$> find p (plain_files h);
  fs_readlink _ _ := inr EOTHER;
  fs_strerror _ := bs "error"
}.
#[global] Instance host_stat : StatFiles host := look.

Definition demo : host := mk_host
  [(bs "p/a", (0x81A4, 7, [1; 2])); (bs "p/d/b", (0x81A4, 9, [3]))]
  [(bs "p/", [bs "."; bs ".."; bs "a"; bs "d"]); (bs "p/d/", [bs ".."; bs "."; bs "b"])].
Definition demo_tree : list entry :=
  [(bs "a", File 0x81A4 2 7); (bs "d", Directory [(bs "b", File 0x81A4 1 9)])].
Definition demo_data (ci : copyinfo) : bytes := if size ci =? 1 then [3] else [1; 2].

Lemma demo_is_tree : host_tree demo (bs "p") (bs "q") demo_tree demo_data.
Proof.
  split.
  - done.
  - split.
    + eexists. split; [vm_compute; reflexivity|]. split; [reflexivity|by_compute].
    + split; [|split; [|done]].
      * split; [vm_compute; reflexivity|]. eexists. split; [vm_compute; reflexivity|reflexivity].
      * split; [eexists; split; [vm_compute; reflexivity|reflexivity]|]. split.
        -- eexists. split; [vm_compute; reflexivity|]. split; [reflexivity|by_compute].
        -- split; [|done]. split; [vm_compute; reflexivity|]. eexists. split; [vm_compute; reflexivity|reflexivity].
  - unfold tree_names. cbn [node_names demo_tree foldr map fst snd]. split_and!; done || by_compute.
  - intros ci Hci. vm_compute in Hci.
    apply elem_of_cons in Hci as [->|Hci]; [|apply list_elem_of_singleton in Hci as ->].
    all: split; [reflexivity|cbn; lia|by_compute|by_compute|by_compute|].
    all: eexists; split; [vm_compute; reflexivity|reflexivity].
Qed.
End Host.

Section witnesses.
Let device : Disk.disk := Disk.demo (bs "q/a") [9; 9; 9].

Lemma push_dir_roundtrip_witness :
  pushes_tree false Host.demo device (bs "p") (bs "q") Host.demo_tree Host.demo_data
    (fun replies => do_sync_push (fun _ => true) Host.demo (Some (fresh replies)) 5 (bs "p") (bs "q") false).
Proof.
  apply (push_dir_roundtrip (F:=Disk.disk) (L:=Host.host) (fun _ => true) Host.demo device 5 (bs "p") (bs "q") false
           (0x41ED, 0, 0) Host.demo_tree Host.demo_data).
  - vm_compute. reflexivity.
  - reflexivity.
  - apply Host.demo_is_tree.
Defined.


Lemma sync_dry_run_witness :
  exists fl replies cl c before,
    fl ≡ₚ tree_files (with_slash (bs "p")) (with_slash (bs "q")) Host.demo_tree /\
    do_sync_sync (fun _ => true) Host.demo (Some (fresh replies)) 5 (bs "p") (bs "q") true =
      Done (0, Some cl, before ++ map (fun ci => Push true (src ci) (dst ci)) (to_send true device fl) ++
                        [summary 0 0 (map (mark device) fl)]) /\
    outp (con cl) = stat_stream fl ++ msg2 ID_QUIT 0 /\ files cl = Host.demo /\
    file_sync_service device (fresh (outp (con cl))) = Done (device, c) /\ outp c = replies.
Proof.
  apply (sync_dry_run (F:=Disk.disk) (L:=Host.host) (fun _ => true) Host.demo device 5 (bs "p") (bs "q")
           Host.demo_tree Host.demo_data), Host.demo_is_tree.
Defined.

(** The run itself: two files are sent, the first over an old one. *)
Example push_run :
  match do_sync_push (fun _ => true) Host.demo (Some (fresh (msg2 ID_OKAY 0 ++ msg2 ID_OKAY 0))) 5 (bs "p") (bs "q") false with
  | Done (0, Some cl, log) =>
      log = [Push false (bs "p/d/b") (bs "q/d/b"); Push false (bs "p/a") (bs "q/a"); Pushed 2 0; Rate 585 3 0 0] /\
      match file_sync_service device (fresh (outp (con cl))) with
      | Done (d, c) => outp c = msg2 ID_OKAY 0 ++ msg2 ID_OKAY 0 /\
          Disk.nodes d !! bs "q/a" = Some (0x1A4, [1; 2], 7) /\ Disk.nodes d !! bs "q/d/b" = Some (0x1A4, [3], 9)
      | _ => False
      end
  | _ => False
  end.
Proof. vm_compute. done. Qed.
End witnesses.

Lemma listings_end_witness :
  let c := fresh (msg_dent ID_DENT 0x41ED 0 0 1 ++ [100]) in
  eof c = true /\
  (((exists x, local_build_list list_fuel Host.demo (bs "p/") (bs "q/") [] [] = Done x) \/
    local_build_list list_fuel Host.demo (bs "p/") (bs "q/") [] [] = Undef "stat buffer never filled") /\
   ((exists x, remote_build_list remote_fuel (bs "q/") (bs "p/") c [] [] = Done x) \/
    remote_build_list remote_fuel (bs "q/") (bs "p/") c [] [] = Undef "buffer overrun")).
Proof.
  split; [reflexivity|]. split.
  - apply (listings_end Host.demo (bs "p/") (bs "q/") [] []).
  - apply (proj2 (listings_end Host.demo (bs "p/") (bs "q/") [] [])). reflexivity.
Defined.

Lemma local_list_complete_witness :
  exists fl' log', local_build_list list_fuel Host.demo (bs "p/") (bs "q/") [] [] = Done (0, fl', log') /\
    fl' ≡ₚ tree_files (bs "p/") (bs "q/") Host.demo_tree ++ [].
Proof. apply (local_list_complete Host.demo (bs "p/") (bs "q/") Host.demo_tree [] []), Host.demo_is_tree. Defined.
