(* ===== verification/SyncPull.v ===== *)
(** * Pulling a directory from the device's service

    The other direction of SyncPush: LIST requests find the tree on the device, and a
    RECV request fetches each of its files. *)

From S2P Require Import Prelude Io FileSync SyncDirs SyncPush.

Import Wire Service Client.

(** ** A listing *)

Section listing.
Context {D : Type} `{FileSystem D}.

(** What LIST says of the names of a directory, and what the client reads. *)
Definition dent (d : D) (path name : bytes) : bytes :=
  match fs_lstat d (path ++ [47] ++ name) with
  | None => []
  | Some (m, s, t) => msg_dent ID_DENT m s t (Z.of_nat (length name)) ++ name
  end.
Definition dents (d : D) (path : bytes) (names : list bytes) : bytes := concat (map (dent d path) names).
Definition list_end : bytes := msg_dent ID_DONE 0 0 0 0.
Definition entry_of (d : D) (path name : bytes) : list (Z * Z * Z * bytes) :=
  match fs_lstat d (path ++ [47] ++ name) with
  | None => []
  | Some (m, s, t) => [(u32 m, u32 s, u32 t, name)]
  end.
Definition entries_of (d : D) (path : bytes) (names : list bytes) : list (Z * Z * Z * bytes) :=
  concat (map (entry_of d path) names).

Definition name_fits (path name : bytes) : Prop :=
  no_nul name /\ (length name <= 256)%nat /\ (length path + 1 + length name + 1 <= 1281)%nat.

Lemma list_entries_sends d c path names :
  Forall (name_fits path) names -> room c = None ->
  list_entries d c path names = Done (true, sends c (dents d path names)).
Proof.
  intros Hn. revert c. induction Hn as [|name names (_ & Hl & Hp) _ IH]; intros c Hr; cbn [list_entries].
  - change (dents d path []) with ([] : bytes). by rewrite sends_nil.
  - destruct (Z.ltb_spec 256 (Z.of_nat (length name))); [lia|].
    destruct (Nat.ltb_spec 1281 (length path + 1 + length name + 1)); [lia|].
    change (dents d path (name :: names)) with (dent d path name ++ dents d path names). unfold dent.
    destruct (fs_lstat d (path ++ [47] ++ name)) as [[[m s] t]|]; [|by rewrite IH].
    rewrite writex2_room, IH by done. by rewrite sends_sends.
Qed.

Lemma get_dent id m s t n (w := msg_dent id m s t n) :
  is_u32 id -> is_u32 n -> length w = 20%nat /\
  get 0 w = id /\ get 1 w = u32 m /\ get 2 w = u32 s /\ get 3 w = u32 t /\ get 4 w = n.
Proof.
  intros Hid Hn. unfold w, msg_dent. split; [done|].
  rewrite <- (word_u32 m), <- (word_u32 s), <- (word_u32 t). split_and!.
  - by apply (get_word 0 _ _ (word (u32 m) ++ word (u32 s) ++ word (u32 t) ++ word n)).
  - apply (get_word 1 _ _ (word (u32 s) ++ word (u32 t) ++ word n)); auto with word.
  - apply (get_word 2 _ _ (word (u32 t) ++ word n)); auto with word.
  - apply (get_word 3 _ _ (word n)); auto with word.
  - apply (get_word 4 _ _ []); [done|]. by rewrite app_nil_r.
Qed.

Lemma ls_loop_reads d path names : forall fuel c acc rest,
  Forall (name_fits path) names -> (length (entries_of d path names) < fuel)%nat ->
  inp c = (dents d path names ++ list_end) ++ rest ->
  ls_loop fuel c acc = Done (true, acc ++ entries_of d path names, with_inp c rest).
Proof.
  induction names as [|name names IH]; intros fuel c acc rest Hn Hf E; (destruct fuel as [|fuel]; [cbn in Hf; lia|]).
  - cbn [ls_loop]. destruct (get_dent ID_DONE 0 0 0 0 ltac:(by_compute) ltac:(by_compute)) as (Hl & H0 & _).
    rewrite (readx_app c 20 list_end rest E) by done. cbv [mbind outcome_bind]. cbv beta iota.
    unfold list_end. rewrite H0, Z.eqb_refl. unfold entries_of. cbn [map concat]. by rewrite app_nil_r.
  - apply Forall_cons in Hn as [(Hnul & Hl & _) Hn].
    change (dents d path (name :: names)) with (dent d path name ++ dents d path names) in E.
    change (entries_of d path (name :: names)) with (entry_of d path name ++ entries_of d path names) in Hf |- *.
    unfold dent, entry_of in *. destruct (fs_lstat d (path ++ [47] ++ name)) as [[[m s] t]|]; cbn [app length] in Hf.
    2:{ apply (IH (S fuel)); [done|lia|exact E]. }
    destruct (get_dent ID_DENT m s t (Z.of_nat (length name)) ltac:(by_compute) ltac:(unfold is_u32; lia))
      as (Hl20 & H0 & H1 & H2 & H3 & H4).
    rewrite <- !app_assoc in E. cbn [ls_loop].
    rewrite (readx_app c 20 _ _ E) by (by rewrite Hl20). cbv [mbind outcome_bind]. cbv beta iota zeta.
    rewrite H0, H1, H2, H3, H4. change (ID_DENT =? ID_DONE) with false. rewrite Z.eqb_refl. cbn [negb].
    rewrite i32_small by lia. destruct (Z.ltb_spec 256 (Z.of_nat (length name))); [lia|]. rewrite u64_small by lia.
    rewrite (read_buf_app 257 (with_inp c _) _ name _ eq_refl) by (done || lia). cbv beta iota.
    rewrite (until_nul_id name Hnul).
    rewrite (IH fuel _ _ rest) by (done || lia || (cbn [inp with_inp]; by rewrite <- app_assoc)).
    by rewrite <- app_assoc.
Qed.

(** The directory as LIST sees it. *)
Definition listing_at (d : D) (path : bytes) (names : list bytes) : Prop :=
  no_nul path /\ (length path <= 1024)%nat /\
  exists all, fs_readdir d path = Some all /\ filter (fun name => is_dots name = false) all = names /\
    Forall (name_fits path) all /\
    Forall (fun name => is_dots name = true -> forall x, fs_lstat d (path ++ [47] ++ name) = Some x -> S_ISDIR (u32 x.1.1) = true) all.

Lemma length_entries d path names : (length (entries_of d path names) <= length (dents d path names))%nat.
Proof.
  unfold entries_of, dents. induction names as [|name names IH]; [done|]. cbn [map concat]. rewrite !length_app.
  unfold entry_of at 1, dent at 1. destruct (fs_lstat d (path ++ [47] ++ name)) as [[[m s] t]|]; cbn [length]; [|lia].
  rewrite length_app. change (length (msg_dent ID_DENT m s t (Z.of_nat (length name)))) with 20%nat. lia.
Qed.

Lemma sync_ls_served d path all :
  no_nul path -> (length path <= 1024)%nat -> fs_readdir d path = Some all -> Forall (name_fits path) all ->
  let stream := msg2 ID_LIST (Z.of_nat (length path)) ++ path in
  let replies := dents d path all ++ list_end in
  (forall c rest, room c = None -> inp c = replies ++ rest ->
     sync_ls c path = Done (true, entries_of d path all, sends (with_inp c rest) stream)) /\
  service_run d d stream replies.
Proof.
  intros Hnul Hl Hd Hall stream replies. split.
  - intros c rest Hr E. unfold sync_ls. destruct (Z.ltb_spec 1024 (Z.of_nat (length path))); [lia|].
    rewrite writex2_room by done. cbn [negb]. rewrite (ls_loop_reads d path all _ _ [] rest); [done|done| |exact E].
    cbn [inp sends]. rewrite E. unfold replies. rewrite !length_app. pose proof (length_entries d path all). lia.
  - intros c rest Hr E. unfold stream in E. rewrite <- app_assoc in E. eapply serves_more; [| |constructor].
    + unfold request. rewrite (readx_app c 8 _ _ E) by done. cbv [mbind outcome_bind]. cbv beta iota zeta.
      rewrite get0_msg2 by done. rewrite get1_msg2 by (unfold is_u32; lia).
      destruct (Z.ltb_spec 1024 (Z.of_nat (length path))); [lia|].
      rewrite (read_buf_app 1025 (with_inp c (path ++ rest)) _ path rest) by (done || lia).
      cbv beta iota. rewrite (until_nul_id path Hnul). change (ID_LIST =? ID_STAT) with false.
      change (ID_LIST =? ID_LIST) with true. cbv iota. unfold do_list. rewrite Hd, list_entries_sends by done.
      cbv [mbind outcome_bind]. cbn [negb]. rewrite writex_room by done. rewrite sends_sends. reflexivity.
    + cbn [inp sends with_inp]. rewrite E, !length_app, length_msg2. lia.
Qed.
End listing.

(** ** A tree on the device *)

Section tree.
Context {D : Type} `{FileSystem D}.
Variable data : bytes -> bytes.

(** LIST looks at an entry behind a second '/'; RECV opens it behind one. *)
Fixpoint device_node (d : D) (path name : bytes) (n : node) : Prop :=
  match n with
  | File m s t =>
      fs_lstat d (path ++ [47] ++ name) = Some (m, s, t) /\ is_u32 m /\ S_ISDIR m = false /\
      (S_ISREG m || S_ISLNK m = true ->
        no_nul (path ++ name) /\ (length (path ++ name) <= 1024)%nat /\
        exists rd, fs_open_read d (path ++ name) = inl rd /\ file_data rd = Some (data (path ++ name)))
  | Directory l =>
      (exists st, fs_lstat d (path ++ [47] ++ name) = Some st /\ S_ISDIR (u32 st.1.1) = true) /\
      listing_at d (path ++ name ++ [47]) (map fst l) /\
      foldr (fun x P => device_node d (path ++ name ++ [47]) x.1 x.2 /\ P) True l
  end.
Definition device_tree (d : D) (path : bytes) (l : list entry) : Prop :=
  listing_at d path (map fst l) /\ foldr (fun x P => device_node d path x.1 x.2 /\ P) True l.

(** The callback sorts the entries of a listing. *)
Lemma cb_tree d rpath lpath all : forall l dl fl log,
  filter (fun name => is_dots name = false) all = map fst l ->
  Forall (fun name => is_dots name = true -> forall x, fs_lstat d (rpath ++ [47] ++ name) = Some x -> S_ISDIR (u32 x.1.1) = true) all ->
  foldr (fun x P => device_node d rpath x.1 x.2 /\ P) True l ->
  exists dl' fl' log', foldl (sync_ls_build_list_cb rpath lpath) (dl, fl, log) (entries_of d rpath all) = (dl', fl', log') /\
    dl' ≡ₚ map (fun x : entry => mkcopyinfo rpath lpath x.1 true) (subdirs l) ++ dl /\
    fl' ≡ₚ tree_files rpath lpath (plain l) ++ fl.
Proof.
  induction all as [|name all IH]; intros l dl fl log Hn Hdots Hat.
  { destruct l; [|done]. by eexists _, _, _. }
  apply Forall_cons in Hdots as [Hdot Hdots].
  change (entries_of d rpath (name :: all)) with (entry_of d rpath name ++ entries_of d rpath all). rewrite foldl_app.
  rewrite filter_cons in Hn. unfold entry_of. case_decide as Hd.
  2:{ apply not_false_is_true in Hd. destruct (fs_lstat d (rpath ++ [47] ++ name)) as [[[m s] t]|] eqn:Els; [|by apply IH].
      cbn [foldl sync_ls_build_list_cb]. rewrite (Hdot Hd _ eq_refl : S_ISDIR (u32 m) = true), Hd. by apply IH. }
  destruct l as [|[name' n] l]; [done|]. cbn [map fst] in Hn. injection Hn as <- Hn.
  destruct Hat as [Hx Hat]. cbn [fst snd] in Hx.
  unfold plain, subdirs. rewrite !filter_cons. cbn [is_directory snd]. destruct n as [m s t|l']; cbn [device_node] in Hx.
  - destruct Hx as (-> & Hm & Hnd & _). cbn [foldl sync_ls_build_list_cb]. rewrite (u32_small m) by done. rewrite Hnd.
    rewrite mkcopyinfo_exact. cbv beta iota zeta. rewrite !app_nil_r.
    repeat (case_decide; try done). rewrite tree_files_cons. cbn [node_files fst snd].
    destruct (S_ISREG m || S_ISLNK m).
    + destruct (IH l dl (stamped (mk_copyinfo (rpath ++ name) (lpath ++ name) 0 0 0 false) m (u32 s) (u32 t) :: fl) log Hn Hdots Hat)
        as (dl' & fl' & log' & E & Hdl & Hfl).
      exists dl', fl', log'. split; [exact E|]. split; [exact Hdl|]. rewrite Hfl. cbn [app]. symmetry. apply Permutation_middle.
    + apply IH; done.
  - destruct Hx as (([[m s] t] & -> & Hdir) & _). cbn [foldl sync_ls_build_list_cb]. cbn [fst] in Hdir. rewrite Hdir, Hd.
    repeat (case_decide; try done).
    destruct (IH l (mkcopyinfo rpath lpath name true :: dl) fl log Hn Hdots Hat) as (dl' & fl' & log' & E & Hdl & Hfl).
    exists dl', fl', log'. split; [exact E|]. split; [|exact Hfl]. rewrite Hdl. cbn [map fst app].
    symmetry. apply Permutation_middle.
Qed.

(** A listing as a conversation. *)
Definition list_run (run : conn -> outcome (bool * conn * list copyinfo * list report)) (stream replies : bytes)
    (fl' : list copyinfo) (log' : list report) : Prop :=
  forall c rest, room c = None -> inp c = replies ++ rest ->
    run c = Done (true, sends (with_inp c rest) stream, fl', log').

Lemma service_run_nil (d : D) : service_run d d [] [].
Proof.
  intros c rest Hr E. cbn in E. rewrite sends_nil. assert (with_inp c rest = c) as -> by (destruct c; cbn in *; by subst).
  constructor.
Qed.

Lemma until_fails_tree d visit (g : entry -> list copyinfo) rpath lpath xs : forall fl log,
  (forall x fl log, x ∈ xs -> exists stream replies fl' log',
     list_run (fun c => visit (rpath ++ x.1 ++ [47]) (lpath ++ x.1 ++ [47]) c fl log) stream replies fl' log' /\
     service_run d d stream replies /\ fl' ≡ₚ g x ++ fl) ->
  exists stream replies fl' log',
    list_run (fun c => until_fails visit (map (fun x : entry => mkcopyinfo rpath lpath x.1 true) xs) c fl log) stream replies fl' log' /\
    service_run d d stream replies /\ fl' ≡ₚ concat (map g xs) ++ fl.
Proof.
  induction xs as [|x xs IH]; intros fl log Hv; cbn [map until_fails].
  { exists [], [], fl, log. split_and!; [|apply service_run_nil|done].
    intros c rest Hr E. cbn in E. rewrite sends_nil. destruct c. cbn in *. by subst. }
  destruct (Hv x fl log ltac:(apply list_elem_of_here)) as (s1 & p1 & fl1 & log1 & Hrun1 & Hs1 & Hp1).
  destruct (IH fl1 log1) as (s2 & p2 & fl2 & log2 & Hrun2 & Hs2 & Hp2).
  { intros y fl' log' Hy. apply Hv. by apply list_elem_of_further. }
  exists (s1 ++ s2), (p1 ++ p2), fl2, log2. split_and!.
  - intros c rest Hr E. rewrite <- app_assoc in E. rewrite mkcopyinfo_exact. cbn [src dst].
    rewrite (Hrun1 c (p2 ++ rest) Hr E). cbv [mbind outcome_bind]. cbn [negb].
    rewrite (Hrun2 (sends (with_inp c (p2 ++ rest)) s1) rest Hr eq_refl). by rewrite sends_sends_inp.
  - by apply (service_run_app d d d).
  - rewrite Hp2, Hp1. cbn [map concat]. rewrite <- app_assoc. apply Permutation_app_swap_app.
Qed.

(** remote_build_list against the service. *)
Lemma remote_build_list_tree d fuel : forall rpath lpath l fl log,
  (1025 - length rpath < fuel)%nat -> device_tree d rpath l ->
  exists stream replies fl' log',
    list_run (fun c => remote_build_list fuel rpath lpath c fl log) stream replies fl' log' /\
    service_run d d stream replies /\ fl' ≡ₚ tree_files rpath lpath l ++ fl.
Proof.
  induction fuel as [|fuel IH]; intros rpath lpath l fl log Hf [(Hnul & Hlen & all & Hall & Hnames & Hfits & Hdots) Hat]; [lia|].
  destruct (sync_ls_served d rpath all Hnul Hlen Hall Hfits) as [Hls Hserve].
  destruct (cb_tree d rpath lpath all l [] fl log Hnames Hdots Hat) as (dl & fl1 & log1 & E & Hdl & Hfl).
  rewrite app_nil_r in Hdl. apply Permutation_map_inv in Hdl as (xs & -> & Hxs).
  destruct (until_fails_tree d (remote_build_list fuel) (subfiles rpath lpath) rpath lpath xs fl1 log1)
    as (s2 & p2 & fl2 & log2 & Hrun2 & Hs2 & Hp2).
  { intros x fl' log' Hx. rewrite <- Hxs in Hx.
    destruct (in_subdirs x l (fun x => device_node d rpath x.1 x.2) Hx Hat) as (l' & Ex & Hn & Hin).
    rewrite Ex in Hn |- *. cbn [fst snd device_node] in Hn |- *. destruct Hn as (_ & Hsub).
    apply IH; [|exact Hsub]. rewrite !length_app. cbn [length]. lia. }
  exists ((msg2 ID_LIST (Z.of_nat (length rpath)) ++ rpath) ++ s2), ((dents d rpath all ++ list_end) ++ p2), fl2, log2.
  split_and!.
  - intros c rest Hr Ec. rewrite <- (app_assoc _ p2) in Ec. cbn [remote_build_list].
    rewrite (Hls c (p2 ++ rest) Hr Ec). cbv [mbind outcome_bind]. cbv beta iota. rewrite E. cbn [negb].
    rewrite (Hrun2 (sends (with_inp c (p2 ++ rest)) _) rest Hr eq_refl). by rewrite sends_sends_inp.
  - by apply (service_run_app d d d).
  - rewrite Hp2, Hfl, (tree_files_split rpath lpath l), Hxs.
    rewrite !app_assoc. apply Permutation_app_tail, Permutation_app_comm.
Qed.
End tree.

(** ** The files *)

Section pulling.
Context {D F : Type} `{FileSystem D} `{FileSystemFrame F} `{StatFiles F}.
Variable data : bytes -> bytes.

(** A pull to [p] leaves the local file at [q] alone. *)
Lemma pull_file_frame (f : F) p ds q perm d :
  p <> q -> fs_regular f q perm d -> fs_regular (pull_file f p ds).2 q perm d.
Proof.
  intros Hne Hq. unfold pull_file. destruct p as [|ch rest]; [done|].
  pose proof (mkdirs_from_frame rest (fs_unlink f (ch :: rest)) [ch] q perm d (unlink_frame _ _ _ _ _ Hne Hq)) as Hq0.
  destruct (fs_creat _ (ch :: rest) 0x1A4) as [[fd|e] f1] eqn:Ec; [|by eapply creat_frame].
  destruct (creat_empty _ _ _ _ _ Ec) as (perm' & Hw). unfold keep_pieces.
  destruct (write_pieces f1 fd ds) as [r f2] eqn:E. cbn [snd]. apply close_frame.
  eapply write_pieces_frame; [exact Hne|exact Hw|exact E|]. by eapply creat_frame.
Qed.

(** A file that the device can read, and where it goes. *)
Definition fetchable (dev : D) (ci : copyinfo) : Prop :=
  no_nul (src ci) /\ (length (src ci) <= 1024)%nat /\ dst ci <> [] /\
  exists rd, fs_open_read dev (src ci) = inl rd /\ file_data rd = Some (data (src ci)).
Definition fetched (f' : F) (ci : copyinfo) : Prop := exists perm, fs_regular f' (dst ci) perm (data (src ci)).

Lemma one_pull (dev : D) ci :
  fetchable dev ci ->
  exists ds stream replies, concat ds = data (src ci) /\ Forall fits ds /\ service_run dev dev stream replies /\
    forall f : F, receives f (pull_file f (dst ci) ds).2 (status (pull_file f (dst ci) ds).1) stream replies
      (fun cl => sync_recv cl (src ci) (dst ci)).
Proof.
  intros (Hnul & Hl & Hd & rd & Ho & Hdata).
  destruct (request_pull dev (src ci) rd (data (src ci)) Hnul Hl Ho Hdata) as (ds & Hds & Hfit & Hreq).
  exists ds. eexists _, _. split; [done|]. split; [done|]. split; [|intros f; by apply sync_recv_chunks].
  intros c rest Hr E. eapply serves_more; [by apply Hreq| |constructor].
  cbn [inp sends with_inp]. rewrite E, !length_app, length_msg2. lia.
Qed.

(** The files are fetched one after the other, up to the first whose creation or
    writing fails. *)
Fixpoint pull_files (f : F) (l : list (copyinfo * list bytes)) : option (copyinfo * errno) * F :=
  match l with
  | [] => (None, f)
  | (ci, ds) :: l =>
      match pull_file f (dst ci) ds with
      | (Some e, f) => (Some (ci, e), f)
      | (None, f) => pull_files f l
      end
  end.
Definition pull_code (failed : option (copyinfo * errno)) : Z := match failed with None => 0 | Some _ => 1 end.

(** Each file is in its place with the device's data, and other files are as they were. *)
Definition all_fetched (f f' : F) (cis : list copyinfo) : Prop :=
  (forall ci, ci ∈ cis -> fetched f' ci) /\
  (forall q perm d, (q ∉ map dst cis) -> fs_regular f q perm d -> fs_regular f' q perm d).

Lemma pull_files_frame l : forall f q perm d,
  (q ∉ map dst l.*1) -> fs_regular f q perm d -> fs_regular (pull_files f l).2 q perm d.
Proof.
  induction l as [|[ci ds] l IH]; intros f q perm d Hq Hf; [done|]. cbn [map fmap list_fmap fst] in Hq.
  apply not_elem_of_cons in Hq as [Hne Hq]. pose proof (pull_file_frame f (dst ci) ds q perm d ltac:(congruence) Hf) as Hf1.
  cbn [pull_files]. destruct (pull_file f (dst ci) ds) as [[e|] f1]; [done|]. by apply IH.
Qed.

Lemma pull_files_fetched l : forall f f',
  cut (fun ci => data (src ci)) l -> NoDup (map dst l.*1) -> Forall (fun ci => dst ci <> []) l.*1 ->
  pull_files f l = (None, f') -> all_fetched f f' l.*1.
Proof.
  intros f f' Hcut Hnd Hne E. split.
  2:{ intros q perm d Hq Hreg. pose proof (pull_files_frame l f q perm d Hq Hreg) as Hf. by rewrite E in Hf. }
  revert f Hcut Hnd Hne E. induction l as [|[ci ds] l IH]; intros f Hcut Hnd Hne E cj Hcj; [by apply not_elem_of_nil in Hcj|].
  apply Forall_cons in Hcut as [[Hds _] Hcut]. cbn [fst snd fmap list_fmap map] in *. apply NoDup_cons in Hnd as [Hnin Hnd].
  apply Forall_cons in Hne as [Hd Hne]. cbn [pull_files] in E.
  destruct (pull_file f (dst ci) ds) as [[e|] f1] eqn:Ep; [done|].
  apply elem_of_cons in Hcj as [->|Hcj]; [|by apply (IH f1)].
  destruct (pull_file_kept _ _ _ _ Hd Ep) as (perm & Hreg). exists perm. rewrite <- Hds.
  pose proof (pull_files_frame l f1 _ _ _ Hnin Hreg) as Hf. by rewrite E in Hf.
Qed.

Lemma pull_all_served (dev : D) fl :
  Forall (fun ci => flag ci = false) fl -> Forall (fetchable dev) fl ->
  exists l, l.*1 = fl /\ cut (fun ci => data (src ci)) l /\ forall (f : F) pulled skipped log,
    exists stream replies log', service_run dev dev stream replies /\
      forall cl rest, files cl = f -> room (con cl) = None -> inp (con cl) = replies ++ rest ->
        exists cl', pull_all cl fl pulled skipped log = Done (pull_code (pull_files f l).1, cl', log') /\
          files cl' = (pull_files f l).2 /\ room (con cl') = None /\ outp (con cl') = outp (con cl) ++ stream /\
          ((pull_files f l).1 = None -> inp (con cl') = rest).
Proof.
  induction fl as [|ci fl IH]; intros Hflag Hok.
  { exists []. split; [done|]. split; [constructor|]. intros f pulled skipped log.
    exists [], [], (log ++ [Pulled pulled skipped]). split; [apply service_run_nil|].
    intros cl rest Hl Hr E. exists cl. rewrite app_nil_r. by split_and!. }
  apply Forall_cons in Hflag as [Hci Hflag]. apply Forall_cons in Hok as [Hf Hok].
  destruct (one_pull dev ci Hf) as (ds & s1 & p1 & Hds & Hfit & Hserve1 & Hone).
  destruct (IH Hflag Hok) as (l & Hl & Hcut & Hrun).
  exists ((ci, ds) :: l). split; [by cbn; rewrite <- Hl|]. split; [by constructor|]. intros f pulled skipped log.
  specialize (Hone f). cbn [pull_files]. destruct (pull_file f (dst ci) ds) as [[e|] f1]; cbn [fst snd status] in Hone |- *.
  { exists s1, p1, (log ++ [Pull (src ci) (dst ci)]). split; [exact Hserve1|]. intros cl rest Hlf Hr E. cbn [pull_all]. rewrite Hci.
    destruct (Hone cl rest Hlf Hr E) as (cl' & -> & Hf' & Hr' & Ho & _). by exists cl'. }
  destruct (Hrun f1 (i32 (pulled + 1)) skipped (log ++ [Pull (src ci) (dst ci)])) as (s2 & p2 & log' & Hserve2 & Hcl).
  exists (s1 ++ s2), (p1 ++ p2), log'. split; [by apply (service_run_app dev dev dev)|].
  intros cl rest Hlf Hr E. rewrite <- app_assoc in E. cbn [pull_all]. rewrite Hci.
  destruct (Hone cl (p2 ++ rest) Hlf Hr E) as (cl1 & -> & Hf1 & Hr1 & Ho1 & Hc1).
  cbv [mbind outcome_bind]. cbn [negb Z.eqb]. specialize (Hc1 eq_refl).
  destruct (Hcl cl1 rest Hf1 Hr1 ltac:(by rewrite Hc1)) as (cl2 & -> & Hf2 & Hr2 & Ho2 & Hi2).
  exists cl2. split_and!; [done|done|done|by rewrite Ho2, Ho1, app_assoc|done].
Qed.

(** What [device_tree] says of the files of the list. *)
Lemma node_files_src dev n : forall rp lp name ci, device_node data dev rp name n -> lp <> [] ->
  ci ∈ node_files rp lp name n -> fetchable dev ci.
Proof.
  induction n as [m s t|l Hl] using node_induct; intros rp lp name ci Hn Hlp Hci; cbn [node_files device_node] in *.
  - destruct (S_ISREG m || S_ISLNK m); [|by apply not_elem_of_nil in Hci]. apply list_elem_of_singleton in Hci as ->.
    destruct Hn as (_ & _ & _ & Hn). destruct (Hn eq_refl) as (Hnul & Hlen & Hrd). split_and!; [done|done| |done].
    cbn. intros E. apply app_eq_nil in E as [? _]. done.
  - destruct Hn as (_ & _ & Hn). apply in_tree_files in Hci as (x & Hx & Hci).
    induction Hx as [x l|x y l Hx IHx]; apply Forall_cons in Hl as [Hy Hl]; destruct Hn as [Hn1 Hn2].
    + eapply Hy; [exact Hn1| |exact Hci]. intros E. apply app_eq_nil in E as [? _]. done.
    + by apply IHx.
Qed.

Lemma tree_fetchable dev rp lp l : device_tree data dev rp l -> lp <> [] -> Forall (fetchable dev) (tree_files rp lp l).
Proof.
  intros [_ Hat] Hlp. rewrite Forall_forall. intros ci Hci. apply in_tree_files in Hci as (x & Hx & Hci).
  induction Hx as [x l|x y l Hx IHx]; destruct Hat as [Hn Hat]; [by eapply node_files_src|by apply IHx].
Qed.

Lemma readmode_served (dev : D) rpath c rest :
  no_nul rpath -> (length rpath <= 1024)%nat -> room c = None ->
  let reply := let '(m, s, t) := device_stat dev rpath in msg_stat m s t in
  inp c = reply ++ rest ->
  sync_readmode c rpath =
    Done (Some (device_stat dev rpath).1.1, sends (with_inp c rest) (msg2 ID_STAT (Z.of_nat (length rpath)) ++ rpath)).
Proof.
  intros Hnul Hl Hr reply E. unfold sync_readmode, sync_start_readtime, sync_finish_readtime.
  rewrite writex2_room by done. cbn [negb].
  pose proof (length_stat_reply dev (mk_copyinfo [] rpath 0 0 0 false)) as H16.
  change (length reply = 16%nat) in H16. rewrite (readx_app _ 16 reply rest) by (done || by rewrite H16).
  cbv [mbind outcome_bind]. cbv beta iota.
  destruct (device_stat dev rpath) as [[m s] t] eqn:Ed.
  destruct (get_stat dev (mk_copyinfo [] rpath 0 0 0 false) m s t Ed) as (H0' & H1' & H2' & H3').
  unfold stat_reply in H0', H1', H2', H3'. cbn [dst] in H0', H1', H2', H3'. rewrite Ed in H0', H1', H2', H3'.
  unfold reply. rewrite H0', H1', H2', H3', Z.eqb_refl. done.
Qed.

(** C9 (roundtrip). adb pull of a directory: for every tree that the device can list and
    read without errors, whatever pieces its files are read in, do_sync_pull on the
    answers of the device's service and the service on its requests agree and
    terminate, and the device is left as it is.  The regular files and links of the
    tree are fetched one after the other ([pull_files]: for each unlink, make
    directories, create, write, close), up to the first one whose creation or writing
    fails in this run; then the command returns 1, and the service complains about the
    end of the stream.  Without such a failure it returns 0, the client has read all
    answers, every file is in its place under the local directory with exactly the data
    the device has, and no other local file was touched. *)
Theorem pull_dir_roundtrip (dev : D) (lf : F) t rpath lpath l :
  no_nul rpath -> (length rpath <= 1024)%nat -> rpath <> [] -> lpath <> [] ->
  S_ISDIR (device_stat dev rpath).1.1 = true -> device_tree data dev (with_slash rpath) l -> tree_names l ->
  exists sent failed lf' replies cl c log,
    sent.*1 ≡ₚ tree_files (with_slash rpath) (with_slash lpath) l /\ cut (fun ci => data (src ci)) sent /\
    pull_files lf sent = (failed, lf') /\
    do_sync_pull lf (Some (fresh replies)) t rpath lpath = Done (pull_code failed, Some cl, log) /\ files cl = lf' /\
    file_sync_service dev (fresh (outp (con cl))) = Done (dev, c) /\
    outp c = replies ++ (if pull_code failed =? 0 then [] else read_failure) /\
    (failed = None -> inp (con cl) = [] /\ all_fetched lf lf' sent.*1).
Proof.
  intros Hnul Hlen Hrp Hlp Hdir Htree Hnames.
  assert (with_slash lpath <> []) as Hlp'.
  { destruct (with_slash_exact lpath Hlp) as [->| ->]; [done|]. by destruct lpath. }
  destruct (remote_build_list_tree data dev remote_fuel (with_slash rpath) (with_slash lpath) l [] [BuildingList])
    as (s1 & p1 & fl & log1 & Hrun1 & Hs1 & Hfl); [unfold remote_fuel; lia|done|]. rewrite app_nil_r in Hfl.
  assert (Forall (fetchable dev) fl) as Hfetch by (rewrite Hfl; by apply tree_fetchable).
  destruct (pull_all_served dev fl) as (sent & Hsent & Hcut & Hpull); [rewrite Hfl; apply tree_files_unflagged|done|].
  destruct (Hpull lf 0 0 log1) as (s2 & p2 & log2 & Hs2 & Hrun2).
  assert (forall lf', pull_files lf sent = (None, lf') -> all_fetched lf lf' sent.*1) as Hall.
  { intros lf' E. apply (pull_files_fetched sent lf lf'); [done| | |done]; rewrite Hsent.
    - rewrite Hfl. by apply targets_differ.
    - eapply Forall_impl; [exact Hfetch|]. by intros ci (_ & _ & ? & _). }
  destruct (pull_files lf sent) as [failed lf'] eqn:Ep. cbn [fst snd] in Hrun2. set (r := pull_code failed) in *.
  set (p0 := let '(m, s, t) := device_stat dev rpath in msg_stat m s t).
  set (s0 := msg2 ID_STAT (Z.of_nat (length rpath)) ++ rpath).
  assert (service_run dev dev s0 p0) as Hs0.
  { intros c rest Hr E. eapply serves_more; [by apply request_stat| |constructor].
    cbn [inp sends with_inp]. rewrite E. unfold s0. rewrite !length_app, length_msg2. lia. }
  set (c0 := fresh (p0 ++ p1 ++ p2)).
  set (c1 := sends (with_inp c0 (p1 ++ p2)) s0). set (c2 := sends (with_inp c1 p2) s1).
  destruct (Hrun2 (with_con (mk_client lf c1 0) c2) [] eq_refl eq_refl ltac:(cbn; by rewrite app_nil_r))
    as (cl & E2 & Hf & Hr & Ho & Hi).
  assert (copy_remote_dir_local (mk_client lf c1 0) rpath lpath [] = Done (r, cl, log2)) as Hcopy.
  { unfold copy_remote_dir_local. rewrite !bool_decide_eq_false_2 by done. cbn [orb con app].
    rewrite (Hrun1 c1 p2 eq_refl eq_refl). cbv [mbind outcome_bind]. cbn [negb]. exact E2. }
  assert (outp (con cl) = s0 ++ s1 ++ s2) as Hout by (rewrite Ho; cbn; by rewrite <- !app_assoc).
  assert (service_run dev dev (s0 ++ s1 ++ s2) (p0 ++ p1 ++ p2)) as Hserve
    by (apply (service_run_app dev dev dev); [done|by apply (service_run_app dev dev dev)]).
  assert (forall x, S_ISDIR x = true -> (x =? 0) = false /\ S_ISREG x || S_ISLNK x || S_ISCHR x || S_ISBLK x = false) as Hmode.
  { intros x Hx. unfold S_ISDIR, S_ISREG, S_ISLNK, S_ISCHR, S_ISBLK in *. apply Z.eqb_eq in Hx. rewrite Hx. split; [|done].
    destruct (Z.eqb_spec x 0) as [->|]; done. }
  destruct (Hmode _ Hdir) as [Hnz Hnreg].
  assert (do_sync_pull lf (Some c0) t rpath lpath =
    if negb (r =? 0) then Done (1, Some cl, log2) else Done (0, Some (sync_quit cl), log2 ++ END t (total_bytes cl))) as Hmain.
  { unfold do_sync_pull. rewrite (readmode_served dev rpath c0 (p1 ++ p2)) by done. cbv [mbind outcome_bind]. cbv beta iota zeta.
    rewrite Hnz, Hnreg, Hdir. fold s0 c1. by rewrite Hcopy. }
  exists sent, failed, lf', (p0 ++ p1 ++ p2). rewrite Hsent. destruct failed as [x|]; unfold r, pull_code in Hmain; cbn [negb Z.eqb] in Hmain.
  - destruct (served_to_end dev dev _ _ Hserve) as (c & Es & Eo).
    eexists cl, c, _. split; [done|]. split; [done|]. split; [done|]. split; [exact Hmain|]. rewrite Hout. by split_and!.
  - destruct (served_to_quit dev dev _ _ Hserve) as (c & Es & Eo).
    eexists (sync_quit cl), c, _. split; [done|]. split; [done|]. split; [done|]. split; [exact Hmain|].
    unfold sync_quit, put. rewrite writex_room by done. cbn [snd con with_con outp inp sends files]. rewrite Hout.
    split; [done|]. split; [exact Es|]. split; [by rewrite app_nil_r|]. intros _. split; [by apply Hi|]. rewrite <- Hsent. by apply Hall.
Qed.
End pulling.

(** ** A concrete run *)

Module Demo.
#[global] Instance disk_stat : StatFiles Disk.disk := fs_lstat.

(** The paths of the device as LIST and RECV write them. *)
Definition device : Host.host := Host.mk_host
  [(bs "q/a", (0x81A4, 7, [1; 2])); (bs "q//a", (0x81A4, 7, [1; 2]));
   (bs "q/d/b", (0x81A4, 9, [])); (bs "q/d//b", (0x81A4, 9, []))]
  [(bs "q/", [bs "."; bs "a"; bs "d"]); (bs "q/d/", [bs "b"; bs ".."]); (bs "q//d/", [])].
Definition tree : list entry := [(bs "a", File 0x81A4 2 7); (bs "d", Directory [(bs "b", File 0x81A4 0 9)])].
Definition content (p : bytes) : bytes := if bool_decide (p = bs "q/a") then [1; 2] else [].

Lemma listing_demo (path : bytes) all names :
  no_nul path -> (length path <= 1024)%nat -> fs_readdir device path = Some all ->
  filter (fun name => is_dots name = false) all = names -> Forall (name_fits path) all ->
  forallb (fun name => negb (is_dots name) ||
    match fs_lstat device (path ++ [47] ++ name) with Some x => S_ISDIR (u32 x.1.1) | None => true end) all = true ->
  listing_at device path names.
Proof.
  intros Hn Hl Hr Hf Ha Hd. split; [done|]. split; [done|]. exists all. split; [done|]. split; [done|]. split; [done|].
  rewrite Forall_forall. intros name Hin Hdots x Hx. rewrite forallb_forall in Hd.
  specialize (Hd name ltac:(by apply list_elem_of_In)). by rewrite Hdots, Hx in Hd.
Qed.

Lemma is_tree : device_tree content device (bs "q/") tree.
Proof.
  split; [apply (listing_demo _ [bs "."; bs "a"; bs "d"]); try by_compute; vm_compute; reflexivity|].
  split; [|split; [|done]].
  - split; [vm_compute; reflexivity|]. split; [by_compute|]. split; [reflexivity|]. intros _.
    split; [by_compute|]. split; [by_compute|]. eexists. split; vm_compute; reflexivity.
  - split; [eexists; split; [vm_compute; reflexivity|reflexivity]|]. split.
    + apply (listing_demo _ [bs "b"; bs ".."]); try by_compute; vm_compute; reflexivity.
    + split; [|done]. split; [vm_compute; reflexivity|]. split; [by_compute|]. split; [reflexivity|]. intros _.
      split; [by_compute|]. split; [by_compute|]. eexists. split; vm_compute; reflexivity.
Qed.
End Demo.

Lemma pull_dir_roundtrip_witness :
  exists sent failed lf' replies cl c log,
    sent.*1 ≡ₚ tree_files (with_slash (bs "q")) (with_slash (bs "r")) Demo.tree /\ cut (fun ci => Demo.content (src ci)) sent /\
    pull_files (Disk.demo (bs "r/a") [9]) sent = (failed, lf') /\
    do_sync_pull (Disk.demo (bs "r/a") [9]) (Some (fresh replies)) 5 (bs "q") (bs "r") = Done (pull_code failed, Some cl, log) /\
    files cl = lf' /\
    file_sync_service Demo.device (fresh (outp (con cl))) = Done (Demo.device, c) /\
    outp c = replies ++ (if pull_code failed =? 0 then [] else read_failure) /\
    (failed = None -> inp (con cl) = [] /\ all_fetched Demo.content (Disk.demo (bs "r/a") [9]) lf' sent.*1).
Proof.
  apply (pull_dir_roundtrip (D:=Host.host) (F:=Disk.disk) Demo.content Demo.device (Disk.demo (bs "r/a") [9]) 5
           (bs "q") (bs "r") Demo.tree).
  - by_compute.
  - by_compute.
  - done.
  - done.
  - vm_compute. reflexivity.
  - apply Demo.is_tree.
  - unfold tree_names. cbn [node_names Demo.tree foldr map fst snd]. split_and!; done || by_compute.
Defined.
