(* ===== verification/Services.v ===== *)
(** * Services of the daemon (tools/adb: services.c, framebuffer_service.c,
      log_service.c, remount_service.c)

    What runs behind a service's connection on the device: [Recover], the upload of
    an update in recovery mode; [Framebuffer], both variants of the snapshot;
    [Log], the copy of a log device; [Remount], the search in the mount table; and
    [Restart], the services that restart the daemon or the device.  The connection
    and the files are FileSync's. *)

From S2P Require Import Prelude Io FileSync SyncDirs SyncPush.

Import Wire.

(** ** recover: *)

Module Recover.

Section recover.
Context {F : Type} `{FileSystem F}.

(** The loop: how many bytes are missing when it ends. *)
Fixpoint recover_loop (fuel : nat) (f : F) (s : conn) (fd count : Z) : outcome (Z * F * conn) :=
  if count =? 0 then Done (count, f, s)
  else
    match fuel with
    | O => Stop "fuel"
    | S fuel =>
        let xfer := if 4096 <? count then 4096 else count in
        '(buf, s) ← readx s xfer;
        match buf with
        | None => Done (count, f, s)
        | Some buf =>
            match fs_writex f fd buf with
            | (Some _, f) => Done (count, f, s)
            | (None, f) => recover_loop fuel f s fd (count - xfer)
            end
        end
    end.

Definition update : bytes := bs "/tmp/update".
Definition update_begin : bytes := bs "/tmp/update.begin".

(** The mode is 0644; closing the descriptor of a failed creat does nothing. *)
Definition recover_service (f : F) (s : conn) (cookie : Z) : outcome (F * conn) :=
  let count := u32 cookie in
  match fs_creat f update 0x1A4 with
  | (inr _, f) => Done (f, adb_close s)
  | (inl fd, f) =>
      '(count, f, s) ← recover_loop (S (length (inp s))) f s fd count;
      let '(_, s) := writex s (if count =? 0 then bs "OKAY" else bs "FAIL") in
      let f := fs_close f fd in
      let s := adb_close s in
      match fs_creat f update_begin 0x1A4 with
      | (inl fd, f) => Done (fs_close f fd, s)
      | (inr _, f) => Done (f, s)
      end
  end.
End recover.

Section stored.
Context {F : Type} `{FileSystemFrame F}.

(** The loop has written what it read. *)
Lemma recover_loop_writes fuel : forall (f : F) s fd count p perm d,
  (length (inp s) < fuel)%nat -> eof s = true -> 0 <= count -> fs_writing f fd p perm d (length d) ->
  exists left f' s', recover_loop fuel f s fd count = Done (left, f', s') /\
    outp s' = outp s /\ room s' = room s /\
    (left = 0 -> count <= Z.of_nat (length (inp s)) /\ inp s' = drop (Z.to_nat count) (inp s) /\
       let d' := d ++ take (Z.to_nat count) (inp s) in fs_writing f' fd p perm d' (length d')).
Proof.
  induction fuel as [|fuel IH]; intros f s fd count p perm d Hf He Hc Hw; [lia|]. cbn [recover_loop].
  destruct (Z.eqb_spec count 0) as [->|Hn].
  { eexists 0, f, s. split_and!; [done..|]. intros _. cbn. rewrite app_nil_r. split; [lia|done]. }
  set (xfer := if 4096 <? count then 4096 else count).
  assert (0 < xfer <= count) as Hx by (unfold xfer; destruct (Z.ltb_spec 4096 count); lia).
  unfold readx. destruct (Z.leb_spec xfer (Z.of_nat (length (inp s)))) as [Hle|Hgt]; cbv [mbind outcome_bind]; cbv beta iota.
  - destruct (fs_writex f fd (take (Z.to_nat xfer) (inp s))) as [[e|] f1] eqn:Ew.
    { eexists count, f1, _. split_and!; [done..|]. lia. }
    pose proof (writex_at _ _ _ _ _ _ _ _ Hw Ew) as Hw1.
    rewrite firstn_all, drop_ge, app_nil_r in Hw1 by lia.
    set (s1 := mk_conn _ _ _ _ _).
    destruct (IH f1 s1 fd (count - xfer) p perm (d ++ take (Z.to_nat xfer) (inp s))) as (left & f' & s' & E & Ho & Hr & Hd).
    + unfold s1. cbn. rewrite length_drop. lia.
    + done.
    + lia.
    + by rewrite length_app.
    + exists left, f', s'. split_and!; [done..|]. intros Hl. destruct (Hd Hl) as (Hlen & Hi & Hw').
      unfold s1 in *. cbn [inp] in *. rewrite length_drop in Hlen. rewrite drop_drop in Hi.
      replace (Z.to_nat xfer + Z.to_nat (count - xfer))%nat with (Z.to_nat count) in Hi by lia.
      split; [lia|]. split; [done|].
      rewrite <- app_assoc in Hw'. replace (Z.to_nat count) with (Z.to_nat xfer + Z.to_nat (count - xfer))%nat by lia.
      by rewrite <- take_take_drop.
  - rewrite He. eexists count, f, _. split_and!; [done..|]. lia.
Qed.

(** C32 (safety). The upload of an update reports the truth: on a connection whose
    client writes all it will and reads the answer, the service ends with the
    connection closed and has answered nothing when /tmp/update could not be created,
    or FAIL, or OKAY; and after OKAY /tmp/update has exactly the bytes that were
    announced. *)
Theorem recover_reports (f : F) (s : conn) (cookie : Z) :
  eof s = true -> room s = None ->
  exists f' s' answer, recover_service f s cookie = Done (f', s') /\ closed s' = true /\
    outp s' = outp s ++ answer /\
    (answer = [] /\ (exists e f1, fs_creat f update 0x1A4 = (inr e, f1)) \/
     answer = bs "FAIL" \/
     answer = bs "OKAY" /\ u32 cookie <= Z.of_nat (length (inp s)) /\
       exists perm, fs_regular f' update perm (take (Z.to_nat (u32 cookie)) (inp s))).
Proof.
  intros He Hr. unfold recover_service. destruct (fs_creat f update 0x1A4) as [[fd|e] f1] eqn:Ec.
  2: { eexists f1, _, []. split_and!; [done..|by rewrite app_nil_r|]. left. eauto. }
  destruct (creat_empty _ _ _ _ _ Ec) as [perm Hw].
  destruct (recover_loop_writes (S (length (inp s))) f1 s fd (u32 cookie) _ _ _ ltac:(lia) He (proj1 (Z.mod_pos_bound cookie (2 ^ 32) ltac:(lia))) Hw)
    as (left & f2 & s2 & E & Ho & Hr2 & Hd).
  rewrite E. cbv [mbind outcome_bind]; cbv beta iota. unfold writex. rewrite Hr2, Hr. cbv beta iota zeta.
  assert (forall d, fs_writing f2 fd update perm d (length d) -> forall f' x,
    fs_creat (fs_close f2 fd) update_begin 0x1A4 = (x, f') -> fs_regular f' update perm d) as Hk.
  { intros d Hwd f' x Ex. eapply creat_frame; [|exact Ex|by eapply close_keeps]. by vm_compute. }
  destruct (fs_creat (fs_close f2 fd) update_begin 0x1A4) as [[fd3|e3] f3] eqn:E3.
  all: eexists _, _, _; split_and!; [reflexivity|done|cbn; by rewrite Ho|].
  all: destruct (Z.eqb_spec left 0) as [->|Hn]; [|by right; left].
  all: right; right; destruct (Hd eq_refl) as (Hlen & _ & Hwd); split_and!; [done..|]; exists perm.
  - apply close_frame. by eapply Hk.
  - by eapply Hk.
Qed.

(** The marker of a complete update is created after FAIL too. *)
Lemma begun_after_failure (f f1 : F) fd s cookie :
  fs_creat f update 0x1A4 = (inl fd, f1) -> eof s = true -> Z.of_nat (length (inp s)) < u32 cookie <= 4096 ->
  exists s', recover_service f s cookie =
    Done (match fs_creat (fs_close f1 fd) update_begin 0x1A4 with
          | (inl fd2, f2) => fs_close f2 fd2 | (inr _, f2) => f2 end, s').
Proof.
  intros Ec He Hl. unfold recover_service. rewrite Ec. cbn [recover_loop].
  destruct (Z.eqb_spec (u32 cookie) 0); [lia|]. destruct (Z.ltb_spec 4096 (u32 cookie)); [lia|].
  unfold readx. destruct (Z.leb_spec (u32 cookie) (Z.of_nat (length (inp s)))); [lia|]. rewrite He.
  cbv [mbind outcome_bind]; cbv beta iota zeta. destruct (writex _ _) as [ok s2].
  destruct (fs_creat (fs_close f1 fd) update_begin 0x1A4) as [[fd2|e] f2]; eauto.
Qed.
End stored.

End Recover.

(** ** framebuffer: *)

Module Framebuffer.

(** The offset and length of a colour. *)
Record bitfield := mk_field { offset : Z; length : Z }.
(** What the code uses of struct fb_var_screeninfo: unsigned words. *)
Record vinfo := mk_vinfo {
  xres : Z; yres : Z; xoffset : Z; yoffset : Z; bits_per_pixel : Z;
  red : bitfield; green : bitfield; blue : bitfield; transp : bitfield
}.

Definition DDMS_RAWIMAGE_VERSION : Z := 1.
Record fbinfo := mk_fbinfo {
  version : Z; bpp : Z; size : Z; width : Z; height : Z;
  red_offset : Z; red_length : Z; blue_offset : Z; blue_length : Z;
  green_offset : Z; green_length : Z; alpha_offset : Z; alpha_length : Z
}.
Definition fields (i : fbinfo) : list Z :=
  [version i; bpp i; size i; width i; height i; red_offset i; red_length i; blue_offset i; blue_length i;
   green_offset i; green_length i; alpha_offset i; alpha_length i].
(** The packed structure as it lies in memory. *)
Definition encode (i : fbinfo) : bytes := concat (map word (fields i)).

(** for(i = 0; i < size; i += step): a block is read and written. *)
Fixpoint blocks (fuel : nat) (step size i : Z) (fb fd : conn) : outcome (bool * conn * conn) :=
  if i <? size then
    match fuel with
    | O => Stop "fuel"
    | S fuel =>
        '(x, fb) ← readx fb step;
        match x with
        | None => Done (false, fb, fd)
        | Some x =>
            let '(ok, fd) := writex fd x in
            if negb ok then Done (false, fb, fd) else blocks fuel step size (u32 (i + step)) fb fd
        end
    end
  else Done (true, fb, fd).

(** The loop and the rest behind it. *)
Definition send_frame (step size : Z) (fb fd : conn) : outcome (conn * conn) :=
  '(ok, fb, fd) ← blocks (S (List.length (inp fb))) step size 0 fb fd;
  if negb ok then Done (fb, fd)
  else
    '(x, fb) ← readx fb (size mod step);
    match x with
    | None => Done (fb, fd)
    | Some x => let '(_, fd) := writex fd x in Done (fb, fd)
    end.

(** *** With the frame buffer device *)

Definition bytespp (v : vinfo) : Z := bits_per_pixel v / 8.
Definition info_of (v : vinfo) : fbinfo :=
  mk_fbinfo DDMS_RAWIMAGE_VERSION (bits_per_pixel v) (u32 (u32 (xres v * yres v) * bytespp v)) (xres v) (yres v)
    (offset (red v)) (length (red v)) (offset (blue v)) (length (blue v))
    (offset (green v)) (length (green v)) (offset (transp v)) (length (transp v)).
(** Where the visible part starts. *)
Definition start_of (v : vinfo) : Z :=
  let offset := i32 (u32 (xoffset v * bytespp v)) in
  i32 (u32 (offset + u32 (u32 (xres v * yoffset v) * bytespp v))).

(** The device: [None] when it cannot be opened; what the ioctl says, if it works;
    what can be read after lseek was asked for an offset. *)
Definition framebuffer_service (device : option (option vinfo * (Z -> conn))) (fd : conn)
    : outcome (option conn * conn) :=
  match device with
  | None => Done (None, adb_close fd)
  | Some (None, at_offset) => Done (Some (adb_close (at_offset 0)), adb_close fd)
  | Some (Some v, at_offset) =>
      let info := info_of v in
      let '(ok, fd) := writex fd (encode info) in
      if negb ok then Done (Some (adb_close (at_offset 0)), adb_close fd)
      else
        '(fb, fd) ← send_frame 256 (size info) (at_offset (start_of v)) fd;
        Done (Some (adb_close fb), adb_close fd)
  end.

(** *** With the program screencap (USE_SCREENCAP) *)

Definition format_map : list (list Z) := [
  [0; 0; 0; 0; 0; 0; 0; 0; 0];
  [32; 0; 8; 8; 8; 16; 8; 24; 8];
  [32; 0; 8; 8; 8; 16; 8; 0; 0];
  [24; 16; 8; 8; 8; 0; 8; 0; 0];
  [16; 11; 5; 5; 6; 0; 5; 0; 0];
  [32; 16; 8; 8; 8; 0; 8; 24; 8];
  [16; 11; 5; 6; 5; 1; 5; 0; 1];
  [16; 12; 4; 8; 4; 4; 4; 0; 4]].
Definition HAL_PIXEL_FORMAT_RGBA_4444 : Z := 7.

(** fill_format: [None] is -ENOTSUP.  The other fields are set before. *)
Definition fill_format (size width height : Z) (format : Z) : outcome (option fbinfo) :=
  if (format =? 0) || (HAL_PIXEL_FORMAT_RGBA_4444 <? format) then Done None
  else if format <? 0 then Undef "format_map read outside"
  else
    match format_map !! Z.to_nat format with
    | Some [b; ro; rl; go; gl; bo; bl; ao; al] =>
        Done (Some (mk_fbinfo DDMS_RAWIMAGE_VERSION b size width height ro rl bo bl go gl ao al))
    | _ => Undef "format_map read outside"
    end.

Definition checked_int (z : Z) : outcome Z :=
  if (- 2 ^ 31 <=? z) && (z <? 2 ^ 31) then Done z else Undef "signed overflow".

(** [pair]: [None] when the socket pair cannot be made, then [None] when fork fails,
    then what screencap writes.  The daemon keeps the writing end open too, so that
    reading never finds an end.  The result has the reading end, when there is one. *)
Definition screencap_service (pair : option (option bytes)) (fd : conn) : outcome (option conn * conn) :=
  match pair with
  | None => Undef "close of an unset descriptor"
  | Some None => Done (None, adb_close fd)
  | Some (Some output) =>
      let done (fb fd : conn) := Done (Some (adb_close fb), adb_close fd) in
      let int x := i32 (le_combine x) in
      let fb := mk_conn output false [] None false in
      '(w, fb) ← readx fb 4;
      match w with None => done fb fd | Some w =>
      '(h, fb) ← readx fb 4;
      match h with None => done fb fd | Some h =>
      '(f, fb) ← readx fb 4;
      match f with None => done fb fd | Some f =>
      wh ← checked_int (int w * int h);
      wh4 ← checked_int (wh * 4);
      info ← fill_format (u32 wh4) (u32 (int w)) (u32 (int h)) (int f);
      match info with None => done fb fd | Some info =>
      let '(ok, fd) := writex fd (encode info) in
      if negb ok then done fb fd
      else '(fb, fd) ← send_frame 512 (size info) fb fd; done fb fd
      end end end end
  end.

(** *** What arrives *)

(** How many bytes are sent for a frame: whole blocks, and the rest again. *)
Definition sent (step size : Z) : Z := (size + step - 1) / step * step + size mod step.

Lemma blocks_send fuel step size : forall i fb fd, 0 < step -> 0 <= size -> 0 <= i -> i mod step = 0 -> size + step <= 2 ^ 32 ->
  i <= (size + step - 1) / step * step ->
  room fd = None -> (size + step - 1) / step * step - i <= Z.of_nat (List.length (inp fb)) -> (List.length (inp fb) < fuel)%nat ->
  blocks fuel step size i fb fd =
    let n := Z.to_nat ((size + step - 1) / step * step - i) in
    Done (true, mk_conn (drop n (inp fb)) (eof fb) (outp fb) (room fb) (closed fb),
          mk_conn (inp fd) (eof fd) (outp fd ++ take n (inp fb)) None (closed fd)).
Proof.
  induction fuel as [|fuel IH]; intros i fb fd Hstep Hs Hi Hm Hb Hle Hr Hl Hf; [lia|]. cbn [blocks].
  set (top := (size + step - 1) / step * step) in *.
  assert (size <= top < size + step) as Htop.
  { unfold top. pose proof (Z.div_mod (size + step - 1) step ltac:(lia)).
    pose proof (Z.mod_pos_bound (size + step - 1) step ltac:(lia)). nia. }
  assert (exists k, i = k * step) as [k ->] by (exists (i / step); pose proof (Z.div_mod i step ltac:(lia)); nia).
  assert (exists t, top = t * step) as [t Et] by (by eexists). clearbody top.
  destruct (Z.ltb_spec (k * step) size) as [Hlt|Hge].
  - assert (k * step + step <= top) as Hnext.
    { rewrite Et in *. assert (k < t) by nia. nia. }
    unfold readx. destruct (Z.leb_spec step (Z.of_nat (List.length (inp fb)))); [|lia].
    cbv [mbind outcome_bind]; cbv beta iota. unfold writex. rewrite Hr. cbv beta iota zeta.
    assert (u32 (k * step + step) = k * step + step) as -> by (apply Z.mod_small; lia).
    replace (k * step + step) with ((k + 1) * step) by lia.
    rewrite IH; cbn [inp eof outp room closed negb]; try done; try lia.
    + f_equal. f_equal; [f_equal|]; f_equal.
      * rewrite drop_drop. f_equal. lia.
      * rewrite <- app_assoc. f_equal. rewrite take_take_drop. f_equal. lia.
    + apply Z.mod_mul. lia.
    + rewrite length_drop. lia.
    + rewrite length_drop. lia.
  - assert (t = k) as ->.
    { rewrite Et in *. assert (k <= t) by nia. assert (t < k + 1) by nia. lia. }
    cbv zeta. rewrite Et. replace (Z.to_nat (k * step - k * step)) with 0%nat by lia.
    rewrite drop_0, take_0, app_nil_r. destruct fb, fd; cbn in *; by subst.
Qed.


Lemma sent_exact step size : 0 < step -> size mod step = 0 -> sent step size = size.
Proof.
  intros Hs Hm. unfold sent. rewrite Hm, Z.add_0_r. pose proof (Z.div_mod size step ltac:(lia)) as E. rewrite Hm in E.
  replace (size + step - 1) with (size / step * step + (step - 1)) by lia.
  rewrite Z.div_add_l, (Z.div_small (step - 1) step) by lia. lia.
Qed.

(** Otherwise more than the frame is sent. *)
Lemma sent_too_much step size : 0 < step -> size mod step <> 0 -> size < sent step size.
Proof.
  intros Hs Hm. unfold sent. pose proof (Z.mod_pos_bound size step Hs). pose proof (Z.div_mod (size + step - 1) step ltac:(lia)).
  pose proof (Z.mod_pos_bound (size + step - 1) step Hs). nia.
Qed.

Lemma send_frame_sends step size fb fd : 0 < step -> 0 <= size -> size + step <= 2 ^ 32 -> room fd = None ->
  sent step size <= Z.of_nat (List.length (inp fb)) ->
  exists fb' fd', send_frame step size fb fd = Done (fb', fd') /\
    outp fd' = outp fd ++ take (Z.to_nat (sent step size)) (inp fb).
Proof.
  intros Hs Hz Hb Hr Hl. unfold send_frame. pose proof (Z.mod_pos_bound size step Hs) as Hm. unfold sent in *.
  assert (0 <= (size + step - 1) / step * step) as H0 by (pose proof (Z.div_pos (size + step - 1) step); nia).
  rewrite blocks_send by (try done; try lia). cbv [mbind outcome_bind]; cbv beta iota zeta. cbn [negb].
  unfold readx. cbn [inp eof]. rewrite length_drop.
  destruct (Z.leb_spec (size mod step) (Z.of_nat (List.length (inp fb) - Z.to_nat ((size + step - 1) / step * step - 0)))); [|lia].
  cbv beta iota. unfold writex. cbn [room]. cbv beta iota. eexists _, _. split; [reflexivity|]. cbn [outp inp].
  rewrite <- app_assoc. f_equal. rewrite take_take_drop. f_equal. lia.
Qed.

(** The client's view of the header. *)
Definition decode (b : bytes) : fbinfo :=
  mk_fbinfo (get 0 b) (get 1 b) (get 2 b) (get 3 b) (get 4 b) (get 5 b) (get 6 b) (get 7 b) (get 8 b)
    (get 9 b) (get 10 b) (get 11 b) (get 12 b).

Lemma get_words ws rest : forall i w, Forall is_u32 ws -> ws !! i = Some w -> get i (concat (map word ws) ++ rest) = w.
Proof.
  induction ws as [|w0 ws IH]; intros i w Hws Hi; [done|]. apply Forall_cons in Hws as [Hw0 Hws].
  destruct i as [|i]; cbn [lookup list_lookup] in Hi; cbn [map concat]; rewrite <- app_assoc.
  - simplify_eq. by eapply get_word.
  - rewrite <- (IH i w Hws Hi). unfold get. do 2 f_equal.
    replace (4 * S i)%nat with (List.length (word w0) + 4 * i)%nat by (cbn; lia). by rewrite drop_app_add.
Qed.

Lemma decode_encode i rest : Forall is_u32 (fields i) -> decode (encode i ++ rest) = i.
Proof.
  intros Hi. pose proof (fun k w => get_words (fields i) rest k w Hi) as Hg. unfold decode, encode.
  destruct i; cbn [fields lookup list_lookup] in *; f_equal; by apply Hg.
Qed.
Lemma length_encode i : List.length (encode i) = 52%nat.
Proof. done. Qed.

Record screen (v : vinfo) : Prop := {
  sc_words : Forall is_u32 [bits_per_pixel v; xres v; yres v; offset (red v); length (red v); offset (blue v);
    length (blue v); offset (green v); length (green v); offset (transp v); length (transp v)];
  sc_size : size (info_of v) + 256 <= 2 ^ 32
}.

Lemma info_words v : screen v -> Forall is_u32 (fields (info_of v)).
Proof.
  intros [Hw _]. unfold fields, info_of. cbn. repeat (apply Forall_cons in Hw as [? Hw]).
  repeat (apply Forall_cons; split); try done. apply is_u32_u32.
Qed.

(** What a client of the framebuffer service gets for a screen that
    can be read: a header from which it takes the geometry and the colours of the
    screen, and behind it the bytes of the visible frame; both ends are closed. *)
Theorem framebuffer_roundtrip v at_offset fd (pixels := inp (at_offset (start_of v))) :
  screen v -> room fd = None -> sent 256 (size (info_of v)) <= Z.of_nat (List.length pixels) ->
  exists fb fd' d, framebuffer_service (Some (Some v, at_offset)) fd = Done (Some fb, fd') /\
    closed fb = true /\ closed fd' = true /\ outp fd' = outp fd ++ d /\
    decode d = info_of v /\
    let n := Z.to_nat (size (info_of v)) in take n (drop 52 d) = take n pixels /\
    (n mod 256 = 0 -> drop 52 d = take n pixels)%nat.
Proof.
  intros Hv Hr Hl. unfold framebuffer_service, writex. rewrite Hr. cbv beta iota. cbn [negb].
  set (fd1 := mk_conn _ _ _ _ _). set (sz := size (info_of v)) in *.
  assert (0 <= sz) as Hz by (apply Z.mod_pos_bound; lia).
  destruct (send_frame_sends 256 sz (at_offset (start_of v)) fd1 ltac:(lia) Hz (sc_size v Hv) eq_refl Hl)
    as (fb' & fd' & E & Ho).
  rewrite E. cbv [mbind outcome_bind]; cbv beta iota.
  exists (adb_close fb'), (adb_close fd'), (encode (info_of v) ++ take (Z.to_nat (sent 256 sz)) pixels).
  split_and!; [done..| | | |].
  - cbn [adb_close outp]. rewrite Ho. unfold fd1. cbn [outp]. by rewrite <- app_assoc.
  - apply decode_encode. by apply info_words.
  - rewrite drop_app_length' by done. rewrite take_take. f_equal.
    destruct (decide (sz mod 256 = 0)); [rewrite sent_exact by (done || lia)|pose proof (sent_too_much 256 sz ltac:(lia) ltac:(done))]; lia.
  - intros Hm. rewrite drop_app_length' by done. f_equal. f_equal. apply sent_exact; [lia|].
    apply (f_equal Z.of_nat) in Hm. by rewrite Nat2Z.inj_mod, Z2Nat.id in Hm.
Qed.

Lemma read_word_int w rest fb : 0 <= w < 2 ^ 31 -> inp fb = word w ++ rest ->
  exists x, readx fb 4 = Done (Some x, mk_conn rest (eof fb) (outp fb) (room fb) (closed fb)) /\ i32 (le_combine x) = w.
Proof.
  intros Hw E. assert (List.length (word w) = 4%nat) as El by apply length_le_split.
  exists (word w). unfold readx. rewrite E, length_app, El.
  destruct (Z.leb_spec 4 (Z.of_nat (4 + List.length rest))); [|lia]. split.
  - by rewrite take_app_length', drop_app_length' by lia.
  - unfold word. rewrite le_combine_split. rewrite (Z.mod_small w) by lia. apply i32_small. lia.
Qed.

(** The same for screencap. *)
Lemma screencap_sends w h f info rest fd (n := w * h * 4) :
  0 <= w < 2 ^ 31 -> 0 <= h < 2 ^ 31 -> 0 < f < 2 ^ 31 -> n + 512 <= 2 ^ 31 -> fill_format n w h f = Done (Some info) ->
  room fd = None -> sent 512 n <= Z.of_nat (List.length rest) ->
  exists fb fd', screencap_service (Some (Some (word w ++ word h ++ word f ++ rest))) fd = Done (Some fb, fd') /\
    outp fd' = outp fd ++ encode info ++ take (Z.to_nat (sent 512 n)) rest.
Proof.
  intros Hw Hh Hf Hn Ei Hr Hl. unfold screencap_service. set (fb0 := mk_conn _ false _ _ _).
  assert (0 <= w * h) as Hwh by nia.
  destruct (read_word_int w (word h ++ word f ++ rest) fb0 Hw eq_refl) as (xw & Ew & Iw). rewrite Ew. cbv [mbind outcome_bind]; cbv beta iota.
  set (fb1 := mk_conn _ _ _ _ _). destruct (read_word_int h (word f ++ rest) fb1 Hh eq_refl) as (xh & Eh & Ih). rewrite Eh. cbv beta iota.
  set (fb2 := mk_conn _ _ _ _ _). destruct (read_word_int f rest fb2 ltac:(lia) eq_refl) as (xf & Ef & If). rewrite Ef. cbv beta iota.
  set (fb3 := mk_conn _ _ _ _ _). rewrite Iw, Ih, If. unfold checked_int.
  rewrite (proj2 (Z.leb_le (- 2 ^ 31) (w * h))), (proj2 (Z.ltb_lt (w * h) (2 ^ 31))) by lia. cbv beta iota. cbn [andb].
  fold n. rewrite (proj2 (Z.leb_le (- 2 ^ 31) n)), (proj2 (Z.ltb_lt n (2 ^ 31))) by lia. cbv beta iota. cbn [andb].
  rewrite !u32_small by (unfold is_u32; lia). rewrite Ei. cbv beta iota.
  assert (size info = n) as ->.
  { unfold fill_format in Ei. repeat (case_match; try done). by simplify_eq. }
  unfold writex at 1. rewrite Hr. cbn [negb].
  destruct (send_frame_sends 512 n fb3 (mk_conn (inp fd) (eof fd) (outp fd ++ encode info) None (closed fd))
    ltac:(lia) ltac:(lia) ltac:(lia) eq_refl Hl) as (fb' & fd' & E & Ho).
  rewrite E. eexists _, _. split; [reflexivity|]. cbn. rewrite Ho. cbn [outp]. by rewrite <- app_assoc.
Qed.

(** A program that dies early is waited for without end, and a negative format reads
    in front of the table. *)
Lemma screencap_hangs output fd : (List.length output < 4)%nat -> screencap_service (Some (Some output)) fd = Stop "read waits".
Proof.
  intros Hl. unfold screencap_service, readx. cbn [inp eof].
  by destruct (Z.leb_spec 4 (Z.of_nat (List.length output))); [lia|].
Qed.
Lemma negative_format size width height f : f < 0 -> fill_format size width height f = Undef "format_map read outside".
Proof.
  intros Hf. unfold fill_format, HAL_PIXEL_FORMAT_RGBA_4444. destruct (Z.eqb_spec f 0); [lia|].
  destruct (Z.ltb_spec 7 f); [lia|]. by destruct (Z.ltb_spec f 0); [|lia].
Qed.

End Framebuffer.

(** ** log: *)

Module Log.

(** struct logger_entry of the log driver: the size of the header, the most bytes an
    entry has, and the length of the message, from the header. *)
Class Logger := { header : Z; entry_max : Z; entry_len : bytes -> Z }.

Section log.
Context `{Logger}.

(** The entry in the buffer, of [entry_max] + 1 bytes, goes out behind a zero that is
    put after its message; whether it could be written is not looked at. *)
Definition write_log_entry (fd : conn) (buf : bytes) : outcome conn :=
  if Z.of_nat (length buf) <? header + entry_len buf then Undef "read behind the entry"
  else Done (writex fd (take (Z.to_nat (header + entry_len buf)) buf)).2.

(** The loop over the driver's reads. *)
Fixpoint log_loop (fuel : nat) (reads : list Io.rd) (buf : bytes) (fd : conn) : outcome conn :=
  match fuel with
  | O => Stop "fuel"
  | S fuel =>
      match Io.adb_read reads (Z.to_nat entry_max) with
      | None => Stop "read waits"
      | Some (Io.RFail e, reads) =>
          if decide (e = EINTR \/ e = EAGAIN) then log_loop fuel reads buf fd else Done fd
      | Some (Io.RZero, _) => Done fd
      | Some (Io.Got d, reads) =>
          let buf := d ++ drop (length d) buf in
          buf ← deref "write behind the entry" (store buf (Z.to_nat (header + entry_len buf)) 0);
          fd ← write_log_entry fd buf;
          log_loop fuel reads buf fd
      end
  end.

(** [reads]: what the log device gives, [None] when it cannot be opened; [stack]: what
    the buffer holds at first.  The device stays open. *)
Definition log_service (reads : option (list Io.rd)) (stack : bytes) (fd : conn) : outcome conn :=
  match reads with
  | None => Done (adb_close fd)
  | Some reads => fd ← log_loop (Io.rd_weight reads) reads stack fd; Done (adb_close fd)
  end.

Definition get_log_file_path (log_name : bytes) : bytes := bs "/dev/log/" ++ log_name.

(** An entry as the driver hands it out: whole, in one read, its message as long as
    the header says. *)
Record whole (e : bytes) : Prop := {
  whole_len : Z.of_nat (length e) = header + entry_len e;
  whole_max : 0 < Z.of_nat (length e) <= entry_max
}.
(** The header alone decides about the length. *)
Definition by_header : Prop := forall e rest, Z.of_nat (length e) = header + entry_len e -> entry_len (e ++ rest) = entry_len e.

(** What a device gives: entries, with interruptions, and an end. *)
Inductive device : list Io.rd -> list bytes -> Prop :=
  | dev_end : device [Io.REof] []
  | dev_error e l : e <> EINTR -> e <> EAGAIN -> device (Io.RErr e :: l) []
  | dev_again e l es : e = EINTR \/ e = EAGAIN -> device l es -> device (Io.RErr e :: l) es
  | dev_entry b d l es : whole (b :: d) -> device l es -> device (Io.RData b d :: l) ((b :: d) :: es).

Lemma log_loop_copies reads es : by_header -> device reads es -> forall fuel buf fd,
  Z.of_nat (length buf) = entry_max + 1 -> room fd = None -> (Io.rd_weight reads <= fuel)%nat ->
  log_loop fuel reads buf fd = Done (mk_conn (inp fd) (eof fd) (outp fd ++ concat es) None (closed fd)).
Proof.
  intros Hh. induction 1 as [|e l H1 H2|e l es He _ IH|b d l es [Hl Hm] _ IH]; intros fuel buf fd Hb Hr Hf;
    (destruct fuel as [|fuel]; [cbn in Hf; lia|]); cbn [log_loop Io.adb_read].
  - destruct fd; cbn in *; subst; by rewrite app_nil_r.
  - rewrite decide_False by tauto. destruct fd; cbn in *; subst; by rewrite app_nil_r.
  - rewrite decide_True by done. apply IH; [done|done|cbn in Hf; lia].
  - set (e := b :: d) in *. rewrite decide_True by lia.
    set (buf1 := e ++ drop (length e) buf).
    assert (Z.of_nat (length buf1) = entry_max + 1) as Hb1.
    { unfold buf1. rewrite length_app, length_drop. lia. }
    unfold buf1 at 2. rewrite (Hh e _ Hl), <- Hl, Nat2Z.id. unfold store. rewrite decide_True by (fold buf1; lia).
    cbv [deref mbind outcome_bind]; cbv beta iota.
    assert (exists rest, <[length e := 0]> buf1 = e ++ rest) as [rest Er].
    { exists (<[0%nat := 0]> (drop (length e) buf)). unfold buf1. by rewrite insert_app_r_alt, Nat.sub_diag by lia. }
    assert (Z.of_nat (length (e ++ rest)) = entry_max + 1) as Hb2 by (rewrite <- Er, length_insert; done).
    rewrite Er. unfold write_log_entry. rewrite (Hh e _ Hl), <- Hl, Nat2Z.id.
    destruct (Z.ltb_spec (Z.of_nat (length (e ++ rest))) (Z.of_nat (length e))) as [Hlt|_]; [lia|].
    unfold writex. rewrite Hr, take_app_length. cbn [snd].
    rewrite IH; [|done|done|cbn in Hf; lia]. cbn. by rewrite <- app_assoc.
Qed.

(** The client gets the entries of the log, in order. *)
Lemma log_copies reads es stack fd : by_header -> device reads es ->
  Z.of_nat (length stack) = entry_max + 1 -> room fd = None ->
  log_service (Some reads) stack fd = Done (mk_conn (inp fd) (eof fd) (outp fd ++ concat es) None true).
Proof. intros Hh Hd Hs Hr. unfold log_service. by rewrite (log_loop_copies _ es Hh Hd _ _ _ Hs Hr). Qed.

(** When nobody reads any more the service goes on all the same. *)
Lemma log_goes_on (b : Z) d buf fd : by_header -> whole (b :: d) -> Z.of_nat (length buf) = entry_max + 1 ->
  room fd = Some 0%nat -> forall n, log_loop (S n) (replicate n (Io.RData b d)) buf fd = Stop "read waits".
Proof.
  intros Hh [Hl Hm] Hb Hr n. revert buf Hb fd Hr. induction n as [|n IH]; intros buf Hb fd Hr; [done|].
  change (replicate (S n) (Io.RData b d)) with (Io.RData b d :: replicate n (Io.RData b d)).
  cbn [log_loop Io.adb_read]. set (e := b :: d) in *. rewrite decide_True by lia.
  rewrite (Hh e _ Hl), <- Hl, Nat2Z.id. unfold store. rewrite decide_True by (rewrite length_app, length_drop; lia).
  cbv [deref mbind outcome_bind]; cbv beta iota. rewrite insert_app_r_alt, Nat.sub_diag by lia.
  set (rest := <[0%nat:=0]> _). assert (length rest = length (drop (length e) buf)) as Hlr by apply length_insert.
  unfold write_log_entry. rewrite (Hh e _ Hl), <- Hl, Nat2Z.id.
  destruct (Z.ltb_spec (Z.of_nat (length (e ++ rest))) (Z.of_nat (length e))) as [Hlt|_]; [rewrite length_app in Hlt; lia|].
  apply IH.
  - rewrite length_app, Hlr, length_drop. lia.
  - rewrite take_app_length. unfold writex. rewrite Hr. case_decide as Hd; [cbn in Hd; lia|]. done.
Qed.

End log.
End Log.

(** ** remount: *)

Module Remount.

(** strtok with a newline (10): the pieces between newlines that are not empty. *)
Fixpoint tokens (cur s : bytes) : list bytes :=
  let piece := match cur with [] => [] | _ => [cur] end in
  match s with
  | [] => piece
  | ch :: s => if ch =? 10 then piece ++ tokens [] s else tokens (cur ++ [ch]) s
  end.

(** sscanf: a word of at most [n] characters ([None]: any number) and what follows. *)
Fixpoint word_of (n : nat) (s : bytes) : bytes * bytes :=
  match n, s with
  | S n, ch :: s' => if is_space ch then ([], s) else let '(w, r) := word_of n s' in (ch :: w, r)
  | _, _ => ([], s)
  end.
Definition scan_s (n : option nat) (s : bytes) : option (bytes * bytes) :=
  let s := skip_space s in
  let '(w, r) := word_of (default (length s) n) s in
  match w with [] => None | _ => Some (w, r) end.
Definition is_digit (ch : Z) : bool := (48 <=? ch) && (ch <=? 57).
Fixpoint skip_digits (s : bytes) : bytes :=
  match s with ch :: s' => if is_digit ch then skip_digits s' else s | [] => [] end.
(** %d: the numbers are not used, only that they are there. *)
Definition scan_d (s : bytes) : option bytes :=
  let s := skip_space s in
  let s := match s with ch :: s' => if (ch =? 43) || (ch =? 45) then s' else s | [] => [] end in
  match s with
  | ch :: _ => if is_digit ch then Some (skip_digits s) else None
  | [] => None
  end.

(** The line, when all four values are there: device and directory. *)
Definition scan_mount (token : bytes) : option (bytes * bytes) :=
  '(mount_dev, s) ← scan_s (Some 255%nat) token;
  '(mount_dir, s) ← scan_s (Some 255%nat) s;
  '(_, s) ← scan_s None s;
  '(_, s) ← scan_s None s;
  s ← scan_d s;
  _ ← scan_d s;
  Some (mount_dev, mount_dir).

(** The search.  [mounts]: what one read of /proc/mounts gives, [None] when it cannot
    be opened, and in it [None] when it cannot be read; [stack]: what the 4095
    characters of the buffer hold before.  No zero is put behind what was read. *)
Definition find_mount (mounts : option (option bytes)) (stack : bytes) (dir : bytes) : option bytes :=
  match mounts with
  | None => None
  | Some text =>
      let text := take 4095 (default [] text) in
      let buf := until_nul (text ++ drop (length text) stack) in
      fst <$> head (filter (fun x : bytes * bytes => x.2 = dir) (omap scan_mount (tokens [] buf)))
  end.

(** [system_ro] is static; [mount] the result of mount for a device. *)
Definition remount_system (system_ro : Z) (dev : option bytes) (mount : bytes -> Z) : Z * Z :=
  if system_ro =? 0 then (0, system_ro)
  else
    match dev with
    | None => (-1, system_ro)
    | Some dev => let system_ro := mount dev in (system_ro, system_ro)
    end.

(** [why]: strerror of what errno is then. *)
Definition remount_service (system_ro : Z) (dev : option bytes) (mount : bytes -> Z) (why : bytes) (fd : conn) : Z * conn :=
  let '(ret, system_ro) := remount_system system_ro dev mount in
  let text := if ret =? 0 then bs "remount succeeded" ++ [10]
              else snprintf 200 (bs "remount failed: " ++ why ++ [10]) in
  (system_ro, adb_close (writex fd text).2).

(** *** A line of the table is found *)

Record mount_line := mk_mount { m_dev : bytes; m_dir : bytes; m_type : bytes; m_opts : bytes; m_freq : bytes; m_passno : bytes }.
Definition print_mount (m : mount_line) : bytes :=
  m_dev m ++ 32 :: m_dir m ++ 32 :: m_type m ++ 32 :: m_opts m ++ 32 :: m_freq m ++ 32 :: m_passno m.
Definition print_mounts (ms : list mount_line) : bytes := concat (map (fun m => print_mount m ++ [10]) ms).

Definition solid (w : bytes) : Prop := w <> [] /\ Forall (fun ch => is_space ch = false /\ ch <> 0) w.
Definition number (w : bytes) : Prop := w <> [] /\ Forall (fun ch => is_digit ch = true) w.
Record mount_ok (m : mount_line) : Prop := {
  ok_dev : solid (m_dev m); ok_dev_short : (length (m_dev m) <= 255)%nat;
  ok_dir : solid (m_dir m); ok_dir_short : (length (m_dir m) <= 255)%nat;
  ok_type : solid (m_type m); ok_opts : solid (m_opts m);
  ok_freq : number (m_freq m); ok_passno : number (m_passno m)
}.

Lemma solid_skip w rest : solid w -> skip_space (w ++ rest) = w ++ rest.
Proof.
  intros [Hn Hw]. destruct w as [|ch w]; [done|]. apply Forall_cons in Hw as [[Hc _] _]. cbn. by rewrite Hc.
Qed.

Lemma word_of_solid w rest : Forall (fun ch => is_space ch = false /\ ch <> 0) w -> forall n, (length w <= n)%nat ->
  word_of n (w ++ 32 :: rest) = (w, 32 :: rest).
Proof.
  induction 1 as [|ch w [Hc _] _ IH]; intros n Hn.
  - by destruct n.
  - destruct n as [|n]; [cbn in Hn; lia|]. cbn. rewrite Hc, IH by (cbn in Hn; lia). done.
Qed.

Lemma scan_solid n w rest : solid w -> (forall k, n = Some k -> length w <= k)%nat ->
  scan_s n (w ++ 32 :: rest) = Some (w, 32 :: rest).
Proof.
  intros Hw Hn. unfold scan_s. rewrite solid_skip by done. rewrite word_of_solid; [|apply Hw|].
  - destruct w; [by destruct Hw|done].
  - destruct n as [k|]; cbn; [by apply Hn|]. rewrite length_app. lia.
Qed.

Lemma scan_after_space n rest : scan_s n (32 :: rest) = scan_s n rest.
Proof. done. Qed.

Lemma digit_solid w : number w -> solid w.
Proof.
  intros [Hn Hw]. split; [done|]. eapply Forall_impl; [exact Hw|]. intros ch Hd. cbn in Hd.
  unfold is_digit in Hd. apply andb_true_iff in Hd as [H1%Z.leb_le H2%Z.leb_le]. unfold is_space.
  split; [|lia]. destruct (Z.eqb_spec ch 32); [lia|]. destruct (Z.leb_spec 9 ch), (Z.leb_spec ch 13); (done || lia).
Qed.

Lemma skip_digits_all w rest : Forall (fun ch => is_digit ch = true) w -> skip_digits (w ++ rest) = skip_digits rest.
Proof. induction 1 as [|ch w Hc _ IH]; [done|]. cbn. by rewrite Hc. Qed.

Lemma scan_number w rest : number w -> scan_d (w ++ rest) = Some (skip_digits rest) /\ scan_d (32 :: w ++ rest) = Some (skip_digits rest).
Proof.
  intros Hw. assert (scan_d (w ++ rest) = Some (skip_digits rest)) as E; [|done].
  unfold scan_d. rewrite solid_skip by by apply digit_solid. destruct Hw as [Hn Hw].
  destruct w as [|ch w]; [done|]. cbn [app]. pose proof Hw as Hw'. apply Forall_cons in Hw as [Hc _].
  assert ((ch =? 43) || (ch =? 45) = false) as ->.
  { unfold is_digit in Hc. apply andb_true_iff in Hc as [H1%Z.leb_le H2%Z.leb_le].
    destruct (Z.eqb_spec ch 43), (Z.eqb_spec ch 45); (done || lia). }
  rewrite Hc. change (ch :: w ++ rest) with ((ch :: w) ++ rest). by rewrite skip_digits_all.
Qed.

Lemma scan_printed m : mount_ok m -> scan_mount (print_mount m) = Some (m_dev m, m_dir m).
Proof.
  intros []. unfold scan_mount, print_mount.
  rewrite scan_solid by (try done; by intros ? [= <-]). cbn [mbind option_bind].
  rewrite scan_after_space, scan_solid by (try done; by intros ? [= <-]). cbn [mbind option_bind].
  rewrite scan_after_space, scan_solid by done. cbn [mbind option_bind].
  rewrite scan_after_space, scan_solid by done. cbn [mbind option_bind].
  rewrite (proj2 (scan_number (m_freq m) (32 :: m_passno m) ltac:(done))). cbn [mbind option_bind skip_digits].
  change (is_digit 32) with false. cbv iota.
  rewrite <- (app_nil_r (m_passno m)), (proj2 (scan_number (m_passno m) [] ltac:(done))). done.
Qed.

Lemma tokens_line line : forall cur rest, Forall (fun ch => ch <> 10) line -> cur ++ line <> [] ->
  tokens cur (line ++ 10 :: rest) = (cur ++ line) :: tokens [] rest.
Proof.
  induction line as [|ch line IH]; intros cur rest Hl Hn; cbn [tokens app].
  - rewrite app_nil_r in *. destruct cur; done.
  - apply Forall_cons in Hl as [Hc Hl]. rewrite (proj2 (Z.eqb_neq ch 10)) by done.
    rewrite IH by (try done; destruct cur; done). by rewrite <- app_assoc.
Qed.

Lemma solid_chars w : solid w -> Forall (fun ch => ch <> 10 /\ ch <> 0) w.
Proof. intros [_ Hw]. eapply Forall_impl; [exact Hw|]. intros ch [Hs H0]. split; [|done]. by intros ->. Qed.

Lemma printed_chars m : mount_ok m -> Forall (fun ch => ch <> 10 /\ ch <> 0) (print_mount m).
Proof.
  intros []. unfold print_mount.
  repeat first [apply Forall_app; split | apply Forall_cons; split; [lia|]]; apply solid_chars; try done; by apply digit_solid.
Qed.

Lemma tokens_printed ms rest : Forall mount_ok ms -> tokens [] (print_mounts ms ++ rest) = map print_mount ms ++ tokens [] rest.
Proof.
  induction 1 as [|m ms Hm _ IH]; [done|]. unfold print_mounts. cbn [map concat]. rewrite <- !app_assoc. cbn [app].
  rewrite tokens_line.
  - cbn [app]. f_equal. exact IH.
  - eapply Forall_impl; [by apply printed_chars|]. by intros ? [].
  - cbn. destruct Hm. unfold print_mount. destruct ok_dev0 as [Hn _]. by destruct (m_dev m).
Qed.

Lemma until_nul_app s rest : no_nul s -> until_nul (s ++ rest) = s ++ until_nul rest.
Proof. induction 1 as [|b s Hb _ IH]; [done|]. cbn. by rewrite (proj2 (Z.eqb_neq b 0) Hb), IH. Qed.

(** The device that is mounted on a directory is found in the table, whatever the
    buffer holds behind it. *)
Lemma find_mount_finds before m after stack : Forall mount_ok (before ++ m :: after) ->
  (length (print_mounts (before ++ m :: after)) <= 4095)%nat -> Forall (fun x => m_dir x <> m_dir m) before ->
  find_mount (Some (Some (print_mounts (before ++ m :: after)))) stack (m_dir m) = Some (m_dev m).
Proof.
  intros Hok Hl Hb. unfold find_mount. unfold default, id. rewrite (take_ge _ 4095) by done.
  rewrite until_nul_app.
  2: { clear Hl Hb. induction Hok as [|x l Hx _ IH]; [constructor|]. unfold print_mounts. cbn [map concat].
       apply Forall_app; split; [apply Forall_app; split|exact IH].
       - eapply Forall_impl; [by apply printed_chars|]. by intros ? [].
       - by repeat constructor. }
  rewrite tokens_printed by done. rewrite omap_app. clear Hl.
  assert (forall l : list mount_line, Forall mount_ok l -> omap scan_mount (map print_mount l) = map (fun x => (m_dev x, m_dir x)) l) as Hscan.
  { induction 1 as [|x l Hx _ IH]; [done|]. cbn. rewrite scan_printed by done. cbn. by f_equal. }
  rewrite Hscan by done. rewrite map_app, !filter_app. cbn [map].
  assert (filter (fun x : bytes * bytes => x.2 = m_dir m) (map (fun x => (m_dev x, m_dir x)) before) = []) as ->.
  { clear -Hb. induction Hb as [|x l Hx _ IH]; [done|]. cbn [map]. by rewrite filter_cons_False. }
  cbn [app]. rewrite filter_cons_True by done. done.
Qed.

(** A table without the directory lets the old contents of the buffer answer. *)
Lemma stale_mount : let stack := repeat 10 4 ++ bs "x /system y z 0 0" in
  find_mount (Some (Some [10])) stack (bs "/system") = Some (bs "x").
Proof. vm_compute. reflexivity. Qed.

End Remount.

(** ** root:, tcpip:, usb:, reboot: *)

Module Restart.

(** What a service does besides writing: the properties it sets, and how it ends. *)
Inductive ending := Returns | Exits1.

(** [uid]: getuid; [debuggable]: the property ro.debuggable.  The pieces are the
    properties that were set, the connection, and the end. *)
Definition restart_root_service (uid : Z) (debuggable : bytes) (fd : conn) : list (bytes * bytes) * conn * ending :=
  if uid =? 0 then
    ([], adb_close (writex fd (snprintf 100 (bs "adbd is already running as root" ++ [10]))).2, Returns)
  else if bool_decide (debuggable <> bs "1") then
    ([], adb_close (writex fd (snprintf 100 (bs "adbd cannot run as root in production builds" ++ [10]))).2, Returns)
  else
    ([(bs "service.adb.root", bs "1")],
     adb_close (writex fd (snprintf 100 (bs "restarting adbd as root" ++ [10]))).2, Exits1).

(** [value_max]: PROPERTY_VALUE_MAX. *)
Definition restart_tcp_service (value_max port : Z) (fd : conn) : list (bytes * bytes) * conn * ending :=
  if port <=? 0 then ([], adb_close (writex fd (snprintf 100 (bs "invalid port" ++ [10]))).2, Returns)
  else
    let value := snprintf value_max (decimal port) in
    ([(bs "service.adb.tcp.port", value)],
     adb_close (writex fd (snprintf 100 (bs "restarting in TCP mode port: " ++ decimal port ++ [10]))).2, Exits1).

Definition restart_usb_service (fd : conn) : list (bytes * bytes) * conn * ending :=
  ([(bs "service.adb.tcp.port", bs "0")],
   adb_close (writex fd (snprintf 100 (bs "restarting in USB mode" ++ [10]))).2, Exits1).

(** reboot_service in the parent: what it asks the system for, in order. *)
Inductive request := PreCommand | Sync | Vdc | WaitPid (pid : Z) | Reboot (arg : bytes).

(** [recovery_pre]: whether RECOVERY_PRE_COMMAND is defined; [pid]: what fork
    returns; [ret]: the error of __reboot, when it returns at all ([None]: it does
    not, and the service never ends). *)
Definition reboot_service (recovery_pre : bool) (pid : Z) (ret : option (option bytes)) (arg : bytes) (fd : conn)
    : list request * option conn :=
  let asked :=
    (if recovery_pre && bool_decide (take 8 arg = bs "recovery") then [PreCommand] else []) ++ [Sync] ++
    (if 0 <? pid then [Vdc; WaitPid pid] else []) ++ [Reboot arg] in
  (asked,
   match ret with
   | None => None
   | Some None => Some (adb_close fd)
   | Some (Some why) => Some (adb_close (writex fd (snprintf 100 (bs "reboot failed: " ++ why ++ [10]))).2)
   end).

(** dns: of the host; [h_addr]: the bytes of the address of the name. *)
Definition dns_service (h_addr : option bytes) (fd : conn) : conn :=
  adb_close (writex fd (match h_addr with None => word 0 | Some a => take 4 a end)).2.

(** A daemon that restarts has set the property it restarts with, and said so. *)
Lemma exits_after_property value_max port fd props c : 
  12 <= value_max -> port < 2 ^ 31 -> room fd = None ->
  restart_tcp_service value_max port fd = (props, c, Exits1) ->
  0 < port /\ props = [(bs "service.adb.tcp.port", decimal port)] /\
  outp c = outp fd ++ bs "restarting in TCP mode port: " ++ decimal port ++ [10] /\ closed c = true.
Proof.
  intros Hv Hp Hr. unfold restart_tcp_service. destruct (Z.leb_spec port 0); [done|].
  assert (forall k n, (length (decn k n) <= k)%nat) as Hdec.
  { induction k as [|k IH]; intros n; cbn; [lia|]. destruct (n <? 10); cbn; [lia|].
    rewrite length_app. pose proof (IH (n / 10)). cbn. lia. }
  assert (length (decimal port) <= 11)%nat as Hl.
  { unfold decimal. rewrite (proj2 (Z.ltb_ge port 0)) by lia. apply Hdec. }
  rewrite !snprintf_fits; [|rewrite !length_app; cbn; lia|lia].
  unfold writex. rewrite Hr. intros [= <- <-]. done.
Qed.

End Restart.

(** ** Runs *)

Section runs.

Import Framebuffer.

Definition upload : conn := mk_conn [1; 2; 3; 4] true [] None false.

Lemma recover_reports_witness :
  (eof upload = true /\ room upload = None) /\
  (exists f' s' answer, Recover.recover_service (Disk.mk_disk ∅ []) upload 3 = Done (f', s') /\ closed s' = true /\
    outp s' = outp upload ++ answer /\
    (answer = [] /\ (exists e f1, fs_creat (Disk.mk_disk ∅ []) Recover.update 0x1A4 = (inr e, f1)) \/
     answer = bs "FAIL" \/
     answer = bs "OKAY" /\ u32 3 <= Z.of_nat (List.length (inp upload)) /\
       exists perm, fs_regular f' Recover.update perm (take (Z.to_nat (u32 3)) (inp upload)))).
Proof. split; [done|]. apply (Recover.recover_reports (Disk.mk_disk ∅ []) upload 3); done. Defined.

Example recover_runs :
  (fun x => outp x.2) <$> (match Recover.recover_service (Disk.mk_disk ∅ []) upload 3 with Done x => Some x | _ => None end) = Some (bs "OKAY").
Proof. reflexivity. Qed.

(** A screen of two by one pixels of 16 bits, from the third byte on. *)
Definition small : vinfo := mk_vinfo 2 1 1 0 16 (mk_field 11 5) (mk_field 5 6) (mk_field 0 5) (mk_field 0 0).
Definition memory (off : Z) : conn := mk_conn (drop (Z.to_nat off) (repeat 7 600)) true [] None false.

Lemma framebuffer_roundtrip_witness :
  (screen small /\ sent 256 (Framebuffer.size (info_of small)) <= Z.of_nat (List.length (inp (memory (start_of small))))) /\
  exists fb fd' d, framebuffer_service (Some (Some small, memory)) (fresh []) = Done (Some fb, fd') /\
    closed fb = true /\ closed fd' = true /\ outp fd' = d /\ decode d = info_of small.
Proof.
  assert (screen small) as Hs by (split; [repeat constructor; vm_compute; done|vm_compute; done]).
  split; [split; [done|vm_compute; done]|].
  destruct (framebuffer_roundtrip small memory (fresh []) Hs eq_refl ltac:(vm_compute; done)) as (fb & fd' & d & E & H1 & H2 & H3 & H4 & _).
  exists fb, fd', d. done.
Defined.

End runs.
