(* ===== verification/Alloc.v ===== *)
(** * The best-fit allocator of graphics memory (libgralloc/allocator.cpp, allocator.h)

    [LinkedList] has the pointer code of the list template, refined to lists;
    [BestFit] is SimpleBestFitAllocator on the list of its chunks, with size_t of
    32 bits and the 28-bit field for sizes; [Allocator] and [AllocatorLaws] are
    what its clients rely on: the map from the offsets of live blocks to their
    lengths.  The theorems show that blocks never overlap, that a request is
    refused only when no aligned range is free, and that freed memory coalesces. *)

From S2P Require Import Prelude Dlist.

(** ** LinkedList<NODE> of allocator.h *)

Module LinkedList.

(** [mFirst], [mLast] and the nodes' links; [NULL] is 0. *)
Record llist := mk_ll { mFirst : ptr; mLast : ptr; links : Dlist.heap }.

Definition with_links (L : llist) (h : Dlist.heap) : llist := mk_ll (mFirst L) (mLast L) h.

Definition insertAfter (L : llist) (node newNode : ptr) : option llist :=
  h ← Dlist.set_prev (links L) newNode node;
  n ← Dlist.get_next h node; h ← Dlist.set_next h newNode n;
  n ← Dlist.get_next h node;
  L ← (if (n =? NULL)%nat then Some (mk_ll (mFirst L) newNode h)
       else h ← Dlist.set_prev h n newNode; Some (with_links L h));
  h ← Dlist.set_next (links L) node newNode; Some (with_links L h).

Definition insertBefore (L : llist) (node newNode : ptr) : option llist :=
  p ← Dlist.get_prev (links L) node; h ← Dlist.set_prev (links L) newNode p;
  h ← Dlist.set_next h newNode node;
  p ← Dlist.get_prev h node;
  L ← (if (p =? NULL)%nat then Some (mk_ll newNode (mLast L) h)
       else h ← Dlist.set_next h p newNode; Some (with_links L h));
  h ← Dlist.set_prev (links L) node newNode; Some (with_links L h).

Definition insertHead (L : llist) (newNode : ptr) : option llist :=
  if (mFirst L =? NULL)%nat then
    h ← Dlist.set_next (links L) newNode NULL; h ← Dlist.set_prev h newNode NULL;
    Some (mk_ll newNode newNode h)
  else
    h ← Dlist.set_prev (links L) newNode NULL; h ← Dlist.set_next h newNode (mFirst L);
    h ← Dlist.set_prev h (mFirst L) newNode; Some (mk_ll newNode (mLast L) h).

Definition insertTail (L : llist) (newNode : ptr) : option llist :=
  if (mLast L =? NULL)%nat then insertHead L newNode
  else
    h ← Dlist.set_prev (links L) newNode (mLast L); h ← Dlist.set_next h newNode NULL;
    h ← Dlist.set_next h (mLast L) newNode; Some (mk_ll (mFirst L) newNode h).

Definition remove (L : llist) (node : ptr) : option llist :=
  p ← Dlist.get_prev (links L) node;
  n ← Dlist.get_next (links L) node;
  L ← (if (p =? NULL)%nat then Some (mk_ll n (mLast L) (links L))
       else h ← Dlist.set_next (links L) p n; Some (with_links L h));
  n ← Dlist.get_next (links L) node;
  p ← Dlist.get_prev (links L) node;
  (if (n =? NULL)%nat then Some (mk_ll (mFirst L) p (links L))
   else h ← Dlist.set_prev (links L) n p; Some (with_links L h)).

End LinkedList.

(** ** SimpleBestFitAllocator *)

Module BestFit.

Definition EINVAL : Z := 22.
Definition ENOENT : Z := 2.
Definition ENOMEM : Z := 12.

Definition kMemoryAlign : Z := 32.
Definition u28 (z : Z) : Z := z mod 2 ^ 28.

Record chunk := mk_chunk { start : Z; size : Z; free : bool }.

Record allocator := mk_alloc { mHeapSize : Z; mList : list chunk }.

(** The constructor; the other one calls setSize. *)
Definition new : allocator := mk_alloc 0 [].

Section allocator.
Variable pagesize : Z.   (* getpagesize() *)

Definition setSize (A : allocator) (size : Z) : Z * allocator :=
  if negb (mHeapSize A =? 0) then (- EINVAL, A)
  else
    let h := Z.land (u32 (size + pagesize - 1)) (not32 (pagesize - 1)) in
    (i32 size, mk_alloc h (mk_chunk 0 (u28 (h / kMemoryAlign)) true :: mList A)).

(** Units to skip so that the block starts on a page. *)
Definition extra (c : chunk) : Z := Z.land (u32 (- start c)) (pagesize / kMemoryAlign - 1).

Definition fits (n : Z) (c : chunk) : bool := free c && (u32 (n + extra c) <=? size c).

(** The loop of alloc: the best chunk so far with its place. *)
Fixpoint search (n : Z) (l : list chunk) (i : nat) (best : option (nat * chunk)) : option (nat * chunk) :=
  match l with
  | [] => best
  | c :: l =>
      if fits n c then
        let best := match best with
                    | None => Some (i, c)
                    | Some (_, b) => if size c <? size b then Some (i, c) else best
                    end in
        if size c =? n then best else search n l (S i) best
      else search n l (S i) best
  end.

(** What becomes of the chosen chunk, and the start of the block. *)
Definition carve (c : chunk) (n : Z) : list chunk * Z :=
  if n <? size c then
    let e := extra c in
    let used := mk_chunk (if e =? 0 then start c else u32 (start c + e)) (u28 n) false in
    let tail_free := i32 (size c - (n + e)) in
    ((if e =? 0 then [] else [mk_chunk (start c) (u28 e) true]) ++ used ::
     (if 0 <? tail_free then [mk_chunk (u32 (start used + size used)) (u28 tail_free) true] else []),
     start used)
  else ([mk_chunk (start c) (u28 n) false], start c).

Definition alloc (A : allocator) (size : Z) : Z * allocator :=
  if size =? 0 then (0, A)
  else
    let n := u32 (size + kMemoryAlign - 1) / kMemoryAlign in
    match search n (mList A) 0 None with
    | None => (- ENOMEM, A)
    | Some (i, c) =>
        let '(cs, s) := carve c n in
        (i32 (s * kMemoryAlign), mk_alloc (mHeapSize A) (take i (mList A) ++ cs ++ drop (S i) (mList A)))
    end.

Definition allocate (A : allocator) (size : Z) : Z * allocator :=
  if mHeapSize A =? 0 then (- EINVAL, A) else alloc A size.

(** The merging loop of dealloc: [before] is the list before [cur], nearest first,
    [freed] the free flag of the chunk that dealloc returns. *)
Fixpoint merge (before : list chunk) (cur : chunk) (rest : list chunk) (freed : bool) : bool * list chunk :=
  let '(before, freed) :=
    match before with
    | p :: ps =>
        if free p || (size cur =? 0) then (mk_chunk (start p) (u28 (size p + size cur)) (free p) :: ps, free p)
        else (cur :: before, freed)
    | [] => ([cur], freed)
    end in
  match rest with
  | n :: rest' => if free n then merge before n rest' freed else (freed, rev_append before rest)
  | [] => (freed, rev_append before [])
  end.

Fixpoint dealloc_from (before rest : list chunk) (s : Z) : outcome (option (list chunk)) :=
  match rest with
  | [] => Done None
  | c :: rest =>
      if start c =? s then
        if free c then Stop "already freed"
        else
          let '(freed, l) := merge before (mk_chunk (start c) (size c) true) rest true in
          if freed then Done (Some l) else Stop "freed block is not free"
      else dealloc_from (c :: before) rest s
  end.

Definition dealloc (A : allocator) (offset : Z) : outcome (bool * allocator) :=
  r ← dealloc_from [] (mList A) (offset / kMemoryAlign);
  Done (match r with None => (false, A) | Some l => (true, mk_alloc (mHeapSize A) l) end).

Definition deallocate (A : allocator) (offset : Z) : outcome (Z * allocator) :=
  if mHeapSize A =? 0 then Done (- EINVAL, A)
  else '(ok, A) ← dealloc A offset; Done (if ok : bool then 0 else - ENOENT, A).

End allocator.
End BestFit.

(** ** The interface of an allocator *)

Class Allocator (A : Type) := {
  a_setSize : A -> Z -> Z * A;
  a_allocate : A -> Z -> Z * A;
  a_deallocate : A -> Z -> outcome (Z * A)
}.

(** Bytes that a request takes: whole units of 32. *)
Definition block_len (size : Z) : Z := (size + 31) / 32 * 32.

(** Two ranges with no byte in common. *)
Definition apart (o n o' n' : Z) : Prop := o + n <= o' \/ o' + n' <= o.

(** [a_ready x h m]: a heap of [h] bytes, the live blocks are [m] (length by
    offset). *)
Class AllocatorLaws (page : Z) (A : Type) `{Allocator A} := {
  a_fresh : A -> Prop;
  a_ready : A -> Z -> gmap Z Z -> Prop;
  setSize_ready x size :
    a_fresh x -> 0 < size -> size + page < 2 ^ 31 ->
    exists x' h, a_setSize x size = (size, x') /\ size <= h < size + page /\ a_ready x' h ∅;
  allocate_law x h m size :
    a_ready x h m -> 0 < size < 2 ^ 31 ->
    exists r x', a_allocate x size = (r, x') /\
      ((0 <= r /\ (page | r) /\ r + block_len size <= h /\
        (forall o n, m !! o = Some n -> apart r (block_len size) o n) /\
        a_ready x' h (<[r := block_len size]> m)) \/
       (r = - BestFit.ENOMEM /\ x' = x /\
        forall o, 0 <= o -> (page | o) -> o + block_len size <= h ->
          exists o' n', m !! o' = Some n' /\ ~ apart o (block_len size) o' n'));
  deallocate_law x h m o n :
    a_ready x h m -> m !! o = Some n ->
    exists x', a_deallocate x o = Done (0, x') /\ a_ready x' h (delete o m);
  live_positive x h m o n : a_ready x h m -> m !! o = Some n -> 0 < n;
  setSize_again x h m size : a_ready x h m -> exists r, a_setSize x size = (r, x);
  ready_unique x h m h' m' : a_ready x h m -> a_ready x h' m' -> h = h' /\ m = m'
}.

(** ** Tilings *)

Section tiles.
Import BestFit.

(** The chunks follow each other from [a] to [b]. *)
Fixpoint tiles (a b : Z) (l : list chunk) : Prop :=
  match l with
  | [] => a = b
  | c :: l => start c = a /\ 0 < size c /\ tiles (a + size c) b l
  end.

(** No two neighbours are both free. *)
Definition hd_free (l : list chunk) : bool := match l with c :: _ => free c | [] => false end.
Fixpoint coalesced (l : list chunk) : Prop :=
  match l with
  | [] => True
  | c :: l => (free c = true -> hd_free l = false) /\ coalesced l
  end.

Lemma tiles_app a b l1 l2 : tiles a b (l1 ++ l2) <-> exists m, tiles a m l1 /\ tiles m b l2.
Proof.
  revert a. induction l1 as [|c l1 IH]; intros a; cbn; [naive_solver|]. rewrite IH. naive_solver.
Qed.

Lemma tiles_le a b l : tiles a b l -> a <= b.
Proof. revert a. induction l as [|c l IH]; intros a; cbn; [lia|]. intros (<- & ? & ?%IH). lia. Qed.

Lemma tiles_elem a b l c :
  tiles a b l -> c ∈ l -> a <= start c /\ 0 < size c /\ start c + size c <= b.
Proof.
  revert a. induction l as [|d l IH]; intros a Ht Hc; [by apply not_elem_of_nil in Hc|].
  destruct Ht as (<- & Hd & Ht). apply elem_of_cons in Hc as [->|Hc].
  - apply tiles_le in Ht. lia.
  - destruct (IH _ Ht Hc). lia.
Qed.

(** Chunks of a tiling that touch the same place are the same. *)
Lemma tiles_disjoint a b l c d :
  tiles a b l -> c ∈ l -> d ∈ l -> c = d \/ apart (start c) (size c) (start d) (size d).
Proof.
  revert a. induction l as [|x l IH]; intros a Ht Hc Hd; [by apply not_elem_of_nil in Hc|].
  destruct Ht as (Hx & Hs & Ht). apply elem_of_cons in Hc as [->|Hc], Hd as [->|Hd].
  - by left.
  - right. left. destruct (tiles_elem _ _ _ _ Ht Hd). lia.
  - right. right. destruct (tiles_elem _ _ _ _ Ht Hc). lia.
  - by apply (IH _ Ht).
Qed.

Lemma tiles_same_start a b l c d :
  tiles a b l -> c ∈ l -> d ∈ l -> start c = start d -> c = d.
Proof.
  intros Ht Hc Hd E. destruct (tiles_disjoint _ _ _ _ _ Ht Hc Hd) as [|Ha]; [done|].
  destruct (tiles_elem _ _ _ _ Ht Hc), (tiles_elem _ _ _ _ Ht Hd). unfold apart in Ha. lia.
Qed.

Lemma coalesced_app l1 l2 :
  coalesced (l1 ++ l2) <->
  coalesced l1 /\ coalesced l2 /\ (forall c, last l1 = Some c -> free c = true -> hd_free l2 = false).
Proof.
  induction l1 as [|c l1 IH]; cbn [app coalesced].
  { split; [intros ?; split_and!; done|naive_solver]. }
  rewrite IH. destruct l1 as [|d l1]; cbn [app hd_free last].
  - split; [naive_solver|]. intros ((_ & _) & H2 & H3). split; [|split_and!; done]. intros Hf. by apply (H3 c).
  - naive_solver.
Qed.

(** A range inside a coalesced tiling is inside a free chunk or meets a used one. *)
Lemma range_free_or_used a b l s n :
  tiles a b l -> coalesced l -> a <= s -> 0 < n -> s + n <= b ->
  (exists c, c ∈ l /\ free c = true /\ start c <= s /\ s + n <= start c + size c) \/
  (exists c, c ∈ l /\ free c = false /\ ~ apart s n (start c) (size c)).
Proof.
  revert a. induction l as [|c l IH]; intros a Ht Hco Has Hn Hb; cbn in Ht; [lia|].
  destruct Ht as (<- & Hc & Ht). destruct Hco as [Hh Hco].
  destruct (Z.le_gt_cases (start c + size c) s) as [Hle|Hgt].
  { destruct (IH _ Ht Hco Hle Hn Hb) as [(d & Hd & ?)|(d & Hd & ?)]; [left|right]; exists d;
      (split; [by right|done]). }
  destruct (free c) eqn:Hf.
  2:{ right. exists c. split; [by left|]. split; [done|]. unfold apart. lia. }
  destruct (Z.le_gt_cases (s + n) (start c + size c)) as [Hin|Hout].
  { left. exists c. split; [by left|]. split_and!; done || lia. }
  right. specialize (Hh eq_refl). destruct l as [|d l]; cbn in Ht; [lia|]. destruct Ht as (Hsd & Hd & Ht).
  exists d. split; [right; by left|]. split; [done|]. unfold apart. lia.
Qed.
End tiles.

Section best_fit.
Import BestFit.
Context (k : Z) (Hk : 0 <= k <= 24).
Abbreviation P := (2 ^ k).
Abbreviation page := (32 * 2 ^ k).

Lemma page_units : page / kMemoryAlign = P.
Proof. unfold kMemoryAlign. rewrite Z.mul_comm. apply Z.div_mul. lia. Qed.

Lemma P_bounds : 0 < P <= 2 ^ 24.
Proof. split; [apply Z.pow_pos_nonneg; lia|apply Z.pow_le_mono_r; lia]. Qed.

(** [extra] is the distance to the next page, and the least such. *)
Lemma extra_spec c :
  0 <= start c < 2 ^ 32 ->
  0 <= extra page c < P /\ (P | start c + extra page c) /\
  (forall s, start c <= s -> (P | s) -> start c + extra page c <= s).
Proof.
  intros Hs. pose proof P_bounds as HP. unfold extra. rewrite page_units.
  replace (P - 1) with (Z.ones k) by (rewrite Z.ones_equiv; lia). rewrite Z.land_ones by lia.
  assert (u32 (- start c) mod P = (- start c) mod P) as ->.
  { unfold u32. apply Z.mod_mod_divide.
    exists (2 ^ (32 - k)). rewrite <- Z.pow_add_r by lia. f_equal. lia. }
  pose proof (Z.mod_pos_bound (- start c) P ltac:(lia)) as Hm. split; [done|].
  assert ((P | start c + (- start c) mod P)) as Hdiv.
  { rewrite Z.mod_eq by lia. exists (- ((- start c) / P)). lia. }
  split; [done|]. intros s Hge [q ->]. destruct Hdiv as [q' E].
  assert (q' < q + 1) by nia. nia.
Qed.

(** The invariant: a heap of [H] units that the chunks tile, no free neighbours,
    and used blocks on pages. *)
Definition units (A : allocator) : Z := mHeapSize A / kMemoryAlign.
Definition wf (A : allocator) : Prop :=
  0 < units A < 2 ^ 26 /\ mHeapSize A = kMemoryAlign * units A /\ tiles 0 (units A) (mList A) /\
  coalesced (mList A) /\ (forall c, c ∈ mList A -> free c = false -> (P | start c)).

(** Live blocks, in bytes. *)
Definition live (l : list chunk) : gmap Z Z :=
  list_to_map ((fun c => (kMemoryAlign * start c, kMemoryAlign * size c)) <$> filter (fun c => free c = false) l).

Lemma live_lookup a b l o n :
  tiles a b l ->
  live l !! o = Some n <->
  exists c, c ∈ l /\ free c = false /\ o = kMemoryAlign * start c /\ n = kMemoryAlign * size c.
Proof.
  intros Ht. unfold live. rewrite <- elem_of_list_to_map.
  - rewrite list_elem_of_fmap. setoid_rewrite list_elem_of_filter. naive_solver.
  - rewrite <- list_fmap_compose. apply NoDup_fmap_2_strong.
    + intros x y Hx Hy E. apply list_elem_of_filter in Hx as [_ Hx], Hy as [_ Hy].
      cbn in E. apply (tiles_same_start _ _ _ _ _ Ht Hx Hy). unfold kMemoryAlign in E. lia.
    + apply NoDup_filter. clear -Ht. revert a Ht. induction l as [|c l IH]; intros a Ht; constructor.
      * destruct Ht as (<- & Hc & Ht). intros Hin. destruct (tiles_elem _ _ _ _ Ht Hin). lia.
      * destruct Ht as (_ & _ & Ht). by apply (IH _ Ht).
Qed.

(** Two lists with the same used chunks have the same live blocks. *)
Lemma live_ext a b a' b' l l' :
  tiles a b l -> tiles a' b' l' -> (forall c, free c = false -> c ∈ l <-> c ∈ l') -> live l = live l'.
Proof.
  intros Ht Ht' He. apply map_eq. intros o. apply option_eq. intros n.
  rewrite (live_lookup _ _ _ _ _ Ht), (live_lookup _ _ _ _ _ Ht'). naive_solver.
Qed.

Lemma search_spec n l : forall i best r,
  search page n l i best = r ->
  match r with
  | None => best = None /\ forall c, c ∈ l -> fits page n c = false
  | Some (j, c) =>
      (best = Some (j, c) \/ exists m, j = (i + m)%nat /\ l !! m = Some c /\ fits page n c = true)
  end.
Proof.
  induction l as [|c l IH]; intros i best r; cbn [search].
  { intros <-. destruct best as [[j b]|]; [by left|]. split; [done|]. intros c Hc. by apply not_elem_of_nil in Hc. }
  assert (forall best', search page n l (S i) best' = r ->
    (best' = best \/ (best' = Some (i, c) /\ fits page n c = true)) ->
    (best' = None -> fits page n c = false) ->
    match r with
    | None => best = None /\ forall c', c' ∈ c :: l -> fits page n c' = false
    | Some (j, c0) => best = Some (j, c0) \/
        exists m, j = (i + m)%nat /\ (c :: l) !! m = Some c0 /\ fits page n c0 = true
    end) as Hrec.
  { intros best' Hs Hb Hn. specialize (IH _ _ _ Hs). destruct r as [[j c0]|].
    - destruct IH as [->|(m & -> & Hl & Hf)].
      + destruct Hb as [<-|[[= -> ->] Hf]]; [by left|]. right. exists 0%nat. split; [lia|done].
      + right. exists (S m). split; [lia|done].
    - destruct IH as [-> Hno]. split; [by destruct Hb as [<-|[? _]]|].
      intros c' [->|Hc]%elem_of_cons; [by apply Hn|by apply Hno]. }
  destruct (fits page n c) eqn:Hf; [|intros Hs; apply (Hrec best Hs); auto].
  set (best' := match best with None => _ | Some _ => _ end).
  assert (best' = best \/ best' = Some (i, c) /\ true = true) as Hb'.
  { unfold best'. destruct best as [[j b]|]; [|by right]. destruct (size c <? size b); [by right|by left]. }
  assert (best' <> None) as Hne.
  { unfold best'. destruct best as [[j b]|]; [|done]. by destruct (size c <? size b). }
  destruct (size c =? n); [|intros Hs; apply (Hrec best' Hs Hb'); done].
  intros <-. destruct best' as [[j b]|] eqn:E; [|done]. destruct Hb' as [->|[[= -> ->] _]]; [by left|].
  right. exists 0%nat. split; [lia|]. by split.
Qed.

Lemma carve_spec c n :
  0 <= start c -> 0 < size c -> start c + size c < 2 ^ 26 -> free c = true -> 0 < n -> fits page n c = true -> n < 2 ^ 28 ->
  let s := start c + extra page c in
  exists front tail, carve page c n = (front ++ mk_chunk s n false :: tail, s) /\
    n + extra page c <= size c /\ (P | s) /\
    tiles (start c) (start c + size c) (front ++ mk_chunk s n false :: tail) /\
    (front = [] \/ exists f, front = [f] /\ free f = true) /\ (tail = [] \/ exists t, tail = [t] /\ free t = true).
Proof.
  intros Hs Hsz He Hf Hn Hfit Hn28 s. destruct (extra_spec c ltac:(lia)) as (Hx & Hdiv & _). pose proof P_bounds as HP.
  unfold fits in Hfit. unfold carve. set (e := extra page c) in *. clearbody e. rewrite Hf in Hfit. cbn [andb] in Hfit. apply Z.leb_le in Hfit. rewrite u32_small in Hfit by lia.
  assert (u28 n = n) as Hn' by (apply Z.mod_small; lia). rewrite Hn'.
  destruct (Z.ltb_spec n (size c)) as [Hlt|Hge].
  2:{ assert (e = 0) as E by lia. exists [], []. cbn [app]. unfold s in *. rewrite E, Z.add_0_r in *.
      split; [done|]. split; [lia|]. split; [done|]. split; [cbn [tiles start size]; lia|]. by split; left. }
  assert (u28 (e) = e) as He' by (apply Z.mod_small; lia).
  assert (i32 (size c - (n + e)) = size c - (n + e)) as Ht by (apply i32_small; lia).
  rewrite He', Ht. cbn [start size].
  assert ((if e =? 0 then start c else u32 (start c + e)) = s) as ->.
  { unfold s. destruct (Z.eqb_spec (e) 0) as [E|]; [lia|]. rewrite u32_small by lia. done. }
  eexists _, _. split; [done|]. split; [lia|]. split; [done|].
  assert (u28 (size c - (n + e)) = size c - (n + e)) as Ht' by (apply Z.mod_small; lia).
  rewrite Ht'. rewrite (u32_small (s + n)) by (unfold s; lia).
  split.
  - apply tiles_app. exists s. split.
    + destruct (Z.eqb_spec (e) 0); cbn [tiles app start size]; unfold s; lia.
    + destruct (Z.ltb_spec 0 (size c - (n + e))); cbn [tiles app start size]; unfold s; lia.
  - split; [destruct (_ =? _)|destruct (_ <? _)]; eauto.
Qed.

Lemma block_len_units size : 0 < size < 2 ^ 31 ->
  block_len size = kMemoryAlign * (u32 (size + kMemoryAlign - 1) / kMemoryAlign) /\
  0 < u32 (size + kMemoryAlign - 1) / kMemoryAlign < 2 ^ 28.
Proof.
  intros Hs. unfold block_len, kMemoryAlign. rewrite u32_small by lia.
  replace (size + 32 - 1) with (size + 31) by lia. split; [lia|].
  pose proof (Z.div_mod (size + 31) 32 ltac:(lia)). pose proof (Z.mod_pos_bound (size + 31) 32 ltac:(lia)). lia.
Qed.

Lemma page_divide s : (P | s) <-> (page | kMemoryAlign * s).
Proof.
  unfold kMemoryAlign. pose proof P_bounds. split; intros [q E].
  - exists q. lia.
  - exists q. nia.
Qed.

(** Replacing a free chunk by a block between free pieces. *)
Lemma carved_wf A l1 l2 c s n front tail :
  wf A -> mList A = l1 ++ c :: l2 -> free c = true -> 0 < n -> (P | s) ->
  tiles (start c) (start c + size c) (front ++ mk_chunk s n false :: tail) ->
  (front = [] \/ exists f, front = [f] /\ free f = true) -> (tail = [] \/ exists t, tail = [t] /\ free t = true) ->
  let A' := mk_alloc (mHeapSize A) (l1 ++ (front ++ mk_chunk s n false :: tail) ++ l2) in
  wf A' /\ live (mList A') = <[kMemoryAlign * s := kMemoryAlign * n]> (live (mList A)) /\
  kMemoryAlign * s + kMemoryAlign * n <= mHeapSize A /\ 0 <= kMemoryAlign * s /\
  (forall o m, live (mList A) !! o = Some m -> apart (kMemoryAlign * s) (kMemoryAlign * n) o m).
Proof.
  intros (HH & Hheap & Ht & Hco & Hal) El Hf Hn Hdiv Htc Hfront Htail A'.
  rewrite El in Ht, Hco, Hal. pose proof Ht as Ht0. apply tiles_app in Ht as (m & Ht1 & Hm & Hsz & Ht2).
  subst m. set (cs := front ++ mk_chunk s n false :: tail) in *.
  assert (tiles 0 (units A) (mList A')) as Ht'.
  { cbn. apply tiles_app. exists (start c). split; [done|]. apply tiles_app. by exists (start c + size c). }
  assert (mk_chunk s n false ∈ cs) as Hin by (unfold cs; set_solver).
  assert (forall d, d ∈ cs -> free d = false -> d = mk_chunk s n false) as Hused.
  { intros d Hd Hfd. unfold cs in Hd. apply elem_of_app in Hd as [Hd|[->|Hd]%elem_of_cons]; [|done|];
      [destruct Hfront as [->|(f & -> & Hff)]|destruct Htail as [->|(f & -> & Hff)]];
      try (by apply not_elem_of_nil in Hd); apply list_elem_of_singleton in Hd as ->; congruence. }
  destruct (tiles_elem _ _ _ _ Htc Hin) as (B1 & B2 & B3). cbn [start size] in B1, B2, B3.
  assert (units A' = units A) as Hu by done.
  pose proof (tiles_le _ _ _ Ht1) as L1. pose proof (tiles_le _ _ _ Ht2) as L2.
  split; [|split; [|split; [|split]]].
  - split; [done|]. split; [done|]. split; [done|]. split.
    + cbn. apply coalesced_app in Hco as (C1 & [Hh C2] & Hb). apply coalesced_app. split; [done|]. split.
      * apply coalesced_app. split; [|split; [done|]].
        { unfold cs. destruct Hfront as [->|(f & -> & _)], Htail as [->|(t & -> & _)]; cbn; naive_solver. }
        intros d _ _. by apply Hh.
      * intros d Hl Hfd. specialize (Hb d Hl Hfd). cbn in Hb. by rewrite Hf in Hb.
    + intros d Hd Hfd. cbn in Hd. rewrite !elem_of_app in Hd. destruct Hd as [Hd|[Hd|Hd]].
      * apply Hal; [set_solver|done].
      * by rewrite (Hused d Hd Hfd).
      * apply Hal; [set_solver|done].
  - apply map_eq. intros o. apply option_eq. intros m. rewrite (live_lookup _ _ _ _ _ Ht').
    assert (forall x, live (mList A) !! o = Some x <->
      exists d, d ∈ l1 ++ l2 /\ free d = false /\ o = kMemoryAlign * start d /\ x = kMemoryAlign * size d) as Hlive.
    { intros x. rewrite El, (live_lookup _ _ _ _ _ Ht0). split; intros (d & Hd & Hfd & ?); exists d.
      - split; [|done]. apply elem_of_app in Hd as [?|[->|?]%elem_of_cons]; [set_solver|congruence|set_solver].
      - split; [set_solver|done]. }
    destruct (decide (o = kMemoryAlign * s)) as [->|Hne].
    + rewrite lookup_insert_eq. split.
      * intros (d & Hd & Hfd & Hs & ->).
        assert (d = mk_chunk s n false) as ->; [|done].
        apply (tiles_same_start _ _ _ _ _ Ht' Hd); [cbn; set_solver|]. unfold kMemoryAlign in Hs. cbn. lia.
      * intros [= <-]. exists (mk_chunk s n false). split; [cbn; set_solver|done].
    + rewrite lookup_insert_ne by done. rewrite Hlive. split; intros (d & Hd & Hfd & -> & ->); exists d.
      * split; [|done]. cbn in Hd. rewrite !elem_of_app in Hd. destruct Hd as [Hd|[Hd|Hd]]; [set_solver| |set_solver].
        by rewrite (Hused d Hd Hfd) in Hne.
      * split; [cbn; set_solver|done].
  - rewrite Hheap. unfold kMemoryAlign. lia.
  - unfold kMemoryAlign. lia.
  - intros o m. rewrite El, (live_lookup _ _ _ _ _ Ht0). intros (d & Hd & Hfd & -> & ->).
    assert (d ∈ mList A') as Hd'.
    { cbn. apply elem_of_app in Hd as [?|[->|?]%elem_of_cons]; [set_solver|congruence|set_solver]. }
    destruct (tiles_disjoint _ _ _ (mk_chunk s n false) d Ht' ltac:(cbn; set_solver) Hd') as [<-|Ha].
    + exfalso. cbn in Ht0. apply elem_of_app in Hd as [Hd|[Hd|Hd]%elem_of_cons].
      * destruct (tiles_elem _ _ _ _ Ht1 Hd). cbn in *. lia.
      * rewrite <- Hd in Hf. done.
      * destruct (tiles_elem _ _ _ _ Ht2 Hd). cbn in *. lia.
    + unfold apart, kMemoryAlign in *. cbn in Ha. lia.
Qed.

(** What allocate promises. *)
Lemma allocate_wf A sz :
  wf A -> 0 < sz < 2 ^ 31 ->
  exists r A', allocate page A sz = (r, A') /\
    ((0 <= r /\ (page | r) /\ r + block_len sz <= mHeapSize A /\
      (forall o n, live (mList A) !! o = Some n -> apart r (block_len sz) o n) /\
      wf A' /\ mHeapSize A' = mHeapSize A /\ live (mList A') = <[r := block_len sz]> (live (mList A))) \/
     (r = - ENOMEM /\ A' = A /\
      forall o, 0 <= o -> (page | o) -> o + block_len sz <= mHeapSize A ->
        exists o' n', live (mList A) !! o' = Some n' /\ ~ apart o (block_len sz) o' n')).
Proof.
  intros Hwf Hsz. pose proof Hwf as (HH & Hheap & Ht & Hco & Hal). destruct (block_len_units sz Hsz) as [Hlen Hn].
  unfold allocate. destruct (Z.eqb_spec (mHeapSize A) 0); [unfold kMemoryAlign in *; lia|].
  unfold alloc. destruct (Z.eqb_spec sz 0); [lia|]. set (u := u32 (sz + kMemoryAlign - 1) / kMemoryAlign) in *.
  rewrite Hlen. pose proof (search_spec u (mList A) 0 None _ eq_refl) as Hsearch.
  destruct (search page u (mList A) 0 None) as [[i c]|].
  - destruct Hsearch as [|(m & -> & Hl & Hfit)]; [done|]. cbn [Nat.add].
    pose proof (take_drop_middle _ _ _ Hl) as El. symmetry in El.
    assert (free c = true) as Hf by (unfold fits in Hfit; by destruct (free c)).
    destruct (tiles_elem _ _ _ c Ht ltac:(by eapply list_elem_of_lookup_2)) as (B1 & B2 & B3).
    destruct (carve_spec c u) as (front & tail & -> & Hfitc & Hdiv & Htc & Hfr & Htl); [lia..|done|lia|done|lia|].
    destruct (carved_wf A _ _ c _ u front tail Hwf El Hf ltac:(lia) Hdiv Htc Hfr Htl)
      as (Hwf' & Hlive & Hbound & Hpos & Hapart).
    eexists _, _. split; [done|]. left.
    set (s := start c + extra page c) in *. rewrite (Z.mul_comm s), i32_small by (unfold kMemoryAlign in *; lia).
    split_and!; try done. by apply page_divide.
  - eexists _, _. split; [done|]. right. split; [done|]. split; [done|]. destruct Hsearch as [_ Hno].
    intros o Ho [q ->] Hb. set (s := P * q).
    assert (q * page = kMemoryAlign * s) as E by (unfold kMemoryAlign, s; lia). rewrite E in *.
    destruct (range_free_or_used _ _ _ s u Ht Hco) as [(c & Hc & Hf & Hs & He)|(c & Hc & Hf & Ha)];
      [unfold kMemoryAlign in *; lia|lia|unfold kMemoryAlign in *; lia| |].
    + exfalso. specialize (Hno c Hc). destruct (tiles_elem _ _ _ _ Ht Hc) as (B1 & B2 & B3).
      destruct (extra_spec c ltac:(lia)) as (Hx & _ & Hmin). specialize (Hmin s Hs ltac:(exists q; unfold s; lia)).
      pose proof P_bounds. unfold fits in Hno. rewrite Hf in Hno. cbn [andb] in Hno. apply Z.leb_gt in Hno.
      rewrite u32_small in Hno by lia. lia.
    + exists (kMemoryAlign * start c), (kMemoryAlign * size c). split.
      * rewrite (live_lookup _ _ _ _ _ Ht). by exists c.
      * unfold apart, kMemoryAlign in *. lia.
Qed.

(** Two neighbours become one chunk. *)
Definition join (p c : chunk) : chunk := mk_chunk (start p) (u28 (size p + size c)) (free p).

Lemma join_tiles a b l1 p c l2 :
  0 <= a -> b < 2 ^ 28 -> tiles a b (l1 ++ p :: c :: l2) -> tiles a b (l1 ++ join p c :: l2).
Proof.
  intros Ha Hb Ht. apply tiles_app in Ht as (m & Ht1 & Hp & Hsp & Hc & Hsc & Ht2). subst m.
  pose proof (tiles_le _ _ _ Ht1). pose proof (tiles_le _ _ _ Ht2).
  apply tiles_app. exists (start p). split; [done|]. unfold join. cbn [tiles start size].
  assert (u28 (size p + size c) = size p + size c) as -> by (apply Z.mod_small; lia).
  split; [done|]. split; [lia|]. by rewrite Z.add_assoc.
Qed.

Lemma merge_join p before c rest :
  free p = true ->
  merge (p :: before) c rest true =
  match rest with
  | n :: rest' => if free n then merge (join p c :: before) n rest' true else (true, rev_append (join p c :: before) rest)
  | [] => (true, rev_append (join p c :: before) [])
  end.
Proof. intros Hp. unfold join. destruct rest; cbn [merge]; by rewrite Hp. Qed.

Lemma merge_keep before c rest :
  size c <> 0 -> hd_free before = false ->
  merge before c rest true =
  match rest with
  | n :: rest' => if free n then merge (c :: before) n rest' true else (true, rev_append (c :: before) rest)
  | [] => (true, rev_append (c :: before) [])
  end.
Proof.
  intros Hc Hp. apply Z.eqb_neq in Hc. destruct before as [|p ps]; [by destruct rest|]. cbn in Hp.
  destruct rest; cbn [merge]; by rewrite Hp, Hc.
Qed.

(** The second half of the merge: the chunk in front of [rest] is free. *)
Lemma merge_right_spec a b before f rest :
  0 <= a -> b < 2 ^ 28 -> tiles a b (rev before ++ f :: rest) -> free f = true ->
  coalesced (rev before ++ [f]) -> coalesced rest ->
  exists l, match rest with
            | n :: rest' => if free n then merge (f :: before) n rest' true else (true, rev_append (f :: before) rest)
            | [] => (true, rev_append (f :: before) [])
            end = (true, l) /\
    tiles a b l /\ coalesced l /\ (forall d, free d = false -> d ∈ l <-> d ∈ rev before ++ rest).
Proof.
  intros Ha Hb Ht Hf Hco1 Hco2. apply coalesced_app in Hco1 as (C1 & _ & Hb1).
  assert (forall g rest', free g = true -> coalesced rest' -> hd_free rest' = false ->
            coalesced (rev before ++ g :: rest')) as Hco.
  { intros g r Hg Cr Hh. apply coalesced_app. split; [done|]. split; [by split|].
    intros d Hl Hd. specialize (Hb1 d Hl Hd). cbn in *. congruence. }
  assert (forall g rest' d, free g = true -> free d = false ->
            d ∈ rev before ++ g :: rest' <-> d ∈ rev before ++ rest') as Hmem.
  { intros g r d Hg Hd. rewrite !elem_of_app, elem_of_cons. split; [|tauto].
    intros [?|[->|?]]; [tauto|congruence|tauto]. }
  destruct rest as [|n rest].
  - eexists. split; [done|]. rewrite rev_append_rev. cbn [rev]. rewrite app_nil_r.
    split; [done|]. split; [by apply Hco|]. intros d Hd. by apply Hmem.
  - destruct (free n) eqn:Hn.
    + rewrite merge_join by done.
      assert (hd_free rest = false) as Hh by (by apply Hco2).
      exists (rev before ++ join f n :: rest). split.
      { destruct rest as [|x rest]; [|cbn in Hh; rewrite Hh]; rewrite rev_append_rev; cbn [rev];
          by rewrite <- app_assoc. }
      split; [by apply join_tiles|]. split; [apply Hco; [done|by apply Hco2|done]|].
      intros d Hd. rewrite Hmem by done. symmetry. by apply Hmem.
    + exists (rev before ++ f :: n :: rest). split; [rewrite rev_append_rev; cbn [rev]; by rewrite <- app_assoc|].
      split; [done|]. split; [by apply Hco|]. intros d Hd. by apply Hmem.
Qed.

Lemma merge_spec a b before c rest :
  0 <= a -> b < 2 ^ 28 -> tiles a b (rev before ++ c :: rest) -> free c = true ->
  coalesced (rev before) -> coalesced rest ->
  exists l, merge before c rest true = (true, l) /\
    tiles a b l /\ coalesced l /\ (forall d, free d = false -> d ∈ l <-> d ∈ rev before ++ rest).
Proof.
  intros Ha Hb Ht Hf Hco1 Hco2.
  assert (size c <> 0) as Hc0 by (destruct (tiles_elem _ _ _ c Ht ltac:(set_solver)); lia).
  destruct before as [|p ps]; [|destruct (free p) eqn:Hp].
  - rewrite merge_keep by done. by apply merge_right_spec.
  - rewrite merge_join by done. cbn [rev] in *. rewrite <- app_assoc in Ht.
    destruct (merge_right_spec a b ps (join p c) rest) as (l & E & Htl & Hcl & Hml);
      [done|done|by apply join_tiles|done| |done|].
    { apply coalesced_app in Hco1 as (? & ? & Hb1). apply coalesced_app. split; [done|].
      split; [done|]. intros d Hd Hfd. specialize (Hb1 d Hd Hfd). cbn in Hb1. congruence. }
    exists l. split_and!; [done..|]. intros d Hd. rewrite Hml by done.
    rewrite !elem_of_app. split; [tauto|]. intros [[?|Hx%list_elem_of_singleton]|?]; [tauto|congruence|tauto].
  - rewrite merge_keep by done. apply merge_right_spec; [done..| |done].
    apply coalesced_app. split; [done|]. split; [done|]. intros d Hd Hfd. cbn [rev] in Hd.
    rewrite last_snoc in Hd. injection Hd as ->. congruence.
Qed.

Lemma dealloc_from_spec a b c : forall rest before,
  0 <= a -> b < 2 ^ 28 -> tiles a b (rev before ++ rest) -> coalesced (rev before ++ rest) ->
  c ∈ rest -> free c = false ->
  exists l, dealloc_from before rest (start c) = Done (Some l) /\ tiles a b l /\ coalesced l /\
    (forall d, free d = false -> d ∈ l <-> d ∈ rev before ++ rest /\ d <> c).
Proof.
  induction rest as [|x rest IH]; intros before Ha Hb Ht Hco Hc Hf; [by apply not_elem_of_nil in Hc|].
  cbn [dealloc_from]. destruct (Z.eqb_spec (start x) (start c)) as [E|Hne].
  - assert (x = c) as -> by (apply (tiles_same_start _ _ _ _ _ Ht); [set_solver|set_solver|done]). rewrite Hf.
    apply coalesced_app in Hco as (C1 & [_ C2] & _).
    destruct (merge_spec a b before (mk_chunk (start c) (size c) true) rest) as (l & -> & Htl & Hcl & Hml); [done|done| |done..|].
    { apply tiles_app in Ht as (m & ? & ? & ? & ?). apply tiles_app. exists m. by split. }
    exists l. split_and!; [done..|]. intros d Hd. rewrite Hml by done. rewrite !elem_of_app, elem_of_cons.
    split; [|tauto]. intros Hin. split; [tauto|]. intros ->.
    apply tiles_app in Ht as (m & T1 & S & Sz & T2). subst m.
    destruct Hin as [Hin|Hin]; [destruct (tiles_elem _ _ _ _ T1 Hin)|destruct (tiles_elem _ _ _ _ T2 Hin)]; lia.
  - apply elem_of_cons in Hc as [->|Hc]; [done|].
    destruct (IH (x :: before)) as (l & E & Htl & Hcl & Hml); cbn [rev]; rewrite <- ?app_assoc; [done..|].
    exists l. split_and!; [done..|]. intros d Hd. rewrite Hml by done. cbn [rev]. by rewrite <- app_assoc.
Qed.

Lemma deallocate_wf A o n :
  wf A -> live (mList A) !! o = Some n ->
  exists A', deallocate A o = Done (0, A') /\ wf A' /\ mHeapSize A' = mHeapSize A /\
    live (mList A') = delete o (live (mList A)).
Proof.
  intros (HH & Hheap & Ht & Hco & Hal) Hl. rewrite (live_lookup _ _ _ _ _ Ht) in Hl.
  destruct Hl as (c & Hc & Hf & -> & ->).
  unfold deallocate. destruct (Z.eqb_spec (mHeapSize A) 0); [unfold kMemoryAlign in *; lia|]. unfold dealloc.
  rewrite Z.mul_comm, Z.div_mul by done.
  destruct (dealloc_from_spec 0 (units A) c (mList A) []) as (l & -> & Htl & Hcl & Hml); [done|lia|done..|].
  cbn [mbind outcome_bind]. eexists. split; [done|]. cbn [rev app] in Hml. split; [|split; [done|]].
  - split; [done|]. split; [done|]. split; [done|]. split; [done|]. intros d Hd Hfd. apply Hal; [by apply Hml|done].
  - cbn. apply map_eq. intros o. apply option_eq. intros m. rewrite (live_lookup _ _ _ _ _ Htl).
    rewrite lookup_delete_Some, (live_lookup _ _ _ _ _ Ht). split.
    + intros (d & Hd & Hfd & -> & ->). apply Hml in Hd as [Hd Hne]; [|done]. split; [|by exists d].
      intros E. apply Hne. apply (tiles_same_start _ _ _ _ _ Ht); [done..|]. unfold kMemoryAlign in E. lia.
    + intros [Hne (d & Hd & Hfd & -> & ->)]. exists d. split; [|done]. apply Hml; [done|]. split; [done|].
      intros ->. apply Hne. lia.
Qed.

Lemma setSize_wf sz :
  0 < sz -> sz + page < 2 ^ 31 ->
  exists A, setSize page new sz = (sz, A) /\ wf A /\ sz <= mHeapSize A < sz + page /\ live (mList A) = ∅.
Proof.
  intros Hsz Hmax. pose proof P_bounds as HP. unfold setSize, new. cbn [mHeapSize mList Z.eqb negb].
  assert (Z.land (u32 (sz + page - 1)) (not32 (page - 1)) = (sz + page - 1) / page * page) as ->.
  { rewrite u32_small by lia. replace page with (2 ^ (5 + k)) by (rewrite Z.pow_add_r by lia; done).
    unfold not32. replace (2 ^ (5 + k) - 1) with (Z.ones (5 + k)) by (rewrite Z.ones_equiv; lia).
    apply Z.bits_inj'. intros i Hi. rewrite Z.land_spec, Z.lxor_spec.
    change (2 ^ 32 - 1) with (Z.ones 32). rewrite Z.mul_pow2_bits by lia.
    destruct (Z.ltb_spec i (5 + k)) as [Hlt|Hge].
    - rewrite (Z.ones_spec_low (5 + k)) by lia. rewrite (Z.ones_spec_low 32) by lia.
      rewrite (Z.testbit_neg_r _ (i - (5 + k))) by lia. apply andb_false_r.
    - rewrite (Z.ones_spec_high (5 + k)) by lia. rewrite Z.div_pow2_bits by lia.
      replace (i - (5 + k) + (5 + k)) with i by lia. rewrite xorb_false_l.
      destruct (Z.ltb_spec i 32) as [Hlt32|Hge32].
      + rewrite Z.ones_spec_low by lia. by rewrite andb_true_r.
      + rewrite is_u32_testbit_high; [done| |done]. unfold is_u32.
        rewrite Z.pow_add_r in * by lia. lia. }
  set (q := (sz + page - 1) / page).
  pose proof (Z.div_mod (sz + page - 1) page ltac:(lia)) as Hdm.
  pose proof (Z.mod_pos_bound (sz + page - 1) page ltac:(lia)) as Hmb. fold q in Hdm.
  assert (q * page / kMemoryAlign = q * P) as Hu.
  { unfold kMemoryAlign. replace (q * page) with (q * P * 32) by lia. by apply Z.div_mul. }
  assert (u28 (q * P) = q * P) as Hu28 by (apply Z.mod_small; nia). rewrite Hu, Hu28.
  rewrite i32_small by lia. eexists. split; [done|]. unfold wf, units. cbn [mHeapSize mList]. rewrite Hu.
  split; [|split; [nia|]].
  - split; [nia|]. split; [unfold kMemoryAlign; lia|]. cbn. split; [split_and!; [done|nia|done]|].
    split; [done|]. intros c ->%list_elem_of_singleton. done.
  - done.
Qed.

(** Nothing live: the heap is one free chunk. *)
Lemma live_empty_whole a b l : a < b ->
  tiles a b l -> coalesced l -> live l = ∅ -> l = [mk_chunk a (b - a) true].
Proof.
  intros Hab Ht Hco Hlive.
  assert (forall c, c ∈ l -> free c = true) as Hall.
  { intros c Hc. destruct (free c) eqn:Hf; [done|]. exfalso.
    assert (live l !! (kMemoryAlign * start c) = Some (kMemoryAlign * size c)) as E
      by (rewrite (live_lookup _ _ _ _ _ Ht); by exists c). by rewrite Hlive in E. }
  destruct l as [|c [|d l]]; cbn in Ht; [lia| |].
  - destruct Ht as (Hs & Hsz & Hb). destruct c as [s z f].
    assert (f = true) as -> by (apply (Hall (mk_chunk s z f)); set_solver). cbn in *. subst. do 2 f_equal. lia.
  - exfalso. destruct Hco as [Hh _]. specialize (Hh (Hall c ltac:(set_solver))). cbn in Hh.
    rewrite (Hall d) in Hh by set_solver. done.
Qed.
End best_fit.

(** SimpleBestFitAllocator keeps the laws of an allocator. *)
Definition best_fit (page : Z) : Allocator BestFit.allocator := {|
  a_setSize := BestFit.setSize page;
  a_allocate := BestFit.allocate page;
  a_deallocate := BestFit.deallocate
|}.

Definition best_fit_ready (k : Z) (A : BestFit.allocator) (h : Z) (m : gmap Z Z) : Prop :=
  wf k A /\ BestFit.mHeapSize A = h /\ live (BestFit.mList A) = m.

#[local] Existing Instance best_fit.

Program Definition best_fit_laws (k : Z) (Hk : 0 <= k <= 24) :
    @AllocatorLaws (32 * 2 ^ k) BestFit.allocator (best_fit (32 * 2 ^ k)) := {|
  a_fresh A := A = BestFit.new;
  a_ready := best_fit_ready k
|}.
Next Obligation.
  intros k Hk x size -> Hs Hmax. destruct (setSize_wf k Hk size Hs Hmax) as (A & E & Hwf & Hh & Hl).
  exists A, (BestFit.mHeapSize A). split; [exact E|]. split; [exact Hh|]. exact (conj Hwf (conj eq_refl Hl)).
Qed.
Next Obligation.
  intros k Hk x h m size (Hwf & <- & <-) Hs. destruct (allocate_wf k Hk x size Hwf Hs) as (r & A' & E & Hres).
  exists r, A'. split; [exact E|]. destruct Hres as [(H1 & H2 & H3 & H4 & H5 & H6 & H7)|?]; [left|by right].
  exact (conj H1 (conj H2 (conj H3 (conj H4 (conj H5 (conj H6 H7)))))).
Qed.
Next Obligation.
  intros k Hk x h m o n (Hwf & <- & <-) Hl. destruct (deallocate_wf k Hk x o n Hwf Hl) as (A' & E & H1 & H2 & H3).
  exists A'. exact (conj E (conj H1 (conj H2 H3))).
Qed.

Next Obligation.
  intros k Hk x h m o n (Hwf & <- & <-) Hl. destruct Hwf as (_ & _ & Ht & _).
  rewrite (live_lookup k Hk _ _ _ _ _ Ht) in Hl. destruct Hl as (c & Hc & _ & _ & ->).
  destruct (tiles_elem _ _ _ _ Ht Hc). unfold BestFit.kMemoryAlign. lia.
Qed.
Next Obligation.
  intros k Hk x h m size ((HH & Hheap & _) & _). exists (- BestFit.EINVAL). cbn. unfold BestFit.setSize.
  destruct (Z.eqb_spec (BestFit.mHeapSize x) 0); [unfold BestFit.kMemoryAlign in *; lia|done].
Qed.
Next Obligation. by intros k Hk x h m h' m' (_ & <- & <-) (_ & <- & <-). Qed.

(** ** Reachable allocators *)

Inductive reached (page : Z) : BestFit.allocator -> Prop :=
| reached_setSize sz : 0 < sz -> sz + page < 2 ^ 31 -> reached page (BestFit.setSize page BestFit.new sz).2
| reached_allocate A sz : reached page A -> 0 < sz < 2 ^ 31 -> reached page (BestFit.allocate page A sz).2
| reached_deallocate A A' o n r : reached page A -> live (BestFit.mList A) !! o = Some n ->
    BestFit.deallocate A o = Done (r, A') -> reached page A'.

Lemma reached_wf k A : 0 <= k <= 24 -> reached (32 * 2 ^ k) A -> wf k A.
Proof.
  intros Hk. induction 1 as [sz Hs Hm|A sz _ IH Hs|A A' o n r _ IH Hl E].
  - destruct (setSize_wf k Hk sz Hs Hm) as (A & -> & Hwf & _). done.
  - destruct (allocate_wf k Hk A sz IH Hs) as (r & A' & -> & [(_ & _ & _ & _ & Hwf & _)|(_ & -> & _)]); done.
  - destruct (deallocate_wf k Hk A o n IH Hl) as (A1 & E1 & Hwf & _). rewrite E in E1. by injection E1 as _ <-.
Qed.

(** C15 (safety). In every state reached from setSize by requests and by returns of
    live blocks, a request either gets a page-aligned block inside the heap that no
    live block overlaps, which then is live, or is refused with ENOMEM, and then
    every page-aligned place in the heap is really taken: it overlaps a live
    block. *)
Theorem allocate_sound_and_complete (k : Z) (A : BestFit.allocator) (sz : Z) :
  0 <= k <= 24 -> reached (32 * 2 ^ k) A -> 0 < sz < 2 ^ 31 ->
  exists r A', BestFit.allocate (32 * 2 ^ k) A sz = (r, A') /\
    ((0 <= r /\ (32 * 2 ^ k | r) /\ r + block_len sz <= BestFit.mHeapSize A /\
      (forall o n, live (BestFit.mList A) !! o = Some n -> apart r (block_len sz) o n) /\
      live (BestFit.mList A') = <[r := block_len sz]> (live (BestFit.mList A))) \/
     (r = - BestFit.ENOMEM /\ A' = A /\
      forall o, 0 <= o -> (32 * 2 ^ k | o) -> o + block_len sz <= BestFit.mHeapSize A ->
        exists o' n', live (BestFit.mList A) !! o' = Some n' /\ ~ apart o (block_len sz) o' n')).
Proof.
  intros Hk HA Hsz. destruct (allocate_wf k Hk A sz (reached_wf k A Hk HA) Hsz) as (r & A' & E & Hres).
  exists r, A'. split; [done|]. destruct Hres as [(? & ? & ? & ? & _ & _ & ?)|?]; [left|right]; done.
Qed.

Lemma allocate_sound_and_complete_witness :
  exists r A', BestFit.allocate (32 * 2 ^ 7) (BestFit.setSize 4096 BestFit.new 40000).2 100 = (r, A') /\
    ((0 <= r /\ (32 * 2 ^ 7 | r) /\ r + block_len 100 <= 40960 /\
      (forall o n, live [BestFit.mk_chunk 0 1280 true] !! o = Some n -> apart r (block_len 100) o n) /\
      live (BestFit.mList A') = <[r := block_len 100]> (live [BestFit.mk_chunk 0 1280 true])) \/
     (r = - BestFit.ENOMEM /\ A' = (BestFit.setSize 4096 BestFit.new 40000).2 /\
      forall o, 0 <= o -> (32 * 2 ^ 7 | o) -> o + block_len 100 <= 40960 ->
        exists o' n', live [BestFit.mk_chunk 0 1280 true] !! o' = Some n' /\ ~ apart o (block_len 100) o' n')).
Proof.
  apply (allocate_sound_and_complete 7 (BestFit.setSize 4096 BestFit.new 40000).2 100); [lia| |lia].
  change (32 * 2 ^ 7) with 4096. apply reached_setSize; lia.
Defined.

(** Returning blocks one after the other. *)
Fixpoint free_all (A : BestFit.allocator) (os : list Z) : outcome BestFit.allocator :=
  match os with
  | [] => Done A
  | o :: os => '(r, A) ← BestFit.deallocate A o; if r =? 0 then free_all A os else Stop "not live"
  end.

(** Memory is never lost: in every reachable state the live blocks
    can be returned in any order, each with success, and then the heap is one free
    chunk again. *)
Theorem free_all_whole (k : Z) (A : BestFit.allocator) (os : list Z) :
  0 <= k <= 24 -> reached (32 * 2 ^ k) A -> NoDup os ->
  (forall o, o ∈ os <-> is_Some (live (BestFit.mList A) !! o)) ->
  free_all A os = Done (BestFit.mk_alloc (BestFit.mHeapSize A)
    [BestFit.mk_chunk 0 (BestFit.mHeapSize A / BestFit.kMemoryAlign) true]).
Proof.
  intros Hk HA. pose proof (reached_wf k A Hk HA) as Hwf. clear HA.
  revert A Hwf. induction os as [|o os IH]; intros A Hwf Hnd Hos.
  - cbn [free_all]. destruct Hwf as (HH & Hheap & Ht & Hco & _).
    assert (live (BestFit.mList A) = ∅) as Hl.
    { apply map_eq. intros o. rewrite lookup_empty. apply eq_None_not_Some. rewrite <- Hos. apply not_elem_of_nil. }
    pose proof (live_empty_whole k Hk 0 _ _ (proj1 HH) Ht Hco Hl) as E. rewrite Z.sub_0_r in E.
    destruct A as [h l]. cbn in E. by rewrite E.
  - apply NoDup_cons in Hnd as [Hni Hnd]. destruct (proj1 (Hos o) ltac:(by left)) as [n Hn].
    destruct (deallocate_wf k Hk A o n Hwf Hn) as (A' & E & Hwf' & Hh & Hl). cbn [free_all]. rewrite E.
    cbn [mbind outcome_bind Z.eqb]. rewrite <- Hh. apply IH; [done|done|]. intros o'. rewrite Hl.
    destruct (decide (o' = o)) as [->|Hne].
    + rewrite lookup_delete_eq. split; [done|]. by intros [? ?].
    + rewrite lookup_delete_ne by done. rewrite <- Hos, elem_of_cons. naive_solver.
Qed.

Lemma free_all_whole_witness :
  free_all (BestFit.allocate 4096 (BestFit.allocate 4096 (BestFit.setSize 4096 BestFit.new 40000).2 100).2 5000).2 [4096; 0]
  = Done (BestFit.mk_alloc 40960 [BestFit.mk_chunk 0 1280 true]).
Proof.
  apply (free_all_whole 7).
  - lia.
  - change (32 * 2 ^ 7) with 4096. apply reached_allocate; [|lia]. apply reached_allocate; [|lia].
    apply reached_setSize; lia.
  - by_compute.
  - intros o. set (m := live _).
    assert (m = <[0 := 128]> (<[4096 := 5024]> ∅)) as -> by (vm_compute; reflexivity).
    rewrite !lookup_insert_is_Some', lookup_empty, !elem_of_cons, elem_of_nil, is_Some_alt. naive_solver.
Defined.

(** A request of nothing is answered with offset 0 although no block is taken:
    returning that offset frees whatever lives there. *)
Lemma empty_request_frees_other :
  let A := (BestFit.allocate 4096 (BestFit.setSize 4096 BestFit.new 40000).2 100).2 in
  BestFit.allocate 4096 A 0 = (0, A) /\ live (BestFit.mList A) !! 0 = Some 128 /\
  exists A', BestFit.deallocate A 0 = Done (0, A') /\ live (BestFit.mList A') = ∅.
Proof. split; [done|]. split; [done|]. eexists. split; vm_compute; reflexivity. Qed.

(** A size within 31 bytes of 2^32 wraps to a block of no units. *)
Lemma huge_request_granted :
  (BestFit.allocate 4096 (BestFit.setSize 4096 BestFit.new 40000).2 (2 ^ 32 - 1)).1 = 0.
Proof. vm_compute. reflexivity. Qed.
