(* ===== verification/Pmem.v ===== *)
(** * Buffers of graphics memory (libgralloc/pmemalloc.cpp, pmemalloc.h)

    [Userspace] is PmemUserspaceAllocator: one mapping of the whole device, cut up
    by an allocator, each buffer connected to a file of its own.  It is written
    against the class of allocators (see Alloc) and [Deps], the system calls of the
    code's own Deps class.  [Kernel] is PmemKernelAllocator.  The theorems show that
    buffers of different owners never overlap, that a failure takes nothing, and
    that a buffer whose unmapping fails is never given to somebody else. *)

From S2P Require Import Prelude Alloc.

(** The system as the code sees it.  A result below zero is a failure; [mmap] gives
    [None] for MAP_FAILED. *)
Class Deps (W : Type) := {
  d_open : W -> Z -> Z * W;
  d_close : W -> Z -> W;
  d_getErrno : W -> Z;
  d_getPmemTotalSize : W -> Z -> Z * Z * W;
  d_connectPmem : W -> Z -> Z -> Z * W;
  d_mapPmem : W -> Z -> Z -> Z -> Z * W;
  d_unmapPmem : W -> Z -> Z -> Z -> Z * W;
  d_mmap : W -> Z -> Z -> option Z * W;
  d_munmap : W -> Z -> Z -> Z * W;
  d_memset : W -> Z -> Z -> W
}.

(** A failed call leaves a positive errno. *)
Class DepsLaws (W : Type) `{Deps W} := {
  open_errno w fl r w' : d_open w fl = (r, w') -> r < 0 -> 0 < d_getErrno w';
  connect_errno w fd m r w' : d_connectPmem w fd m = (r, w') -> r < 0 -> 0 < d_getErrno w';
  map_errno w fd o n r w' : d_mapPmem w fd o n = (r, w') -> r < 0 -> 0 < d_getErrno w';
  mmap_errno w n fd w' : d_mmap w n fd = (None, w') -> 0 < d_getErrno w';
  connect_result w fd m r w' : d_connectPmem w fd m = (r, w') -> r <= 0
}.

(** The constants of the gralloc and fcntl headers. *)
Record usage_flags := mk_usage {
  SW_READ_MASK : Z; SW_READ_OFTEN : Z; SW_WRITE_MASK : Z; SW_WRITE_OFTEN : Z; O_RDWR : Z; O_SYNC : Z
}.

Definition get_open_flags (u : usage_flags) (usage : Z) : Z :=
  let openFlags := Z.lor (O_RDWR u) (O_SYNC u) in
  let uread := Z.land usage (SW_READ_MASK u) in
  let uwrite := Z.land usage (SW_WRITE_MASK u) in
  if (uread =? SW_READ_OFTEN u) || (uwrite =? SW_WRITE_OFTEN u) then Z.ldiff openFlags (O_SYNC u) else openFlags.

Module Userspace.
Section userspace.
Context {A W : Type} `{Allocator A} `{Deps W} (u : usage_flags).

Record pmem := mk_pmem { allocator : A; master_fd : Z; master_base : Z; world : W }.
Definition put_world (p : pmem) (w : W) : pmem := mk_pmem (allocator p) (master_fd p) (master_base p) w.
Definition put_alloc (p : pmem) (a : A) : pmem := mk_pmem a (master_fd p) (master_base p) (world p).
Definition put_master (p : pmem) (fd : Z) : pmem := mk_pmem (allocator p) fd (master_base p) (world p).

Definition MASTER_FD_INIT : Z := -1.

Definition init_pmem_area_locked (p : pmem) : Z * pmem :=
  let '(fd, w) := d_open (world p) (O_RDWR u) in
  if 0 <=? fd then
    let '(err, _, w) := d_getPmemTotalSize w fd in
    let size := 2 ^ 23 in
    let '(_, a) := a_setSize (allocator p) size in
    match d_mmap w size fd with
    | (None, w) => (- d_getErrno w, mk_pmem a (master_fd p) (master_base p) (d_close w fd))
    | (Some base, w) => (err, mk_pmem a fd base w)
    end
  else (- d_getErrno w, put_world p w).

Definition init_pmem_area (p : pmem) : Z * pmem :=
  let err := master_fd p in
  if err =? MASTER_FD_INIT then
    let '(err, p) := init_pmem_area_locked p in
    (err, if negb (err =? 0) then put_master p err else p)
  else if err <? 0 then (err, p)
  else (0, p).

(** The buffer given to the client: base, offset and file. *)
Definition alloc_pmem_buffer (p : pmem) (size usage : Z) : outcome (Z * option (Z * Z * Z) * pmem) :=
  let '(err, p) := init_pmem_area p in
  if negb (err =? 0) then Done (err, None, p)
  else
    let base := master_base p in
    let '(offset, a) := a_allocate (allocator p) size in
    let p := put_alloc p a in
    if offset <? 0 then Done (- BestFit.ENOMEM, None, p)
    else
      let '(fd, w) := d_open (world p) (get_open_flags u usage) in
      let err := if fd <? 0 then fd else 0 in
      let '(err, w) := if err =? 0 then d_connectPmem w fd (master_fd p) else (err, w) in
      let '(err, w) := if err =? 0 then d_mapPmem w fd offset size else (err, w) in
      if err <? 0 then
        let err := - d_getErrno w in
        '(_, a) ← a_deallocate (allocator p) offset;
        Done (err, None, put_alloc (put_world p (d_close w fd)) a)
      else
        Done (err, Some (base, offset, fd), put_world p (d_memset w (base + offset) size)).

(** The inner [err] hides the outer one, which is returned. *)
Definition free_pmem_buffer (p : pmem) (size offset fd : Z) : outcome (Z * pmem) :=
  if 0 <=? fd then
    let '(err, w) := d_unmapPmem (world p) fd offset size in
    let p := put_world p w in
    if err =? 0 then '(_, a) ← a_deallocate (allocator p) offset; Done (0, put_alloc p a)
    else Done (0, p)
  else Done (0, p).

End userspace.
Arguments pmem : clear implicits.
End Userspace.

Module Kernel.
Section kernel.
Context {W : Type} `{Deps W} (u : usage_flags).

Definition clp2 (x : Z) : Z :=
  let x := u32 (x - 1) in
  let x := Z.lor x (Z.shiftr x 1) in
  let x := Z.lor x (Z.shiftr x 2) in
  let x := Z.lor x (Z.shiftr x 4) in
  let x := Z.lor x (Z.shiftr x 8) in
  let x := Z.lor x (Z.shiftr x 16) in
  u32 (x + 1).

(** Result and the buffer (base, offset, file) of PmemKernelAllocator. *)
Definition alloc_kernel_buffer (w : W) (size usage : Z) : Z * (Z * Z * Z) * W :=
  let none := (0, 0, -1) in
  let '(fd, w) := d_open w (get_open_flags u usage) in
  if fd <? 0 then (- d_getErrno w, none, w)
  else
    let size := clp2 size in
    match d_mmap w size fd with
    | (None, w) => (- d_getErrno w, none, d_close w fd)
    | (Some base, w) => (0, (base, 0, fd), d_memset w base size)
    end.

Definition free_kernel_buffer (w : W) (size base : Z) : Z * W :=
  let size := clp2 size in
  let '(err, w) := d_munmap w base size in
  if err <? 0 then (- d_getErrno w, w) else (0, w).

End kernel.
End Kernel.

(** ** Rounding up to a power of two *)

(** Bit i of [z] says whether [y] has a bit among i … i+n-1. *)
Definition smeared (y z n : Z) : Prop :=
  forall i, 0 <= i -> Z.testbit z i = true <-> exists j, i <= j < i + n /\ Z.testbit y j = true.

Lemma smeared_double y z n : 0 <= n -> smeared y z n -> smeared y (Z.lor z (Z.shiftr z n)) (n + n).
Proof.
  intros Hn Hz i Hi. rewrite Z.lor_spec, Z.shiftr_spec, orb_true_iff, (Hz i), (Hz (i + n)) by lia. split.
  - intros [(j & ? & ?)|(j & ? & ?)]; exists j; (split; [lia|done]).
  - intros (j & ? & ?). destruct (Z.lt_ge_cases j (i + n)); [left|right]; exists j; (split; [lia|done]).
Qed.

Lemma smeared_log2 y z n : 0 < y < 2 ^ n -> 0 <= z -> smeared y z n -> z = 2 ^ (Z.log2 y + 1) - 1.
Proof.
  intros Hy Hz Hs. pose proof (Z.log2_nonneg y) as Hl. rewrite Z.sub_1_r, <- Z.ones_equiv. apply Z.bits_inj'. intros i Hi.
  assert (Z.log2 y < n) as Hn by (apply Z.log2_lt_pow2; lia). apply eq_true_iff_eq. rewrite (Hs i Hi).
  destruct (Z.lt_ge_cases i (Z.log2 y + 1)).
  - rewrite Z.ones_spec_low by lia. split; [done|]. intros _. exists (Z.log2 y). split; [lia|]. apply Z.bit_log2; lia.
  - rewrite Z.ones_spec_high by lia. split; [|done]. intros (j & ? & Hj). rewrite Z.bits_above_log2 in Hj by lia. done.
Qed.

(** The size of a kernel buffer is the least power of two that is large enough. *)
Lemma clp2_spec x : 0 < x <= 2 ^ 31 -> Kernel.clp2 x = 2 ^ Z.log2_up x.
Proof.
  intros Hx. unfold Kernel.clp2. set (y := x - 1). assert (u32 y = y) as -> by (apply Z.mod_small; lia).
  assert (smeared y y 1) as H0.
  { intros i Hi. split; [intros ?; exists i; split; [lia|done]|intros (j & ? & ?)]. by replace i with j by lia. }
  match goal with |- context [u32 (?z + 1)] => assert (smeared y z 32) as Hz; [|set (z32 := z) in *] end.
  { apply (smeared_double y _ 16), (smeared_double y _ 8), (smeared_double y _ 4), (smeared_double y _ 2),
      (smeared_double y _ 1), H0; lia. }
  assert (0 <= z32) as Hpos by (unfold z32; repeat first [apply Z.lor_nonneg; split|apply Z.shiftr_nonneg]; lia).
  clearbody z32. destruct (Z.eq_dec y 0) as [Hy|Hy].
  - replace x with 1 by lia. assert (z32 = 0) as ->; [|done]. apply Z.bits_inj_0. intros i.
    destruct (Z.testbit z32 i) eqn:E; [|done]. destruct (Z.lt_ge_cases i 0); [by rewrite Z.testbit_neg_r in E|].
    apply Hz in E as (j & _ & E); [|done]. by rewrite Hy, Z.bits_0 in E.
  - rewrite (smeared_log2 y z32 32) by lia || done. unfold Z.log2_up. destruct (Z.compare_spec 1 x); [lia| |lia].
    replace (Z.pred x) with y by lia. replace (2 ^ (Z.log2 y + 1) - 1 + 1) with (2 ^ Z.succ (Z.log2 y)) by (rewrite Z.add_1_r; lia).
    unfold u32. apply Z.mod_small. split; [apply Z.pow_nonneg; lia|]. apply Z.pow_lt_mono_r; [lia..|].
    assert (Z.log2 y < 31) by (apply Z.log2_lt_pow2; lia). lia.
Qed.

Section userspace_proofs.
Import Userspace.
Context {A W : Type} (page : Z) (Hpage : 0 < page < 2 ^ 30)
  `{AllocatorLaws page A} `{DepsLaws W} (u : usage_flags).

(** Blocks that do not meet each other. *)
Definition all_apart (m : gmap Z Z) : Prop :=
  forall o n o' n', o <> o' -> m !! o = Some n -> m !! o' = Some n' -> apart o n o' n'.

Lemma all_apart_insert m o n :
  all_apart m -> (forall o' n', m !! o' = Some n' -> apart o n o' n') -> all_apart (<[o := n]> m).
Proof.
  intros Hm Ho a x b y Hne Ha Hb. rewrite lookup_insert_Some in Ha, Hb. unfold apart in *.
  destruct Ha as [[-> ->]|[_ Ha]], Hb as [[-> ->]|[_ Hb]].
  - done.
  - by apply Ho.
  - destruct (Ho a x Ha); tauto.
  - by apply (Hm a x b y).
Qed.

Lemma all_apart_sub m bs : all_apart m -> bs ⊆ m -> all_apart bs.
Proof. intros Hm Hs a x b y Hne Ha Hb. apply (Hm a x b y Hne); by eapply lookup_weaken. Qed.

(** The buffers [bs] that are out are live blocks of the allocator. *)
Definition out_inv (p : pmem A W) (bs : gmap Z Z) : Prop :=
  (a_fresh (allocator p) /\ master_fd p < 0 /\ bs = ∅) \/
  (exists h m, a_ready (allocator p) h m /\ bs ⊆ m /\ all_apart m).

Lemma init_inv p bs err p' :
  out_inv p bs -> init_pmem_area u p = (err, p') ->
  out_inv p' bs /\
  (err = 0 -> exists h m, a_ready (allocator p') h m /\ bs ⊆ m /\ all_apart m) /\
  (forall h m, a_ready (allocator p) h m -> allocator p' = allocator p).
Proof.
  intros Hinv. unfold init_pmem_area. destruct (Z.eqb_spec (master_fd p) MASTER_FD_INIT) as [Hm|Hm].
  2:{ destruct (Z.ltb_spec (master_fd p) 0) as [Hneg|Hpos]; intros [= <- <-]; (split; [done|]); (split; [|done]).
      - lia.
      - intros _. destruct Hinv as [(_ & ? & _)|?]; [lia|done]. }
  unfold init_pmem_area_locked. destruct (d_open (world p) (O_RDWR u)) as [fd w] eqn:Eo.
  destruct (Z.leb_spec 0 fd) as [Hfd|Hfd].
  2:{ pose proof (open_errno _ _ _ _ Eo Hfd) as He. intros [= <- <-].
      destruct (Z.eqb_spec (- d_getErrno w) 0); [lia|]. cbn. split; [|split; [lia|done]].
      destruct Hinv as [(? & _ & ?)|?]; [left; cbn; split_and!; [done|lia|done]|by right]. }
  destruct (d_getPmemTotalSize w fd) as [[err0 sz] w1].
  assert (exists r a h m, a_setSize (allocator p) (2 ^ 23) = (r, a) /\ a_ready a h m /\ bs ⊆ m /\ all_apart m /\
            (forall h m, a_ready (allocator p) h m -> a = allocator p)) as (r & a & h & m & -> & Hready & Hsub & Hap & Hsame).
  { destruct Hinv as [(Hfresh & _ & ->)|(h & m & Hready & Hsub & Hap)].
    - destruct (setSize_ready (allocator p) (2 ^ 23) Hfresh) as (a & h & E & _ & Hr); [lia|lia|].
      exists (2 ^ 23), a, h, ∅. split_and!; [done|done|done|done|]. intros h' m' Hr'.
      destruct (setSize_again _ _ _ (2 ^ 23) Hr') as [r E']. rewrite E in E'. by injection E' as _ ->.
    - destruct (setSize_again _ _ _ (2 ^ 23) Hready) as [r E]. exists r, (allocator p), h, m. by split_and!. }
  destruct (d_mmap w1 (2 ^ 23) fd) as [[base|] w2].
  - intros E. injection E as <- <-. set (p1 := mk_pmem a fd base w2).
    assert (allocator (if negb (err0 =? 0) then put_master p1 err0 else p1) = a) as Ea by (by destruct (negb _)).
    rewrite !Ea. split; [|split; [eauto|done]]. right. rewrite Ea. eauto.
  - intros E. injection E as <- <-. set (p1 := mk_pmem a _ _ _).
    assert (allocator (if negb (- d_getErrno w2 =? 0) then put_master p1 (- d_getErrno w2) else p1) = a) as Ea by (by destruct (negb _)).
    rewrite !Ea. split; [|split; [eauto|done]]. right. rewrite Ea. eauto.
Qed.

(** One allocation: it returns; a buffer is apart from all live blocks; a failure
    leaves the live blocks as they were. *)
Lemma alloc_pmem_inv p bs size usage :
  out_inv p bs -> 0 < size < 2 ^ 31 ->
  exists err buf p', alloc_pmem_buffer u p size usage = Done (err, buf, p') /\
    match buf with
    | Some (_, o, _) => 0 <= err /\ out_inv p' (<[o := block_len size]> bs) /\
        (forall h m, a_ready (allocator p) h m ->
          m !! o = None /\ (page | o) /\ a_ready (allocator p') h (<[o := block_len size]> m))
    | None => err <> 0 /\ out_inv p' bs /\
        (forall h m, a_ready (allocator p) h m -> a_ready (allocator p') h m)
    end.
Proof.
  intros Hinv Hsz. unfold alloc_pmem_buffer. destruct (init_pmem_area u p) as [err p1] eqn:Ei.
  destruct (init_inv p bs err p1 Hinv Ei) as (Hinv1 & Hok & Hsame).
  destruct (Z.eqb_spec err 0) as [->|Herr]; cbn [negb].
  2:{ exists err, None, p1. split_and!; try done. intros h m Hr. by rewrite (Hsame h m Hr). }
  destruct (Hok eq_refl) as (h & m & Hready & Hsub & Hap). clear Hok.
  destruct (allocate_law _ _ _ size Hready Hsz) as (r & a & -> & Hres).
  assert (forall h' m', a_ready (allocator p) h' m' -> a_ready (allocator p1) h' m') as Hsame'.
  { intros h' m' Hr. by rewrite (Hsame h' m' Hr). }
  destruct Hres as [(Hr0 & Hpg & Hb & Hapart & Hready')|(-> & -> & _)].
  2:{ exists (- BestFit.ENOMEM), None, (put_alloc p1 (allocator p1)). split; [done|]. split; [done|].
      split; [right; cbn; eauto|done]. }
  destruct (Z.ltb_spec r 0); [lia|].
  assert (0 < block_len size) as Hlen by (unfold block_len; pose proof (Z.div_str_pos (size + 31) 32); lia).
  assert (m !! r = None) as Hnew.
  { destruct (m !! r) as [n|] eqn:Hn; [|done]. pose proof (live_positive _ _ _ _ _ Hready Hn).
    destruct (Hapart r n Hn); lia. }
  assert (all_apart (<[r := block_len size]> m)) as Hap' by (by apply all_apart_insert).
  assert (forall h' m', a_ready (allocator p) h' m' -> h' = h /\ m' = m) as Huniq.
  { intros h' m' Hr. apply (ready_unique (allocator p1)); [by rewrite (Hsame h' m' Hr)|done]. }
  destruct (d_open (world (put_alloc p1 a)) (get_open_flags u usage)) as [fd w1] eqn:Eo.
  set (e1 := if fd <? 0 then fd else 0).
  destruct (if e1 =? 0 then d_connectPmem w1 fd (master_fd (put_alloc p1 a)) else (e1, w1)) as [e2 w2] eqn:E2.
  destruct (if e2 =? 0 then d_mapPmem w2 fd r size else (e2, w2)) as [e3 w3] eqn:E3.
  destruct (Z.ltb_spec e3 0) as [Hneg|Hpos].
  - destruct (deallocate_law a h _ r (block_len size) Hready') as (a' & E & Hback); [apply lookup_insert_eq|].
    cbn [allocator put_alloc]. rewrite E. rewrite delete_insert_id in Hback by done. cbn [mbind outcome_bind].
    eexists _, None, _. split; [done|]. split; [|split].
    + assert (0 < d_getErrno w3) as He; [|lia]. revert E3. destruct (Z.eqb_spec e2 0) as [->|Hne2].
      { intros E3. by apply (map_errno _ _ _ _ _ _ E3). }
      intros [= <- <-]. revert E2. destruct (Z.eqb_spec e1 0) as [E1|Hne1].
      { intros E2. by apply (connect_errno _ _ _ _ _ E2). }
      intros [= <- <-]. unfold e1 in Hneg, Hne1. destruct (Z.ltb_spec fd 0); [by apply (open_errno _ _ _ _ Eo)|done].
    + right. cbn. eauto.
    + intros h' m' Hr. by destruct (Huniq h' m' Hr) as [-> ->].
  - eexists e3, (Some (_, r, fd)), _. split; [done|]. split; [done|]. split.
    + right. exists h, (<[r := block_len size]> m). cbn. split; [done|]. split; [by apply insert_mono|done].
    + intros h' m' Hr. destruct (Huniq h' m' Hr) as [-> ->]. by split_and!.
Qed.

(** One return of a buffer that is out. *)
Lemma free_pmem_inv p bs size o n fd :
  out_inv p bs -> bs !! o = Some n ->
  exists p', free_pmem_buffer p size o fd = Done (0, p') /\ out_inv p' (delete o bs) /\
    (forall h m, a_ready (allocator p) h m ->
       a_ready (allocator p') h (if (0 <=? fd) && ((d_unmapPmem (world p) fd o size).1 =? 0) then delete o m else m)).
Proof.
  intros Hinv Ho. unfold free_pmem_buffer.
  destruct Hinv as [(_ & _ & ->)|(h & m & Hready & Hsub & Hap)]; [by rewrite lookup_empty in Ho|].
  assert (delete o bs ⊆ m) as Hsub' by (etrans; [apply delete_subseteq|done]).
  destruct (0 <=? fd); cbn [andb].
  2:{ exists p. split; [done|]. split; [right; eauto|done]. }
  destruct (d_unmapPmem (world p) fd o size) as [err w]. cbn [fst]. destruct (err =? 0).
  - destruct (deallocate_law _ _ _ o n Hready ltac:(by eapply lookup_weaken)) as (a & E & Hready').
    cbn [allocator put_world]. rewrite E. cbn [mbind outcome_bind]. eexists. split; [done|]. split.
    + right. exists h, (delete o m). cbn. split; [done|]. split; [by apply delete_mono|].
      apply (all_apart_sub m); [done|apply delete_subseteq].
    + intros h' m' Hr. by destruct (ready_unique _ _ _ _ _ Hr Hready) as [-> ->].
  - eexists. split; [done|]. split; [right; cbn; eauto|done].
Qed.

(** The buffers that are out after any sequence of requests and returns. *)
Inductive handed_out : pmem A W -> gmap Z Z -> Prop :=
| out_start a base w : a_fresh a -> handed_out (mk_pmem a MASTER_FD_INIT base w) ∅
| out_alloc p bs size usage err buf p' :
    handed_out p bs -> 0 < size < 2 ^ 31 -> alloc_pmem_buffer u p size usage = Done (err, buf, p') ->
    handed_out p' (match buf with Some (_, o, _) => <[o := block_len size]> bs | None => bs end)
| out_free p bs o n size fd err p' :
    handed_out p bs -> bs !! o = Some n -> free_pmem_buffer p size o fd = Done (err, p') ->
    handed_out p' (delete o bs).

Lemma handed_out_inv p bs : handed_out p bs -> out_inv p bs.
Proof.
  induction 1 as [a base w Ha|p bs size usage err buf p' _ IH Hs E|p bs o n size fd err p' _ IH Ho E].
  - left. by split_and!.
  - destruct (alloc_pmem_inv p bs size usage IH Hs) as (err' & buf' & p1 & E1 & Hres). rewrite E in E1.
    injection E1 as <- <- <-. destruct buf as [[[? ?] ?]|]; tauto.
  - destruct (free_pmem_inv p bs size o n fd IH Ho) as (p1 & E1 & Hinv & _). rewrite E in E1. by injection E1 as _ <-.
Qed.
End userspace_proofs.

(** C16 (safety). Over any allocator that keeps its laws, and after any sequence of
    requests and returns of buffers, failures of the system calls included, the
    buffers that are out do not overlap, and every further request, and every
    return of a buffer that is out, completes. *)
Theorem buffers_apart {A W : Type} (page : Z) (Hpage : 0 < page < 2 ^ 30) `{AllocatorLaws page A} `{DepsLaws W}
    (u : usage_flags) (p : Userspace.pmem A W) (bs : gmap Z Z) :
  handed_out page u p bs ->
  (forall o n o' n', o <> o' -> bs !! o = Some n -> bs !! o' = Some n' -> apart o n o' n') /\
  (forall size usage, 0 < size < 2 ^ 31 -> exists r, Userspace.alloc_pmem_buffer u p size usage = Done r) /\
  (forall o n size fd, bs !! o = Some n -> exists r, Userspace.free_pmem_buffer p size o fd = Done r).
Proof.
  intros Hp. apply (handed_out_inv page Hpage) in Hp as Hinv. split; [|split].
  - destruct Hinv as [(_ & _ & ->)|(h & m & _ & Hsub & Hap)]; [by intros ????? E|]. by apply (all_apart_sub m).
  - intros size usage Hs. destruct (alloc_pmem_inv page Hpage u p bs size usage Hinv Hs) as (err & buf & p' & E & _). eauto.
  - intros o n size fd Ho. destruct (free_pmem_inv page p bs size o n fd Hinv Ho) as (p' & E & _). eauto.
Qed.

(** A system with one device: files are numbered from the world's counter, a file
    can be mapped in the first 4096 bytes of the area only, and unmapping it there
    fails when more than a page is given back. *)
Definition one_device : Deps Z := {|
  d_open w _ := (w + 3, w + 1);
  d_close w _ := w;
  d_getErrno _ := 22;
  d_getPmemTotalSize w _ := (0, 2 ^ 23, w);
  d_connectPmem w _ _ := (0, w);
  d_mapPmem w _ o _ := (if o <? 4096 then 0 else -1, w);
  d_unmapPmem w _ o n := (if n <=? 4096 then 0 else -1, w);
  d_mmap w _ _ := (Some 4194304, w);
  d_munmap w _ _ := (0, w);
  d_memset w _ _ := w
|}.

Lemma one_device_laws : @DepsLaws Z one_device.
Proof. split; cbn; try lia; try done. intros w fd m r w' [= <- _]. lia. Qed.

Definition one_usage : usage_flags := mk_usage 15 3 240 48 2 4096.

(** The state after one request of 5000 bytes. *)
Definition one_state : Userspace.pmem BestFit.allocator Z :=
  Userspace.mk_pmem (BestFit.allocate 4096 (BestFit.setSize 4096 BestFit.new (2 ^ 23)).2 5000).2 3 4194304 2.

Lemma one_state_out :
  @handed_out _ _ (32 * 2 ^ 7) (best_fit (32 * 2 ^ 7)) (best_fit_laws 7 ltac:(lia)) one_device one_usage
    one_state {[ 0 := block_len 5000 ]}.
Proof.
  apply (@out_alloc _ _ (32 * 2 ^ 7) (best_fit (32 * 2 ^ 7)) (best_fit_laws 7 ltac:(lia)) one_device one_usage
    (Userspace.mk_pmem BestFit.new Userspace.MASTER_FD_INIT 0 0) ∅ 5000 51 0 (Some (4194304, 0, 4)) one_state).
  - by apply out_start.
  - lia.
  - vm_compute. reflexivity.
Qed.

Lemma buffers_apart_witness :
  (forall o n o' n', o <> o' -> ({[ 0 := 5024 ]} : gmap Z Z) !! o = Some n -> ({[ 0 := 5024 ]} : gmap Z Z) !! o' = Some n' ->
     apart o n o' n') /\
  (forall size usage, 0 < size < 2 ^ 31 ->
     exists r, @Userspace.alloc_pmem_buffer _ _ (best_fit 4096) one_device one_usage one_state size usage = Done r) /\
  (forall o n size fd, ({[ 0 := 5024 ]} : gmap Z Z) !! o = Some n ->
     exists r, @Userspace.free_pmem_buffer _ _ (best_fit 4096) one_device one_state size o fd = Done r).
Proof.
  exact (@buffers_apart _ _ (32 * 2 ^ 7) ltac:(lia) (best_fit (32 * 2 ^ 7)) (best_fit_laws 7 ltac:(lia)) one_device
    one_device_laws one_usage one_state {[ 0 := block_len 5000 ]} one_state_out).
Defined.

(** What failures leave behind: a request that fails, for want of
    memory or because the buffer's file cannot be opened, connected or mapped,
    leaves the live blocks of the allocator as they were; a buffer returned whose
    unmapping fails stays a live block, so that nobody else gets its memory. *)
Theorem pmem_failures {A W : Type} (page : Z) (Hpage : 0 < page < 2 ^ 30) `{AllocatorLaws page A} `{DepsLaws W}
    (u : usage_flags) (p : Userspace.pmem A W) (bs : gmap Z Z) (h : Z) (m : gmap Z Z) :
  handed_out page u p bs -> a_ready (Userspace.allocator p) h m ->
  (forall size usage err p', 0 < size < 2 ^ 31 ->
     Userspace.alloc_pmem_buffer u p size usage = Done (err, None, p') ->
     err <> 0 /\ a_ready (Userspace.allocator p') h m) /\
  (forall o n size fd e w', bs !! o = Some n -> e <> 0 ->
     d_unmapPmem (Userspace.world p) fd o size = (e, w') ->
     exists p', Userspace.free_pmem_buffer p size o fd = Done (0, p') /\ a_ready (Userspace.allocator p') h m).
Proof.
  intros Hp Hr. apply (handed_out_inv page Hpage) in Hp as Hinv. split.
  - intros size usage err p' Hs E.
    destruct (alloc_pmem_inv page Hpage u p bs size usage Hinv Hs) as (err' & buf & p1 & E1 & Hres). rewrite E in E1.
    injection E1 as <- <- <-. destruct Hres as (? & _ & Hk). by split; [|apply Hk].
  - intros o n size fd e w' Ho He Eu. destruct (free_pmem_inv page p bs size o n fd Hinv Ho) as (p' & E & _ & Hk).
    exists p'. split; [done|]. specialize (Hk h m Hr). rewrite Eu in Hk. cbn [fst] in Hk.
    by rewrite (proj2 (Z.eqb_neq e 0) He), andb_false_r in Hk.
Qed.

Lemma pmem_failures_witness :
  let live := live (BestFit.mList (Userspace.allocator one_state)) in
  (forall size usage err p', 0 < size < 2 ^ 31 ->
     @Userspace.alloc_pmem_buffer _ _ (best_fit 4096) one_device one_usage one_state size usage = Done (err, None, p') ->
     err <> 0 /\ @a_ready _ _ _ (best_fit_laws 7 ltac:(lia)) (Userspace.allocator p') (2 ^ 23) live) /\
  exists p', @Userspace.free_pmem_buffer _ _ (best_fit 4096) one_device one_state 5000 0 4 = Done (0, p') /\
    @a_ready _ _ _ (best_fit_laws 7 ltac:(lia)) (Userspace.allocator p') (2 ^ 23) live.
Proof.
  destruct (@pmem_failures _ _ (32 * 2 ^ 7) ltac:(lia) (best_fit (32 * 2 ^ 7)) (best_fit_laws 7 ltac:(lia)) one_device
    one_device_laws one_usage one_state {[ 0 := block_len 5000 ]} (2 ^ 23)
    (live (BestFit.mList (Userspace.allocator one_state))) one_state_out) as [Ha Hf].
  { split; [|by split]. apply (reached_wf 7); [lia|]. change (32 * 2 ^ 7) with 4096.
    apply reached_allocate; [|lia]. apply reached_setSize; lia. }
  split; [exact Ha|]. by apply (Hf 0 (block_len 5000) 5000 4 (-1) 2).
Defined.

(** A request whose file cannot be mapped fails and leaves nothing behind. *)
Example second_request_fails :
  exists p', @Userspace.alloc_pmem_buffer _ _ (best_fit 4096) one_device one_usage one_state 100 0 = Done (-22, None, p') /\
    live (BestFit.mList (Userspace.allocator p')) = live (BestFit.mList (Userspace.allocator one_state)).
Proof. eexists. split; vm_compute; reflexivity. Qed.
