(* ===== verification/Bip.v ===== *)
(** * The pipes of the Windows build (tools/adb/sysdeps_win32.c, the bip_buffer functions)

    A pipe is a circular buffer of two regions, with flags, events and a lock.
    [bip_buffer_write] and [bip_buffer_read] are given as the steps a thread takes:
    one for each critical section, test and wait; [bip_buffer_close], which takes
    no lock, is three steps.  The theorems show that the buffer is a bounded queue
    of bytes whatever the interleaving of a writer, a reader and closers, that
    its assertions hold, and that nobody waits for an event that has passed. *)

From S2P Require Import Prelude.

Definition BIP_BUFFER_SIZE : Z := 4096.

Record bip := mk_bip {
  a_start : Z; a_end : Z; b_end : Z;
  closed : bool;
  can_write : bool; evt_write : bool;
  can_read : bool; evt_read : bool;
  buff : bytes
}.

Definition bip_buffer_init (garbage : bytes) : bip := mk_bip 0 0 0 false true true false false garbage.

(** Stores into the buffer, its bounds and the flag and event of each side. *)
Definition put_regions (b : bip) (s e e2 : Z) (m : bytes) : bip :=
  mk_bip s e e2 (closed b) (can_write b) (evt_write b) (can_read b) (evt_read b) m.
Definition put_write (b : bip) (v : bool) : bip :=
  mk_bip (a_start b) (a_end b) (b_end b) (closed b) v v (can_read b) (evt_read b) (buff b).
Definition put_read (b : bip) (v : bool) : bip :=
  mk_bip (a_start b) (a_end b) (b_end b) (closed b) (can_write b) (evt_write b) v v (buff b).

(** [memcpy] out of the buffer. *)
Definition load_bytes (mem : bytes) (off n : Z) : option bytes :=
  if decide (0 <= off /\ 0 <= n /\ off + n <= Z.of_nat (length mem))
  then Some (take (Z.to_nat n) (drop (Z.to_nat off) mem)) else None.

(** [assert] *)
Definition assert (b : bool) : outcome () := if b then Done () else Stop "assertion failed".

(** ** The critical sections *)

(** After the wait loop of bip_buffer_write, up to the return. *)
Definition write_exit (b : bip) (count : Z) : outcome (Z * bip) :=
  _ ← assert (0 <? count);
  Done (count, if can_read b then b else put_read b true).

Definition write_b (b : bip) (src : bytes) (count : Z) : outcome (Z * bip) :=
  let len := Z.of_nat (length src) in
  if len =? 0 then write_exit b count
  else
    let avail := a_start b - b_end b in
    _ ← assert (0 <? avail);
    let avail := if len <? avail then len else avail in
    m ← deref "buff" (store_bytes (buff b) (Z.to_nat (b_end b)) (take (Z.to_nat avail) src));
    let b := put_regions b (a_start b) (a_end b) (b_end b + avail) m in
    write_exit (if b_end b =? a_start b then put_write b false else b) (count + avail).

Definition write_locked (b : bip) (src : bytes) : outcome (Z * bip) :=
  let len := Z.of_nat (length src) in
  let avail := BIP_BUFFER_SIZE - a_end b in
  if 0 <? avail then
    let avail := if len <? avail then len else avail in
    m ← deref "buff" (store_bytes (buff b) (Z.to_nat (a_end b)) (take (Z.to_nat avail) src));
    let b := put_regions b (a_start b) (a_end b + avail) (b_end b) m in
    if (a_end b =? BIP_BUFFER_SIZE) && (a_start b =? 0) then write_exit (put_write b false) avail
    else write_b b (drop (Z.to_nat avail) src) avail
  else write_b b src 0.

(** The same for bip_buffer_read; the count is the length of what is copied. *)
Definition read_exit (b : bip) (dst : bytes) : outcome (bytes * bip) :=
  _ ← assert (0 <? Z.of_nat (length dst));
  Done (dst, if can_write b then b else put_write b true).

Definition read_locked (b : bip) (len : Z) : outcome (bytes * bip) :=
  let avail := a_end b - a_start b in
  _ ← assert (0 <? avail);
  let avail := if len <? avail then len else avail in
  dst ← deref "buff" (load_bytes (buff b) (a_start b) avail);
  let len := len - avail in
  let b := put_regions b (a_start b + avail) (a_end b) (b_end b) (buff b) in
  if a_start b <? a_end b then read_exit b dst
  else
    let b := put_regions b 0 (b_end b) 0 (buff b) in
    let avail := a_end b in
    if 0 <? avail then
      let avail := if len <? avail then len else avail in
      dst2 ← deref "buff" (load_bytes (buff b) 0 avail);
      let b := put_regions b (a_start b + avail) (a_end b) (b_end b) (buff b) in
      if a_start b <? a_end b then read_exit b (dst ++ dst2)
      else read_exit (put_read (put_regions b 0 0 (b_end b) (buff b)) false) (dst ++ dst2)
    else read_exit (put_read b false) dst.

(** ** The calls as threads

    Where a caller stands: before the lock, after leaving it with nothing to do,
    waiting for the event, woken, or back with a result ([None]: -1 with EPIPE). *)

Inductive pc (R : Type) := Enter | Check | Wait | Woken | Ret (r : option R).
Arguments Enter {R}.
Arguments Check {R}.
Arguments Wait {R}.
Arguments Woken {R}.
Arguments Ret {R} r.

(** One step of bip_buffer_write and bip_buffer_read; [None]: the thread cannot run. *)
Definition bip_buffer_write (b : bip) (src : bytes) (p : pc Z) : option (outcome (pc Z * bip)) :=
  match p with
  | Enter => Some (if can_write b then '(n, b) ← write_locked b src; Done (Ret (Some n), b) else Done (Check, b))
  | Check => Some (Done (if closed b then Ret None else Wait, b))
  | Wait => if evt_write b then Some (Done (Woken, b)) else None
  | Woken => Some (Done (if closed b then Ret None else Enter, b))
  | Ret _ => None
  end.

Definition bip_buffer_read (b : bip) (len : Z) (p : pc bytes) : option (outcome (pc bytes * bip)) :=
  match p with
  | Enter => Some (if can_read b then '(d, b) ← read_locked b len; Done (Ret (Some d), b) else Done (Check, b))
  | Check => Some (Done (if closed b then Ret None else Wait, b))
  | Wait => if evt_read b then Some (Done (Woken, b)) else None
  | Woken => Some (Done (if closed b then Ret None else Enter, b))
  | Ret _ => None
  end.

(** The three steps of bip_buffer_close. *)
Definition close_mark (b : bip) : bip :=
  mk_bip (a_start b) (a_end b) (b_end b) true (can_write b) (evt_write b) (can_read b) (evt_read b) (buff b).
Definition close_read (b : bip) : bip :=
  mk_bip (a_start b) (a_end b) (b_end b) (closed b) (can_write b) (evt_write b)
    (can_read b) (if can_read b then evt_read b else true) (buff b).
Definition close_write (b : bip) : bip :=
  mk_bip (a_start b) (a_end b) (b_end b) (closed b) (can_write b) (if can_write b then evt_write b else true)
    (can_read b) (evt_read b) (buff b).
Definition bip_buffer_close (b : bip) : bip := close_write (close_read (close_mark b)).

(** A pipe in use: a writer and a reader, each with its call, the number of closers
    before each of the last two steps, and what was sent and received so far. *)
Record sys := mk_sys {
  pipe : bip;
  w_src : bytes; w_pc : pc Z;
  r_len : Z; r_pc : pc bytes;
  closers_read : nat; closers_write : nat;
  sent : bytes; received : bytes
}.

(** A return is seen by the history at the step that makes it. *)
Definition sent_by (src : bytes) (p : pc Z) : bytes :=
  match p with Ret (Some n) => take (Z.to_nat n) src | _ => [] end.
Definition received_by (p : pc bytes) : bytes := match p with Ret (Some d) => d | _ => [] end.

Inductive step : sys -> sys -> Prop :=
| step_call_write b src r l p c1 c2 s t src' :
    src' <> [] -> step (mk_sys b src (Ret r) l p c1 c2 s t) (mk_sys b src' Enter l p c1 c2 s t)
| step_call_read b src q l r c1 c2 s t l' :
    0 < l' -> step (mk_sys b src q l (Ret r) c1 c2 s t) (mk_sys b src q l' Enter c1 c2 s t)
| step_write b src q l p c1 c2 s t q' b' :
    bip_buffer_write b src q = Some (Done (q', b')) ->
    step (mk_sys b src q l p c1 c2 s t) (mk_sys b' src q' l p c1 c2 (s ++ sent_by src q') t)
| step_read b src q l p c1 c2 s t p' b' :
    bip_buffer_read b l p = Some (Done (p', b')) ->
    step (mk_sys b src q l p c1 c2 s t) (mk_sys b' src q l p' c1 c2 s (t ++ received_by p'))
| step_close_mark b src q l p c1 c2 s t :
    step (mk_sys b src q l p c1 c2 s t) (mk_sys (close_mark b) src q l p (S c1) c2 s t)
| step_close_read b src q l p c1 c2 s t :
    step (mk_sys b src q l p (S c1) c2 s t) (mk_sys (close_read b) src q l p c1 (S c2) s t)
| step_close_write b src q l p c1 c2 s t :
    step (mk_sys b src q l p c1 (S c2) s t) (mk_sys (close_write b) src q l p c1 c2 s t).

Inductive reachable : sys -> Prop :=
| reach_init garbage r r' :
    length garbage = Z.to_nat BIP_BUFFER_SIZE ->
    reachable (mk_sys (bip_buffer_init garbage) [] (Ret r) 1 (Ret r') 0 0 [] [])
| reach_step s s' : reachable s -> step s s' -> reachable s'.

(** ** The queue a buffer stands for *)

Definition contents (b : bip) : bytes :=
  take (Z.to_nat (a_end b - a_start b)) (drop (Z.to_nat (a_start b)) (buff b)) ++ take (Z.to_nat (b_end b)) (buff b).

(** The bounds, and the flags that tell whether there is something to read or room
    to write. *)
Definition core (b : bip) : Prop :=
  length (buff b) = Z.to_nat BIP_BUFFER_SIZE /\
  0 <= b_end b <= a_start b /\ a_start b <= a_end b <= BIP_BUFFER_SIZE /\
  (0 < b_end b -> a_end b = BIP_BUFFER_SIZE) /\
  (a_start b = a_end b -> a_end b = 0).

Definition wf (b : bip) : Prop :=
  core b /\ can_read b = (a_start b <? a_end b) /\
  can_write b = negb ((a_end b =? BIP_BUFFER_SIZE) && (b_end b =? a_start b)).

Lemma contents_length b :
  core b -> Z.of_nat (length (contents b)) = a_end b - a_start b + b_end b.
Proof.
  intros (Hl & ? & ? & _). unfold contents, BIP_BUFFER_SIZE in *.
  rewrite length_app, !length_take, length_drop, Hl. lia.
Qed.

(** Storing inside an object changes the slice that ends there, and no slice before
    or behind. *)
Lemma slice_store mem off data m s :
  store_bytes mem off data = Some m -> (s <= off)%nat ->
  length m = length mem /\
  take (off + length data - s) (drop s m) = take (off - s) (drop s mem) ++ data.
Proof.
  unfold store_bytes. case_decide as Hd; [|done]. intros [= <-] Hs. split.
  { rewrite !length_app, length_take, length_drop. lia. }
  rewrite drop_app_le by (rewrite length_take; lia). rewrite app_assoc.
  rewrite take_app_le by (rewrite length_app, length_drop, length_take; lia).
  rewrite take_ge by (rewrite length_app, length_drop, length_take; lia).
  by rewrite skipn_firstn_comm.
Qed.

Lemma slice_store_before mem off data m n :
  store_bytes mem off data = Some m -> (n <= off)%nat -> take n m = take n mem.
Proof.
  unfold store_bytes. case_decide as Hd; [|done]. intros [= <-] Hs.
  rewrite take_app_le by (rewrite length_take; lia). rewrite take_take. f_equal. lia.
Qed.

Lemma slice_store_behind mem off data m s :
  store_bytes mem off data = Some m -> (off + length data <= s)%nat -> drop s m = drop s mem.
Proof.
  unfold store_bytes. case_decide as Hd; [|done]. intros [= <-] Hs.
  rewrite drop_app_ge by (rewrite length_take; lia). rewrite length_take, Nat.min_l by lia.
  rewrite drop_app_ge by lia. rewrite drop_drop. f_equal. lia.
Qed.

Lemma store_bytes_fits mem off data :
  (off + length data <= length mem)%nat -> exists m, store_bytes mem off data = Some m.
Proof. intros ?. unfold store_bytes. rewrite decide_True by done. eauto. Qed.

Lemma load_bytes_fits mem off n :
  0 <= off -> 0 <= n -> off + n <= Z.of_nat (length mem) ->
  load_bytes mem off n = Some (take (Z.to_nat n) (drop (Z.to_nat off) mem)).
Proof. intros. unfold load_bytes. by rewrite decide_True. Qed.

Lemma length_take_Z {A} (l : list A) n :
  0 <= n <= Z.of_nat (length l) -> Z.of_nat (length (take (Z.to_nat n) l)) = n.
Proof. intros ?. rewrite length_take. lia. Qed.

(** Appending to region A and to region B. *)
Lemma append_a b data m :
  core b -> b_end b = 0 -> store_bytes (buff b) (Z.to_nat (a_end b)) data = Some m ->
  contents (put_regions b (a_start b) (a_end b + Z.of_nat (length data)) (b_end b) m) = contents b ++ data.
Proof.
  intros (Hl & Hb & Ha & _) H0 Hm. unfold contents. cbn. rewrite H0, !take_0, !app_nil_r.
  destruct (slice_store _ _ _ _ (Z.to_nat (a_start b)) Hm) as [_ E]; [lia|].
  replace (Z.to_nat (a_end b - a_start b)) with (Z.to_nat (a_end b) - Z.to_nat (a_start b))%nat by lia.
  rewrite <- E. f_equal. lia.
Qed.

Lemma append_b b data m :
  core b -> b_end b + Z.of_nat (length data) <= a_start b ->
  store_bytes (buff b) (Z.to_nat (b_end b)) data = Some m ->
  contents (put_regions b (a_start b) (a_end b) (b_end b + Z.of_nat (length data)) m) = contents b ++ data.
Proof.
  intros (Hl & Hb & Ha & _) Hd Hm. unfold contents. cbn.
  rewrite (slice_store_behind _ _ _ _ (Z.to_nat (a_start b)) Hm) by lia. rewrite <- app_assoc. f_equal.
  destruct (slice_store _ _ _ _ 0 Hm) as [_ E]; [lia|]. rewrite Nat.sub_0_r, !drop_0 in E.
  replace (Z.to_nat (b_end b) - 0)%nat with (Z.to_nat (b_end b)) in E by lia. rewrite <- E. f_equal. lia.
Qed.

(** ** What the critical sections do *)

(** The flags of the other side, and the events, after a critical section. *)
Definition woken_reader (b b' : bip) : Prop :=
  closed b' = closed b /\ can_read b' = true /\ evt_read b' = (if can_read b then evt_read b else true) /\
  evt_write b' = can_write b' && evt_write b.
Definition woken_writer (b b' : bip) : Prop :=
  closed b' = closed b /\ can_write b' = true /\ evt_write b' = (if can_write b then evt_write b else true) /\
  evt_read b' = can_read b' && evt_read b.

(** What can_write must be. *)
Definition room (b : bip) : bool := negb ((a_end b =? BIP_BUFFER_SIZE) && (b_end b =? a_start b)).

Lemma room_true b : room b = true <-> a_end b <> BIP_BUFFER_SIZE \/ b_end b <> a_start b.
Proof. unfold room. rewrite negb_true_iff, andb_false_iff, !Z.eqb_neq. done. Qed.
Lemma room_false b : room b = false <-> a_end b = BIP_BUFFER_SIZE /\ b_end b = a_start b.
Proof. unfold room. rewrite negb_false_iff, andb_true_iff, !Z.eqb_eq. done. Qed.

Lemma write_exit_spec b count :
  core b -> a_start b < a_end b -> can_write b = room b -> 0 < count ->
  exists b', write_exit b count = Done (count, b') /\ wf b' /\ contents b' = contents b /\
    closed b' = closed b /\ can_read b' = true /\ evt_read b' = (if can_read b then evt_read b else true) /\
    can_write b' = can_write b /\ evt_write b' = evt_write b.
Proof.
  intros Hc Hne Hw Hn. unfold write_exit, assert. rewrite (proj2 (Z.ltb_lt 0 count) Hn). cbn [mbind outcome_bind].
  eexists. split; [done|]. apply Z.ltb_lt in Hne.
  destruct (can_read b) eqn:Er; split_and!; unfold wf; cbn; rewrite ?Hne; done.
Qed.

Lemma write_b_spec b src count :
  core b -> can_write b = true -> a_start b < a_end b -> 0 <= count ->
  (src <> [] -> a_end b = BIP_BUFFER_SIZE /\ b_end b < a_start b) ->
  (src = [] -> 0 < count /\ room b = true) ->
  exists n b', write_b b src count = Done (count + n, b') /\ wf b' /\ 0 < count + n /\
    n = Z.min (Z.of_nat (length src)) (a_start b - b_end b) /\
    contents b' = contents b ++ take (Z.to_nat n) src /\ woken_reader b b'.
Proof.
  intros Hc Hcw Hne Hcount Hfull Hdone. pose proof Hc as (Hl & Hb & Ha & Hreg & Hemp). unfold write_b, woken_reader.
  destruct src as [|x src'].
  - destruct (Hdone eq_refl) as [Hpos Hroom]. cbn [length Z.of_nat Z.eqb].
    destruct (write_exit_spec b count) as (b' & -> & Hwf & Hk & ? & ? & ? & E1 & E2); [done|done|by rewrite Hcw, Hroom|done|].
    exists 0, b'. rewrite Z.add_0_r, app_nil_r, E1, E2, Hcw. cbn. split_and!; try done; lia.
  - destruct (Hfull ltac:(done)) as [Hend Hroom]. clear Hfull Hdone. set (src := x :: src') in *.
    assert (0 < Z.of_nat (length src)) as Hlen by (cbn; lia). clearbody src.
    rewrite (proj2 (Z.eqb_neq (Z.of_nat (length src)) 0)) by lia. unfold assert at 1.
    rewrite (proj2 (Z.ltb_lt 0 (a_start b - b_end b))) by lia. cbn [mbind outcome_bind].
    set (n := if Z.of_nat (length src) <? a_start b - b_end b then _ else _).
    assert (n = Z.min (Z.of_nat (length src)) (a_start b - b_end b)) as Hn by (unfold n; case_match; lia). clearbody n.
    pose proof (length_take_Z src n ltac:(lia)) as Hlt. unfold BIP_BUFFER_SIZE in *.
    destruct (store_bytes_fits (buff b) (Z.to_nat (b_end b)) (take (Z.to_nat n) src)) as [m Hm]; [lia|]. rewrite Hm.
    cbn [deref mbind outcome_bind]. pose proof (slice_store _ _ _ _ 0 Hm ltac:(lia)) as [Hml _].
    pose proof (append_b b (take (Z.to_nat n) src) m Hc ltac:(lia) Hm) as Happ. rewrite Hlt in Happ.
    set (b1 := put_regions b _ _ _ m) in *. set (b2 := if b_end b1 =? _ then put_write b1 false else b1).
    assert (core b1) as Hc1 by (unfold core, b1, BIP_BUFFER_SIZE; cbn; split_and!; lia).
    assert (core b2 /\ contents b2 = contents b1 /\ a_start b2 = a_start b /\ a_end b2 = a_end b /\
      can_write b2 = room b2 /\ closed b2 = closed b /\ can_read b2 = can_read b /\ evt_read b2 = evt_read b /\
      evt_write b2 = can_write b2 && evt_write b) as (Hc2 & Hk & Es & Ee & Hw & Ecl & Ecr & Eer & Eew).
    { unfold b2. destruct (Z.eqb_spec (b_end b1) (a_start b1)) as [E|E].
      - split_and!; try done. symmetry. apply room_false. split; [done|exact E].
      - split_and!; cbn; try done; rewrite Hcw; [symmetry; apply room_true; by right|done]. }
    destruct (write_exit_spec b2 (count + n)) as (b' & -> & Hwf & Hk' & ? & ? & E0 & E1 & E2); [done|lia|done|lia|].
    exists n, b'. rewrite Hk', Hk, Happ, E0, E1, E2, Ecr, Eer. split_and!; try done; try congruence; lia.
Qed.

(** The room left, as the number of bytes. *)
Definition free_space (b : bip) : Z := BIP_BUFFER_SIZE - Z.of_nat (length (contents b)).

Lemma write_locked_spec b src :
  wf b -> can_write b = true -> src <> [] ->
  exists n b', write_locked b src = Done (n, b') /\ wf b' /\ 0 < n /\
    n = Z.min (Z.of_nat (length src)) (free_space b) /\
    contents b' = contents b ++ take (Z.to_nat n) src /\ woken_reader b b'.
Proof.
  intros (Hc & Hr & Hw) Hcw Hsrc. unfold free_space. rewrite (contents_length b Hc). rewrite Hcw in Hw. symmetry in Hw.
  change (room b = true) in Hw. pose proof Hc as (Hl & Hb & Ha & Hreg & Hemp). unfold write_locked.
  assert (0 < Z.of_nat (length src)) as Hlen by (destruct src; [done|cbn; lia]).
  destruct (Z.ltb_spec 0 (BIP_BUFFER_SIZE - a_end b)) as [Hav|Hav].
  2:{ apply room_true in Hw. destruct (write_b_spec b src 0) as (n & b' & E & H); [done|done|unfold BIP_BUFFER_SIZE in *; lia|lia| |done|].
      - intros _. lia.
      - rewrite E. exists n, b'. destruct H as (Hwf & Hn & -> & Hk & Hwk). split; [done|]. split; [done|]. split_and!; try done; lia. }
  unfold BIP_BUFFER_SIZE in *. assert (b_end b = 0) as Hb0 by lia.
  set (n1 := if _ <? _ then _ else _).
  assert (n1 = Z.min (Z.of_nat (length src)) (4096 - a_end b)) as Hn1 by (unfold n1; case_match; lia). clearbody n1.
  pose proof (length_take_Z src n1 ltac:(lia)) as Hlt.
  destruct (store_bytes_fits (buff b) (Z.to_nat (a_end b)) (take (Z.to_nat n1) src)) as [m Hm]; [lia|]. rewrite Hm.
  cbn [deref mbind outcome_bind]. pose proof (slice_store _ _ _ _ 0 Hm ltac:(lia)) as [Hml _].
  pose proof (append_a b (take (Z.to_nat n1) src) m Hc Hb0 Hm) as Happ. rewrite Hlt in Happ.
  set (b1 := put_regions b _ _ _ m) in *.
  assert (core b1) as Hc1 by (unfold core, b1, BIP_BUFFER_SIZE; cbn; split_and!; lia).
  destruct ((a_end b1 =? 4096) && (a_start b1 =? 0)) eqn:Efull.
  - apply andb_true_iff in Efull as [E1%Z.eqb_eq E2%Z.eqb_eq].
    destruct (write_exit_spec (put_write b1 false) n1) as (b' & E & Hwf & Hk & Hcl & Hcr & Her & Hcw' & Hew); cbn in *.
    + done.
    + lia.
    + symmetry. apply room_false. unfold BIP_BUFFER_SIZE. cbn. lia.
    + lia.
    + rewrite E. exists n1, b'. unfold woken_reader. rewrite Hk, Her, Hcw', Hew.
      change (contents (put_write b1 false)) with (contents b1). rewrite Happ. split_and!; try done; lia.
  - apply andb_false_iff in Efull. rewrite !Z.eqb_neq in Efull.
    destruct (write_b_spec b1 (drop (Z.to_nat n1) src) n1) as (n & b' & E & Hwf & Hpos & Hn & Hk & Hwk).
    + done.
    + done.
    + cbn. lia.
    + lia.
    + intros Hne. assert (length (drop (Z.to_nat n1) src) <> 0%nat) as Hl' by (by destruct (drop _ _)).
      rewrite length_drop in Hl'. unfold BIP_BUFFER_SIZE. cbn in *. lia.
    + intros _. split; [lia|]. apply room_true. unfold BIP_BUFFER_SIZE. cbn in *. lia.
    + rewrite E. exists (n1 + n), b'. rewrite length_drop in Hn. cbn in Hn. rewrite Hk, Happ, <- app_assoc.
      replace (Z.to_nat (n1 + n)) with (Z.to_nat n1 + Z.to_nat n)%nat by lia. rewrite take_take_drop. split_and!; try done. lia.
Qed.

Lemma read_exit_spec b d :
  core b -> can_read b = (a_start b <? a_end b) -> room b = true -> d <> [] ->
  exists b', read_exit b d = Done (d, b') /\ wf b' /\ contents b' = contents b /\
    closed b' = closed b /\ can_write b' = true /\ evt_write b' = (if can_write b then evt_write b else true) /\
    can_read b' = can_read b /\ evt_read b' = evt_read b.
Proof.
  intros Hc Hr Hw Hd. unfold read_exit, assert.
  assert ((0 <? Z.of_nat (length d)) = true) as -> by (apply Z.ltb_lt; destruct d; [done|cbn; lia]).
  cbn [mbind outcome_bind]. eexists. split; [done|].
  destruct (can_write b) eqn:Ew; split_and!; unfold wf; cbn; rewrite ?Ew; done.
Qed.

(** The two regions. *)
Lemma contents_regions b :
  core b -> exists A B, contents b = A ++ B /\ A = take (Z.to_nat (a_end b - a_start b)) (drop (Z.to_nat (a_start b)) (buff b)) /\
    B = take (Z.to_nat (b_end b)) (buff b) /\ Z.of_nat (length A) = a_end b - a_start b /\ Z.of_nat (length B) = b_end b.
Proof.
  intros (Hl & Hb & Ha & _). unfold BIP_BUFFER_SIZE in *. eexists _, _. split; [done|]. split; [done|]. split; [done|].
  rewrite !length_take, length_drop. lia.
Qed.

Lemma read_locked_spec b len :
  wf b -> can_read b = true -> 0 < len ->
  exists d b', read_locked b len = Done (d, b') /\ wf b' /\ d <> [] /\
    d = take (Z.to_nat len) (contents b) /\ contents b' = drop (Z.to_nat len) (contents b) /\ woken_writer b b'.
Proof.
  intros (Hc & Hr & _) Hcr Hlen. destruct (contents_regions b Hc) as (A & B & Hk & HA & HB & HlA & HlB).
  pose proof Hc as (Hl & Hb & Ha & Hreg & Hemp). unfold BIP_BUFFER_SIZE in *.
  rewrite Hcr in Hr. symmetry in Hr. pose proof Hr as Hne%Z.ltb_lt.
  unfold read_locked, assert at 1. rewrite (proj2 (Z.ltb_lt 0 (a_end b - a_start b))) by lia. cbn [mbind outcome_bind].
  destruct (Z.ltb_spec len (a_end b - a_start b)) as [Hlt|Hge].
  - rewrite (load_bytes_fits (buff b) (a_start b)) by lia. cbn [deref mbind outcome_bind put_regions a_start a_end].
    rewrite (proj2 (Z.ltb_lt (a_start b + len) (a_end b))) by lia. set (b1 := put_regions b _ _ _ _).
    set (d := take (Z.to_nat len) (drop (Z.to_nat (a_start b)) (buff b))).
    assert (d = take (Z.to_nat len) A) as Hd by (rewrite HA, take_take; unfold d; f_equal; lia).
    assert (d <> []) as Hdne by (intros E; rewrite Hd in E; apply (f_equal length) in E; rewrite length_take in E; cbn in E; lia).
    destruct (read_exit_spec b1 d) as (b' & -> & Hwf & Hk' & ? & ? & ? & Ecr & Eer).
    + unfold core, b1, BIP_BUFFER_SIZE. cbn. split_and!; lia.
    + cbn. rewrite Hcr. symmetry. apply Z.ltb_lt. lia.
    + apply room_true. cbn. right. lia.
    + done.
    + exists d, b'. unfold woken_writer. rewrite Ecr, Eer, Hk', Hk, Hd. cbn. rewrite Hcr.
      rewrite take_app_le, drop_app_le by lia. split_and!; try done; [by rewrite <- Hd|].
      unfold contents. cbn. rewrite <- HB. f_equal. rewrite HA, skipn_firstn_comm, drop_drop. f_equal; [lia|f_equal; lia].
  - rewrite (load_bytes_fits (buff b) (a_start b)) by lia. cbn [deref mbind outcome_bind put_regions a_start a_end b_end buff].
    rewrite <- HA. rewrite (proj2 (Z.ltb_ge (a_start b + (a_end b - a_start b)) (a_end b))) by lia.
    assert (A <> []) as HAne by (intros ->; cbn in HlA; lia).
    assert (take (Z.to_nat len) (A ++ B) = A ++ take (Z.to_nat (len - (a_end b - a_start b))) B) as Htake.
    { rewrite take_app, take_ge by lia. do 2 f_equal. lia. }
    assert (drop (Z.to_nat len) (A ++ B) = drop (Z.to_nat (len - (a_end b - a_start b))) B) as Hdrop.
    { rewrite drop_app, drop_ge by lia. cbn. f_equal. lia. }
    rewrite Hk, Htake, Hdrop. set (rest := len - (a_end b - a_start b)) in *. assert (0 <= rest) as Hrest by lia. clearbody rest.
    destruct (Z.ltb_spec 0 (b_end b)) as [HBpos|HBz].
    2:{ assert (B = []) as -> by (destruct B; [done|cbn in HlB; lia]). rewrite take_nil, drop_nil, app_nil_r.
        set (b1 := put_read _ _).
        destruct (read_exit_spec b1 A) as (b' & -> & Hwf & Hk' & ? & ? & ? & Ecr & Eer); [| | |done|].
        - unfold core, b1, BIP_BUFFER_SIZE. cbn. split_and!; lia.
        - cbn. symmetry. apply Z.ltb_ge. lia.
        - apply room_true. left. cbn. unfold BIP_BUFFER_SIZE. lia.
        - exists A, b'. unfold woken_writer. rewrite Ecr, Eer, Hk'. split_and!; try done. unfold contents. cbn.
          by replace (b_end b) with 0 by lia. }
    set (n2 := if rest <? b_end b then rest else b_end b).
    assert (n2 = Z.min rest (b_end b)) as Hn2 by (unfold n2; case_match; lia). clearbody n2.
    rewrite (load_bytes_fits (buff b) 0) by lia. cbn [deref mbind outcome_bind put_regions a_start a_end b_end buff].
    rewrite drop_0, Z.add_0_l. set (d := A ++ take (Z.to_nat n2) (buff b)).
    assert (d = A ++ take (Z.to_nat rest) B) as Hd by (unfold d; rewrite HB, take_take; do 2 f_equal; lia). rewrite <- Hd.
    assert (d <> []) as Hdne by (unfold d; by destruct A). clearbody d.
    destruct (Z.ltb_spec n2 (b_end b)) as [Hpart|Hall].
    + set (b1 := put_regions _ n2 _ _ _).
      destruct (read_exit_spec b1 d) as (b' & -> & Hwf & Hk' & ? & ? & ? & Ecr & Eer); [| | |done|].
      * unfold core, b1, BIP_BUFFER_SIZE. cbn. split_and!; lia.
      * cbn. rewrite Hcr. symmetry. apply Z.ltb_lt. lia.
      * apply room_true. left. cbn. unfold BIP_BUFFER_SIZE. lia.
      * exists d, b'. unfold woken_writer. rewrite Ecr, Eer, Hk'. cbn. rewrite Hcr. split_and!; try done.
        unfold contents. cbn. rewrite app_nil_r, HB, skipn_firstn_comm. f_equal; [lia|f_equal; lia].
    + set (b1 := put_read _ _).
      destruct (read_exit_spec b1 d) as (b' & -> & Hwf & Hk' & ? & ? & ? & Ecr & Eer); [| | |done|].
      * unfold core, b1, BIP_BUFFER_SIZE. cbn. split_and!; lia.
      * done.
      * apply room_true. left. cbn. unfold BIP_BUFFER_SIZE. lia.
      * exists d, b'. unfold woken_writer. rewrite Ecr, Eer, Hk'. split_and!; try done.
        unfold contents. cbn. by rewrite (drop_ge B) by lia.
Qed.

(** ** Every interleaving *)

Definition calling {R} (p : pc R) : Prop := match p with Ret _ => False | _ => True end.

(** The invariant: the queue is what was sent and not received; events agree with
    the flags, except that a closed pipe may have its events set; a waiting thread
    of a closed pipe has been woken or a closer is on its way. *)
Record sys_inv (s : sys) : Prop := {
  i_wf : wf (pipe s);
  i_queue : sent s = received s ++ contents (pipe s);
  i_src : calling (w_pc s) -> w_src s <> [];
  i_len : calling (r_pc s) -> 0 < r_len s;
  i_closers : closed (pipe s) = false -> closers_read s = O /\ closers_write s = O;
  i_read_set : can_read (pipe s) = true -> evt_read (pipe s) = true;
  i_read_why : evt_read (pipe s) = true -> can_read (pipe s) = true \/ closed (pipe s) = true;
  i_write_set : can_write (pipe s) = true -> evt_write (pipe s) = true;
  i_write_why : evt_write (pipe s) = true -> can_write (pipe s) = true \/ closed (pipe s) = true;
  i_read_wait : r_pc s = Wait -> closed (pipe s) = true -> evt_read (pipe s) = true \/ (0 < closers_read s)%nat;
  i_write_wait : w_pc s = Wait -> closed (pipe s) = true ->
    evt_write (pipe s) = true \/ (0 < closers_read s)%nat \/ (0 < closers_write s)%nat
}.

Lemma inv_write b src q l p c1 c2 s t q' b' :
  sys_inv (mk_sys b src q l p c1 c2 s t) -> bip_buffer_write b src q = Some (Done (q', b')) ->
  sys_inv (mk_sys b' src q' l p c1 c2 (s ++ sent_by src q') t).
Proof.
  intros [Hwf Hq Hsrc Hlen Hcl Hrs Hrw Hws Hww Hrwait Hwwait] E. cbn in *.
  assert (forall q', sent_by src q' = [] -> calling q -> (q' = Wait -> closed b = false) ->
    sys_inv (mk_sys b src q' l p c1 c2 (s ++ sent_by src q') t)) as Hsame.
  { intros q0 -> Hc Hw. split; cbn; rewrite ?app_nil_r; auto. intros Hq0 Hc0. by rewrite (Hw Hq0) in Hc0. }
  destruct q; cbn in E.
  - destruct (can_write b) eqn:Ew.
    + destruct (write_locked_spec b src Hwf Ew (Hsrc I)) as (n & b1 & E1 & Hwf1 & _ & _ & Hk & Hcl1 & Hr1 & Her1 & Hew1).
      rewrite E1 in E. injection E as <- <-. rewrite (Hws eq_refl), andb_true_r in Hew1.
      assert (evt_read b1 = true) as Her by (rewrite Her1; destruct (can_read b); auto).
      split; cbn; rewrite ?Hcl1, ?Hk, ?Her, ?Hew1, ?Hr1; auto; try done. by rewrite Hq, app_assoc.
    + injection E as <- <-. by apply Hsame.
  - injection E as <- <-. destruct (closed b) eqn:Ec; by apply Hsame.
  - destruct (evt_write b); [|done]. injection E as <- <-. by apply Hsame.
  - injection E as <- <-. destruct (closed b) eqn:Ec; by apply Hsame.
  - done.
Qed.

Lemma inv_read b src q l p c1 c2 s t p' b' :
  sys_inv (mk_sys b src q l p c1 c2 s t) -> bip_buffer_read b l p = Some (Done (p', b')) ->
  sys_inv (mk_sys b' src q l p' c1 c2 s (t ++ received_by p')).
Proof.
  intros [Hwf Hq Hsrc Hlen Hcl Hrs Hrw Hws Hww Hrwait Hwwait] E. cbn in *.
  assert (forall p', received_by p' = [] -> calling p -> (p' = Wait -> closed b = false) ->
    sys_inv (mk_sys b src q l p' c1 c2 s (t ++ received_by p'))) as Hsame.
  { intros p0 -> Hc Hw. split; cbn; rewrite ?app_nil_r; auto. intros Hp0 Hc0. by rewrite (Hw Hp0) in Hc0. }
  destruct p; cbn in E.
  - destruct (can_read b) eqn:Er.
    + destruct (read_locked_spec b l Hwf Er (Hlen I)) as (d & b1 & E1 & Hwf1 & _ & Hd & Hk & Hcl1 & Hw1 & Hew1 & Her1).
      rewrite E1 in E. injection E as <- <-. rewrite (Hrs eq_refl), andb_true_r in Her1.
      assert (evt_write b1 = true) as Hew by (rewrite Hew1; destruct (can_write b); auto).
      split; cbn; rewrite ?Hcl1, ?Hk, ?Hew, ?Her1, ?Hw1; auto; try done. by rewrite Hq, Hd, <- app_assoc, take_drop.
    + injection E as <- <-. by apply Hsame.
  - injection E as <- <-. destruct (closed b) eqn:Ec; by apply Hsame.
  - destruct (evt_read b); [|done]. injection E as <- <-. by apply Hsame.
  - injection E as <- <-. destruct (closed b) eqn:Ec; by apply Hsame.
  - done.
Qed.

Lemma inv_step s s' : sys_inv s -> step s s' -> sys_inv s'.
Proof.
  intros Hinv Hstep. destruct Hstep.
  - destruct Hinv. by split.
  - destruct Hinv. by split.
  - by eapply inv_write.
  - by eapply inv_read.
  - destruct Hinv. split; cbn in *; auto; try done; intros; right; try left; lia.
  - destruct Hinv as [Hwf Hq Hsrc Hlen Hcl Hrs Hrw Hws Hww Hrwait Hwwait]. cbn in *.
    destruct (closed b) eqn:Ec; [|by destruct (Hcl eq_refl)]. destruct (can_read b) eqn:Er; split; cbn; auto; rewrite ?Ec, ?Er; auto.
    all: intros; first [left; by auto|right; right; lia|done].
  - destruct Hinv as [Hwf Hq Hsrc Hlen Hcl Hrs Hrw Hws Hww Hrwait Hwwait]. cbn in *.
    destruct (closed b) eqn:Ec; [|by destruct (Hcl eq_refl)]. destruct (can_write b) eqn:Er; split; cbn; auto; rewrite ?Ec, ?Er; auto.
    all: intros; first [done|left; by auto|right; left; lia].
Qed.

Lemma init_wf garbage : length garbage = Z.to_nat BIP_BUFFER_SIZE -> wf (bip_buffer_init garbage).
Proof. intros Hg. unfold wf, core, BIP_BUFFER_SIZE in *. cbn. split_and!; done || lia. Qed.

Lemma pipe_reachable_inv s : reachable s -> sys_inv s.
Proof.
  induction 1 as [g r r' Hg|s s' _ IH Hs]; [|by eapply inv_step].
  split; cbn; done || (by left) || by apply init_wf.
Qed.

(** C17 (refinement). A pipe is a queue of at most 4096 bytes, whatever the
    interleaving of one writer, one reader and any number of closers: what has been
    sent is what has been received followed by what is in the buffer, no assertion
    fires and no copy leaves the buffer, a write that gets in takes as many bytes as
    there is room for, at least one, and a read that gets in takes the oldest
    bytes, at least one. *)
Theorem pipe_is_queue (s : sys) :
  reachable s ->
  sent s = received s ++ contents (pipe s) /\
  Z.of_nat (length (contents (pipe s))) <= BIP_BUFFER_SIZE /\
  (w_pc s = Enter -> can_write (pipe s) = true ->
     exists n b, bip_buffer_write (pipe s) (w_src s) Enter = Some (Done (Ret (Some n), b)) /\
       0 < n /\ n = Z.min (Z.of_nat (length (w_src s))) (free_space (pipe s)) /\
       contents b = contents (pipe s) ++ take (Z.to_nat n) (w_src s)) /\
  (r_pc s = Enter -> can_read (pipe s) = true ->
     exists d b, bip_buffer_read (pipe s) (r_len s) Enter = Some (Done (Ret (Some d), b)) /\
       d <> [] /\ d = take (Z.to_nat (r_len s)) (contents (pipe s)) /\
       contents b = drop (Z.to_nat (r_len s)) (contents (pipe s))).
Proof.
  intros Hs. destruct (pipe_reachable_inv s Hs) as [Hwf Hq Hsrc Hlen _ _ _ _ _ _ _]. split; [done|]. split; [|split].
  - pose proof (contents_length _ (proj1 Hwf)). destruct Hwf as [(_ & ? & ? & Hreg & _) _]. lia.
  - intros E Hw. rewrite E in Hsrc. cbn. rewrite Hw.
    destruct (write_locked_spec _ _ Hwf Hw (Hsrc I)) as (n & b & -> & _ & Hn & Hmin & Hk & _). exists n, b. by split_and!.
  - intros E Hr. rewrite E in Hlen. cbn. rewrite Hr.
    destruct (read_locked_spec _ _ Hwf Hr (Hlen I)) as (d & b & -> & _ & Hn & Hd & Hk & _). exists d, b. by split_and!.
Qed.

(** A pipe of which the reader has been left waiting, the writer stands before the
    lock with three bytes and which has then been closed. *)
Definition fresh_pipe : bip := bip_buffer_init (replicate 4096 0).
Definition waiting_pipe : sys :=
  mk_sys (bip_buffer_close fresh_pipe) [1; 2; 3] Enter 10 Wait 0 0 [] [].

Lemma waiting_reachable : reachable waiting_pipe.
Proof.
  eapply reach_step; [|apply step_close_write]. eapply reach_step; [|apply step_close_read].
  eapply reach_step; [|apply step_close_mark]. eapply reach_step; [|by eapply (step_call_write _ _ None)].
  apply (reach_step (mk_sys fresh_pipe [] (Ret None) 10 Check 0 0 [] [])); [|by apply (step_read _ _ _ _ _ _ _ _ [] Wait)].
  apply (reach_step (mk_sys fresh_pipe [] (Ret None) 10 Enter 0 0 [] [])); [|by apply (step_read _ _ _ _ _ _ _ _ [] Check)].
  apply (reach_step (mk_sys fresh_pipe [] (Ret None) 1 (Ret None) 0 0 [] [])); [|by apply step_call_read].
  by apply reach_init.
Qed.

Lemma pipe_is_queue_witness :
  reachable waiting_pipe /\
  exists n b, bip_buffer_write (pipe waiting_pipe) [1; 2; 3] Enter = Some (Done (Ret (Some n), b)) /\
    0 < n /\ n = Z.min 3 (free_space (pipe waiting_pipe)) /\
    contents b = contents (pipe waiting_pipe) ++ take (Z.to_nat n) [1; 2; 3].
Proof.
  split; [apply waiting_reachable|].
  destruct (pipe_is_queue waiting_pipe waiting_reachable) as (_ & _ & Hw & _). by apply Hw.
Defined.

(** Steps a thread of a closed pipe has at most before it. *)
Definition rank {R} (p : pc R) : nat :=
  match p with Enter => 2 | Check => 1 | Wait => 2 | Woken => 1 | Ret _ => 0 end.

(** C18 (liveness). No wake-up is lost.  While no closer is under way, a waiting
    thread's event is set exactly when it has something to do: room or bytes, or a
    closed pipe.  The writer and the reader of an open pipe are never both without
    something to do.  Once the pipe has been closed, every call returns after at
    most two more steps of its own, and each of these steps can be taken. *)
Theorem no_lost_wakeup (s : sys) :
  reachable s -> closers_read s = O -> closers_write s = O ->
  (r_pc s = Wait -> evt_read (pipe s) = can_read (pipe s) || closed (pipe s)) /\
  (w_pc s = Wait -> evt_write (pipe s) = can_write (pipe s) || closed (pipe s)) /\
  (can_read (pipe s) = true \/ can_write (pipe s) = true) /\
  (closed (pipe s) = true -> calling (w_pc s) ->
     exists q b, bip_buffer_write (pipe s) (w_src s) (w_pc s) = Some (Done (q, b)) /\ (rank q < rank (w_pc s))%nat) /\
  (closed (pipe s) = true -> calling (r_pc s) ->
     exists q b, bip_buffer_read (pipe s) (r_len s) (r_pc s) = Some (Done (q, b)) /\ (rank q < rank (r_pc s))%nat).
Proof.
  intros Hs H1 H2. destruct (pipe_reachable_inv s Hs) as [Hwf _ Hsrc Hlen _ Hrs Hrw Hws Hww Hrwait Hwwait].
  rewrite H1, H2 in *. split_and!.
  - intros Hr. specialize (Hrwait Hr). destruct (evt_read _), (can_read _), (closed _); naive_solver lia.
  - intros Hw. specialize (Hwwait Hw). destruct (evt_write _), (can_write _), (closed _); naive_solver lia.
  - destruct Hwf as [Hc [Er Ew]]. rewrite Er, Ew. destruct Hc as (_ & ? & ? & _ & Hemp).
    destruct (Z.ltb_spec (a_start (pipe s)) (a_end (pipe s))); [by left|right]. apply room_true. left.
    unfold BIP_BUFFER_SIZE. lia.
  - intros Hc Hw. destruct (w_pc s) eqn:E; cbn; rewrite ?Hc; try done; try (eexists _, _; split; [done|cbn; lia]).
    + destruct (can_write (pipe s)) eqn:Ew; [|eexists _, _; split; [done|cbn; lia]].
      destruct (write_locked_spec _ _ Hwf Ew (Hsrc I)) as (n & b & -> & _). eexists _, _. split; [done|cbn; lia].
    + destruct (Hwwait eq_refl Hc) as [->|]; [|lia]. eexists _, _. split; [done|cbn; lia].
  - intros Hc Hr. destruct (r_pc s) eqn:E; cbn; rewrite ?Hc; try done; try (eexists _, _; split; [done|cbn; lia]).
    + destruct (can_read (pipe s)) eqn:Er; [|eexists _, _; split; [done|cbn; lia]].
      destruct (read_locked_spec _ _ Hwf Er (Hlen I)) as (d & b & -> & _). eexists _, _. split; [done|cbn; lia].
    + destruct (Hrwait eq_refl Hc) as [->|]; [|lia]. eexists _, _. split; [done|cbn; lia].
Qed.

Lemma no_lost_wakeup_witness :
  exists q b, bip_buffer_read (pipe waiting_pipe) 10 Wait = Some (Done (q, b)) /\ (rank q < 2)%nat.
Proof.
  destruct (no_lost_wakeup waiting_pipe waiting_reachable) as (_ & _ & _ & _ & Hr); [done..|]. by apply Hr.
Defined.

(** A closed pipe still takes bytes while it has room: the writer is told that they
    were sent.  At the end of the data a reader gets an error, not a count of 0. *)
Lemma write_after_close :
  exists b, bip_buffer_write (bip_buffer_close fresh_pipe) [1; 2; 3] Enter = Some (Done (Ret (Some 3), b)).
Proof. eexists. vm_compute. reflexivity. Qed.

Lemma end_of_stream_is_error :
  bip_buffer_read (bip_buffer_close fresh_pipe) 10 Enter = Some (Done (Check, bip_buffer_close fresh_pipe)) /\
  bip_buffer_read (bip_buffer_close fresh_pipe) 10 Check = Some (Done (Ret None, bip_buffer_close fresh_pipe)).
Proof. done. Qed.
