(* ===== verification/Win32.v ===== *)
(** * Descriptors of the Windows build (tools/adb/sysdeps_win32.c)

    The table of descriptors with its three classes (files, sockets, emulated socket
    pairs), the adb_ calls that dispatch on the class, and the functions that open
    descriptors, over [Win32], the calls of the system.  A socket pair is two pipes
    of Bip; calls run one after the other here, so a call that would wait for
    another thread has no result.  The theorems show that descriptors are handed
    out and taken back exactly, that failures of opening leave the table as it
    was, and that a pair carries bytes both ways. *)

From S2P Require Import Prelude Bip.

Definition EINTR : Z := 4.
Definition ENOENT : Z := 2.
Definition EIO : Z := 5.
Definition EBADF : Z := 9.
Definition EAGAIN : Z := 11.
Definition ENOMEM : Z := 12.
Definition ENOTDIR : Z := 20.
Definition EINVAL : Z := 22.
Definition ESPIPE : Z := 29.
Definition EPIPE : Z := 32.

(** INVALID_HANDLE_VALUE, INVALID_SOCKET, SOCKET_ERROR *)
Definition INVALID : Z := -1.

(** An address: family, host, port. *)
Definition address : Type := Z * bytes * Z.

(** The system.  [None] is failure (FALSE or SOCKET_ERROR). *)
Class Win32 (W : Type) := {
  GetLastError : W -> Z;
  CreateFile : W -> bytes -> Z -> Z -> Z * W;
  ReadFile : W -> Z -> Z -> option bytes * W;
  WriteFile : W -> Z -> bytes -> option Z * W;
  SetFilePointer : W -> Z -> Z -> Z -> option Z * W;
  GetFileSize : W -> Z -> Z;
  CloseHandle : W -> Z -> W;
  WSAStartup : W -> Z * W;
  WSAGetLastError : W -> Z;
  WSACreateEvent : W -> Z * W;
  socket : W -> Z -> Z -> Z * W;
  connect : W -> Z -> address -> Z * W;
  bind : W -> Z -> address -> Z * W;
  listen : W -> Z -> Z -> Z * W;
  accept : W -> Z -> Z * W;
  exclusive : W -> Z -> W;                       (* setsockopt SO_EXCLUSIVEADDRUSE *)
  nodelay : W -> Z -> Z -> W;                    (* setsockopt TCP_NODELAY, with the value *)
  recv : W -> Z -> Z -> option bytes * W;
  send : W -> Z -> bytes -> option Z * W;
  shutdown : W -> Z -> W;
  closesocket : W -> Z -> W;
  gethostbyname : W -> bytes -> option (Z * bytes);
  SOCK_STREAM : Z;
  AF_INET : Z;
  malloc_ok : W -> bool
}.

Inductive fh_class := FileClass | SocketClass | PairClass.
#[export] Instance fh_class_eq_dec : EqDecision fh_class.
Proof. solve_decision. Defined.

(** [u]: the handle, the socket or the address of the pair. *)
Record FH := mk_FH { clazz : option fh_class; used : bool; eof : bool; u : Z; event : Z; mask : Z }.
Definition no_FH : FH := mk_FH None false false 0 0 0.

Record SocketPair := mk_pair { a2b_bip : bip; b2a_bip : bip; a_fd : option nat; users : Z }.

Definition WIN32_FH_BASE : Z := 100.
Definition WIN32_MAX_FHS : nat := 128.

Section win32.
Context {W : Type} `{Win32 W}.

Record win := mk_win {
  fhs : list FH; fh_count : nat;
  pairs : gmap Z SocketPair; next_pair : Z;
  winsock : bool; errno : Z; world : W
}.

Definition win_init (w : W) : win := mk_win (replicate WIN32_MAX_FHS no_FH) 0 ∅ 1 false 0 w.

Definition put_fhs (s : win) (l : list FH) : win :=
  mk_win l (fh_count s) (pairs s) (next_pair s) (winsock s) (errno s) (world s).
Definition put_fh (s : win) (i : nat) (f : FH) : win := put_fhs s (<[i := f]> (fhs s)).
Definition put_count (s : win) (n : nat) : win :=
  mk_win (fhs s) n (pairs s) (next_pair s) (winsock s) (errno s) (world s).
Definition put_pairs (s : win) (m : gmap Z SocketPair) : win :=
  mk_win (fhs s) (fh_count s) m (next_pair s) (winsock s) (errno s) (world s).
Definition put_next (s : win) (p : Z) : win :=
  mk_win (fhs s) (fh_count s) (pairs s) p (winsock s) (errno s) (world s).
Definition put_winsock (s : win) : win :=
  mk_win (fhs s) (fh_count s) (pairs s) (next_pair s) true (errno s) (world s).
Definition put_errno (s : win) (e : Z) : win :=
  mk_win (fhs s) (fh_count s) (pairs s) (next_pair s) (winsock s) e (world s).
Definition put_world (s : win) (w : W) : win :=
  mk_win (fhs s) (fh_count s) (pairs s) (next_pair s) (winsock s) (errno s) w.

Definition get_fh (s : win) (i : nat) : FH := default no_FH (fhs s !! i).
Definition with_u (f : FH) (v : Z) : FH := mk_FH (clazz f) (used f) (eof f) v (event f) (mask f).
Definition with_eof (f : FH) (b : bool) : FH := mk_FH (clazz f) (used f) b (u f) (event f) (mask f).

(** ** The table *)

Definition _fh_from_int (s : win) (fd : Z) : option nat * win :=
  let fd := fd - WIN32_FH_BASE in
  if (fd <? 0) || (Z.of_nat (fh_count s) <=? fd) then (None, put_errno s EBADF)
  else if negb (used (get_fh s (Z.to_nat fd))) then (None, put_errno s EBADF)
  else (Some (Z.to_nat fd), s).

Definition _fh_to_int (s : win) (f : option nat) : Z :=
  match f with
  | Some i => if used (get_fh s i) && (i <? WIN32_MAX_FHS)%nat then Z.of_nat i + WIN32_FH_BASE else -1
  | None => -1
  end.

(** The init function of a class. *)
Definition _fh_init (s : win) (c : fh_class) (i : nat) : win :=
  let f := get_fh s i in
  match c with
  | FileClass => put_fh s i (with_u f INVALID)
  | SocketClass =>
      let '(e, w) := WSACreateEvent (world s) in
      put_fh (put_world s w) i (mk_FH (clazz f) (used f) (eof f) INVALID e 0)
  | PairClass => put_fh s i (with_u f 0)
  end.

Definition _fh_alloc (s : win) (c : fh_class) : option nat * win :=
  let '(f, s) :=
    if (fh_count s <? WIN32_MAX_FHS)%nat then (Some (fh_count s), put_count s (S (fh_count s)))
    else (fst <$> list_find (fun f => clazz f = None) (fhs s), s) in
  match f with
  | Some i =>
      let f := get_fh s i in
      (Some i, _fh_init (put_fh s i (mk_FH (Some c) true false (u f) (event f) (mask f))) c i)
  | None => (None, s)
  end.

(** ** The classes: close *)

Definition _fh_file_close (s : win) (i : nat) : win :=
  let f := get_fh s i in
  put_fh (put_world s (CloseHandle (world s) (u f))) i (with_u f INVALID).

Definition _fh_socket_close (s : win) (i : nat) : win :=
  let f := get_fh s i in
  let w := closesocket (shutdown (world s) (u f)) (u f) in
  put_fh (put_world s (CloseHandle w (event f))) i (mk_FH (clazz f) (used f) (eof f) INVALID (event f) 0).

Definition _fh_socketpair_close (s : win) (i : nat) : outcome win :=
  let f := get_fh s i in
  if u f =? 0 then Done s
  else
    p ← deref "pair" (pairs s !! u f);
    let a := if decide (a_fd p = Some i) then None else a_fd p in
    let p := mk_pair (bip_buffer_close (a2b_bip p)) (bip_buffer_close (b2a_bip p)) a (users p - 1) in
    let s := put_pairs s (if users p =? 0 then delete (u f) (pairs s) else <[u f := p]> (pairs s)) in
    Done (put_fh s i (with_u f 0)).

Definition _fh_close (s : win) (f : option nat) : outcome win :=
  i ← deref "f->used" f;
  if used (get_fh s i) then
    c ← deref "f->clazz" (clazz (get_fh s i));
    s ← (match c with
         | FileClass => Done (_fh_file_close s i)
         | SocketClass => Done (_fh_socket_close s i)
         | PairClass => _fh_socketpair_close s i
         end);
    let f := get_fh s i in
    Done (put_fh s i (mk_FH None false false (u f) (event f) (mask f)))
  else Done s.

(** ** Files *)

Definition _fh_file_read (s : win) (i : nat) (len : Z) : Z * bytes * win :=
  let f := get_fh s i in
  match ReadFile (world s) (u f) len with
  | (None, w) => (-1, [], put_errno (put_world s w) EIO)
  | (Some d, w) =>
      let s := put_world s w in
      let n := Z.of_nat (length d) in
      (i32 n, d, if n <? u32 len then put_fh s i (with_eof f true) else s)
  end.

Definition _fh_file_write (s : win) (i : nat) (d : bytes) : Z * win :=
  let f := get_fh s i in
  match WriteFile (world s) (u f) d with
  | (None, w) => (-1, put_errno (put_world s w) EIO)
  | (Some n, w) =>
      let s := put_world s w in
      (i32 n, if n <? Z.of_nat (length d) then put_fh s i (with_eof f true) else s)
  end.

(** SEEK_SET, SEEK_CUR, SEEK_END and their FILE_ constants are 0, 1, 2. *)
Definition _fh_file_lseek (s : win) (i : nat) (pos origin : Z) : Z * win :=
  let f := get_fh s i in
  if (origin <? 0) || (2 <? origin) then (-1, put_errno s EINVAL)
  else
    match SetFilePointer (world s) (u f) pos origin with
    | (None, w) => (-1, put_errno (put_world s w) EIO)
    | (Some r, w) => (i32 r, put_fh (put_world s w) i (with_eof f false))
    end.

Definition ERROR_PATH_NOT_FOUND : Z := 3.
Definition GENERIC_READ : Z := 2 ^ 31.
Definition GENERIC_WRITE : Z := 2 ^ 30.
Definition OPEN_EXISTING : Z := 3.
Definition CREATE_ALWAYS : Z := 2.

(** The end that adb_open and adb_creat share: CreateFile and its errors. *)
Definition open_handle (s : win) (i : nat) (path : bytes) (access disposition : Z) : outcome (Z * win) :=
  let '(h, w) := CreateFile (world s) path access disposition in
  let s := put_fh (put_world s w) i (with_u (get_fh s i) h) in
  if h =? INVALID then
    s ← _fh_close s (Some i);
    Done (-1, put_errno s (if GetLastError (world s) =? ERROR_PATH_NOT_FOUND then ENOTDIR else ENOENT))
  else Done (_fh_to_int s (Some i), s).

(** O_RDONLY, O_WRONLY and O_RDWR are 0, 1, 2. *)
Definition adb_open (s : win) (path : bytes) (options : Z) : outcome (Z * win) :=
  if (options <? 0) || (2 <? options) then Done (-1, put_errno s EINVAL)
  else
    let access := if options =? 0 then GENERIC_READ else if options =? 1 then GENERIC_WRITE
                  else Z.lor GENERIC_READ GENERIC_WRITE in
    match _fh_alloc s FileClass with
    | (None, s) => Done (-1, put_errno s ENOMEM)
    | (Some i, s) => open_handle s i path access OPEN_EXISTING
    end.

Definition adb_creat (s : win) (path : bytes) : outcome (Z * win) :=
  match _fh_alloc s FileClass with
  | (None, s) => Done (-1, put_errno s ENOMEM)
  | (Some i, s) => open_handle s i path GENERIC_WRITE CREATE_ALWAYS
  end.

(** ** Sockets *)

Definition WSAEINTR : Z := 10004.
Definition WSAEWOULDBLOCK : Z := 10035.

Definition _socket_set_errno (s : win) : win :=
  let e := WSAGetLastError (world s) in
  put_errno s (if e =? 0 then 0 else if e =? WSAEWOULDBLOCK then EAGAIN
               else if e =? WSAEINTR then EINTR else EINVAL).

Definition _fh_socket_read (s : win) (i : nat) (len : Z) : Z * bytes * win :=
  match recv (world s) (u (get_fh s i)) len with
  | (None, w) => (-1, [], _socket_set_errno (put_world s w))
  | (Some d, w) => (Z.of_nat (length d), d, put_world s w)
  end.

Definition _fh_socket_write (s : win) (i : nat) (d : bytes) : Z * win :=
  match send (world s) (u (get_fh s i)) d with
  | (None, w) => (-1, _socket_set_errno (put_world s w))
  | (Some n, w) => (n, put_world s w)
  end.

Definition _init_winsock (s : win) : outcome win :=
  if winsock s then Done s
  else
    let '(rc, w) := WSAStartup (world s) in
    if negb (rc =? 0) then Stop "adb: could not initialize Winsock"
    else Done (put_winsock (put_world s w)).

Definition set_socket (s : win) (i : nat) (v : Z) : win := put_fh s i (with_u (get_fh s i) v).

(** Close the descriptor and fail. *)
Definition close_fail (s : win) (i : nat) : outcome (Z * win) := s ← _fh_close s (Some i); Done (-1, s).

Definition INADDR_LOOPBACK : bytes := [127; 0; 0; 1].
Definition INADDR_ANY : bytes := [0; 0; 0; 0].
Definition LISTEN_BACKLOG : Z := 4.

Definition socket_loopback_client (s : win) (port type : Z) : outcome (Z * win) :=
  match _fh_alloc s SocketClass with
  | (None, s) => Done (-1, s)
  | (Some i, s) =>
      s ← _init_winsock s;
      let '(v, w) := socket (world s) AF_INET type in
      let s := put_world s w in
      if v =? INVALID then close_fail s i
      else
        let s := set_socket s i v in
        let '(r, w) := connect (world s) v (AF_INET, INADDR_LOOPBACK, u16 port) in
        let s := put_world s w in
        if r <? 0 then close_fail s i else Done (_fh_to_int s (Some i), s)
  end.

(** bind, and listen for a stream: the end of the two servers. *)
Definition serve (s : win) (i : nat) (v : Z) (host : bytes) (port type : Z) : outcome (Z * win) :=
  let s := put_world s (exclusive (world s) v) in
  let '(r, w) := bind (world s) v (AF_INET, host, u16 port) in
  let s := put_world s w in
  if r <? 0 then close_fail s i
  else if type =? SOCK_STREAM then
    let '(ret, w) := listen (world s) v LISTEN_BACKLOG in
    let s := put_world s w in
    if ret <? 0 then close_fail s i else Done (_fh_to_int s (Some i), s)
  else Done (_fh_to_int s (Some i), s).

Definition socket_loopback_server (s : win) (port type : Z) : outcome (Z * win) :=
  match _fh_alloc s SocketClass with
  | (None, s) => Done (-1, s)
  | (Some i, s) =>
      s ← _init_winsock s;
      let '(v, w) := socket (world s) AF_INET type in
      let s := put_world s w in
      if v =? INVALID then Done (-1, s)
      else serve (set_socket s i v) i v INADDR_LOOPBACK port type
  end.

Definition socket_network_client (s : win) (host : bytes) (port type : Z) : outcome (Z * win) :=
  match _fh_alloc s SocketClass with
  | (None, s) => Done (-1, s)
  | (Some i, s) =>
      s ← _init_winsock s;
      match gethostbyname (world s) host with
      | None => close_fail s i
      | Some (family, addr) =>
          let '(v, w) := socket (world s) family type in
          let s := put_world s w in
          if v =? INVALID then close_fail s i
          else
            let s := set_socket s i v in
            let '(r, w) := connect (world s) v (family, addr, u16 port) in
            let s := put_world s w in
            if r <? 0 then close_fail s i else Done (_fh_to_int s (Some i), s)
      end
  end.

Definition socket_inaddr_any_server (s : win) (port type : Z) : outcome (Z * win) :=
  match _fh_alloc s SocketClass with
  | (None, s) => Done (-1, s)
  | (Some i, s) =>
      s ← _init_winsock s;
      let '(v, w) := socket (world s) AF_INET type in
      let s := put_world s w in
      if v =? INVALID then close_fail s i
      else serve (set_socket s i v) i v INADDR_ANY port type
  end.

Definition adb_socket_accept (s : win) (serverfd : Z) : outcome (Z * win) :=
  match _fh_from_int s serverfd with
  | (None, s) => Done (-1, s)
  | (Some j, s) =>
      if negb (bool_decide (clazz (get_fh s j) = Some SocketClass)) then Done (-1, s)
      else
        match _fh_alloc s SocketClass with
        | (None, s) => Done (-1, s)
        | (Some i, s) =>
            let '(v, w) := accept (world s) (u (get_fh s j)) in
            let s := set_socket (put_world s w) i v in
            if v =? INVALID then close_fail s i else Done (_fh_to_int s (Some i), s)
        end
  end.

(** The value of the option is that of a local variable, [on], that nothing was stored in. *)
Definition disable_tcp_nagle (on : Z) (s : win) (fd : Z) : win :=
  match _fh_from_int s fd with
  | (None, s) => s
  | (Some i, s) =>
      if decide (clazz (get_fh s i) = Some SocketClass) then put_world s (nodelay (world s) (u (get_fh s i)) on) else s
  end.

(** load_file: the data it returns and what it stores in [*_sz], if anything.  The
    buffer has [file_size + 1] bytes, a sum of 32 bits. *)
Definition load_file (w : W) (fn : bytes) : outcome (option bytes * option Z * W) :=
  let '(file, w) := CreateFile w fn GENERIC_READ OPEN_EXISTING in
  if file =? INVALID then Done (None, None, w)
  else
    let file_size := u32 (GetFileSize w file) in
    if 0 <? file_size then
      if malloc_ok w then
        match ReadFile w file file_size with
        | (Some d, w) =>
            if u32 (file_size + 1) <? Z.of_nat (length d) then Undef "data"
            else if Z.of_nat (length d) =? file_size then Done (Some d, Some file_size, CloseHandle w file)
            else Done (None, Some 0, CloseHandle w file)
        | (None, w) => Done (None, Some 0, CloseHandle w file)
        end
      else Done (None, Some 0, CloseHandle w file)
    else Done (None, Some 0, CloseHandle w file).

(** ** Socket pairs *)

(** One call on a pipe with no other thread at work; [None]: it waits for ever. *)
Definition write_now (b : bip) (d : bytes) : option (outcome (option Z * bip)) :=
  if can_write b then Some ('(n, b) ← write_locked b d; Done (Some n, b))
  else if closed b then Some (Done (None, b)) else None.
Definition read_now (b : bip) (len : Z) : option (outcome (option bytes * bip)) :=
  if can_read b then Some ('(d, b) ← read_locked b len; Done (Some d, b))
  else if closed b then Some (Done (None, b)) else None.

(** The pipe an end reads, and the one it writes. *)
Definition is_a (p : SocketPair) (i : nat) : bool := bool_decide (a_fd p = Some i).
Definition read_end (p : SocketPair) (i : nat) : bip := if is_a p i then b2a_bip p else a2b_bip p.
Definition write_end (p : SocketPair) (i : nat) : bip := if is_a p i then a2b_bip p else b2a_bip p.
Definition put_read_end (p : SocketPair) (i : nat) (b : bip) : SocketPair :=
  if is_a p i then mk_pair (a2b_bip p) b (a_fd p) (users p) else mk_pair b (b2a_bip p) (a_fd p) (users p).
Definition put_write_end (p : SocketPair) (i : nat) (b : bip) : SocketPair :=
  if is_a p i then mk_pair b (b2a_bip p) (a_fd p) (users p) else mk_pair (a2b_bip p) b (a_fd p) (users p).

Definition _fh_socketpair_read (s : win) (i : nat) (len : Z) : option (outcome (Z * bytes * win)) :=
  let q := u (get_fh s i) in
  if q =? 0 then Some (Done (-1, [], s))
  else
    match pairs s !! q with
    | None => Some (Undef "pair")
    | Some p =>
        if len <=? 0 then Some (Done (0, [], s))
        else
          r ← read_now (read_end p i) len;
          Some ('(d, b) ← r;
                let s := put_pairs s (<[q := put_read_end p i b]> (pairs s)) in
                match d with
                | Some d => Done (Z.of_nat (length d), d, s)
                | None => Done (-1, [], put_errno s EPIPE)
                end)
    end.

Definition _fh_socketpair_write (s : win) (i : nat) (d : bytes) : option (outcome (Z * win)) :=
  let q := u (get_fh s i) in
  if q =? 0 then Some (Done (-1, s))
  else
    match pairs s !! q with
    | None => Some (Undef "pair")
    | Some p =>
        if Z.of_nat (length d) <=? 0 then Some (Done (0, s))
        else
          r ← write_now (write_end p i) d;
          Some ('(n, b) ← r;
                let s := put_pairs s (<[q := put_write_end p i b]> (pairs s)) in
                match n with
                | Some n => Done (n, s)
                | None => Done (-1, put_errno s EPIPE)
                end)
    end.

(** [garbage] is what the fresh pair's buffers hold. *)
Definition adb_socketpair (s : win) (garbage : bytes) : outcome (Z * (Z * Z) * win) :=
  let '(fa, s) := _fh_alloc s PairClass in
  let '(fb, s) := _fh_alloc s PairClass in
  match fa, fb with
  | Some a, Some b =>
      if malloc_ok (world s) then
        let q := next_pair s in
        let p := mk_pair (bip_buffer_init garbage) (bip_buffer_init garbage) (Some a) 2 in
        let s := put_next (put_pairs s (<[q := p]> (pairs s))) (q + 1) in
        let s := set_socket (set_socket s a q) b q in
        Done (0, (_fh_to_int s fa, _fh_to_int s fb), s)
      else
        s ← _fh_close s fb; s ← _fh_close s fa; Done (-1, (0, 0), s)
  | _, _ => s ← _fh_close s fb; s ← _fh_close s fa; Done (-1, (0, 0), s)
  end.

(** ** The calls on descriptors *)

Definition adb_read (s : win) (fd len : Z) : option (outcome (Z * bytes * win)) :=
  match _fh_from_int s fd with
  | (None, s) => Some (Done (-1, [], s))
  | (Some i, s) =>
      match clazz (get_fh s i) with
      | Some FileClass => Some (Done (_fh_file_read s i len))
      | Some SocketClass => Some (Done (_fh_socket_read s i len))
      | Some PairClass => _fh_socketpair_read s i len
      | None => Some (Undef "f->clazz")
      end
  end.

Definition adb_write (s : win) (fd : Z) (d : bytes) : option (outcome (Z * win)) :=
  match _fh_from_int s fd with
  | (None, s) => Some (Done (-1, s))
  | (Some i, s) =>
      match clazz (get_fh s i) with
      | Some FileClass => Some (Done (_fh_file_write s i d))
      | Some SocketClass => Some (Done (_fh_socket_write s i d))
      | Some PairClass => _fh_socketpair_write s i d
      | None => Some (Undef "f->clazz")
      end
  end.

Definition adb_lseek (s : win) (fd pos where_ : Z) : outcome (Z * win) :=
  match _fh_from_int s fd with
  | (None, s) => Done (-1, s)
  | (Some i, s) =>
      match clazz (get_fh s i) with
      | Some FileClass => Done (_fh_file_lseek s i pos where_)
      | Some SocketClass => Done (-1, put_errno s EPIPE)
      | Some PairClass => Done (-1, put_errno s ESPIPE)
      | None => Undef "f->clazz"
      end
  end.

(** The class is not looked at: the union is taken for a socket. *)
Definition adb_shutdown (s : win) (fd : Z) : Z * win :=
  match _fh_from_int s fd with
  | (None, s) => (-1, s)
  | (Some i, s) => (0, put_world s (shutdown (world s) (u (get_fh s i))))
  end.

Definition adb_close (s : win) (fd : Z) : outcome (Z * win) :=
  match _fh_from_int s fd with
  | (None, s) => Done (-1, s)
  | (Some i, s) => s ← _fh_close s (Some i); Done (0, s)
  end.

End win32.
Arguments win : clear implicits.

(** ** The table of descriptors *)

Section table.
Context {W : Type} `{Win32 W}.
Implicit Types s : win W.

Definition open (s : win W) (fd : Z) : bool := bool_decide (is_Some (_fh_from_int s fd).1).

(** A slot is used exactly when it has a class, and only below the count. *)
Definition table_ok (s : win W) : Prop :=
  length (fhs s) = WIN32_MAX_FHS /\ (fh_count s <= WIN32_MAX_FHS)%nat /\
  (forall i, used (get_fh s i) = true <-> clazz (get_fh s i) <> None) /\
  (forall i, used (get_fh s i) = true -> (i < fh_count s)%nat).

(** An end of the pair at [q]. *)
Definition holder (s : win W) (q : Z) (i : nat) : Prop :=
  clazz (get_fh s i) = Some PairClass /\ u (get_fh s i) = q.
#[local] Instance holder_dec s q i : Decision (holder s q i).
Proof. unfold holder. apply _. Defined.
Definition holders (s : win W) (q : Z) : Z := Z.of_nat (length (filter (holder s q) (seq 0 WIN32_MAX_FHS))).

(** A pair exists as long as a descriptor refers to it, and its count is the number
    of those. *)
Definition pairs_ok (s : win W) : Prop :=
  0 < next_pair s /\
  (forall i, clazz (get_fh s i) = Some PairClass -> u (get_fh s i) = 0 \/ is_Some (pairs s !! u (get_fh s i))) /\
  (forall q p, pairs s !! q = Some p ->
     0 < q < next_pair s /\ wf (a2b_bip p) /\ wf (b2a_bip p) /\ users p = holders s q).

Definition ok (s : win W) : Prop := table_ok s /\ pairs_ok s.

Lemma win_init_ok w : ok (win_init w).
Proof.
  assert (forall i, get_fh (win_init w) i = no_FH) as Hf.
  { intros i. unfold get_fh, win_init. cbn [fhs]. destruct (replicate _ _ !! i) eqn:E; [|done].
    by apply lookup_replicate in E as [-> _]. }
  split.
  - split; [apply length_replicate|]. split; [cbn; lia|].
    split; intros i; rewrite Hf; cbn; done.
  - split; [done|]. split; [intros i; rewrite Hf; done|]. intros q p Hq. change (pairs (win_init w)) with (∅ : gmap Z SocketPair) in Hq. by rewrite lookup_empty in Hq.
Qed.

Lemma get_put_fh s i f j :
  (i < length (fhs s))%nat -> get_fh (put_fh s i f) j = if decide (j = i) then f else get_fh s j.
Proof.
  intros Hi. unfold get_fh. cbn. case_decide as E.
  - subst. by rewrite list_lookup_insert_eq.
  - by rewrite list_lookup_insert_ne.
Qed.

(** Two states with the same table and pairs. *)
Definition same_tables (s s' : win W) : Prop :=
  fhs s' = fhs s /\ fh_count s' = fh_count s /\ pairs s' = pairs s /\ next_pair s' = next_pair s.

Lemma same_get s s' i : same_tables s s' -> get_fh s' i = get_fh s i.
Proof. intros (E & _). unfold get_fh. by rewrite E. Qed.

Lemma holders_ext s s' q : (forall i, holder s q i <-> holder s' q i) -> holders s' q = holders s q.
Proof. intros Hh. unfold holders. do 2 f_equal. apply list_filter_iff. intros i. by rewrite Hh. Qed.

Lemma ok_same s s' : same_tables s s' -> ok s -> ok s'.
Proof.
  intros Hs [(Hl & Hn & Hcl & Hlt) (Hnp & Hends & Hpairs)]. pose proof (same_get s s') as Hg.
  pose proof Hs as (E1 & E2 & E3 & E4). split.
  - unfold table_ok. rewrite E1, E2. split_and!; try done; intros i; rewrite Hg by done; auto.
  - unfold pairs_ok. rewrite E3, E4. split_and!; [done| |].
    + intros i. rewrite Hg by done. apply Hends.
    + intros q p Hq. destruct (Hpairs q p Hq) as (? & ? & ? & ->). do 3 (split; [done|]). symmetry. apply holders_ext.
      intros i. unfold holder. by rewrite Hg.
Qed.

(** Changing a slot that is not a pair's end before or after, its class kept. *)
Lemma ok_put_fh s i f :
  ok s -> clazz f = clazz (get_fh s i) -> used f = used (get_fh s i) ->
  (clazz f = Some PairClass -> u f = u (get_fh s i)) -> ok (put_fh s i f).
Proof.
  intros [Ht Hp] Hc Hu Hw. pose proof Ht as (Hl & Hn & Hcl & Hlt).
  destruct (decide (i < length (fhs s))%nat) as [Hi|Hi].
  2:{ apply (ok_same s); [|by split]. unfold same_tables. cbn. by rewrite list_insert_ge by lia. }
  assert (forall j, clazz (get_fh (put_fh s i f) j) = clazz (get_fh s j) /\ used (get_fh (put_fh s i f) j) = used (get_fh s j) /\
    (clazz (get_fh s j) = Some PairClass -> u (get_fh (put_fh s i f) j) = u (get_fh s j))) as Hsame.
  { intros j. rewrite get_put_fh by done. case_decide as E; [subst j|done]. rewrite <- Hc. by split_and!. }
  split.
  - split; [by cbn; rewrite length_insert|]. split; [done|]. split; intros j; destruct (Hsame j) as (Ec & Eu & _); rewrite ?Ec, ?Eu; auto.
  - destruct Hp as (Hnp & Hends & Hpairs). split; [done|]. split.
    + intros j. destruct (Hsame j) as (-> & _ & E). intros Hj. rewrite E by done. by apply Hends.
    + intros q p Hq. destruct (Hpairs q p Hq) as (? & ? & ? & ->). do 3 (split; [done|]). symmetry. apply holders_ext.
      intros j. unfold holder. destruct (Hsame j) as (-> & _ & E). naive_solver congruence.
Qed.

(** Putting a new descriptor in an unused slot. *)
Lemma ok_fill s i f n :
  ok s -> (i < n <= WIN32_MAX_FHS)%nat -> (fh_count s <= n)%nat -> clazz (get_fh s i) = None ->
  used f = true -> clazz f <> None -> (clazz f = Some PairClass -> u f = 0) ->
  ok (put_fh (put_count s n) i f).
Proof.
  intros [(Hl & Hn & Hcl & Hlt) (Hnp & Hends & Hpairs)] Hi Hcount Hnone Hu Hc Hw.
  assert (forall j, get_fh (put_fh (put_count s n) i f) j = if decide (j = i) then f else get_fh s j) as Hg.
  { intros j. rewrite get_put_fh; [done|]. cbn. lia. }
  split.
  - split; [by cbn; rewrite length_insert|]. split; [cbn; lia|].
    split; intros j; rewrite Hg; case_decide; subst; cbn; auto; [by rewrite Hu|lia|]. intros Hj. specialize (Hlt j Hj). lia.
  - split; [done|]. split.
    + intros j. rewrite Hg. case_decide; [auto|apply Hends].
    + intros q p Hq. destruct (Hpairs q p Hq) as (? & ? & ? & ->). do 3 (split; [done|]). symmetry. apply holders_ext.
      intros j. unfold holder. rewrite Hg. case_decide; [subst j|done]. rewrite Hnone. split; [by intros [? _]|].
      intros [Hp Hq']. rewrite (Hw Hp) in Hq'. lia.
Qed.

(** What _fh_alloc does: a slot that was unused is filled, all others stay. *)
Lemma alloc_spec s c :
  ok s ->
  match _fh_alloc s c with
  | (Some i, s') =>
      (i < WIN32_MAX_FHS)%nat /\ used (get_fh s i) = false /\ ok s' /\ (i < fh_count s')%nat /\
      pairs s' = pairs s /\ next_pair s' = next_pair s /\ clazz (get_fh s' i) = Some c /\ used (get_fh s' i) = true /\
      (c = PairClass -> u (get_fh s' i) = 0) /\ (forall j, j <> i -> get_fh s' j = get_fh s j)
  | (None, s') => s' = s /\ forall i, (i < WIN32_MAX_FHS)%nat -> used (get_fh s i) = true
  end.
Proof.
  intros Hok. pose proof Hok as [(Hl & Hn & Hcl & Hlt) _]. unfold _fh_alloc.
  set (choice := if (fh_count s <? WIN32_MAX_FHS)%nat then _ else _).
  assert (match choice with
    | (Some i, s1) => exists n, s1 = put_count s n /\ (i < n <= WIN32_MAX_FHS)%nat /\ (fh_count s <= n)%nat /\ clazz (get_fh s i) = None
    | (None, s1) => s1 = s /\ forall i, (i < WIN32_MAX_FHS)%nat -> clazz (get_fh s i) <> None end) as Hch.
  { unfold choice. destruct (Nat.ltb_spec (fh_count s) WIN32_MAX_FHS) as [Hlt'|Hge].
    - exists (S (fh_count s)). split; [done|]. split; [lia|]. split; [lia|].
      destruct (clazz (get_fh s (fh_count s))) eqn:E; [|done].
      assert (used (get_fh s (fh_count s)) = true) as Hu by (apply Hcl; by rewrite E). apply Hlt in Hu. lia.
    - destruct (list_find _ (fhs s)) as [[i f]|] eqn:E; cbn.
      + apply list_find_Some in E as (Hi & Hnone & _). exists (fh_count s). split; [by destruct s|].
        pose proof (lookup_lt_Some _ _ _ Hi). unfold get_fh. rewrite Hi. cbn. split; [lia|]. split; [lia|done].
      + split; [done|]. apply list_find_None in E. intros i Hi. unfold get_fh.
        destruct (lookup_lt_is_Some_2 (fhs s) i) as [f Hf]; [lia|]. rewrite Hf. by apply (Forall_lookup_1 _ _ _ _ E Hf). }
  clearbody choice. destruct choice as [[i|] s1]; [|destruct Hch as [-> Hfull]; split; [done|]; intros i Hi; by apply Hcl, Hfull].
  destruct Hch as (n & -> & Hi & Hcount & Hnone).
  assert (exists f, same_tables (put_fh (put_count s n) i f)
      (_fh_init (put_fh (put_count s n) i (mk_FH (Some c) true false (u (get_fh (put_count s n) i)) (event (get_fh (put_count s n) i)) (mask (get_fh (put_count s n) i)))) c i) /\
      used f = true /\ clazz f = Some c /\ (c = PairClass -> u f = 0)) as (f & Hsame & Hu & Hc & Hw).
  { set (f0 := mk_FH _ _ _ _ _ _). set (s2 := put_fh _ i f0).
    assert (get_fh s2 i = f0) as E2 by (unfold s2; rewrite get_put_fh by (cbn; lia); by rewrite decide_True).
    assert (forall f1, same_tables (put_fh (put_count s n) i f1) (put_fh s2 i f1)) as Hput.
    { intros f1. unfold same_tables, s2. cbn. by rewrite list_insert_insert_eq. }
    unfold _fh_init. rewrite E2. destruct c.
    - eexists. split; [apply Hput|done].
    - destruct (WSACreateEvent (world s2)) as [e w]. exists (mk_FH (Some SocketClass) true false INVALID e 0).
      split; [apply (Hput _)|done].
    - eexists. split; [apply Hput|done]. }
  set (s' := _fh_init _ c i) in *. clearbody s'.
  assert (forall j, get_fh s' j = if decide (j = i) then f else get_fh s j) as Hg.
  { intros j. rewrite (same_get _ _ j Hsame), get_put_fh by (cbn; lia). done. }
  split; [lia|]. split; [destruct (used (get_fh s i)) eqn:E; [|done]; by apply Hcl in E|].
  split.
  { apply (ok_same _ _ Hsame). apply ok_fill; try done; [by rewrite Hc|]. rewrite Hc. intros [= ->]. auto. }
  destruct Hsame as (_ & E1 & E2 & E3). rewrite E1, E2, E3, !Hg, decide_True by done. cbn. do 6 (split; [done||lia|]).
  intros j Hj. by rewrite Hg, decide_False.
Qed.

(** One slot less. *)
Lemma filter_remove (P Q : nat -> Prop) `{!forall x, Decision (P x), !forall x, Decision (Q x)} (l : list nat) i :
  NoDup l -> i ∈ l -> P i -> ~ Q i -> (forall j, j <> i -> P j <-> Q j) -> length (filter P l) = S (length (filter Q l)).
Proof.
  intros Hnd Hi HP HQ Hsame. induction Hnd as [|x l Hx Hnd IH]; [by apply not_elem_of_nil in Hi|].
  destruct (decide (x = i)) as [->|Hne].
  - rewrite filter_cons_True, filter_cons_False by done. cbn. do 2 f_equal. clear -Hx Hsame.
    induction l as [|y l IH]; [done|]. apply not_elem_of_cons in Hx as [Hy Hx].
    destruct (decide (P y)) as [Hp|Hp]; [rewrite !filter_cons_True|rewrite !filter_cons_False]; try done;
      try (by rewrite <- Hsame by done); [f_equal|]; by apply IH.
  - apply elem_of_cons in Hi as [->|Hi]; [done|]. specialize (IH Hi).
    destruct (decide (P x)) as [Hp|Hp]; [rewrite !filter_cons_True|rewrite !filter_cons_False]; try done;
      try (by rewrite <- Hsame by done). cbn. by rewrite IH.
Qed.

Lemma holders_remove s s' q i :
  (i < WIN32_MAX_FHS)%nat -> holder s q i -> ~ holder s' q i -> (forall j, j <> i -> holder s q j <-> holder s' q j) ->
  holders s q = holders s' q + 1.
Proof.
  intros Hi Hh Hn Hsame. unfold holders. rewrite (filter_remove (holder s q) (holder s' q) _ i); try done; [lia|apply NoDup_seq|].
  apply elem_of_seq. lia.
Qed.

Lemma holders_zero s q i : holders s q = 0 -> (i < WIN32_MAX_FHS)%nat -> ~ holder s q i.
Proof.
  unfold holders. intros Hz Hi Hh. assert (i ∈ filter (holder s q) (seq 0 WIN32_MAX_FHS)) as He.
  { apply list_elem_of_filter. split; [done|]. apply elem_of_seq. lia. }
  destruct (filter _ _); [by apply not_elem_of_nil in He|cbn in Hz; lia].
Qed.

Lemma ok_below s i : ok s -> clazz (get_fh s i) <> None -> (i < WIN32_MAX_FHS)%nat.
Proof. intros [(_ & Hn & Hcl & Hlt) _] Hi. apply Hcl, Hlt in Hi. lia. Qed.

(** Emptying a slot that is no pair's end. *)
Lemma ok_empty s i f :
  ok s -> (i < WIN32_MAX_FHS)%nat -> (clazz (get_fh s i) = Some PairClass -> u (get_fh s i) = 0) ->
  used f = false -> clazz f = None -> ok (put_fh s i f).
Proof.
  intros [(Hl & Hn & Hcl & Hlt) (Hnp & Hends & Hpairs)] Hi Hz Hu Hc.
  assert (forall j, get_fh (put_fh s i f) j = if decide (j = i) then f else get_fh s j) as Hg.
  { intros j. apply get_put_fh. lia. }
  split.
  - split; [by cbn; rewrite length_insert|]. split; [done|].
    split; intros j; rewrite Hg; case_decide; subst; cbn; rewrite ?Hu, ?Hc; auto; done.
  - split; [done|]. split.
    + intros j. rewrite Hg. case_decide; [by rewrite Hc|apply Hends].
    + intros q p Hq. destruct (Hpairs q p Hq) as (? & ? & ? & ->). do 3 (split; [done|]). symmetry. apply holders_ext.
      intros j. unfold holder. rewrite Hg. case_decide; [subst j|done]. rewrite Hc. split; [|by intros [? _]].
      intros [Hp Hq']. specialize (Hz Hp). lia.
Qed.

(** bip_buffer_close keeps the buffer. *)
Lemma close_wf b : wf b -> wf (bip_buffer_close b) /\ contents (bip_buffer_close b) = contents b.
Proof. by intros Hwf. Qed.

(** Taking an end away from its pair. *)
Lemma ok_release s i q p f p' :
  ok s -> holder s q i -> pairs s !! q = Some p -> used f = false -> clazz f = None ->
  wf (a2b_bip p') -> wf (b2a_bip p') -> users p' = users p - 1 ->
  ok (put_fh (put_pairs s (if users p' =? 0 then delete q (pairs s) else <[q := p']> (pairs s))) i f).
Proof.
  intros Hok Hh Hq Hu Hc Hwa Hwb Husers. pose proof Hok as [(Hl & Hn & Hcl & Hlt) (Hnp & Hends & Hpairs)].
  assert (i < WIN32_MAX_FHS)%nat as Hi by (apply (ok_below s); [done|]; by rewrite (proj1 Hh)).
  set (s' := put_fh _ i f). assert (forall j, get_fh s' j = if decide (j = i) then f else get_fh s j) as Hg.
  { intros j. unfold s'. rewrite get_put_fh; [done|]. cbn. lia. }
  assert (forall j, j <> i -> forall q, holder s q j <-> holder s' q j) as Hother.
  { intros j Hj q'. unfold holder. by rewrite Hg, decide_False. }
  assert (forall q, ~ holder s' q i) as Hgone.
  { intros q' [E _]. by rewrite Hg, decide_True, Hc in E. }
  destruct (Hpairs q p Hq) as (Hqr & Ha & Hb & Hcount).
  assert (users p' = holders s' q) as Hcount'.
  { rewrite Husers, Hcount, (holders_remove s s' q i); [lia|done|done|apply Hgone|]. intros j Hj. by apply Hother. }
  assert (forall q', q' <> q -> holders s' q' = holders s q') as Hsame.
  { intros q' Hne. apply holders_ext. intros j. destruct (decide (j = i)) as [->|Hj]; [|by apply Hother].
    split; [intros [_ E]; destruct Hh; congruence|]. intros E. by apply Hgone in E. }
  assert (forall q', q' <> q -> pairs s' !! q' = pairs s !! q') as Hpairs'.
  { intros q' Hne. unfold s'. cbn. case_match; [by rewrite lookup_delete_ne|by rewrite lookup_insert_ne]. }
  split.
  - split; [by cbn; rewrite length_insert|]. split; [done|].
    split; intros j; rewrite Hg; case_decide; subst; cbn; rewrite ?Hu, ?Hc; auto; done.
  - split; [done|]. split.
    + intros j Hj. rewrite Hg in *. case_decide; [by rewrite Hc in Hj|]. destruct (Hends j Hj) as [?|Hs]; [by left|right].
      destruct (decide (u (get_fh s j) = q)) as [E|Hne]; [|by rewrite Hpairs']. rewrite E.
      destruct (Z.eqb_spec (users p') 0) as [Ez|Ez].
      * exfalso. rewrite Hcount' in Ez. apply (holders_zero s' q j Ez).
        { apply (ok_below s); [done|]. by rewrite Hj. }
        by apply Hother.
      * unfold s'. cbn. rewrite lookup_insert_eq. eauto.
    + intros q' p0 Hq'. destruct (decide (q' = q)) as [->|Hne].
      * unfold s' in Hq'. cbn in Hq'. destruct (users p' =? 0); [by rewrite lookup_delete_eq in Hq'|].
        rewrite lookup_insert_eq in Hq'. injection Hq' as <-. done.
      * rewrite Hpairs' in Hq' by done. rewrite Hsame by done. by apply Hpairs.
Qed.

Lemma close_spec s i :
  ok s -> (i < WIN32_MAX_FHS)%nat ->
  exists s', _fh_close s (Some i) = Done s' /\ ok s' /\ used (get_fh s' i) = false /\
    (forall j, j <> i -> get_fh s' j = get_fh s j) /\ fh_count s' = fh_count s.
Proof.
  intros Hok Hi. pose proof Hok as [(Hl & Hn & Hcl & Hlt) (Hnp & Hends & Hpairs)]. unfold _fh_close. cbn [deref mbind outcome_bind].
  destruct (used (get_fh s i)) eqn:Eu; [|by exists s].
  assert (clazz (get_fh s i) <> None) as Hc by by apply Hcl. destruct (clazz (get_fh s i)) as [c|] eqn:Ec; [|done].
  cbn [deref mbind outcome_bind].
  (* every class leaves a state that differs from [s] in the pairs and in slot [i] *)
  assert (forall s1 f0, fhs s1 = <[i := f0]> (fhs s) -> fh_count s1 = fh_count s ->
    let f := mk_FH None false false (u (get_fh s1 i)) (event (get_fh s1 i)) (mask (get_fh s1 i)) in
    ok (put_fh s1 i f) ->
    exists s', Done (put_fh s1 i f) = Done s' /\ ok s' /\ used (get_fh s' i) = false /\
      (forall j, j <> i -> get_fh s' j = get_fh s j) /\ fh_count s' = fh_count s) as Hend.
  { intros s1 f0 Ef En f Hok'. exists (put_fh s1 i f).
    assert (i < length (fhs s1))%nat by (rewrite Ef, length_insert; lia).
    split_and!; try done; [by rewrite get_put_fh, decide_True by done|].
    intros j Hj. rewrite get_put_fh, decide_False by done. unfold get_fh. by rewrite Ef, list_lookup_insert_ne. }
  assert (forall s1 f0, fhs s1 = <[i := f0]> (fhs s) -> fh_count s1 = fh_count s -> pairs s1 = pairs s -> next_pair s1 = next_pair s ->
    (c = PairClass -> u (get_fh s i) = 0) -> forall f, used f = false -> clazz f = None -> ok (put_fh s1 i f)) as Hplain.
  { intros s1 f0 Ef En Ep Ex Hz f Hf1 Hf2. apply (ok_same (put_fh s i f)).
    - unfold same_tables. cbn. by rewrite Ef, list_insert_insert_eq.
    - apply ok_empty; try done. rewrite Ec. intros [= ->]. auto. }
  destruct c; cbn [mbind outcome_bind].
  - eapply Hend; [done|done|]. by eapply Hplain.
  - eapply Hend; [done|done|]. by eapply Hplain.
  - unfold _fh_socketpair_close. destruct (Z.eqb_spec (u (get_fh s i)) 0) as [Ez|Ez]; cbn [mbind outcome_bind].
    { eapply (Hend s (get_fh s i)); try done.
      - unfold get_fh. destruct (lookup_lt_is_Some_2 (fhs s) i) as [f Hf]; [lia|]. rewrite Hf. by rewrite list_insert_id.
      - apply ok_empty; done. }
    destruct (Hends i Ec) as [?|[p Hp]]; [done|]. rewrite Hp. cbn [deref mbind outcome_bind].
    destruct (Hpairs _ _ Hp) as (_ & Ha & Hb & _).
    set (p' := mk_pair _ _ _ _). set (f0 := with_u _ 0).
    eapply (Hend _ f0); [done|done|]. set (f := mk_FH _ _ _ _ _ _).
    apply (ok_same (put_fh (put_pairs s (if users p' =? 0 then delete (u (get_fh s i)) (pairs s) else <[u (get_fh s i) := p']> (pairs s))) i f)).
    + unfold same_tables. cbn. by rewrite list_insert_insert_eq.
    + apply (ok_release s i (u (get_fh s i)) p f p'); try done; [by apply close_wf..].
Qed.

Lemma open_used s fd : ok s -> open s fd = (WIN32_FH_BASE <=? fd) && used (get_fh s (Z.to_nat (fd - WIN32_FH_BASE))).
Proof.
  intros [(_ & _ & _ & Hlt) _]. unfold open, _fh_from_int. set (i := Z.to_nat _).
  destruct (Z.leb_spec WIN32_FH_BASE fd) as [Hge|Hl].
  - rewrite (proj2 (Z.ltb_ge _ _)) by lia. cbn [orb andb]. destruct (used (get_fh s i)) eqn:Eu.
    + apply Hlt in Eu as Hi. rewrite (proj2 (Z.leb_gt _ _)) by lia. done.
    + by case_match.
  - rewrite (proj2 (Z.ltb_lt _ _)) by lia. done.
Qed.

(** Slot [i] holds the same descriptor in both states: its class and the object it
    refers to. *)
Definition keeps (s s' : win W) (i : nat) : Prop :=
  used (get_fh s' i) = used (get_fh s i) /\ clazz (get_fh s' i) = clazz (get_fh s i) /\ u (get_fh s' i) = u (get_fh s i).

(** Every descriptor in use stays what it is. *)
Definition frame (s s' : win W) : Prop := forall i, used (get_fh s i) = true -> keeps s s' i.

Lemma frame_trans s1 s2 s3 : frame s1 s2 -> frame s2 s3 -> frame s1 s3.
Proof.
  intros H1 H2 i Hi. destruct (H1 i Hi) as (E1 & E2 & E3). destruct (H2 i) as (F1 & F2 & F3); [congruence|].
  unfold keeps. by rewrite F1, F2, F3.
Qed.

Lemma frame_same s s' : same_tables s s' -> frame s s'.
Proof. intros Hs i _. unfold keeps. by rewrite (same_get s s'). Qed.

(** All slots but one that was free. *)
Lemma frame_but s s' i : used (get_fh s i) = false -> (forall j, j <> i -> get_fh s' j = get_fh s j) -> frame s s'.
Proof. intros Hu Hj j Hused. unfold keeps. rewrite Hj; [done|]. intros ->. congruence. Qed.

Lemma frame_but2 s s' a b :
  used (get_fh s a) = false -> used (get_fh s b) = false ->
  (forall j, j <> a -> j <> b -> get_fh s' j = get_fh s j) -> frame s s'.
Proof. intros Ha Hb Hj j Hused. unfold keeps. rewrite Hj; [done|intros ->; congruence..]. Qed.

(** Changing what is neither use, class nor object. *)
Lemma frame_put_fh s i f :
  used f = used (get_fh s i) -> clazz f = clazz (get_fh s i) -> u f = u (get_fh s i) -> frame s (put_fh s i f).
Proof.
  intros H1 H2 H3 j _. unfold keeps. destruct (decide (i < length (fhs s))%nat) as [Hi|Hi].
  - rewrite get_put_fh by done. case_decide; [by subst|done].
  - unfold get_fh. cbn. by rewrite list_insert_ge by lia.
Qed.

Lemma keeps_frame s s' : (forall i, keeps s s' i) -> frame s s'.
Proof. by intros Hk i _. Qed.

(** The result of a function that opens a descriptor: failure leaves the same
    descriptors open, success opens one that was not, and only that; those in use
    stay what they are. *)
Definition opened (s : win W) (r : Z) (s' : win W) : Prop :=
  ok s' /\ frame s s' /\
  ((r = -1 /\ forall fd, open s' fd = open s fd) \/
   (WIN32_FH_BASE <= r < WIN32_FH_BASE + Z.of_nat WIN32_MAX_FHS /\ open s r = false /\
    forall fd, open s' fd = open s fd || (fd =? r))).
Definition opens (s : win W) (o : outcome (Z * win W)) : Prop :=
  match o with
  | Done (r, s') => opened s r s'
  | Stop _ => winsock s = false
  | Undef _ => False
  end.

(** [s'] is [s] with a descriptor more, in slot [i], of class [c]. *)
Definition grown (c : fh_class) (s : win W) (i : nat) (s' : win W) : Prop :=
  ok s' /\ (i < WIN32_MAX_FHS)%nat /\ used (get_fh s i) = false /\
  clazz (get_fh s' i) = Some c /\ used (get_fh s' i) = true /\ forall j, j <> i -> get_fh s' j = get_fh s j.

Lemma alloc_grown s c i s' : ok s -> _fh_alloc s c = (Some i, s') -> grown c s i s'.
Proof.
  intros Hok E. pose proof (alloc_spec s c Hok) as Ha. rewrite E in Ha. unfold grown. tauto.
Qed.
Lemma alloc_none s c s' : ok s -> _fh_alloc s c = (None, s') -> s' = s.
Proof. intros Hok E. pose proof (alloc_spec s c Hok) as Ha. rewrite E in Ha. tauto. Qed.

Lemma grown_same c s i s1 s2 : same_tables s1 s2 -> grown c s i s1 -> grown c s i s2.
Proof.
  intros Hs (Hok & Hi & Hu & Hc & Hu' & Hj). pose proof (fun j => same_get _ _ j Hs) as Hg.
  split; [by apply (ok_same s1)|]. rewrite !Hg. do 4 (split; [done|]). intros j Hne. rewrite Hg. by apply Hj.
Qed.

Lemma grown_set c s i s1 v : c <> PairClass -> grown c s i s1 -> grown c s i (set_socket s1 i v).
Proof.
  intros Hnp (Hok & Hi & Hu & Hc & Hu' & Hj). unfold set_socket.
  assert (forall j, get_fh (put_fh s1 i (with_u (get_fh s1 i) v)) j = if decide (j = i) then with_u (get_fh s1 i) v else get_fh s1 j) as Hg.
  { intros j. apply get_put_fh. destruct Hok as [(-> & _) _]. done. }
  split; [apply ok_put_fh; try done; cbn; congruence|]. rewrite !Hg, decide_True by done. do 4 (split; [done|]).
  intros j Hne. rewrite Hg, decide_False by done. by apply Hj.
Qed.

Lemma grown_fail c s i s1 :
  ok s -> grown c s i s1 -> exists s2, close_fail s1 i = Done (-1, s2) /\ opened s (-1) s2 /\
    forall e, opened s (-1) (put_errno s2 e).
Proof.
  intros Hok (Hok1 & Hi & Hu & _ & _ & Hj). destruct (close_spec s1 i Hok1 Hi) as (s2 & E & Hok2 & Hu2 & Hj2 & _).
  unfold close_fail. rewrite E. cbn [mbind outcome_bind]. exists s2. split; [done|].
  assert (forall s3, same_tables s2 s3 -> opened s (-1) s3) as Ho; [|by split; [apply Ho|intros e; apply Ho]].
  intros s3 Hs. assert (ok s3) as Hok3 by (by apply (ok_same s2)). split; [done|]. split.
  { apply (frame_but _ _ i Hu). intros j Hne. by rewrite (same_get _ _ j Hs), Hj2, Hj. }
  left. split; [done|].
  intros fd. rewrite !open_used, (same_get s2 s3) by done. f_equal.
  set (j := Z.to_nat _). destruct (decide (j = i)) as [->|Hne]; [by rewrite Hu2|]. by rewrite Hj2, Hj.
Qed.

Lemma grown_done c s i s1 : ok s -> grown c s i s1 -> opened s (_fh_to_int s1 (Some i)) s1.
Proof.
  intros Hok (Hok1 & Hi & Hu & _ & Hu1 & Hj). unfold _fh_to_int. rewrite Hu1.
  rewrite (proj2 (Nat.ltb_lt _ _) Hi). cbn [andb]. split; [done|]. split; [by apply (frame_but _ _ i)|]. right.
  split; [unfold WIN32_FH_BASE; lia|]. split.
  - rewrite open_used by done. replace (Z.to_nat _) with i by lia. by rewrite Hu, andb_false_r.
  - intros fd. rewrite !open_used by done. destruct (Z.leb_spec WIN32_FH_BASE fd) as [Hge|Hlt]; cbn [andb].
    + destruct (Z.eqb_spec fd (Z.of_nat i + WIN32_FH_BASE)) as [->|Hne].
      * replace (Z.to_nat _) with i by lia. by rewrite Hu1, orb_true_r.
      * rewrite Hj by lia. by rewrite orb_false_r.
    + symmetry. apply Z.eqb_neq. unfold WIN32_FH_BASE in *. lia.
Qed.

Lemma opened_none s s' : ok s -> same_tables s s' -> opened s (-1) s'.
Proof.
  intros Hok Hs. assert (ok s') as Hok' by (by apply (ok_same s)). split; [done|]. split; [by apply frame_same|].
  left. split; [done|].
  intros fd. rewrite !open_used by done. by rewrite (same_get s s').
Qed.

Lemma init_winsock_grown c s i s1 :
  winsock s1 = winsock s -> grown c s i s1 ->
  match _init_winsock s1 with Done s2 => grown c s i s2 | Stop _ => winsock s = false | Undef _ => False end.
Proof.
  intros Ew Hg. unfold _init_winsock. destruct (winsock s1) eqn:E; [done|].
  destruct (WSAStartup (world s1)) as [rc w]. destruct (negb _); [by rewrite <- Ew|]. by apply (grown_same _ _ _ s1).
Qed.

Lemma alloc_winsock s c : winsock (_fh_alloc s c).2 = winsock s.
Proof.
  unfold _fh_alloc. set (choice := if (fh_count s <? WIN32_MAX_FHS)%nat then _ else _).
  assert (winsock choice.2 = winsock s) as Ec by (unfold choice; by case_match). destruct choice as [[i|] s1]; [|done].
  cbn in *. destruct c; cbn; try done. by destruct (WSACreateEvent _).
Qed.

(** The pieces the opening functions share. *)
Lemma grown_world c s i s1 w : grown c s i s1 -> grown c s i (put_world s1 w).
Proof. by apply grown_same. Qed.

Lemma socket_fail s i s1 : ok s -> grown SocketClass s i s1 -> opens s (close_fail s1 i).
Proof. intros Hok Hg. by destruct (grown_fail SocketClass s i s1 Hok Hg) as (s2 & -> & Ho & _). Qed.

Lemma socket_done s i s1 : ok s -> grown SocketClass s i s1 -> opens s (Done (_fh_to_int s1 (Some i), s1)).
Proof. apply grown_done. Qed.

Create HintDb win32.
#[local] Hint Resolve grown_world grown_set socket_fail socket_done : win32.
#[local] Hint Extern 1 (_ <> PairClass) => discriminate : win32.

Lemma open_handle_opens s i s1 path access disposition :
  ok s -> grown FileClass s i s1 -> opens s (open_handle s1 i path access disposition).
Proof.
  intros Hok Hg. unfold open_handle. destruct (CreateFile (world s1) path access disposition) as [h w].
  assert (grown FileClass s i (set_socket (put_world s1 w) i h)) as Hg1 by (auto with win32).
  destruct (h =? INVALID); [|by eapply grown_done].
  destruct (grown_fail _ s i _ Hok Hg1) as (s2 & E & _ & Ho). unfold close_fail in E.
  change (put_fh _ i _) with (set_socket (put_world s1 w) i h).
  destruct (_fh_close _ _) as [s3| |]; cbn [mbind outcome_bind] in E |- *; try done. injection E as ->. apply Ho.
Qed.

Lemma serve_opens s i s1 v host port type :
  ok s -> grown SocketClass s i s1 -> opens s (serve s1 i v host port type).
Proof.
  intros Hok Hg. unfold serve. destruct (bind _ _ _) as [r w]. destruct (r <? 0); [eauto with win32|].
  destruct (type =? SOCK_STREAM); [|eauto with win32]. destruct (listen _ _ _) as [ret w2].
  destruct (ret <? 0); eauto with win32.
Qed.

(** Opening a socket: the winsock library first, then what follows. *)
Lemma winsock_opens s i s1 (k : win W -> outcome (Z * win W)) :
  _fh_alloc s SocketClass = (Some i, s1) -> grown SocketClass s i s1 ->
  (forall s2, grown SocketClass s i s2 -> opens s (k s2)) -> opens s (s2 ← _init_winsock s1; k s2).
Proof.
  intros E Hg Hk. pose proof (alloc_winsock s SocketClass) as Ew. rewrite E in Ew.
  pose proof (init_winsock_grown SocketClass s i s1 Ew Hg) as Hi. destruct (_init_winsock s1); [by apply Hk|done..].
Qed.

(** ** Reading, writing, closing *)

Definition fine {A} (P : A -> win W -> Prop) (o : option (outcome (A * win W))) : Prop :=
  match o with Some (Done (a, s)) => P a s | Some _ => False | None => True end.

Lemma from_int_cases s fd :
  (exists s', _fh_from_int s fd = (None, s') /\ same_tables s s') \/
  (_fh_from_int s fd = (Some (Z.to_nat (fd - WIN32_FH_BASE)), s) /\ used (get_fh s (Z.to_nat (fd - WIN32_FH_BASE))) = true).
Proof.
  unfold _fh_from_int. case_match; [left; by eexists|]. destruct (used _) eqn:Eu; cbn [negb]; [by right|left; by eexists].
Qed.

Lemma ok_put_pair s q p p' :
  ok s -> pairs s !! q = Some p -> wf (a2b_bip p') -> wf (b2a_bip p') -> users p' = users p ->
  ok (put_pairs s (<[q := p']> (pairs s))).
Proof.
  intros [Ht (Hnp & Hends & Hpairs)] Hq Ha Hb Hu. split; [done|]. split; [done|]. split.
  - intros i Hi. destruct (Hends i Hi) as [?|Hs]; [by left|right]. cbn.
    destruct (decide (u (get_fh s i) = q)) as [E|Hne].
    + change (get_fh (put_pairs _ _) i) with (get_fh s i). rewrite E, lookup_insert_eq. eauto.
    + change (get_fh (put_pairs _ _) i) with (get_fh s i). by rewrite lookup_insert_ne.
  - intros q' p0. cbn. destruct (decide (q' = q)) as [->|Hne].
    + rewrite lookup_insert_eq. intros [= <-]. rewrite Hu. destruct (Hpairs q p Hq) as (? & _ & _ & ?). done.
    + rewrite lookup_insert_ne by done. apply Hpairs.
Qed.

(** What a call that opens and closes nothing leaves. *)
Definition calm (s s' : win W) : Prop := ok s' /\ frame s s'.

Lemma calm_same s s' : ok s -> same_tables s s' -> calm s s'.
Proof. intros Hok Hs. split; [by apply (ok_same s)|by apply frame_same]. Qed.
Lemma calm_trans s1 s2 s3 : calm s1 s2 -> calm s2 s3 -> calm s1 s3.
Proof. intros [_ H1] [Hok H2]. split; [done|]. by eapply frame_trans. Qed.

Lemma calm_put_pair s q p p' :
  ok s -> pairs s !! q = Some p -> wf (a2b_bip p') -> wf (b2a_bip p') -> users p' = users p ->
  calm s (put_pairs s (<[q := p']> (pairs s))).
Proof. intros. split; [by apply (ok_put_pair s q p)|]. by apply keeps_frame. Qed.

Lemma calm_put_pair_errno s q p p' e :
  ok s -> pairs s !! q = Some p -> wf (a2b_bip p') -> wf (b2a_bip p') -> users p' = users p ->
  calm s (put_errno (put_pairs s (<[q := p']> (pairs s))) e).
Proof.
  intros. assert (calm s (put_pairs s (<[q := p']> (pairs s)))) as [Hok Hf] by (by apply (calm_put_pair s q p)).
  split; [by apply (ok_same (put_pairs s (<[q := p']> (pairs s))))|]. by apply keeps_frame.
Qed.

Lemma write_now_spec b d :
  wf b -> d <> [] ->
  match write_now b d with
  | Some (Done (Some n, b')) => wf b' /\ contents b' = contents b ++ take (Z.to_nat n) d /\
      n = Z.min (Z.of_nat (length d)) (free_space b)
  | Some (Done (None, b')) => b' = b
  | Some _ => False
  | None => True
  end.
Proof.
  intros Hwf Hd. unfold write_now. destruct (can_write b) eqn:Ew; [|by destruct (closed b)].
  by destruct (write_locked_spec b d Hwf Ew Hd) as (n & b' & -> & ? & _ & ? & ? & _).
Qed.

Lemma read_now_spec b len :
  wf b -> 0 < len ->
  match read_now b len with
  | Some (Done (Some d, b')) => wf b' /\ d = take (Z.to_nat len) (contents b) /\ contents b' = drop (Z.to_nat len) (contents b)
  | Some (Done (None, b')) => b' = b
  | Some _ => False
  | None => True
  end.
Proof.
  intros Hwf Hd. unfold read_now. destruct (can_read b) eqn:Er; [|by destruct (closed b)].
  by destruct (read_locked_spec b len Hwf Er Hd) as (d & b' & -> & ? & _ & ? & ? & _).
Qed.

(** The ends of a pair with well-formed pipes. *)
Lemma ends_wf p i b :
  wf (a2b_bip p) -> wf (b2a_bip p) ->
  wf (read_end p i) /\ wf (write_end p i) /\
  (wf b -> let p' := put_read_end p i b in wf (a2b_bip p') /\ wf (b2a_bip p') /\ users p' = users p) /\
  (wf b -> let p' := put_write_end p i b in wf (a2b_bip p') /\ wf (b2a_bip p') /\ users p' = users p).
Proof. intros Ha Hb. unfold read_end, write_end, put_read_end, put_write_end. by destruct (is_a p i). Qed.

Lemma pair_read_ok s i len :
  ok s -> clazz (get_fh s i) = Some PairClass -> fine (fun _ => calm s) (_fh_socketpair_read s i len).
Proof.
  intros Hok Hc. pose proof Hok as [_ (_ & Hends & Hpairs)]. unfold _fh_socketpair_read.
  destruct (Z.eqb_spec (u (get_fh s i)) 0) as [?|Hz]; [done|]. destruct (Hends i Hc) as [?|[p Hp]]; [done|]. rewrite Hp.
  destruct (Z.leb_spec len 0) as [?|Hlen]; [done|]. destruct (Hpairs _ _ Hp) as (_ & Ha & Hb & _).
  destruct (ends_wf p i (read_end p i) Ha Hb) as (Hr & _ & Hput & _).
  pose proof (read_now_spec (read_end p i) len Hr Hlen) as Hn. destruct (read_now _ _) as [[[[d|] b]| |]|]; cbn in *; try done.
  - destruct Hn as (Hb' & _). destruct (ends_wf p i b Ha Hb) as (_ & _ & Hput' & _). destruct (Hput' Hb') as (? & ? & ?).
    by apply (calm_put_pair s _ p).
  - subst b. destruct (Hput Hr) as (? & ? & ?).
    by apply (calm_put_pair_errno s _ p).
Qed.

Lemma pair_write_ok s i d :
  ok s -> clazz (get_fh s i) = Some PairClass -> fine (fun _ => calm s) (_fh_socketpair_write s i d).
Proof.
  intros Hok Hc. pose proof Hok as [_ (_ & Hends & Hpairs)]. unfold _fh_socketpair_write.
  destruct (Z.eqb_spec (u (get_fh s i)) 0) as [?|Hz]; [done|]. destruct (Hends i Hc) as [?|[p Hp]]; [done|]. rewrite Hp.
  destruct (Z.leb_spec (Z.of_nat (length d)) 0) as [?|Hlen]; [done|]. assert (d <> []) as Hd by (by intros ->).
  destruct (Hpairs _ _ Hp) as (_ & Ha & Hb & _). destruct (ends_wf p i (write_end p i) Ha Hb) as (_ & Hw & _ & Hput).
  pose proof (write_now_spec (write_end p i) d Hw Hd) as Hn. destruct (write_now _ _) as [[[[n|] b]| |]|]; cbn in *; try done.
  - destruct Hn as (Hb' & _). destruct (ends_wf p i b Ha Hb) as (_ & _ & _ & Hput'). destruct (Hput' Hb') as (? & ? & ?).
    by apply (calm_put_pair s _ p).
  - subst b. destruct (Hput Hw) as (? & ? & ?).
    by apply (calm_put_pair_errno s _ p).
Qed.

Lemma ok_world s w : ok s -> ok (put_world s w).
Proof. by apply ok_same. Qed.
Lemma ok_errno s e : ok s -> ok (put_errno s e).
Proof. by apply ok_same. Qed.
Lemma calm_eof s i b : ok s -> calm s (put_fh s i (with_eof (get_fh s i) b)).
Proof. intros Hok. split; [by apply ok_put_fh|by apply frame_put_fh]. Qed.
Lemma calm_world s w : ok s -> calm s (put_world s w).
Proof. intros Hok. by apply calm_same. Qed.
Lemma calm_errno s w e : ok s -> calm s (put_errno (put_world s w) e).
Proof. intros Hok. by apply calm_same. Qed.
Lemma calm_error s e : ok s -> calm s (put_errno s e).
Proof. intros Hok. by apply calm_same. Qed.
Lemma calm_set_errno s w : ok s -> calm s (_socket_set_errno (put_world s w)).
Proof. intros Hok. apply calm_same; [done|]. unfold _socket_set_errno. by repeat case_match. Qed.
Lemma calm_world_eof s w i b : ok s -> calm s (put_fh (put_world s w) i (with_eof (get_fh s i) b)).
Proof. intros Hok. eapply calm_trans; [by apply (calm_world s w)|]. apply (calm_eof (put_world s w) i b). by apply ok_world. Qed.
#[local] Hint Resolve ok_world ok_errno calm_world calm_errno calm_error calm_set_errno calm_world_eof : win32.

Lemma adb_read_ok s fd len : ok s -> fine (fun _ => calm s) (adb_read s fd len).
Proof.
  intros Hok. unfold adb_read. destruct (from_int_cases s fd) as [(s' & -> & Hs)|[-> Hu]]; [by apply (calm_same s)|].
  set (i := Z.to_nat _) in *. pose proof Hok as [(_ & _ & Hcl & _) _]. apply Hcl in Hu.
  destruct (clazz (get_fh s i)) as [[]|] eqn:Ec; [| | |done].
  - cbn. unfold _fh_file_read. destruct (ReadFile _ _ _) as [[d|] w]; cbn; [|auto with win32].
    case_match; auto with win32.
  - cbn. unfold _fh_socket_read. destruct (recv _ _ _) as [[d|] w]; cbn; auto with win32.
  - by apply pair_read_ok.
Qed.

Lemma adb_write_ok s fd d : ok s -> fine (fun _ => calm s) (adb_write s fd d).
Proof.
  intros Hok. unfold adb_write. destruct (from_int_cases s fd) as [(s' & -> & Hs)|[-> Hu]]; [by apply (calm_same s)|].
  set (i := Z.to_nat _) in *. pose proof Hok as [(_ & _ & Hcl & _) _]. apply Hcl in Hu.
  destruct (clazz (get_fh s i)) as [[]|] eqn:Ec; [| | |done].
  - cbn. unfold _fh_file_write. destruct (WriteFile _ _ _) as [[n|] w]; cbn; [|auto with win32].
    case_match; auto with win32.
  - cbn. unfold _fh_socket_write. destruct (send _ _ _) as [[n|] w]; cbn; auto with win32.
  - by apply pair_write_ok.
Qed.

Lemma adb_lseek_ok s fd pos o : ok s -> fine (fun _ => calm s) (Some (adb_lseek s fd pos o)).
Proof.
  intros Hok. unfold adb_lseek. destruct (from_int_cases s fd) as [(s' & -> & Hs)|[-> Hu]]; [by apply (calm_same s)|].
  set (i := Z.to_nat _) in *. pose proof Hok as [(_ & _ & Hcl & _) _]. apply Hcl in Hu.
  destruct (clazz (get_fh s i)) as [[]|] eqn:Ec; [| | |done]; cbn; auto with win32.
  unfold _fh_file_lseek. destruct (_ || _); cbn; auto with win32.
  destruct (SetFilePointer _ _ _ _) as [[r|] w]; cbn; auto with win32.
Qed.

Lemma adb_close_ok s fd : ok s -> fine (fun r s' => ok s' /\
    (forall i, used (get_fh s i) = true -> fd <> Z.of_nat i + WIN32_FH_BASE -> keeps s s' i) /\
    forall fd', open s' fd' = open s fd' && negb (fd' =? fd)) (Some (adb_close s fd)).
Proof.
  intros Hok. unfold adb_close. pose proof (open_used s fd Hok) as Ho. unfold open in Ho.
  destruct (from_int_cases s fd) as [(s' & E & Hs)|[E Hu]]; rewrite E in *; cbn in Ho |- *.
  { split; [by apply (ok_same s)|]. split; [intros j Hj _; by apply (frame_same s s' Hs)|].
    intros fd'. rewrite !open_used by (done || by apply (ok_same s)).
    rewrite (same_get s s') by done. destruct (Z.eqb_spec fd' fd) as [->|]; [|by rewrite andb_true_r]. by rewrite <- Ho. }
  set (i := Z.to_nat _) in *. symmetry in Ho. apply andb_true_iff in Ho as [Hge _].
  assert (i < WIN32_MAX_FHS)%nat as Hi by (destruct Hok as [(_ & ? & _ & Hlt) _]; apply Hlt in Hu; lia).
  destruct (close_spec s i Hok Hi) as (s' & E' & Hok' & Hu' & Hj & _). cbn in E'. rewrite E'. cbn. split; [done|].
  split; [intros j _ Hne; unfold keeps; rewrite Hj by (apply Z.leb_le in Hge; lia); done|].
  intros fd'. rewrite !open_used by done. apply Z.leb_le in Hge. destruct (Z.eqb_spec fd' fd) as [->|Hne].
  - fold i. by rewrite Hu', !andb_false_r.
  - rewrite andb_true_r. destruct (Z.leb_spec WIN32_FH_BASE fd'); [|done]. rewrite Hj by lia. done.
Qed.

(** ** A new pair *)

Lemma holders_none s q : (forall i, ~ holder s q i) -> holders s q = 0.
Proof.
  intros Hn. unfold holders. destruct (filter _ _) as [|i l] eqn:E; [done|]. exfalso.
  apply (Hn i). assert (i ∈ filter (holder s q) (seq 0 WIN32_MAX_FHS)) as Hi by (rewrite E; by left).
  by apply list_elem_of_filter in Hi as [? _].
Qed.

(** [s'] is [s] with both ends [a] and [b] of a pair at [q] joined. *)
Definition joined s a b q p s' : Prop :=
  fh_count s' = fh_count s /\ length (fhs s') = length (fhs s) /\ pairs s' = <[q := p]> (pairs s) /\ next_pair s' = q + 1 /\
  forall j, get_fh s' j = if decide (j = a \/ j = b) then with_u (get_fh s j) q else get_fh s j.

Lemma ok_joined s a b p s' :
  ok s -> a <> b -> joined s a b (next_pair s) p s' ->
  (forall i, i = a \/ i = b -> clazz (get_fh s i) = Some PairClass /\ u (get_fh s i) = 0) ->
  wf (a2b_bip p) -> wf (b2a_bip p) -> users p = 2 -> ok s'.
Proof.
  intros Hok Hab (Hn' & Hl' & Hp' & Hx & Hg) Hends' Hwa Hwb Husers.
  pose proof Hok as [(Hl & Hn & Hcl & Hlt) (Hnp & Hends & Hpairs)]. set (q := next_pair s) in *.
  assert (forall j, clazz (get_fh s' j) = clazz (get_fh s j) /\ used (get_fh s' j) = used (get_fh s j)) as Hsame.
  { intros j. rewrite Hg. by case_decide. }
  assert (forall i, i = a \/ i = b -> (i < WIN32_MAX_FHS)%nat) as Hi.
  { intros i Hab'. apply (ok_below s); [done|]. by rewrite (proj1 (Hends' i Hab')). }
  assert (forall i, ~ holder s q i) as Hnone.
  { intros i [Hc Hu]. destruct (Hends i Hc) as [?|[p0 Hp0]]; [lia|]. rewrite Hu in Hp0. apply Hpairs in Hp0. lia. }
  assert (forall i, holder s' q i <-> i = a \/ i = b) as Hholder.
  { intros i. unfold holder. rewrite Hg. case_decide as Hd.
    - cbn. split; [done|]. intros _. by rewrite (proj1 (Hends' i Hd)).
    - split; [|done]. intros Hh. by apply Hnone in Hh. }
  split.
  - split; [by rewrite Hl'|]. split; [by rewrite Hn'|].
    split; intros j; destruct (Hsame j) as [Ec Eu]; rewrite ?Ec, ?Eu, ?Hn'; auto.
  - split; [lia|]. split.
    + intros j. rewrite Hg. case_decide as Hd.
      * intros _. right. cbn. rewrite Hp', lookup_insert_eq. eauto.
      * intros Hc. destruct (Hends j Hc) as [?|[p0 Hp0]]; [by left|right]. rewrite Hp'.
        rewrite lookup_insert_ne; [eauto|]. apply Hpairs in Hp0. lia.
    + intros q' p0. rewrite Hp', Hx. destruct (decide (q' = q)) as [->|Hne].
      * rewrite lookup_insert_eq. intros [= <-]. split; [lia|]. do 2 (split; [done|]). rewrite Husers.
        set (s1 := put_fh s a (with_u (get_fh s a) q)).
        assert (forall j, get_fh s1 j = if decide (j = a) then with_u (get_fh s a) q else get_fh s j) as Hg1.
        { intros j. unfold s1. apply get_put_fh. rewrite Hl. apply Hi. by left. }
        assert (forall i, holder s1 q i <-> i = a) as Hh1.
        { intros i. unfold holder. rewrite Hg1. case_decide as Hd; [subst i|split; [intros Hh; by apply Hnone in Hh|done]].
          cbn. by rewrite (proj1 (Hends' a ltac:(by left))). }
        assert (holders s' q = holders s1 q + 1) as ->.
        { apply (holders_remove s' s1 q b); [apply Hi; by right|apply Hholder; by right|rewrite Hh1; congruence|].
          intros j Hj. rewrite Hholder, Hh1. split; [by intros [|]|by left]. }
        assert (holders s1 q = holders s q + 1) as ->.
        { apply (holders_remove s1 s q a); [apply Hi; by left|by apply Hh1|apply Hnone|].
          intros j Hj. rewrite Hh1. split; [done|]. intros Hh. by apply Hnone in Hh. }
        by rewrite (holders_none s q Hnone).
      * rewrite lookup_insert_ne by done. intros Hq'. destruct (Hpairs q' p0 Hq') as (? & ? & ? & ->). split; [lia|].
        do 2 (split; [done|]). symmetry. apply holders_ext. intros j. unfold holder. rewrite Hg.
        case_decide as Hd; [|done]. cbn. destruct (Hends' j Hd) as [_ ->]. lia.
Qed.

Lemma init_wf_garbage garbage : length garbage = Z.to_nat BIP_BUFFER_SIZE -> wf (bip_buffer_init garbage).
Proof. apply init_wf. Qed.

(** Slots [a] and [b] are the ends of the pair [p], at [q]. *)
Definition pair_at s a b q p : Prop :=
  q <> 0 /\ pairs s !! q = Some p /\ a_fd p = Some a /\ a <> b /\
  forall i, i = a \/ i = b ->
    _fh_from_int s (Z.of_nat i + WIN32_FH_BASE) = (Some i, s) /\ clazz (get_fh s i) = Some PairClass /\ u (get_fh s i) = q.

Definition two_free s : Prop :=
  exists i j, (i < WIN32_MAX_FHS)%nat /\ (j < WIN32_MAX_FHS)%nat /\ i <> j /\
    used (get_fh s i) = false /\ used (get_fh s j) = false.

(** A used slot by its descriptor. *)
Lemma from_int_used s i : ok s -> used (get_fh s i) = true -> _fh_from_int s (Z.of_nat i + WIN32_FH_BASE) = (Some i, s).
Proof.
  intros [(_ & _ & _ & Hlt) _] Hu. apply Hlt in Hu as Hi. unfold _fh_from_int.
  replace (Z.of_nat i + WIN32_FH_BASE - WIN32_FH_BASE) with (Z.of_nat i) by lia.
  rewrite (proj2 (Z.ltb_ge _ _)), (proj2 (Z.leb_gt _ _)), Nat2Z.id, Hu by lia. done.
Qed.

Lemma open_ext s s' : ok s -> ok s' -> (forall i, used (get_fh s' i) = used (get_fh s i)) -> forall fd, open s' fd = open s fd.
Proof. intros Hs Hs' Hu fd. by rewrite !open_used, Hu. Qed.

Lemma socketpair_spec s garbage :
  ok s -> length garbage = Z.to_nat BIP_BUFFER_SIZE ->
  match adb_socketpair s garbage with
  | Done (r, (x, y), s') =>
      ok s' /\ frame s s' /\
      ((r = -1 /\ malloc_ok (world (_fh_alloc (_fh_alloc s PairClass).2 PairClass).2) = false /\ forall fd, open s' fd = open s fd) \/
       (r = 0 /\ open s x = false /\ open s y = false /\ (forall fd, open s' fd = open s fd || (fd =? x) || (fd =? y)) /\
        exists a b q, x = Z.of_nat a + WIN32_FH_BASE /\ y = Z.of_nat b + WIN32_FH_BASE /\
          pair_at s' a b q (mk_pair (bip_buffer_init garbage) (bip_buffer_init garbage) (Some a) 2)))
  | Undef _ => ~ two_free s
  | Stop _ => False
  end.
Proof.
  intros Hok Hg. unfold adb_socketpair. pose proof (alloc_spec s PairClass Hok) as Ha.
  destruct (_fh_alloc s PairClass) as [[a|] s1] eqn:Ea.
  2:{ destruct Ha as [-> Hall]. rewrite Ea. cbn. intros (i & j & Hi & _ & _ & Hu & _). by rewrite Hall in Hu. }
  destruct Ha as (Hai & Hau & Hok1 & _ & Hp1 & Hx1 & Hc1 & Hu1 & Hz1 & Hj1).
  pose proof (alloc_spec s1 PairClass Hok1) as Hb. cbn [snd].
  destruct (_fh_alloc s1 PairClass) as [[b|] s2] eqn:Eb.
  2:{ destruct Hb as [-> Hall]. cbn. intros (i & j & Hi & Hj & Hne & Hui & Huj).
      destruct (decide (i = a)) as [->|Hia]; [rewrite <- Hj1, Hall in Huj by congruence|rewrite <- Hj1, Hall in Hui by congruence]; done. }
  destruct Hb as (Hbi & Hbu & Hok2 & _ & Hp2 & Hx2 & Hc2 & Hu2 & Hz2 & Hj2). cbn [snd].
  assert (a <> b) as Hab by (intros ->; by rewrite Hu1 in Hbu).
  assert (used (get_fh s b) = false) as Hbu' by (by rewrite <- Hj1).
  destruct (malloc_ok (world s2)) eqn:Em.
  - set (q := next_pair s2). set (p := mk_pair _ _ _ _). set (s' := set_socket _ b q).
    assert (joined s2 a b q p s') as Hjoin.
    { split; [done|]. split; [cbn; by rewrite !length_insert|]. split; [done|]. split; [done|]. intros j.
      pose proof Hok2 as [(Hl2 & _) _]. unfold s', set_socket. rewrite get_put_fh by (cbn; rewrite length_insert; lia).
      rewrite !get_put_fh by (cbn; lia). repeat case_decide; subst; naive_solver. }
    assert (forall i, i = a \/ i = b -> used (get_fh s2 i) = true /\ clazz (get_fh s2 i) = Some PairClass /\ u (get_fh s2 i) = 0) as Hends.
    { intros i [->| ->]; [|auto]. rewrite Hj2 by done. auto. }
    assert (ok s') as Hok'.
    { apply (ok_joined s2 a b p s'); try done; [|by apply init_wf..]. intros i Hi. by destruct (Hends i Hi) as (_ & ? & ?). }
    destruct Hjoin as (_ & _ & Hp' & _ & Hg').
    assert (forall i, i = a \/ i = b -> used (get_fh s' i) = true) as Hused.
    { intros i Hi. rewrite Hg', decide_True by done. cbn. by apply Hends. }
    assert (_fh_to_int s' (Some a) = Z.of_nat a + WIN32_FH_BASE /\ _fh_to_int s' (Some b) = Z.of_nat b + WIN32_FH_BASE) as [-> ->].
    { unfold _fh_to_int. by rewrite !Hused, (proj2 (Nat.ltb_lt _ _) Hai), (proj2 (Nat.ltb_lt _ _) Hbi) by auto. }
    assert (forall i, Z.to_nat (Z.of_nat i + WIN32_FH_BASE - WIN32_FH_BASE) = i) as Hid by lia.
    split; [done|]. split.
    { apply (frame_but2 _ _ a b Hau Hbu'). intros j Hja Hjb. rewrite Hg', decide_False by naive_solver. by rewrite Hj2, Hj1. }
    right. split; [done|]. rewrite !open_used, !Hid, Hau, Hbu', !andb_false_r by done. do 2 (split; [done|]). split.
    + intros fd. rewrite !open_used by done. destruct (Z.leb_spec WIN32_FH_BASE fd); cbn [andb orb].
      2:{ symmetry. apply orb_false_iff. rewrite !Z.eqb_neq. unfold WIN32_FH_BASE in *. lia. }
      destruct (Z.eqb_spec fd (Z.of_nat a + WIN32_FH_BASE)) as [->|Hna]; [rewrite Hid, Hused by auto; by rewrite !orb_true_r|].
      destruct (Z.eqb_spec fd (Z.of_nat b + WIN32_FH_BASE)) as [->|Hnb]; [rewrite Hid, Hused by auto; by rewrite !orb_true_r|].
      rewrite !orb_false_r, Hg', decide_False by lia. by rewrite Hj2, Hj1 by lia.
    + exists a, b, q. do 2 (split; [done|]). split; [destruct Hok2 as [_ [? _]]; lia|]. split; [by rewrite Hp', lookup_insert_eq|].
      split; [done|]. split; [done|]. intros i Hi. split; [apply from_int_used; auto|].
      rewrite Hg', decide_True by done. cbn. by destruct (Hends i Hi) as (_ & ? & _).
  - destruct (close_spec s2 b Hok2 Hbi) as (s3 & E3 & Hok3 & Hu3 & Hj3 & _). rewrite E3. cbn [mbind outcome_bind].
    destruct (close_spec s3 a Hok3 Hai) as (s4 & E4 & Hok4 & Hu4 & Hj4 & _). rewrite E4. cbn [mbind outcome_bind].
    split; [done|]. split.
    { apply (frame_but2 _ _ a b Hau Hbu'). intros j Hja Hjb. by rewrite Hj4, Hj3, Hj2, Hj1. }
    left. do 2 (split; [done|]). apply open_ext; try done. intros i.
    destruct (decide (i = a)) as [->|Hna]; [by rewrite Hu4|]. rewrite Hj4 by done.
    destruct (decide (i = b)) as [->|Hnb]; [by rewrite Hu3|]. by rewrite Hj3, Hj2, Hj1.
Qed.

Lemma open_exact_opens (s : win W) :
  ok s ->
  (forall path options, opens s (adb_open s path options)) /\
  (forall path, opens s (adb_creat s path)) /\
  (forall port type, opens s (socket_loopback_client s port type)) /\
  (forall host port type, opens s (socket_network_client s host port type)) /\
  (forall port type, opens s (socket_inaddr_any_server s port type)) /\
  (forall fd, opens s (adb_socket_accept s fd)).
Proof.
  intros Hok. split_and!.
  - intros path options. unfold adb_open. destruct (_ || _); [by apply opened_none|].
    destruct (_fh_alloc s FileClass) as [[i|] s1] eqn:E.
    + apply open_handle_opens; [done|]. by apply alloc_grown.
    + apply alloc_none in E as ->; [|done]. by apply opened_none.
  - intros path. unfold adb_creat. destruct (_fh_alloc s FileClass) as [[i|] s1] eqn:E.
    + apply open_handle_opens; [done|]. by apply alloc_grown.
    + apply alloc_none in E as ->; [|done]. by apply opened_none.
  - intros port type. unfold socket_loopback_client. destruct (_fh_alloc s SocketClass) as [[i|] s1] eqn:E.
    2:{ apply alloc_none in E as ->; [|done]. by apply opened_none. }
    apply (winsock_opens s i s1); [done|by apply alloc_grown|]. intros s2 Hg. destruct (socket _ _ _) as [v w].
    destruct (v =? INVALID); [eauto with win32|]. destruct (connect _ _ _) as [r w2]. destruct (r <? 0); eauto with win32.
  - intros host port type. unfold socket_network_client. destruct (_fh_alloc s SocketClass) as [[i|] s1] eqn:E.
    2:{ apply alloc_none in E as ->; [|done]. by apply opened_none. }
    apply (winsock_opens s i s1); [done|by apply alloc_grown|]. intros s2 Hg.
    destruct (gethostbyname _ _) as [[family addr]|]; [|eauto with win32]. destruct (socket _ _ _) as [v w].
    destruct (v =? INVALID); [eauto with win32|]. destruct (connect _ _ _) as [r w2]. destruct (r <? 0); eauto with win32.
  - intros port type. unfold socket_inaddr_any_server. destruct (_fh_alloc s SocketClass) as [[i|] s1] eqn:E.
    2:{ apply alloc_none in E as ->; [|done]. by apply opened_none. }
    apply (winsock_opens s i s1); [done|by apply alloc_grown|]. intros s2 Hg. destruct (socket _ _ _) as [v w].
    destruct (v =? INVALID); [eauto with win32|]. apply serve_opens; eauto with win32.
  - intros fd. unfold adb_socket_accept. destruct (_fh_from_int s fd) as [[j|] s0] eqn:E0.
    2:{ apply opened_none; [done|]. revert E0. unfold _fh_from_int. by repeat case_match; intros [= <-]. }
    assert (s0 = s) as -> by (revert E0; unfold _fh_from_int; by repeat case_match; intros [= _ <-]).
    destruct (negb _); [by apply opened_none|]. destruct (_fh_alloc s SocketClass) as [[i|] s1] eqn:E.
    2:{ apply alloc_none in E as ->; [|done]. by apply opened_none. }
    destruct (accept _ _) as [v w]. destruct (v =? INVALID); eauto using alloc_grown with win32.
Qed.

(** ** Any use of the descriptors *)

Inductive call :=
| COpen (path : bytes) (options : Z) | CCreat (path : bytes)
| CLoopbackClient (port type : Z) | CLoopbackServer (port type : Z)
| CNetworkClient (host : bytes) (port type : Z) | CAnyServer (port type : Z) | CAccept (fd : Z)
| CPair (garbage : bytes)
| CRead (fd len : Z) | CWrite (fd : Z) (d : bytes) | CSeek (fd pos where_ : Z) | CShutdown (fd : Z) | CClose (fd : Z).

Definition state_of {A} (o : outcome (A * win W)) : outcome (win W) := '(_, s) ← o; Done s.

Definition run (s : win W) (c : call) : option (outcome (win W)) :=
  match c with
  | COpen path options => Some (state_of (adb_open s path options))
  | CCreat path => Some (state_of (adb_creat s path))
  | CLoopbackClient port type => Some (state_of (socket_loopback_client s port type))
  | CLoopbackServer port type => Some (state_of (socket_loopback_server s port type))
  | CNetworkClient host port type => Some (state_of (socket_network_client s host port type))
  | CAnyServer port type => Some (state_of (socket_inaddr_any_server s port type))
  | CAccept fd => Some (state_of (adb_socket_accept s fd))
  | CPair garbage => Some (state_of (adb_socketpair s garbage))
  | CRead fd len => state_of <$> adb_read s fd len
  | CWrite fd d => state_of <$> adb_write s fd d
  | CSeek fd pos where_ => Some (state_of (adb_lseek s fd pos where_))
  | CShutdown fd => Some (Done (adb_shutdown s fd).2)
  | CClose fd => Some (state_of (adb_close s fd))
  end.

(** Memory for a pair has the size of its buffers. *)
Definition call_ok (c : call) : Prop :=
  match c with CPair garbage => length garbage = Z.to_nat BIP_BUFFER_SIZE | _ => True end.

Inductive reach : win W -> Prop :=
| reach_init w : reach (win_init w)
| reach_call s c s' : reach s -> call_ok c -> run s c = Some (Done s') -> reach s'.

(** What a call does to a good state. *)
Definition safe (s : win W) (c : call) (o : option (outcome (win W))) : Prop :=
  match o with
  | Some (Done s') =>
      ok s' /\ forall i, used (get_fh s i) = true -> c <> CClose (Z.of_nat i + WIN32_FH_BASE) -> keeps s s' i
  | Some (Stop _) => winsock s = false
  | Some (Undef _) => (exists garbage, c = CPair garbage) /\ ~ two_free s
  | None => True
  end.

Lemma opens_safe s c o : opens s o -> safe s c (Some (state_of o)).
Proof. destruct o as [[r s']| |]; cbn; [|done..]. intros (Hok & Hf & _). split; [done|]. intros i Hi _. by apply Hf. Qed.

Lemma calm_safe s c s' : calm s s' -> safe s c (Some (Done s')).
Proof. intros [Hok Hf]. split; [done|]. intros i Hi _. by apply Hf. Qed.

Lemma fine_safe {A} s c (o : option (outcome (A * win W))) : fine (fun _ => calm s) o -> safe s c (state_of <$> o).
Proof. destruct o as [[[a s']| |]|]; cbn; try done. apply calm_safe. Qed.

Lemma loopback_server_safe s c port type : ok s -> safe s c (Some (state_of (socket_loopback_server s port type))).
Proof.
  intros Hok. unfold socket_loopback_server. destruct (_fh_alloc s SocketClass) as [[i|] s1] eqn:E.
  2:{ apply alloc_none in E as ->; [|done]. apply calm_safe. by apply calm_same. }
  pose proof (alloc_winsock s SocketClass) as Ew. rewrite E in Ew. cbn in Ew.
  pose proof (init_winsock_grown SocketClass s i s1 Ew (alloc_grown s SocketClass i s1 Hok E)) as Hg.
  destruct (_init_winsock s1) as [s2| |]; [|done..]. cbn [mbind outcome_bind]. destruct (socket _ _ _) as [v w].
  destruct (v =? INVALID).
  { destruct Hg as (Hok2 & _ & Hu & _ & _ & Hj). split; [by apply ok_world|]. intros j Hjused _. by apply (frame_but s _ i Hu Hj). }
  apply opens_safe, serve_opens; eauto with win32.
Qed.

Lemma run_safe s c : ok s -> call_ok c -> safe s c (run s c).
Proof.
  intros Hok Hc. destruct (open_exact_opens s Hok) as (H1 & H2 & H3 & H4 & H5 & H6). destruct c; cbn [run].
  - apply opens_safe, H1.
  - apply opens_safe, H2.
  - apply opens_safe, H3.
  - by apply loopback_server_safe.
  - apply opens_safe, H4.
  - apply opens_safe, H5.
  - apply opens_safe, H6.
  - pose proof (socketpair_spec s garbage Hok Hc) as Hp. destruct (adb_socketpair s garbage) as [[[r [x y]] s']| |]; cbn; [|done|eauto].
    destruct Hp as (? & Hf & _). by apply calm_safe.
  - by apply fine_safe, adb_read_ok.
  - by apply fine_safe, adb_write_ok.
  - change (Some (state_of ?o)) with (state_of <$> Some o). by apply fine_safe, adb_lseek_ok.
  - apply calm_safe. unfold adb_shutdown. destruct (from_int_cases s fd) as [(s' & -> & Hs)|[-> _]]; by apply calm_same.
  - pose proof (adb_close_ok s fd Hok) as Hcl. destruct (adb_close s fd) as [[r s']| |]; cbn in *; try done.
    destruct Hcl as (? & Hk & _). split; [done|]. intros i Hi Hne. apply Hk; congruence.
Qed.

Lemma reach_ok s : reach s -> ok s.
Proof.
  induction 1 as [w|s c s' _ IH Hc E]; [apply win_init_ok|]. pose proof (run_safe s c IH Hc) as Hs. rewrite E in Hs. apply Hs.
Qed.

(** Opening a descriptor, whatever the system answers: a function that
    returns -1 leaves exactly the descriptors open that were, so that a failure
    leaks none, and a function that succeeds returns one that was not open, between
    100 and 227, and opens that one only.  The process is stopped only when the
    socket library cannot be started. *)
Theorem open_exact (s : win W) :
  reach s ->
  (forall path options, opens s (adb_open s path options)) /\
  (forall path, opens s (adb_creat s path)) /\
  (forall port type, opens s (socket_loopback_client s port type)) /\
  (forall host port type, opens s (socket_network_client s host port type)) /\
  (forall port type, opens s (socket_inaddr_any_server s port type)) /\
  (forall fd, opens s (adb_socket_accept s fd)).
Proof. intros Hs. by apply open_exact_opens, reach_ok. Qed.

(** C19 (safety). However descriptors are used, no call reaches freed or null memory,
    with one exception: asking for a socket pair when fewer than two slots of the
    table are free.  Closing a descriptor closes that one and no other. *)
Theorem descriptors_safe (s : win W) (c : call) :
  reach s -> call_ok c ->
  match run s c with
  | Some (Undef _) => (exists garbage, c = CPair garbage) /\ ~ two_free s
  | Some (Stop _) => winsock s = false
  | _ => True
  end /\
  forall fd, exists r s', adb_close s fd = Done (r, s') /\ forall fd', open s' fd' = open s fd' && negb (fd' =? fd).
Proof.
  intros Hs Hc. apply reach_ok in Hs. split.
  - pose proof (run_safe s c Hs Hc) as H1. destruct (run s c) as [[]|]; done.
  - intros fd. pose proof (adb_close_ok s fd Hs) as H1. destruct (adb_close s fd) as [[r s']| |]; [|done..].
    destruct H1 as (_ & _ & H1). eauto.
Qed.

(** ** Bytes through a pair *)

(** The descriptor of slot [i], an end of the pair [p] at [q]. *)
Definition end_at (s : win W) (i : nat) (q : Z) (p : SocketPair) : Prop :=
  _fh_from_int s (Z.of_nat i + WIN32_FH_BASE) = (Some i, s) /\ clazz (get_fh s i) = Some PairClass /\
  u (get_fh s i) = q /\ q <> 0 /\ pairs s !! q = Some p.

Lemma from_int_same s s' fd i :
  fh_count s' = fh_count s -> used (get_fh s' i) = used (get_fh s i) ->
  _fh_from_int s fd = (Some i, s) -> _fh_from_int s' fd = (Some i, s').
Proof.
  intros Hn Hu. unfold _fh_from_int. rewrite Hn. case_match; [done|].
  destruct (used (get_fh s (Z.to_nat (fd - WIN32_FH_BASE)))) eqn:E; cbn [negb]; [|done]. intros E'. injection E' as <-. by rewrite Hu, E.
Qed.

Lemma end_put_pair s i q p p' : end_at s i q p -> end_at (put_pairs s (<[q := p']> (pairs s))) i q p'.
Proof.
  intros (Hf & Hc & Hu & Hq & Hp). split; [by apply (from_int_same s)|]. do 3 (split; [done|]). apply lookup_insert_eq.
Qed.

(** Writing into a pipe with room and reading what is in one. *)
Lemma end_write s i q p d :
  end_at s i q p -> wf (write_end p i) -> can_write (write_end p i) = true -> d <> [] ->
  Z.of_nat (length d) <= free_space (write_end p i) ->
  exists b, adb_write s (Z.of_nat i + WIN32_FH_BASE) d =
      Some (Done (Z.of_nat (length d), put_pairs s (<[q := put_write_end p i b]> (pairs s)))) /\
    wf b /\ can_read b = true /\ contents b = contents (write_end p i) ++ d.
Proof.
  intros (Hf & Hc & Hu & Hq & Hp) Hwf Hw Hd Hlen. unfold adb_write. rewrite Hf, Hc. unfold _fh_socketpair_write.
  rewrite Hu, (proj2 (Z.eqb_neq _ _) Hq), Hp.
  rewrite (proj2 (Z.leb_gt _ _)) by (destruct d; [done|cbn; lia]). unfold write_now. rewrite Hw.
  destruct (write_locked_spec _ d Hwf Hw Hd) as (n & b & -> & Hwf' & _ & Hn & Hk & Hr). cbn.
  assert (n = Z.of_nat (length d)) as -> by lia. exists b. split; [done|]. split; [done|]. split; [apply Hr|].
  rewrite Hk, take_ge by lia. done.
Qed.

Lemma end_read s i q p len :
  end_at s i q p -> wf (read_end p i) -> can_read (read_end p i) = true -> 0 < len ->
  exists s' b, let d := take (Z.to_nat len) (contents (read_end p i)) in
    adb_read s (Z.of_nat i + WIN32_FH_BASE) len = Some (Done (Z.of_nat (length d), d, s')) /\
    end_at s' i q (put_read_end p i b) /\ wf b /\ closed b = closed (read_end p i) /\
    contents b = drop (Z.to_nat len) (contents (read_end p i)).
Proof.
  intros He Hwf Hr Hlen. pose proof He as (Hf & Hc & Hu & Hq & Hp). unfold adb_read. rewrite Hf, Hc. unfold _fh_socketpair_read.
  rewrite Hu, (proj2 (Z.eqb_neq _ _) Hq), Hp, (proj2 (Z.leb_gt _ _) Hlen). unfold read_now. rewrite Hr.
  destruct (read_locked_spec _ len Hwf Hr Hlen) as (d & b & -> & ? & _ & -> & Hk & Hcl & _). cbn.
  eexists _, b. split; [done|]. split; [by apply (end_put_pair s i q p)|]. by split_and!.
Qed.

(** Closing one end: the other keeps its pipes, closed. *)
Definition closed_pair (p : SocketPair) (i : nat) : SocketPair :=
  mk_pair (bip_buffer_close (a2b_bip p)) (bip_buffer_close (b2a_bip p))
    (if decide (a_fd p = Some i) then None else a_fd p) (users p - 1).

Lemma end_close s i j q p :
  end_at s i q p -> end_at s j q p -> i <> j -> (i < length (fhs s))%nat -> users p = 2 ->
  exists s', adb_close s (Z.of_nat i + WIN32_FH_BASE) = Done (0, s') /\ end_at s' j q (closed_pair p i).
Proof.
  intros (Hf & Hc & Hu & Hq & Hp) (Hf' & Hc' & Hu' & _) Hij Hi Husers. unfold adb_close. rewrite Hf. unfold _fh_close.
  cbn [deref mbind outcome_bind]. assert (used (get_fh s i) = true) as ->.
  { revert Hf. unfold _fh_from_int. case_match; [done|]. destruct (used (get_fh s (Z.to_nat _))) eqn:E; [|done]. cbn. intros E'. by injection E' as <-. }
  rewrite Hc. cbn [deref mbind outcome_bind]. unfold _fh_socketpair_close. rewrite Hu, (proj2 (Z.eqb_neq _ _) Hq), Hp.
  cbn [deref mbind outcome_bind]. fold (closed_pair p i). assert ((users (closed_pair p i) =? 0) = false) as -> by (apply Z.eqb_neq; cbn; lia).
  eexists. split; [done|]. set (s' := put_fh _ i _).
  assert (get_fh s' j = get_fh s j) as Hg.
  { unfold s'. rewrite get_put_fh by (cbn; by rewrite length_insert). rewrite decide_False by done.
    rewrite get_put_fh by (cbn; done). by rewrite decide_False. }
  unfold end_at. rewrite Hg. split; [apply (from_int_same s); by rewrite ?Hg|]. do 3 (split; [done|]).
  cbn. apply lookup_insert_eq.
Qed.

(** Nothing left: an open pipe would wait, a closed one fails. *)
Lemma end_read_empty s i q p :
  end_at s i q p -> wf (read_end p i) -> contents (read_end p i) = [] ->
  if closed (read_end p i) then exists s', adb_read s (Z.of_nat i + WIN32_FH_BASE) 1 = Some (Done (-1, [], s'))
  else adb_read s (Z.of_nat i + WIN32_FH_BASE) 1 = None.
Proof.
  intros (Hf & Hc & Hu & Hq & Hp) Hwf Hk. unfold adb_read. rewrite Hf, Hc. unfold _fh_socketpair_read.
  rewrite Hu, (proj2 (Z.eqb_neq _ _) Hq), Hp. cbn [Z.leb Z.compare]. unfold read_now.
  assert (can_read (read_end p i) = false) as ->.
  { pose proof (contents_length _ (proj1 Hwf)) as Hl. rewrite Hk in Hl. destruct Hwf as [(_ & ? & ? & _) [-> _]].
    apply Z.ltb_ge. cbn in Hl. lia. }
  destruct (closed (read_end p i)); [by eexists|done].
Qed.

Lemma read_put_end p i b : read_end (put_read_end p i b) i = b.
Proof. unfold read_end, put_read_end. by destruct (is_a p i) eqn:E; unfold is_a in *; cbn; rewrite E. Qed.

(** From the end in slot [i] to the one in slot [j]. *)
Lemma transfer s i j q p d :
  end_at s i q p -> end_at s j q p -> i <> j -> (i < length (fhs s))%nat -> users p = 2 ->
  (forall b, read_end (put_write_end p i b) j = b) -> (forall b, read_end (closed_pair (put_write_end p i b) i) j = bip_buffer_close b) ->
  wf (write_end p i) -> can_write (write_end p i) = true -> closed (write_end p i) = false -> contents (write_end p i) = [] ->
  d <> [] -> Z.of_nat (length d) <= BIP_BUFFER_SIZE ->
  exists s2, let fd := Z.of_nat i + WIN32_FH_BASE in let fd' := Z.of_nat j + WIN32_FH_BASE in
    let n := Z.of_nat (length d) in
    adb_write s fd d = Some (Done (n, s2)) /\
    (exists s3, adb_read s2 fd' n = Some (Done (n, d, s3))) /\
    (exists s3 s4, adb_close s2 fd = Done (0, s3) /\ adb_read s3 fd' n = Some (Done (n, d, s4)) /\
       exists s5, adb_read s4 fd' 1 = Some (Done (-1, [], s5))).
Proof.
  intros Hi Hj Hij Hlt Hu Hrd Hcl Hwf Hw Hopen Hk Hd Hlen.
  destruct (end_write s i q p d Hi Hwf Hw Hd) as (b & E & Hwb & Hr & Hb).
  { unfold free_space. rewrite Hk. cbn. lia. }
  rewrite Hk in Hb. cbn in Hb. eexists. cbn zeta. split; [exact E|]. set (s2 := put_pairs _ _) in *.
  assert (0 < Z.of_nat (length d)) as Hn by (destruct d; [done|cbn; lia]).
  assert (take (Z.to_nat (Z.of_nat (length d))) d = d /\ drop (Z.to_nat (Z.of_nat (length d))) d = []) as [Htake Hdrop].
  { rewrite Nat2Z.id, take_ge, drop_ge by lia. done. }
  pose proof (end_put_pair s j q p (put_write_end p i b) Hj) as Hj2. pose proof (end_put_pair s i q p (put_write_end p i b) Hi) as Hi2.
  fold s2 in Hj2, Hi2. split.
  - destruct (end_read s2 j q _ (Z.of_nat (length d)) Hj2) as (s3 & b' & E3 & _); rewrite ?Hrd; try done.
    rewrite Hrd, Hb, Htake in E3. eauto.
  - destruct (end_close s2 i j q _ Hi2 Hj2 Hij Hlt) as (s3 & E3 & Hj3).
    { unfold put_write_end. by destruct (is_a p i). }
    destruct (end_read s3 j q _ (Z.of_nat (length d)) Hj3) as (s4 & b' & E4 & Hj4 & Hwf' & Hcl' & Hk'); rewrite ?Hcl in *; try done.
    change (contents (bip_buffer_close b)) with (contents b) in *. rewrite Hb, ?Htake, ?Hdrop in *.
    exists s3, s4. split; [done|]. split; [done|]. pose proof (end_read_empty s4 j q _ Hj4) as He.
    rewrite read_put_end, Hcl' in He. by apply He.
Qed.

(** A new socket pair has two fresh descriptors; up to 4096 bytes
    written to either are read, unchanged and in order, from the other, and so they
    are when the writing end has been closed in between; after them the read
    fails. *)
Theorem pair_roundtrip (s : win W) (garbage : bytes) (x y : Z) (s1 : win W) (d : bytes) :
  reach s -> length garbage = Z.to_nat BIP_BUFFER_SIZE -> adb_socketpair s garbage = Done (0, (x, y), s1) ->
  d <> [] -> Z.of_nat (length d) <= BIP_BUFFER_SIZE ->
  open s x = false /\ open s y = false /\ x <> y /\
  forall fd fd', (fd = x /\ fd' = y) \/ (fd = y /\ fd' = x) ->
    let n := Z.of_nat (length d) in
    exists s2, adb_write s1 fd d = Some (Done (n, s2)) /\
      (exists s3, adb_read s2 fd' n = Some (Done (n, d, s3))) /\
      (exists s3 s4, adb_close s2 fd = Done (0, s3) /\ adb_read s3 fd' n = Some (Done (n, d, s4)) /\
         exists s5, adb_read s4 fd' 1 = Some (Done (-1, [], s5))).
Proof.
  intros Hs Hg E Hd Hlen. apply reach_ok in Hs. pose proof (socketpair_spec s garbage Hs Hg) as Hp. rewrite E in Hp.
  destruct Hp as ([[Hl1 _] _] & _ & [(? & _)|(_ & Hx & Hy & _ & a & b & q & -> & -> & Hq & Hp & Ha & Hab & Hends)]); [done|].
  set (p := mk_pair _ _ _ _) in *. split; [done|]. split; [done|]. split; [lia|].
  assert (forall i, i = a \/ i = b -> end_at s1 i q p /\ (i < length (fhs s1))%nat) as He.
  { intros i Hi. destruct (Hends i Hi) as (Hf & Hc & Hu). split; [by split_and!|].
    unfold get_fh in Hc. destruct (fhs s1 !! i) eqn:El; [by apply lookup_lt_Some in El|done]. }
  pose proof (init_wf garbage Hg) as Hwf.
  assert (is_a p a = true /\ is_a p b = false) as [Hia Hib].
  { unfold is_a. split; [by apply bool_decide_eq_true|]. apply bool_decide_eq_false. cbn. intros [= ?]. done. }
  intros fd fd' [[-> ->]|[-> ->]].
  - destruct (He a ltac:(by left)) as [Hea Hla], (He b ltac:(by right)) as [Heb _].
    apply (transfer s1 a b q p d Hea Heb); try done.
    + intros b0. unfold put_write_end. rewrite Hia. unfold read_end, is_a in *. cbn in *. by rewrite Hib.
    + intros b0. unfold put_write_end. rewrite Hia. unfold read_end, is_a, closed_pair in *. cbn in *.
      rewrite decide_True by done. by rewrite bool_decide_false.
    + unfold write_end. by rewrite Hia.
    + unfold write_end. by rewrite Hia.
    + unfold write_end. by rewrite Hia.
    + unfold write_end. by rewrite Hia.
  - destruct (He a ltac:(by left)) as [Hea _], (He b ltac:(by right)) as [Heb Hlb].
    apply (transfer s1 b a q p d Heb Hea); try done.
    + intros b0. unfold put_write_end. rewrite Hib. unfold read_end, is_a in *. cbn in *. by rewrite Hia.
    + intros b0. unfold put_write_end. rewrite Hib. unfold read_end, is_a, closed_pair in *. cbn in *.
      rewrite decide_False by (intros [= ?]; done). by rewrite Hia.
    + unfold write_end. by rewrite Hib.
    + unfold write_end. by rewrite Hib.
    + unfold write_end. by rewrite Hib.
    + unfold write_end. by rewrite Hib.
Qed.
End table.

(** ** A system, and what happens on it

    Everything works, or nothing does. *)

#[local] Instance tiny_system : Win32 bool := {|
  GetLastError w := 2;
  CreateFile (w : bool) _ _ _ := (if w then 7 else INVALID, w);
  ReadFile w _ len := (if w then Some (replicate (Z.to_nat len) 0) else None, w);
  WriteFile w _ d := (if w then Some (Z.of_nat (length d)) else None, w);
  SetFilePointer w _ pos _ := (if w then Some pos else None, w);
  GetFileSize w _ := if w then 3 else 2 ^ 32 - 1;
  CloseHandle w _ := w;
  WSAStartup w := (0, w);
  WSAGetLastError w := WSAEWOULDBLOCK;
  WSACreateEvent w := (8, w);
  socket (w : bool) _ _ := (if w then 9 else INVALID, w);
  connect (w : bool) _ _ := (if w then 0 else -1, w);
  bind (w : bool) _ _ := (if w then 0 else -1, w);
  listen (w : bool) _ _ := (if w then 0 else -1, w);
  accept w _ := (if w then 10 else INVALID, w);
  exclusive w _ := w;
  nodelay w _ _ := w;
  recv w _ len := (if w then Some (replicate (Z.to_nat len) 0) else None, w);
  send w _ d := (if w then Some (Z.of_nat (length d)) else None, w);
  shutdown w _ := w;
  closesocket w _ := w;
  gethostbyname w _ := if w then Some (2, [127; 0; 0; 1]) else None;
  SOCK_STREAM := 1;
  AF_INET := 2;
  malloc_ok w := true
|}.

Lemma open_exact_witness :
  opens (win_init false) (adb_open (win_init false) (bs "f") 0) /\
  opens (win_init true) (socket_loopback_client (win_init true) 5037 1).
Proof.
  split.
  - apply (open_exact (win_init false) (reach_init false)).
  - apply (open_exact (win_init true) (reach_init true)).
Defined.

Lemma descriptors_safe_witness :
  match run (win_init true) (CPair (replicate 4096 0)) with
  | Some (Undef _) => (exists garbage, CPair (replicate 4096 0) = CPair garbage) /\ ~ two_free (win_init true)
  | Some (Stop _) => winsock (win_init true) = false
  | _ => True
  end /\
  forall fd, exists r s', adb_close (win_init true) fd = Done (r, s') /\
    forall fd', open s' fd' = open (win_init true) fd' && negb (fd' =? fd).
Proof. apply (descriptors_safe (win_init true) (CPair (replicate 4096 0)) (reach_init true)). by_compute. Defined.

(** The pair of a fresh process. *)
Definition first_pair : win bool :=
  match adb_socketpair (win_init true) (replicate 4096 0) with Done (_, _, s) => s | _ => win_init true end.

Lemma first_pair_made : adb_socketpair (win_init true) (replicate 4096 0) = Done (0, (100, 101), first_pair).
Proof. reflexivity. Qed.

Lemma pair_roundtrip_witness :
  exists s2, adb_write first_pair 100 [1; 2; 3] = Some (Done (3, s2)) /\
    (exists s3, adb_read s2 101 3 = Some (Done (3, [1; 2; 3], s3))) /\
    (exists s3 s4, adb_close s2 100 = Done (0, s3) /\ adb_read s3 101 3 = Some (Done (3, [1; 2; 3], s4)) /\
       exists s5, adb_read s4 101 1 = Some (Done (-1, [], s5))).
Proof.
  destruct (pair_roundtrip (win_init true) (replicate 4096 0) 100 101 first_pair [1; 2; 3]) as (_ & _ & _ & Hrt).
  - apply reach_init.
  - by_compute.
  - apply first_pair_made.
  - done.
  - by_compute.
  - apply (Hrt 100 101). by left.
Defined.

(** What load_file returns is the whole file or nothing, and the size says which. *)
Lemma load_file_whole {W} `{Win32 W} (w : W) fn d sz w' :
  load_file w fn = Done (d, sz, w') ->
  match d, sz with
  | Some d, Some n => Z.of_nat (length d) = n /\ 0 < n
  | None, Some n => n = 0
  | None, None => True
  | Some _, None => False
  end.
Proof.
  unfold load_file. destruct (CreateFile _ _ _ _) as [file w1]. destruct (file =? INVALID); [by intros [= <- <- _]|].
  destruct (Z.ltb_spec 0 (u32 (GetFileSize w1 file))); [|by intros [= <- <- _]]. destruct (malloc_ok w1); [|by intros [= <- <- _]].
  destruct (ReadFile _ _ _) as [[b|] w2]; [|by intros [= <- <- _]]. destruct (_ <? _); [done|].
  destruct (Z.eqb_spec (Z.of_nat (length b)) (u32 (GetFileSize w1 file))); by intros [= <- <- _].
Qed.

(** A size of 2^32 - 1, which is also GetFileSize's failure: the buffer has no bytes
    and all that is read goes past it. *)
Lemma load_file_overrun {W} `{Win32 W} (w w1 : W) fn file d w2 :
  CreateFile w fn GENERIC_READ OPEN_EXISTING = (file, w1) -> file <> INVALID -> malloc_ok w1 = true ->
  GetFileSize w1 file = 2 ^ 32 - 1 -> ReadFile w1 file (2 ^ 32 - 1) = (Some d, w2) -> d <> [] ->
  load_file w fn = Undef "data".
Proof.
  intros E1 Hne Hm E2 E3 Hd. unfold load_file. rewrite E1, (proj2 (Z.eqb_neq _ _) Hne), E2, Hm.
  change (u32 (2 ^ 32 - 1)) with (2 ^ 32 - 1). change (0 <? 2 ^ 32 - 1) with true. rewrite E3.
  change (u32 (2 ^ 32 - 1 + 1)) with 0. destruct d; [done|]. by rewrite (proj2 (Z.ltb_lt 0 _)) by (cbn; lia).
Qed.

(** socket_loopback_server forgets the descriptor when no socket can be made: it
    returns -1 and descriptor 100 stays taken. *)
Lemma loopback_server_leaks :
  exists s', socket_loopback_server (win_init false) 5037 1 = Done (-1, s') /\
    open (win_init false) 100 = false /\ open s' 100 = true.
Proof. eexists. split; [reflexivity|]. by_compute. Qed.

(** 127 files are open: the pair's second descriptor is NULL, and so is what
    _fh_close is given. *)
Definition crowded : win bool :=
  Nat.iter 127 (fun s => match adb_creat s (bs "f") with Done (_, s') => s' | _ => s end) (win_init true).

Lemma socketpair_null :
  open crowded 226 = true /\ open crowded 227 = false /\
  adb_socketpair crowded (replicate 4096 0) = Undef "f->used".
Proof. vm_compute. done. Qed.

(** adb_shutdown of a file hands the file's handle to the socket library. *)
Lemma shutdown_any_class :
  exists s, adb_open (win_init true) (bs "f") 0 = Done (100, s) /\ (adb_shutdown s 100).1 = 0 /\
    clazz (get_fh s 0) = Some FileClass.
Proof. eexists. split; [reflexivity|]. vm_compute. done. Qed.
