(* ===== verification/WinEvent.v ===== *)
(** * Events of the Windows build (the fdevent emulation of tools/adb/sysdeps_win32.c)

    The same interface as fdevent.c, on hooks: one [hook] per watched descriptor,
    with the functions that its class installed ([kind]), kept in the list of
    [win32_looper].  The fdevents, the pending list and the fd table are those of
    the file; the descriptors are the table of Win32.  Waiting is a call of the
    system that may change the pipes, because other threads run meanwhile.  The
    theorems show that hooks, fd table and descriptors stay consistent under any
    use, that a ready pipe reaches its fdevent, and where readiness is reported
    wrongly. *)

From S2P Require Import Prelude Dlist Fdevent Bip Win32.
Import Fdevent.

(** What [hook->h] holds: a handle of the system, or the event of one side of a
    pipe of the socket pair at [q]. *)
Inductive handle := Handle (v : Z) | PipeEvent (q : Z) (a2b : bool) (reading : bool).
#[export] Instance handle_eq_dec : EqDecision handle.
Proof. solve_decision. Defined.
Definition INVALID_HANDLE_VALUE : handle := Handle INVALID.

(** WSANETWORKEVENTS *)
Record network_events := mk_evts { lNetworkEvents : Z; iErrorCode : list Z }.

Definition FD_READ : Z := 1.
Definition FD_WRITE : Z := 2.
Definition FD_OOB : Z := 4.
Definition FD_ACCEPT : Z := 8.
Definition FD_CONNECT : Z := 16.
Definition FD_CLOSE : Z := 32.

Definition MAXIMUM_WAIT_OBJECTS : Z := 64.
Definition WAIT_FAILED : Z := -1.

(** The calls of the system for events.  WaitForMultipleObjects also gives the
    pipes as other threads left them; [None]: it never returns. *)
Class WinEvents (W : Type) := {
  WSAEnumNetworkEvents : W -> Z -> option handle -> option network_events * W;
  WSAEventSelect : W -> Z -> Z -> Z -> bool * W;               (* [true]: success *)
  ResetEvent : W -> handle -> W;
  WaitForMultipleObjects : W -> gmap Z SocketPair -> list handle -> option (Z * gmap Z SocketPair * W);
  hook_malloc_ok : W -> bool
}.

(** [fh] is the index of the descriptor; [kind] the class whose functions the
    prepare, start, stop, check and peek pointers are, none when they are null. *)
Record hook := mk_hook { fh : option nat; h : handle; wanted : Z; ready : Z; kind : option fh_class }.

Section events.
Context {W : Type} `{Win32 W} `{WinEvents W}.

(** [pend] is [list_pending], [table] is [fd_table], [free_hooks] the number of
    hooks on [_free_hooks]. *)
Record looper := mk_looper {
  desc : win W; fdes : gmap ptr fdevent; pend : list ptr; table : list (option ptr);
  hooks : list hook; free_hooks : nat
}.

Definition looper_init (w : W) : looper := mk_looper (win_init w) ∅ [] [] [] 0.

Definition put_desc (s : looper) (d : win W) : looper :=
  mk_looper d (fdes s) (pend s) (table s) (hooks s) (free_hooks s).
Definition put_fde (s : looper) (p : ptr) (f : fdevent) : looper :=
  mk_looper (desc s) (<[p := f]> (fdes s)) (pend s) (table s) (hooks s) (free_hooks s).
Definition put_pend (s : looper) (l : list ptr) : looper :=
  mk_looper (desc s) (fdes s) l (table s) (hooks s) (free_hooks s).
Definition put_table (s : looper) (t : list (option ptr)) : looper :=
  mk_looper (desc s) (fdes s) (pend s) t (hooks s) (free_hooks s).
Definition put_hooks (s : looper) (l : list hook) (n : nat) : looper :=
  mk_looper (desc s) (fdes s) (pend s) (table s) l n.

Definition get_fde (s : looper) (p : ptr) : outcome fdevent := deref "fdevent" (fdes s !! p).

Definition with_h (k : hook) (v : handle) : hook := mk_hook (fh k) v (wanted k) (ready k) (kind k).
Definition with_wanted (k : hook) (v : Z) : hook := mk_hook (fh k) (h k) v (ready k) (kind k).
Definition with_ready (k : hook) (v : Z) : hook := mk_hook (fh k) (h k) (wanted k) v (kind k).
Definition with_kind (k : hook) (c : fh_class) : hook := mk_hook (fh k) (h k) (wanted k) (ready k) (Some c).

(** [hook->ready |= bits] when [cond] *)
Definition raise (cond : bool) (bits : Z) (k : hook) : hook :=
  if cond then with_ready k (Z.lor (ready k) bits) else k.

(** ** The classes' functions on a hook *)

(** Files: always ready. *)
Definition _event_file_prepare (k : hook) : hook :=
  raise (has (wanted k) (Z.lor FDE_READ FDE_WRITE)) (Z.land (wanted k) (Z.lor FDE_READ FDE_WRITE)) k.
Definition _event_file_peek (k : hook) : bool := has (wanted k) (Z.lor FDE_READ FDE_WRITE).
Definition _fh_file_hook (d : win W) (i : nat) (k : hook) : hook :=
  with_kind (with_h k (Handle (u (get_fh d i)))) FileClass.

(** Sockets. *)
Definition error_code (e : network_events) (i : Z) : Z := default 0 (iErrorCode e !! Z.to_nat i).

Definition _event_socket_verify (k : hook) (e : network_events) : hook :=
  let n := lNetworkEvents e in
  let k := if has n (Z.lor FD_READ (Z.lor FD_ACCEPT FD_CLOSE)) then
             raise (negb (error_code e FD_READ =? 0) && has (wanted k) FDE_ERROR) FDE_ERROR
               (raise (has (wanted k) FDE_READ) FDE_READ k)
           else k in
  let k := if has n (Z.lor FD_WRITE (Z.lor FD_CONNECT FD_CLOSE)) then
             raise (negb (error_code e FD_WRITE =? 0) && has (wanted k) FDE_ERROR) FDE_ERROR
               (raise (has (wanted k) FDE_WRITE) FDE_WRITE k)
           else k in
  if has n FD_OOB then raise (has (wanted k) FDE_ERROR) FDE_ERROR k else k.

Definition _event_socket_prepare (d : win W) (i : nat) (k : hook) : hook * win W :=
  let '(e, w) := WSAEnumNetworkEvents (world d) (u (get_fh d i)) None in
  (match e with Some e => _event_socket_verify k e | None => k end, put_world d w).

Definition _socket_wanted_to_flags (wanted : Z) : Z :=
  Z.lor (if has wanted FDE_READ then Z.lor FD_READ (Z.lor FD_ACCEPT FD_CLOSE) else 0)
  (Z.lor (if has wanted FDE_WRITE then Z.lor FD_WRITE (Z.lor FD_CONNECT FD_CLOSE) else 0)
         (if has wanted FDE_ERROR then FD_OOB else 0)).

Definition with_mask (f : FH) (m : Z) : FH := mk_FH (clazz f) (used f) (eof f) (u f) (event f) m.

Definition _event_socket_start (d : win W) (i : nat) (k : hook) : outcome (bool * hook * win W) :=
  let f := get_fh d i in
  let flags := _socket_wanted_to_flags (wanted k) in
  let k := with_h k (Handle (event f)) in
  if event f =? INVALID then Done (false, k, d)
  else if flags =? mask f then Done (true, k, d)
  else
    let '(ok, w) := WSAEventSelect (world d) (u f) (event f) flags in
    if ok then Done (true, k, put_fh (put_world d w) i (with_mask f flags))
    else Stop "exit(1)".

Definition _event_socket_stop (k : hook) : hook := with_h k INVALID_HANDLE_VALUE.

Definition _event_socket_check (d : win W) (i : nat) (k : hook) : bool * hook * win W :=
  let '(e, w) := WSAEnumNetworkEvents (world d) (u (get_fh d i)) (Some (h k)) in
  match e with
  | Some e =>
      let k := _event_socket_verify k e in
      if ready k =? 0 then (false, k, put_world d w)
      else (true, k, put_world d (ResetEvent w (h k)))
  | None => (false, k, put_world d w)
  end.

Definition _event_socket_peek (d : win W) (i : nat) (k : hook) : bool * hook * win W :=
  let '(e, w) := WSAEnumNetworkEvents (world d) (u (get_fh d i)) None in
  match e with
  | Some e =>
      let k := _event_socket_verify k e in
      (negb (ready k =? 0), k, put_world d (if ready k =? 0 then w else ResetEvent w (h k)))
  | None => (negb (ready k =? 0), k, put_world d w)
  end.

(** The result of _event_socket_start is not looked at. *)
Definition _fh_socket_hook (d : win W) (i : nat) (k : hook) : outcome (hook * win W) :=
  '(_, k, d) ← _event_socket_start d i (with_kind k SocketClass);
  Done (k, d).

(** Socket pairs: [rbip] and [wbip] of end [i]. *)
Definition _event_socketpair_prepare (d : win W) (i : nat) (k : hook) : outcome hook :=
  p ← deref "pair" (pairs d !! u (get_fh d i));
  Done (raise (has (wanted k) FDE_WRITE && can_write (write_end p i)) FDE_WRITE
         (raise (has (wanted k) FDE_READ && can_read (read_end p i)) FDE_READ k)).

Definition _event_socketpair_start (d : win W) (i : nat) (k : hook) : outcome (bool * hook) :=
  let q := u (get_fh d i) in
  p ← deref "pair" (pairs d !! q);
  if wanted k =? FDE_READ then Done (true, with_h k (PipeEvent q (negb (is_a p i)) true))
  else if wanted k =? FDE_WRITE then Done (true, with_h k (PipeEvent q (is_a p i) false))
  else Done (false, k).

Definition _event_socketpair_peek (d : win W) (i : nat) (k : hook) : outcome (bool * hook) :=
  k ← _event_socketpair_prepare d i k;
  Done (negb (ready k =? 0), k).

Definition _fh_socketpair_hook (k : hook) : hook := with_kind k PairClass.

(** *** Calls through the hook's pointers *)

Definition the_fh (k : hook) : outcome nat := deref "hook->fh" (fh k).

Definition prepare (d : win W) (k : hook) : outcome (hook * win W) :=
  match kind k with
  | None => Done (k, d)
  | Some FileClass => Done (_event_file_prepare k, d)
  | Some SocketClass => i ← the_fh k; Done (_event_socket_prepare d i k)
  | Some PairClass => i ← the_fh k; k ← _event_socketpair_prepare d i k; Done (k, d)
  end.

(** [!hook->start || hook->start(hook)] *)
Definition start (d : win W) (k : hook) : outcome (bool * hook * win W) :=
  match kind k with
  | None | Some FileClass => Done (true, k, d)
  | Some SocketClass => i ← the_fh k; _event_socket_start d i k
  | Some PairClass => i ← the_fh k; '(ok, k) ← _event_socketpair_start d i k; Done (ok, k, d)
  end.

Definition stop (k : hook) : hook :=
  match kind k with Some SocketClass => _event_socket_stop k | _ => k end.

(** [!hook->check || hook->check(hook)] *)
Definition check (d : win W) (k : hook) : outcome (bool * hook * win W) :=
  match kind k with
  | Some SocketClass => i ← the_fh k; Done (_event_socket_check d i k)
  | _ => Done (true, k, d)
  end.

(** [hook->peek && hook->peek(hook)] *)
Definition peek (d : win W) (k : hook) : outcome (bool * hook * win W) :=
  match kind k with
  | None => Done (false, k, d)
  | Some FileClass => Done (_event_file_peek k, k, d)
  | Some SocketClass => i ← the_fh k; Done (_event_socket_peek d i k)
  | Some PairClass => i ← the_fh k; '(r, k) ← _event_socketpair_peek d i k; Done (r, k, d)
  end.

(** ** Hooks and the looper *)

(** A hook from the free list or from malloc. *)
Definition event_hook_alloc (s : looper) (i : nat) : outcome (hook * looper) :=
  let k := mk_hook (Some i) INVALID_HANDLE_VALUE 0 0 None in
  match free_hooks s with
  | S n => Done (k, put_hooks s (hooks s) n)
  | O => if hook_malloc_ok (world (desc s)) then Done (k, s) else Stop "could not allocate event hook"
  end.

Definition event_hook_free (s : looper) : looper := put_hooks s (hooks s) (S (free_hooks s)).

Definition plist_enqueue (s : looper) (p : ptr) : looper := put_pend s (pend s ++ [p]).
Definition plist_remove (s : looper) (p : ptr) : looper := put_pend s (filter (fun q => q <> p) (pend s)).

Definition event_hook_signal (s : looper) (k : hook) : outcome looper :=
  let fd' := _fh_to_int (desc s) (fh k) in
  if fd' - WIN32_FH_BASE <? 0 then Undef "fd_table" else
  e ← deref "fd_table" (table s !! Z.to_nat (fd' - WIN32_FH_BASE));
  match e with
  | None => Done s
  | Some p =>
      f ← get_fde s p;
      if fd f =? fd' then
        let s := if has (state f) FDE_PENDING then s
                 else plist_enqueue (put_fde s p (set_state f (Z.lor (state f) FDE_PENDING))) p in
        f ← get_fde s p;
        Done (put_fde s p (set_events f (Z.lor (events f) (wanted k))))
      else Done s
  end.

(** The position of the hook of [f], the length of the list when there is none. *)
Fixpoint event_looper_find_p (l : list hook) (f : option nat) : nat :=
  match l with
  | [] => O
  | k :: l => if decide (fh k = f) then O else S (event_looper_find_p l f)
  end.

(** [f->clazz->_fh_hook] *)
Definition _fh_hook (d : win W) (i : nat) (k : hook) : outcome (hook * win W) :=
  c ← deref "f->clazz" (clazz (get_fh d i));
  match c with
  | FileClass => Done (_fh_file_hook d i k, d)
  | SocketClass => _fh_socket_hook d i k
  | PairClass => Done (_fh_socketpair_hook k, d)
  end.

Definition event_looper_hook (s : looper) (fd ev : Z) : outcome looper :=
  match _fh_from_int (desc s) fd with
  | (None, d) => Done (put_desc s d)
  | (Some i, _) =>
      let n := event_looper_find_p (hooks s) (Some i) in
      s ← (match hooks s !! n with
           | Some _ => Done s
           | None => '(k, s) ← event_hook_alloc s i; Done (put_hooks s (hooks s ++ [k]) (free_hooks s))
           end);
      k ← deref "node" (hooks s !! n);
      if Z.land (wanted k) ev =? ev then Done s
      else
        '(k, d) ← _fh_hook (desc s) i k;
        Done (put_hooks (put_desc s d) (<[n := with_wanted k (Z.lor (wanted k) ev)]> (hooks s)) (free_hooks s))
  end.

Definition event_looper_unhook (s : looper) (fd ev : Z) : looper :=
  let '(i, d) := _fh_from_int (desc s) fd in
  let s := put_desc s d in
  let n := event_looper_find_p (hooks s) i in
  match hooks s !! n with
  | None => s
  | Some k =>
      let ev2 := Z.land ev (wanted k) in
      if ev2 =? 0 then s
      else
        let k := with_wanted k (clear (wanted k) ev2) in
        if wanted k =? 0 then event_hook_free (put_hooks s (delete n (hooks s)) (free_hooks s))
        else put_hooks s (<[n := k]> (hooks s)) (free_hooks s)
  end.

Definition fdevent_init (s : looper) : looper := put_hooks s [] (free_hooks s).

Definition fdevent_connect (s : looper) (f : fdevent) : outcome looper :=
  let ev := Z.land (state f) FDE_EVENTMASK in
  if ev =? 0 then Done s else event_looper_hook s (fd f) ev.

Definition fdevent_disconnect (s : looper) (f : fdevent) : looper :=
  let ev := Z.land (state f) FDE_EVENTMASK in
  if ev =? 0 then s else event_looper_unhook s (fd f) ev.

Definition fdevent_update (s : looper) (f : fdevent) (ev : Z) : outcome looper :=
  let ev0 := Z.land (state f) FDE_EVENTMASK in
  if ev =? ev0 then Done s
  else
    let removes := clear ev0 ev in
    let adds := clear ev ev0 in
    let s := if removes =? 0 then s else event_looper_unhook s (fd f) removes in
    if adds =? 0 then Done s else event_looper_hook s (fd f) adds.

(** ** fdevent_process *)

(** The first loop: prepare every hook and signal the ready ones. *)
Fixpoint prepare_all (l : list hook) (s : looper) (gotone : bool) : outcome (list hook * looper * bool) :=
  match l with
  | [] => Done ([], s, gotone)
  | k :: l =>
      '(k, d) ← prepare (desc s) (with_ready k 0);
      let s := put_desc s d in
      '(s, g) ← (if ready k =? 0 then Done (s, gotone) else s ← event_hook_signal s k; Done (s, true));
      '(l, s, g) ← prepare_all l s g;
      Done (k :: l, s, g)
  end.

(** The second: start every hook and collect the handles, each once.  [None] for the
    handles: a hook could not be started. *)
Fixpoint start_all (l : list hook) (d : win W) (htab : list handle)
    : outcome (list hook * win W * option (list handle)) :=
  match l with
  | [] => Done ([], d, Some htab)
  | k :: l =>
      '(ok, k, d) ← start d k;
      if negb ok then Done (k :: l, d, None)
      else
        htab ← (if bool_decide (h k = INVALID_HANDLE_VALUE) || bool_decide (h k ∈ htab) then Done htab
                else if (length htab <? WIN32_MAX_FHS)%nat then Done (htab ++ [h k]) else Undef "htab");
        '(l, d, r) ← start_all l d htab;
        Done (k :: l, d, r)
  end.

(** The search for a hook on the handle that woke us: the first that its check
    confirms is signalled. *)
Fixpoint check_all (l : list hook) (hd : handle) (s : looper) : outcome (list hook * looper * bool) :=
  match l with
  | [] => Done ([], s, false)
  | k :: l =>
      if decide (h k = hd) then
        '(r, k, d) ← check (desc s) k;
        let s := put_desc s d in
        if r : bool then s ← event_hook_signal s k; Done (k :: l, s, true)
        else '(l, s, g) ← check_all l hd s; Done (k :: l, s, g)
      else '(l, s, g) ← check_all l hd s; Done (k :: l, s, g)
  end.

(** The wait; [None]: it goes on for ever, or for more turns than [fuel]. *)
Fixpoint wait_loop (fuel : nat) (l : list hook) (htab : list handle) (s : looper)
    : option (outcome (list hook * looper)) :=
  match fuel with
  | O => None
  | S fuel =>
      if MAXIMUM_WAIT_OBJECTS <? Z.of_nat (length htab) then Some (Stop "abort()")
      else
        '(r, ps, w) ← WaitForMultipleObjects (world (desc s)) (pairs (desc s)) htab;
        let s := put_desc s (put_pairs (put_world (desc s) w) ps) in
        match (if r =? WAIT_FAILED then None else htab !! Z.to_nat (u32 r)) with
        | None => wait_loop fuel l htab s
        | Some hd =>
            match check_all l hd s with
            | Done (l, s, true) => Some (Done (l, s))
            | Done (l, s, false) => wait_loop fuel l htab s
            | Stop why => Some (Stop why)
            | Undef why => Some (Undef why)
            end
        end
  end.

(** The last loop: look once more at every hook. *)
Fixpoint peek_all (l : list hook) (s : looper) : outcome (list hook * looper) :=
  match l with
  | [] => Done ([], s)
  | k :: l =>
      '(r, k, d) ← peek (desc s) k;
      let s := put_desc s d in
      s ← (if r : bool then event_hook_signal s k else Done s);
      '(l, s) ← peek_all l s;
      Done (k :: l, s)
  end.

Definition process_end (l : list hook) (s : looper) : outcome looper :=
  '(l, s) ← peek_all l s;
  Done (put_hooks s l (free_hooks s)).

Definition fdevent_process (fuel : nat) (s : looper) : option (outcome looper) :=
  match prepare_all (hooks s) s false with
  | Done (l, s, true) => Some (process_end l s)
  | Done (l, s, false) =>
      match start_all l (desc s) [] with
      | Done (l, d, None) | Done (l, d, Some []) => Some (Done (put_hooks (put_desc s d) l (free_hooks s)))
      | Done (l, d, Some htab) =>
          o ← wait_loop fuel l htab (put_desc s d);
          Some ('(l, s) ← o; process_end (stop <$> l) s)
      | Stop why => Some (Stop why)
      | Undef why => Some (Undef why)
      end
  | Stop why => Some (Stop why)
  | Undef why => Some (Undef why)
  end.

(** ** The fd table and the interface *)

(** [garbage]: what realloc leaves in the new slots, of [ptr_size] bytes each. *)
Definition grow_table (ptr_size : Z) (garbage : list (option ptr)) (s : looper) (i : Z) : looper :=
  let oldmax := Z.of_nat (length (table s)) in
  let '(s, max) := if oldmax =? 0 then (fdevent_init s, 256) else (s, oldmax) in
  let max := grow 8 max i in
  let zeroed := Z.to_nat (4 * (max - oldmax) / ptr_size) in
  put_table s (table s ++ replicate zeroed None ++ drop zeroed (take (Z.to_nat (max - oldmax)) garbage)).

Definition fdevent_register (ptr_size : Z) (garbage : list (option ptr)) (s : looper) (p : ptr) : outcome looper :=
  f ← get_fde s p;
  let i := fd f - WIN32_FH_BASE in
  if i <? 0 then Stop "bogus negative fd"
  else
    s ← (if Z.of_nat (length (table s)) <=? i then
           if 32000 <? fd f then Stop "bogus huuuuge fd" else Done (grow_table ptr_size garbage s i)
         else Done s);
    Done (put_table s (<[Z.to_nat i := Some p]> (table s))).

Definition fdevent_unregister (s : looper) (p : ptr) : outcome looper :=
  f ← get_fde s p;
  let i := fd f - WIN32_FH_BASE in
  if (i <? 0) || (Z.of_nat (length (table s)) <=? i) then Stop "fd out of range"
  else if decide (table s !! Z.to_nat i = Some (Some p)) then
    let s := put_table s (<[Z.to_nat i := None]> (table s)) in
    if has (state f) FDE_DONT_CLOSE then Done s
    else '(_, d) ← adb_close (desc s) (fd f); Done (put_desc s d)
  else Stop "fd_table out of sync".

Definition fdevent_install (ptr_size : Z) (garbage : list (option ptr)) (s : looper) (p : ptr)
    (i : Z) (fn a : nat) : outcome looper :=
  let s := put_fde s p (mk_fde i FDE_ACTIVE 0 fn a) in
  s ← fdevent_register ptr_size garbage s p;
  f ← get_fde s p;
  s ← fdevent_connect s f;
  f ← get_fde s p;
  Done (put_fde s p (set_state f (Z.lor (state f) FDE_ACTIVE))).

(** fdevent_create on a block of memory [p] that malloc returned. *)
Definition fdevent_create (ptr_size : Z) (garbage : list (option ptr)) (s : looper) (p : ptr)
    (i : Z) (fn a : nat) : outcome looper :=
  s ← fdevent_install ptr_size garbage s p i fn a;
  f ← get_fde s p;
  Done (put_fde s p (set_state f (Z.lor (state f) FDE_CREATED))).

Definition fdevent_remove (s : looper) (p : ptr) : outcome looper :=
  f ← get_fde s p;
  let s := if has (state f) FDE_PENDING then plist_remove s p else s in
  s ← (if has (state f) FDE_ACTIVE then fdevent_unregister (fdevent_disconnect s f) p else Done s);
  f ← get_fde s p;
  Done (put_fde s p (set_events (set_state f 0) 0)).

Definition fdevent_destroy (s : looper) (p : ptr) : outcome looper :=
  if (p =? NULL)%nat then Done s
  else
    f ← get_fde s p;
    if negb (has (state f) FDE_CREATED) then Stop "fde not created by fdevent_create()"
    else fdevent_remove s p.

Definition fdevent_set (s : looper) (p : ptr) (ev : Z) : outcome looper :=
  let ev := Z.land ev FDE_EVENTMASK in
  f ← get_fde s p;
  if Z.land (state f) FDE_EVENTMASK =? ev then Done s
  else
    s ← (if has (state f) FDE_ACTIVE then fdevent_update s f ev else Done s);
    let f := set_state f (Z.lor (Z.land (state f) FDE_STATEMASK) ev) in
    if has (state f) FDE_PENDING then
      let f := set_events f (Z.land (events f) (Z.lnot ev)) in
      if events f =? 0 then
        Done (put_fde (plist_remove s p) p (set_state f (clear (state f) FDE_PENDING)))
      else Done (put_fde s p f)
    else Done (put_fde s p f).

Definition fdevent_add (s : looper) (p : ptr) (ev : Z) : outcome looper :=
  f ← get_fde s p;
  fdevent_set s p (Z.lor (Z.land (state f) FDE_EVENTMASK) (Z.land ev FDE_EVENTMASK)).

Definition fdevent_del (s : looper) (p : ptr) (ev : Z) : outcome looper :=
  f ← get_fde s p;
  fdevent_set s p (Z.land (Z.land (state f) FDE_EVENTMASK) (Z.lnot (Z.land ev FDE_EVENTMASK))).

(** One turn of the inner loop of fdevent_loop: the call it makes, as
    (fd, events, func, arg). *)
Definition dispatch (s : looper) : outcome (option (Z * Z * nat * nat) * looper) :=
  match pend s with
  | [] => Done (None, s)
  | p :: rest =>
      let s := put_pend s rest in
      f ← get_fde s p;
      let f' := set_state (set_events f 0) (clear (state f) FDE_PENDING) in
      Done (Some (fd f, events f, func f, arg f), put_fde s p f')
  end.

End events.
Arguments looper : clear implicits.

(** ** What each hook watches *)

Section hooks.
Context {W : Type} `{Win32 W} `{WinEvents W}.
Implicit Types (s : looper W) (d : win W) (l : list hook) (k : hook).

(** What list [l] wants of descriptor [i]. *)
Definition want l (i : nat) : Z := default 0 (wanted <$> l !! event_looper_find_p l (Some i)).

Definition live d (i : nat) : Prop :=
  used (get_fh d i) = true /\ (clazz (get_fh d i) = Some PairClass -> u (get_fh d i) <> 0).

Definition hook_ok d k : Prop :=
  wanted k <> 0 /\ exists i, fh k = Some i /\ live d i /\ kind k = clazz (get_fh d i).

Definition hooks_ok d l : Prop := NoDup (fh <$> l) /\ Forall (hook_ok d) l.

(** What the calls of fdevent_process leave alone. *)
Definition shape k : option nat * Z * option fh_class := (fh k, wanted k, kind k).

Lemma find_p_spec l f :
  match l !! event_looper_find_p l f with
  | Some k => fh k = f
  | None => (f ∉ fh <$> l) /\ event_looper_find_p l f = length l
  end.
Proof.
  induction l as [|k l IH]; cbn [event_looper_find_p].
  - split; [set_solver|done].
  - case_decide as E; cbn; [done|]. destruct (l !! _) eqn:El; [done|]. destruct IH as [H1 ->].
    split; [|done]. rewrite elem_of_cons. naive_solver.
Qed.

Lemma want_notin l i : Some i ∉ fh <$> l -> want l i = 0.
Proof.
  intros Hn. unfold want. pose proof (find_p_spec l (Some i)) as Hf. destruct (l !! _) as [k|] eqn:E; [|done].
  destruct Hn. apply list_elem_of_fmap. exists k. split; [done|]. by apply list_elem_of_lookup_2 in E.
Qed.

Lemma find_p_at l n k : NoDup (fh <$> l) -> l !! n = Some k -> event_looper_find_p l (fh k) = n.
Proof.
  revert n. induction l as [|k0 l IH]; intros n Hnd Hn; [done|]. apply NoDup_cons in Hnd as [Hk0 Hnd].
  destruct n as [|n]; cbn in *; [injection Hn as ->; by rewrite decide_True|].
  rewrite decide_False; [f_equal; by apply IH|]. intros E. apply Hk0. rewrite E. apply list_elem_of_fmap.
  exists k. split; [done|]. by eapply list_elem_of_lookup_2.
Qed.

Lemma want_in l k i : NoDup (fh <$> l) -> k ∈ l -> fh k = Some i -> want l i = wanted k.
Proof.
  intros Hnd Hk E. apply list_elem_of_lookup_1 in Hk as [n Hn]. unfold want. rewrite <- E.
  by rewrite (find_p_at l n k), Hn.
Qed.

Lemma want_hook l i : want l i <> 0 -> exists k, k ∈ l /\ fh k = Some i /\ wanted k = want l i.
Proof.
  unfold want. pose proof (find_p_spec l (Some i)) as Hf. destruct (l !! _) as [k|] eqn:E; cbn; [|done].
  intros _. exists k. split; [by eapply list_elem_of_lookup_2|done].
Qed.

Lemma hooks_ok_calm d d' l : calm d d' -> hooks_ok d l -> hooks_ok d' l.
Proof.
  intros [_ Hf] [Hnd Hall]. split; [done|]. eapply Forall_impl; [exact Hall|].
  intros k (Hw & i & Hi & (Hu & Hp) & Hk). split; [done|]. exists i. destruct (Hf i Hu) as (E1 & E2 & E3).
  unfold live. rewrite E1, E2, E3. done.
Qed.

Lemma shape_fmap l l' : shape <$> l = shape <$> l' -> fh <$> l = fh <$> l'.
Proof.
  intros E. apply (f_equal (fmap (fun x => x.1.1))) in E. by rewrite <- !list_fmap_compose in E.
Qed.

Lemma shape_want l l' i : shape <$> l = shape <$> l' -> want l i = want l' i.
Proof.
  unfold want. revert l'. induction l as [|k l IH]; intros [|k' l'] E; try done.
  injection E as E1 E2 E3 E. cbn [event_looper_find_p]. rewrite E1. case_decide; cbn; [by rewrite E2|]. by apply IH.
Qed.

Lemma shape_hooks_ok d l l' : shape <$> l = shape <$> l' -> hooks_ok d l -> hooks_ok d l'.
Proof.
  intros E [Hnd Hall]. split; [by rewrite <- (shape_fmap l l')|]. clear Hnd. revert l' E.
  induction Hall as [|k l Hk Hall IH]; intros [|k' l'] E; try done. injection E as E1 E2 E3 E.
  constructor; [|by apply IH]. unfold hook_ok in *. by rewrite <- E1, <- E2, <- E3.
Qed.

(** Replacing a hook of descriptor [i] by one that wants something else. *)
Lemma hooks_replace d l n k k' :
  hooks_ok d l -> l !! n = Some k -> fh k' = fh k -> kind k' = kind k -> wanted k' <> 0 ->
  hooks_ok d (<[n := k']> l) /\
  forall j, want (<[n := k']> l) j = if decide (fh k = Some j) then wanted k' else want l j.
Proof.
  intros [Hnd Hall] Hn Ef Ek Hw. pose proof (lookup_lt_Some _ _ _ Hn) as Hlt.
  assert (fh <$> <[n := k']> l = fh <$> l) as Efs.
  { rewrite list_fmap_insert, Ef. apply list_insert_id. by rewrite list_lookup_fmap, Hn. }
  assert (Forall (hook_ok d) (<[n := k']> l)) as Hall'.
  { apply Forall_insert; [done|]. apply (Forall_lookup_1 _ _ _ _ Hall) in Hn as (_ & i & Hi & Hl & Hk).
    split; [done|]. exists i. by rewrite Ef, Ek. }
  split; [split; [by rewrite Efs|done]|]. intros j. destruct (decide (fh k = Some j)) as [E|E].
  - apply (want_in _ k'); [by rewrite Efs| |congruence]. apply list_elem_of_lookup. exists n.
    by apply list_lookup_insert_eq.
  - pose proof (find_p_spec l (Some j)) as Hf. unfold want at 2.
    destruct (l !! event_looper_find_p l (Some j)) as [k1|] eqn:E1; cbn.
    + apply want_in; [by rewrite Efs| |done]. apply list_elem_of_lookup. exists (event_looper_find_p l (Some j)).
      rewrite list_lookup_insert_ne; [done|]. intros En. rewrite En, E1 in Hn. congruence.
    + destruct Hf as [Hf _]. apply want_notin. by rewrite Efs.
Qed.

(** Taking a hook out. *)
Lemma hooks_delete d l n k :
  hooks_ok d l -> l !! n = Some k ->
  hooks_ok d (delete n l) /\ forall j, want (delete n l) j = if decide (fh k = Some j) then 0 else want l j.
Proof.
  intros [Hnd Hall] Hn. apply list_elem_of_split_length in Hn as (l1 & l2 & -> & ->).
  rewrite delete_middle in *. rewrite fmap_app, fmap_cons in Hnd. apply Forall_app in Hall as [H1 H2'].
  apply Forall_cons in H2' as [_ H2']. pose proof Hnd as Hnd'.
  apply NoDup_app in Hnd as (Hn1 & Hx & Hn2). apply NoDup_cons in Hn2 as [Hk Hn2].
  assert (NoDup (fh <$> l1 ++ l2)) as Hnd2.
  { rewrite fmap_app. apply NoDup_app. split_and!; try done. intros x Hx1 Hx2. apply (Hx x Hx1). by right. }
  assert (fh k ∉ fh <$> l1 ++ l2) as Hout.
  { rewrite fmap_app, elem_of_app. intros [E|E]; [|done]. apply (Hx _ E). by left. }
  split; [split; [done|by apply Forall_app]|]. intros j. case_decide as E; [by apply want_notin; rewrite <- E|].
  destruct (decide (Some j ∈ fh <$> l1 ++ l2)) as [Hj|Hj].
  - apply list_elem_of_fmap in Hj as (k1 & Ej & Hk1). rewrite (want_in (l1 ++ l2) k1 j) by done.
    symmetry. apply want_in; [by rewrite fmap_app, fmap_cons| |done].
    rewrite elem_of_app in *. rewrite elem_of_cons. tauto.
  - rewrite !want_notin; try done. rewrite fmap_app, fmap_cons, elem_of_app, elem_of_cons.
    rewrite fmap_app, elem_of_app in Hj. naive_solver.
Qed.

(** A new hook at the end of the list. *)
Lemma hooks_append d l k i :
  hooks_ok d l -> (Some i ∉ fh <$> l) -> fh k = Some i -> live d i -> kind k = clazz (get_fh d i) -> wanted k <> 0 ->
  hooks_ok d (l ++ [k]) /\ forall j, want (l ++ [k]) j = if decide (j = i) then wanted k else want l j.
Proof.
  intros [Hnd Hall] Hn E Hl Hk Hw.
  assert (NoDup (fh <$> l ++ [k])) as Hnd'.
  { rewrite fmap_app. apply NoDup_app. split_and!; [done| |by apply NoDup_singleton]. cbn. rewrite E. set_solver. }
  split; [split; [done|]; apply Forall_app; split; [done|]; constructor; [|done]; split; [done|]; by exists i|].
  intros j. case_decide as Ej; [subst j; apply want_in; [done| |done]; set_solver|].
  destruct (decide (Some j ∈ fh <$> l)) as [Hj|Hj].
  - apply list_elem_of_fmap in Hj as (k1 & Ej1 & Hk1). rewrite (want_in l k1 j) by done. apply want_in; set_solver.
  - rewrite !want_notin; try done. rewrite fmap_app. cbn. rewrite E. set_solver.
Qed.

(** ** Hooking and unhooking *)

(** The exits that the code asks for when the system fails or the limit of a wait is
    passed. *)
Definition tolerated (why : string) : Prop :=
  why ∈ ["exit(1)"; "abort()"; "could not allocate event hook"]%string.

Definition same_fdes s s' : Prop := fdes s' = fdes s /\ pend s' = pend s /\ table s' = table s.

(** [s'] is [s] with [v] wanted of descriptor [i]. *)
Definition hooked s s' (i : nat) (v : Z) : Prop :=
  same_fdes s s' /\ calm (desc s) (desc s') /\ hooks_ok (desc s') (hooks s') /\
  forall j, want (hooks s') j = if decide (j = i) then v else want (hooks s) j.

Definition descriptor (i : nat) : Z := Z.of_nat i + WIN32_FH_BASE.

Lemma from_int_live d i : ok d -> used (get_fh d i) = true -> _fh_from_int d (descriptor i) = (Some i, d).
Proof. intros Hok Hu. by apply from_int_used. Qed.

Lemma socket_start_calm d i k :
  ok d ->
  match _event_socket_start d i k with
  | Done (_, k', d') => calm d d' /\ shape k' = shape k
  | Stop why => tolerated why
  | Undef _ => False
  end.
Proof.
  intros Hok. unfold _event_socket_start. destruct (event _ =? INVALID); [by split; [apply calm_same|]|].
  destruct (_ =? mask _); [by split; [apply calm_same|]|]. destruct (WSAEventSelect _ _ _ _) as [[] w].
  - split; [|done]. split; [apply ok_put_fh; [by apply ok_world|done..]|]. by apply (frame_put_fh (put_world d w)).
  - unfold tolerated. set_solver.
Qed.

Lemma fh_hook_spec d i k :
  ok d -> live d i ->
  match _fh_hook d i k with
  | Done (k', d') => calm d d' /\ fh k' = fh k /\ wanted k' = wanted k /\ kind k' = clazz (get_fh d i)
  | Stop why => tolerated why
  | Undef _ => False
  end.
Proof.
  intros Hok [Hu _]. pose proof Hok as [(_ & _ & Hcl & _) _]. apply Hcl in Hu. unfold _fh_hook.
  destruct (clazz (get_fh d i)) as [[]|] eqn:Ec; cbn; [| | |done].
  - split; [by apply calm_same|done].
  - unfold _fh_socket_hook. pose proof (socket_start_calm d i (with_kind k SocketClass) Hok) as Hs.
    destruct (_event_socket_start _ _ _) as [[[b k'] d']| |]; cbn; [|done..]. destruct Hs as [Hc Hs].
    by injection Hs as -> -> ->.
  - split; [by apply calm_same|done].
Qed.

Lemma clear_land a b : clear a (Z.land b a) = clear a b.
Proof. unfold clear. apply Z.bits_inj'. intros n Hn. rewrite !Z.land_spec, !Z.lnot_spec, Z.land_spec by done. by destruct (Z.testbit a n), (Z.testbit b n). Qed.
Lemma clear_disjoint a b : Z.land b a = 0 -> clear a b = a.
Proof. intros E. rewrite <- clear_land, E. unfold clear. apply Z.land_m1_r. Qed.
Lemma lor_absorb a b : Z.land a b = b -> Z.lor a b = a.
Proof. intros <-. apply Z.bits_inj'. intros n Hn. rewrite Z.lor_spec, Z.land_spec. by destruct (Z.testbit a n), (Z.testbit b n). Qed.
Lemma lor_nonzero a b : b <> 0 -> Z.lor a b <> 0.
Proof. intros Hb E. apply Z.lor_eq_0_iff in E. tauto. Qed.

Lemma hook_spec s i ev :
  ok (desc s) -> hooks_ok (desc s) (hooks s) -> live (desc s) i -> ev <> 0 ->
  match event_looper_hook s (descriptor i) ev with
  | Done s' => hooked s s' i (Z.lor (want (hooks s) i) ev)
  | Stop why => tolerated why
  | Undef _ => False
  end.
Proof.
  intros Hok Hh Hl Hev. pose proof Hh as [Hnd Hall]. unfold event_looper_hook.
  rewrite from_int_live by (done || apply Hl). pose proof (find_p_spec (hooks s) (Some i)) as Hf. unfold want at 1.
  destruct (hooks s !! event_looper_find_p (hooks s) (Some i)) as [k|] eqn:En; cbn [mbind outcome_bind].
  - rewrite En. cbn [deref mbind outcome_bind fmap option_fmap option_map default].
    destruct (Z.eqb_spec (Z.land (wanted k) ev) ev) as [Ew|Ew].
    { split; [done|]. split; [by apply calm_same|]. split; [done|]. intros j. case_decide as E; [|done].
      subst j. unfold want. rewrite En. cbn. by rewrite lor_absorb. }
    pose proof (fh_hook_spec (desc s) i k Hok Hl) as Hs. destruct (_fh_hook _ _ _) as [[k' d']| |]; cbn; [|done..].
    destruct Hs as (Hc & E1 & E2 & E3). split; [done|]. split; [done|]. cbn.
    pose proof (Forall_lookup_1 _ _ _ _ Hall En) as (_ & i' & Hi' & _ & Ek). rewrite Hf in Hi'. injection Hi' as <-.
    destruct (hooks_replace (desc s) (hooks s) _ k (with_wanted k' (Z.lor (wanted k') ev)) Hh En) as [Hh' Hw];
      [done|cbn; congruence|by apply lor_nonzero|]. cbn in Hw. rewrite E2 in *.
    split; [by apply (hooks_ok_calm _ _ _ Hc)|]. intros j. rewrite Hw, Hf. repeat case_decide; congruence.
  - destruct Hf as [Hf Hlen]. unfold event_hook_alloc. set (k0 := mk_hook (Some i) INVALID_HANDLE_VALUE 0 0 None).
    assert (forall s1, desc s1 = desc s -> hooks s1 = hooks s ++ [k0] -> same_fdes s s1 ->
      match k ← deref "node" (hooks s1 !! event_looper_find_p (hooks s) (Some i));
            if Z.land (wanted k) ev =? ev then Done s1
            else '(k, d) ← _fh_hook (desc s1) i k;
                 Done (put_hooks (put_desc s1 d) (<[event_looper_find_p (hooks s) (Some i) := with_wanted k (Z.lor (wanted k) ev)]> (hooks s1)) (free_hooks s1))
      with Done s' => hooked s s' i (Z.lor 0 ev) | Stop why => tolerated why | Undef _ => False end) as Hnew.
    { intros s1 Ed Eh Hsame. rewrite Eh, Hlen, Ed, lookup_app_r, Nat.sub_diag by done. cbn [lookup list_lookup deref mbind outcome_bind].
      cbn [wanted k0]. rewrite Z.land_0_l, (proj2 (Z.eqb_neq 0 ev)) by done.
      pose proof (fh_hook_spec (desc s) i k0 Hok Hl) as Hs. destruct (_fh_hook _ _ _) as [[k' d']| |]; cbn; [|done..].
      destruct Hs as (Hc & E1 & E2 & E3). split; [done|]. split; [done|]. cbn.
      rewrite insert_app_r_alt, Nat.sub_diag by done. cbn [insert list_insert].
      destruct (hooks_append (desc s) (hooks s) (with_wanted k' (Z.lor (wanted k') ev)) i Hh Hf) as [Hh' Hw];
        [exact E1|done|done|by apply lor_nonzero|].
      split; [by apply (hooks_ok_calm _ _ _ Hc)|]. intros j. rewrite Hw. cbn. rewrite E2. done. }
    cbn [default]. destruct (free_hooks s) as [|n] eqn:Efree; [destruct (hook_malloc_ok _)|]; cbn [mbind outcome_bind].
    + by apply Hnew.
    + unfold tolerated. set_solver.
    + by apply Hnew.
Qed.

Lemma unhook_spec s i ev :
  ok (desc s) -> hooks_ok (desc s) (hooks s) -> live (desc s) i ->
  hooked s (event_looper_unhook s (descriptor i) ev) i (clear (want (hooks s) i) ev).
Proof.
  intros Hok Hh Hl. unfold event_looper_unhook. rewrite from_int_live by (done || apply Hl).
  pose proof (find_p_spec (hooks s) (Some i)) as Hf. unfold want at 1. cbn [hooks put_desc].
  assert (forall s', desc s' = desc s -> same_fdes s s' -> hooks s' = hooks s ->
    forall v, v = want (hooks s) i -> hooked s s' i v) as Hsame.
  { intros s' E1 E2 E3 v ->. split; [done|]. rewrite E1, E3. split; [by apply calm_same|]. split; [done|].
    intros j. by case_decide; subst. }
  destruct (hooks s !! event_looper_find_p (hooks s) (Some i)) as [k|] eqn:En.
  2:{ apply Hsame; [done..|]. cbn [default fmap option_fmap option_map]. unfold want. by rewrite En. }
  cbn [default fmap option_fmap option_map].
  destruct (Z.eqb_spec (Z.land ev (wanted k)) 0) as [E2|E2].
  { apply Hsame; [done..|]. unfold want. rewrite En. cbn. by apply clear_disjoint. }
  rewrite clear_land. cbn [wanted with_wanted]. destruct (Z.eqb_spec (clear (wanted k) ev) 0) as [Ez|Ez].
  - destruct (hooks_delete (desc s) (hooks s) _ k Hh En) as [Hh' Hw]. split; [done|]. split; [by apply calm_same|].
    split; [done|]. intros j. cbn. rewrite Hw, Ez, Hf. repeat case_decide; congruence.
  - destruct (hooks_replace (desc s) (hooks s) _ k (with_wanted k (clear (wanted k) ev)) Hh En) as [Hh' Hw]; [done..|].
    split; [done|]. split; [by apply calm_same|]. split; [done|]. intros j. cbn. rewrite Hw, Hf. cbn. repeat case_decide; congruence.
Qed.

Lemma hooked_trans s1 s2 s3 i v w : hooked s1 s2 i v -> hooked s2 s3 i w -> hooked s1 s3 i w.
Proof.
  intros ((A1 & A2 & A3) & B & C & D) ((A1' & A2' & A3') & B' & C' & D'). split; [by unfold same_fdes; rewrite A1', A2', A3'|].
  split; [by eapply calm_trans|]. split; [done|]. intros j. rewrite D', D. by case_decide.
Qed.

Lemma update_bits a b : Z.lor (clear a (clear a b)) (clear b a) = b.
Proof. unfold clear. apply Z.bits_inj'. intros n Hn. repeat rewrite ?Z.lor_spec, ?Z.land_spec, ?Z.lnot_spec by done. by destruct (Z.testbit a n), (Z.testbit b n). Qed.
Lemma clear_0 a b : clear a b = 0 -> Z.land b a = a.
Proof.
  unfold clear. intros E. apply Z.bits_inj'. intros n Hn. apply (f_equal (fun z => Z.testbit z n)) in E.
  rewrite Z.land_spec, Z.lnot_spec, Z.testbit_0_l in E by done. rewrite Z.land_spec.
  by destruct (Z.testbit a n), (Z.testbit b n).
Qed.

Lemma live_calm d d' i : calm d d' -> live d i -> live d' i.
Proof. intros [_ Hf] [Hu Hp]. destruct (Hf i Hu) as (E1 & E2 & E3). unfold live. by rewrite E1, E2, E3. Qed.

(** fdevent_update makes what is wanted the new events. *)
Lemma update_spec s f i ev :
  ok (desc s) -> hooks_ok (desc s) (hooks s) -> live (desc s) i -> fd f = descriptor i ->
  want (hooks s) i = Z.land (state f) FDE_EVENTMASK ->
  match fdevent_update s f ev with
  | Done s' => hooked s s' i ev
  | Stop why => tolerated why
  | Undef _ => False
  end.
Proof.
  intros Hok Hh Hl Hfd Hw. unfold fdevent_update. rewrite Hfd, <- Hw. set (a := want (hooks s) i) in *.
  assert (hooked s s i a) as Href.
  { split; [done|]. split; [by apply calm_same|]. split; [done|]. intros j. by case_decide; subst. }
  destruct (Z.eqb_spec ev a) as [->|_]; [done|]. set (s1 := if clear a ev =? 0 then s else _).
  assert (hooked s s1 i (clear a (clear a ev))) as H1'.
  { unfold s1. destruct (Z.eqb_spec (clear a ev) 0) as [E|E].
    - rewrite E. unfold clear at 1. by rewrite Z.land_m1_r.
    - by apply unhook_spec. }
  clearbody s1. destruct (Z.eqb_spec (clear ev a) 0) as [E|E].
  - rewrite <- (update_bits a ev), E, Z.lor_0_r. done.
  - pose proof H1' as (_ & Hc1 & Hh1 & Hw1). destruct (Hc1) as [Hok1 _].
    pose proof (hook_spec s1 i (clear ev a) Hok1 Hh1 (live_calm _ _ _ Hc1 Hl) E) as H2'.
    destruct (event_looper_hook _ _ _) as [s2| |]; [|done..]. eapply hooked_trans; [done|].
    rewrite Hw1, decide_True, update_bits in H2' by done. done.
Qed.

(** Disconnecting leaves nothing wanted. *)
Lemma disconnect_spec s f i :
  ok (desc s) -> hooks_ok (desc s) (hooks s) -> live (desc s) i -> fd f = descriptor i ->
  want (hooks s) i = Z.land (state f) FDE_EVENTMASK -> hooked s (fdevent_disconnect s f) i 0.
Proof.
  intros Hok Hh Hl Hfd Hw. unfold fdevent_disconnect. rewrite Hfd, <- Hw. destruct (Z.eqb_spec (want (hooks s) i) 0) as [E|E].
  - split; [done|]. split; [by apply calm_same|]. split; [done|]. intros j. by case_decide; subst.
  - pose proof (unhook_spec s i (want (hooks s) i) Hok Hh Hl) as Hu. unfold clear in Hu. by rewrite Z.land_lnot_diag in Hu.
Qed.

(** ** The invariant *)

Definition interest (f : fdevent) : Z := Z.land (state f) FDE_EVENTMASK.
#[local] Arguments active : simpl never.
#[local] Arguments is_pending : simpl never.
#[local] Arguments interest : simpl never.

(** An active fdevent has a live descriptor, is in the fd table, and what its hook
    wants is what it is interested in; nothing else has a hook. *)
Record ev_inv s : Prop := {
  ei_ok : ok (desc s);
  ei_hooks : hooks_ok (desc s) (hooks s);
  ei_active : forall p f, fdes s !! p = Some f -> active f = true ->
    exists i, fd f = descriptor i /\ live (desc s) i /\ table s !! i = Some (Some p) /\ want (hooks s) i = interest f;
  ei_table : forall i p, (i < WIN32_MAX_FHS)%nat -> table s !! i = Some (Some p) ->
    exists f, fdes s !! p = Some f /\ active f = true /\ fd f = descriptor i;
  ei_idle : forall i, want (hooks s) i <> 0 -> exists p, table s !! i = Some (Some p);
  ei_nodup : NoDup (pend s);
  ei_pend : forall p, p ∈ pend s <-> exists f, fdes s !! p = Some f /\ is_pending f = true;
  ei_size : table s = [] \/ Z.of_nat (length (table s)) = 256
}.

Lemma live_below d i : ok d -> live d i -> (i < WIN32_MAX_FHS)%nat.
Proof. intros Hok [Hu _]. apply (ok_below d i Hok). pose proof Hok as [(_ & _ & Hcl & _) _]. by apply Hcl. Qed.

Lemma descriptor_inj i j : descriptor i = descriptor j -> i = j.
Proof. unfold descriptor. lia. Qed.

(** Changing one fdevent and what its hook wants. *)
Lemma ev_replace s s' p f f' :
  ev_inv s -> fdes s !! p = Some f -> fdes s' = <[p := f']> (fdes s) ->
  fd f' = fd f -> active f' = active f -> table s' = table s ->
  calm (desc s) (desc s') -> hooks_ok (desc s') (hooks s') ->
  (forall i, want (hooks s') i = if decide (active f = true /\ fd f = descriptor i) then interest f' else want (hooks s) i) ->
  NoDup (pend s') ->
  (forall q, q ∈ pend s' <-> if decide (q = p) then is_pending f' = true else q ∈ pend s) ->
  ev_inv s'.
Proof.
  intros HI Hp E1 E2 E3 Et Hc Hh Hw Hnd Hpe.
  assert (forall q g i, fdes s !! q = Some g -> active g = true -> fd g = descriptor i -> active f = true ->
    fd f = descriptor i -> q = p) as Huniq.
  { intros q g i Hq Hg Hgi Hf Hfi. destruct (ei_active _ HI _ _ Hq Hg) as (j & Ej & _ & Hj & _).
    destruct (ei_active _ HI _ _ Hp Hf) as (j' & Ej' & _ & Hj' & _).
    assert (j = i) as -> by (apply descriptor_inj; congruence). assert (j' = i) as -> by (apply descriptor_inj; congruence).
    rewrite Hj in Hj'. congruence. }
  split; [apply Hc|done| | | |done| |by rewrite Et; apply HI].
  - intros q g Hq Hg. rewrite E1 in Hq. rewrite Et. destruct (decide (q = p)) as [->|Hne].
    + rewrite lookup_insert_eq in Hq. injection Hq as <-. rewrite E3 in Hg.
      destruct (ei_active _ HI _ _ Hp Hg) as (i & Hi & Hl & Ht & _). exists i. rewrite E2, Hw, decide_True by done.
      split_and!; try done. by eapply live_calm.
    + rewrite lookup_insert_ne in Hq by done. destruct (ei_active _ HI _ _ Hq Hg) as (i & Hi & Hl & Ht & Hwi).
      exists i. rewrite Hw. split_and!; try done; [by eapply live_calm|]. rewrite decide_False; [done|].
      intros [Hf Hfi]. apply Hne. by apply (Huniq q g i).
  - intros i q Hi Hq. rewrite Et in Hq. destruct (ei_table _ HI i q Hi Hq) as (g & Hg & Ha & Hgi). rewrite E1.
    destruct (decide (q = p)) as [->|Hne].
    + rewrite Hp in Hg. injection Hg as <-. exists f'. by rewrite lookup_insert_eq, E2, E3.
    + exists g. by rewrite lookup_insert_ne.
  - intros i. rewrite Hw, Et. destruct (decide (active f = true /\ fd f = descriptor i)) as [[Ha Hfi]|_]; [|apply HI].
    intros _. destruct (ei_active _ HI _ _ Hp Ha) as (j & Hj & _ & Ht & _).
    assert (j = i) as -> by (apply descriptor_inj; congruence). eauto.
  - intros q. rewrite Hpe, E1. destruct (decide (q = p)) as [->|Hne].
    + rewrite lookup_insert_eq. naive_solver.
    + rewrite lookup_insert_ne by done. apply HI.
Qed.

(** The same when only the pipes, the system or the hooks' states change. *)
Lemma ev_same s s' :
  ev_inv s -> same_fdes s s' -> calm (desc s) (desc s') -> shape <$> hooks s' = shape <$> hooks s -> ev_inv s'.
Proof.
  intros HI (E1 & E2 & E3) Hc Hs. split; rewrite ?E1, ?E2, ?E3; try apply HI; [by apply Hc| | |].
  - apply (hooks_ok_calm _ _ _ Hc). eapply shape_hooks_ok; [symmetry; exact Hs|]. apply HI.
  - intros p f Hp Hf. destruct (ei_active _ HI _ _ Hp Hf) as (i & Hi & Hl & Ht & Hw). exists i.
    rewrite (shape_want _ _ i Hs). split_and!; try done. by eapply live_calm.
  - intros i. rewrite (shape_want _ _ i Hs). apply HI.
Qed.

(** ** Signalling *)

(** The fdevent of [k] is pending with all that [k] wants. *)
Definition signalled s k : Prop :=
  exists i p f, fh k = Some i /\ table s !! i = Some (Some p) /\ fdes s !! p = Some f /\ p ∈ pend s /\
    Z.land (events f) (wanted k) = wanted k.

(** What fdevent_process does to the fdevents: more of them become pending, with
    more events. *)
Definition more s s' : Prop :=
  table s' = table s /\ hooks s' = hooks s /\ free_hooks s' = free_hooks s /\
  (forall p, p ∈ pend s -> p ∈ pend s') /\
  forall p f, fdes s !! p = Some f -> exists f', fdes s' !! p = Some f' /\ fd f' = fd f /\ func f' = func f /\
    arg f' = arg f /\ interest f' = interest f /\ Z.land (events f') (events f) = events f.

Lemma land_absorb a b c : Z.land a b = b -> Z.land b c = c -> Z.land a c = c.
Proof. intros H1 H2. rewrite <- H2, Z.land_assoc, H1. done. Qed.

Lemma more_desc s d : more s (put_desc s d).
Proof. do 4 (split; [done|]). intros p f Hp. exists f. split_and!; try done. apply Z.land_diag. Qed.
Lemma more_refl s : more s s.
Proof. do 4 (split; [done|]). intros p f Hp. exists f. split_and!; try done. apply Z.land_diag. Qed.

Lemma more_trans s1 s2 s3 : more s1 s2 -> more s2 s3 -> more s1 s3.
Proof.
  intros (A1 & A2 & A3 & A4 & A5) (B1 & B2 & B3 & B4 & B5). unfold more. rewrite B1, B2, B3. do 3 (split; [done|]).
  split; [auto|]. intros p f Hp. destruct (A5 p f Hp) as (f1 & H1' & E1 & E2 & E3 & E4 & E5).
  destruct (B5 p f1 H1') as (f2 & H2' & F1 & F2 & F3 & F4 & F5). exists f2. split_and!; try congruence.
  by eapply land_absorb.
Qed.

Lemma more_signalled s s' k : more s s' -> signalled s k -> signalled s' k.
Proof.
  intros (E1 & _ & _ & Hp & Hf) (i & p & f & Hk & Ht & Hpf & Hpend & He). destruct (Hf p f Hpf) as (f' & Hf' & _ & _ & _ & _ & Hle).
  exists i, p, f'. rewrite E1. split_and!; auto. by eapply land_absorb.
Qed.

Lemma low_lor st : Z.land (Z.lor st FDE_PENDING) FDE_EVENTMASK = Z.land st FDE_EVENTMASK.
Proof. rewrite Z.land_lor_distr_l. change (Z.land FDE_PENDING FDE_EVENTMASK) with 0. apply Z.lor_0_r. Qed.

Lemma set_pending_bits st : Z.testbit (Z.lor st FDE_PENDING) 8 = Z.testbit st 8 /\ Z.testbit (Z.lor st FDE_PENDING) 9 = true.
Proof. rewrite !Z.lor_spec. change (Z.testbit FDE_PENDING 8) with false. change (Z.testbit FDE_PENDING 9) with true. by rewrite orb_false_r, orb_true_r. Qed.

(** Signalling a hook of the looper works, and its fdevent is then pending. *)
Lemma signal_spec s k k0 :
  ev_inv s -> k0 ∈ hooks s -> shape k = shape k0 ->
  exists s', event_hook_signal s k = Done s' /\ ev_inv s' /\ desc s' = desc s /\ more s s' /\ signalled s' k.
Proof.
  intros HI Hk0 Hs. injection Hs as Efh Ew _. pose proof (ei_hooks _ HI) as [Hnd Hall].
  pose proof (proj1 (Forall_forall _ _) Hall k0 Hk0) as (Hw & i & Hi & Hl & _).
  pose proof (live_below _ _ (ei_ok _ HI) Hl) as Hlt.
  assert (want (hooks s) i = wanted k) as Hwant by (rewrite Ew; by apply want_in).
  destruct (ei_idle _ HI i) as [p Hp]; [by rewrite Hwant, Ew|].
  destruct (ei_table _ HI i p Hlt Hp) as (f & Hf & Ha & Hfd).
  unfold event_hook_signal. rewrite Efh, Hi. unfold _fh_to_int. rewrite (proj1 Hl), (proj2 (Nat.ltb_lt _ _) Hlt). cbn [andb].
  fold (descriptor i). rewrite (proj2 (Z.ltb_ge _ _)) by (unfold descriptor; lia).
  replace (Z.to_nat (descriptor i - WIN32_FH_BASE)) with i by (unfold descriptor; lia). rewrite Hp.
  unfold get_fde. cbn [deref mbind outcome_bind]. rewrite Hf. cbn [deref mbind outcome_bind]. rewrite Hfd, Z.eqb_refl.
  rewrite has_pending.
  assert (forall s1 f1, fdes s1 = <[p := f1]> (fdes s) -> desc s1 = desc s -> table s1 = table s -> hooks s1 = hooks s ->
    free_hooks s1 = free_hooks s -> fd f1 = fd f -> func f1 = func f -> arg f1 = arg f -> events f1 = events f -> active f1 = active f -> interest f1 = interest f ->
    is_pending f1 = true -> NoDup (pend s1) -> (forall q, q ∈ pend s1 <-> q = p \/ q ∈ pend s) ->
    exists s', (f ← deref "fdevent" (fdes s1 !! p); Done (put_fde s1 p (set_events f (Z.lor (events f) (wanted k))))) = Done s' /\
      ev_inv s' /\ desc s' = desc s /\ more s s' /\ signalled s' k) as Hend.
  { intros s1 f1 E1 E2 E3 E4 E4' E5 E5' E5'' E6 E7 E8 E9 E10 E11. rewrite E1, lookup_insert_eq. cbn [deref mbind outcome_bind].
    set (f2 := set_events f1 (Z.lor (events f1) (wanted k))). eexists. split; [done|].
    assert (Z.land (Z.lor (events f) (wanted k)) (events f) = events f) as Hle.
    { apply Z.bits_inj'. intros n Hn. rewrite Z.land_spec, Z.lor_spec. by destruct (Z.testbit (events f) n), (Z.testbit (wanted k) n). }
    assert (Z.land (Z.lor (events f) (wanted k)) (wanted k) = wanted k) as Hle2.
    { apply Z.bits_inj'. intros n Hn. rewrite Z.land_spec, Z.lor_spec. by destruct (Z.testbit (events f) n), (Z.testbit (wanted k) n). }
    split_and!.
    - apply (ev_replace s _ p f f2); cbn; try done.
      + by rewrite E1, insert_insert_eq.
      + rewrite E2. apply calm_same; [apply HI|done].
      + rewrite E2, E4. apply HI.
      + intros j. rewrite E4. destruct (decide (active f = true /\ fd f = descriptor j)) as [[_ E]|_]; [|done].
        assert (j = i) as -> by (apply descriptor_inj; congruence).
        change (interest f2) with (interest f1). rewrite E8. destruct (ei_active _ HI p f Hf Ha) as (i' & Hi' & _ & _ & <-).
        f_equal. apply descriptor_inj. congruence.
      + intros q. rewrite E11. change (is_pending f2) with (is_pending f1). rewrite E9. case_decide; naive_solver.
    - done.
    - split; [done|]. split; [done|]. split; [done|]. split; [intros q Hq; cbn; apply E11; by right|]. intros q g Hq. cbn.
      rewrite E1. destruct (decide (q = p)) as [->|Hne].
      + rewrite Hf in Hq. injection Hq as <-. exists f2. rewrite insert_insert_eq, lookup_insert_eq. cbn. rewrite E5, E5', E5'', E6. done.
      + exists g. rewrite !lookup_insert_ne by done. split_and!; try done. apply Z.land_diag.
    - exists i, p, f2. cbn. rewrite E3, lookup_insert_eq, E6, Efh. split_and!; try done. apply E11. by left. }
  destruct (is_pending f) eqn:Epe.
  - apply (Hend s f); try done; [by rewrite insert_id|apply HI|]. intros q. split; [by right|]. intros [->|?]; [|done].
    apply (ei_pend _ HI). eauto.
  - apply (Hend _ (set_state f (Z.lor (state f) FDE_PENDING))); cbn; try done.
    + apply set_pending_bits.
    + apply low_lor.
    + apply set_pending_bits.
    + apply NoDup_app. split; [apply HI|]. split; [|apply NoDup_singleton]. intros q Hq.
      rewrite list_elem_of_singleton. intros ->. apply (ei_pend _ HI) in Hq as (g & Hg & E). congruence.
    + intros q. rewrite elem_of_app, list_elem_of_singleton. tauto.
Qed.

(** ** One turn of fdevent_process *)

(** A hook that is ready whatever the system says: a file's, and a socket pair's by
    the state of its pipes. *)
Definition hook_ready d k : bool :=
  match kind k, fh k with
  | Some FileClass, _ => has (wanted k) (Z.lor FDE_READ FDE_WRITE)
  | Some PairClass, Some i =>
      match pairs d !! u (get_fh d i) with
      | Some p => (has (wanted k) FDE_READ && can_read (read_end p i)) || (has (wanted k) FDE_WRITE && can_write (write_end p i))
      | None => false
      end
  | _, _ => false
  end.

Lemma raise_shape c v k : shape (raise c v k) = shape k.
Proof. by destruct c. Qed.
Lemma raise_wanted c v k : wanted (raise c v k) = wanted k.
Proof. by destruct c. Qed.
Lemma raise_ready c v k : v <> 0 -> c = true \/ ready k <> 0 -> ready (raise c v k) <> 0.
Proof.
  intros Hv Hc. destruct c; cbn; [by apply lor_nonzero|]. by destruct Hc.
Qed.

Lemma verify_shape k e : shape (_event_socket_verify k e) = shape k.
Proof. unfold _event_socket_verify. by repeat case_match; rewrite ?raise_shape. Qed.

(** Hooks of the looper have a class, and the ends of pairs a pair. *)
Lemma hook_class d k : ok d -> hook_ok d k ->
  exists i c, fh k = Some i /\ kind k = Some c /\ clazz (get_fh d i) = Some c /\ live d i /\
    (c = PairClass -> exists p, pairs d !! u (get_fh d i) = Some p).
Proof.
  intros Hok (_ & i & Hi & Hl & Hk). pose proof Hok as [(_ & _ & Hcl & _) (_ & Hends & _)]. destruct (clazz (get_fh d i)) as [c|] eqn:Ec.
  - exists i, c. split_and!; try done. intros ->. destruct (Hends i Ec) as [E|[p Hp]]; [|eauto]. by apply Hl in Ec.
  - destruct Hl as [Hu _]. by apply Hcl in Hu.
Qed.

Lemma hook_ok_shape d k k' : shape k = shape k' -> hook_ok d k -> hook_ok d k'.
Proof. intros E. injection E as E1 E2 E3. unfold hook_ok. by rewrite E1, E2, E3. Qed.

Lemma hook_ready_shape d k k' : shape k = shape k' -> hook_ready d k = hook_ready d k'.
Proof. intros E. injection E as E1 E2 E3. unfold hook_ready. by rewrite E1, E2, E3. Qed.

(** What a class's function leaves: descriptors and pipes as they were, and the
    hook's shape. *)
Definition quiet d k d' k' : Prop := calm d d' /\ pairs d' = pairs d /\ shape k' = shape k.

Lemma pair_prepare_spec d i k p :
  pairs d !! u (get_fh d i) = Some p -> kind k = Some PairClass -> fh k = Some i ->
  exists k', _event_socketpair_prepare d i k = Done k' /\ shape k' = shape k /\ (hook_ready d k = true -> ready k' <> 0).
Proof.
  intros Hp Hk Hi. unfold _event_socketpair_prepare. rewrite Hp. cbn [deref mbind outcome_bind]. eexists. split; [done|].
  rewrite !raise_shape. split; [done|]. unfold hook_ready. rewrite Hk, Hi, Hp. intros Hr. apply raise_ready; [done|].
  apply orb_true_iff in Hr as [Hr|Hr]; [right; apply raise_ready; auto|by left].
Qed.

Lemma has_land w m : has w m = true -> Z.land w m <> 0.
Proof. unfold has. by destruct (Z.eqb_spec (Z.land w m) 0). Qed.

Lemma prepare_spec d k :
  ok d -> hook_ok d k ->
  exists k' d', prepare d k = Done (k', d') /\ quiet d k d' k' /\ (hook_ready d k = true -> ready k' <> 0).
Proof.
  intros Hok Hk. destruct (hook_class d k Hok Hk) as (i & c & Hi & Hc & Hcl & Hl & Hp). unfold prepare. rewrite Hc.
  assert (forall w, calm d (put_world d w)) as Hw by (intros w; by apply calm_same).
  destruct c; unfold the_fh; rewrite ?Hi; cbn [deref mbind outcome_bind].
  - eexists _, _. split; [done|]. unfold _event_file_prepare. split; [split; [by apply calm_same|by rewrite raise_shape]|].
    unfold hook_ready. rewrite Hc. intros E. rewrite E. cbn. by apply lor_nonzero, has_land.
  - unfold _event_socket_prepare. destruct (WSAEnumNetworkEvents _ _ _) as [e w]. eexists _, _. split; [done|].
    split; [split; [done|split; [done|]]|unfold hook_ready; by rewrite Hc]. destruct e; [apply verify_shape|done].
  - destruct (Hp eq_refl) as [p Hp']. destruct (pair_prepare_spec d i k p Hp' Hc Hi) as (k' & -> & Hs & Hr).
    cbn. eexists _, _. split; [done|]. split; [|done]. by split; [apply calm_same|].
Qed.

Lemma start_spec d k :
  ok d -> hook_ok d k ->
  match start d k with
  | Done (_, k', d') => quiet d k d' k'
  | Stop why => tolerated why
  | Undef _ => False
  end.
Proof.
  intros Hok Hk. destruct (hook_class d k Hok Hk) as (i & c & Hi & Hc & Hcl & Hl & Hp). unfold start. rewrite Hc.
  destruct c; unfold the_fh; rewrite ?Hi; cbn [deref mbind outcome_bind].
  - by split; [apply calm_same|].
  - pose proof (socket_start_calm d i k Hok) as Hs.
    assert (forall b k' d', _event_socket_start d i k = Done (b, k', d') -> pairs d' = pairs d) as Hpairs.
    { unfold _event_socket_start. intros b k' d'. destruct (event _ =? INVALID); [by intros [= <- <- <-]|].
      destruct (_ =? mask _); [by intros [= <- <- <-]|]. destruct (WSAEventSelect _ _ _ _) as [[] w]; by intros [= <- <- <-]. }
    destruct (_event_socket_start d i k) as [[[b k'] d']| |]; [|done..]. destruct Hs as [Hcalm Hs].
    split; [done|]. split; [by eapply Hpairs|done].
  - destruct (Hp eq_refl) as [p Hp']. unfold _event_socketpair_start. rewrite Hp'. cbn [deref mbind outcome_bind].
    destruct (_ =? FDE_READ); [|destruct (_ =? FDE_WRITE)]; cbn; by split; [apply calm_same|].
Qed.

Lemma check_spec d k :
  ok d -> hook_ok d k -> exists b k' d', check d k = Done (b, k', d') /\ quiet d k d' k'.
Proof.
  intros Hok Hk. destruct (hook_class d k Hok Hk) as (i & c & Hi & Hc & Hcl & Hl & Hp). unfold check. rewrite Hc.
  destruct c; unfold the_fh; rewrite ?Hi; cbn [deref mbind outcome_bind].
  - eexists _, _, _. split; [done|]. by split; [apply calm_same|].
  - unfold _event_socket_check. destruct (WSAEnumNetworkEvents _ _ _) as [[e|] w]; [case_match|];
      (eexists _, _, _; split; [done|]); (split; [by apply calm_same|]); rewrite ?verify_shape; done.
  - eexists _, _, _. split; [done|]. by split; [apply calm_same|].
Qed.

Lemma peek_spec d k :
  ok d -> hook_ok d k ->
  exists b k' d', peek d k = Done (b, k', d') /\ quiet d k d' k' /\ (hook_ready d k = true -> b = true).
Proof.
  intros Hok Hk. destruct (hook_class d k Hok Hk) as (i & c & Hi & Hc & Hcl & Hl & Hp). unfold peek. rewrite Hc.
  destruct c; unfold the_fh; rewrite ?Hi; cbn [deref mbind outcome_bind].
  - eexists _, _, _. split; [done|]. split; [by split; [apply calm_same|]|]. unfold hook_ready. by rewrite Hc.
  - unfold _event_socket_peek, hook_ready. rewrite Hc. destruct (WSAEnumNetworkEvents _ _ _) as [[e|] w];
      (eexists _, _, _; split; [done|]); (split; [|done]); (split; [by apply calm_same|]); rewrite ?verify_shape; done.
  - destruct (Hp eq_refl) as [p Hp']. unfold _event_socketpair_peek.
    destruct (pair_prepare_spec d i k p Hp' Hc Hi) as (k' & -> & Hs & Hr). cbn. eexists _, _, _. split; [done|].
    split; [by split; [apply calm_same|]|]. intros E. apply Hr in E. by destruct (Z.eqb_spec (ready k') 0).
Qed.

(** The hooks of a list being walked are the looper's, up to their state. *)
Definition known s l : Prop := Forall (fun k => exists k0, k0 ∈ hooks s /\ shape k = shape k0) l.

Definition turn s s' : Prop := ev_inv s' /\ calm (desc s) (desc s') /\ more s s'.

Lemma turn_trans s1 s2 s3 : turn s1 s2 -> turn s2 s3 -> turn s1 s3.
Proof. intros (A1 & A2 & A3) (B1 & B2 & B3). split; [done|]. split; [by eapply calm_trans|by eapply more_trans]. Qed.

Lemma known_turn s s' l : turn s s' -> known s l -> known s' l.
Proof. intros (_ & _ & _ & E & _). unfold known. by rewrite E. Qed.

Lemma known_shape s l l' : shape <$> l' = shape <$> l -> known s l -> known s l'.
Proof.
  intros E Hk. revert l' E. induction Hk as [|k l (k0 & Hk0 & E0) Hk IH]; intros [|k' l'] E; try done; [constructor|].
  injection E as E1 E2 E3 E. constructor; [|by apply IH]. exists k0. split; [done|]. rewrite <- E0. unfold shape. congruence.
Qed.

Lemma known_refl s : known s (hooks s).
Proof. apply Forall_forall. eauto. Qed.

Lemma known_ok s k k0 : ev_inv s -> k0 ∈ hooks s -> shape k = shape k0 -> hook_ok (desc s) k.
Proof.
  intros HI Hk0 E. apply (hook_ok_shape _ k0 k); [done|]. destruct (ei_hooks _ HI) as [_ Hall]. by apply (proj1 (Forall_forall _ _) Hall).
Qed.

Lemma desc_turn s d : ev_inv s -> calm (desc s) d -> turn s (put_desc s d).
Proof. intros HI Hc. split; [by apply (ev_same s)|]. split; [done|apply more_desc]. Qed.

Lemma hook_ready_calm d d' k : calm d d' -> pairs d' = pairs d -> hook_ok d k -> hook_ready d' k = hook_ready d k.
Proof.
  intros [_ Hf] Hp (_ & i & Hi & (Hu & _) & _). unfold hook_ready. destruct (Hf i Hu) as (_ & _ & E). by rewrite Hi, E, Hp.
Qed.

(** Signalling, after a class's function changed the hook and the descriptors. *)
Lemma quiet_turn s k k0 d k' :
  ev_inv s -> k0 ∈ hooks s -> shape k = shape k0 -> quiet (desc s) k d k' ->
  turn s (put_desc s d) /\ known (put_desc s d) [k'] /\
  exists s', event_hook_signal (put_desc s d) k' = Done s' /\ turn s s' /\ desc s' = d /\ signalled s' k'.
Proof.
  intros HI Hk0 E (Hc & Hp & Hs). pose proof (desc_turn s d HI Hc) as Ht. split; [done|].
  split; [constructor; [|done]; exists k0; split; [done|congruence]|].
  destruct (signal_spec (put_desc s d) k' k0 (proj1 Ht) Hk0) as (s' & E1 & HI' & Ed & Hm & Hsig); [congruence|].
  exists s'. split; [done|]. split; [|done]. split; [done|]. split; [by rewrite Ed|].
  eapply more_trans; [apply Ht|done].
Qed.

Lemma prepare_all_spec l s g :
  ev_inv s -> known s l ->
  exists l' s' g', prepare_all l s g = Done (l', s', g') /\ shape <$> l' = shape <$> l /\ turn s s' /\
    pairs (desc s') = pairs (desc s) /\ (g' = false -> g = false /\ Forall (fun k => hook_ready (desc s) k = false) l).
Proof.
  revert s g. induction l as [|k l IH]; intros s g HI Hk.
  { exists [], s, g. split_and!; try done. split; [done|]. split; [apply calm_same; [apply HI|done]|apply more_refl]. }
  apply Forall_cons in Hk as [(k0 & Hk0 & E0) Hk]. cbn [prepare_all].
  pose proof (known_ok s (with_ready k 0) k0 HI Hk0 E0) as Hok.
  destruct (prepare_spec (desc s) (with_ready k 0) (ei_ok _ HI) Hok) as (k' & d' & -> & Hq & Hr). cbn [mbind outcome_bind].
  destruct (quiet_turn s (with_ready k 0) k0 d' k' HI Hk0 E0 Hq) as (Ht & _ & s1 & Es1 & Ht1 & Ed1 & _). destruct Hq as (Hc & Hp & Hs).
  assert (forall s2 g2, turn s s2 -> desc s2 = d' -> (g2 = false -> g = false /\ hook_ready (desc s) k = false) ->
    exists l' s' g', ('(l, s, g) ← prepare_all l s2 g2; Done (k' :: l, s, g)) = Done (l', s', g') /\
      shape <$> l' = shape <$> k :: l /\ turn s s' /\ pairs (desc s') = pairs (desc s) /\
      (g' = false -> g = false /\ Forall (fun k => hook_ready (desc s) k = false) (k :: l))) as Hrest.
  { intros s2 g2 Ht2 Ed2 Hg2.
    destruct (IH s2 g2 (proj1 Ht2) (known_turn _ _ _ Ht2 Hk)) as (l' & s' & g' & -> & El & Ht' & Ep & Hg').
    exists (k' :: l'), s', g'. split; [done|]. split; [rewrite !fmap_cons; by rewrite El, Hs|]. split; [by eapply turn_trans|].
    split; [by rewrite Ep, Ed2|]. intros Hf. destruct (Hg' Hf) as [Hf2 Hall]. destruct (Hg2 Hf2) as [Hg Hr2].
    split; [done|]. constructor; [done|]. apply Forall_forall. intros k2 Hk2.
    rewrite <- (proj1 (Forall_forall _ _) Hall k2 Hk2). symmetry. apply hook_ready_calm; [apply Ht2|by rewrite Ed2|].
    apply (proj1 (Forall_forall _ _) Hk) in Hk2 as (k3 & Hk3 & E3). by apply (known_ok s k2 k3). }
  destruct (Z.eqb_spec (ready k') 0) as [Ez|Ez]; cbn [mbind outcome_bind].
  - apply Hrest; [done|done|]. intros ->. split; [done|]. destruct (hook_ready (desc s) k) eqn:E; [|done]. by apply Hr in E.
  - rewrite Es1. cbn [mbind outcome_bind]. by apply Hrest.
Qed.

Lemma hook_ok_calm d d' k : calm d d' -> hook_ok d k -> hook_ok d' k.
Proof.
  intros Hc (Hw & i & Hi & Hl & Hk). split; [done|]. exists i. split; [done|]. split; [by eapply live_calm|].
  destruct Hc as [_ Hf]. by destruct (Hf i (proj1 Hl)) as (_ & -> & _).
Qed.

(** The looper has at most one hook per slot of the table, so the handles fit. *)
Lemma hooks_few d l : ok d -> hooks_ok d l -> (length l <= WIN32_MAX_FHS)%nat.
Proof.
  intros Hok [Hnd Hall]. rewrite <- (length_fmap fh l).
  transitivity (length (Some <$> seq 0 WIN32_MAX_FHS)); [|by rewrite length_fmap, length_seq].
  apply submseteq_length, NoDup_submseteq; [done|]. intros f Hf. apply list_elem_of_fmap in Hf as (k & -> & Hk).
  apply (proj1 (Forall_forall _ _) Hall) in Hk as (_ & i & -> & Hl & _). apply list_elem_of_fmap. exists i.
  split; [done|]. apply elem_of_seq. pose proof (live_below d i Hok Hl). lia.
Qed.

Lemma start_all_spec l d htab :
  ok d -> Forall (hook_ok d) l -> (length htab + length l <= WIN32_MAX_FHS)%nat ->
  match start_all l d htab with
  | Done (l', d', _) => calm d d' /\ pairs d' = pairs d /\ shape <$> l' = shape <$> l
  | Stop why => tolerated why
  | Undef _ => False
  end.
Proof.
  revert d htab. induction l as [|k l IH]; intros d htab Hok Hall Hlen.
  { cbn. split; [by apply calm_same|done]. }
  apply Forall_cons in Hall as [Hk Hall]. cbn [start_all]. pose proof (start_spec d k Hok Hk) as Hs.
  destruct (start d k) as [[[b k'] d']| |]; cbn [mbind outcome_bind]; [|done..]. destruct Hs as (Hc & Hp & Hs).
  destruct b; cbn [negb]; [|rewrite !fmap_cons, Hs; done]. cbn [length] in Hlen.
  assert (Forall (hook_ok d') l) as Hall' by (eapply Forall_impl; [done|]; intros; by eapply hook_ok_calm).
  assert (forall ht, (length ht <= S (length htab))%nat ->
    match ('(l, d, r) ← start_all l d' ht; Done (k' :: l, d, r)) with
    | Done (l', d', _) => calm d d' /\ pairs d' = pairs d /\ shape <$> l' = shape <$> k :: l
    | Stop why => tolerated why | Undef _ => False end) as Hrest.
  { intros ht Hht. pose proof (IH d' ht (proj1 Hc) Hall' ltac:(lia)) as Hi.
    destruct (start_all l d' ht) as [[[l' d2] r]| |]; cbn [mbind outcome_bind]; [|done..].
    destruct Hi as (Hc2 & Hp2 & Hs2). split; [by eapply calm_trans|]. split; [congruence|]. by rewrite !fmap_cons, Hs, Hs2. }
  destruct (_ || _); cbn [mbind outcome_bind]; [apply Hrest; lia|].
  rewrite (proj2 (Nat.ltb_lt _ _)) by lia. cbn [mbind outcome_bind]. apply Hrest. rewrite length_app. cbn. lia.
Qed.

Lemma check_all_spec l hd s :
  ev_inv s -> known s l ->
  exists l' s' g, check_all l hd s = Done (l', s', g) /\ shape <$> l' = shape <$> l /\ turn s s'.
Proof.
  revert s. induction l as [|k l IH]; intros s HI Hk.
  { eexists _, _, _. split; [done|]. split; [done|]. split; [done|]. split; [apply calm_same; [apply HI|done]|apply more_refl]. }
  apply Forall_cons in Hk as [(k0 & Hk0 & E0) Hk]. cbn [check_all].
  assert (forall s2 k', turn s s2 -> shape k' = shape k ->
    exists l' s' g, ('(l, s, g) ← check_all l hd s2; Done (k' :: l, s, g)) = Done (l', s', g) /\ shape <$> l' = shape <$> k :: l /\ turn s s') as Hrest.
  { intros s2 k' Ht Hs. destruct (IH s2 (proj1 Ht) (known_turn _ _ _ Ht Hk)) as (l' & s' & g & -> & El & Ht').
    eexists _, _, _. split; [done|]. rewrite !fmap_cons, El, Hs. split; [done|]. by eapply turn_trans. }
  case_decide as E; [|apply Hrest; [|done]; split; [done|]; split; [apply calm_same; [apply HI|done]|apply more_refl]].
  destruct (check_spec (desc s) k (ei_ok _ HI)) as (b & k' & d' & -> & Hq); [by eapply known_ok|]. cbn [mbind outcome_bind].
  destruct (quiet_turn s k k0 d' k' HI Hk0 E0 Hq) as (Ht & _ & s1 & Es1 & Ht1 & _). destruct Hq as (_ & _ & Hs).
  destruct b; [|by apply Hrest]. rewrite Es1. cbn [mbind outcome_bind]. eexists _, _, _. split; [done|].
  by rewrite !fmap_cons, Hs.
Qed.

Lemma peek_all_spec l s :
  ev_inv s -> known s l ->
  exists l' s', peek_all l s = Done (l', s') /\ shape <$> l' = shape <$> l /\ turn s s' /\ pairs (desc s') = pairs (desc s) /\
    Forall (fun k => hook_ready (desc s) k = true -> signalled s' k) l'.
Proof.
  revert s. induction l as [|k l IH]; intros s HI Hk.
  { eexists _, _. split; [done|]. split_and!; try done. split; [done|]. split; [apply calm_same; [apply HI|done]|apply more_refl]. }
  apply Forall_cons in Hk as [(k0 & Hk0 & E0) Hk]. cbn [peek_all].
  pose proof (known_ok s k k0 HI Hk0 E0) as Hok.
  destruct (peek_spec (desc s) k (ei_ok _ HI) Hok) as (b & k' & d' & -> & Hq & Hr). cbn [mbind outcome_bind].
  destruct (quiet_turn s k k0 d' k' HI Hk0 E0 Hq) as (Ht & _ & s1 & Es1 & Ht1 & Ed1 & Hsig). destruct Hq as (Hc & Hp & Hs).
  assert (forall s2, turn s s2 -> desc s2 = d' -> (hook_ready (desc s) k = true -> signalled s2 k') ->
    exists l' s', ('(l, s) ← peek_all l s2; Done (k' :: l, s)) = Done (l', s') /\ shape <$> l' = shape <$> k :: l /\ turn s s' /\
      pairs (desc s') = pairs (desc s) /\ Forall (fun k => hook_ready (desc s) k = true -> signalled s' k) l') as Hrest.
  { intros s2 Ht2 Ed2 Hk'.
    destruct (IH s2 (proj1 Ht2) (known_turn _ _ _ Ht2 Hk)) as (l' & s' & -> & El & Ht' & Ep & Hall).
    eexists _, _. split; [done|]. rewrite !fmap_cons, El, Hs. split; [done|]. split; [by eapply turn_trans|].
    split; [by rewrite Ep, Ed2|]. constructor.
    - rewrite (hook_ready_shape _ k' k Hs). intros E. apply (more_signalled s2); [apply Ht'|auto].
    - pose proof (known_shape _ _ _ El Hk) as Hkl. apply Forall_forall. intros k2 Hk2 E.
      apply (proj1 (Forall_forall _ _) Hall k2 Hk2). rewrite <- E. apply hook_ready_calm; [apply Ht2|by rewrite Ed2|].
      apply (proj1 (Forall_forall _ _) Hkl) in Hk2 as (k3 & Hk3 & E3). by apply (known_ok s k2 k3). }
  destruct b; cbn [mbind outcome_bind].
  - rewrite Es1. cbn [mbind outcome_bind]. by apply Hrest.
  - apply Hrest; [done|done|]. intros E. by apply Hr in E.
Qed.

(** Other threads use the pipes only through their functions: those stay well formed,
    and no pair is made, freed or given up meanwhile. *)
Definition pairs_kept (ps ps' : gmap Z SocketPair) : Prop :=
  forall q, match ps !! q, ps' !! q with
            | Some p, Some p' => a_fd p' = a_fd p /\ users p' = users p /\
                (wf (a2b_bip p) -> wf (a2b_bip p')) /\ (wf (b2a_bip p) -> wf (b2a_bip p'))
            | None, None => True
            | _, _ => False
            end.

Lemma calm_pairs d w ps : ok d -> pairs_kept (pairs d) ps -> calm d (put_pairs (put_world d w) ps).
Proof.
  intros [Ht (Hnp & Hends & Hpairs)] Hk. split; [|by apply keeps_frame]. split; [done|]. split; [done|]. split.
  - intros i Hi. destruct (Hends i Hi) as [?|[p Hp]]; [by left|right]. specialize (Hk (u (get_fh d i))). rewrite Hp in Hk.
    cbn. destruct (ps !! u (get_fh d i)) eqn:E; [|done]. change (get_fh (put_pairs _ _) i) with (get_fh d i). by rewrite E.
  - intros q p' Hp'. cbn in Hp'. specialize (Hk q). rewrite Hp' in Hk. destruct (pairs d !! q) as [p|] eqn:Hp; [|done].
    destruct Hk as (_ & E & Ha & Hb). destruct (Hpairs q p Hp) as (? & ? & ? & Hu). rewrite E.
    split; [done|]. split; [auto|]. split; [auto|done].
Qed.

End hooks.

Class WinEventsLaws (W : Type) `{WinEvents W} : Prop :=
  wait_keeps_pairs : forall w ps l r ps' w',
    WaitForMultipleObjects w ps l = Some (r, ps', w') -> pairs_kept ps ps'.

Section process.
Context {W : Type} `{Win32 W} `{WinEventsLaws W}.
Implicit Types (s : looper W) (d : win W) (l : list hook) (k : hook).

Lemma wait_loop_spec fuel l htab s :
  ev_inv s -> known s l ->
  match wait_loop fuel l htab s with
  | Some (Done (l', s')) => shape <$> l' = shape <$> l /\ turn s s'
  | Some (Stop why) => tolerated why
  | Some (Undef _) => False
  | None => True
  end.
Proof.
  revert l s. induction fuel as [|fuel IH]; intros l s HI Hk; [done|]. cbn [wait_loop].
  destruct (_ <? _); [unfold tolerated; set_solver|].
  destruct (WaitForMultipleObjects _ _ _) as [[[r ps] w]|] eqn:E; [|done]. cbn [mbind option_bind].
  assert (turn s (put_desc s (put_pairs (put_world (desc s) w) ps))) as Ht.
  { apply desc_turn; [done|]. apply calm_pairs; [apply HI|]. by eapply wait_keeps_pairs. }
  set (s1 := put_desc s _) in *. assert (known s1 l) as Hk1 by (by eapply known_turn).
  assert (forall l2 s2, shape <$> l2 = shape <$> l -> turn s s2 ->
    match wait_loop fuel l2 htab s2 with
    | Some (Done (l', s')) => shape <$> l' = shape <$> l /\ turn s s'
    | Some (Stop why) => tolerated why | Some (Undef _) => False | None => True end) as Hagain.
  { intros l2 s2 El Ht2. assert (known s2 l2) as Hk2 by (apply (known_shape _ l); [done|]; by eapply known_turn).
    pose proof (IH l2 s2 (proj1 Ht2) Hk2) as Hi.
    destruct (wait_loop fuel l2 htab s2) as [[[l' s']| |]|]; try done. destruct Hi as [El' Ht'].
    split; [congruence|]. by eapply turn_trans. }
  destruct (if r =? WAIT_FAILED then None else _) as [hd|]; [|by apply Hagain].
  destruct (check_all_spec l hd s1 (proj1 Ht) Hk1) as (l' & s' & g & -> & El & Ht').
  assert (turn s s') as Hs' by (by apply (turn_trans s s1)).
  destruct g; [done|]. by apply Hagain.
Qed.

Lemma stop_shape k : shape (stop k) = shape k.
Proof. unfold stop. by destruct (kind k) as [[]|]. Qed.
Lemma stop_shapes l : shape <$> (stop <$> l) = shape <$> l.
Proof. rewrite <- list_fmap_compose. apply list_fmap_ext. intros ? k _. apply stop_shape. Qed.

(** What a turn of the loop promises: every fdevent keeps what it is and asks for,
    pending ones stay pending, and the hooks that are ready by then are signalled. *)
Definition turned s s' : Prop :=
  ev_inv s' /\ calm (desc s) (desc s') /\ table s' = table s /\ shape <$> hooks s' = shape <$> hooks s /\
  (forall p, p ∈ pend s -> p ∈ pend s') /\
  (forall p f, fdes s !! p = Some f -> exists f', fdes s' !! p = Some f' /\ fd f' = fd f /\ func f' = func f /\
     arg f' = arg f /\ interest f' = interest f /\ Z.land (events f') (events f) = events f) /\
  forall k, k ∈ hooks s' -> hook_ready (desc s') k = true -> signalled s' k.

Lemma turned_end s s' l :
  turn s s' -> shape <$> l = shape <$> hooks s ->
  Forall (fun k => hook_ready (desc s') k = true -> signalled s' k) l -> turned s (put_hooks s' l (free_hooks s')).
Proof.
  intros (HI & Hc & (E1 & E2 & _ & Hp & Hf)) El Hall. split.
  { apply (ev_same s'); [done..| |cbn; congruence]. apply calm_same; [apply HI|done]. }
  split_and!; try done. intros k Hk. by apply (proj1 (Forall_forall _ _) Hall k Hk).
Qed.

Lemma process_end_spec s s1 l :
  turn s s1 -> shape <$> l = shape <$> hooks s ->
  exists s', process_end l s1 = Done s' /\ turned s s'.
Proof.
  intros Ht El. assert (known s1 l) as Hk.
  { apply (known_shape _ (hooks s)); [done|]. eapply known_turn; [done|]. apply known_refl. }
  destruct (peek_all_spec l s1 (proj1 Ht) Hk) as (l' & s2 & E & El' & Ht2 & Ep & Hall).
  unfold process_end. rewrite E. cbn [mbind outcome_bind]. eexists. split; [done|].
  apply turned_end; [by eapply turn_trans|congruence|].
  apply Forall_forall. intros k2 Hk2 Hr. apply (proj1 (Forall_forall _ _) Hall k2 Hk2). rewrite <- Hr. symmetry.
  apply hook_ready_calm; [apply Ht2|done|]. pose proof (known_shape _ _ _ El' Hk) as Hkl.
  apply (proj1 (Forall_forall _ _) Hkl) in Hk2 as (k3 & Hk3 & E3). apply (known_ok s1 k2 k3); [apply Ht|done|done].
Qed.

Lemma process_spec fuel s :
  ev_inv s ->
  match fdevent_process fuel s with
  | Some (Done s') => turned s s'
  | Some (Stop why) => tolerated why
  | Some (Undef _) => False
  | None => forall k, k ∈ hooks s -> hook_ready (desc s) k = false
  end.
Proof.
  intros HI. unfold fdevent_process.
  destruct (prepare_all_spec (hooks s) s false HI (known_refl s)) as (l & s1 & g & -> & El & Ht & Ep & Hg).
  destruct g.
  { destruct (process_end_spec s s1 l Ht El) as (s' & -> & Hs'). done. }
  destruct (Hg eq_refl) as [_ Hidle]. pose proof (ei_hooks _ (proj1 Ht)) as Hh.
  assert (hooks_ok (desc s1) l) as Hl.
  { eapply shape_hooks_ok; [|exact Hh]. destruct Ht as (_ & _ & _ & E & _). by rewrite E. }
  pose proof (start_all_spec l (desc s1) [] (ei_ok _ (proj1 Ht)) (proj2 Hl)
    (hooks_few (desc s1) l (ei_ok _ (proj1 Ht)) Hl)) as Hst.
  destruct (start_all l (desc s1) []) as [[[l' d] r]| |]; [|done..]. destruct Hst as (Hc & Hp & El').
  assert (turn s (put_desc s1 d)) as Ht1 by (eapply turn_trans; [done|apply desc_turn; [apply Ht|done]]).
  assert (turned s (put_hooks (put_desc s1 d) l' (free_hooks s1))) as Hquit.
  { apply (turned_end s (put_desc s1 d)); [done|congruence|]. apply Forall_forall. intros k Hk Hr. exfalso.
    assert (shape <$> l' = shape <$> hooks s) as E by congruence.
    pose proof (known_shape s _ _ E (known_refl s)) as Hkn. apply (proj1 (Forall_forall _ _) Hkn) in Hk as (k0 & Hk0 & E0).
    rewrite (hook_ready_shape _ k k0 E0), (hook_ready_calm (desc s) d) in Hr.
    - by rewrite (proj1 (Forall_forall _ _) Hidle k0 Hk0) in Hr.
    - apply Ht1.
    - cbn. congruence.
    - by apply (known_ok s k0 k0). }
  destruct r as [[|h0 htab]|]; [done| |done].
  assert (known (put_desc s1 d) l') as Hk'.
  { eapply known_shape; [|eapply known_turn; [exact Ht1|apply known_refl]]. congruence. }
  pose proof (wait_loop_spec fuel l' (h0 :: htab) (put_desc s1 d) (proj1 Ht1) Hk') as Hw.
  destruct (wait_loop _ _ _ _) as [[[l2 s2]| |]|]; cbn [mbind option_bind outcome_bind]; [|done..|].
  - destruct Hw as [El2 Ht2]. destruct (process_end_spec s s2 (stop <$> l2)) as (s' & E & Hs').
    + by eapply turn_trans.
    + rewrite stop_shapes. congruence.
    + rewrite E. done.
  - intros k Hk. by apply (proj1 (Forall_forall _ _) Hidle).
Qed.

(** ** The interface *)

Lemma no_table_no_hooks s : ev_inv s -> table s = [] -> hooks s = [].
Proof.
  intros HI Ht. destruct (hooks s) as [|k l] eqn:E; [done|]. exfalso. pose proof (ei_hooks _ HI) as [Hnd Hall].
  rewrite E in Hnd, Hall. apply Forall_cons in Hall as [(Hw & i & Hi & _) _].
  destruct (ei_idle _ HI i) as [p Hp]; [|by rewrite Ht in Hp]. rewrite E, (want_in (k :: l) k i); [done|done|by left|done].
Qed.

Lemma grow_256 i : (i < WIN32_MAX_FHS)%nat -> grow 8 256 (Z.of_nat i) = 256.
Proof. intros Hi. cbn [grow]. by rewrite (proj2 (Z.leb_gt 256 (Z.of_nat i))) by (unfold WIN32_MAX_FHS in *; lia). Qed.

(** A new table: the slots of all possible descriptors are zeroed even where a slot is
    larger than an int. *)
Lemma grow_table_new ptr_size g s i :
  table s = [] -> (i < WIN32_MAX_FHS)%nat ->
  let zeroed := Z.to_nat (4 * 256 / ptr_size) in
  grow_table ptr_size g s (Z.of_nat i) =
    put_table (fdevent_init s) (replicate zeroed None ++ drop zeroed (take 256 g)).
Proof.
  intros Ht Hi. unfold grow_table. rewrite Ht. change (Z.of_nat (length [])) with 0. change (0 =? 0) with true. cbv iota.
  rewrite (grow_256 i Hi). cbn [table fdevent_init put_hooks]. by rewrite Ht.
Qed.

Lemma zeroed_slots ptr_size g j :
  ptr_size = 4 \/ ptr_size = 8 -> (j < WIN32_MAX_FHS)%nat -> length g = 256%nat ->
  let t := replicate (Z.to_nat (4 * 256 / ptr_size)) None ++ drop (Z.to_nat (4 * 256 / ptr_size)) (take 256 g) in
  t !! j = Some (None : option ptr) /\ length t = 256%nat.
Proof.
  intros Hsz Hj Hg t. unfold t. rewrite length_app, length_replicate, length_drop, length_take, Hg.
  assert (128 <= Z.to_nat (4 * 256 / ptr_size) <= 256)%nat as Hz by (destruct Hsz as [->| ->]; vm_compute; lia).
  split; [|lia]. rewrite lookup_app_l by (rewrite length_replicate; unfold WIN32_MAX_FHS in *; lia).
  apply lookup_replicate_2. unfold WIN32_MAX_FHS in *. lia.
Qed.

(** Installing an fdevent on a descriptor that is open and not watched. *)
Lemma install_spec ptr_size g s p i fn a :
  ev_inv s -> ptr_size = 4 \/ ptr_size = 8 -> length g = 256%nat ->
  (forall f, fdes s !! p = Some f -> active f = false /\ is_pending f = false) ->
  live (desc s) i -> (forall q f, fdes s !! q = Some f -> active f = true -> fd f <> descriptor i) ->
  exists s', fdevent_install ptr_size g s p (descriptor i) fn a = Done s' /\ ev_inv s' /\
    fdes s' = <[p := mk_fde (descriptor i) FDE_ACTIVE 0 fn a]> (fdes s) /\ desc s' = desc s.
Proof.
  intros HI Hsz Hg Hp Hl Hfree. pose proof (live_below _ _ (ei_ok _ HI) Hl) as Hlt.
  unfold fdevent_install. set (f := mk_fde (descriptor i) FDE_ACTIVE 0 fn a). set (s0 := put_fde s p f).
  unfold fdevent_register, get_fde. change (fdes s0) with (<[p := f]> (fdes s)). rewrite lookup_insert_eq. cbn [deref mbind outcome_bind].
  replace (fd f - WIN32_FH_BASE) with (Z.of_nat i) by (cbn; unfold descriptor; lia).
  rewrite (proj2 (Z.ltb_ge _ _)) by lia.
  assert (exists s1, (if Z.of_nat (length (table s0)) <=? Z.of_nat i
      then if 32000 <? fd f then Stop "bogus huuuuge fd" else Done (grow_table ptr_size g s0 (Z.of_nat i)) else Done s0) = Done s1 /\
    fdes s1 = fdes s0 /\ pend s1 = pend s /\ desc s1 = desc s /\ hooks s1 = hooks s /\ Z.of_nat (length (table s1)) = 256 /\
    (forall j, (j < WIN32_MAX_FHS)%nat -> forall q, table s1 !! j = Some (Some q) <-> table s !! j = Some (Some q))) as (s1 & -> & E1 & E2 & E3 & E4 & E5 & E6).
  { change (table s0) with (table s). destruct (ei_size _ HI) as [Ht|Ht].
    - rewrite Ht, (proj2 (Z.leb_le _ _)) by (cbn; lia). rewrite (proj2 (Z.ltb_ge _ _)) by (cbn; unfold descriptor, WIN32_MAX_FHS, WIN32_FH_BASE in *; lia).
      eexists. split; [done|]. rewrite (grow_table_new ptr_size g s0 i Ht Hlt). cbn [fdes pend desc hooks table put_table put_hooks fdevent_init].
      split; [done|]. split; [done|]. split; [done|]. split; [by rewrite (no_table_no_hooks s HI Ht)|].
      split; [by rewrite (proj2 (zeroed_slots ptr_size g i Hsz Hlt Hg))|]. intros j Hj q.
      rewrite (proj1 (zeroed_slots ptr_size g j Hsz Hj Hg)). by rewrite lookup_nil.
    - rewrite (proj2 (Z.leb_gt _ _)) by (unfold WIN32_MAX_FHS in *; lia). exists s0. by split_and!. }
  cbn [mbind outcome_bind fdes put_table]. rewrite Nat2Z.id, E1. change (fdes s0) with (<[p := f]> (fdes s)). rewrite lookup_insert_eq.
  cbn [deref mbind outcome_bind]. assert (forall x, fdevent_connect x f = Done x) as Hcon by done. rewrite Hcon.
  cbn [mbind outcome_bind fdes put_table]. rewrite E1. change (fdes s0) with (<[p := f]> (fdes s)). rewrite lookup_insert_eq. cbn [deref mbind outcome_bind].
  change (set_state f (Z.lor (state f) FDE_ACTIVE)) with f. eexists. split; [done|].
  cbn [fdes put_fde put_table desc]. rewrite E1, E3. change (fdes s0) with (<[p := f]> (fdes s)). rewrite insert_insert_eq. split; [|done].
  assert (forall q h, fdes s !! q = Some h -> active h = true \/ is_pending h = true -> q <> p) as Hne.
  { intros q h0 Hq Ha ->. destruct (Hp h0 Hq). destruct Ha; congruence. }
  assert (forall j q, (j < WIN32_MAX_FHS)%nat -> <[i := Some p]> (table s1) !! j = Some (Some q) <->
    if decide (j = i) then q = p else table s !! j = Some (Some q)) as Htab.
  { intros j q Hj. case_decide as E; [subst j; rewrite list_lookup_insert_eq by (unfold WIN32_MAX_FHS in *; lia); naive_solver|].
    rewrite list_lookup_insert_ne by done. by apply E6. }
  assert (want (hooks s) i = 0) as Hidle.
  { destruct (decide (want (hooks s) i = 0)) as [|Hw]; [done|]. destruct (ei_idle _ HI i Hw) as [q Hq].
    destruct (ei_table _ HI i q Hlt Hq) as (h0 & Hh & Ha & Hfd). by destruct (Hfree q h0 Hh Ha). }
  split; cbn [desc hooks fdes pend table put_fde put_table]; rewrite ?E1, ?E2, ?E3, ?E4; change (fdes s0) with (<[p := f]> (fdes s)); rewrite ?insert_insert_eq.
  - apply HI.
  - apply HI.
  - intros q h0 Hq Ha. destruct (decide (q = p)) as [->|Hqp].
    + rewrite lookup_insert_eq in Hq. injection Hq as <-. exists i. split; [done|]. split; [done|]. split; [|done].
      apply Htab; [done|]. by rewrite decide_True.
    + rewrite lookup_insert_ne in Hq by done. destruct (ei_active _ HI q h0 Hq Ha) as (j & Hj & Hlj & Htj & Hwj).
      exists j. split_and!; try done. apply Htab; [by apply (live_below (desc s)); [apply HI|]|].
      rewrite decide_False; [done|]. intros ->. by apply (Hfree q h0).
  - intros j q Hj Hq. apply Htab in Hq; [|done]. case_decide as E.
    + subst j q. exists f. by rewrite lookup_insert_eq.
    + destruct (ei_table _ HI j q Hj Hq) as (h0 & Hh & Ha & Hfd). exists h0. rewrite lookup_insert_ne; [done|].
      apply not_eq_sym. apply (Hne q h0); auto.
  - intros j Hw. destruct (ei_idle _ HI j Hw) as [q Hq]. exists q. destruct (want_hook _ _ Hw) as (k & Hk & Hkj & _).
    pose proof (ei_hooks _ HI) as [_ Hall]. apply (proj1 (Forall_forall _ _) Hall) in Hk as (_ & j' & Hj' & Hlj & _).
    assert (j' = j) as -> by congruence. apply Htab; [by apply (live_below (desc s)); [apply HI|]|].
    rewrite decide_False; [done|]. by intros ->.
  - apply HI.
  - intros q. rewrite (ei_pend _ HI). destruct (decide (q = p)) as [->|Hqp].
    + rewrite lookup_insert_eq. split; [intros (h0 & Hh & Hpe); by destruct (Hne p h0 Hh (or_intror Hpe))|].
      intros (h0 & [= <-] & Hpe). done.
    + by rewrite lookup_insert_ne.
  - right. rewrite length_insert. lia.
Qed.

Lemma elem_removed s p q : q ∈ pend (plist_remove s p) <-> q <> p /\ q ∈ pend s.
Proof. cbn. rewrite list_elem_of_filter. done. Qed.

(** Closing the descriptor of an fdevent taken off the looper. *)
Lemma close_descriptor d i :
  ok d -> live d i -> exists r d', adb_close d (descriptor i) = Done (r, d') /\ ok d' /\
    forall j, used (get_fh d j) = true -> j <> i -> keeps d d' j.
Proof.
  intros Hok Hl. pose proof (adb_close_ok d (descriptor i) Hok) as Hcl. destruct (adb_close _ _) as [[r d']| |]; try done.
  destruct Hcl as (Hok' & Hk & _). exists r, d'. split; [done|]. split; [done|]. intros j Hj Hne. apply Hk; [done|].
  intros E. apply Hne. symmetry. by apply descriptor_inj.
Qed.

Lemma want_live s j : ev_inv s -> want (hooks s) j <> 0 -> live (desc s) j.
Proof.
  intros HI Hw. destruct (want_hook _ _ Hw) as (k & Hk & Hkj & _). pose proof (ei_hooks _ HI) as [_ Hall].
  apply (proj1 (Forall_forall _ _) Hall) in Hk as (_ & j' & Hj' & Hlj & _). congruence.
Qed.

Lemma hooks_ok_keeps d d' l i :
  hooks_ok d l -> want l i = 0 -> (forall j, used (get_fh d j) = true -> j <> i -> keeps d d' j) -> hooks_ok d' l.
Proof.
  intros [Hnd Hall] Hw Hk. split; [done|]. apply Forall_forall. intros k Hkl.
  pose proof (proj1 (Forall_forall _ _) Hall k Hkl) as (Hw' & j & Hj & (Hu & Hl) & Hc).
  split; [done|]. exists j. destruct (Hk j Hu) as (A1 & A2 & A3).
  { intros ->. by rewrite (want_in l k i) in Hw. }
  unfold live. by rewrite A1, A2, A3.
Qed.

(** Removing an fdevent, watched or not. *)
Lemma remove_spec s p f :
  ev_inv s -> fdes s !! p = Some f ->
  exists s', fdevent_remove s p = Done s' /\ ev_inv s' /\
    fdes s' = <[p := set_events (set_state f 0) 0]> (fdes s) /\ forall q, q ∈ pend s' <-> q <> p /\ q ∈ pend s.
Proof.
  intros HI Hp. unfold fdevent_remove, get_fde. rewrite Hp. cbn [deref mbind outcome_bind]. rewrite has_pending, has_active.
  set (s1 := if is_pending f then plist_remove s p else s).
  assert (fdes s1 = fdes s /\ desc s1 = desc s /\ table s1 = table s /\ hooks s1 = hooks s /\ NoDup (pend s1) /\
    forall q, q ∈ pend s1 <-> q <> p /\ q ∈ pend s) as (E1 & E2 & E3 & E4 & E5 & E6).
  { unfold s1. destruct (is_pending f) eqn:Epe.
    - split_and!; try done; [apply NoDup_filter, HI|]. apply elem_removed.
    - split_and!; try done; [apply HI|]. intros q. split; [|tauto]. intros Hq. split; [|done]. intros ->.
      apply (ei_pend _ HI) in Hq as (g & Hg & E). congruence. }
  clearbody s1. set (f' := set_events (set_state f 0) 0).
  assert (forall s2, fdes s2 = fdes s -> pend s2 = pend s1 -> ok (desc s2) -> hooks_ok (desc s2) (hooks s2) ->
    (table s2 = [] \/ Z.of_nat (length (table s2)) = 256) ->
    (forall q g j, q <> p -> fdes s !! q = Some g -> active g = true -> fd g = descriptor j -> table s !! j = Some (Some q) -> live (desc s) j ->
       live (desc s2) j /\ table s2 !! j = Some (Some q) /\ want (hooks s2) j = want (hooks s) j) ->
    (forall j q, (j < WIN32_MAX_FHS)%nat -> table s2 !! j = Some (Some q) -> table s !! j = Some (Some q) /\ q <> p) ->
    (forall j, want (hooks s2) j <> 0 -> want (hooks s) j <> 0 /\ table s !! j <> Some (Some p) /\ table s2 !! j = table s !! j) ->
    exists s', (f ← deref "fdevent" (fdes s2 !! p); Done (put_fde s2 p (set_events (set_state f 0) 0))) = Done s' /\ ev_inv s' /\
      fdes s' = <[p := f']> (fdes s) /\ forall q, q ∈ pend s' <-> q <> p /\ q ∈ pend s) as Hend.
  { intros s2 F1 F2 F3 F4 F5 F6 F7 F8. rewrite F1, Hp. cbn [deref mbind outcome_bind]. eexists. split; [done|].
    split; [|cbn; rewrite F1, F2; done]. split; cbn [desc hooks fdes table pend put_fde]; rewrite ?F1, ?F2; try done.
    - intros q g Hq Hg. destruct (decide (q = p)) as [->|Hne]; [rewrite lookup_insert_eq in Hq; by injection Hq as <-|].
      rewrite lookup_insert_ne in Hq by done. destruct (ei_active _ HI q g Hq Hg) as (j & Hj & Hlj & Htj & Hwj).
      destruct (F6 q g j) as (A1 & A2 & A3); try done. exists j. by rewrite A3.
    - intros j q Hj Hq. destruct (F7 j q Hj Hq) as [Hq' Hne]. destruct (ei_table _ HI j q Hj Hq') as (g & Hg & Ha & Hfd).
      exists g. by rewrite lookup_insert_ne.
    - intros j Hw. destruct (F8 j Hw) as (Hw' & Hnp & ->). by apply HI.
    - intros q. rewrite E6, (ei_pend _ HI). destruct (decide (q = p)) as [->|Hne].
      + rewrite lookup_insert_eq. split; [by intros [? _]|]. by intros (g & [= <-] & ?).
      + rewrite lookup_insert_ne by done. naive_solver. }
  destruct (active f) eqn:Ha; cbn [mbind outcome_bind].
  2:{ assert (forall j, (j < WIN32_MAX_FHS)%nat -> table s !! j <> Some (Some p)) as Hnot.
      { intros j Hj Hq. destruct (ei_table _ HI j p Hj Hq) as (g & Hg & Hga & _). congruence. }
      apply Hend; rewrite ?E2, ?E3, ?E4; try done; try apply HI.
      - intros j q Hj Hq. split; [done|]. intros ->. by apply (Hnot j).
      - intros j Hw. split; [done|]. split; [|done]. apply Hnot. apply (live_below (desc s)); [apply HI|by apply want_live]. }
  destruct (ei_active _ HI p f Hp Ha) as (i & Hi & Hl & Ht & Hwi).
  pose proof (live_below _ _ (ei_ok _ HI) Hl) as Hlt.
  assert (hooked s1 (fdevent_disconnect s1 f) i 0) as ((B1 & B2 & B3) & B4 & B5 & B6).
  { apply disconnect_spec; rewrite ?E2, ?E4; try done; apply HI. }
  set (s2 := fdevent_disconnect s1 f) in *. clearbody s2. rewrite E2 in B4. rewrite E3 in B3. rewrite E4 in B6.
  assert (forall j, (j < WIN32_MAX_FHS)%nat -> j <> i -> table s !! j <> Some (Some p)) as Hnot.
  { intros j Hj Hne Hq. destruct (ei_table _ HI j p Hj Hq) as (g & Hg & _ & Hgj). apply Hne, descriptor_inj. congruence. }
  unfold fdevent_unregister, get_fde. rewrite B1, E1, Hp. cbn [deref mbind outcome_bind]. rewrite Hi.
  replace (descriptor i - WIN32_FH_BASE) with (Z.of_nat i) by (unfold descriptor; lia). rewrite B3, Nat2Z.id.
  pose proof (lookup_lt_Some _ _ _ Ht) as Hlen.
  rewrite (proj2 (Z.ltb_ge _ _)), (proj2 (Z.leb_gt _ _)) by lia. cbn [orb]. rewrite decide_True by done.
  assert (forall d, ok d -> (forall j, used (get_fh (desc s2) j) = true -> j <> i -> keeps (desc s2) d j) ->
    exists s', (f ← deref "fdevent" (fdes (put_desc (put_table s2 (<[i:=None]> (table s))) d) !! p);
                Done (put_fde (put_desc (put_table s2 (<[i:=None]> (table s))) d) p (set_events (set_state f 0) 0))) = Done s' /\ ev_inv s' /\
      fdes s' = <[p := f']> (fdes s) /\ forall q, q ∈ pend s' <-> q <> p /\ q ∈ pend s) as Hdone.
  { intros d Hd Hk. apply Hend; cbn [desc hooks fdes table pend put_desc put_table]; try done.
    - by rewrite B1, E1.
    - eapply hooks_ok_keeps; [done| |done]. by rewrite B6, decide_True.
    - right. rewrite length_insert. destruct (ei_size _ HI) as [E|]; [rewrite E in Ht; done|done].
    - intros q g j Hne Hq Hga Hgj Htj Hlj. assert (j <> i) as Hji by (intros ->; congruence).
      rewrite list_lookup_insert_ne, B6, decide_False by done. split; [|done].
      pose proof (live_calm _ _ _ B4 Hlj) as [Hu Hz]. destruct (Hk j Hu Hji) as (A1 & A2 & A3). unfold live. by rewrite A1, A2, A3.
    - intros j q Hj Hq. destruct (decide (j = i)) as [->|Hji]; [by rewrite list_lookup_insert_eq in Hq|].
      rewrite list_lookup_insert_ne in Hq by done. split; [done|]. intros ->. by apply (Hnot j).
    - intros j. rewrite B6. case_decide as E; [done|]. intros Hw. split; [done|]. rewrite list_lookup_insert_ne by done.
      split; [|done]. apply Hnot; [|done]. apply (live_below (desc s)); [apply HI|by apply want_live]. }
  destruct (has (state f) FDE_DONT_CLOSE); cbn [mbind outcome_bind].
  - apply (Hdone (desc s2)); [apply B4|done].
  - cbn [desc put_table]. destruct (close_descriptor (desc s2) i) as (r & d & -> & Hd & Hk); [apply B4|by eapply live_calm|].
    cbn [mbind outcome_bind]. by apply Hdone.
Qed.

Lemma interest_new st ev :
  Z.land (Z.lor (Z.land st FDE_STATEMASK) (Z.land ev FDE_EVENTMASK)) FDE_EVENTMASK = Z.land ev FDE_EVENTMASK.
Proof.
  rewrite Z.land_lor_distr_l, <- !Z.land_assoc, Z.land_diag. change (Z.land FDE_STATEMASK FDE_EVENTMASK) with 0.
  by rewrite Z.land_0_r.
Qed.

Lemma interest_clear st : Z.land (clear st FDE_PENDING) FDE_EVENTMASK = Z.land st FDE_EVENTMASK.
Proof. unfold clear. rewrite <- Z.land_assoc. by change (Z.land (Z.lnot FDE_PENDING) FDE_EVENTMASK) with FDE_EVENTMASK. Qed.

(** The hooks after the events of [f] were changed, when it is watched at all. *)
Lemma set_hooks s p f ev :
  ev_inv s -> fdes s !! p = Some f ->
  match (if has (state f) FDE_ACTIVE then fdevent_update s f ev else Done s) with
  | Done s1 => same_fdes s s1 /\ calm (desc s) (desc s1) /\ hooks_ok (desc s1) (hooks s1) /\
      forall j, want (hooks s1) j = if decide (active f = true /\ fd f = descriptor j) then ev else want (hooks s) j
  | Stop why => tolerated why
  | Undef _ => False
  end.
Proof.
  intros HI Hp. rewrite has_active. destruct (active f) eqn:Ha.
  - destruct (ei_active _ HI p f Hp Ha) as (i & Hi & Hl & _ & Hw).
    pose proof (update_spec s f i ev (ei_ok _ HI) (ei_hooks _ HI) Hl Hi Hw) as Hu.
    destruct (fdevent_update s f ev) as [s1| |]; [|done..]. destruct Hu as (A1 & A2 & A3 & A4). do 3 (split; [done|]).
    intros j. rewrite A4, Hi. destruct (decide (j = i)) as [->|Hne]; [by rewrite decide_True|].
    rewrite decide_False; [done|]. intros [_ E]. by apply descriptor_inj in E.
  - split; [done|]. split; [apply calm_same; [apply HI|done]|]. split; [apply HI|]. intros j. by rewrite decide_False by naive_solver.
Qed.

(** fdevent_set makes the new events the ones that are wanted. *)
Lemma set_spec s p f ev :
  ev_inv s -> fdes s !! p = Some f ->
  match fdevent_set s p ev with
  | Done s' => ev_inv s' /\ exists f', fdes s' = <[p := f']> (fdes s) /\ fd f' = fd f /\ active f' = active f /\
      interest f' = Z.land ev FDE_EVENTMASK
  | Stop why => tolerated why
  | Undef _ => False
  end.
Proof.
  intros HI Hp. unfold fdevent_set, get_fde. rewrite Hp. cbn [deref mbind outcome_bind]. set (e := Z.land ev FDE_EVENTMASK).
  destruct (Z.eqb_spec (Z.land (state f) FDE_EVENTMASK) e) as [E|_].
  { split; [done|]. exists f. by rewrite insert_id. }
  pose proof (set_hooks s p f e HI Hp) as Hs. destruct (if has _ _ then _ else _) as [s1| |]; [|done..].
  cbn [mbind outcome_bind]. destruct Hs as ((E1 & E2 & E3) & Hc & Hh & Hw).
  set (ns := Z.lor (Z.land (state f) FDE_STATEMASK) e). set (f1 := set_state f ns).
  assert (active f1 = active f /\ is_pending f1 = is_pending f /\ interest f1 = e) as (H8 & H9 & Hi).
  { unfold active, is_pending, interest. cbn [state f1 set_state]. unfold ns, e. rewrite interest_new, !new_state_bits by lia.
    change (8 <? 8) with false. change (9 <? 8) with false. change (8 <? 16) with true. change (9 <? 16) with true. by rewrite !andb_true_r. }
  assert (forall s2 f2, fdes s2 = <[p := f2]> (fdes s) -> desc s2 = desc s1 -> hooks s2 = hooks s1 -> table s2 = table s ->
    fd f2 = fd f -> active f2 = active f -> interest f2 = e -> NoDup (pend s2) ->
    (forall q, q ∈ pend s2 <-> if decide (q = p) then is_pending f2 = true else q ∈ pend s) ->
    ev_inv s2 /\ exists f', fdes s2 = <[p := f']> (fdes s) /\ fd f' = fd f /\ active f' = active f /\ interest f' = e) as Hend.
  { intros s2 f2 F1 F2 F3 F4 F5 F6 F7 F8 F9. split; [|by exists f2].
    apply (ev_replace s s2 p f f2); rewrite ?F2, ?F3, ?F7; try done; apply Hc. }
  change (has (state f1) FDE_PENDING) with (has (state f1) FDE_PENDING). rewrite has_pending, H9.
  destruct (is_pending f) eqn:Epe.
  - cbn [events set_events]. set (f2 := set_events f1 _). destruct (_ =? 0).
    + apply (Hend _ (set_state f2 (clear (state f2) FDE_PENDING))); cbn [fdes put_fde plist_remove put_pend desc hooks table pend]; rewrite ?E1, ?E2, ?E3; try done.
      * unfold active. cbn [state set_state f2]. rewrite clear_pending_bits by lia. change (8 =? 9) with false. by rewrite andb_true_r.
      * unfold interest. cbn [state set_state f2]. rewrite interest_clear. exact Hi.
      * apply NoDup_filter, HI.
      * intros q. rewrite list_elem_of_filter. unfold is_pending. cbn [state set_state f2]. rewrite clear_pending_bits by lia.
        change (9 =? 9) with true. rewrite andb_false_r. clear. case_decide; intuition (congruence || done).
    + apply (Hend _ f2); cbn [fdes put_fde desc hooks table pend]; rewrite ?E1, ?E2, ?E3; try done; [apply HI|].
      intros q. change (is_pending f2) with (is_pending f1). rewrite H9. destruct (decide (q = p)) as [->|]; [|done].
      rewrite (ei_pend _ HI). split; [done|]. intros _. by exists f.
  - apply (Hend _ f1); cbn [fdes put_fde desc hooks table pend]; rewrite ?E1, ?E2, ?E3; try done; [apply HI|].
    intros q. rewrite H9. destruct (decide (q = p)) as [->|]; [|done]. rewrite (ei_pend _ HI). split; [|done].
    intros (g & Hg & E). congruence.
Qed.

(** Taking the next pending fdevent. *)
Lemma win_dispatch_spec s :
  ev_inv s ->
  match pend s with
  | [] => dispatch s = Done (None, s)
  | p :: rest => exists f s', fdes s !! p = Some f /\ dispatch s = Done (Some (fd f, events f, func f, arg f), s') /\
      ev_inv s' /\ pend s' = rest
  end.
Proof.
  intros HI. unfold dispatch. destruct (pend s) as [|p rest] eqn:Ep; [done|].
  destruct (proj1 (ei_pend _ HI p)) as (f & Hf & Hpe); [rewrite Ep; by left|].
  unfold get_fde. cbn [fdes put_pend]. rewrite Hf. cbn [deref mbind outcome_bind].
  set (f' := set_state (set_events f 0) (clear (state f) FDE_PENDING)). eexists f, _. split; [done|]. split; [done|].
  split; [|done]. pose proof (ei_nodup _ HI) as Hnd. rewrite Ep in Hnd. apply NoDup_cons in Hnd as [Hp Hnd].
  apply (ev_replace s _ p f f'); try done.
  - unfold active, f'. cbn [state set_state]. rewrite clear_pending_bits by lia. change (8 =? 9) with false. by rewrite andb_true_r.
  - apply calm_same; [apply HI|done].
  - apply HI.
  - intros j. destruct (decide (active f = true /\ fd f = descriptor j)) as [[Ha Hj]|_]; [|done].
    unfold interest, f'. cbn [state set_state]. rewrite interest_clear. destruct (ei_active _ HI p f Hf Ha) as (i & Hi & _ & _ & Hw).
    cbn [hooks put_fde put_pend]. replace j with i; [done|]. apply descriptor_inj. congruence.
  - intros q. cbn [pend put_fde put_pend]. rewrite Ep. destruct (decide (q = p)) as [->|Hne]; [|rewrite elem_of_cons; tauto].
    split; [done|]. unfold is_pending, f'. cbn [state set_state]. rewrite clear_pending_bits by lia.
    change (9 =? 9) with true. by rewrite andb_false_r.
Qed.

(** ** Any use *)

(** What the program does with the loop: the functions of the interface, one turn of
    either of its loops, and any call on descriptors. *)
Inductive op :=
| Install (g : list (option ptr)) (p : ptr) (i : Z) (fn a : nat)
| Create (g : list (option ptr)) (p : ptr) (i : Z) (fn a : nat)
| Remove (p : ptr) | Destroy (p : ptr)
| SetEvents (p : ptr) (ev : Z) | AddEvents (p : ptr) (ev : Z) | DelEvents (p : ptr) (ev : Z)
| Process (fuel : nat) | Dispatch | Call (c : call).

Variable ptr_size : Z.

Definition exec s (o : op) : option (outcome (looper W)) :=
  match o with
  | Install g p i fn a => Some (fdevent_install ptr_size g s p i fn a)
  | Create g p i fn a => Some (fdevent_create ptr_size g s p i fn a)
  | Remove p => Some (fdevent_remove s p)
  | Destroy p => Some (fdevent_destroy s p)
  | SetEvents p ev => Some (fdevent_set s p ev)
  | AddEvents p ev => Some (fdevent_add s p ev)
  | DelEvents p ev => Some (fdevent_del s p ev)
  | Process fuel => fdevent_process fuel s
  | Dispatch => Some ('(_, s) ← dispatch s; Done s)
  | Call c => o ← run (desc s) c; Some (d ← o; Done (put_desc s d))
  end.

(** The numbers that fdevent_register refuses. *)
Definition bogus (i : Z) : Prop := i < WIN32_FH_BASE \/ 32000 < i.

(** What callers see to: an fdevent is installed on a block of memory not in use, and, unless
    the number is refused, on an open descriptor that nobody watches; the functions are given allocated
    fdevents; a watched descriptor is closed by its fdevent only. *)
Definition pre s (o : op) : Prop :=
  match o with
  | Install g p i fn a | Create g p i fn a =>
      length g = 256%nat /\ (forall f, fdes s !! p = Some f -> active f = false /\ is_pending f = false) /\
      (bogus i \/ exists j, i = descriptor j /\ live (desc s) j /\
         forall q f, fdes s !! q = Some f -> active f = true -> fd f <> i)
  | Remove p | SetEvents p _ | AddEvents p _ | DelEvents p _ => is_Some (fdes s !! p)
  | Destroy p => p = NULL \/ is_Some (fdes s !! p)
  | Process _ | Dispatch => True
  | Call c => call_ok c /\ forall q f, fdes s !! q = Some f -> active f = true -> c <> CClose (fd f)
  end.

Inductive reachable : looper W -> Prop :=
| reachable_init (w : W) : reachable (looper_init w)
| reachable_step s o s' : reachable s -> pre s o -> exec s o = Some (Done s') -> reachable s'.

Hypothesis Hptr : ptr_size = 4 \/ ptr_size = 8.

(** The FATAL checks that a call trips, and with what. *)
Definition refused s (o : op) (why : string) : Prop :=
  match o with
  | Install _ _ i _ _ | Create _ _ i _ _ =>
      (i < WIN32_FH_BASE /\ why = "bogus negative fd") \/ (32000 < i /\ why = "bogus huuuuge fd")
  | Destroy p => p <> NULL /\ why = "fde not created by fdevent_create()" /\
      exists f, fdes s !! p = Some f /\ has (state f) FDE_CREATED = false
  | _ => False
  end.

Definition exec_safe s (o : op) : Prop :=
  match exec s o with
  | Some (Done s') => ev_inv s' /\ forall why, ~ refused s o why
  | Some (Stop why) => tolerated why \/ refused s o why \/ exists c, o = Call c /\ winsock (desc s) = false
  | Some (Undef _) => exists g, o = Call (CPair g) /\ ~ two_free (desc s)
  | None => True
  end.

Lemma set_safe s p ev : ev_inv s -> is_Some (fdes s !! p) ->
  match fdevent_set s p ev with Done s' => ev_inv s' | Stop why => tolerated why | Undef _ => False end.
Proof.
  intros HI [f Hf]. pose proof (set_spec s p f ev HI Hf) as Hs. destruct (fdevent_set s p ev); [by destruct Hs|done..].
Qed.

Lemma created_inv s p f : ev_inv s -> fdes s !! p = Some f -> ev_inv (put_fde s p (set_state f (Z.lor (state f) FDE_CREATED))).
Proof.
  intros HI Hf. assert (forall n, 0 <= n < 10 -> Z.testbit (Z.lor (state f) FDE_CREATED) n = Z.testbit (state f) n) as Hb.
  { intros n Hn. rewrite Z.lor_spec. change FDE_CREATED with (2 ^ 10). rewrite Z.pow2_bits_false by lia. apply orb_false_r. }
  apply (ev_replace s _ p f (set_state f (Z.lor (state f) FDE_CREATED))); try done; try apply HI.
  - unfold active. cbn [state set_state]. by rewrite Hb.
  - apply calm_same; [apply HI|done].
  - intros i. destruct (decide (active f = true /\ fd f = descriptor i)) as [[Ha Hi]|_]; [|done].
    unfold interest. cbn [state set_state hooks put_fde]. rewrite Z.land_lor_distr_l. change (Z.land FDE_CREATED FDE_EVENTMASK) with 0.
    rewrite Z.lor_0_r. destruct (ei_active _ HI p f Hf Ha) as (j & Hj & _ & _ & Hw). replace i with j; [done|].
    apply descriptor_inj. congruence.
  - intros q. cbn [pend put_fde]. destruct (decide (q = p)) as [->|]; [|done]. rewrite (ei_pend _ HI).
    unfold is_pending at 2. cbn [state set_state]. rewrite Hb by lia. split; [intros (g & Hg & E)|intros E; by exists f].
    rewrite Hf in Hg. by injection Hg as <-.
Qed.

Lemma win_init_inv (w : W) : ev_inv (looper_init w).
Proof.
  split; cbn; try done; [apply win_init_ok|split; [apply NoDup_nil_2|done]|apply NoDup_nil_2| |by left].
  intros p. split; [intros Hp; by apply not_elem_of_nil in Hp|]. by intros (f & Hf & _).
Qed.

Lemma call_inv s d c :
  ev_inv s -> ok d ->
  (forall i, used (get_fh (desc s) i) = true -> c <> CClose (descriptor i) -> keeps (desc s) d i) ->
  (forall q f, fdes s !! q = Some f -> active f = true -> c <> CClose (fd f)) -> ev_inv (put_desc s d).
Proof.
  intros HI Hd Hk Hc.
  assert (forall i p, table s !! i = Some (Some p) -> live (desc s) i -> live d i /\ clazz (get_fh d i) = clazz (get_fh (desc s) i)) as Hlive.
  { intros i p Hp [Hu Hz]. pose proof (live_below _ _ (ei_ok _ HI) (conj Hu Hz)) as Hlt.
    destruct (ei_table _ HI i p Hlt Hp) as (f & Hf & Ha & Hi).
    destruct (Hk i Hu) as (E1 & E2 & E3); [rewrite <- Hi; by apply (Hc p f)|]. unfold live. by rewrite E1, E2, E3. }
  split; try apply HI; [done| |].
  - destruct (ei_hooks _ HI) as [Hnd Hall]. split; [done|]. apply Forall_forall. intros k Hkl.
    pose proof (proj1 (Forall_forall _ _) Hall k Hkl) as (Hw & i & Hi & Hl & Hcl). split; [done|]. exists i.
    destruct (ei_idle _ HI i) as [p Hp]; [by rewrite (want_in _ k i)|]. destruct (Hlive i p Hp Hl) as [Hl' Ecl]. cbn [desc put_desc]. by rewrite Ecl.
  - intros p f Hf Ha. destruct (ei_active _ HI p f Hf Ha) as (i & Hi & Hl & Ht & Hw). exists i.
    destruct (Hlive i p Ht Hl) as [Hl' _]. done.
Qed.

Lemma bogus_install s g p i fn a : ev_inv s -> bogus i ->
  exists why, fdevent_install ptr_size g s p i fn a = Stop why /\ refused s (Install g p i fn a) why.
Proof.
  intros HI Hb. unfold fdevent_install, fdevent_register, get_fde. cbn [fdes put_fde]. rewrite lookup_insert_eq. cbn [deref mbind outcome_bind fd].
  destruct (Z.ltb_spec (i - WIN32_FH_BASE) 0) as [Hlt|Hlt]; [eexists; split; [done|]; left; split; [lia|done]|].
  destruct Hb as [|Hb]; [lia|]. assert (Z.of_nat (length (table s)) <= 256) as Hlen by (destruct (ei_size _ HI) as [->|]; cbn; lia).
  cbn [table put_fde]. rewrite (proj2 (Z.leb_le _ _)), (proj2 (Z.ltb_lt _ _)) by (unfold WIN32_FH_BASE in *; lia).
  eexists. split; [done|]. by right.
Qed.
Lemma install_not_refused s g p j fn a why : live (desc s) j -> ok (desc s) -> ~ refused s (Install g p (descriptor j) fn a) why.
Proof.
  intros Hl Hok. pose proof (live_below _ _ Hok Hl). unfold refused, descriptor, WIN32_MAX_FHS, WIN32_FH_BASE in *. lia.
Qed.

Lemma exec_ok s o : ev_inv s -> pre s o -> exec_safe s o.
Proof.
  intros HI Hpre. unfold exec_safe. destruct o as [g p i fn a|g p i fn a|p|p|p ev|p ev|p ev|fuel| |c]; cbn [exec pre] in *.
  - destruct Hpre as (Hg & Hp & [Hb|(j & -> & Hl & Hfree)]).
    + destruct (bogus_install s g p i fn a HI Hb) as (why & -> & Hr). by right; left.
    + destruct (install_spec ptr_size g s p j fn a HI Hptr Hg Hp Hl Hfree) as (s' & -> & HI' & _). split; [done|].
      intros why. by apply (install_not_refused s g p j fn a why Hl), HI.
  - destruct Hpre as (Hg & Hp & [Hb|(j & -> & Hl & Hfree)]); unfold fdevent_create.
    { destruct (bogus_install s g p i fn a HI Hb) as (why & -> & Hr). by right; left. }
    destruct (install_spec ptr_size g s p j fn a HI Hptr Hg Hp Hl Hfree) as (s' & -> & HI' & E & _). cbn [mbind outcome_bind].
    unfold get_fde. rewrite E, lookup_insert_eq. cbn [deref mbind outcome_bind]. split; [apply (created_inv s' p _ HI'); by rewrite E, lookup_insert_eq|].
    intros why. by apply (install_not_refused s g p j fn a why Hl), HI.
  - destruct Hpre as [f Hf]. destruct (remove_spec s p f HI Hf) as (s' & -> & ? & _). split; [done|]. by intros why [].
  - unfold fdevent_destroy. destruct (Nat.eqb_spec p NULL) as [|Hne]; [split; [done|by intros why [? _]]|]. destruct Hpre as [?|[f Hf]]; [done|].
    unfold get_fde. rewrite Hf. cbn [deref mbind outcome_bind]. destruct (has (state f) FDE_CREATED) eqn:Hcr; cbn [negb].
    + destruct (remove_spec s p f HI Hf) as (s' & -> & ? & _). split; [done|]. intros why (_ & _ & f' & Hf' & Hcr'). congruence.
    + right; left. split_and!; [done..|]. by exists f.
  - pose proof (set_safe s p ev HI Hpre) as Hs. destruct (fdevent_set s p ev); [by split; [|intros why []]|by left|done].
  - unfold fdevent_add, get_fde. destruct (Hpre) as [f Hf]. rewrite Hf. cbn [deref mbind outcome_bind].
    pose proof (set_safe s p (Z.lor (Z.land (state f) FDE_EVENTMASK) (Z.land ev FDE_EVENTMASK)) HI Hpre) as Hs.
    destruct (fdevent_set _ _ _); [by split; [|intros why []]|by left|done].
  - unfold fdevent_del, get_fde. destruct (Hpre) as [f Hf]. rewrite Hf. cbn [deref mbind outcome_bind].
    pose proof (set_safe s p (Z.land (Z.land (state f) FDE_EVENTMASK) (Z.lnot (Z.land ev FDE_EVENTMASK))) HI Hpre) as Hs.
    destruct (fdevent_set _ _ _); [by split; [|intros why []]|by left|done].
  - pose proof (process_spec fuel s HI) as Hs. destruct (fdevent_process fuel s) as [[s'| |]|]; [split; [apply Hs|by intros why []]|by left|done..].
  - pose proof (win_dispatch_spec s HI) as Hd. destruct (pend s); [rewrite Hd; by split; [|intros why []]|].
    destruct Hd as (f & s' & _ & -> & ? & _). by split; [|intros why []].
  - destruct Hpre as [Hc Hcl]. pose proof (run_safe (desc s) c (ei_ok _ HI) Hc) as Hs. unfold safe in Hs.
    destruct (run (desc s) c) as [[d| |]|]; cbn [mbind option_bind outcome_bind]; [|by right; right; exists c| |done].
    + destruct Hs as [Hd Hk]. split; [by eapply call_inv|by intros why []].
    + destruct Hs as [[g ->] Ht]. by exists g.
Qed.

Lemma win_reachable_inv s : reachable s -> ev_inv s.
Proof.
  induction 1 as [w|s o s' _ IH Hpre E]; [apply win_init_inv|]. pose proof (exec_ok s o IH Hpre) as Hs.
  unfold exec_safe in Hs. rewrite E in Hs. apply Hs.
Qed.

(** C20 (safety). The Windows event loop and its descriptors, as long as an fdevent is
    installed on a block of memory not in use and on an open descriptor that no other
    fdevent watches (or on a number that is refused), the functions get allocated
    fdevents, and a watched descriptor is closed by its fdevent only.  Then every step leaves hooks, fd
    table and descriptors consistent: no null or freed memory is reached, and neither the
    fd table nor the handle table is overrun.  Of the FATAL checks of the interface one fires
    exactly when a descriptor below WIN32_FH_BASE (-1 too) or above 32000 is installed, or
    an fdevent is destroyed that fdevent_create did not make.  Otherwise the process is
    stopped only by the exits that the code asks for, when the system fails (or Winsock
    does not start) or more handles than MAXIMUM_WAIT_OBJECTS are waited for; and the one
    bad access is that of adb_socketpair with a full table of descriptors. *)
Theorem win_loop_safe s o :
  reachable s -> pre s o ->
  match exec s o with
  | Some (Done s') => ev_inv s' /\ forall why, ~ refused s o why
  | Some (Stop why) => tolerated why \/ refused s o why \/ exists c, o = Call c /\ winsock (desc s) = false
  | Some (Undef _) => exists g, o = Call (CPair g) /\ ~ two_free (desc s)
  | None => True
  end.
Proof. intros Hs Hpre. apply exec_ok; [by apply win_reachable_inv|done]. Qed.

(** C21 (liveness). A turn of the Windows loop loses no readiness: it waits for the
    system only when no file or socket pair is ready, and when it comes back every
    hook whose pipe can be read or written as it wants has its fdevent pending, with
    the events it asked for; what was pending before still is, and no fdevent loses
    an event. *)
Theorem win_turn_delivers s fuel :
  reachable s ->
  match fdevent_process fuel s with
  | Some (Done s') =>
      (forall k, k ∈ hooks s' -> hook_ready (desc s') k = true -> signalled s' k) /\
      (forall p, p ∈ pend s -> p ∈ pend s') /\
      (forall p f, fdes s !! p = Some f -> exists f', fdes s' !! p = Some f' /\ fd f' = fd f /\
         interest f' = interest f /\ Z.land (events f') (events f) = events f)
  | Some (Stop why) => tolerated why
  | Some (Undef _) => False
  | None => forall k, k ∈ hooks s -> hook_ready (desc s) k = false
  end.
Proof.
  intros Hs. pose proof (process_spec fuel s (win_reachable_inv s Hs)) as Hp.
  destruct (fdevent_process fuel s) as [[s'| |]|]; [|done..]. destruct Hp as (_ & _ & _ & _ & H1' & H2' & H3').
  split_and!; [done|done|]. intros p f Hf. destruct (H2' p f Hf) as (f' & ? & ? & _ & _ & ? & ?). by exists f'.
Qed.

End process.

(** ** Instances *)

#[local] Existing Instance tiny_system.

(** A system whose sockets never have events and where the first handle always wakes
    the waiter. *)
#[local] Instance tiny_events : WinEvents bool := {|
  WSAEnumNetworkEvents w _ _ := (Some (mk_evts 0 []), w);
  WSAEventSelect w _ _ _ := (true, w);
  ResetEvent w _ := w;
  WaitForMultipleObjects w ps l := Some (0, ps, w);
  hook_malloc_ok w := true
|}.

#[local] Instance tiny_laws : WinEventsLaws bool.
Proof.
  intros w ps l r ps' w' [= <- <- <-] q. destruct (ps !! q); [|done]. by split_and!.
Qed.

Definition step_or (s : looper bool) (o : op) : looper bool :=
  match exec 4 s o with Some (Done s') => s' | _ => s end.

(** A pair of sockets, one end of which is watched, to be read and written. *)
Definition paired : looper bool := step_or (looper_init true) (Call (CPair (replicate 4096 0))).
Definition watched : looper bool := step_or paired (Install (replicate 256 None) 7%nat 100 1 2).
Definition wanting : looper bool := step_or watched (SetEvents 7%nat 3).

Lemma paired_reachable : reachable 4 paired.
Proof.
  apply (reachable_step 4 (looper_init true) (Call (CPair (replicate 4096 0)))); [constructor| |by vm_compute].
  split; [by_compute|]. intros q f Hq. change (fdes (looper_init true)) with (∅ : gmap ptr fdevent) in Hq.
  by rewrite lookup_empty in Hq.
Qed.

Lemma watched_reachable : reachable 4 watched.
Proof.
  apply (reachable_step 4 paired (Install (replicate 256 None) 7%nat 100 1 2)); [apply paired_reachable| |by vm_compute].
  split; [done|]. split; [intros f Hf; assert (fdes paired = ∅) as E by (vm_compute; reflexivity); by rewrite E, lookup_empty in Hf|].
  right. exists 0%nat. split; [done|]. split; [split; vm_compute; done|].
  intros q f Hq. assert (fdes paired = ∅) as E by (vm_compute; reflexivity). by rewrite E, lookup_empty in Hq.
Qed.

Lemma wanting_reachable : reachable 4 wanting.
Proof.
  apply (reachable_step 4 watched (SetEvents 7%nat 3)); [apply watched_reachable| |by vm_compute]. eexists. by vm_compute.
Qed.

Lemma win_loop_safe_witness :
  match exec 4 wanting (Process 1) with
  | Some (Done s') => ev_inv s' /\ forall why, ~ refused wanting (Process 1) why
  | Some (Stop why) => tolerated why \/ refused wanting (Process 1) why \/ exists c, Process 1 = Call c /\ winsock (desc wanting) = false
  | Some (Undef _) => exists g, Process 1 = Call (CPair g) /\ ~ two_free (desc wanting)
  | None => True
  end.
Proof. apply (win_loop_safe 4); [by left|apply wanting_reachable|done]. Defined.

Lemma win_turn_delivers_witness :
  exists s', fdevent_process 1 wanting = Some (Done s') /\
    (forall k, k ∈ hooks s' -> hook_ready (desc s') k = true -> signalled s' k).
Proof.
  pose proof (win_turn_delivers 4 ltac:(by left) wanting 1 wanting_reachable) as Hd.
  destruct (fdevent_process 1 wanting) as [[s'| |]|] eqn:E; [|by vm_compute in E..].
  exists s'. split; [done|apply Hd].
Defined.

(** ** What modelling showed *)

(** A pair that can only be written is reported readable as well, when both are
    wanted: event_hook_signal passes on what the hook wants, not what is ready. *)
Lemma writable_reported_readable :
  exists s' f, fdevent_process 1 wanting = Some (Done s') /\ fdes s' !! 7%nat = Some f /\ has (events f) FDE_READ = true /\
    forall p, pairs (desc s') !! u (get_fh (desc s') 0) = Some p -> can_read (read_end p 0) = false.
Proof. eexists _, _. split; [vm_compute; reflexivity|]. split; [reflexivity|]. split; [done|]. intros p Hp. by injection Hp as <-. Qed.

(** The same pair with its pipe full: neither direction is ready, and instead of
    waiting fdevent_process comes straight back, because a hook that wants both
    cannot be started. *)
Definition full : looper bool := step_or wanting (Call (CWrite 100 (replicate 4096 1))).

Lemma both_wanted_spins :
  exists s', fdevent_process 0 full = Some (Done s') /\ pend s' = [] /\ map wanted (hooks s') = [3].
Proof. eexists. split; [vm_compute; reflexivity|]. done. Qed.

(** The error of a read is looked for in the code of another event, since the codes
    are numbered by bit position (FD_READ_BIT is 0) and the code uses the mask. *)
Lemma read_error_not_seen f v n :
  ready (_event_socket_verify (mk_hook f v FDE_ERROR 0 (Some SocketClass)) (mk_evts FD_READ [n; 0; 0; 0; 0; 0; 0; 0; 0; 0])) = 0.
Proof. reflexivity. Qed.

(** A second fdevent on a watched descriptor takes the slot of the first, whose removal
    then trips the check of the table; and the socket for a thread that could not be
    started is installed on -1. *)
Example watched_twice :
  exec 4 (step_or watched (Install (replicate 256 None) 8%nat 100 1 2)) (Remove 7%nat) = Some (Stop "fd_table out of sync").
Proof. by vm_compute. Qed.
Example no_descriptor_installed :
  exec 4 watched (Create (replicate 256 None) 8%nat (-1) 1 2) = Some (Stop "bogus negative fd").
Proof. by vm_compute. Qed.
