(* ===== verification/RilEvent.v ===== *)
(** * The event loop of the radio interface (libril/ril_event.cpp, ril_event.h)

    Timers and pending events hang on two circular lists of pointers, kept in the
    heap of Dlist; watched descriptors are in a table of eight.  Every access
    through a pointer that is not there is [None].  The theorems show that timers
    stay sorted, that exactly the expired ones fire, in the order of their
    times, that the sets given to select agree with the table, and that select
    never sleeps past the next timer. *)

From S2P Require Import Prelude Dlist.
From Stdlib Require Import Sorted.
Import Dlist.

(** ** Time *)

Definition timeval : Type := Z * Z.

Definition timer_lt (a b : timeval) : bool := if a.1 =? b.1 then a.2 <? b.2 else a.1 <? b.1.

Definition timeradd (a b : timeval) : timeval :=
  let s := a.1 + b.1 in
  let us := a.2 + b.2 in
  if 1000000 <=? us then (s + 1, us - 1000000) else (s, us).

Definition timersub (a b : timeval) : timeval :=
  let s := a.1 - b.1 in
  let us := a.2 - b.2 in
  if us <? 0 then (s - 1, us + 1000000) else (s, us).

(** ** Events and the state of the loop *)

(** The links are in the heap; the callback and its argument are the event's own
    and are known by its pointer. *)
Record event := mk_event { fd : Z; index : Z; persist : bool; timeout : timeval }.

Definition MAX_FD_EVENTS : nat := 8.
Definition FD_SETSIZE : Z := 1024.
Definition timer_list : ptr := 1%nat.
Definition pending_list : ptr := 2%nat.

Record ril := mk_ril {
  links : heap; events : gmap ptr event;
  watch_table : list ptr; readFds : gset Z; nfds : Z
}.

Definition put_links (s : ril) (h : heap) : ril := mk_ril h (events s) (watch_table s) (readFds s) (nfds s).
Definition put_event (s : ril) (ev : ptr) (e : event) : ril :=
  mk_ril (links s) (<[ev := e]> (events s)) (watch_table s) (readFds s) (nfds s).
Definition put_table (s : ril) (l : list ptr) : ril := mk_ril (links s) (events s) l (readFds s) (nfds s).
Definition put_fds (s : ril) (f : gset Z) : ril := mk_ril (links s) (events s) (watch_table s) f (nfds s).
Definition put_nfds (s : ril) (n : Z) : ril := mk_ril (links s) (events s) (watch_table s) (readFds s) n.

Definition with_index (e : event) (i : Z) : event := mk_event (fd e) i (persist e) (timeout e).
Definition with_timer (e : event) (t : timeval) : event := mk_event (-1) (index e) (persist e) t.

(** FD_SET and FD_CLR outside of the set are stores out of bounds. *)
Definition in_fd_set (f : Z) : bool := (0 <=? f) && (f <? FD_SETSIZE).
Definition fd_set (s : ril) (f : Z) : option ril := if in_fd_set f then Some (put_fds s ({[f]} ∪ readFds s)) else None.
Definition fd_clr (s : ril) (f : Z) : option ril := if in_fd_set f then Some (put_fds s (readFds s ∖ {[f]})) else None.

(** ** Lists *)

Definition addToList (h : heap) (ev list : ptr) : option heap :=
  h ← set_next h ev list;
  p ← get_prev h list; h ← set_prev h ev p;
  p ← get_prev h ev; h ← set_next h p ev;
  set_prev h list ev.

Definition removeFromList (h : heap) (ev : ptr) : option (bool * heap) :=
  p ← get_prev h ev; n ← get_next h ev;
  if (p =? NULL)%nat || (n =? NULL)%nat then Some (false, h)
  else
    n ← get_next h ev; p ← get_prev h ev; h ← set_prev h n p;
    p ← get_prev h ev; n ← get_next h ev; h ← set_next h p n;
    h ← set_next h ev NULL; h ← set_prev h ev NULL;
    Some (true, h).

Definition init_list (s : ril) (list : ptr) : ril :=
  mk_ril (mk_heap (<[list := list]> (nxt (links s))) (<[list := list]> (prv (links s))))
    (<[list := mk_event (-1) 0 false (0, 0)]> (events s)) (watch_table s) (readFds s) (nfds s).

(** nfds keeps its static value. *)
Definition ril_event_init (s : ril) : ril :=
  let s := put_fds s ∅ in
  put_table (init_list (init_list s timer_list) pending_list) (replicate MAX_FD_EVENTS NULL).

Definition ril_event_set (s : ril) (ev : ptr) (f : Z) (pers : bool) : ril :=
  mk_ril (mk_heap (<[ev := NULL]> (nxt (links s))) (<[ev := NULL]> (prv (links s))))
    (<[ev := mk_event f (-1) pers (0, 0)]> (events s)) (watch_table s) (readFds s) (nfds s).

(** ** Watching *)

(** The greatest descriptor in the table, from [n]. *)
Fixpoint max_fd (evs : gmap ptr event) (table : list ptr) (n : Z) : option Z :=
  match table with
  | [] => Some n
  | ev :: table =>
      if (ev =? NULL)%nat then max_fd evs table n
      else e ← evs !! ev; max_fd evs table (if n <? fd e then fd e else n)
  end.

Definition table_set (l : list ptr) (i : Z) (ev : ptr) : option (list ptr) :=
  if (0 <=? i) && (i <? Z.of_nat (length l)) then Some (<[Z.to_nat i := ev]> l) else None.

Definition removeWatch (s : ril) (ev : ptr) (i : Z) : option ril :=
  t ← table_set (watch_table s) i NULL;
  e ← events s !! ev;
  let s := put_event (put_table s t) ev (with_index e (-1)) in
  s ← fd_clr s (fd e);
  if fd e + 1 =? nfds s then n ← max_fd (events s) (watch_table s) 0; Some (put_nfds s (n + 1))
  else Some s.

(** The loop over the table: the first free entry. *)
Definition ril_event_add (s : ril) (ev : ptr) : option ril :=
  match list_find (fun p => p = NULL) (watch_table s) with
  | None => Some s
  | Some (i, _) =>
      let s := put_table s (<[i := ev]> (watch_table s)) in
      e ← events s !! ev;
      s ← fd_set (put_event s ev (with_index e (Z.of_nat i))) (fd e);
      Some (if nfds s <=? fd e then put_nfds s (fd e + 1) else s)
  end.

Definition ril_event_del (s : ril) (ev : ptr) : option ril :=
  e ← events s !! ev;
  if (index e <? 0) || (Z.of_nat MAX_FD_EVENTS <=? index e) then Some s else removeWatch s ev (index e).

(** ** Timers *)

(** The loop of ril_timer_add: the node before which to insert. *)
Fixpoint find_place (fuel : nat) (s : ril) (t : timeval) (list : ptr) : option ptr :=
  match fuel with
  | O => None
  | S fuel =>
      e ← events s !! list;
      if timer_lt (timeout e) t && negb (list =? timer_list)%nat
      then next ← get_next (links s) list; find_place fuel s t next
      else Some list
  end.

(** As many turns as there are nodes. *)
Definition fuel_of (s : ril) : nat := S (size (nxt (links s))).

Definition ril_timer_add (s : ril) (ev : ptr) (tv : option timeval) (now : timeval) : option ril :=
  match tv with
  | None => Some s
  | Some tv =>
      list ← get_next (links s) timer_list;
      e ← events s !! ev;
      let t := timeradd now tv in
      let s := put_event s ev (with_timer e t) in
      list ← find_place (fuel_of s) s t list;
      h ← addToList (links s) ev list;
      Some (put_links s h)
  end.

Definition ril_timer_delete (s : ril) (ev : ptr) : option (bool * ril) :=
  '(r, h) ← removeFromList (links s) ev; Some (r, put_links s h).

Fixpoint expire (fuel : nat) (now : timeval) (tev : ptr) (s : ril) : option ril :=
  match fuel with
  | O => None
  | S fuel =>
      if (tev =? timer_list)%nat then Some s
      else
        e ← events s !! tev;
        if timer_lt (timeout e) now then
          next ← get_next (links s) tev;
          '(_, h) ← removeFromList (links s) tev;
          h ← addToList h tev pending_list;
          expire fuel now next (put_links s h)
        else Some s
  end.

Definition processTimeouts (s : ril) (now : timeval) : option ril :=
  tev ← get_next (links s) timer_list; expire (fuel_of s) now tev s.

Definition calcNextTimeout (s : ril) (now : timeval) : option (option timeval) :=
  tev ← get_next (links s) timer_list;
  if (tev =? timer_list)%nat then Some None
  else
    e ← events s !! tev;
    Some (Some (if timer_lt now (timeout e) then timersub (timeout e) now else (0, 0))).

(** ** Reading and firing *)

(** Entries [idx] of the table, while [n] descriptors are still to come. *)
Fixpoint ready_entries (idx : list nat) (rfds : gset Z) (n : Z) (s : ril) : option ril :=
  match idx with
  | [] => Some s
  | i :: idx =>
      if n <=? 0 then Some s
      else
        rev ← watch_table s !! i;
        if (rev =? NULL)%nat then ready_entries idx rfds n s
        else
          e ← events s !! rev;
          if negb (in_fd_set (fd e)) then None
          else if decide (fd e ∈ rfds) then
            h ← addToList (links s) rev pending_list;
            let s := put_links s h in
            s ← (if persist e then Some s else removeWatch s rev (Z.of_nat i));
            ready_entries idx rfds (n - 1) s
          else ready_entries idx rfds n s
  end.

Definition processReadReadies (s : ril) (rfds : gset Z) (n : Z) : option ril :=
  ready_entries (seq 0 MAX_FD_EVENTS) rfds n s.

Section fire.
(** What an event's callback does to the loop's state. *)
Variable func : ptr -> Z -> ril -> option ril.

(** The events fired, in order, and the state after them. *)
Fixpoint fire (fuel : nat) (ev : ptr) (s : ril) : option (list ptr * ril) :=
  match fuel with
  | O => None
  | S fuel =>
      if (ev =? pending_list)%nat then Some ([], s)
      else
        next ← get_next (links s) ev;
        '(_, h) ← removeFromList (links s) ev;
        let s := put_links s h in
        e ← events s !! ev;
        s ← func ev (fd e) s;
        '(l, s) ← fire fuel next s;
        Some (ev :: l, s)
  end.

Definition firePending (s : ril) : option (list ptr * ril) :=
  ev ← get_next (links s) pending_list; fire (fuel_of s) ev s.

(** What select answers: a failure, or the ready descriptors and their number. *)
Inductive selected := SelectError (eintr : bool) | Selected (n : Z) (rfds : gset Z).

Inductive turn := Continue (fired : list ptr) (s : ril) | Return (s : ril).

(** One turn of the loop; the clock is read twice. *)
Definition ril_event_loop (select : Z -> gset Z -> option timeval -> selected) (now now' : timeval) (s : ril)
    : option turn :=
  tv ← calcNextTimeout s now;
  match select (nfds s) (readFds s) tv with
  | SelectError eintr => Some (if eintr then Continue [] s else Return s)
  | Selected n rfds =>
      s ← processTimeouts s now';
      s ← processReadReadies s rfds n;
      '(l, s) ← firePending s;
      Some (Continue l s)
  end.
End fire.

(** ** The order of times *)

Lemma timer_lt_spec a b : timer_lt a b = true <-> a.1 < b.1 \/ (a.1 = b.1 /\ a.2 < b.2).
Proof. unfold timer_lt. destruct (Z.eqb_spec a.1 b.1); rewrite Z.ltb_lt; lia. Qed.

Definition timer_le (a b : timeval) : Prop := timer_lt b a = false.

Lemma timer_le_spec a b : timer_le a b <-> a.1 < b.1 \/ (a.1 = b.1 /\ a.2 <= b.2).
Proof. unfold timer_le. rewrite <- not_true_iff_false, timer_lt_spec. lia. Qed.

Lemma timer_le_trans a b c : timer_le a b -> timer_le b c -> timer_le a c.
Proof. rewrite !timer_le_spec. lia. Qed.
Lemma timer_lt_le a b : timer_lt a b = true -> timer_le a b.
Proof. rewrite timer_lt_spec, timer_le_spec. lia. Qed.

(** ** Inserting and removing anywhere *)

(** A circular list may be entered at any of its nodes. *)
Lemma dlist_rotate h hd l1 y l2 : dlist h hd (l1 ++ y :: l2) -> dlist h y (l2 ++ hd :: l1).
Proof.
  intros [Hnd Hp]. split.
  - rewrite app_comm_cons in Hnd. rewrite app_comm_cons, Permutation_app_comm. done.
  - rewrite <- app_assoc in Hp. cbn [app] in Hp. rewrite app_comm_cons, path_app in Hp. destruct Hp as [H1 H2].
    rewrite <- app_assoc. cbn [app]. rewrite app_comm_cons, path_app. by split.
Qed.

Definition hd_default (hd : ptr) (l : list ptr) : ptr := match l with y :: _ => y | [] => hd end.

(** Insertion before a node of the list, or before its head. *)
Lemma add_before h hd l1 l2 ev :
  dlist h hd (l1 ++ l2) -> ev ∉ hd :: l1 ++ l2 -> is_Some (nxt h !! ev) -> is_Some (prv h !! ev) ->
  exists h', addToList h ev (hd_default hd l2) = Some h' /\ dlist h' hd (l1 ++ ev :: l2) /\
    same_but (fun x => x ∈ ev :: hd :: l1 ++ l2) h h'.
Proof.
  intros Hd Hev Hn Hp. set (y := hd_default hd l2).
  assert (exists zs, dlist h y zs /\ y :: zs ≡ₚ hd :: l1 ++ l2 /\
    forall h', dlist h' y (zs ++ [ev]) -> dlist h' hd (l1 ++ ev :: l2)) as (zs & Hd' & Hperm & Hback).
  { unfold y. destruct l2 as [|z l2]; cbn.
    - exists l1. rewrite app_nil_r in *. by split_and!.
    - exists (l2 ++ hd :: l1). split; [by apply dlist_rotate|]. split; [solve_Permutation|].
      intros h' Hh. rewrite <- app_assoc in Hh. cbn [app] in Hh. apply dlist_rotate in Hh. by rewrite <- app_assoc in Hh. }
  assert (ev ∉ y :: zs) as Hev' by (by rewrite Hperm).
  destruct (insertions_agree h y zs ev Hd' Hev' Hn Hp) as (p & ys & E & Hpath & _ & _ & _ & E4).
  destruct (inserted_dlist h y zs ev p ys Hd' Hev' Hn Hp E Hpath) as [Hd2 Hsame].
  exists (inserted h ev y p). split; [exact E4|]. split; [by apply Hback|].
  eapply same_but_weaken; [|exact Hsame]. intros x. cbn beta. rewrite <- Hperm. set_solver.
Qed.

(** Removal, and what it leaves in the node's own links. *)
Lemma remove_listed h hd l1 ev l2 :
  dlist h hd (l1 ++ ev :: l2) -> NULL ∉ hd :: l1 ++ ev :: l2 ->
  exists h', removeFromList h ev = Some (true, h') /\ dlist h' hd (l1 ++ l2) /\
    same_but (fun x => x ∈ hd :: l1 ++ ev :: l2) h h' /\ nxt h' !! ev = Some NULL /\ prv h' !! ev = Some NULL.
Proof.
  intros Hd Hnull.
  destruct (removed_spec h hd l1 ev l2 NULL NULL Hd) as (p & n & E & [Hp Hp'] & [Hn Hn'] & N1 & N2 & D1 & S1).
  assert (p <> NULL) by (intros ->; apply Hnull; eapply (elem_of_frame_l h hd l1 ev l2); eauto).
  assert (n <> NULL) by (intros ->; apply Hnull; eapply (elem_of_frame_r h hd l1 ev l2); eauto).
  eexists. split; [|split; [exact D1|split; [exact S1|]]]; [|cbn; by rewrite !lookup_insert_eq].
  unfold removeFromList, get_next, get_prev, set_next, set_prev. rewrite Hp', Hn. cbn [mbind option_bind].
  rewrite !(proj2 (Nat.eqb_neq _ NULL)) by done. cbn [orb]. rewrite Hn'. cbn [mbind option_bind nxt prv].
  rewrite lookup_insert_ne, Hp' by done. cbn [mbind option_bind nxt prv]. rewrite Hn. cbn [mbind option_bind nxt prv]. rewrite Hp.
  cbn [mbind option_bind nxt prv]. rewrite lookup_insert_ne, Hn by done. cbn [mbind option_bind nxt prv].
  rewrite lookup_insert_ne, Hp' by done. done.
Qed.

Lemma remove_unlisted h ev p : prv h !! ev = Some p -> nxt h !! ev = Some NULL -> removeFromList h ev = Some (false, h).
Proof. intros Hp Hn. unfold removeFromList, get_prev, get_next. rewrite Hp, Hn. cbn. by rewrite orb_true_r. Qed.

(** ** The invariant of the lists *)

Definition time_of (s : ril) (ev : ptr) : timeval := from_option timeout (0, 0) (events s !! ev).

(** [T] are the timers, sorted, and [P] the pending events; all other events are
    on no list. *)
Record lists_ok (s : ril) (T P : list ptr) : Prop := {
  l_timers : dlist (links s) timer_list T;
  l_pending : dlist (links s) pending_list P;
  l_apart : forall x, x ∈ timer_list :: T -> x ∉ pending_list :: P;
  l_null : nxt (links s) !! NULL = None;
  l_prev : forall x, is_Some (nxt (links s) !! x) <-> is_Some (prv (links s) !! x);
  l_events : forall x, is_Some (nxt (links s) !! x) -> is_Some (events s !! x);
  l_off : forall x, x ∉ timer_list :: T -> x ∉ pending_list :: P -> is_Some (nxt (links s) !! x) ->
            nxt (links s) !! x = Some NULL;
  l_sorted : StronglySorted (fun x y => timer_le (time_of s x) (time_of s y)) T
}.

Lemma dlist_len h hd xs : dlist h hd xs -> (length xs < size (nxt h))%nat.
Proof.
  intros Hd. pose proof (dlist_heads _ _ _ Hd) as Hh. destruct Hd as [Hnd _].
  change (length xs < size (nxt h))%nat with (length (hd :: xs) <= size (nxt h))%nat.
  rewrite <- size_dom. rewrite <- (size_list_to_set (C := gset ptr) (hd :: xs)) by done. apply subseteq_size.
  intros x Hx. apply elem_of_list_to_set in Hx. apply elem_of_dom. by apply Hh.
Qed.

Lemma dlist_next h hd l1 x l2 : dlist h hd (l1 ++ x :: l2) -> nxt h !! x = Some (hd_default hd l2).
Proof.
  intros Hd. destruct (dlist_split _ _ _ _ _ Hd) as (ys & p & n & zs & _ & E2 & _ & [Hn _] & _).
  rewrite Hn. destruct l2; injection E2 as <- _; done.
Qed.

Lemma dlist_first h hd xs : dlist h hd xs -> nxt h !! hd = Some (hd_default hd xs).
Proof. intros [_ Hp]. destruct xs; cbn in Hp; apply Hp. Qed.

Lemma null_unlisted s T P : lists_ok s T P -> NULL ∉ timer_list :: T /\ NULL ∉ pending_list :: P.
Proof.
  intros H. split; intros Hx.
  - apply (dlist_heads _ _ _ (l_timers _ _ _ H)) in Hx as [[? E] _]. by rewrite (l_null _ _ _ H) in E.
  - apply (dlist_heads _ _ _ (l_pending _ _ _ H)) in Hx as [[? E] _]. by rewrite (l_null _ _ _ H) in E.
Qed.

(** New links for the same events: the domain of the heap stays. *)
Lemma lists_relink s T P h' T' P' (Q : ptr -> Prop) :
  lists_ok s T P -> same_but Q (links s) h' ->
  dlist h' timer_list T' -> dlist h' pending_list P' ->
  (forall x, x ∈ timer_list :: T' -> x ∉ pending_list :: P') ->
  (forall x, x ∉ timer_list :: T' -> x ∉ pending_list :: P' ->
     nxt h' !! x = Some NULL \/ (~ Q x /\ x ∉ timer_list :: T /\ x ∉ pending_list :: P)) ->
  StronglySorted (fun x y => timer_le (time_of s x) (time_of s y)) T' ->
  lists_ok (put_links s h') T' P'.
Proof.
  intros Hok (Hs & Hn & Hp) HT HP Hap Hoff Hsort. split; cbn; try done.
  - apply eq_None_not_Some. rewrite <- Hn. rewrite (l_null _ _ _ Hok). by intros [? ?].
  - intros x. rewrite <- Hn, <- Hp. apply (l_prev _ _ _ Hok).
  - intros x. rewrite <- Hn. apply (l_events _ _ _ Hok).
  - intros x Hx1 Hx2 Hx. destruct (Hoff x Hx1 Hx2) as [?|(HQ & Ht & Hp')]; [done|].
    rewrite (proj1 (Hs x HQ)). rewrite <- Hn in Hx. by apply (l_off _ _ _ Hok).
Qed.

Lemma same_but_trans (Q : ptr -> Prop) h h1 h2 : same_but Q h h1 -> same_but Q h1 h2 -> same_but Q h h2.
Proof.
  intros (A1 & A2 & A3) (B1 & B2 & B3). split_and!.
  - intros x Hx. destruct (A1 x Hx), (B1 x Hx). split; congruence.
  - intros x. by rewrite A2.
  - intros x. by rewrite A3.
Qed.

(** The nodes of both lists. *)
Definition on_lists (T P : list ptr) (x : ptr) : Prop := x ∈ timer_list :: T \/ x ∈ pending_list :: P.

(** An expired timer becomes the last pending event. *)
Lemma move_to_pending s x T P :
  lists_ok s (x :: T) P ->
  exists h1 h2, removeFromList (links s) x = Some (true, h1) /\ addToList h1 x pending_list = Some h2 /\
    lists_ok (put_links s h2) T (P ++ [x]) /\ forall y, is_Some (nxt (links s) !! y) -> is_Some (nxt h2 !! y).
Proof.
  intros Hok. destruct (null_unlisted _ _ _ Hok) as [Hnull _].
  destruct (remove_listed (links s) timer_list [] x T (l_timers _ _ _ Hok) Hnull) as (h1 & E1 & HT1 & S1 & Hx1 & Hp1).
  assert (x ∉ pending_list :: P) as HxP by (apply (l_apart _ _ _ Hok); set_solver).
  assert (dlist h1 pending_list P) as HP1.
  { apply (dlist_frame _ _ _ _ _ S1); [|apply (l_pending _ _ _ Hok)]. intros y Hy Hy'. cbn in Hy'.
    by apply (l_apart _ _ _ Hok y Hy'). }
  destruct (add_before h1 pending_list P [] x) as (h2 & E2 & HP2 & S2); [by rewrite app_nil_r|by rewrite app_nil_r|eauto|eauto|].
  exists h1, h2. split; [done|]. split; [exact E2|]. split; [|intros y Hy; by apply S2, S1].
  pose proof (l_timers _ _ _ Hok) as [HndT _]. apply NoDup_cons in HndT as [HtT HndT]. apply NoDup_cons in HndT as [HxT _].
  assert (timer_list <> x) as Htx by set_solver.
  assert (dlist h2 timer_list T) as HT2.
  { apply (dlist_frame _ _ _ _ _ S2); [|done]. rewrite app_nil_r. intros y Hy Hy'.
    apply elem_of_cons in Hy' as [->|Hy']; [set_solver|]. apply (l_apart _ _ _ Hok y); [set_solver|done]. }
  apply (lists_relink s (x :: T) P h2 T (P ++ [x]) (on_lists (x :: T) P)); try done.
  - apply (same_but_trans _ _ h1).
    + eapply same_but_weaken; [|exact S1]. intros y Hy. left. done.
    + eapply same_but_weaken; [|exact S2]. cbn beta. rewrite app_nil_r. unfold on_lists. set_solver.
  - intros y Hy. rewrite app_comm_cons, elem_of_app. intros [Hy'|Hy'%list_elem_of_singleton]; [|set_solver].
    apply (l_apart _ _ _ Hok y); [set_solver|done].
  - intros y Hy1 Hy2. right. unfold on_lists. set_solver.
  - pose proof (l_sorted _ _ _ Hok) as Hs. by apply StronglySorted_inv in Hs as [Hs _].
Qed.

(** A node leaves the timers. *)
Lemma drop_timer s l1 x l2 P :
  lists_ok s (l1 ++ x :: l2) P ->
  exists h1, removeFromList (links s) x = Some (true, h1) /\ lists_ok (put_links s h1) (l1 ++ l2) P /\
    nxt h1 !! x = Some NULL.
Proof.
  intros Hok. destruct (null_unlisted _ _ _ Hok) as [Hnull _].
  destruct (remove_listed (links s) timer_list l1 x l2 (l_timers _ _ _ Hok) Hnull) as (h1 & E1 & HT1 & S1 & Hx1 & Hp1).
  exists h1. split; [done|]. split; [|done].
  apply (lists_relink s (l1 ++ x :: l2) P h1 (l1 ++ l2) P (fun y => y ∈ timer_list :: l1 ++ x :: l2)); try done.
  - apply (dlist_frame _ _ _ _ _ S1); [|apply (l_pending _ _ _ Hok)]. intros y Hy Hy'.
    by apply (l_apart _ _ _ Hok y Hy').
  - intros y Hy. apply (l_apart _ _ _ Hok). set_solver.
  - intros y Hy1 Hy2. destruct (decide (y = x)) as [->|Hne]; [by left|right]. set_solver.
  - pose proof (l_sorted _ _ _ Hok) as Hs. clear -Hs. induction l1 as [|a l1 IH]; cbn in *.
    + by apply StronglySorted_inv in Hs as [Hs _].
    + apply StronglySorted_inv in Hs as [Hs Ha]. constructor; [by apply IH|].
      rewrite Forall_app, Forall_cons in *. tauto.
Qed.

(** The first pending event leaves its list. *)
Lemma drop_pending s x T P :
  lists_ok s T (x :: P) ->
  exists h1, removeFromList (links s) x = Some (true, h1) /\ lists_ok (put_links s h1) T P.
Proof.
  intros Hok. destruct (null_unlisted _ _ _ Hok) as [_ Hnull].
  destruct (remove_listed (links s) pending_list [] x P (l_pending _ _ _ Hok) Hnull) as (h1 & E1 & HP1 & S1 & Hx1 & Hp1).
  exists h1. split; [done|].
  apply (lists_relink s T (x :: P) h1 T P (fun y => y ∈ pending_list :: x :: P)); try done.
  - apply (dlist_frame _ _ _ _ _ S1); [|apply (l_timers _ _ _ Hok)]. intros y Hy Hy'. by apply (l_apart _ _ _ Hok y Hy).
  - intros y Hy Hy'. apply (l_apart _ _ _ Hok y Hy). set_solver.
  - intros y Hy1 Hy2. destruct (decide (y = x)) as [->|Hne]; [by left|right]. set_solver.
  - apply (l_sorted _ _ _ Hok).
Qed.

(** Changing events, but no timer's time. *)
Lemma lists_events s s' T P :
  lists_ok s T P -> links s' = links s -> (forall x, is_Some (events s !! x) -> is_Some (events s' !! x)) ->
  (forall x, x ∈ T -> time_of s' x = time_of s x) -> lists_ok s' T P.
Proof.
  intros [H1 H2 H3 H4 H5 H6 H7 H8] El Ee Et. split; rewrite ?El; auto. clear -H8 Et.
  induction H8 as [|x T HT IH Hx]; constructor.
  - apply IH. set_solver.
  - rewrite Forall_forall in Hx |- *. intros y Hy. rewrite !Et by set_solver. by apply Hx.
Qed.

(** ** Timers *)

Definition expired (s : ril) (now : timeval) (x : ptr) : Prop := timer_lt (time_of s x) now = true.
#[export] Instance expired_dec s now x : Decision (expired s now x).
Proof. unfold expired. apply _. Defined.

Lemma listed_event s T P x : lists_ok s T P -> on_lists T P x -> exists e, events s !! x = Some e /\ timeout e = time_of s x.
Proof.
  intros Hok Hx. assert (is_Some (nxt (links s) !! x)) as Hn.
  { destruct Hx as [Hx|Hx]; [by apply (dlist_heads _ _ _ (l_timers _ _ _ Hok))|by apply (dlist_heads _ _ _ (l_pending _ _ _ Hok))]. }
  apply (l_events _ _ _ Hok) in Hn as [e He]. exists e. split; [done|]. unfold time_of. by rewrite He.
Qed.

Lemma head_neq s x T P : lists_ok s (x :: T) P -> (x =? timer_list)%nat = false.
Proof. intros Hok. destruct (l_timers _ _ _ Hok) as [Hnd _]. apply Nat.eqb_neq. apply NoDup_cons in Hnd as [? _]. set_solver. Qed.

Lemma expire_spec fuel now T P s :
  lists_ok s T P -> (length T < fuel)%nat ->
  exists h, expire fuel now (hd_default timer_list T) s = Some (put_links s h) /\
    lists_ok (put_links s h) (filter (fun x => ~ expired s now x) T) (P ++ filter (expired s now) T) /\
    forall y, is_Some (nxt (links s) !! y) -> is_Some (nxt h !! y).
Proof.
  revert T P s. induction fuel as [|fuel IH]; intros T P s Hok Hl; [lia|]. destruct T as [|x T]; cbn [hd_default expire].
  - rewrite Nat.eqb_refl. exists (links s). rewrite app_nil_r. destruct s; by split_and!.
  - rewrite (head_neq _ _ _ _ Hok). destruct (listed_event s (x :: T) P x Hok) as (e & He & Ht); [left; set_solver|].
    rewrite He. cbn [mbind option_bind]. rewrite Ht. destruct (timer_lt (time_of s x) now) eqn:El.
    + destruct (move_to_pending s x T P Hok) as (h1 & h2 & E1 & E2 & Hok2 & Hd2). unfold get_next.
      rewrite (dlist_next _ _ [] x T (l_timers _ _ _ Hok)). cbn [mbind option_bind]. rewrite E1. cbn [mbind option_bind]. rewrite E2.
      cbn [mbind option_bind]. destruct (IH T (P ++ [x]) (put_links s h2) Hok2) as (h & E & Hok' & Hd'); [cbn in Hl; lia|].
      exists h. split; [exact E|]. rewrite filter_cons_False, filter_cons_True by (unfold expired; congruence || intros Hx; by apply Hx).
      rewrite <- app_assoc in Hok'. split; [exact Hok'|]. intros y Hy. by apply Hd', Hd2.
    + exists (links s). split; [by destruct s|]. pose proof (l_sorted _ _ _ Hok) as Hs. apply StronglySorted_inv in Hs as [_ Hx].
      assert (forall y, y ∈ x :: T -> ~ expired s now y) as Hno.
      { intros y Hy. unfold expired. apply not_true_iff_false. apply elem_of_cons in Hy as [->|Hy]; [done|].
        rewrite Forall_forall in Hx. specialize (Hx y Hy). by apply (timer_le_trans now _ _ El). }
      assert (filter (expired s now) (x :: T) = []) as ->.
      { destruct (filter _ _) as [|y l] eqn:E; [done|]. exfalso. assert (y ∈ filter (expired s now) (x :: T)) as Hy by (rewrite E; by left).
        apply list_elem_of_filter in Hy as [He' Hy]. by apply (Hno y Hy). }
      rewrite app_nil_r, filter_all by done. destruct s; by split_and!.
Qed.

Lemma processTimeouts_spec now T P s :
  lists_ok s T P ->
  exists h, processTimeouts s now = Some (put_links s h) /\
    lists_ok (put_links s h) (filter (fun x => ~ expired s now x) T) (P ++ filter (expired s now) T) /\
    forall y, is_Some (nxt (links s) !! y) -> is_Some (nxt h !! y).
Proof.
  intros Hok. unfold processTimeouts, get_next. rewrite (dlist_first _ _ _ (l_timers _ _ _ Hok)). cbn [mbind option_bind].
  apply expire_spec; [done|]. pose proof (dlist_len _ _ _ (l_timers _ _ _ Hok)). unfold fuel_of. lia.
Qed.

(** The place of a new timer: behind all that are due before it. *)
Lemma find_place_spec fuel s t l1 l2 P :
  lists_ok s (l1 ++ l2) P -> (length l2 < fuel)%nat -> Forall (fun x => timer_lt (time_of s x) t = true) l1 ->
  exists l3 l4, find_place fuel s t (hd_default timer_list l2) = Some (hd_default timer_list l4) /\ l1 ++ l2 = l3 ++ l4 /\
    Forall (fun x => timer_lt (time_of s x) t = true) l3 /\ Forall (fun x => timer_le t (time_of s x)) l4.
Proof.
  revert l1 l2. induction fuel as [|fuel IH]; intros l1 l2 Hok Hl Hl1; [lia|]. destruct l2 as [|x l2]; cbn [hd_default find_place].
  - destruct (listed_event s (l1 ++ []) P timer_list Hok) as (e & -> & _); [left; set_solver|]. cbn [mbind option_bind].
    rewrite Nat.eqb_refl, andb_false_r. exists l1, []. by split_and!.
  - destruct (listed_event s (l1 ++ x :: l2) P x Hok) as (e & -> & Ht); [left; set_solver|]. cbn [mbind option_bind]. rewrite Ht.
    assert ((x =? timer_list)%nat = false) as ->.
    { destruct (l_timers _ _ _ Hok) as [Hnd _]. apply Nat.eqb_neq. apply NoDup_cons in Hnd as [? _]. set_solver. }
    rewrite andb_true_r. destruct (timer_lt (time_of s x) t) eqn:Elt.
    + unfold get_next. rewrite (dlist_next _ _ l1 x l2 (l_timers _ _ _ Hok)). cbn [mbind option_bind].
      replace (l1 ++ x :: l2) with ((l1 ++ [x]) ++ l2) in * by (by rewrite <- app_assoc).
      apply IH; [done|cbn in Hl; lia|]. apply Forall_app. split; [done|]. by apply Forall_singleton.
    + exists l1, (x :: l2). split_and!; try done. constructor; [done|]. pose proof (l_sorted _ _ _ Hok) as Hs.
      clear -Hs Elt. induction l1 as [|a l1 IH]; cbn in Hs; apply StronglySorted_inv in Hs as [Hs Hx]; [|by apply IH].
      eapply Forall_impl; [exact Hx|]. intros y Hy. by apply (timer_le_trans _ (time_of s x)).
Qed.

Lemma sorted_insert (R : ptr -> ptr -> Prop) l1 x l2 :
  StronglySorted R (l1 ++ l2) -> Forall (fun y => R y x) l1 -> Forall (R x) l2 -> StronglySorted R (l1 ++ x :: l2).
Proof.
  intros Hs H1 H2. induction l1 as [|a l1 IH]; cbn in *.
  - by constructor.
  - apply StronglySorted_inv in Hs as [Hs Ha]. apply Forall_cons in H1 as [H1 H1']. constructor; [by apply IH|].
    rewrite Forall_app, Forall_cons in *. tauto.
Qed.

(** An event that is known and on no list. *)
Definition idle (s : ril) (T P : list ptr) (ev : ptr) : Prop := is_Some (nxt (links s) !! ev) /\ ~ on_lists T P ev.

Lemma timer_add_spec s T P ev tv now :
  lists_ok s T P -> idle s T P ev ->
  exists s' l1 l2 e, ril_timer_add s ev (Some tv) now = Some s' /\ T = l1 ++ l2 /\ lists_ok s' (l1 ++ ev :: l2) P /\
    events s !! ev = Some e /\ s' = put_links (put_event s ev (with_timer e (timeradd now tv))) (links s') /\
    Forall (fun x => timer_lt (time_of s x) (timeradd now tv) = true) l1 /\
    Forall (fun x => timer_le (timeradd now tv) (time_of s x)) l2 /\
    forall x, is_Some (nxt (links s) !! x) -> is_Some (nxt (links s') !! x).
Proof.
  intros Hok [Hn Hoff]. unfold on_lists in Hoff. unfold ril_timer_add, get_next. rewrite (dlist_first _ _ _ (l_timers _ _ _ Hok)).
  cbn [mbind option_bind]. destruct (l_events _ _ _ Hok ev Hn) as [e He]. rewrite He. cbn [mbind option_bind].
  set (t := timeradd now tv). set (s1 := put_event s ev (with_timer e t)).
  assert (forall x, x <> ev -> time_of s1 x = time_of s x) as Htime.
  { intros x Hx. unfold time_of, s1. cbn. by rewrite lookup_insert_ne. }
  assert (lists_ok s1 T P) as Hok1.
  { apply (lists_events s); try done.
    - intros x Hx. cbn. destruct (decide (ev = x)) as [->|]; [rewrite lookup_insert_eq; eauto|by rewrite lookup_insert_ne].
    - intros x Hx. apply Htime. intros ->. apply Hoff. left. set_solver. }
  destruct (find_place_spec (fuel_of s1) s1 t [] T P) as (l1 & l2 & E & ET & H1 & H2); [done| |done|].
  { pose proof (dlist_len _ _ _ (l_timers _ _ _ Hok1)). unfold fuel_of. lia. }
  rewrite E. cbn in ET. subst T. cbn [mbind option_bind].
  destruct (add_before (links s1) timer_list l1 l2 ev) as (h & Eh & Hd & Hsame).
  { apply (l_timers _ _ _ Hok1). }
  { intros Hx. apply Hoff. by left. }
  { done. }
  { by apply (l_prev _ _ _ Hok1). }
  rewrite Eh. cbn [mbind option_bind]. exists (put_links s1 h), l1, l2, e. split; [done|]. split; [done|]. split.
  - apply (lists_relink s1 (l1 ++ l2) P h (l1 ++ ev :: l2) P (fun x => x ∈ ev :: timer_list :: l1 ++ l2)); try done.
    + apply (dlist_frame _ _ _ _ _ Hsame); [|apply (l_pending _ _ _ Hok1)]. intros y Hy Hy'.
      apply elem_of_cons in Hy' as [->|Hy']; [apply Hoff; by right|]. by apply (l_apart _ _ _ Hok1 y Hy').
    + intros y Hy Hy'. destruct (decide (y = ev)) as [->|Hne]; [apply Hoff; by right|].
      apply (l_apart _ _ _ Hok1 y); [set_solver|done].
    + intros y Hy1 Hy2. right. set_solver.
    + apply sorted_insert; [apply (l_sorted _ _ _ Hok1)| |].
      * eapply Forall_impl; [exact H1|]. intros y Hy. assert (time_of s1 ev = t) as -> by (unfold time_of, s1; cbn; by rewrite lookup_insert_eq).
        by apply timer_lt_le.
      * eapply Forall_impl; [exact H2|]. intros y Hy. by assert (time_of s1 ev = t) as -> by (unfold time_of, s1; cbn; by rewrite lookup_insert_eq).
  - do 2 (split; [done|]). split; [|split; [|intros x; apply Hsame]];
      (rewrite Forall_forall in *; intros x Hx; rewrite <- Htime; [auto|intros ->; apply Hoff; left; set_solver]).
Qed.

(** ** The invariant of the table *)

Definition watching (s : ril) (i : nat) (ev : ptr) (e : event) : Prop :=
  watch_table s !! i = Some ev /\ ev <> NULL /\ events s !! ev = Some e.

(** The table, the set for select and its bound agree; nothing in the table is a
    timer. *)
Record watch_ok (s : ril) (T : list ptr) : Prop := {
  w_len : length (watch_table s) = MAX_FD_EVENTS;
  w_known : forall i ev, watch_table s !! i = Some ev -> ev <> NULL ->
    is_Some (nxt (links s) !! ev) /\
    exists e, events s !! ev = Some e /\ index e = Z.of_nat i /\ in_fd_set (fd e) = true /\ fd e < nfds s;
  w_index : forall ev e, events s !! ev = Some e -> ev <> timer_list -> ev <> pending_list ->
    0 <= index e < Z.of_nat MAX_FD_EVENTS -> watch_table s !! Z.to_nat (index e) = Some ev;
  w_distinct : forall i j ev ev' e e', watching s i ev e -> watching s j ev' e' -> fd e = fd e' -> i = j;
  w_set : forall f, f ∈ readFds s <-> exists i ev e, watching s i ev e /\ fd e = f;
  w_tight : 1 < nfds s -> exists i ev e, watching s i ev e /\ fd e + 1 = nfds s;
  w_timer : forall i x, watch_table s !! i = Some x -> x <> NULL -> x ∉ timer_list :: pending_list :: T;
  w_null : events s !! NULL = None
}.

Lemma max_fd_spec evs table n :
  (forall ev, ev ∈ table -> ev <> NULL -> is_Some (evs !! ev)) ->
  exists m, max_fd evs table n = Some m /\ n <= m /\
    (forall ev e, ev ∈ table -> ev <> NULL -> evs !! ev = Some e -> fd e <= m) /\
    (m = n \/ exists ev e, ev ∈ table /\ ev <> NULL /\ evs !! ev = Some e /\ fd e = m).
Proof.
  revert n. induction table as [|x table IH]; intros n Hk; cbn [max_fd].
  - exists n. split; [done|]. split; [lia|]. split; [by intros ? ? ?%not_elem_of_nil|by left].
  - destruct (Nat.eqb_spec x NULL) as [->|Hx].
    + destruct (IH n) as (m & -> & Hn & Hall & Hwho); [set_solver|]. exists m. split; [done|]. split; [done|]. split.
      * intros ev e [->|Hev]%elem_of_cons; [done|by apply Hall].
      * destruct Hwho as [?|(ev & e & ? & ?)]; [by left|right]. exists ev, e. split; [by right|done].
    + destruct (Hk x) as [e He]; [by left|done|]. rewrite He. cbn [mbind option_bind].
      destruct (IH (if n <? fd e then fd e else n)) as (m & -> & Hn & Hall & Hwho); [set_solver|]. exists m. split; [done|].
      assert (n <= m /\ fd e <= m) as [Hn1 Hn2] by (destruct (Z.ltb_spec n (fd e)); lia). split; [done|]. split.
      * intros ev e' [->|Hev]%elem_of_cons; [intros _; rewrite He; by intros [= <-]|by apply Hall].
      * destruct Hwho as [Hm|(ev & e' & ? & ?)].
        -- destruct (Z.ltb_spec n (fd e)); [right|by left]. exists x, e. split; [by left|]. by split_and!.
        -- right. exists ev, e'. split; [by right|done].
Qed.

(** What taking entry [i] out of the table leaves watched. *)
Lemma watching_removed s s' i ev e :
  watch_table s' = <[i := NULL]> (watch_table s) -> events s' = <[ev := with_index e (-1)]> (events s) ->
  watching s i ev e -> (forall j, watch_table s !! j = Some ev -> j = i) ->
  forall j x ex, watching s' j x ex <-> watching s j x ex /\ j <> i.
Proof.
  intros Ht Ee (Hi & Hev & He) Hone j x ex. unfold watching. rewrite Ht, Ee. split.
  - intros (Hj & Hx & Hex). destruct (decide (j = i)) as [->|Hne].
    + rewrite list_lookup_insert_eq in Hj by (by eapply lookup_lt_Some). congruence.
    + rewrite list_lookup_insert_ne in Hj by done. rewrite lookup_insert_ne in Hex by (intros <-; by apply Hone in Hj). done.
  - intros ((Hj & Hx & Hex) & Hne). rewrite list_lookup_insert_ne by done.
    rewrite lookup_insert_ne by (intros <-; by apply Hone in Hj). done.
Qed.

Lemma watching_once s T i j ev : watch_ok s T -> watch_table s !! i = Some ev -> watch_table s !! j = Some ev -> ev <> NULL -> j = i.
Proof.
  intros Hw Hi Hj Hev. destruct (w_known _ _ Hw i ev Hi Hev) as (_ & e & He & H1 & _).
  destruct (w_known _ _ Hw j ev Hj Hev) as (_ & e' & He' & H2 & _). rewrite He in He'. injection He' as <-. lia.
Qed.

(** Entry [i] taken out, with any bound that fits what is left. *)
Lemma watch_less s T i ev e nf :
  watch_ok s T -> watching s i ev e ->
  (forall j x ex, watching s j x ex -> j <> i -> fd ex < nf) ->
  (1 < nf -> exists j x ex, watching s j x ex /\ j <> i /\ fd ex + 1 = nf) ->
  watch_ok (mk_ril (links s) (<[ev := with_index e (-1)]> (events s)) (<[i := NULL]> (watch_table s)) (readFds s ∖ {[fd e]}) nf) T.
Proof.
  intros Hw Hwi Hnf Htight. pose proof Hwi as (Hi & Hev & He). pose proof (lookup_lt_Some _ _ _ Hi) as Hil.
  set (s' := mk_ril _ _ _ _ _).
  assert (forall j x ex, watching s' j x ex <-> watching s j x ex /\ j <> i) as Hrem.
  { apply (watching_removed s s' i ev e); try done. intros j Hj. by apply (watching_once s T i j ev). }
  assert (forall j x, watch_table s' !! j = Some x -> x <> NULL -> j <> i /\ watch_table s !! j = Some x) as Htab.
  { intros j x Hj Hx. cbn in Hj. destruct (decide (j = i)) as [->|Hne]; [rewrite list_lookup_insert_eq in Hj by done; congruence|].
    by rewrite list_lookup_insert_ne in Hj. }
  split.
  - cbn. rewrite length_insert. apply (w_len _ _ Hw).
  - intros j x Hj Hx. destruct (Htab j x Hj Hx) as [Hne Hjx]. destruct (w_known _ _ Hw j x Hjx Hx) as (Hl & ex & Hex & ? & ? & _).
    split; [done|]. exists ex. assert (watching s' j x ex) as (_ & _ & Hex') by (by apply Hrem).
    split; [done|]. do 2 (split; [done|]). by apply (Hnf j x).
  - intros x ex Hex Hx1 Hx2 Hr. cbn in Hex. destruct (decide (ev = x)) as [<-|Hne].
    + rewrite lookup_insert_eq in Hex. injection Hex as <-. cbn in Hr. lia.
    + rewrite lookup_insert_ne in Hex by done. pose proof (w_index _ _ Hw x ex Hex Hx1 Hx2 Hr) as Hxi. cbn.
      rewrite list_lookup_insert_ne; [done|]. intros ->. congruence.
  - intros j k x y ex ey [Hj _]%Hrem [Hk _]%Hrem. by apply (w_distinct _ _ Hw j k x y).
  - intros f. cbn. rewrite elem_of_difference, (w_set _ _ Hw f), elem_of_singleton. split.
    + intros ((j & x & ex & Hj & <-) & Hne). exists j, x, ex. split; [|done]. apply Hrem. split; [done|].
      intros ->. destruct Hj as (Hj & _ & Hex). rewrite Hi in Hj. injection Hj as <-. congruence.
    + intros (j & x & ex & [Hj Hne]%Hrem & <-). split; [by exists j, x, ex|]. intros E.
      by apply Hne, (w_distinct _ _ Hw j i x ev ex e).
  - cbn. intros Hnf1. destruct (Htight Hnf1) as (j & x & ex & Hj & Hne & E). exists j, x, ex. split; [by apply Hrem|done].
  - intros j x Hj Hx. destruct (Htab j x Hj Hx) as [_ Hjx]. by apply (w_timer _ _ Hw j).
  - cbn. rewrite lookup_insert_ne by done. apply (w_null _ _ Hw).
Qed.

Lemma removeWatch_spec s T i ev e :
  watch_ok s T -> watching s i ev e ->
  exists s', removeWatch s ev (Z.of_nat i) = Some s' /\ watch_ok s' T /\ links s' = links s /\
    watch_table s' = <[i := NULL]> (watch_table s) /\ events s' = <[ev := with_index e (-1)]> (events s).
Proof.
  intros Hw Hwi. pose proof Hwi as (Hi & Hev & He). destruct (w_known _ _ Hw i ev Hi Hev) as (Hlk & e0 & He0 & Hix & Hfd & Hlt).
  rewrite He in He0. injection He0 as <-. pose proof (w_len _ _ Hw) as Hlen. pose proof (lookup_lt_Some _ _ _ Hi) as Hil.
  unfold removeWatch, table_set. rewrite (proj2 (Z.leb_le _ _)), (proj2 (Z.ltb_lt _ _)) by lia. cbn [andb mbind option_bind].
  rewrite Nat2Z.id, He. cbn [mbind option_bind]. unfold fd_clr. rewrite Hfd.
  cbn [mbind option_bind put_fds put_event put_table events watch_table nfds links readFds].
  assert (forall j x ex, watching s j x ex -> j <> i -> 0 <= fd ex < nfds s /\ fd ex <> fd e) as Hother.
  { intros j x ex Hj Hne. pose proof Hj as (Hjx & Hx & Hex). destruct (w_known _ _ Hw j x Hjx Hx) as (_ & ex' & Hex' & _ & Hin & ?).
    rewrite Hex in Hex'. injection Hex' as <-. unfold in_fd_set in Hin. apply andb_true_iff in Hin as [?%Z.leb_le _].
    split; [lia|]. intros E. by apply Hne, (w_distinct _ _ Hw j i x ev ex e). }
  destruct (Z.eqb_spec (fd e + 1) (nfds s)) as [En|En].
  - destruct (max_fd_spec (<[ev := with_index e (-1)]> (events s)) (<[i := NULL]> (watch_table s)) 0) as (m & -> & Hm & Hall & Hwho).
    { intros x Hx Hnx. apply list_elem_of_lookup in Hx as [j Hj]. destruct (decide (j = i)) as [->|Hne].
      { rewrite list_lookup_insert_eq in Hj by done. congruence. }
      rewrite list_lookup_insert_ne in Hj by done. destruct (decide (ev = x)) as [->|Hn']; [rewrite lookup_insert_eq; eauto|].
      rewrite lookup_insert_ne by done. destruct (w_known _ _ Hw j x Hj Hnx) as (_ & ex & -> & _). eauto. }
    cbn [mbind option_bind put_nfds]. eexists. split; [done|]. split; [|done]. apply (watch_less s T i ev e (m + 1)); [done|done| |].
    + intros j x ex Hj Hne. destruct Hj as (Hjx & Hx & Hex). assert (fd ex <= m); [|lia]. apply (Hall x ex); [|done|].
      * apply list_elem_of_lookup. exists j. by rewrite list_lookup_insert_ne.
      * rewrite lookup_insert_ne; [done|]. intros <-. by apply Hne, (watching_once s T i j ev).
    + intros Hm1. destruct Hwho as [->|(x & ex & Hx & Hnx & Hex & <-)]; [lia|].
      apply list_elem_of_lookup in Hx as [j Hj]. assert (j <> i) as Hne.
      { intros ->. rewrite list_lookup_insert_eq in Hj by done. congruence. }
      rewrite list_lookup_insert_ne in Hj by done. assert (ev <> x) as Hne' by (intros <-; by apply Hne, (watching_once s T i j ev)).
      rewrite lookup_insert_ne in Hex by done. exists j, x, ex. by split_and!.
  - eexists. split; [done|]. split; [|done]. apply (watch_less s T i ev e (nfds s)); [done|done| |].
    + intros j x ex Hj Hne. destruct (Hother j x ex Hj Hne). lia.
    + intros Hn1. destruct (w_tight _ _ Hw Hn1) as (j & x & ex & Hj & E). exists j, x, ex. split; [done|]. split; [|done].
      intros ->. destruct Hj as (Hj & _ & Hex). rewrite Hi in Hj. injection Hj as <-. congruence.
Qed.

(** An event may be added that is known and in neither the table nor a timer, with
    a descriptor of its own. *)
Definition addable (s : ril) (T : list ptr) (ev : ptr) : Prop :=
  is_Some (nxt (links s) !! ev) /\ ev ∉ NULL :: timer_list :: pending_list :: T /\ ev ∉ watch_table s /\
  exists e, events s !! ev = Some e /\ in_fd_set (fd e) = true /\ fd e ∉ readFds s.

Lemma event_add_spec s T ev :
  watch_ok s T -> addable s T ev ->
  exists s', ril_event_add s ev = Some s' /\ watch_ok s' T /\ links s' = links s /\
    (forall x, is_Some (events s !! x) -> is_Some (events s' !! x)) /\ (forall x, time_of s' x = time_of s x) /\
    (NULL ∈ watch_table s -> ev ∈ watch_table s') /\ (NULL ∉ watch_table s -> s' = s).
Proof.
  intros Hw (Hlk & Hsp & Hnt & e & He & Hfd & Hnf). unfold ril_event_add.
  destruct (list_find (fun p => p = NULL) (watch_table s)) as [[i x]|] eqn:Ef.
  2:{ exists s. do 5 (split; [done|]). split; [|done]. intros Hin. apply list_find_None in Ef.
      rewrite Forall_forall in Ef. by destruct (Ef NULL). }
  apply list_find_Some in Ef as (Hi & -> & _). pose proof (lookup_lt_Some _ _ _ Hi) as Hil.
  assert (NULL ∈ watch_table s) as Hnull by (by eapply list_elem_of_lookup_2).
  cbn [events put_table]. rewrite He. cbn [mbind option_bind]. unfold fd_set. rewrite Hfd.
  cbn [mbind option_bind put_fds put_event put_table events watch_table nfds links readFds].
  set (s' := if nfds s <=? fd e then _ else _).
  assert (s' = mk_ril (links s) (<[ev := with_index e (Z.of_nat i)]> (events s)) (<[i := ev]> (watch_table s))
    ({[fd e]} ∪ readFds s) (Z.max (nfds s) (fd e + 1))) as ->.
  { unfold s'. destruct (Z.leb_spec (nfds s) (fd e)); [by rewrite Z.max_r by lia|by rewrite Z.max_l by lia]. }
  set (s' := mk_ril (links s) _ _ _ _). exists s'. split; [done|].
  assert (ev <> NULL) as Hen by set_solver.
  assert (forall j x ex, watching s' j x ex <-> (j = i /\ x = ev /\ ex = with_index e (Z.of_nat i)) \/ watching s j x ex) as Hwa.
  { intros j x ex. unfold watching. cbn. split.
    - intros (Hj & Hx & Hex). destruct (decide (j = i)) as [->|Hne].
      + rewrite list_lookup_insert_eq in Hj by done. injection Hj as <-. rewrite lookup_insert_eq in Hex. injection Hex as <-. by left.
      + rewrite list_lookup_insert_ne in Hj by done. right. rewrite lookup_insert_ne in Hex; [done|].
        intros ->. apply Hnt. by eapply list_elem_of_lookup_2.
    - intros [(-> & -> & ->)|(Hj & Hx & Hex)].
      + by rewrite list_lookup_insert_eq, lookup_insert_eq by done.
      + rewrite list_lookup_insert_ne by (intros ->; congruence). rewrite lookup_insert_ne; [done|].
        intros ->. apply Hnt. by eapply list_elem_of_lookup_2. }
  assert (forall j x ex, watching s j x ex -> fd ex <> fd e) as Hfresh.
  { intros j x ex Hj E. apply Hnf, (w_set _ _ Hw). by exists j, x, ex. }
  split; [|split; [done|split; [|split]]].
  - split.
    + cbn. rewrite length_insert. apply (w_len _ _ Hw).
    + intros j x Hj Hx. cbn in Hj. destruct (decide (j = i)) as [->|Hne].
      * rewrite list_lookup_insert_eq in Hj by done. injection Hj as <-. split; [done|].
        exists (with_index e (Z.of_nat i)). cbn. rewrite lookup_insert_eq. split; [done|]. do 2 (split; [done|]). lia.
      * rewrite list_lookup_insert_ne in Hj by done. destruct (w_known _ _ Hw j x Hj Hx) as (? & ex & Hex & ? & ? & ?).
        split; [done|]. exists ex. cbn. rewrite lookup_insert_ne; [|intros ->; apply Hnt; by eapply list_elem_of_lookup_2].
        split; [done|]. do 2 (split; [done|]). lia.
    + intros x ex Hex Hx1 Hx2 Hr. cbn in Hex |- *. destruct (decide (ev = x)) as [<-|Hne].
      * rewrite lookup_insert_eq in Hex. injection Hex as <-. cbn. rewrite Nat2Z.id. by apply list_lookup_insert_eq.
      * rewrite lookup_insert_ne in Hex by done. pose proof (w_index _ _ Hw x ex Hex Hx1 Hx2 Hr) as Hxi.
        rewrite list_lookup_insert_ne; [done|]. intros E. rewrite <- E, Hi in Hxi. injection Hxi as <-.
        by rewrite (w_null _ _ Hw) in Hex.
    + intros j k x y ex ey. rewrite !Hwa. intros [(-> & -> & ->)|Hj] [(-> & -> & ->)|Hk] E; cbn in E.
      * done.
      * by edestruct Hfresh.
      * by edestruct Hfresh.
      * by apply (w_distinct _ _ Hw j k x y ex ey).
    + intros f. cbn. rewrite elem_of_union, elem_of_singleton, (w_set _ _ Hw). split.
      * intros [->|(j & x & ex & Hj & E)]; [exists i, ev, (with_index e (Z.of_nat i)); split; [apply Hwa; by left|done]|].
        exists j, x, ex. split; [apply Hwa; by right|done].
      * intros (j & x & ex & Hj & <-). apply Hwa in Hj as [(_ & _ & ->)|Hj]; [by left|right]. by exists j, x, ex.
    + cbn. intros Hn1. destruct (Z.leb_spec (nfds s) (fd e)).
      * exists i, ev, (with_index e (Z.of_nat i)). split; [apply Hwa; by left|cbn; lia].
      * destruct (w_tight _ _ Hw) as (j & x & ex & Hj & E); [lia|]. exists j, x, ex. split; [apply Hwa; by right|lia].
    + intros j x Hj Hx. cbn in Hj. destruct (decide (j = i)) as [->|Hne].
      * rewrite list_lookup_insert_eq in Hj by done. injection Hj as <-. set_solver.
      * rewrite list_lookup_insert_ne in Hj by done. by apply (w_timer _ _ Hw j).
    + cbn. rewrite lookup_insert_ne by done. apply (w_null _ _ Hw).
  - intros x Hx. cbn. destruct (decide (ev = x)) as [<-|]; [rewrite lookup_insert_eq; eauto|by rewrite lookup_insert_ne].
  - intros x. unfold time_of. cbn. destruct (decide (ev = x)) as [<-|]; [by rewrite lookup_insert_eq, He|by rewrite lookup_insert_ne].
  - split; [|done]. intros _. cbn. apply list_elem_of_lookup_2 with i. by apply list_lookup_insert_eq.
Qed.

(** ** The whole invariant *)

Definition good (s : ril) (T P : list ptr) : Prop := lists_ok s T P /\ watch_ok s T.

Lemma event_del_spec s T P ev :
  good s T P -> is_Some (events s !! ev) -> ev <> timer_list -> ev <> pending_list ->
  exists s', ril_event_del s ev = Some s' /\ good s' T P /\ ev ∉ watch_table s'.
Proof.
  intros [Hl Hw] [e He] Hn1 Hn2. unfold ril_event_del. rewrite He. cbn [mbind option_bind].
  assert (ev <> NULL) as Hn3 by (intros ->; by rewrite (w_null _ _ Hw) in He).
  assert (forall i, watch_table s !! i = Some ev -> index e = Z.of_nat i) as Hix.
  { intros i Hi. destruct (w_known _ _ Hw i ev Hi Hn3) as (_ & e' & He' & Hix & _). rewrite He in He'. by injection He' as <-. }
  assert (forall i, watch_table s !! i = Some ev -> (i < MAX_FD_EVENTS)%nat) as Hlen.
  { intros i Hi%lookup_lt_Some. by rewrite (w_len _ _ Hw) in Hi. }
  destruct (_ || _) eqn:Eb.
  - exists s. split; [done|]. split; [by split|]. intros Hin. apply list_elem_of_lookup in Hin as [i Hi].
    specialize (Hlen i Hi). specialize (Hix i Hi). apply orb_true_iff in Eb. rewrite Z.ltb_lt, Z.leb_le in Eb. lia.
  - apply orb_false_iff in Eb as [?%Z.ltb_ge ?%Z.leb_gt].
    assert (watching s (Z.to_nat (index e)) ev e) as Hwi by (split; [by apply (w_index _ _ Hw)|done]).
    destruct (removeWatch_spec s T (Z.to_nat (index e)) ev e Hw Hwi) as (s' & E & Hw' & El & Et & Ee).
    rewrite Z2Nat.id in E by lia. exists s'. split; [done|]. split; [split; [|done]|].
    + apply (lists_events s); try done.
      * intros x Hx. rewrite Ee. destruct (decide (ev = x)) as [<-|]; [rewrite lookup_insert_eq; eauto|by rewrite lookup_insert_ne].
      * intros x _. unfold time_of. rewrite Ee. destruct (decide (ev = x)) as [<-|]; [by rewrite lookup_insert_eq, He|by rewrite lookup_insert_ne].
    + rewrite Et. intros Hin. apply list_elem_of_lookup in Hin as [j Hj].
      assert (Z.to_nat (index e) < length (watch_table s))%nat as Hlt by (rewrite (w_len _ _ Hw); lia).
      destruct (decide (j = Z.to_nat (index e))) as [->|Hne].
      * rewrite list_lookup_insert_eq in Hj by done. by injection Hj.
      * rewrite list_lookup_insert_ne in Hj by done. specialize (Hix j Hj). lia.
Qed.

Lemma pending_add s T P ev :
  lists_ok s T P -> idle s T P ev ->
  exists h, addToList (links s) ev pending_list = Some h /\ lists_ok (put_links s h) T (P ++ [ev]) /\
    forall x, is_Some (nxt (links s) !! x) -> is_Some (nxt h !! x).
Proof.
  intros Hok [Hn Hoff]. unfold on_lists in Hoff.
  destruct (add_before (links s) pending_list P [] ev) as (h & E & Hd & Hsame).
  { rewrite app_nil_r. apply (l_pending _ _ _ Hok). }
  { rewrite app_nil_r. intros Hx. apply Hoff. by right. }
  { done. }
  { by apply (l_prev _ _ _ Hok). }
  exists h. split; [exact E|]. split; [|intros x; apply Hsame].
  apply (lists_relink s T P h T (P ++ [ev]) (fun x => x ∈ ev :: pending_list :: P ++ [])); try done.
  - apply (dlist_frame _ _ _ _ _ Hsame); [|apply (l_timers _ _ _ Hok)]. rewrite app_nil_r. intros y Hy Hy'.
    apply elem_of_cons in Hy' as [->|Hy']; [apply Hoff; by left|]. by apply (l_apart _ _ _ Hok y Hy).
  - intros y Hy. rewrite app_comm_cons, elem_of_app. intros [Hy'|Hy'%list_elem_of_singleton]; [by apply (l_apart _ _ _ Hok y Hy)|].
    subst. apply Hoff. by left.
  - intros y Hy1 Hy2. right. rewrite app_nil_r. set_solver.
  - apply (l_sorted _ _ _ Hok).
Qed.

Lemma watch_links s h T :
  watch_ok s T -> (forall x, is_Some (nxt (links s) !! x) -> is_Some (nxt h !! x)) -> watch_ok (put_links s h) T.
Proof.
  intros [H1 H2 H3 H4 H5 H6 H7 H8] Hn. split; try done. intros i ev Hi Hev. destruct (H2 i ev Hi Hev) as [? ?]. auto.
Qed.

Lemma watch_sub s T T' : watch_ok s T -> (forall x, x ∈ T' -> x ∈ T) -> watch_ok s T'.
Proof. intros [H1 H2 H3 H4 H5 H6 H7 H8] Hsub. split; try done. intros i x Hi Hx. specialize (H7 i x Hi Hx). set_solver. Qed.

(** The watched events that are ready, in the order of the table. *)
Definition ready_at (s : ril) (rfds : gset Z) (i : nat) : option ptr :=
  ev ← watch_table s !! i;
  if (ev =? NULL)%nat then None else e ← events s !! ev; if decide (fd e ∈ rfds) then Some ev else None.
Definition ready_list (s : ril) (rfds : gset Z) : list ptr := omap (ready_at s rfds) (seq 0 MAX_FD_EVENTS).

Lemma omap_ext_in {A B} (f g : A -> option B) (l : list A) : (forall x, x ∈ l -> f x = g x) -> omap f l = omap g l.
Proof.
  induction l as [|x l IH]; intros Hfg; [done|]. cbn. rewrite Hfg by (by left). rewrite IH; [done|]. intros y Hy. apply Hfg. by right.
Qed.

Lemma ready_spec k i rfds n s T P :
  lists_ok s T P -> watch_ok s T -> (i + k = MAX_FD_EVENTS)%nat ->
  (forall j ev, (i <= j)%nat -> watch_table s !! j = Some ev -> ev <> NULL -> idle s T P ev) ->
  Z.of_nat (length (omap (ready_at s rfds) (seq i k))) <= n ->
  exists s', ready_entries (seq i k) rfds n s = Some s' /\
    lists_ok s' T (P ++ omap (ready_at s rfds) (seq i k)) /\ watch_ok s' T.
Proof.
  revert i n s P. induction k as [|k IH]; intros i n s P Hl Hw Hik Hidle Hn; cbn [seq ready_entries omap list_omap].
  { exists s. by rewrite app_nil_r. }
  destruct (Z.leb_spec n 0) as [Hn0|Hn0].
  { exists s. split; [done|]. change (match _ with Some y => _ | None => _ end) with (omap (ready_at s rfds) (seq i (S k))).
    destruct (omap (ready_at s rfds) (seq i (S k))); [by rewrite app_nil_r|cbn in Hn; lia]. }
  destruct (lookup_lt_is_Some_2 (watch_table s) i) as [ev0 Hi]; [rewrite (w_len _ _ Hw); lia|].
  cbn [seq omap list_omap] in Hn. unfold ready_at at 1 in Hn. unfold ready_at at 1.
  rewrite Hi in Hn |- *. cbn [mbind option_bind] in Hn |- *.
  destruct (Nat.eqb_spec ev0 NULL) as [_|Hrev].
  { apply IH; try done; [lia|]. intros j ev Hj. apply Hidle. lia. }
  destruct (w_known _ _ Hw i ev0 Hi Hrev) as (_ & e & He & _ & Hfd & _). rewrite He in Hn |- *. cbn [mbind option_bind] in Hn |- *.
  rewrite Hfd. cbn [negb]. case_decide as Hr.
  2:{ apply IH; try done; [lia|]. intros j ev Hj. apply Hidle. lia. }
  destruct (pending_add s T P ev0 Hl) as (h & E & Hl1 & Hdom); [by apply (Hidle i)|]. rewrite E. cbn [mbind option_bind].
  pose proof (watch_links s h T Hw Hdom) as Hw1. set (s1 := put_links s h) in *.
  assert (watching s1 i ev0 e) as Hwi by done.
  assert (exists s2, (if persist e then Some s1 else removeWatch s1 ev0 (Z.of_nat i)) = Some s2 /\ lists_ok s2 T (P ++ [ev0]) /\
    watch_ok s2 T /\ links s2 = h /\ (forall j, j <> i -> watch_table s2 !! j = watch_table s !! j) /\
    (forall x, x <> ev0 -> events s2 !! x = events s !! x)) as (s2 & -> & Hl2 & Hw2 & El2 & Et2 & Ee2).
  { destruct (persist e); [by exists s1|].
    destruct (removeWatch_spec s1 T i ev0 e Hw1 Hwi) as (s2 & E2 & Hw2 & El & Et & Ee). exists s2. split; [done|]. split.
    - apply (lists_events s1); try done.
      + intros x Hx. rewrite Ee. destruct (decide (ev0 = x)) as [<-|]; [rewrite lookup_insert_eq; eauto|by rewrite lookup_insert_ne].
      + intros x _. unfold time_of. rewrite Ee. destruct (decide (ev0 = x)) as [<-|]; [|by rewrite lookup_insert_ne].
        rewrite lookup_insert_eq. cbn. by rewrite He.
    - split; [done|]. split; [done|]. rewrite Et, Ee. split; [intros j Hj; by rewrite list_lookup_insert_ne|].
      intros x Hx. by rewrite lookup_insert_ne. }
  cbn [mbind option_bind].
  assert (omap (ready_at s2 rfds) (seq (S i) k) = omap (ready_at s rfds) (seq (S i) k)) as Eo.
  { apply omap_ext_in. intros j Hj%elem_of_seq. unfold ready_at. rewrite Et2 by lia.
    destruct (watch_table s !! j) as [x|] eqn:Hj'; [|done]. cbn. destruct (Nat.eqb_spec x NULL) as [|Hx]; [done|].
    rewrite Ee2; [done|]. intros ->. pose proof (watching_once s T i j ev0 Hw Hi Hj' Hrev). lia. }
  destruct (IH (S i) (n - 1) s2 (P ++ [ev0])) as (s' & -> & Hl' & Hw'); try done.
  - lia.
  - intros j ev Hj Hjev Hev. rewrite Et2 in Hjev by lia. destruct (Hidle j ev ltac:(lia) Hjev Hev) as [Hn1 Hn2]. split.
    + rewrite El2. by apply Hdom.
    + unfold on_lists in *. assert (ev <> ev0) by (intros ->; pose proof (watching_once s T i j ev0 Hw Hi Hjev Hrev); lia). set_solver.
  - rewrite Eo. cbn in Hn. lia.
  - exists s'. split; [done|]. rewrite Eo, <- app_assoc in Hl'. by split.
Qed.

Lemma ready_at_Some s T rfds i ev :
  watch_ok s T -> ready_at s rfds i = Some ev -> exists e, watching s i ev e /\ fd e ∈ rfds.
Proof.
  intros Hw. unfold ready_at. destruct (watch_table s !! i) as [x|] eqn:Hi; [|done]. cbn [mbind option_bind].
  destruct (Nat.eqb_spec x NULL) as [|Hx]; [done|]. destruct (w_known _ _ Hw i x Hi Hx) as (_ & e & He & _).
  rewrite He. cbn [mbind option_bind]. case_decide; [|done]. intros [= <-]. by exists e.
Qed.

(** No more events are ready than descriptors. *)
Lemma ready_count s T rfds : watch_ok s T -> Z.of_nat (length (ready_list s rfds)) <= Z.of_nat (size rfds).
Proof.
  intros Hw. set (f := fun ev => from_option fd 0 (events s !! ev)).
  assert (forall idx : list nat, NoDup idx -> NoDup (f <$> omap (ready_at s rfds) idx) /\
    forall v, v ∈ f <$> omap (ready_at s rfds) idx -> v ∈ rfds /\ exists i ev e, i ∈ idx /\ watching s i ev e /\ fd e = v) as Hgen.
  { induction 1 as [|i idx Hi Hnd [IH1 IH2]]; [split; [constructor|by intros v ?%not_elem_of_nil]|]. cbn.
    destruct (ready_at s rfds i) as [ev|] eqn:E; [|split; [done|]; intros v Hv; destruct (IH2 v Hv) as [? (j & x & e & ? & ?)];
      split; [done|]; exists j, x, e; split; [by right|done]].
    destruct (ready_at_Some s T rfds i ev Hw E) as (e & Hwi & Hfd). assert (f ev = fd e) as Ef by (unfold f; by destruct Hwi as (_ & _ & ->)).
    cbn. rewrite Ef. split.
    - constructor; [|done]. intros Hv. destruct (IH2 _ Hv) as [_ (j & x & e' & Hj & Hwj & Ee)].
      rewrite <- (w_distinct _ _ Hw j i x ev e' e Hwj Hwi Ee) in Hi. done.
    - intros v [->|Hv]%elem_of_cons; [split; [done|]; exists i, ev, e; split; [by left|done]|].
      destruct (IH2 v Hv) as [? (j & x & e' & ? & ?)]. split; [done|]. exists j, x, e'. split; [by right|done]. }
  destruct (Hgen (seq 0 MAX_FD_EVENTS) (NoDup_seq _ _)) as [Hnd Hin]. fold (ready_list s rfds) in Hnd, Hin.
  rewrite <- (length_fmap f), <- (size_list_to_set (C := gset Z)) by done. apply inj_le, subseteq_size.
  intros v Hv. apply elem_of_list_to_set in Hv. by apply Hin.
Qed.

(** ** Firing *)

(** A callback that leaves the pending events alone. *)
Definition polite (func : ptr -> Z -> ril -> option ril) : Prop :=
  forall ev f s T P, good s T P -> exists s' T', func ev f s = Some s' /\ good s' T' P.

Lemma fire_spec func fuel s T P :
  polite func -> good s T P -> (length P < fuel)%nat ->
  exists s' T', fire func fuel (hd_default pending_list P) s = Some (P, s') /\ good s' T' [].
Proof.
  intros Hpol. revert s T P. induction fuel as [|fuel IH]; intros s T P [Hl Hw] Hlen; [lia|].
  destruct P as [|x P]; cbn [hd_default fire].
  - rewrite Nat.eqb_refl. by exists s, T.
  - assert ((x =? pending_list)%nat = false) as ->.
    { destruct (l_pending _ _ _ Hl) as [Hnd _]. apply Nat.eqb_neq. apply NoDup_cons in Hnd as [? _]. set_solver. }
    unfold get_next. rewrite (dlist_next _ _ [] x P (l_pending _ _ _ Hl)). cbn [mbind option_bind].
    destruct (drop_pending s x T P Hl) as (h & E & Hl1). rewrite E. cbn [mbind option_bind].
    destruct (listed_event s T (x :: P) x Hl) as (e & He & _); [right; set_solver|].
    cbn [put_links events]. rewrite He. cbn [mbind option_bind].
    assert (good (put_links s h) T P) as Hg.
    { split; [done|]. apply watch_links; [done|]. intros y Hy. destruct (null_unlisted _ _ _ Hl) as [_ Hnull].
      destruct (remove_listed (links s) pending_list [] x P (l_pending _ _ _ Hl) Hnull) as (h' & E' & _ & (_ & Hsame & _) & _).
      rewrite E in E'. injection E' as <-. by apply Hsame. }
    destruct (Hpol x (fd e) (put_links s h) T P Hg) as (s2 & T2 & Ef & Hg2).
    change (mk_ril h (events s) _ _ _) with (put_links s h). rewrite Ef. cbn [mbind option_bind].
    destruct (IH s2 T2 P Hg2) as (s3 & T3 & E3 & Hg3); [cbn in Hlen; lia|]. rewrite E3. cbn [mbind option_bind]. by exists s3, T3.
Qed.

(** What select promises: ready descriptors among those asked for, and their number. *)
Definition honest (select : Z -> gset Z -> option timeval -> selected) : Prop :=
  forall n fds tv k rfds, select n fds tv = Selected k rfds -> rfds ⊆ fds /\ k = Z.of_nat (size rfds).

Lemma turn_fires (func : ptr -> Z -> ril -> option ril) (select : Z -> gset Z -> option timeval -> selected)
    (s : ril) (T : list ptr) (now now' : timeval) (tv : option timeval) (k : Z) (rfds : gset Z) :
  good s T [] -> polite func -> honest select ->
  calcNextTimeout s now = Some tv -> select (nfds s) (readFds s) tv = Selected k rfds ->
  exists s' T', ril_event_loop func select now now' s =
      Some (Continue (filter (expired s now') T ++ ready_list s rfds) s') /\ good s' T' [].
Proof.
  intros [Hl Hw] Hpol Hhon Etv Esel. destruct (Hhon _ _ _ _ _ Esel) as [Hsub ->]. unfold ril_event_loop.
  rewrite Etv. cbn [mbind option_bind]. rewrite Esel.
  destruct (processTimeouts_spec now' T [] s Hl) as (h & -> & Hl1 & Hdom). cbn [mbind option_bind app] in *.
  set (s1 := put_links s h) in *. set (T1 := filter (fun x => ~ expired s now' x) T) in *. set (E1 := filter (expired s now') T) in *.
  assert (forall x, x ∈ T1 \/ x ∈ E1 -> x ∈ T) as HinT by (intros x [Hx|Hx]; by apply list_elem_of_filter in Hx as [_ ?]).
  assert (watch_ok s1 T1) as Hw1 by (apply watch_links; [apply (watch_sub s T); auto|done]).
  unfold processReadReadies.
  destruct (ready_spec MAX_FD_EVENTS 0 rfds (Z.of_nat (size rfds)) s1 T1 E1) as (s2 & -> & Hl2 & Hw2); try done.
  { intros j ev _ Hj Hev. destruct (w_known _ _ Hw j ev Hj Hev) as [Hn _]. split; [by apply Hdom|].
    pose proof (w_timer _ _ Hw j ev Hj Hev) as Ht. unfold on_lists. set_solver. }
  { apply (ready_count s1 T1 rfds Hw1). }
  cbn [mbind option_bind]. change (omap (ready_at s1 rfds) (seq 0 MAX_FD_EVENTS)) with (ready_list s rfds) in Hl2.
  unfold firePending, get_next. rewrite (dlist_first _ _ _ (l_pending _ _ _ Hl2)). cbn [mbind option_bind].
  destruct (fire_spec func (fuel_of s2) s2 T1 _ Hpol (conj Hl2 Hw2)) as (s3 & T3 & -> & Hg).
  { pose proof (dlist_len _ _ _ (l_pending _ _ _ Hl2)). unfold fuel_of. lia. }
  cbn [mbind option_bind]. by exists s3, T3.
Qed.

(** ** The clients' calls *)

Inductive client_call :=
| CSet (ev : ptr) (f : Z) (pers : bool)
| CAdd (ev : ptr)
| CDel (ev : ptr)
| CTimer (ev : ptr) (tv : option timeval) (now : timeval)
| CTimerDelete (ev : ptr).

Definition run_call (s : ril) (c : client_call) : option ril :=
  match c with
  | CSet ev f pers => Some (ril_event_set s ev f pers)
  | CAdd ev => ril_event_add s ev
  | CDel ev => ril_event_del s ev
  | CTimer ev tv now => ril_timer_add s ev tv now
  | CTimerDelete ev => snd <$> ril_timer_delete s ev
  end.

(** A client's own events, and their links zero when they are on no list. *)
Definition client_event (ev : ptr) : Prop := ev ∉ [NULL; timer_list; pending_list].
Definition unlinked_event (s : ril) (ev : ptr) : Prop := nxt (links s) !! ev = Some NULL.

#[export] Instance client_event_dec ev : Decision (client_event ev).
Proof. unfold client_event. apply _. Defined.
#[export] Instance unlinked_event_dec s ev : Decision (unlinked_event s ev).
Proof. unfold unlinked_event. apply _. Defined.

(** When a call may be made, the events [P] being left alone: events are set up
    first, and those in use are not set up again or watched as well as timed. *)
Definition callable (s : ril) (P : list ptr) (c : client_call) : Prop :=
  match c with
  | CSet ev _ _ => client_event ev /\ (nxt (links s) !! ev = None \/ unlinked_event s ev) /\ ev ∉ watch_table s
  | CAdd ev => client_event ev /\ unlinked_event s ev /\ ev ∉ watch_table s /\
      exists e, events s !! ev = Some e /\ in_fd_set (fd e) = true /\ fd e ∉ readFds s
  | CDel ev => client_event ev /\ is_Some (nxt (links s) !! ev)
  | CTimer ev _ _ => client_event ev /\ unlinked_event s ev /\ ev ∉ watch_table s
  | CTimerDelete ev => client_event ev /\ is_Some (nxt (links s) !! ev) /\ ev ∉ P
  end.

Lemma linked_next h hd xs x : dlist h hd xs -> NULL ∉ hd :: xs -> x ∈ hd :: xs -> nxt h !! x <> Some NULL.
Proof.
  intros Hd Hnull Hx E. assert (forall l, l ⊆ xs -> hd_default hd l <> NULL) as Hne.
  { intros [|y l] Hl; cbn; intros ->; apply Hnull; [by left|]. right. apply Hl. by left. }
  apply elem_of_cons in Hx as [->|Hx].
  - rewrite (dlist_first _ _ _ Hd) in E. injection E. by apply Hne.
  - apply list_elem_of_split in Hx as (l1 & l2 & ->). rewrite (dlist_next _ _ _ _ _ Hd) in E. injection E. apply Hne. set_solver.
Qed.

Lemma unlinked_idle s T P ev : lists_ok s T P -> unlinked_event s ev -> idle s T P ev.
Proof.
  intros Hok Hn. split; [by eexists|]. destruct (null_unlisted _ _ _ Hok) as [HT HP].
  intros [Hx|Hx]; [apply (linked_next _ _ _ _ (l_timers _ _ _ Hok) HT Hx)|apply (linked_next _ _ _ _ (l_pending _ _ _ Hok) HP Hx)]; done.
Qed.

(** The heap of a freshly set event. *)
Lemma dlist_fresh h hd xs ev v :
  dlist h hd xs -> ev ∉ hd :: xs -> dlist (mk_heap (<[ev := v]> (nxt h)) (<[ev := v]> (prv h))) hd xs.
Proof. intros Hd Hev. by apply dlist_set_self. Qed.

Lemma event_set_good s T P ev f pers : good s T P -> callable s P (CSet ev f pers) -> good (ril_event_set s ev f pers) T P.
Proof.
  intros [Hl Hw] (Hc & Hlink & Hnt). unfold client_event in Hc.
  assert (~ on_lists T P ev) as Hoff.
  { destruct Hlink as [Hn|Hn]; [|by apply (unlinked_idle s T P ev)]. intros [Hx|Hx].
    - apply (dlist_heads _ _ _ (l_timers _ _ _ Hl)) in Hx as [[? E] _]. congruence.
    - apply (dlist_heads _ _ _ (l_pending _ _ _ Hl)) in Hx as [[? E] _]. congruence. }
  unfold on_lists in Hoff. set (s' := ril_event_set s ev f pers).
  assert (forall x, x <> ev -> time_of s' x = time_of s x) as Htime by (intros x Hx; unfold time_of; cbn; by rewrite lookup_insert_ne).
  split.
  - split.
    + apply dlist_fresh; [apply (l_timers _ _ _ Hl)|]. intros Hx. apply Hoff. by left.
    + apply dlist_fresh; [apply (l_pending _ _ _ Hl)|]. intros Hx. apply Hoff. by right.
    + apply (l_apart _ _ _ Hl).
    + cbn. rewrite lookup_insert_ne by set_solver. apply (l_null _ _ _ Hl).
    + intros x. cbn. destruct (decide (ev = x)) as [<-|]; [rewrite !lookup_insert_eq; split; eauto|].
      rewrite !lookup_insert_ne by done. apply (l_prev _ _ _ Hl).
    + intros x. cbn. destruct (decide (ev = x)) as [<-|]; [rewrite !lookup_insert_eq; eauto|].
      rewrite !lookup_insert_ne by done. apply (l_events _ _ _ Hl).
    + intros x Hx1 Hx2. cbn. destruct (decide (ev = x)) as [<-|]; [by rewrite lookup_insert_eq|].
      rewrite !lookup_insert_ne by done. by apply (l_off _ _ _ Hl).
    + assert (ev ∉ T) as HevT by set_solver. pose proof (l_sorted _ _ _ Hl) as Hs. clear -Hs HevT Htime. induction Hs as [|x T HT IH Hx]; constructor.
      * apply IH. set_solver.
      * rewrite Forall_forall in Hx |- *. intros y Hy. rewrite !Htime by set_solver. by apply Hx.
  - assert (forall i x e, watching s' i x e <-> watching s i x e) as Hwa.
    { intros i x e. unfold watching. cbn. split; intros (Hi & Hx & He).
      - rewrite lookup_insert_ne in He by (intros <-; apply Hnt; by eapply list_elem_of_lookup_2). done.
      - rewrite lookup_insert_ne by (intros <-; apply Hnt; by eapply list_elem_of_lookup_2). done. }
    split.
    + apply (w_len _ _ Hw).
    + intros i x Hi Hx. destruct (w_known _ _ Hw i x Hi Hx) as (Hn & e & He & ?). cbn.
      assert (ev <> x) by (intros <-; apply Hnt; by eapply list_elem_of_lookup_2). rewrite !lookup_insert_ne by done. eauto.
    + intros x e He Hx1 Hx2 Hr. cbn in He. destruct (decide (ev = x)) as [<-|]; [rewrite lookup_insert_eq in He; injection He as <-; cbn in Hr; lia|].
      rewrite lookup_insert_ne in He by done. by apply (w_index _ _ Hw).
    + intros i j x y ex ey. rewrite !Hwa. apply (w_distinct _ _ Hw).
    + intros g. cbn. rewrite (w_set _ _ Hw). split; intros (i & x & e & Hi & ?); exists i, x, e; (split; [by apply Hwa|done]).
    + intros Hn. destruct (w_tight _ _ Hw Hn) as (i & x & e & Hi & ?). exists i, x, e. split; [by apply Hwa|done].
    + apply (w_timer _ _ Hw).
    + cbn. rewrite lookup_insert_ne by set_solver. apply (w_null _ _ Hw).
Qed.

Lemma timer_add_good s T P ev tv now :
  good s T P -> callable s P (CTimer ev (Some tv) now) ->
  exists s' T', ril_timer_add s ev (Some tv) now = Some s' /\ good s' T' P.
Proof.
  intros [Hl Hw] (Hc & Hun & Hnt). unfold client_event in Hc.
  pose proof (unlinked_idle s T P ev Hl Hun) as Hidle.
  destruct (timer_add_spec s T P ev tv now Hl Hidle) as (s' & l1 & l2 & e & E & -> & Hl' & He & Es & _ & _ & Hdom).
  exists s', (l1 ++ ev :: l2). split; [done|]. split; [done|].
  assert (watch_table s' = watch_table s /\ readFds s' = readFds s /\ nfds s' = nfds s /\
    events s' = <[ev := with_timer e (timeradd now tv)]> (events s)) as (Et & Er & En & Ee) by (by rewrite Es).
  assert (forall i x, watch_table s !! i = Some x -> ev <> x) as Hne by (intros i x Hi <-; apply Hnt; by eapply list_elem_of_lookup_2).
  assert (forall i x ex, watching s' i x ex <-> watching s i x ex) as Hwa.
  { intros i x ex. unfold watching. rewrite Et, Ee. split; intros (Hi & Hx & Hex).
    - rewrite lookup_insert_ne in Hex by eauto. done.
    - rewrite lookup_insert_ne by eauto. done. }
  split; rewrite ?Et, ?Er, ?En.
  - apply (w_len _ _ Hw).
  - intros i x Hi Hx. destruct (w_known _ _ Hw i x Hi Hx) as (Hn & ex & Hex & ?). split; [by apply Hdom|]. exists ex.
    rewrite Ee, lookup_insert_ne by eauto. done.
  - intros x ex Hex Hx1 Hx2 Hr. rewrite Ee in Hex. destruct (decide (ev = x)) as [<-|].
    + rewrite lookup_insert_eq in Hex. injection Hex as <-. cbn in Hr. exfalso. apply Hnt.
      apply (list_elem_of_lookup_2 _ (Z.to_nat (index e))). apply (w_index _ _ Hw); done.
    + rewrite lookup_insert_ne in Hex by done. by apply (w_index _ _ Hw).
  - intros i j x y ex ey. rewrite !Hwa. apply (w_distinct _ _ Hw).
  - intros g. rewrite (w_set _ _ Hw). split; intros (i & x & ex & Hi & ?); exists i, x, ex; (split; [by apply Hwa|done]).
  - intros Hn. destruct (w_tight _ _ Hw Hn) as (i & x & ex & Hi & ?). exists i, x, ex. split; [by apply Hwa|done].
  - intros i x Hi Hx. pose proof (w_timer _ _ Hw i x Hi Hx) as Ht. pose proof (Hne i x Hi). set_solver.
  - rewrite Ee, lookup_insert_ne by set_solver. apply (w_null _ _ Hw).
Qed.

Lemma timer_delete_good s T P ev :
  good s T P -> callable s P (CTimerDelete ev) ->
  exists r s' T', ril_timer_delete s ev = Some (r, s') /\ good s' T' P /\ r = bool_decide (ev ∈ T) /\ ev ∉ T'.
Proof.
  intros [Hl Hw] (Hc & Hn & HP). unfold client_event in Hc. unfold ril_timer_delete.
  destruct (decide (ev ∈ T)) as [HT|HT].
  - pose proof HT as HT'. apply list_elem_of_split in HT as (l1 & l2 & ->).
    destruct (drop_timer s l1 ev l2 P Hl) as (h & E & Hl' & _). rewrite E. cbn [mbind option_bind].
    exists true, (put_links s h), (l1 ++ l2). split; [done|]. split; [split; [done|]|split; [by rewrite bool_decide_true|]].
    + apply watch_links; [apply (watch_sub s (l1 ++ ev :: l2)); [done|set_solver]|]. intros x Hx.
      destruct (null_unlisted _ _ _ Hl) as [Hnull _].
      destruct (remove_listed (links s) timer_list l1 ev l2 (l_timers _ _ _ Hl) Hnull) as (h' & E' & _ & (_ & Hsame & _) & _).
      rewrite E in E'. injection E' as <-. by apply Hsame.
    + destruct (l_timers _ _ _ Hl) as [Hnd _]. rewrite app_comm_cons, <- Permutation_middle in Hnd.
      apply NoDup_cons in Hnd as [Hnd _]. set_solver.
  - assert (unlinked_event s ev) as Hun by (apply (l_off _ _ _ Hl); [set_solver|set_solver|done]).
    pose proof (proj1 (l_prev _ _ _ Hl ev) Hn) as [p Hp]. rewrite (remove_unlisted (links s) ev p Hp Hun). cbn [mbind option_bind].
    exists false, (put_links s (links s)), T. split; [done|]. split; [by destruct s|]. by rewrite bool_decide_false.
Qed.

(** Every permitted call succeeds and keeps the invariant. *)
Lemma call_good s T P c : good s T P -> callable s P c -> exists s' T', run_call s c = Some s' /\ good s' T' P.
Proof.
  intros Hg Hc. pose proof Hg as [Hl Hw]. destruct c as [ev f pers|ev|ev|ev tv now|ev]; cbn [run_call].
  - exists (ril_event_set s ev f pers), T. split; [done|]. by apply event_set_good.
  - destruct Hc as (Hc & Hun & Hnt & He). unfold client_event in Hc.
    destruct (unlinked_idle s T P ev Hl Hun) as [Hn Hoff]. unfold on_lists in Hoff.
    destruct (event_add_spec s T ev Hw) as (s' & E & Hw' & El & Ee & Et & _); [split_and!; [done|set_solver|done|done]|].
    exists s', T. split; [done|]. split; [|done]. by apply (lists_events s).
  - destruct Hc as [Hc Hn]. unfold client_event in Hc. apply (l_events _ _ _ Hl) in Hn.
    destruct (event_del_spec s T P ev Hg Hn) as (s' & E & Hg' & _); [set_solver|set_solver|]. by exists s', T.
  - destruct tv as [tv|]; [by apply (timer_add_good s T P)|]. by exists s, T.
  - destruct (timer_delete_good s T P ev Hg Hc) as (r & s' & T' & -> & Hg' & _). by exists s', T'.
Qed.

(** A callback that re-arms its own event as a timer, when it may. *)
Definition rearm (tv now : timeval) (ev : ptr) (f : Z) (s : ril) : option ril :=
  if decide (client_event ev /\ unlinked_event s ev /\ ev ∉ watch_table s) then ril_timer_add s ev (Some tv) now else Some s.

Lemma rearm_polite tv now : polite (rearm tv now).
Proof.
  intros ev f s T P Hg. unfold rearm. case_decide as Hd; [by apply (timer_add_good s T P)|]. by exists s, T.
Qed.

(** The state of the static variables. *)
Definition zero_ril : ril := mk_ril (mk_heap ∅ ∅) ∅ [] ∅ 0.

Lemma init_lookup x :
  let s := ril_event_init zero_ril in
  (x = timer_list \/ x = pending_list -> nxt (links s) !! x = Some x /\ prv (links s) !! x = Some x /\ is_Some (events s !! x)) /\
  (x <> timer_list -> x <> pending_list -> nxt (links s) !! x = None /\ prv (links s) !! x = None /\ events s !! x = None).
Proof.
  split.
  - intros [->| ->]; (split; [done|]); (split; [done|]); by eexists.
  - intros H1 H2. cbn. rewrite !(lookup_insert_ne _ pending_list x), !(lookup_insert_ne _ timer_list x) by done. done.
Qed.

Lemma ril_init_good : good (ril_event_init zero_ril) [] [].
Proof.
  set (s := ril_event_init zero_ril). pose proof init_lookup as Hi. cbn zeta in Hi. fold s in Hi.
  assert (forall i x, watch_table s !! i = Some x -> x = NULL) as Hr by (intros i x Hx; by apply lookup_replicate in Hx as [? _]).
  assert (forall i x e, ~ watching s i x e) as Hno by (intros i x e (Hj & Hx & _); by apply Hr in Hj).
  assert (forall x, x = timer_list \/ x = pending_list \/ (x <> timer_list /\ x <> pending_list)) as Hcase by (unfold timer_list, pending_list; lia).
  split; split; try done.
  - split; [by_compute|vm_compute; tauto].
  - split; [by_compute|vm_compute; tauto].
  - set_solver.
  - intros x. destruct (Hcase x) as [Hx|[Hx|[H1 H2]]]; [by destruct (proj1 (Hi x) ltac:(by left)) as (_ & _ & ?)|by destruct (proj1 (Hi x) ltac:(by right)) as (_ & _ & ?)|].
    destruct (proj2 (Hi x) H1 H2) as (-> & _). by intros [? ?].
  - intros x H1 H2. destruct (proj2 (Hi x)) as (-> & _); [set_solver..|]. by intros [? ?].
  - constructor.
  - intros i x Hx Hn. by apply Hr in Hx.
  - intros x e He H1 H2. destruct (proj2 (Hi x) H1 H2) as (_ & _ & E). by rewrite E in He.
  - intros i j x y ex ey Hx. by apply Hno in Hx.
  - intros f. split; [intros Hf; by apply elem_of_empty in Hf|]. intros (i & x & e & Hx & _). by apply Hno in Hx.
  - intros i x Hx Hn. by apply Hr in Hx.
Qed.

(** ** Every state of the loop *)

Inductive reach : ril -> Prop :=
| reach_init : reach (ril_event_init zero_ril)
| reach_call s c s' : reach s -> callable s [] c -> run_call s c = Some s' -> reach s'
| reach_turn s func select now now' l s' :
    reach s -> polite func -> honest select -> ril_event_loop func select now now' s = Some (Continue l s') -> reach s'.

Lemma calc_total s T P now : lists_ok s T P -> exists tv, calcNextTimeout s now = Some tv.
Proof.
  intros Hok. unfold calcNextTimeout, get_next. rewrite (dlist_first _ _ _ (l_timers _ _ _ Hok)). cbn [mbind option_bind].
  destruct T as [|x T]; cbn [hd_default]; [rewrite Nat.eqb_refl; eauto|]. rewrite (head_neq _ _ _ _ Hok).
  destruct (listed_event s (x :: T) P x Hok) as (e & -> & _); [left; set_solver|]. cbn [mbind option_bind]. eauto.
Qed.

Lemma ril_reach_good s : reach s -> exists T, good s T [].
Proof.
  induction 1 as [|s c s' _ [T IH] Hc E|s func select now now' l s' _ [T IH] Hpol Hhon E].
  - exists []. apply ril_init_good.
  - destruct (call_good s T [] c IH Hc) as (s1 & T' & E1 & Hg). rewrite E in E1. injection E1 as <-. by exists T'.
  - destruct (calc_total s T [] now (proj1 IH)) as [tv Etv]. unfold ril_event_loop in E. rewrite Etv in E. cbn [mbind option_bind] in E.
    destruct (select (nfds s) (readFds s) tv) as [[]|k rfds] eqn:Es; [injection E as _ <-; by exists T|done|].
    destruct (turn_fires func select s T now now' tv k rfds IH Hpol Hhon Etv Es) as (s1 & T' & E1 & Hg).
    unfold ril_event_loop in E1. rewrite Etv in E1. cbn [mbind option_bind] in E1. rewrite Es in E1.
    rewrite E in E1. injection E1 as _ <-. by exists T'.
Qed.

(** C27 (liveness). One turn of the loop.  When select returns, the events fired are
    exactly the timers whose time lies before the present, in the order of their times
    (one that is due at this very microsecond waits for the next turn, against the
    comments in processTimeouts: [timer_due_now_waits]), and then the watched events whose descriptors are ready, in the order of the table; each
    fires once, and nothing is left pending.  The turn meets no bad pointer and
    keeps the invariant, whatever the callbacks do to timers and watches, as long
    as they leave pending events alone. *)
Theorem loop_turn_fires (func : ptr -> Z -> ril -> option ril) (select : Z -> gset Z -> option timeval -> selected)
    (s : ril) (T : list ptr) (now now' : timeval) (tv : option timeval) (k : Z) (rfds : gset Z) :
  good s T [] -> polite func -> honest select ->
  calcNextTimeout s now = Some tv -> select (nfds s) (readFds s) tv = Selected k rfds ->
  exists s' T', ril_event_loop func select now now' s =
      Some (Continue (filter (expired s now') T ++ ready_list s rfds) s') /\ good s' T' [].
Proof. apply turn_fires. Qed.

(** C28 (type). In every state that clients' calls and turns of the loop can
    reach, the timers hang in order of their times, every permitted call succeeds,
    and what select is given is exact: the set has the descriptors of the watched
    events and no others, all below the bound, and the bound is no higher than
    needed. *)
Theorem ril_state_consistent (s : ril) :
  reach s ->
  (exists T, dlist (links s) timer_list T /\ dlist (links s) pending_list [] /\
     StronglySorted (fun x y => timer_le (time_of s x) (time_of s y)) T) /\
  (forall c, callable s [] c -> exists s', run_call s c = Some s') /\
  (forall f, f ∈ readFds s <-> exists ev e, ev ∈ watch_table s /\ ev <> NULL /\ events s !! ev = Some e /\ fd e = f) /\
  (forall f, f ∈ readFds s -> 0 <= f < nfds s) /\
  (1 < nfds s -> nfds s - 1 ∈ readFds s).
Proof.
  intros Hs. destruct (ril_reach_good s Hs) as [T [Hl Hw]]. split_and!.
  - exists T. destruct Hl. by split_and!.
  - intros c Hc. destruct (call_good s T [] c (conj Hl Hw) Hc) as (s' & _ & E & _). eauto.
  - intros f. rewrite (w_set _ _ Hw). split.
    + intros (i & ev & e & (Hi & Hev & He) & <-). exists ev, e. split; [by eapply list_elem_of_lookup_2|done].
    + intros (ev & e & Hin & Hev & He & <-). apply list_elem_of_lookup in Hin as [i Hi]. by exists i, ev, e.
  - intros f Hf. apply (w_set _ _ Hw) in Hf as (i & ev & e & (Hi & Hev & He) & <-).
    destruct (w_known _ _ Hw i ev Hi Hev) as (_ & e' & He' & _ & Hin & Hlt). rewrite He in He'. injection He' as <-.
    unfold in_fd_set in Hin. apply andb_true_iff in Hin as [?%Z.leb_le _]. lia.
  - intros Hn. destruct (w_tight _ _ Hw Hn) as (i & ev & e & Hi & E). apply (w_set _ _ Hw). exists i, ev, e. split; [done|]. lia.
Qed.

(** A time as written down: microseconds below a million. *)
Definition normal (t : timeval) : Prop := 0 <= t.2 < 1000000.

(** C29 (bounds). How long select may sleep: for ever when there is no timer; else
    no longer than until the first of them is due, and not at all when one is
    overdue. *)
Theorem next_timeout_bound (s : ril) (T : list ptr) (now : timeval) :
  good s T [] -> normal now -> (forall x, x ∈ T -> normal (time_of s x)) ->
  match T with
  | [] => calcNextTimeout s now = Some None
  | _ => exists tv, calcNextTimeout s now = Some (Some tv) /\ normal tv /\ 0 <= tv.1 /\
      (exists x, x ∈ T /\ timeradd now tv = if timer_lt now (time_of s x) then time_of s x else now) /\
      (forall x, x ∈ T -> timer_lt now (time_of s x) = true -> timer_le (timeradd now tv) (time_of s x))
  end.
Proof.
  intros [Hl _] Hnow Hnorm. unfold calcNextTimeout, get_next. rewrite (dlist_first _ _ _ (l_timers _ _ _ Hl)). cbn [mbind option_bind].
  destruct T as [|x T]; cbn [hd_default]; [by rewrite Nat.eqb_refl|]. rewrite (head_neq _ _ _ _ Hl).
  destruct (listed_event s (x :: T) [] x Hl) as (e & -> & Ht); [left; set_solver|]. cbn [mbind option_bind]. rewrite Ht.
  pose proof (Hnorm x ltac:(by left)) as Hx. pose proof (l_sorted _ _ _ Hl) as Hs. apply StronglySorted_inv in Hs as [_ Hs].
  assert (forall y, y ∈ x :: T -> timer_le (time_of s x) (time_of s y)) as Hleast.
  { intros y [->|Hy]%elem_of_cons; [rewrite timer_le_spec; lia|]. rewrite Forall_forall in Hs. by apply Hs. }
  destruct now as [ns nu], (time_of s x) as [ts tu] eqn:Ex. unfold normal in *. cbn in Hnow, Hx.
  destruct (timer_lt (ns, nu) (ts, tu)) eqn:Elt.
  - pose proof Elt as Elt'. rewrite timer_lt_spec in Elt'. cbn in Elt'.
    assert (timeradd (ns, nu) (timersub (ts, tu) (ns, nu)) = (ts, tu) /\ normal (timersub (ts, tu) (ns, nu)) /\ 0 <= (timersub (ts, tu) (ns, nu)).1)
      as (Eadd & ? & ?).
    { unfold timeradd, timersub, normal. cbn [fst snd]. destruct (Z.ltb_spec (tu - nu) 0); cbn [fst snd];
        (match goal with |- context [?a <=? ?b] => destruct (Z.leb_spec a b) end);
        try lia; (split; [f_equal; lia|split; lia]). }
    eexists. split; [done|]. rewrite Eadd. do 2 (split; [done|]). split.
    + exists x. split; [by left|]. by rewrite Ex, Elt.
    + intros y Hy _. by apply Hleast.
  - exists (0, 0). split; [done|]. cbn [fst snd]. split; [lia|]. split; [lia|].
    assert (timeradd (ns, nu) (0, 0) = (ns, nu)) as ->.
    { unfold timeradd. cbn [fst snd]. rewrite !Z.add_0_r. destruct (Z.leb_spec 1000000 nu); [lia|done]. }
    split; [exists x; split; [by left|]; by rewrite Ex, Elt|]. intros y Hy Hlt. by apply timer_lt_le.
Qed.

(** ** A small loop: event 3 watches descriptor 5, event 10 is a timer *)

Definition demo1 : ril := ril_event_set (ril_event_init zero_ril) 3%nat 5 false.
Definition demo2 : ril := default zero_ril (ril_event_add demo1 3%nat).
Definition demo3 : ril := ril_event_set demo2 10%nat 0 false.
Definition demo4 : ril := default zero_ril (ril_timer_add demo3 10%nat (Some (1, 500000)) (0, 700000)).

Lemma demo_reach : reach demo4.
Proof.
  apply (reach_call demo3 (CTimer 10%nat (Some (1, 500000)) (0, 700000))); [|split_and!; by_compute|by vm_compute].
  apply (reach_call demo2 (CSet 10%nat 0 false)); [|split_and!; [by_compute|left; by_compute|by_compute]|done].
  apply (reach_call demo1 (CAdd 3%nat)).
  - apply (reach_call (ril_event_init zero_ril) (CSet 3%nat 5 false)); [apply reach_init| |done].
    split_and!; [by_compute|left; by_compute|by_compute].
  - split_and!; [by_compute..|]. eexists. split; [by vm_compute|]. split; [done|by_compute].
  - by vm_compute.
Qed.

Lemma demo_good : good demo4 [10%nat] [].
Proof.
  destruct (ril_reach_good demo4 demo_reach) as [T Hg]. assert (T = [10%nat]) as ->; [|done].
  pose proof (l_timers _ _ _ (proj1 Hg)) as Hd. pose proof (dlist_first _ _ _ Hd) as E1. vm_compute in E1.
  destruct T as [|x T]; [done|]. cbn in E1. injection E1 as <-. f_equal.
  pose proof (dlist_next _ _ [] _ T Hd) as E2. vm_compute in E2. destruct T as [|y T]; [done|]. cbn in E2. injection E2 as <-.
  destruct Hd as [Hnd _]. apply NoDup_cons in Hnd as [Hnd _]. set_solver.
Qed.

(** Everything that is asked for is ready. *)
Definition all_ready (n : Z) (fds : gset Z) (tv : option timeval) : selected := Selected (Z.of_nat (size fds)) fds.

Lemma all_ready_honest : honest all_ready.
Proof. intros n fds tv k rfds [= <- <-]. done. Qed.

Lemma loop_turn_fires_witness :
  exists s' T', ril_event_loop (rearm (5, 0) (3, 0)) all_ready (0, 800000) (3, 0) demo4 =
    Some (Continue (filter (expired demo4 (3, 0)) [10%nat] ++ ready_list demo4 {[5]}) s') /\ good s' T' [].
Proof.
  apply (loop_turn_fires (rearm (5, 0) (3, 0)) all_ready demo4 [10%nat] (0, 800000) (3, 0) (Some (1, 400000)) 1 {[5]}).
  - apply demo_good.
  - apply rearm_polite.
  - apply all_ready_honest.
  - by vm_compute.
  - by vm_compute.
Defined.

(** The timer first, then the descriptor. *)
Example demo_order : filter (expired demo4 (3, 0)) [10%nat] ++ ready_list demo4 {[5]} = [10; 3]%nat.
Proof. by vm_compute. Qed.

Lemma ril_state_consistent_witness :
  reach demo4 /\ (forall f, f ∈ readFds demo4 -> 0 <= f < nfds demo4) /\ (1 < nfds demo4 -> nfds demo4 - 1 ∈ readFds demo4).
Proof. split; [apply demo_reach|]. by destruct (ril_state_consistent demo4 demo_reach) as (_ & _ & _ & ? & ?). Defined.

Lemma next_timeout_bound_witness :
  exists tv, calcNextTimeout demo4 (0, 800000) = Some (Some tv) /\ normal tv /\ 0 <= tv.1 /\
    (exists x, x ∈ [10%nat] /\ timeradd (0, 800000) tv = if timer_lt (0, 800000) (time_of demo4 x) then time_of demo4 x else (0, 800000)) /\
    (forall x, x ∈ [10%nat] -> timer_lt (0, 800000) (time_of demo4 x) = true -> timer_le (timeradd (0, 800000) tv) (time_of demo4 x)).
Proof.
  apply (next_timeout_bound demo4 [10%nat] (0, 800000)).
  - apply demo_good.
  - by_compute.
  - intros x ->%list_elem_of_singleton. by_compute.
Defined.

(** The comments of [processTimeouts] promise the timers that are due now or were
    before; the comparison leaves out those due now. *)
Lemma timer_due_now_waits :
  time_of demo4 10%nat = (2, 200000) /\ filter (expired demo4 (2, 200000)) [10%nat] = [] /\
  filter (expired demo4 (2, 200001)) [10%nat] = [10%nat].
Proof. vm_compute. done. Qed.

(** Two timers are pending and the callback of the first deletes the second: the
    pointer that firePending has saved is stale, and the loop ends on a null link. *)
Definition two_timers : ril :=
  default zero_ril (
    let s := ril_event_set (ril_event_set (ril_event_init zero_ril) 10%nat 0 false) 11%nat 0 false in
    s ← ril_timer_add s 10%nat (Some (1, 0)) (0, 0);
    s ← ril_timer_add s 11%nat (Some (2, 0)) (0, 0);
    processTimeouts s (3, 0)).

Definition delete_next (ev : ptr) (f : Z) (s : ril) : option ril :=
  if (ev =? 10)%nat then snd <$> ril_timer_delete s 11%nat else Some s.

Lemma pending_deletion_crashes :
  firePending (fun _ _ s => Some s) two_timers <> None /\
  firePending delete_next two_timers = None.
Proof. vm_compute. done. Qed.

(** The ninth event is not watched, and its owner is not told. *)
Definition eight_watched : ril :=
  fold_left (fun s n => default s (ril_event_add (ril_event_set s (10 + n)%nat (Z.of_nat n) true) (10 + n)%nat))
    (seq 0 8) (ril_event_init zero_ril).

Lemma ninth_event_dropped :
  let s := ril_event_set eight_watched 30%nat 20 true in ril_event_add s 30%nat = Some s /\ 20 ∉ readFds s.
Proof. split; [by vm_compute|by_compute]. Qed.
