(* ===== verification/RilParcel.v ===== *)
(** * Parcels and strings of the radio interface (what libril/ril.cpp relies on)

    libril talks to the phone process in binder parcels; Parcel and the string
    conversions of cutils are not part of the repository.  [Parcel] is the class of
    the operations that ril.cpp uses and [ParcelLaws] what it counts on: a parcel is
    a sequence of items, written in order and read back in order, each at the type it
    was written with.  [Jstring] is the conversion between UTF-8 and UTF-16.
    [wire] is an instance: words of four bytes, everything padded to words.  The
    reading monad of RilDispatch and the writing functions of RilResponse are here
    as well. *)

From S2P Require Import Prelude.

(** What one write puts into a parcel. *)
Inductive item := I32 (v : Z) | I64 (v : Z) | Str (s : option (list Z)) | Raw (b : bytes).

Class Parcel (P : Type) := {
  p_new : P;
  setData : bytes -> P;
  data : P -> bytes;
  dataPosition : P -> Z;
  setDataPosition : P -> Z -> P;
  readInt32 : P -> option Z * P;                   (* [None]: NOT_ENOUGH_DATA, nothing stored *)
  read1 : P -> option Z * P;                       (* read(&b, 1) *)
  readInplace : P -> Z -> option bytes * P;
  readString16Inplace : P -> option (list Z) * P;
  writeInt32 : P -> Z -> P;
  writeInt64 : P -> Z -> P;
  writeString16 : P -> option (list Z) -> P;
  write : P -> bytes -> P
}.

(** strdup8to16 and strndup16to8 on strings that are there. *)
Class Jstring := { to16 : bytes -> list Z; to8 : list Z -> bytes }.

Definition is_u16 (z : Z) : Prop := 0 <= z < 2 ^ 16.

(** [unread p l]: what is still to be read of [p] is [l]; [holds p l]: all that is in
    [p] is [l]; [at_end p]: the next write appends. *)
Class ParcelLaws (P : Type) `{Parcel P} := {
  unread : P -> list item -> Prop;
  holds : P -> list item -> Prop;
  at_end : P -> Prop;
  new_holds : holds p_new [] /\ at_end p_new;
  read_int32_law p v l : unread p (I32 v :: l) -> exists p', readInt32 p = (Some (i32 v), p') /\ unread p' l;
  read_int32_end p : unread p [] -> exists p', readInt32 p = (None, p') /\ unread p' [];
  read1_law p b l : unread p (Raw [b] :: l) -> exists p', read1 p = (Some b, p') /\ unread p' l;
  read_inplace_law p b l :
    unread p (Raw b :: l) -> exists p', readInplace p (Z.of_nat (length b)) = (Some b, p') /\ unread p' l;
  read_inplace_0 p l : unread p l -> exists p', readInplace p 0 = (Some [], p') /\ unread p' l;
  read_string_law p s l :
    unread p (Str s :: l) -> Forall is_u16 (default [] s) -> Z.of_nat (length (default [] s)) < 2 ^ 31 - 1 ->
    exists p', readString16Inplace p = (s, p') /\ unread p' l;
  write_int32_law p v l : holds p l -> at_end p -> holds (writeInt32 p v) (l ++ [I32 v]) /\ at_end (writeInt32 p v);
  write_int64_law p v l : holds p l -> at_end p -> holds (writeInt64 p v) (l ++ [I64 v]) /\ at_end (writeInt64 p v);
  write_string_law p s l : holds p l -> at_end p -> holds (writeString16 p s) (l ++ [Str s]) /\ at_end (writeString16 p s);
  write_law p b l : holds p l -> at_end p -> holds (write p b) (l ++ [Raw b]) /\ at_end (write p b);
  overwrite_law p q l l' e v :
    holds p l -> at_end p -> holds q (l ++ I32 e :: l') ->
    holds (writeInt32 (setDataPosition q (dataPosition p)) v) (l ++ I32 v :: l');
  data_law p l : holds p l -> unread (setData (data p)) l
}.

(** Strings that survive the two conversions. *)
Class JstringLaws `{Jstring} := {
  text : bytes -> Prop;
  to16_units s : text s -> Forall is_u16 (to16 s);
  to16_length s : text s -> (length (to16 s) <= length s)%nat;
  to8_to16 s : text s -> to8 (to16 s) = s
}.

(** ** Reading

    The functions of ril.cpp read into a local [t] (and [ut] for bytes), which
    keeps its value when a read fails, and keep the status of the last read. *)

Record locals (P : Type) := mk_locals { l_parcel : P; l_t : Z; l_ut : Z; l_status : bool }.
Arguments mk_locals {P}.
Arguments l_parcel {P}.
Arguments l_t {P}.
Arguments l_ut {P}.
Arguments l_status {P}.

Definition reader (P A : Type) : Type := locals P -> A * locals P.
#[export] Instance reader_ret P : MRet (reader P) := fun A a s => (a, s).
#[export] Instance reader_bind P : MBind (reader P) := fun A B k m s => let '(a, s) := m s in k a s.

Section read.
Context {P : Type} `{Parcel P} `{Jstring}.

(** [status = p.readInt32(&t)], then the use of [t] *)
Definition rd_int : reader P Z := fun s =>
  match readInt32 (l_parcel s) with
  | (Some v, p) => (v, mk_locals p v (l_ut s) true)
  | (None, p) => (l_t s, mk_locals p (l_t s) (l_ut s) false)
  end.

(** [status = p.readInt32(&x)] for an [x] of its own; [None] when it fails *)
Definition rd_new : reader P (option Z) := fun s =>
  match readInt32 (l_parcel s) with
  | (Some v, p) => (Some v, mk_locals p (l_t s) (l_ut s) true)
  | (None, p) => (None, mk_locals p (l_t s) (l_ut s) false)
  end.

(** [status = p.read(&ut, sizeof(ut))] *)
Definition rd_byte : reader P Z := fun s =>
  match read1 (l_parcel s) with
  | (Some v, p) => (v, mk_locals p (l_t s) v true)
  | (None, p) => (l_ut s, mk_locals p (l_t s) (l_ut s) false)
  end.

Definition strdupReadString : reader P (option bytes) := fun s =>
  let '(u, p) := readString16Inplace (l_parcel s) in (to8 <$> u, mk_locals p (l_t s) (l_ut s) (l_status s)).

Definition rd_inplace (len : Z) : reader P (option bytes) := fun s =>
  let '(b, p) := readInplace (l_parcel s) len in (b, mk_locals p (l_t s) (l_ut s) (l_status s)).

(** [status == NO_ERROR] *)
Definition rd_status : reader P bool := fun s => (l_status s, s).

(** A loop of [n] rounds that stores what each reads. *)
Fixpoint rd_list {A} (n : nat) (m : reader P A) : reader P (list A) :=
  match n with
  | O => mret []
  | S n => a ← m; l ← rd_list n m; mret (a :: l)
  end.

(** ** Writing *)

Definition writeStringToParcel (p : P) (s : option bytes) : P := writeString16 p (to16 <$> s).

Definition write_ints (p : P) (l : list Z) : P := foldl writeInt32 p l.
Definition write_strings (p : P) (l : list (option bytes)) : P := foldl writeStringToParcel p l.
Definition write_bytes (p : P) (l : bytes) : P := foldl (fun p b => write p [b]) p l.

End read.

(** ** What the helpers read and write *)

Definition ints (l : list Z) : list item := I32 <$> l.
Definition raws (l : bytes) : list item := (fun b => Raw [b]) <$> l.
Definition str `{Jstring} (s : option bytes) : item := Str (to16 <$> s).

Definition is_i32 (z : Z) : Prop := - 2 ^ 31 <= z < 2 ^ 31.
#[export] Instance is_i32_dec z : Decision (is_i32 z).
Proof. unfold is_i32. apply _. Defined.

Section laws.
Context {P : Type} `{ParcelLaws P} `{JstringLaws}.

(** A string or NULL. *)
Definition text_opt (s : option bytes) : Prop :=
  match s with Some s => text s /\ Z.of_nat (length s) < 2 ^ 31 - 1 | None => True end.

(** [m] takes [l] from the parcel, all reads succeed, and gives [a]. *)
Definition reads {A} (m : reader P A) (l : list item) (a : A) : Prop :=
  forall s rest, unread (l_parcel s) (l ++ rest) -> l_status s = true ->
  exists s', m s = (a, s') /\ unread (l_parcel s') rest /\ l_status s' = true.

Lemma reads_ret {A} (a : A) : reads (mret a) [] a.
Proof. intros s rest Hs Hst. by exists s. Qed.

Lemma reads_app {A B} (m : reader P A) (k : A -> reader P B) l1 l2 a b :
  reads m l1 a -> reads (k a) l2 b -> reads (m ≫= k) (l1 ++ l2) b.
Proof.
  intros Hm Hk s rest Hs Hst. rewrite <- app_assoc in Hs. destruct (Hm _ _ Hs Hst) as (s1 & E1 & H1' & Hst1).
  destruct (Hk _ _ H1' Hst1) as (s2 & E2 & H2' & Hst2). exists s2. split; [|done].
  unfold mbind, reader_bind. by rewrite E1.
Qed.

Lemma reads_cons {A B} (m : reader P A) (k : A -> reader P B) i l a b :
  reads m [i] a -> reads (k a) l b -> reads (m ≫= k) (i :: l) b.
Proof. apply reads_app. Qed.

Lemma reads_nil {A B} (m : reader P A) (k : A -> reader P B) l a b :
  reads m [] a -> reads (k a) l b -> reads (m ≫= k) l b.
Proof. apply (reads_app _ _ []). Qed.

Lemma reads_status : reads rd_status [] true.
Proof. intros s rest Hs Hst. exists s. unfold rd_status. by rewrite Hst. Qed.

Lemma reads_int v : is_i32 v -> reads rd_int [I32 v] v.
Proof.
  intros Hv s rest Hs Hst. unfold rd_int. destruct (read_int32_law _ _ _ Hs) as (p' & -> & Hp).
  rewrite i32_small by done. by eexists.
Qed.

Lemma reads_new v : is_i32 v -> reads rd_new [I32 v] (Some v).
Proof.
  intros Hv s rest Hs Hst. unfold rd_new. destruct (read_int32_law _ _ _ Hs) as (p' & -> & Hp).
  rewrite i32_small by done. by eexists.
Qed.

Lemma reads_byte b : reads rd_byte [Raw [b]] b.
Proof. intros s rest Hs Hst. unfold rd_byte. destruct (read1_law _ _ _ Hs) as (p' & -> & Hp). by eexists. Qed.

Lemma reads_inplace n b : n = Z.of_nat (length b) -> reads (rd_inplace n) [Raw b] (Some b).
Proof. intros -> s rest Hs Hst. unfold rd_inplace. destruct (read_inplace_law _ _ _ Hs) as (p' & -> & Hp). by eexists. Qed.

Lemma reads_inplace_0 : reads (rd_inplace 0) [] (Some []).
Proof. intros s rest Hs Hst. unfold rd_inplace. destruct (read_inplace_0 _ _ Hs) as (p' & -> & Hp). by eexists. Qed.

Lemma reads_string x : text_opt x -> reads strdupReadString [str x] x.
Proof.
  intros Hx s rest Hs Hst. unfold strdupReadString. destruct (read_string_law _ _ _ Hs) as (p' & -> & Hp).
  - destruct x as [x|]; cbn; [|done]. apply to16_units. apply Hx.
  - destruct x as [x|]; cbn; [|lia]. destruct Hx as [Hx Hl]. pose proof (to16_length x Hx). lia.
  - exists (mk_locals p' (l_t s) (l_ut s) (l_status s)). split; [|done]. f_equal. destruct x as [x|]; cbn; [|done]. destruct Hx as [Hx _]. by rewrite to8_to16.
Qed.

Lemma bind_singleton {A B} (f : A -> B) l : l ≫= (fun x => [f x]) = f <$> l.
Proof. induction l as [|x l IH]; [done|]. by rewrite bind_cons, IH. Qed.

Lemma reads_list {A} (m : reader P A) (enc : A -> list item) n xs :
  length xs = n -> (forall x, x ∈ xs -> reads m (enc x) x) -> reads (rd_list n m) (xs ≫= enc) xs.
Proof.
  intros <-. induction xs as [|x xs IH]; intros Hx; [apply reads_ret|]. cbn [length rd_list].
  rewrite bind_cons. eapply reads_app; [apply Hx; by left|].
  rewrite <- (app_nil_r (xs ≫= enc)). eapply reads_app; [|apply reads_ret].
  apply IH. intros y Hy. apply Hx. by right.
Qed.

Lemma reads_bytes n l : length l = n -> reads (rd_list n rd_byte) (raws l) l.
Proof.
  intros Hl. unfold raws. rewrite <- bind_singleton. apply reads_list; [done|]. intros b _. apply reads_byte.
Qed.

Lemma reads_strings n l : length l = n -> Forall text_opt l -> reads (rd_list n strdupReadString) (str <$> l) l.
Proof.
  intros Hl Ht. rewrite <- bind_singleton. apply reads_list; [done|]. intros x Hx. apply reads_string.
  by eapply Forall_forall in Ht.
Qed.

(** A parcel being written. *)
Definition written (p : P) (l : list item) : Prop := holds p l /\ at_end p.

Lemma new_written : written p_new [].
Proof. apply new_holds. Qed.
Lemma int_written p l v : written p l -> written (writeInt32 p v) (l ++ [I32 v]).
Proof. intros [H1' H2']. by apply write_int32_law. Qed.
Lemma int64_written p l v : written p l -> written (writeInt64 p v) (l ++ [I64 v]).
Proof. intros [H1' H2']. by apply write_int64_law. Qed.
Lemma raw_written p l b : written p l -> written (write p b) (l ++ [Raw b]).
Proof. intros [H1' H2']. by apply write_law. Qed.
Lemma string_written p l s : written p l -> written (writeStringToParcel p s) (l ++ [str s]).
Proof. intros [H1' H2']. by apply write_string_law. Qed.

Lemma fold_written {A} (f : P -> A -> P) (g : A -> item) p l xs :
  (forall p l x, written p l -> written (f p x) (l ++ [g x])) -> written p l -> written (foldl f p xs) (l ++ (g <$> xs)).
Proof.
  intros Hf. revert p l. induction xs as [|x xs IH]; intros p l Hp; cbn; [by rewrite app_nil_r|].
  rewrite (cons_middle (g x)), app_assoc. apply IH. by apply Hf.
Qed.

Lemma ints_written p l vs : written p l -> written (write_ints p vs) (l ++ ints vs).
Proof. apply fold_written. intros. by apply int_written. Qed.
Lemma strings_written p l xs : written p l -> written (write_strings p xs) (l ++ (str <$> xs)).
Proof. apply fold_written. intros. by apply string_written. Qed.
Lemma bytes_written p l bs : written p l -> written (write_bytes p bs) (l ++ raws bs).
Proof. apply (fold_written _ (fun b => Raw [b])). intros. by apply raw_written. Qed.

End laws.

(** Go through a reader along the items that are there. *)
Ltac reading :=
  repeat first
    [ eapply reads_cons; [solve [eauto with reads]|]
    | eapply reads_nil; [solve [eauto with reads]|]; cbn [negb orb]
    | apply reads_ret ].

Create HintDb reads.
#[export] Hint Resolve reads_int reads_new reads_byte reads_string reads_status : reads.
#[export] Hint Extern 5 (is_i32 _) => unfold is_i32; lia : reads.

Create HintDb parcel.
#[export] Hint Resolve new_written int_written int64_written raw_written string_written ints_written strings_written bytes_written : parcel.

(** ** An instance

    The words of binder: four bytes each, little endian, everything padded to a
    word, a UTF-16 string with its length before it and a zero after it. *)

Module Wire.

Record wire := mk_wire { w_data : bytes; w_pos : nat }.

(** The padding after [n] bytes. *)
Definition pads (n : nat) : nat := (4 - n mod 4) mod 4.
#[local] Arguments pads n : simpl never.

Definition padded (b : bytes) : bytes := b ++ replicate (pads (length b)) 0.

Definition enc (i : item) : bytes :=
  match i with
  | I32 v => le_split 4 v
  | I64 v => le_split 8 v
  | Raw b => padded b
  | Str None => le_split 4 (-1)
  | Str (Some u) => le_split 4 (Z.of_nat (length u)) ++ padded ((u ++ [0]) ≫= le_split 2)
  end.

Definition rest (w : wire) : bytes := drop (w_pos w) (w_data w).

(** [n] bytes and their padding *)
Definition take_padded (w : wire) (n : nat) : option bytes * wire :=
  let m := (n + pads n)%nat in
  if decide (m <= length (rest w))%nat then (Some (take n (rest w)), mk_wire (w_data w) (w_pos w + m)) else (None, w).

Definition put (w : wire) (b : bytes) : wire :=
  mk_wire (take (w_pos w) (w_data w) ++ b ++ drop (w_pos w + length b) (w_data w)) (w_pos w + length b).

Fixpoint units (b : bytes) : list Z :=
  match b with
  | x :: y :: b => x + 2 ^ 8 * y :: units b
  | _ => []
  end.

Definition get32 (w : wire) : option Z * wire :=
  let '(b, w) := take_padded w 4 in ((fun b => i32 (le_combine b)) <$> b, w).

#[export] Instance wire_parcel : Parcel wire := {
  p_new := mk_wire [] 0;
  setData d := mk_wire d 0;
  data := w_data;
  dataPosition w := Z.of_nat (w_pos w);
  setDataPosition w p := mk_wire (w_data w) (Z.to_nat p);
  readInt32 := get32;
  read1 w := let '(b, w) := take_padded w 1 in (b ≫= head, w);
  readInplace w n := take_padded w (Z.to_nat n);
  readString16Inplace w :=
    match get32 w with
    | (Some n, w) =>
        if (0 <=? n) && (n <? 2 ^ 31 - 1) then
          let '(b, w) := take_padded w (2 * (Z.to_nat n + 1)) in ((fun b => take (Z.to_nat n) (units b)) <$> b, w)
        else (None, w)
    | (None, w) => (None, w)
    end;
  writeInt32 w v := put w (enc (I32 v));
  writeInt64 w v := put w (enc (I64 v));
  writeString16 w s := put w (enc (Str s));
  write w b := put w (enc (Raw b))
}.

Lemma take_padded_spec w b l :
  (w_pos w <= length (w_data w))%nat -> rest w = padded b ++ l ->
  exists w', take_padded w (length b) = (Some b, w') /\ rest w' = l /\ (w_pos w' <= length (w_data w'))%nat.
Proof.
  intros Hw Hr. unfold take_padded, padded in *. rewrite Hr, <- app_assoc, !length_app, length_replicate, decide_True by lia.
  eexists. split; [by rewrite take_app_length|]. cbn.
  unfold rest in *. cbn. rewrite <- drop_drop, Hr, <- app_assoc.
  rewrite drop_app_ge, drop_app_ge by (rewrite ?length_replicate; lia).
  rewrite length_replicate. split; [by replace (_ - _ - _)%nat with 0%nat by lia|].
  apply (f_equal length) in Hr. rewrite length_drop, !length_app, length_replicate in Hr. lia.
Qed.

Lemma padded_4 b : (length b mod 4 = 0)%nat -> padded b = b.
Proof. intros Hb. unfold padded, pads. rewrite Hb. apply app_nil_r. Qed.

Lemma get32_spec w v l :
  (w_pos w <= length (w_data w))%nat -> rest w = le_split 4 v ++ l ->
  exists w', get32 w = (Some (i32 v), w') /\ rest w' = l /\ (w_pos w' <= length (w_data w'))%nat.
Proof.
  intros Hw Hr. destruct (take_padded_spec w (le_split 4 v) l) as (w' & E & Hr' & Hw'); [done| |].
  { rewrite padded_4; [done|]. by rewrite length_le_split. }
  exists w'. split; [|done]. unfold get32. rewrite length_le_split in E. rewrite E. cbn [fmap option_fmap option_map].
  do 2 f_equal. rewrite le_combine_split. unfold i32. change (8 * Z.of_nat 4) with 32.
  f_equal. rewrite <- Zplus_mod_idemp_l, Z.mod_mod by lia. by rewrite Zplus_mod_idemp_l.
Qed.

Lemma units_split u : Forall is_u16 u -> units (u ≫= le_split 2) = u.
Proof.
  induction 1 as [|x u Hx Hu IH]; [done|]. rewrite bind_cons. cbn [le_split].
  change (x mod 2 ^ 8 + 2 ^ 8 * ((x / 2 ^ 8) mod 2 ^ 8) :: units (u ≫= le_split 2) = x :: u). rewrite IH. f_equal.
  unfold is_u16 in Hx. rewrite (Z.mod_small (x / 2 ^ 8)) by (split; [apply Z.div_pos|apply Z.div_lt_upper_bound]; lia).
  pose proof (Z.div_mod x (2 ^ 8)). lia.
Qed.

Lemma length_units_split u : length (u ≫= le_split 2) = (2 * length u)%nat.
Proof. induction u as [|x u IH]; [done|]. rewrite bind_cons, length_app, length_le_split, IH. cbn. lia. Qed.

Lemma put_end w b l :
  w_data w = l -> w_pos w = length (w_data w) -> w_data (put w b) = l ++ b /\ w_pos (put w b) = length (w_data (put w b)).
Proof.
  intros <- Hp. unfold put. cbn. rewrite Hp, firstn_all, drop_ge, app_nil_r, length_app by lia. done.
Qed.

Lemma drop_after {A} (l k : list A) n : n = length l -> drop n (l ++ k) = k.
Proof. intros ->. by rewrite drop_app_length. Qed.

Lemma read_string_spec w s l :
  Forall is_u16 (default [] s) -> Z.of_nat (length (default [] s)) < 2 ^ 31 - 1 ->
  (w_pos w <= length (w_data w))%nat -> rest w = enc (Str s) ++ l ->
  exists w', readString16Inplace w = (s, w') /\ rest w' = l /\ (w_pos w' <= length (w_data w'))%nat.
Proof.
  intros Hu Hl Hw Hr. destruct s as [u|]; cbn [enc from_option] in *; unfold id in *.
  - rewrite <- app_assoc in Hr. destruct (get32_spec w _ _ Hw Hr) as (w1 & E1 & Hr1 & Hw1).
    cbn. rewrite E1, i32_small by lia.
    rewrite (proj2 (Z.leb_le _ _)), (proj2 (Z.ltb_lt _ _)), Nat2Z.id by lia. cbn [andb].
    destruct (take_padded_spec w1 _ _ Hw1 Hr1) as (w2 & E2 & Hr2 & Hw2).
    rewrite length_units_split, length_app in E2. change (length [0]) with 1%nat in E2.
    replace (length u + 1 + (length u + 1 + 0))%nat with (2 * (length u + 1))%nat by lia.
    rewrite E2. exists w2. split; [|done]. cbn [fmap option_fmap option_map]. rewrite units_split.
    + by rewrite take_app_length.
    + apply Forall_app. split; [done|]. apply Forall_singleton. unfold is_u16. lia.
  - destruct (get32_spec w _ _ Hw Hr) as (w1 & E1 & Hr1 & Hw1). cbn. rewrite E1. by exists w1.
Qed.

Lemma put_inside w b x y z :
  length y = length b -> w_data w = x ++ y ++ z -> w_pos w = length x -> w_data (put w b) = x ++ b ++ z.
Proof.
  intros Hl Hd Hp. unfold put. cbn [w_data]. rewrite Hd, Hp, take_app_length, <- drop_drop, drop_app_length.
  by rewrite drop_after.
Qed.

#[export] Instance laws : ParcelLaws wire.
Proof.
  refine {| unread w l := rest w = l ≫= enc /\ (w_pos w <= length (w_data w))%nat;
            holds w l := w_data w = l ≫= enc; at_end w := w_pos w = length (w_data w) |}.
  - done.
  - intros p v l [Hr Hp]. by apply get32_spec.
  - intros p [Hr Hp]. exists p. cbn in Hr. unfold readInt32. cbn. unfold get32, take_padded. by rewrite Hr.
  - intros p b l [Hr Hp]. destruct (take_padded_spec p [b] _ Hp Hr) as (p' & E & H).
    exists p'. cbn in *. by rewrite E.
  - intros p b l [Hr Hp]. destruct (take_padded_spec p b _ Hp Hr) as (p' & E & H).
    exists p'. cbn in *. by rewrite Nat2Z.id, E.
  - intros p l [Hr Hp]. by apply (take_padded_spec p []).
  - intros p s l [Hr Hp] Hu Hl. by apply read_string_spec.
  - intros p v l. rewrite bind_app. cbn [mbind list_bind]. rewrite app_nil_r. by apply put_end.
  - intros p v l. rewrite bind_app. cbn [mbind list_bind]. rewrite app_nil_r. by apply put_end.
  - intros p v l. rewrite bind_app. cbn [mbind list_bind]. rewrite app_nil_r. by apply put_end.
  - intros p v l. rewrite bind_app. cbn [mbind list_bind]. rewrite app_nil_r. by apply put_end.
  - intros p q l l' e v Hp Ha Hq. rewrite bind_app, bind_cons. apply (put_inside _ _ (l ≫= enc) (le_split 4 e) (l' ≫= enc)); [done| |].
    + rewrite bind_app, bind_cons in Hq. exact Hq.
    + cbn. by rewrite Nat2Z.id, Ha, Hp.
  - intros p l Hp. cbn in *. split; [by rewrite <- Hp|lia].
Defined.

(** Strings of ASCII characters need no conversion. *)
#[export] Instance ascii : Jstring := { to16 s := s; to8 u := u }.

#[export] Instance ascii_laws : JstringLaws.
Proof.
  refine {| text s := Forall (fun c => 0 < c < 128) s |}; [|done..].
  intros s Hs. eapply Forall_impl; [exact Hs|]. intros c Hc. cbn in Hc. unfold is_u16. lia.
Defined.

End Wire.
