(* ===== verification/RilDispatch.v ===== *)
(** * Requests of the phone process (dispatch functions of libril/ril.cpp)

    A request is a parcel: number, token and a payload whose layout belongs to the
    number.  The dispatch functions read the payload into the structure that the
    vendor's [onRequest] expects.  Here are the structures ([payload]), one reader
    per dispatch function, the documented layout of every payload ([marshal]) and
    the theorem that each dispatch function takes apart what the layout puts
    together.  Counts from the wire are used for [alloca] and for arrays on the stack
    without a check: [Overrun] is the case where that is undefined behaviour. *)

From S2P Require Import Prelude RilParcel.

(** ** What telephony/ril.h declares *)

Inductive ctype :=
| RIL_SMS_WriteArgs | RIL_Dial | RIL_SIM_IO | RIL_CallForwardInfo | RIL_CDMA_SMS_Message | RIL_CDMA_SMS_Ack
| RIL_CDMA_SMS_WriteArgs | RIL_GSM_BroadcastSmsConfigInfo | RIL_CDMA_BroadcastSmsConfigInfo
| RIL_SMS_Response | RIL_Data_Call_Response | RIL_SIM_IO_Response | RIL_SuppSvcNotification
| RIL_CDMA_InformationRecords | RIL_SignalStrength | RIL_CDMA_SignalInfoRecord | RIL_CDMA_CallWaiting.

Class RilH := {
  sizeof : ctype -> Z;
  RIL_CDMA_SMS_ADDRESS_MAX : nat;
  RIL_CDMA_SMS_SUBADDRESS_MAX : nat;
  RIL_CDMA_SMS_BEARER_DATA_MAX : nat
}.

Definition sizeof_int : Z := 4.
Definition sizeof_ptr : Z := 4.

(** Strings are [option bytes]: [None] is NULL. *)
Abbreviation cstr := (option bytes).

Record sms_write := { sw_status : Z; sw_pdu : cstr; sw_smsc : cstr }.
Record uus_info := { uusType : Z; uusDcs : Z; uusData : option bytes; uusLength : Z }.
Record dial := { d_address : cstr; d_clir : Z; d_uusInfo : option uus_info }.
Record sim_io := {
  io_command : Z; io_fileid : Z; io_path : cstr; io_p1 : Z; io_p2 : Z; io_p3 : Z; io_data : cstr; io_pin2 : cstr }.
Record call_forward := {
  cf_status : Z; cf_reason : Z; cf_serviceClass : Z; cf_toa : Z; cf_number : cstr; cf_timeSeconds : Z }.
Record cdma_message := {
  uTeleserviceID : Z; bIsServicePresent : Z; uServicecategory : Z;
  digit_mode : Z; number_mode : Z; number_type : Z; number_plan : Z; number_of_digits : Z; digits : list Z;
  subaddressType : Z; sub_odd : Z; sub_number_of_digits : Z; sub_digits : list Z;
  uBearerDataLen : Z; aBearerData : list Z }.
Record gsm_config := { fromServiceId : Z; toServiceId : Z; fromCodeScheme : Z; toCodeScheme : Z; g_selected : Z }.
Record cdma_config := { service_category : Z; language : Z; c_selected : Z }.

(** The [data] argument of [onRequest]. *)
Inductive payload :=
| PVoid
| PString (s : cstr)
| PStrings (l : option (list cstr))
| PInts (l : list Z)
| PSmsWrite (a : sms_write)
| PDial (d : dial)
| PSimIO (i : sim_io)
| PCallForward (c : call_forward)
| PRaw (b : option bytes)
| PCdmaSms (m : cdma_message)
| PCdmaSmsAck (uErrorClass uSMSCauseCode : Z)
| PGsmBr (l : list gsm_config)
| PCdmaBr (l : list cdma_config)
| PCdmaWrite (status : Z) (m : cdma_message).

(** What a dispatch function does: call [onRequest] with this [data] and [datalen],
    report an invalid command block, or leave its stack frame. *)
Inductive dispatched := Request (q : payload) (datalen : Z) | Invalid | Overrun.

Inductive dispatchFunction :=
| DispatchVoid | DispatchString | DispatchStrings | DispatchInts | DispatchSmsWrite | DispatchDial | DispatchSIM_IO
| DispatchCallForward | DispatchRaw | DispatchCdmaSms | DispatchCdmaSmsAck | DispatchGsmBrSmsCnf
| DispatchCdmaBrSmsCnf | DispatchRilCdmaSmsWriteArgs.

Section dispatch.
Context {P : Type} `{Parcel P} `{Jstring} `{RilH}.
Context (version : Z).              (* s_callbacks.version *)
Context (stack : Z -> bool).        (* so many more bytes fit on the stack *)

Abbreviation rd := (reader P).
Abbreviation invalid := (mret Invalid).

(** ** The dispatch functions, in the order of the file *)

Definition dispatchVoid : rd dispatched := mret (Request PVoid 0).

Definition dispatchString : rd dispatched :=
  string8 ← strdupReadString;
  mret (Request (PString string8) sizeof_ptr).

(** [for (i = 0; i < n; i++) a[i] = ...] on an array of [datalen] bytes with
    elements of four; [None]: a store behind the end. *)
Fixpoint fill_array {A} (m : rd A) (n : nat) (i datalen : Z) : rd (option (list A)) :=
  match n with
  | O => mret (Some [])
  | S n =>
      a ← m;
      if datalen <? 4 * (i + 1) then mret None
      else l ← fill_array m n (i + 1) datalen; mret (cons a <$> l)
  end.

Definition dispatchStrings : rd dispatched :=
  c ← rd_new;
  match c with
  | None => invalid
  | Some countStrings =>
      if countStrings =? 0 then mret (Request (PStrings (Some [])) 0)
      else if countStrings =? -1 then mret (Request (PStrings None) 0)
      else
        let datalen := u32 (sizeof_ptr * countStrings) in
        if negb (stack datalen) then mret Overrun
        else
          l ← fill_array strdupReadString (Z.to_nat countStrings) 0 datalen;
          mret (match l with Some l => Request (PStrings (Some l)) datalen | None => Overrun end)
  end.

(** The loop of [dispatchInts] stops at the first failing read, after its store. *)
Fixpoint ints_loop (n : nat) (i datalen : Z) : rd (list Z + dispatched) :=
  match n with
  | O => mret (inl [])
  | S n =>
      v ← rd_new;
      if datalen <? 4 * (i + 1) then mret (inr Overrun)
      else match v with
           | None => mret (inr Invalid)
           | Some t =>
               l ← ints_loop n (i + 1) datalen;
               mret (match l with inl l => inl (t :: l) | inr r => inr r end)
           end
  end.

Definition dispatchInts : rd dispatched :=
  c ← rd_new;
  match c with
  | None => invalid
  | Some count =>
      if count =? 0 then invalid
      else
        let datalen := u32 (sizeof_int * count) in
        if negb (stack datalen) then mret Overrun
        else
          l ← ints_loop (Z.to_nat count) 0 datalen;
          mret (match l with inl l => Request (PInts l) datalen | inr r => r end)
  end.

Definition dispatchSmsWrite : rd dispatched :=
  status ← rd_int;
  pdu ← strdupReadString;
  ok ← rd_status;
  if negb ok || bool_decide (pdu = None) then invalid
  else
    smsc ← strdupReadString;
    mret (Request (PSmsWrite {| sw_status := status; sw_pdu := pdu; sw_smsc := smsc |}) (sizeof RIL_SMS_WriteArgs)).

Definition rd_uus : rd (option uus_info) :=
  ty ← rd_int;
  dcs ← rd_int;
  n ← rd_new;
  match n with
  | None => mret None
  | Some len =>
      if len =? -1 then mret (Some {| uusType := ty; uusDcs := dcs; uusData := None; uusLength := 0 |})
      else
        d ← rd_inplace (u32 len);
        mret (Some {| uusType := ty; uusDcs := dcs; uusData := d; uusLength := len |})
  end.

Definition dispatchDial : rd dispatched :=
  address ← strdupReadString;
  clir ← rd_int;
  ok ← rd_status;
  if negb ok || bool_decide (address = None) then invalid
  else if version <? 3 then
    mret (Request (PDial {| d_address := address; d_clir := clir; d_uusInfo := None |}) (sizeof RIL_Dial - sizeof_ptr))
  else
    u ← rd_new;
    match u with
    | None => invalid
    | Some uusPresent =>
        if uusPresent =? 0 then
          mret (Request (PDial {| d_address := address; d_clir := clir; d_uusInfo := None |}) (sizeof RIL_Dial))
        else
          uus ← rd_uus;
          match uus with
          | None => invalid
          | Some _ =>
              mret (Request (PDial {| d_address := address; d_clir := clir; d_uusInfo := uus |}) (sizeof RIL_Dial))
          end
    end.

Definition dispatchSIM_IO : rd dispatched :=
  command ← rd_int;
  fileid ← rd_int;
  path ← strdupReadString;
  p1 ← rd_int;
  p2 ← rd_int;
  p3 ← rd_int;
  dat ← strdupReadString;
  pin2 ← strdupReadString;
  ok ← rd_status;
  if negb ok then invalid
  else mret (Request (PSimIO {| io_command := command; io_fileid := fileid; io_path := path; io_p1 := p1; io_p2 := p2;
                                io_p3 := p3; io_data := dat; io_pin2 := pin2 |}) (sizeof RIL_SIM_IO)).

Definition dispatchCallForward : rd dispatched :=
  status ← rd_int;
  reason ← rd_int;
  serviceClass ← rd_int;
  toa ← rd_int;
  number ← strdupReadString;
  timeSeconds ← rd_int;
  ok ← rd_status;
  if negb ok then invalid
  else
    let number := match number with Some [] => None | _ => number end in
    mret (Request (PCallForward {| cf_status := status; cf_reason := reason; cf_serviceClass := serviceClass;
                                   cf_toa := toa; cf_number := number; cf_timeSeconds := timeSeconds |})
                  (sizeof RIL_CallForwardInfo)).

Definition dispatchRaw : rd dispatched :=
  n ← rd_new;
  match n with
  | None => invalid
  | Some len =>
      let len := if len =? -1 then 0 else len in
      d ← rd_inplace (u32 len);
      mret (Request (PRaw d) (u32 len))
  end.

(** An array member of [max] bytes after [memset] and the loop that stores [l]. *)
Definition fill (max : nat) (l : list Z) : list Z := l ++ replicate (max - length l) 0.

(** How many digits the loop reads: [MIN(count, max)], or all of the array in
    [dispatchRilCdmaSmsWriteArgs]. *)
Definition limit (full : bool) (count : Z) (max : nat) : nat :=
  if full then max else Z.to_nat (Z.min count (Z.of_nat max)).

Definition rd_cdma_message (full : bool) : rd cdma_message :=
  teleservice ← rd_int;
  present ← rd_byte;
  category ← rd_int;
  dmode ← rd_int;
  nmode ← rd_int;
  ntype ← rd_int;
  nplan ← rd_int;
  ndigits ← rd_byte;
  ds ← rd_list (limit full ndigits RIL_CDMA_SMS_ADDRESS_MAX) rd_byte;
  sub ← rd_int;
  odd ← rd_byte;
  nsub ← rd_byte;
  sds ← rd_list (limit full nsub RIL_CDMA_SMS_SUBADDRESS_MAX) rd_byte;
  nbearer ← rd_int;
  bd ← rd_list (limit full nbearer RIL_CDMA_SMS_BEARER_DATA_MAX) rd_byte;
  mret {| uTeleserviceID := teleservice; bIsServicePresent := present; uServicecategory := category;
          digit_mode := dmode; number_mode := nmode; number_type := ntype; number_plan := nplan;
          number_of_digits := ndigits; digits := fill RIL_CDMA_SMS_ADDRESS_MAX ds;
          subaddressType := sub; sub_odd := odd; sub_number_of_digits := nsub;
          sub_digits := fill RIL_CDMA_SMS_SUBADDRESS_MAX sds;
          uBearerDataLen := nbearer; aBearerData := fill RIL_CDMA_SMS_BEARER_DATA_MAX bd |}.

Definition dispatchCdmaSms : rd dispatched :=
  m ← rd_cdma_message false;
  ok ← rd_status;
  if negb ok then invalid else mret (Request (PCdmaSms m) (sizeof RIL_CDMA_SMS_Message)).

Definition dispatchCdmaSmsAck : rd dispatched :=
  uErrorClass ← rd_int;
  uSMSCauseCode ← rd_int;
  ok ← rd_status;
  if negb ok then invalid else mret (Request (PCdmaSmsAck uErrorClass uSMSCauseCode) (sizeof RIL_CDMA_SMS_Ack)).

Definition rd_gsm_config : rd gsm_config :=
  a ← rd_int; b ← rd_int; c ← rd_int; d ← rd_int; e ← rd_int;
  mret {| fromServiceId := a; toServiceId := b; fromCodeScheme := c; toCodeScheme := d; g_selected := u8 e |}.

Definition rd_cdma_config : rd cdma_config :=
  a ← rd_int; b ← rd_int; c ← rd_int;
  mret {| service_category := a; language := b; c_selected := u8 c |}.

(** [num] structures and [num] pointers in arrays of variable length. *)
Definition do_configs {A} (c : ctype) (m : rd A) (pack : list A -> payload) : rd dispatched :=
  n ← rd_new;
  match n with
  | None => invalid
  | Some num =>
      if (num <? 0) || negb (stack (num * (sizeof c + sizeof_ptr))) then mret Overrun
      else
        l ← rd_list (Z.to_nat num) m;
        ok ← rd_status;
        if negb ok then invalid else mret (Request (pack l) (num * sizeof_ptr))
  end.

Definition dispatchGsmBrSmsCnf : rd dispatched := do_configs RIL_GSM_BroadcastSmsConfigInfo rd_gsm_config PGsmBr.
Definition dispatchCdmaBrSmsCnf : rd dispatched := do_configs RIL_CDMA_BroadcastSmsConfigInfo rd_cdma_config PCdmaBr.

Definition dispatchRilCdmaSmsWriteArgs : rd dispatched :=
  status ← rd_int;
  m ← rd_cdma_message true;
  ok ← rd_status;
  if negb ok then invalid else mret (Request (PCdmaWrite status m) (sizeof RIL_CDMA_SMS_WriteArgs)).

Definition dispatch (f : dispatchFunction) : rd dispatched :=
  match f with
  | DispatchVoid => dispatchVoid
  | DispatchString => dispatchString
  | DispatchStrings => dispatchStrings
  | DispatchInts => dispatchInts
  | DispatchSmsWrite => dispatchSmsWrite
  | DispatchDial => dispatchDial
  | DispatchSIM_IO => dispatchSIM_IO
  | DispatchCallForward => dispatchCallForward
  | DispatchRaw => dispatchRaw
  | DispatchCdmaSms => dispatchCdmaSms
  | DispatchCdmaSmsAck => dispatchCdmaSmsAck
  | DispatchGsmBrSmsCnf => dispatchGsmBrSmsCnf
  | DispatchCdmaBrSmsCnf => dispatchCdmaBrSmsCnf
  | DispatchRilCdmaSmsWriteArgs => dispatchRilCdmaSmsWriteArgs
  end.

End dispatch.

(** ** The layout of the payloads *)

Section layout.
Context {P : Type} `{ParcelLaws P} `{JstringLaws} `{RilH}.
Context (version : Z) (stack : Z -> bool).

Definition marshal_message (full : bool) (m : cdma_message) : list item :=
  I32 (uTeleserviceID m) :: Raw [bIsServicePresent m] :: I32 (uServicecategory m) ::
  I32 (digit_mode m) :: I32 (number_mode m) :: I32 (number_type m) :: I32 (number_plan m) ::
  Raw [number_of_digits m] ::
  raws (take (limit full (number_of_digits m) RIL_CDMA_SMS_ADDRESS_MAX) (digits m)) ++
  I32 (subaddressType m) :: Raw [sub_odd m] :: Raw [sub_number_of_digits m] ::
  raws (take (limit full (sub_number_of_digits m) RIL_CDMA_SMS_SUBADDRESS_MAX) (sub_digits m)) ++
  I32 (uBearerDataLen m) ::
  raws (take (limit full (uBearerDataLen m) RIL_CDMA_SMS_BEARER_DATA_MAX) (aBearerData m)).

Definition marshal_uus (u : uus_info) : list item :=
  I32 1 :: I32 (uusType u) :: I32 (uusDcs u) ::
  match uusData u with
  | None => [I32 (-1)]
  | Some b => [I32 (uusLength u); Raw b]
  end.

Definition marshal_dial (d : dial) : list item :=
  str (d_address d) :: I32 (d_clir d) ::
  if version <? 3 then [] else match d_uusInfo d with None => [I32 0] | Some u => marshal_uus u end.

Definition marshal_gsm (g : gsm_config) : list item :=
  ints [fromServiceId g; toServiceId g; fromCodeScheme g; toCodeScheme g; g_selected g].
Definition marshal_cdma (c : cdma_config) : list item := ints [service_category c; language c; c_selected c].

Definition marshal_sim_io (i : sim_io) : list item :=
  [I32 (io_command i); I32 (io_fileid i); str (io_path i); I32 (io_p1 i); I32 (io_p2 i); I32 (io_p3 i);
   str (io_data i); str (io_pin2 i)].

Definition marshal_call_forward (c : call_forward) : list item :=
  [I32 (cf_status c); I32 (cf_reason c); I32 (cf_serviceClass c); I32 (cf_toa c); str (cf_number c); I32 (cf_timeSeconds c)].

Definition count {A} (l : list A) : Z := Z.of_nat (length l).

Definition marshal (q : payload) : list item :=
  match q with
  | PVoid => []
  | PString s => [str s]
  | PStrings None => [I32 (-1)]
  | PStrings (Some l) => I32 (count l) :: (str <$> l)
  | PInts l => I32 (count l) :: ints l
  | PSmsWrite a => [I32 (sw_status a); str (sw_pdu a); str (sw_smsc a)]
  | PDial d => marshal_dial d
  | PSimIO i => marshal_sim_io i
  | PCallForward c => marshal_call_forward c
  | PRaw None => [I32 (-1)]
  | PRaw (Some b) => [I32 (count b); Raw b]
  | PCdmaSms m => marshal_message false m
  | PCdmaSmsAck c k => ints [c; k]
  | PGsmBr l => I32 (count l) :: (l ≫= marshal_gsm)
  | PCdmaBr l => I32 (count l) :: (l ≫= marshal_cdma)
  | PCdmaWrite s m => I32 s :: marshal_message true m
  end.

(** The function a payload is for, and the [datalen] that goes with it. *)
Definition function_of (q : payload) : dispatchFunction :=
  match q with
  | PVoid => DispatchVoid
  | PString _ => DispatchString
  | PStrings _ => DispatchStrings
  | PInts _ => DispatchInts
  | PSmsWrite _ => DispatchSmsWrite
  | PDial _ => DispatchDial
  | PSimIO _ => DispatchSIM_IO
  | PCallForward _ => DispatchCallForward
  | PRaw _ => DispatchRaw
  | PCdmaSms _ => DispatchCdmaSms
  | PCdmaSmsAck _ _ => DispatchCdmaSmsAck
  | PGsmBr _ => DispatchGsmBrSmsCnf
  | PCdmaBr _ => DispatchCdmaBrSmsCnf
  | PCdmaWrite _ _ => DispatchRilCdmaSmsWriteArgs
  end.

Definition datalen_of (q : payload) : Z :=
  match q with
  | PVoid | PStrings None => 0
  | PString _ => sizeof_ptr
  | PStrings (Some l) => sizeof_ptr * count l
  | PInts l => sizeof_int * count l
  | PSmsWrite _ => sizeof RIL_SMS_WriteArgs
  | PDial _ => if version <? 3 then sizeof RIL_Dial - sizeof_ptr else sizeof RIL_Dial
  | PSimIO _ => sizeof RIL_SIM_IO
  | PCallForward _ => sizeof RIL_CallForwardInfo
  | PRaw b => match b with Some b => count b | None => 0 end
  | PCdmaSms _ => sizeof RIL_CDMA_SMS_Message
  | PCdmaSmsAck _ _ => sizeof RIL_CDMA_SMS_Ack
  | PGsmBr l => count l * sizeof_ptr
  | PCdmaBr l => count l * sizeof_ptr
  | PCdmaWrite _ _ => sizeof RIL_CDMA_SMS_WriteArgs
  end.

(** An array member of which only the first [n] elements are used. *)
Definition array (max n : nat) (l : list Z) : Prop := l = fill max (take n l) /\ (n <= max)%nat.

Definition wf_message (full : bool) (m : cdma_message) : Prop :=
  Forall is_i32 [uTeleserviceID m; uServicecategory m; digit_mode m; number_mode m; number_type m; number_plan m;
                 subaddressType m; uBearerDataLen m] /\
  array RIL_CDMA_SMS_ADDRESS_MAX (limit full (number_of_digits m) RIL_CDMA_SMS_ADDRESS_MAX) (digits m) /\
  array RIL_CDMA_SMS_SUBADDRESS_MAX (limit full (sub_number_of_digits m) RIL_CDMA_SMS_SUBADDRESS_MAX) (sub_digits m) /\
  array RIL_CDMA_SMS_BEARER_DATA_MAX (limit full (uBearerDataLen m) RIL_CDMA_SMS_BEARER_DATA_MAX) (aBearerData m).

Definition wf_uus (u : uus_info) : Prop :=
  Forall is_i32 [uusType u; uusDcs u] /\ uusLength u = default 0 (count <$> uusData u) /\ uusLength u < 2 ^ 31.

Definition wf_dial (d : dial) : Prop :=
  d_address d <> None /\ text_opt (d_address d) /\ is_i32 (d_clir d) /\
  match d_uusInfo d with None => True | Some u => 3 <= version /\ wf_uus u end.

Definition wf_gsm (g : gsm_config) : Prop :=
  Forall is_i32 [fromServiceId g; toServiceId g; fromCodeScheme g; toCodeScheme g] /\ is_u8 (g_selected g).
Definition wf_cdma (c : cdma_config) : Prop :=
  Forall is_i32 [service_category c; language c] /\ is_u8 (c_selected c).

(** [n] elements of [size] bytes fit on the stack, and their number into an [int]. *)
Definition stack_room {A} (l : list A) (size : Z) : Prop :=
  stack (size * count l) = true /\ size * count l < 2 ^ 32 /\ count l < 2 ^ 31.

Definition wf (q : payload) : Prop :=
  match q with
  | PVoid | PStrings None => True
  | PString s => text_opt s
  | PStrings (Some l) => Forall text_opt l /\ (l = [] \/ stack_room l sizeof_ptr)
  | PInts l => l <> [] /\ Forall is_i32 l /\ stack_room l sizeof_int
  | PSmsWrite a => is_i32 (sw_status a) /\ sw_pdu a <> None /\ Forall text_opt [sw_pdu a; sw_smsc a]
  | PDial d => wf_dial d
  | PSimIO i =>
      Forall is_i32 [io_command i; io_fileid i; io_p1 i; io_p2 i; io_p3 i] /\
      Forall text_opt [io_path i; io_data i; io_pin2 i]
  | PCallForward c =>
      Forall is_i32 [cf_status c; cf_reason c; cf_serviceClass c; cf_toa c; cf_timeSeconds c] /\
      text_opt (cf_number c) /\ cf_number c <> Some []
  | PRaw b => match b with Some b => count b < 2 ^ 31 | None => False end
  | PCdmaSms m => wf_message false m
  | PCdmaSmsAck c k => is_i32 c /\ is_i32 k
  | PGsmBr l => Forall wf_gsm l /\ stack_room l (sizeof RIL_GSM_BroadcastSmsConfigInfo + sizeof_ptr)
  | PCdmaBr l => Forall wf_cdma l /\ stack_room l (sizeof RIL_CDMA_BroadcastSmsConfigInfo + sizeof_ptr)
  | PCdmaWrite s m => is_i32 s /\ wf_message true m
  end.

(** ** Reading the layouts *)

Lemma fill_array_reads {A} (m : reader P A) (enc : A -> item) xs i datalen :
  (forall x, x ∈ xs -> reads m [enc x] x) -> 0 <= i -> 4 * (i + count xs) <= datalen ->
  reads (fill_array m (length xs) i datalen) (enc <$> xs) (Some xs).
Proof.
  revert i. induction xs as [|x xs IH]; intros i Hm Hi Hd; [apply reads_ret|]. cbn [length fill_array fmap list_fmap].
  unfold count in *. cbn [length] in Hd.
  eapply reads_cons; [apply Hm; by left|]. rewrite (proj2 (Z.ltb_ge _ _)) by lia.
  rewrite <- (app_nil_r (enc <$> xs)). eapply reads_app; [apply IH; [|lia..]|apply reads_ret].
  intros y Hy. apply Hm. by right.
Qed.

Lemma ints_loop_reads vs i datalen :
  Forall is_i32 vs -> 0 <= i -> 4 * (i + count vs) <= datalen -> reads (ints_loop (length vs) i datalen) (ints vs) (inl vs).
Proof.
  intros Hv. revert i. induction Hv as [|v vs Hv Hvs IH]; intros i Hi Hd; [apply reads_ret|].
  cbn [length ints_loop ints fmap list_fmap]. unfold count in *. cbn [length] in Hd.
  eapply reads_cons; [by apply reads_new|]. rewrite (proj2 (Z.ltb_ge _ _)) by lia.
  rewrite <- (app_nil_r (I32 <$> vs)). eapply reads_app; [apply IH; lia|apply reads_ret].
Qed.

Lemma array_length max n l : array max n l -> length (take n l) = n.
Proof.
  intros [Hl Hn]. rewrite length_take. rewrite Hl at 1. unfold fill. rewrite length_app, length_replicate, length_take. lia.
Qed.

Ltac wf_cases :=
  repeat match goal with
         | H : _ /\ _ |- _ => destruct H
         | H : Forall _ (_ :: _) |- _ => apply Forall_cons in H
         end.

Lemma message_reads full m : wf_message full m -> reads (rd_cdma_message full) (marshal_message full m) m.
Proof.
  intros (Hi & Hd & Hs & Hb). unfold rd_cdma_message, marshal_message. wf_cases. do 8 (eapply reads_cons; [eauto with reads|]).
  eapply reads_app; [apply reads_bytes; by eapply array_length|]. do 3 (eapply reads_cons; [eauto with reads|]).
  eapply reads_app; [apply reads_bytes; by eapply array_length|]. eapply reads_cons; [eauto with reads|].
  rewrite <- (app_nil_r (raws _)). eapply reads_app; [apply reads_bytes; by eapply array_length|].
  destruct Hd as [<- _], Hs as [<- _], Hb as [<- _]. destruct m. apply reads_ret.
Qed.

Lemma text_opts s l : Forall text_opt (s :: l) -> text_opt s /\ Forall text_opt l.
Proof. by rewrite Forall_cons. Qed.

Abbreviation takes_apart q := (reads (dispatch version stack (function_of q)) (marshal q) (Request q (datalen_of q))).

Lemma strings_taken l : wf (PStrings l) -> takes_apart (PStrings l).
Proof.
  intros Hl. destruct l as [l|]; cbn -[Z.mul]; unfold dispatchStrings.
  - destruct Hl as [Ht Hr]. destruct l as [|x l].
    { eapply reads_cons; [apply reads_new; unfold count; cbn; unfold is_i32; lia|]. cbn. apply reads_ret. }
    destruct Hr as [|(Hs & Hb & Hc)]; [done|]. set (xs := x :: l) in *.
    assert (0 < count xs) by (unfold count; cbn; lia).
    eapply reads_cons; [apply reads_new; unfold is_i32; lia|]. cbv beta iota.
    rewrite (proj2 (Z.eqb_neq _ _)), (proj2 (Z.eqb_neq _ _)), u32_small, Hs by (unfold sizeof_ptr in *; lia). cbn [negb].
    unfold count. rewrite Nat2Z.id. rewrite <- (app_nil_r (str <$> xs)). eapply (reads_app _ _ _ [] (Some xs)); [|apply reads_ret].
    apply fill_array_reads; [|lia|unfold count, sizeof_ptr; lia].
    intros y Hy. apply reads_string. by eapply Forall_forall in Ht.
  - eapply reads_cons; [by apply reads_new|]. apply reads_ret.
Qed.

Lemma ints_taken l : wf (PInts l) -> takes_apart (PInts l).
Proof.
  intros (Hl & Hi & Hs & Hb & Hc). cbn -[Z.mul]; unfold dispatchInts.
  assert (0 < count l) by (destruct l; [done|unfold count; cbn; lia]).
  eapply reads_cons; [apply reads_new; unfold is_i32; lia|]. cbv beta iota.
  rewrite (proj2 (Z.eqb_neq _ _)), u32_small, Hs by (unfold sizeof_int in *; lia). cbn [negb].
  unfold count. rewrite Nat2Z.id. rewrite <- (app_nil_r (ints l)). eapply (reads_app _ _ _ [] (inl l)); [|apply reads_ret].
  apply ints_loop_reads; [done|lia|unfold count, sizeof_int; lia].
Qed.

Lemma dial_taken d : wf (PDial d) -> takes_apart (PDial d).
Proof.
  intros (Ha & Ht & Hc & Hu). cbn. unfold dispatchDial, marshal_dial. reading.
  rewrite bool_decide_eq_false_2 by done. cbn [orb]. destruct d as [a c u]; cbn in *.
  destruct (Z.ltb_spec version 3) as [Hv|Hv].
  { destruct u as [u|]; [lia|]. apply reads_ret. }
  destruct u as [u|]; [|by reading]. destruct Hu as (_ & Hi & Hl & Hb). wf_cases. unfold marshal_uus.
  eapply reads_cons; [by apply reads_new|]. cbn. unfold rd_uus.
  rewrite <- (app_nil_r (_ :: _)). eapply (reads_app _ _ _ [] (Some _)); [|apply reads_ret]. do 2 (eapply reads_cons; [eauto with reads|]).
  destruct u as [ty dcs [b|] len]; cbn in *; subst len.
  - eapply reads_cons; [apply reads_new; unfold is_i32, count in *; lia|]. cbv beta iota.
    unfold count in *. rewrite (proj2 (Z.eqb_neq _ _)), u32_small by lia.
    eapply reads_cons; [by apply reads_inplace|]. apply reads_ret.
  - eapply reads_cons; [by apply reads_new|]. apply reads_ret.
Qed.

Lemma raw_taken b : wf (PRaw b) -> takes_apart (PRaw b).
Proof.
  intros Hb. destruct b as [b|]; [|done]. cbn in *. unfold dispatchRaw. unfold count in *.
  eapply reads_cons; [apply reads_new; unfold is_i32; lia|]. cbv beta iota.
  rewrite (proj2 (Z.eqb_neq _ _)), u32_small by lia. eapply reads_cons; [by apply reads_inplace|]. apply reads_ret.
Qed.

Lemma configs_taken {A} c (m : reader P A) (enc : A -> list item) pack l :
  (forall x, x ∈ l -> reads m (enc x) x) -> stack_room l (sizeof c + sizeof_ptr) ->
  reads (do_configs stack c m pack) (I32 (count l) :: (l ≫= enc)) (Request (pack l) (count l * sizeof_ptr)).
Proof.
  intros Hm (Hs & Hb & Hc). unfold do_configs.
  assert (0 <= count l) by (unfold count; lia).
  eapply reads_cons; [apply reads_new; unfold is_i32; lia|]. cbv beta iota.
  rewrite (proj2 (Z.ltb_ge _ _)), (Z.mul_comm (count l)), Hs by lia. cbn [negb orb].
  rewrite <- (app_nil_r (l ≫= enc)). eapply (reads_app _ _ _ []); [apply reads_list; [|done]|].
  { unfold count. by rewrite Nat2Z.id. }
  reading.
Qed.

Lemma dispatch_reads q : wf q -> takes_apart q.
Proof.
  intros Hq.
  destruct q as [|x|x|x|x|x|x|x|x|x|x y|x|x|x m];
    [..|by apply dial_taken| | |by apply raw_taken| | | | |];
    try (by apply strings_taken); try (by apply ints_taken).
  - apply reads_ret.
  - cbn. unfold dispatchString. reading.
  - destruct Hq as (? & Hn & Ht). wf_cases. cbn. unfold dispatchSmsWrite. reading.
    rewrite bool_decide_eq_false_2 by done. destruct x. reading.
  - destruct Hq as (Hi & Ht). wf_cases. cbn. unfold dispatchSIM_IO, marshal_sim_io. destruct x. reading.
  - destruct Hq as (Hi & Ht & Hn). wf_cases. cbn. unfold dispatchCallForward, marshal_call_forward. reading.
    destruct x as [? ? ? ? [[|]|] ?]; cbn in *; [done|reading..].
  - cbn. unfold dispatchCdmaSms. rewrite <- (app_nil_r (marshal_message _ _)).
    eapply reads_app; [by apply message_reads|]. reading.
  - destruct Hq. cbn. unfold dispatchCdmaSmsAck. reading.
  - destruct Hq as [Hg Hr]. apply configs_taken; [|done]. intros [] Hx. eapply Forall_forall in Hg as [Hi Hu]; [|done].
    wf_cases. unfold is_u8 in Hu. cbn in *. unfold rd_gsm_config, marshal_gsm.
    do 5 (eapply reads_cons; [apply reads_int; unfold is_i32 in *; lia|]). rewrite u8_small by done. apply reads_ret.
  - destruct Hq as [Hg Hr]. apply configs_taken; [|done]. intros [] Hx. eapply Forall_forall in Hg as [Hi Hu]; [|done].
    wf_cases. unfold is_u8 in Hu. cbn in *. unfold rd_cdma_config, marshal_cdma.
    do 3 (eapply reads_cons; [apply reads_int; unfold is_i32 in *; lia|]). rewrite u8_small by done. apply reads_ret.
  - destruct Hq. cbn. unfold dispatchRilCdmaSmsWriteArgs. eapply reads_cons; [eauto with reads|].
    rewrite <- (app_nil_r (marshal_message _ _)). eapply reads_app; [by apply message_reads|]. reading.
Qed.

(** C25 (roundtrip). What the phone process lays out in the parcel of a request is what
    the vendor's [onRequest] gets: every dispatch function of ril.cpp takes the
    payload apart into the same structure with the right [datalen], and leaves the
    parcel behind the payload.  The payload must be well formed: numbers and counts
    in range, arrays that fit on the stack, no NULL where the code refuses it. *)
Theorem dispatch_takes_apart q s rest :
  wf q -> unread (l_parcel s) (marshal q ++ rest) -> l_status s = true ->
  exists s', dispatch version stack (function_of q) s = (Request q (datalen_of q), s') /\ unread (l_parcel s') rest.
Proof.
  intros Hq Hs Hst. destruct (dispatch_reads q Hq _ _ Hs Hst) as (s' & E & Hu & _). by exists s'.
Qed.

End layout.

(** ** Payloads that do not fit the layout *)

Section edges.
Context {P : Type} `{ParcelLaws P} `{JstringLaws} `{RilH}.
Context (version : Z) (stack : Z -> bool).

(** A negative count: a stack frame of almost 4 GB, or an array of negative size. *)
Lemma negative_count :
  stack (2 ^ 32 - 4) = false -> stack (2 ^ 32 - 8) = false ->
  reads (dispatch version stack DispatchInts) [I32 (-1)] Overrun /\
  reads (dispatch version stack DispatchStrings) [I32 (-2)] Overrun /\
  reads (dispatch version stack DispatchGsmBrSmsCnf) [I32 (-1)] Overrun /\
  reads (dispatch version stack DispatchCdmaBrSmsCnf) [I32 (-1)] Overrun.
Proof.
  intros H4 H8. split; [|split; [|split]]; (eapply reads_cons; [by apply reads_new|]); cbv beta iota zeta;
    try (cbn [Z.ltb Z.compare orb]; apply reads_ret).
  - change (u32 (sizeof_int * -1)) with (2 ^ 32 - 4). rewrite H4. apply reads_ret.
  - change (u32 (sizeof_ptr * -2)) with (2 ^ 32 - 8). rewrite H8. apply reads_ret.
Qed.

(** A count whose bytes wrap around: an array of one pointer for 2^30 + 1 strings. *)
Lemma wrapping_count :
  stack 4 = true ->
  exists l, reads (dispatch version stack DispatchInts) (I32 (2 ^ 30 + 1) :: l) Overrun.
Proof.
  intros Hs. exists [I32 0; I32 0]. eapply reads_cons; [by apply reads_new|]. cbv beta iota zeta.
  change (u32 (sizeof_int * (2 ^ 30 + 1))) with 4. change (2 ^ 30 + 1 =? 0) with false. cbv iota. rewrite Hs. cbn [negb].
  replace (Z.to_nat (2 ^ 30 + 1)) with (S (S (Z.to_nat (2 ^ 30 - 1)))) by lia. generalize (Z.to_nat (2 ^ 30 - 1)) as n. intros n.
  rewrite <- (app_nil_r [_; _]). eapply (reads_app _ _ _ [] (inr Overrun)); [|apply reads_ret].
  cbn [ints_loop]. eapply reads_cons; [by apply reads_new|]. change (4 <? 4 * (0 + 1)) with false. cbv iota.
  rewrite <- (app_nil_r [_]). eapply (reads_app _ _ _ [] (inr Overrun)); [|apply reads_ret].
  eapply reads_cons; [by apply reads_new|]. change (4 <? 4 * (0 + 1 + 1)) with true. cbv iota. apply reads_ret.
Qed.

(** A null array of [dispatchRaw] is marked with -1 and arrives as an empty array
    that is not NULL. *)
Lemma null_raw_not_null : reads (dispatch version stack DispatchRaw) (marshal version (PRaw None)) (Request (PRaw (Some [])) 0).
Proof. eapply reads_cons; [by apply reads_new|]. eapply reads_nil; [apply reads_inplace_0|]. apply reads_ret. Qed.

(** A length that the parcel does not hold: [onRequest] gets NULL with that length. *)
Lemma raw_too_long s n p1 p2 :
  readInt32 (l_parcel s) = (Some n, p1) -> 0 < n < 2 ^ 31 -> readInplace p1 n = (None, p2) ->
  fst (dispatch version stack DispatchRaw s) = Request (PRaw None) n.
Proof.
  intros E1 Hn E2. cbn. unfold dispatchRaw, mbind, reader_bind, rd_new. rewrite E1. cbv beta iota zeta.
  rewrite (proj2 (Z.eqb_neq _ _)), u32_small by lia. unfold rd_inplace. cbn. by rewrite E2.
Qed.

End edges.

(** ** The theorem at work *)

Import Wire.

Definition sizes (c : ctype) : Z := match c with RIL_Dial => 12 | _ => 20 end.
#[local] Instance ril_h : RilH :=
  {| sizeof := sizes; RIL_CDMA_SMS_ADDRESS_MAX := 36; RIL_CDMA_SMS_SUBADDRESS_MAX := 36; RIL_CDMA_SMS_BEARER_DATA_MAX := 255 |}.

(** A call with user information. *)
Lemma dispatch_takes_apart_witness :
  let q := PDial {| d_address := Some (bs "+4912"); d_clir := 1;
                    d_uusInfo := Some {| uusType := 2; uusDcs := -1; uusData := Some [7; 8]; uusLength := 2 |} |} in
  exists s', dispatch (P := Wire.wire) 3 (fun n => n <? 8192) (function_of q)
    (mk_locals (setData (marshal 3 q ≫= Wire.enc)) 0 0 true) = (Request q 12, s') /\
  unread (l_parcel s') [].
Proof.
  intros q. refine (dispatch_takes_apart (P := Wire.wire) 3 (fun n => n <? 8192) q _ [] _ _ _).
  - cbn. split; [done|]. split; [split; [|vm_compute; done]|split; [vm_compute; done|]].
    + by_compute.
    + split; [done|]. split; [by_compute|]. split; [reflexivity|vm_compute; done].
  - cbn. split; [reflexivity|lia].
  - reflexivity.
Defined.
