(* ===== verification/RilResponse.v ===== *)
(** * Responses of the vendor library (response functions of libril/ril.cpp)

    The vendor's library answers a request, or reports an event, with a pointer and a
    length.  The response functions check the length and lay the structure out in a
    parcel.  [rdata] is what the pointer points to, [NULL] is [None]; reading behind
    what the vendor gave, or at another type, is undefined behaviour.  The layout of
    every response is [layout]; seven kinds of structure travel in both directions, and
    for them it is the layout that the dispatch functions read. *)

From S2P Require Import Prelude RilParcel RilDispatch.

Record call := {
  k_state : Z; k_index : Z; k_toa : Z; k_isMpty : Z; k_isMT : Z; k_als : Z; k_isVoice : Z; k_isVoicePrivacy : Z;
  k_number : cstr; k_numberPresentation : Z; k_name : cstr; k_namePresentation : Z; k_uusInfo : option uus_info }.
Record sms_response := { sr_messageRef : Z; sr_ackPDU : cstr; sr_errorCode : Z }.
Record data_call := { dc_cid : Z; dc_active : Z; dc_type : cstr; dc_apn : cstr; dc_address : cstr }.
Record sim_io_response := { sir_sw1 : Z; sir_sw2 : Z; sir_simResponse : cstr }.
Record ssn := { ssn_notificationType : Z; ssn_code : Z; ssn_index : Z; ssn_type : Z; ssn_number : cstr }.
Record cell := { cell_rssi : Z; cell_cid : cstr }.
Record signal_info := { si_isPresent : Z; si_signalType : Z; si_alertPitch : Z; si_signal : Z }.
Record number_info := {
  ni_len : Z; ni_buf : bytes; ni_number_type : Z; ni_number_plan : Z; ni_pi : Z; ni_si : Z }.
Record call_waiting := {
  cw_number : cstr; cw_numberPresentation : Z; cw_name : cstr; cw_signalInfoRecord : signal_info }.
Record signal_strength := {
  gw_signalStrength : Z; gw_bitErrorRate : Z; cdma_dbm : Z; cdma_ecio : Z; evdo_dbm : Z; evdo_ecio : Z; evdo_snr : Z }.
Record card_app := {
  app_type : Z; app_state : Z; perso_substate : Z; aid_ptr : cstr; app_label_ptr : cstr;
  pin1_replaced : Z; pin1 : Z; pin2 : Z }.
Record card_status := {
  card_state : Z; universal_pin_state : Z; gsm_umts_subscription_app_index : Z; cdma_subscription_app_index : Z;
  num_applications : Z; applications : list card_app }.

(** An information record: its name and the member of the union that goes with it. *)
Inductive info_name :=
| RIL_CDMA_DISPLAY_INFO_REC | RIL_CDMA_EXTENDED_DISPLAY_INFO_REC
| RIL_CDMA_CALLED_PARTY_NUMBER_INFO_REC | RIL_CDMA_CALLING_PARTY_NUMBER_INFO_REC
| RIL_CDMA_CONNECTED_NUMBER_INFO_REC | RIL_CDMA_SIGNAL_INFO_REC | RIL_CDMA_REDIRECTING_NUMBER_INFO_REC
| RIL_CDMA_LINE_CONTROL_INFO_REC | RIL_CDMA_T53_CLIR_INFO_REC | RIL_CDMA_T53_AUDIO_CONTROL_INFO_REC
| RIL_CDMA_T53_RELEASE_INFO_REC.

Inductive info_rec :=
| Display (extended : bool) (alpha_len : Z) (alpha_buf : bytes)
| CalledParty (n : number_info) | CallingParty (n : number_info) | ConnectedNumber (n : number_info)
| SignalRec (s : signal_info)
| Redirecting (n : number_info) (reason : Z)
| LineControl (included toggle reverse denial : Z)
| Clir (cause : Z)
| AudioControl (upLink downLink : Z)
| T53Release
| Incorrect (name : Z).

Class RilH' `{RilH} := {
  info_number : info_name -> Z;
  RIL_CDMA_MAX_NUMBER_OF_INFO_RECS : Z;
  CDMA_ALPHA_INFO_BUFFER_LENGTH : Z;
  CDMA_NUMBER_INFO_BUFFER_LENGTH : Z
}.

(** What a response pointer points to. *)
Inductive rdata :=
| DInts (l : list Z) | DStrings (l : list cstr) | DString (s : bytes) | DBytes (b : bytes)
| DCalls (l : list call) | DSms (r : sms_response) | DDataCalls (l : list data_call)
| DSimIO (r : sim_io_response) | DForwards (l : list call_forward) | DSsn (r : ssn) | DCells (l : list cell)
| DInfoRecs (n : Z) (l : list info_rec) | DSignal (s : signal_strength) | DSignalInfo (s : signal_info)
| DCallWaiting (c : call_waiting) | DCard (c : card_status) | DGsm (l : list gsm_config)
| DCdma (l : list cdma_config) | DCdmaSms (m : cdma_message).

Inductive responseFunction :=
| ResponseInts | ResponseStrings | ResponseStringsNetworks | ResponseString | ResponseVoid | ResponseCallList | ResponseSMS
| ResponseSIM_IO | ResponseCallForwards | ResponseDataCallList | ResponseRaw | ResponseSsn | ResponseSimStatus
| ResponseGsmBrSmsCnf | ResponseCdmaBrSmsCnf | ResponseCdmaSms | ResponseCellList
| ResponseCdmaInformationRecords | ResponseRilSignalStrength | ResponseCallRing | ResponseCdmaSignalInfoRecord
| ResponseCdmaCallWaiting.

Definition RIL_ERRNO_INVALID_RESPONSE : Z := -1.

Section response.
Context {P : Type} `{Parcel P} `{Jstring} `{RilH'}.
Context (version : Z).

Abbreviation response_fn := (P -> option rdata -> Z -> outcome (P * Z)).
Abbreviation bad p := (Done (p, RIL_ERRNO_INVALID_RESPONSE)).
Abbreviation good p := (Done (p, 0)).

Definition is_null {A} (o : option A) : bool := match o with None => true | Some _ => false end.

(** The first [n] elements of the array that [response] points to. *)
Definition elements {A} (sel : rdata -> option (list A)) (response : option rdata) (n : Z) : outcome (list A) :=
  if n <=? 0 then Done []
  else match response ≫= sel with
       | Some l => if n <=? Z.of_nat (length l) then Done (take (Z.to_nat n) l) else Undef "read behind the response"
       | None => Undef "NULL or another structure"
       end.

(** The structure that [response] points to. *)
Definition struct {A} (sel : rdata -> option A) (response : option rdata) : outcome A :=
  deref "NULL or another structure" (response ≫= sel).

(** [if (response == NULL && responselen != 0) return INVALID;
     if (!fits) return INVALID;] *)
Definition checked (p : P) (response : option rdata) (responselen : Z) (fits : bool) (k : outcome (P * Z)) : outcome (P * Z) :=
  if is_null response && negb (responselen =? 0) then bad p
  else if negb fits then bad p
  else k.

Definition multiple (responselen size : Z) : bool := responselen mod size =? 0.

Definition responseInts : response_fn := fun p response responselen =>
  checked p response responselen (multiple responselen sizeof_int) (
    let numInts := responselen / sizeof_ptr in
    l ← elements (fun d => match d with DInts l => Some l | _ => None end) response numInts;
    good (write_ints (writeInt32 p numInts) l)).

Definition responseStrings : response_fn := fun p response responselen =>
  checked p response responselen (multiple responselen sizeof_ptr) (
    if is_null response then good (writeInt32 p 0)
    else
      let numStrings := responselen / sizeof_ptr in
      l ← elements (fun d => match d with DStrings l => Some l | _ => None end) response numStrings;
      good (write_strings (writeInt32 p numStrings) l)).

Definition responseString : response_fn := fun p response responselen =>
  match response with
  | None => good (writeStringToParcel p None)
  | Some (DString s) => good (writeStringToParcel p (Some s))
  | Some _ => Undef "not a string"
  end.

Definition responseVoid : response_fn := fun p response responselen => good p.

Definition write_uus (p : P) (u : option uus_info) : outcome P :=
  match u with
  | Some u =>
      match uusData u with
      | Some b =>
          if version <? 3 then Done (writeInt32 p 0)
          else if (0 <=? uusLength u) && (uusLength u <=? Z.of_nat (length b)) then
            Done (write (write_ints p [1; uusType u; uusDcs u; uusLength u]) (take (Z.to_nat (uusLength u)) b))
          else Undef "read behind the user information"
      | None => Done (writeInt32 p 0)
      end
  | None => Done (writeInt32 p 0)
  end.

Definition write_call (p : P) (c : call) : outcome P :=
  let p := write_ints p [k_state c; k_index c; k_toa c; k_isMpty c; k_isMT c; k_als c; k_isVoice c; k_isVoicePrivacy c] in
  let p := writeStringToParcel p (k_number c) in
  let p := writeInt32 p (k_numberPresentation c) in
  let p := writeStringToParcel p (k_name c) in
  let p := writeInt32 p (k_namePresentation c) in
  write_uus p (k_uusInfo c).

(** [for (i = 0; i < num; i++) write(p, p_cur[i])] *)
Fixpoint write_all {A} (f : P -> A -> outcome P) (p : P) (l : list A) : outcome P :=
  match l with
  | [] => Done p
  | x :: l => p ← f p x; write_all f p l
  end.

Definition responseCallList : response_fn := fun p response responselen =>
  checked p response responselen (multiple responselen sizeof_ptr) (
    let num := responselen / sizeof_ptr in
    l ← elements (fun d => match d with DCalls l => Some l | _ => None end) response num;
    p ← write_all write_call (writeInt32 p num) l;
    good p).

Definition responseSMS : response_fn := fun p response responselen =>
  if is_null response then bad p
  else if negb (responselen =? sizeof RIL_SMS_Response) then bad p
  else
    r ← struct (fun d => match d with DSms r => Some r | _ => None end) response;
    good (writeInt32 (writeStringToParcel (writeInt32 p (sr_messageRef r)) (sr_ackPDU r)) (sr_errorCode r)).

Definition write_data_call (p : P) (c : data_call) : outcome P :=
  Done (write_strings (write_ints p [dc_cid c; dc_active c]) [dc_type c; dc_apn c; dc_address c]).

Definition responseDataCallList : response_fn := fun p response responselen =>
  checked p response responselen (multiple responselen (sizeof RIL_Data_Call_Response)) (
    let num := responselen / sizeof RIL_Data_Call_Response in
    l ← elements (fun d => match d with DDataCalls l => Some l | _ => None end) response num;
    p ← write_all write_data_call (writeInt32 p num) l;
    good p).

Definition responseRaw : response_fn := fun p response responselen =>
  if is_null response && negb (responselen =? 0) then bad p
  else if is_null response then good (writeInt32 p (-1))
  else
    b ← elements (fun d => match d with DBytes b => Some b | _ => None end) response responselen;
    good (write (writeInt32 p responselen) b).

Definition responseSIM_IO : response_fn := fun p response responselen =>
  if is_null response then bad p
  else if negb (responselen =? sizeof RIL_SIM_IO_Response) then bad p
  else
    r ← struct (fun d => match d with DSimIO r => Some r | _ => None end) response;
    good (writeStringToParcel (write_ints p [sir_sw1 r; sir_sw2 r]) (sir_simResponse r)).

Definition write_forward (p : P) (c : call_forward) : outcome P :=
  let p := write_ints p [cf_status c; cf_reason c; cf_serviceClass c; cf_toa c] in
  Done (writeInt32 (writeStringToParcel p (cf_number c)) (cf_timeSeconds c)).

Definition responseCallForwards : response_fn := fun p response responselen =>
  checked p response responselen (multiple responselen sizeof_ptr) (
    let num := responselen / sizeof_ptr in
    l ← elements (fun d => match d with DForwards l => Some l | _ => None end) response num;
    p ← write_all write_forward (writeInt32 p num) l;
    good p).

Definition responseSsn : response_fn := fun p response responselen =>
  if is_null response then bad p
  else if negb (responselen =? sizeof RIL_SuppSvcNotification) then bad p
  else
    r ← struct (fun d => match d with DSsn r => Some r | _ => None end) response;
    let p := write_ints p [ssn_notificationType r; ssn_code r; ssn_index r; ssn_type r] in
    good (writeStringToParcel p (ssn_number r)).

Definition write_cell (p : P) (c : cell) : outcome P := Done (writeStringToParcel (writeInt32 p (cell_rssi c)) (cell_cid c)).

Definition responseCellList : response_fn := fun p response responselen =>
  checked p response responselen (multiple responselen sizeof_ptr) (
    let num := responselen / sizeof_ptr in
    l ← elements (fun d => match d with DCells l => Some l | _ => None end) response num;
    p ← write_all write_cell (writeInt32 p num) l;
    good p).

Definition marshallSignalInfoRecord (p : P) (s : signal_info) : P :=
  write_ints p [si_isPresent s; si_signalType s; si_alertPitch s; si_signal s].

(** A buffer of [len] characters is copied, ended with a zero and written. *)
Definition write_buffer (p : P) (len : Z) (buf : bytes) : outcome P :=
  if len <=? Z.of_nat (length buf) then Done (writeStringToParcel p (Some (until_nul (take (Z.to_nat len) buf))))
  else Undef "read behind the buffer".

(** The number records share a body; [None]: a length over the limit. *)
Definition write_number (p : P) (n : number_info) : outcome (P * Z) :=
  if CDMA_NUMBER_INFO_BUFFER_LENGTH <? ni_len n then bad p
  else
    p ← write_buffer p (ni_len n) (ni_buf n);
    good (write_ints p [ni_number_type n; ni_number_plan n; ni_pi n; ni_si n]).

Definition name_of (r : info_rec) : Z :=
  match r with
  | Display false _ _ => info_number RIL_CDMA_DISPLAY_INFO_REC
  | Display true _ _ => info_number RIL_CDMA_EXTENDED_DISPLAY_INFO_REC
  | CalledParty _ => info_number RIL_CDMA_CALLED_PARTY_NUMBER_INFO_REC
  | CallingParty _ => info_number RIL_CDMA_CALLING_PARTY_NUMBER_INFO_REC
  | ConnectedNumber _ => info_number RIL_CDMA_CONNECTED_NUMBER_INFO_REC
  | SignalRec _ => info_number RIL_CDMA_SIGNAL_INFO_REC
  | Redirecting _ _ => info_number RIL_CDMA_REDIRECTING_NUMBER_INFO_REC
  | LineControl _ _ _ _ => info_number RIL_CDMA_LINE_CONTROL_INFO_REC
  | Clir _ => info_number RIL_CDMA_T53_CLIR_INFO_REC
  | AudioControl _ _ => info_number RIL_CDMA_T53_AUDIO_CONTROL_INFO_REC
  | T53Release => info_number RIL_CDMA_T53_RELEASE_INFO_REC
  | Incorrect name => name
  end.

Definition write_info_rec (p : P) (r : info_rec) : outcome (P * Z) :=
  let p := writeInt32 p (name_of r) in
  match r with
  | Display _ len buf => if CDMA_ALPHA_INFO_BUFFER_LENGTH <? len then bad p else p ← write_buffer p len buf; good p
  | CalledParty n | CallingParty n | ConnectedNumber n => write_number p n
  | SignalRec s => good (write_ints p [si_isPresent s; si_signalType s; si_alertPitch s; si_signal s])
  | Redirecting n reason =>
      '(p, ret) ← write_number p n;
      if ret =? 0 then good (writeInt32 p reason) else Done (p, ret)
  | LineControl a b c d => good (write_ints p [a; b; c; d])
  | Clir cause => good (writeInt32 p cause)
  | AudioControl up down => good (write_ints p [up; down])
  | T53Release => bad p
  | Incorrect _ => bad p
  end.

Fixpoint write_info_recs (p : P) (l : list info_rec) : outcome (P * Z) :=
  match l with
  | [] => good p
  | r :: l =>
      '(p, ret) ← write_info_rec p r;
      if ret =? 0 then write_info_recs p l else Done (p, ret)
  end.

Definition responseCdmaInformationRecords : response_fn := fun p response responselen =>
  checked p response responselen (responselen =? sizeof RIL_CDMA_InformationRecords) (
    '(n, recs) ← struct (fun d => match d with DInfoRecs n l => Some (n, l) | _ => None end) response;
    let num := Z.min n RIL_CDMA_MAX_NUMBER_OF_INFO_RECS in
    l ← elements (fun _ => Some recs) response num;
    write_info_recs (writeInt32 p num) l).

Definition responseRilSignalStrength : response_fn := fun p response responselen =>
  if is_null response && negb (responselen =? 0) then bad p
  else if responselen =? sizeof RIL_SignalStrength then
    s ← struct (fun d => match d with DSignal s => Some s | _ => None end) response;
    good (write_ints p [gw_signalStrength s; gw_bitErrorRate s; cdma_dbm s; cdma_ecio s; evdo_dbm s; evdo_ecio s; evdo_snr s])
  else if multiple responselen sizeof_int then
    let num := responselen / sizeof_int in
    l ← elements (fun d => match d with DInts l => Some l | _ => None end) response num;
    good (write_ints (write_ints p l) (replicate (7 - Z.to_nat num) 0))
  else bad p.

Definition responseCdmaSignalInfoRecord : response_fn := fun p response responselen =>
  if is_null response || (responselen =? 0) then bad p
  else if negb (responselen =? sizeof RIL_CDMA_SignalInfoRecord) then bad p
  else
    s ← struct (fun d => match d with DSignalInfo s => Some s | _ => None end) response;
    good (marshallSignalInfoRecord p s).

Definition responseCallRing : response_fn := fun p response responselen =>
  if is_null response || (responselen =? 0) then responseVoid p response responselen
  else responseCdmaSignalInfoRecord p response responselen.

Definition responseCdmaCallWaiting : response_fn := fun p response responselen =>
  checked p response responselen (responselen =? sizeof RIL_CDMA_CallWaiting) (
    c ← struct (fun d => match d with DCallWaiting c => Some c | _ => None end) response;
    let p := writeStringToParcel p (cw_number c) in
    let p := writeInt32 p (cw_numberPresentation c) in
    let p := writeStringToParcel p (cw_name c) in
    good (marshallSignalInfoRecord p (cw_signalInfoRecord c))).

Definition write_app (p : P) (a : card_app) : outcome P :=
  let p := write_ints p [app_type a; app_state a; perso_substate a] in
  let p := write_strings p [aid_ptr a; app_label_ptr a] in
  Done (write_ints p [pin1_replaced a; pin1 a; pin2 a]).

Definition responseSimStatus : response_fn := fun p response responselen =>
  checked p response responselen (multiple responselen sizeof_ptr) (
    c ← struct (fun d => match d with DCard c => Some c | _ => None end) response;
    let p := write_ints p [card_state c; universal_pin_state c; gsm_umts_subscription_app_index c;
                           cdma_subscription_app_index c; num_applications c] in
    l ← elements (fun _ => Some (applications c)) response (num_applications c);
    p ← write_all write_app p l;
    good p).

Definition write_gsm (p : P) (g : gsm_config) : outcome P :=
  Done (write_ints p [fromServiceId g; toServiceId g; fromCodeScheme g; toCodeScheme g; g_selected g]).
Definition write_cdma (p : P) (c : cdma_config) : outcome P :=
  Done (write_ints p [service_category c; language c; c_selected c]).

Definition responseGsmBrSmsCnf : response_fn := fun p response responselen =>
  let num := responselen / sizeof_ptr in
  l ← elements (fun d => match d with DGsm l => Some l | _ => None end) response num;
  p ← write_all write_gsm (writeInt32 p num) l;
  good p.

Definition responseCdmaBrSmsCnf : response_fn := fun p response responselen =>
  let num := responselen / sizeof_ptr in
  l ← elements (fun d => match d with DCdma l => Some l | _ => None end) response num;
  p ← write_all write_cdma (writeInt32 p num) l;
  good p.

(** The first [MIN(n, max)] bytes of an array member of [max] bytes. *)
Definition write_digits (p : P) (n : Z) (max : nat) (l : list Z) : P := write_bytes p (take (limit false n max) l).

Definition responseCdmaSms : response_fn := fun p response responselen =>
  checked p response responselen (responselen =? sizeof RIL_CDMA_SMS_Message) (
    m ← struct (fun d => match d with DCdmaSms m => Some m | _ => None end) response;
    let p := writeInt32 p (uTeleserviceID m) in
    let p := write p [bIsServicePresent m] in
    let p := writeInt32 p (uServicecategory m) in
    let p := write_ints p [digit_mode m; number_mode m; number_type m; number_plan m] in
    let p := write p [number_of_digits m] in
    let p := write_digits p (number_of_digits m) RIL_CDMA_SMS_ADDRESS_MAX (digits m) in
    let p := writeInt32 p (subaddressType m) in
    let p := write p [sub_odd m] in
    let p := write p [sub_number_of_digits m] in
    let p := write_digits p (sub_number_of_digits m) RIL_CDMA_SMS_SUBADDRESS_MAX (sub_digits m) in
    let p := writeInt32 p (uBearerDataLen m) in
    good (write_digits p (uBearerDataLen m) RIL_CDMA_SMS_BEARER_DATA_MAX (aBearerData m))).

Definition respond (f : responseFunction) : response_fn :=
  match f with
  | ResponseInts => responseInts
  | ResponseStrings | ResponseStringsNetworks => responseStrings
  | ResponseString => responseString
  | ResponseVoid => responseVoid
  | ResponseCallList => responseCallList
  | ResponseSMS => responseSMS
  | ResponseSIM_IO => responseSIM_IO
  | ResponseCallForwards => responseCallForwards
  | ResponseDataCallList => responseDataCallList
  | ResponseRaw => responseRaw
  | ResponseSsn => responseSsn
  | ResponseSimStatus => responseSimStatus
  | ResponseGsmBrSmsCnf => responseGsmBrSmsCnf
  | ResponseCdmaBrSmsCnf => responseCdmaBrSmsCnf
  | ResponseCdmaSms => responseCdmaSms
  | ResponseCellList => responseCellList
  | ResponseCdmaInformationRecords => responseCdmaInformationRecords
  | ResponseRilSignalStrength => responseRilSignalStrength
  | ResponseCallRing => responseCallRing
  | ResponseCdmaSignalInfoRecord => responseCdmaSignalInfoRecord
  | ResponseCdmaCallWaiting => responseCdmaCallWaiting
  end.

End response.

(** ** The layout of the responses *)

Section layout.
Context {P : Type} `{ParcelLaws P} `{JstringLaws} `{RilH'}.
Context (version : Z).

Definition counted {A} (enc : A -> list item) (l : list A) : list item := I32 (count l) :: (l ≫= enc).

Definition layout_uus (u : option uus_info) : list item :=
  match u with
  | Some u =>
      match uusData u with
      | Some b => if version <? 3 then [I32 0] else ints [1; uusType u; uusDcs u; uusLength u] ++ [Raw b]
      | None => [I32 0]
      end
  | None => [I32 0]
  end.

Definition layout_call (c : call) : list item :=
  ints [k_state c; k_index c; k_toa c; k_isMpty c; k_isMT c; k_als c; k_isVoice c; k_isVoicePrivacy c] ++
  [str (k_number c); I32 (k_numberPresentation c); str (k_name c); I32 (k_namePresentation c)] ++ layout_uus (k_uusInfo c).

Definition layout_data_call (c : data_call) : list item :=
  [I32 (dc_cid c); I32 (dc_active c); str (dc_type c); str (dc_apn c); str (dc_address c)].
Definition layout_cell (c : cell) : list item := [I32 (cell_rssi c); str (cell_cid c)].
Definition layout_signal_info (s : signal_info) : list item :=
  ints [si_isPresent s; si_signalType s; si_alertPitch s; si_signal s].
Definition layout_number (n : number_info) : list item :=
  str (Some (until_nul (take (Z.to_nat (ni_len n)) (ni_buf n)))) :: ints [ni_number_type n; ni_number_plan n; ni_pi n; ni_si n].
Definition layout_app (a : card_app) : list item :=
  ints [app_type a; app_state a; perso_substate a] ++ [str (aid_ptr a); str (app_label_ptr a)] ++
  ints [pin1_replaced a; pin1 a; pin2 a].

Definition layout_info_rec (r : info_rec) : list item :=
  I32 (name_of r) ::
  match r with
  | Display _ len buf => [str (Some (until_nul (take (Z.to_nat len) buf)))]
  | CalledParty n | CallingParty n | ConnectedNumber n => layout_number n
  | SignalRec s => layout_signal_info s
  | Redirecting n reason => layout_number n ++ [I32 reason]
  | LineControl a b c d => ints [a; b; c; d]
  | Clir cause => [I32 cause]
  | AudioControl up down => ints [up; down]
  | T53Release | Incorrect _ => []
  end.

(** What the phone process finds in the parcel of a response. *)
Definition layout (f : responseFunction) (d : option rdata) : list item :=
  match f, d with
  | ResponseRilSignalStrength, Some (DInts l) => ints (l ++ replicate (7 - length l) 0)
  | ResponseRilSignalStrength, Some (DSignal s) =>
      ints [gw_signalStrength s; gw_bitErrorRate s; cdma_dbm s; cdma_ecio s; evdo_dbm s; evdo_ecio s; evdo_snr s]
  | _, Some (DInts l) => counted (fun v => [I32 v]) l
  | _, Some (DStrings l) => counted (fun s => [str s]) l
  | _, Some (DString s) => [str (Some s)]
  | ResponseString, None => [str None]
  | _, Some (DBytes b) => [I32 (count b); Raw b]
  | ResponseRaw, None => [I32 (-1)]
  | _, Some (DCalls l) => counted layout_call l
  | _, Some (DSms r) => [I32 (sr_messageRef r); str (sr_ackPDU r); I32 (sr_errorCode r)]
  | _, Some (DDataCalls l) => counted layout_data_call l
  | _, Some (DSimIO r) => [I32 (sir_sw1 r); I32 (sir_sw2 r); str (sir_simResponse r)]
  | _, Some (DForwards l) => counted marshal_call_forward l
  | _, Some (DSsn r) => ints [ssn_notificationType r; ssn_code r; ssn_index r; ssn_type r] ++ [str (ssn_number r)]
  | _, Some (DCells l) => counted layout_cell l
  | _, Some (DInfoRecs n l) => I32 n :: (l ≫= layout_info_rec)
  | _, Some (DSignalInfo s) => layout_signal_info s
  | _, Some (DCallWaiting c) =>
      [str (cw_number c); I32 (cw_numberPresentation c); str (cw_name c)] ++ layout_signal_info (cw_signalInfoRecord c)
  | _, Some (DCard c) =>
      ints [card_state c; universal_pin_state c; gsm_umts_subscription_app_index c; cdma_subscription_app_index c;
            num_applications c] ++ (applications c ≫= layout_app)
  | _, Some (DGsm l) => counted marshal_gsm l
  | _, Some (DCdma l) => counted marshal_cdma l
  | _, Some (DCdmaSms m) => marshal_message false m
  | _, _ => []
  end.

Definition wf_number (n : number_info) : Prop :=
  ni_len n <= CDMA_NUMBER_INFO_BUFFER_LENGTH /\ ni_len n <= count (ni_buf n).

Definition wf_info_rec (r : info_rec) : Prop :=
  match r with
  | Display _ len buf => len <= CDMA_ALPHA_INFO_BUFFER_LENGTH /\ len <= count buf
  | CalledParty n | CallingParty n | ConnectedNumber n | Redirecting n _ => wf_number n
  | SignalRec _ | LineControl _ _ _ _ | Clir _ | AudioControl _ _ => True
  | T53Release | Incorrect _ => False
  end.

Definition wf_call (c : call) : Prop :=
  match k_uusInfo c with
  | Some u => match uusData u with Some b => uusLength u = count b | None => True end
  | None => True
  end.

(** The data that a response function is for, with the length that belongs to it. *)
Definition answers (f : responseFunction) (d : option rdata) (responselen : Z) : Prop :=
  match f, d with
  | ResponseInts, Some (DInts l) => responselen = sizeof_int * count l
  | (ResponseStrings | ResponseStringsNetworks), Some (DStrings l) => responselen = sizeof_ptr * count l
  | ResponseString, (None | Some (DString _)) => True
  | ResponseVoid, None => True
  | ResponseCallList, Some (DCalls l) => responselen = sizeof_ptr * count l /\ Forall wf_call l
  | ResponseSMS, Some (DSms _) => responselen = sizeof RIL_SMS_Response
  | ResponseSIM_IO, Some (DSimIO _) => responselen = sizeof RIL_SIM_IO_Response
  | ResponseCallForwards, Some (DForwards l) => responselen = sizeof_ptr * count l
  | ResponseDataCallList, Some (DDataCalls l) => responselen = count l * sizeof RIL_Data_Call_Response /\ 0 < sizeof RIL_Data_Call_Response
  | ResponseRaw, Some (DBytes b) => responselen = count b
  | ResponseRaw, None => responselen = 0
  | ResponseSsn, Some (DSsn _) => responselen = sizeof RIL_SuppSvcNotification
  | ResponseSimStatus, Some (DCard c) => responselen = sizeof_ptr /\ num_applications c = count (applications c)
  | ResponseGsmBrSmsCnf, Some (DGsm l) => responselen = sizeof_ptr * count l
  | ResponseCdmaBrSmsCnf, Some (DCdma l) => responselen = sizeof_ptr * count l
  | ResponseCdmaSms, Some (DCdmaSms _) => responselen = sizeof RIL_CDMA_SMS_Message
  | ResponseCellList, Some (DCells l) => responselen = sizeof_ptr * count l
  | ResponseCdmaInformationRecords, Some (DInfoRecs n l) =>
      responselen = sizeof RIL_CDMA_InformationRecords /\ n = count l /\ n <= RIL_CDMA_MAX_NUMBER_OF_INFO_RECS /\
      Forall wf_info_rec l
  | ResponseRilSignalStrength, Some (DSignal _) => responselen = sizeof RIL_SignalStrength
  | ResponseRilSignalStrength, Some (DInts l) =>
      responselen = sizeof_int * count l /\ responselen <> sizeof RIL_SignalStrength
  | ResponseCallRing, None => True
  | (ResponseCallRing | ResponseCdmaSignalInfoRecord), Some (DSignalInfo _) =>
      responselen = sizeof RIL_CDMA_SignalInfoRecord /\ 0 < responselen
  | ResponseCdmaCallWaiting, Some (DCallWaiting _) => responselen = sizeof RIL_CDMA_CallWaiting
  | _, _ => False
  end.

#[local] Arguments checked : simpl never.
#[local] Arguments elements : simpl never.

(** [m] succeeds and appends [x]. *)
Definition lays (p : P) (m : outcome (P * Z)) (x : list item) : Prop :=
  forall l, written p l -> exists p', m = Done (p', 0) /\ written p' (l ++ x).
Definition lays1 (p : P) (m : outcome P) (x : list item) : Prop :=
  forall l, written p l -> exists p', m = Done p' /\ written p' (l ++ x).

Lemma written_eq (p : P) l l' : written p l -> l = l' -> written p l'.
Proof. by intros ? <-. Qed.

Ltac lay :=
  intros ? ?; eexists; split; [reflexivity|]; eapply written_eq; [eauto 30 with parcel|];
  cbn [ints raws fmap list_fmap app]; rewrite <- ?app_assoc; cbn [app]; rewrite <- ?app_assoc; cbn [app]; reflexivity.

Lemma write_all_lays {A} (f : P -> A -> outcome P) enc l p :
  (forall x p, x ∈ l -> lays1 p (f p x) (enc x)) -> lays1 p (write_all f p l) (l ≫= enc).
Proof.
  revert p. induction l as [|x l IH]; intros p Hf k Hp; cbn; [rewrite app_nil_r; by exists p|].
  destruct (Hf x p ltac:(by left) k Hp) as (p1 & -> & H1'). rewrite app_assoc. apply IH; [|done].
  intros y q Hy. apply Hf. by right.
Qed.

Lemma elements_all {A} (sel : rdata -> option (list A)) d l :
  sel d = Some l -> elements sel (Some d) (count l) = Done l.
Proof.
  intros Hs. unfold elements, count. destruct (Z.leb_spec (Z.of_nat (length l)) 0).
  { destruct l; [done|cbn in *; lia]. }
  cbn. by rewrite Hs, Z.leb_refl, Nat2Z.id, firstn_all.
Qed.

Lemma checked_fits (p : P) d n fits k : fits = true -> checked p (Some d) n fits k = k.
Proof. by intros ->. Qed.

Lemma multiple_of n k : 0 < k -> multiple (k * n) k = true.
Proof. intros Hk. unfold multiple. rewrite Z.mul_comm, Z.mod_mul by lia. done. Qed.

Lemma div_count n k : 0 < k -> k * n / k = n.
Proof. intros Hk. by rewrite Z.mul_comm, Z.div_mul by lia. Qed.

(** The list responses have one shape. *)
Lemma list_lays {A} (f : P -> A -> outcome P) (enc : A -> list item) sel d l size p :
  0 < size -> sel d = Some l -> (forall x p, x ∈ l -> lays1 p (f p x) (enc x)) ->
  lays p (checked p (Some d) (size * count l) (multiple (size * count l) size) (
    let num := size * count l / size in
    k ← elements sel (Some d) num; p ← write_all f (writeInt32 p num) k; Done (p, 0))) (counted enc l).
Proof.
  intros Hs Hd Hf k Hp. cbv zeta. rewrite checked_fits, div_count, (elements_all sel d l) by eauto using multiple_of. cbn.
  destruct (write_all_lays f enc l (writeInt32 p (count l)) Hf (k ++ [I32 (count l)])) as (p' & -> & Hw); [eauto with parcel|].
  eexists. split; [reflexivity|]. unfold counted. by rewrite <- app_assoc in Hw.
Qed.

Lemma call_lays c p : wf_call c -> lays1 p (write_call version p c) (layout_call c).
Proof.
  intros Hc. unfold write_call, layout_call, write_uus, layout_uus. destruct c as [? ? ? ? ? ? ? ? ? ? ? ? u]; cbn in *.
  destruct u as [[ty dcs [b|] len]|]; cbn in *; [|lay..]. destruct (version <? 3); [lay|].
  subst len. unfold count. rewrite (proj2 (Z.leb_le _ _)), Z.leb_refl, Nat2Z.id, firstn_all by lia. cbn [andb]. lay.
Qed.

Lemma buffer_lays p len buf :
  len <= count buf -> lays1 p (write_buffer p len buf) [str (Some (until_nul (take (Z.to_nat len) buf)))].
Proof. intros Hl. unfold write_buffer. rewrite (proj2 (Z.leb_le _ _)) by done. lay. Qed.

Lemma lays_bind p (m : outcome P) (k : P -> outcome (P * Z)) x y :
  lays1 p m x -> (forall p, lays p (k p) y) -> lays p (m ≫= k) (x ++ y).
Proof.
  intros Hm Hk l Hp. destruct (Hm l Hp) as (p1 & -> & H1'). cbn. rewrite app_assoc. by apply Hk.
Qed.

Lemma number_lays p n : wf_number n -> lays p (write_number p n) (layout_number n).
Proof.
  intros [Hl Hb]. unfold write_number. rewrite (proj2 (Z.ltb_ge _ _)) by done.
  apply (lays_bind _ _ _ [_]); [by apply buffer_lays|]. intros q. lay.
Qed.

Lemma lays_after p q (m : outcome (P * Z)) x y :
  (forall l, written p l -> written q (l ++ x)) -> lays q m y -> lays p m (x ++ y).
Proof. intros Hq Hm l Hp. rewrite app_assoc. by apply Hm, Hq. Qed.

Lemma info_rec_lays r p : wf_info_rec r -> lays p (write_info_rec p r) (layout_info_rec r).
Proof.
  intros Hr. unfold write_info_rec, layout_info_rec. cbv zeta.
  apply (lays_after p (writeInt32 p (name_of r)) _ [_]); [eauto with parcel|].
  destruct r as [e len buf|n|n|n|s|n reason|a b c d|c|u d| |n]; try (by apply number_lays); try lay; [| |done..].
  - destruct Hr as [Hl Hb]. rewrite (proj2 (Z.ltb_ge _ _)) by done.
    rewrite <- (app_nil_r [_]). apply lays_bind; [by apply buffer_lays|]. intros q l Hq. rewrite app_nil_r. by exists q.
  - intros l Hp. destruct (number_lays _ _ Hr l Hp) as (p1 & -> & Hp1). cbn. eexists. split; [reflexivity|].
    eapply written_eq; [by apply int_written|]. by rewrite <- app_assoc.
Qed.

Lemma info_recs_lay l p : Forall wf_info_rec l -> lays p (write_info_recs p l) (l ≫= layout_info_rec).
Proof.
  intros Hl. revert p. induction Hl as [|r l Hr Hl IH]; intros p k Hp; [cbn; rewrite app_nil_r; by exists p|].
  rewrite bind_cons, app_assoc. cbn [write_info_recs].
  destruct (info_rec_lays r p Hr k Hp) as (p1 & -> & Hp1). by apply IH.
Qed.

Lemma cdma_sms_lays p m :
  lays p (responseCdmaSms p (Some (DCdmaSms m)) (sizeof RIL_CDMA_SMS_Message)) (marshal_message false m).
Proof.
  unfold responseCdmaSms. rewrite checked_fits by apply Z.eqb_refl. cbn. unfold write_digits, marshal_message. lay.
Qed.

Lemma write_list_lays {A} (w : P -> list A -> P) (enc : A -> item) sel d l size p :
  0 < size -> sel d = Some l -> (forall p k l, written p k -> written (w p l) (k ++ (enc <$> l))) ->
  lays p (checked p (Some d) (size * count l) (multiple (size * count l) size) (
    let num := size * count l / size in
    k ← elements sel (Some d) num; Done (w (writeInt32 p num) k, 0))) (counted (fun x => [enc x]) l).
Proof.
  intros Hs Hd Hw k Hp. cbv zeta. rewrite checked_fits, div_count, (elements_all sel d l) by eauto using multiple_of. cbn.
  eexists. split; [reflexivity|]. unfold counted. rewrite bind_singleton, (cons_middle (I32 _)), app_assoc.
  apply Hw. eauto with parcel.
Qed.

Lemma signal_ints_lay p l :
  sizeof_int * count l <> sizeof RIL_SignalStrength ->
  lays p (responseRilSignalStrength p (Some (DInts l)) (sizeof_int * count l)) (ints (l ++ replicate (7 - length l) 0)).
Proof.
  intros Hn. unfold responseRilSignalStrength. cbn [is_null andb]. rewrite (proj2 (Z.eqb_neq _ _)), multiple_of by done.
  cbv zeta. rewrite div_count, (elements_all _ (DInts l) l) by done. unfold count. rewrite Nat2Z.id. cbn.
  intros k Hp. eexists. split; [reflexivity|]. unfold ints. rewrite fmap_app, app_assoc. eauto with parcel.
Qed.

Lemma br_lays {A} (f : P -> A -> outcome P) (enc : A -> list item) sel d l p :
  sel d = Some l -> (forall x p, x ∈ l -> lays1 p (f p x) (enc x)) ->
  lays p (let num := sizeof_ptr * count l / sizeof_ptr in
          k ← elements sel (Some d) num; p ← write_all f (writeInt32 p num) k; Done (p, 0)) (counted enc l).
Proof.
  intros Hd Hf. pose proof (list_lays f enc sel d l sizeof_ptr p ltac:(done) Hd Hf) as Hl.
  by rewrite checked_fits in Hl by by apply multiple_of.
Qed.

Lemma respond_lays f d responselen p : answers f d responselen -> lays p (respond version f p d responselen) (layout f d).
Proof.
  intros Ha.
  destruct f, d as [d|]; try destruct d; try done; cbn -[Z.mul sizeof_int sizeof_ptr] in *.
  - subst. by apply (write_list_lays write_ints I32); [..|eauto with parcel].
  - subst. by apply (write_list_lays write_strings str); [..|eauto with parcel].
  - subst. by apply (write_list_lays write_strings str); [..|eauto with parcel].
  - lay.
  - lay.
  - intros k Hp. rewrite app_nil_r. by exists p.
  - destruct Ha as [-> Hc]. apply list_lays; [done..|]. intros c q Hx. apply call_lays. by eapply Forall_forall in Hc.
  - subst. unfold responseSMS. rewrite Z.eqb_refl. lay.
  - subst. unfold responseSIM_IO. rewrite Z.eqb_refl. lay.
  - subst. apply list_lays; [done..|]. intros c q _. unfold marshal_call_forward. lay.
  - destruct Ha as [-> Hs]. rewrite Z.mul_comm. apply list_lays; [done..|]. intros c q _. unfold layout_data_call. lay.
  - subst. unfold responseRaw. cbn [is_null andb]. rewrite (elements_all _ (DBytes b) b) by done. lay.
  - subst. lay.
  - subst. unfold responseSsn. rewrite Z.eqb_refl. lay.
  - destruct Ha as [-> Hn]. unfold responseSimStatus. rewrite checked_fits by done. cbn. rewrite Hn.
    rewrite (elements_all _ _ (applications c)) by done. cbn. 
    set (l := [card_state c; universal_pin_state c; gsm_umts_subscription_app_index c; cdma_subscription_app_index c;
               count (applications c)]).
    apply (lays_after p (write_ints p l) _ (ints l)); [eauto with parcel|].
    rewrite <- (app_nil_r (_ ≫= _)). apply lays_bind; [|intros q k Hq; rewrite app_nil_r; by exists q].
    apply write_all_lays. intros a q _. unfold layout_app. lay.
  - subst. apply br_lays; [done..|]. intros g q _. unfold marshal_gsm. lay.
  - subst. apply br_lays; [done..|]. intros g q _. unfold marshal_cdma. lay.
  - subst. apply cdma_sms_lays.
  - subst. apply list_lays; [done..|]. intros c q _. unfold layout_cell. lay.
  - destruct Ha as (-> & -> & Hm & Hr). unfold responseCdmaInformationRecords. rewrite checked_fits by apply Z.eqb_refl. cbn.
    rewrite Z.min_l, (elements_all _ _ l) by done. apply (lays_after p (writeInt32 p (count l)) _ [_]); [eauto with parcel|].
    by apply info_recs_lay.
  - destruct Ha as [-> Hn]. by apply signal_ints_lay.
  - subst. unfold responseRilSignalStrength. rewrite Z.eqb_refl. lay.
  - destruct Ha as [-> Hn]. unfold responseCallRing, responseCdmaSignalInfoRecord. rewrite Z.eqb_refl, (proj2 (Z.eqb_neq _ _)) by lia. lay.
  - intros k Hp. rewrite app_nil_r. by exists p.
  - destruct Ha as [-> Hn]. unfold responseCdmaSignalInfoRecord. rewrite Z.eqb_refl, (proj2 (Z.eqb_neq _ _)) by lia. lay.
  - subst. unfold responseCdmaCallWaiting. rewrite checked_fits by apply Z.eqb_refl. lay.
Qed.

(** A response function that gets the data it is for, with the length
    that belongs to it, succeeds and appends the layout of the response to the parcel,
    whatever is in the parcel before: counts first, then the members of every element
    in order, strings as UTF-16, NULL strings as absent ones. *)
Theorem response_lays_out f d responselen p l :
  answers f d responselen -> written p l ->
  exists p', respond version f p d responselen = Done (p', 0) /\ written p' (l ++ layout f d).
Proof. intros Ha. by apply respond_lays. Qed.

(** ** Structures that travel in both directions *)

(** The response that carries the payload [q], if there is one. *)
Definition two_way (q : payload) : option (responseFunction * rdata) :=
  match q with
  | PInts l => Some (ResponseInts, DInts l)
  | PStrings (Some l) => Some (ResponseStrings, DStrings l)
  | PString (Some s) => Some (ResponseString, DString s)
  | PRaw (Some b) => Some (ResponseRaw, DBytes b)
  | PCdmaSms m => Some (ResponseCdmaSms, DCdmaSms m)
  | PGsmBr l => Some (ResponseGsmBrSmsCnf, DGsm l)
  | PCdmaBr l => Some (ResponseCdmaBrSmsCnf, DCdma l)
  | _ => None
  end.

Lemma two_way_answers q f d : two_way q = Some (f, d) -> answers f (Some d) (datalen_of version q).
Proof.
  destruct q as [|[s|]|[l|]|l|x|x|x|x|[b|]|m|x y|l|l|x m]; intros [= <- <-]; cbn -[Z.mul sizeof_int sizeof_ptr]; try done;
    lia.
Qed.

Lemma two_way_layout q f d : two_way q = Some (f, d) -> layout f (Some d) = marshal version q.
Proof.
  destruct q as [|[s|]|[l|]|l|x|x|x|x|[b|]|m|x y|l|l|x m]; intros [= <- <-]; cbn; unfold counted; rewrite ?bind_singleton; done.
Qed.

(** C26 (roundtrip). Lists of integers and strings, strings, raw bytes, CDMA messages and
    the two broadcast configurations are laid out in responses as in requests: what a
    response function puts into a fresh parcel, the dispatch function of the same kind
    of structure takes out again unchanged, with the length the vendor gave. *)
Theorem response_reads_back stack q f d t0 ut0 :
  two_way q = Some (f, d) -> wf version stack q ->
  exists p', respond version f p_new (Some d) (datalen_of version q) = Done (p', 0) /\
  exists s', dispatch version stack (function_of q) (mk_locals (setData (data p')) t0 ut0 true) =
    (Request q (datalen_of version q), s') /\ unread (l_parcel s') [].
Proof.
  intros Hq Hw. destruct (respond_lays f (Some d) _ p_new (two_way_answers q f d Hq) [] new_written) as (p' & E & [Hp _]).
  exists p'. split; [done|]. rewrite (two_way_layout q f d Hq) in Hp.
  destruct (dispatch_reads version stack q Hw (mk_locals (setData (data p')) t0 ut0 true) []) as (s' & E' & Hu & _); [|done|].
  { rewrite app_nil_r. by apply data_law. }
  by exists s'.
Qed.

(** ** Data that does not fit *)

(** The lengths a response function takes, and whether it takes NULL. *)
Definition length_ok (f : responseFunction) (n : Z) : bool :=
  match f with
  | ResponseInts => multiple n sizeof_int
  | ResponseStrings | ResponseStringsNetworks | ResponseCallList | ResponseCallForwards | ResponseCellList
  | ResponseSimStatus => multiple n sizeof_ptr
  | ResponseDataCallList => multiple n (sizeof RIL_Data_Call_Response)
  | ResponseSMS => n =? sizeof RIL_SMS_Response
  | ResponseSIM_IO => n =? sizeof RIL_SIM_IO_Response
  | ResponseSsn => n =? sizeof RIL_SuppSvcNotification
  | ResponseCdmaSms => n =? sizeof RIL_CDMA_SMS_Message
  | ResponseCdmaInformationRecords => n =? sizeof RIL_CDMA_InformationRecords
  | ResponseRilSignalStrength => (n =? sizeof RIL_SignalStrength) || multiple n sizeof_int
  | ResponseCallRing => (n =? 0) || (n =? sizeof RIL_CDMA_SignalInfoRecord)
  | ResponseCdmaSignalInfoRecord => negb (n =? 0) && (n =? sizeof RIL_CDMA_SignalInfoRecord)
  | ResponseCdmaCallWaiting => n =? sizeof RIL_CDMA_CallWaiting
  | ResponseString | ResponseVoid | ResponseRaw | ResponseGsmBrSmsCnf | ResponseCdmaBrSmsCnf => true
  end.

Definition null_ok (f : responseFunction) (n : Z) : bool :=
  match f with
  | ResponseSMS | ResponseSIM_IO | ResponseSsn | ResponseCdmaSignalInfoRecord => false
  | ResponseString | ResponseVoid | ResponseCallRing | ResponseGsmBrSmsCnf | ResponseCdmaBrSmsCnf => true
  | _ => n =? 0
  end.

Lemma respond_refuses f d n p :
  is_null d = true /\ null_ok f n = false \/ is_null d = false /\ length_ok f n = false ->
  respond version f p d n = Done (p, RIL_ERRNO_INVALID_RESPONSE).
Proof.
  intros [[Hd Hn]|[Hd Hn]]; destruct d as [d|]; try done; destruct f; cbn in Hn; try done; cbn;
    unfold responseInts, responseStrings, responseCallList, responseSMS, responseDataCallList, responseRaw, responseSIM_IO, responseCallForwards,
      responseSsn, responseCellList, responseCdmaInformationRecords, responseRilSignalStrength, responseCallRing, responseCdmaSignalInfoRecord, responseCdmaCallWaiting,
      responseSimStatus, responseCdmaSms, checked; cbn [is_null andb orb]; rewrite ?Hn; try done.
  - apply orb_false_iff in Hn as [H1' H2']. by rewrite H1', H2'.
  - apply orb_false_iff in Hn as [H1' H2']. unfold responseCdmaSignalInfoRecord. cbn [is_null orb]. by rewrite H1', H2'.
  - destruct (n =? 0); [done|]. cbn in Hn |- *. by rewrite Hn.
Qed.

(** Data that does not fit is refused: NULL where it is not allowed or with a
    length, or a length that is no length of the structure, gives
    RIL_ERRNO_INVALID_RESPONSE, and nothing is read through the pointer and nothing
    written to the parcel. *)
Theorem bad_response_refused f d n p :
  is_null d = true /\ null_ok f n = false \/ is_null d = false /\ length_ok f n = false ->
  respond version f p d n = Done (p, RIL_ERRNO_INVALID_RESPONSE).
Proof. apply respond_refuses. Qed.

(** The checks that are missing: no data of a card status, more applications than the
    structure has, broadcast configurations behind NULL. *)
Lemma card_not_checked p c :
  respond version ResponseSimStatus p None 0 = Undef "NULL or another structure" /\
  (count (applications c) < num_applications c ->
   respond version ResponseSimStatus p (Some (DCard c)) sizeof_ptr = Undef "read behind the response").
Proof.
  split; [done|]. intros Hn. cbn. unfold responseSimStatus. rewrite checked_fits by done. cbn.
  unfold elements, count in *. rewrite (proj2 (Z.leb_gt _ _)) by lia. cbn. by rewrite (proj2 (Z.leb_gt _ _)).
Qed.

Lemma config_not_checked p : respond version ResponseGsmBrSmsCnf p None sizeof_ptr = Undef "NULL or another structure".
Proof. done. Qed.

End layout.

(** ** The theorems at work *)

Import Wire.

#[local] Instance ril_h : RilH :=
  {| sizeof := sizes; RIL_CDMA_SMS_ADDRESS_MAX := 4; RIL_CDMA_SMS_SUBADDRESS_MAX := 2; RIL_CDMA_SMS_BEARER_DATA_MAX := 3 |}.
Definition info_numbers (n : info_name) : Z := match n with RIL_CDMA_DISPLAY_INFO_REC => 0 | RIL_CDMA_SIGNAL_INFO_REC => 5 | _ => 10 end.
#[local] Instance ril_h' : RilH' :=
  {| info_number := info_numbers; RIL_CDMA_MAX_NUMBER_OF_INFO_RECS := 10;
     CDMA_ALPHA_INFO_BUFFER_LENGTH := 64; CDMA_NUMBER_INFO_BUFFER_LENGTH := 81 |}.

(** Two information records: a text in a buffer and a signal. *)
Lemma response_lays_out_witness :
  let d := Some (DInfoRecs 2 [Display false 3 [65; 66; 67; 0; 0];
                              SignalRec {| si_isPresent := 1; si_signalType := 2; si_alertPitch := 0; si_signal := 63 |}]) in
  exists p', respond (P := wire) 3 ResponseCdmaInformationRecords p_new d 20 = Done (p', 0) /\
    written p' ([] ++ layout 3 ResponseCdmaInformationRecords d).
Proof.
  intros d. apply response_lays_out; [|apply new_written]. cbn. split; [done|]. split; [done|]. split; [done|].
  repeat constructor; vm_compute; done.
Defined.

(** A short message with three digits in an array of four. *)
Definition message : cdma_message :=
  {| uTeleserviceID := 4098; bIsServicePresent := 0; uServicecategory := 0; digit_mode := 0; number_mode := 0;
     number_type := 1; number_plan := 0; number_of_digits := 3; digits := [1; 2; 3; 0]; subaddressType := 0; sub_odd := 0;
     sub_number_of_digits := 0; sub_digits := [0; 0]; uBearerDataLen := 5; aBearerData := [7; 8; 9] |}.

Lemma response_reads_back_witness :
  exists p', respond (P := wire) 3 ResponseCdmaSms p_new (Some (DCdmaSms message)) 20 = Done (p', 0) /\
  exists s', dispatch 3 (fun n => n <? 8192) DispatchCdmaSms (mk_locals (setData (data p')) 0 0 true) =
    (Request (PCdmaSms message) 20, s') /\ unread (l_parcel s') [].
Proof.
  change 20 with (datalen_of 3 (PCdmaSms message)).
  apply (response_reads_back (P := wire) 3 (fun n => n <? 8192) (PCdmaSms message) ResponseCdmaSms (DCdmaSms message) 0 0); [done|].
  split; [by_compute|]. split; [split; [reflexivity|vm_compute; lia]|]. split; split; (reflexivity || (vm_compute; lia)).
Defined.

Lemma bad_response_refused_witness :
  respond (P := wire) 3 ResponseStrings p_new (Some (DStrings [None])) 5 = Done (p_new, RIL_ERRNO_INVALID_RESPONSE).
Proof. apply bad_response_refused. right. split; reflexivity. Defined.
