(* ===== verification/RilTables.v ===== *)
(** * Tables of the radio interface (libril/ril_commands.h, ril_unsol_commands.h)

    The tables that libril indexes by request and event number, with the names of the
    enumerators of telephony/ril.h, and [requestToString] of ril.cpp with its table of
    names.  The values of the enumerators are a parameter; RIL_register checks that
    they are the positions in the tables. *)

From S2P Require Import Prelude RilDispatch RilResponse.

Open Scope string_scope.

(** The first row has no functions. *)
Definition s_commands : list (string * option (dispatchFunction * responseFunction)) :=
  [("none", None); ("RIL_REQUEST_GET_SIM_STATUS", Some (DispatchVoid, ResponseSimStatus));
   ("RIL_REQUEST_ENTER_SIM_PIN", Some (DispatchStrings, ResponseInts));
   ("RIL_REQUEST_ENTER_SIM_PUK", Some (DispatchStrings, ResponseInts));
   ("RIL_REQUEST_ENTER_SIM_PIN2", Some (DispatchStrings, ResponseInts));
   ("RIL_REQUEST_ENTER_SIM_PUK2", Some (DispatchStrings, ResponseInts));
   ("RIL_REQUEST_CHANGE_SIM_PIN", Some (DispatchStrings, ResponseInts));
   ("RIL_REQUEST_CHANGE_SIM_PIN2", Some (DispatchStrings, ResponseInts));
   ("RIL_REQUEST_ENTER_NETWORK_DEPERSONALIZATION", Some (DispatchStrings, ResponseInts));
   ("RIL_REQUEST_GET_CURRENT_CALLS", Some (DispatchVoid, ResponseCallList));
   ("RIL_REQUEST_DIAL", Some (DispatchDial, ResponseVoid));
   ("RIL_REQUEST_GET_IMSI", Some (DispatchVoid, ResponseString));
   ("RIL_REQUEST_HANGUP", Some (DispatchInts, ResponseVoid));
   ("RIL_REQUEST_HANGUP_WAITING_OR_BACKGROUND", Some (DispatchVoid, ResponseVoid));
   ("RIL_REQUEST_HANGUP_FOREGROUND_RESUME_BACKGROUND", Some (DispatchVoid, ResponseVoid));
   ("RIL_REQUEST_SWITCH_WAITING_OR_HOLDING_AND_ACTIVE", Some (DispatchVoid, ResponseVoid));
   ("RIL_REQUEST_CONFERENCE", Some (DispatchVoid, ResponseVoid));
   ("RIL_REQUEST_UDUB", Some (DispatchVoid, ResponseVoid));
   ("RIL_REQUEST_LAST_CALL_FAIL_CAUSE", Some (DispatchVoid, ResponseInts));
   ("RIL_REQUEST_SIGNAL_STRENGTH", Some (DispatchVoid, ResponseRilSignalStrength));
   ("RIL_REQUEST_REGISTRATION_STATE", Some (DispatchVoid, ResponseStrings));
   ("RIL_REQUEST_GPRS_REGISTRATION_STATE", Some (DispatchVoid, ResponseStrings));
   ("RIL_REQUEST_OPERATOR", Some (DispatchVoid, ResponseStrings));
   ("RIL_REQUEST_RADIO_POWER", Some (DispatchInts, ResponseVoid));
   ("RIL_REQUEST_DTMF", Some (DispatchString, ResponseVoid));
   ("RIL_REQUEST_SEND_SMS", Some (DispatchStrings, ResponseSMS));
   ("RIL_REQUEST_SEND_SMS_EXPECT_MORE", Some (DispatchStrings, ResponseSMS));
   ("RIL_REQUEST_SETUP_DATA_CALL", Some (DispatchStrings, ResponseStrings));
   ("RIL_REQUEST_SIM_IO", Some (DispatchSIM_IO, ResponseSIM_IO));
   ("RIL_REQUEST_SEND_USSD", Some (DispatchString, ResponseVoid));
   ("RIL_REQUEST_CANCEL_USSD", Some (DispatchVoid, ResponseVoid));
   ("RIL_REQUEST_GET_CLIR", Some (DispatchVoid, ResponseInts));
   ("RIL_REQUEST_SET_CLIR", Some (DispatchInts, ResponseVoid));
   ("RIL_REQUEST_QUERY_CALL_FORWARD_STATUS", Some (DispatchCallForward, ResponseCallForwards));
   ("RIL_REQUEST_SET_CALL_FORWARD", Some (DispatchCallForward, ResponseVoid));
   ("RIL_REQUEST_QUERY_CALL_WAITING", Some (DispatchInts, ResponseInts));
   ("RIL_REQUEST_SET_CALL_WAITING", Some (DispatchInts, ResponseVoid));
   ("RIL_REQUEST_SMS_ACKNOWLEDGE", Some (DispatchInts, ResponseVoid));
   ("RIL_REQUEST_GET_IMEI", Some (DispatchVoid, ResponseString));
   ("RIL_REQUEST_GET_IMEISV", Some (DispatchVoid, ResponseString));
   ("RIL_REQUEST_ANSWER", Some (DispatchVoid, ResponseVoid));
   ("RIL_REQUEST_DEACTIVATE_DATA_CALL", Some (DispatchStrings, ResponseVoid));
   ("RIL_REQUEST_QUERY_FACILITY_LOCK", Some (DispatchStrings, ResponseInts));
   ("RIL_REQUEST_SET_FACILITY_LOCK", Some (DispatchStrings, ResponseInts));
   ("RIL_REQUEST_CHANGE_BARRING_PASSWORD", Some (DispatchStrings, ResponseVoid));
   ("RIL_REQUEST_QUERY_NETWORK_SELECTION_MODE", Some (DispatchVoid, ResponseInts));
   ("RIL_REQUEST_SET_NETWORK_SELECTION_AUTOMATIC", Some (DispatchVoid, ResponseVoid));
   ("RIL_REQUEST_SET_NETWORK_SELECTION_MANUAL", Some (DispatchString, ResponseVoid));
   ("RIL_REQUEST_QUERY_AVAILABLE_NETWORKS", Some (DispatchVoid, ResponseStringsNetworks));
   ("RIL_REQUEST_DTMF_START", Some (DispatchString, ResponseVoid));
   ("RIL_REQUEST_DTMF_STOP", Some (DispatchVoid, ResponseVoid));
   ("RIL_REQUEST_BASEBAND_VERSION", Some (DispatchVoid, ResponseString));
   ("RIL_REQUEST_SEPARATE_CONNECTION", Some (DispatchInts, ResponseVoid));
   ("RIL_REQUEST_SET_MUTE", Some (DispatchInts, ResponseVoid));
   ("RIL_REQUEST_GET_MUTE", Some (DispatchVoid, ResponseInts));
   ("RIL_REQUEST_QUERY_CLIP", Some (DispatchVoid, ResponseInts));
   ("RIL_REQUEST_LAST_DATA_CALL_FAIL_CAUSE", Some (DispatchVoid, ResponseInts));
   ("RIL_REQUEST_DATA_CALL_LIST", Some (DispatchVoid, ResponseDataCallList));
   ("RIL_REQUEST_RESET_RADIO", Some (DispatchVoid, ResponseVoid));
   ("RIL_REQUEST_OEM_HOOK_RAW", Some (DispatchRaw, ResponseRaw));
   ("RIL_REQUEST_OEM_HOOK_STRINGS", Some (DispatchStrings, ResponseStrings));
   ("RIL_REQUEST_SCREEN_STATE", Some (DispatchInts, ResponseVoid));
   ("RIL_REQUEST_SET_SUPP_SVC_NOTIFICATION", Some (DispatchInts, ResponseVoid));
   ("RIL_REQUEST_WRITE_SMS_TO_SIM", Some (DispatchSmsWrite, ResponseInts));
   ("RIL_REQUEST_DELETE_SMS_ON_SIM", Some (DispatchInts, ResponseVoid));
   ("RIL_REQUEST_SET_BAND_MODE", Some (DispatchInts, ResponseVoid));
   ("RIL_REQUEST_QUERY_AVAILABLE_BAND_MODE", Some (DispatchVoid, ResponseInts));
   ("RIL_REQUEST_STK_GET_PROFILE", Some (DispatchVoid, ResponseString));
   ("RIL_REQUEST_STK_SET_PROFILE", Some (DispatchString, ResponseVoid));
   ("RIL_REQUEST_STK_SEND_ENVELOPE_COMMAND", Some (DispatchString, ResponseString));
   ("RIL_REQUEST_STK_SEND_TERMINAL_RESPONSE", Some (DispatchString, ResponseVoid));
   ("RIL_REQUEST_STK_HANDLE_CALL_SETUP_REQUESTED_FROM_SIM", Some (DispatchInts, ResponseVoid));
   ("RIL_REQUEST_EXPLICIT_CALL_TRANSFER", Some (DispatchVoid, ResponseVoid));
   ("RIL_REQUEST_SET_PREFERRED_NETWORK_TYPE", Some (DispatchInts, ResponseVoid));
   ("RIL_REQUEST_GET_PREFERRED_NETWORK_TYPE", Some (DispatchVoid, ResponseInts));
   ("RIL_REQUEST_GET_NEIGHBORING_CELL_IDS", Some (DispatchVoid, ResponseCellList));
   ("RIL_REQUEST_SET_LOCATION_UPDATES", Some (DispatchInts, ResponseVoid));
   ("RIL_REQUEST_CDMA_SET_SUBSCRIPTION", Some (DispatchInts, ResponseVoid));
   ("RIL_REQUEST_CDMA_SET_ROAMING_PREFERENCE", Some (DispatchInts, ResponseVoid));
   ("RIL_REQUEST_CDMA_QUERY_ROAMING_PREFERENCE", Some (DispatchVoid, ResponseInts));
   ("RIL_REQUEST_SET_TTY_MODE", Some (DispatchInts, ResponseVoid));
   ("RIL_REQUEST_QUERY_TTY_MODE", Some (DispatchVoid, ResponseInts));
   ("RIL_REQUEST_CDMA_SET_PREFERRED_VOICE_PRIVACY_MODE", Some (DispatchInts, ResponseVoid));
   ("RIL_REQUEST_CDMA_QUERY_PREFERRED_VOICE_PRIVACY_MODE", Some (DispatchVoid, ResponseInts));
   ("RIL_REQUEST_CDMA_FLASH", Some (DispatchString, ResponseVoid));
   ("RIL_REQUEST_CDMA_BURST_DTMF", Some (DispatchStrings, ResponseVoid));
   ("RIL_REQUEST_CDMA_VALIDATE_AND_WRITE_AKEY", Some (DispatchString, ResponseVoid));
   ("RIL_REQUEST_CDMA_SEND_SMS", Some (DispatchCdmaSms, ResponseSMS));
   ("RIL_REQUEST_CDMA_SMS_ACKNOWLEDGE", Some (DispatchCdmaSmsAck, ResponseVoid));
   ("RIL_REQUEST_GSM_GET_BROADCAST_SMS_CONFIG", Some (DispatchVoid, ResponseGsmBrSmsCnf));
   ("RIL_REQUEST_GSM_SET_BROADCAST_SMS_CONFIG", Some (DispatchGsmBrSmsCnf, ResponseVoid));
   ("RIL_REQUEST_GSM_SMS_BROADCAST_ACTIVATION", Some (DispatchInts, ResponseVoid));
   ("RIL_REQUEST_CDMA_GET_BROADCAST_SMS_CONFIG", Some (DispatchVoid, ResponseCdmaBrSmsCnf));
   ("RIL_REQUEST_CDMA_SET_BROADCAST_SMS_CONFIG", Some (DispatchCdmaBrSmsCnf, ResponseVoid));
   ("RIL_REQUEST_CDMA_SMS_BROADCAST_ACTIVATION", Some (DispatchInts, ResponseVoid));
   ("RIL_REQUEST_CDMA_SUBSCRIPTION", Some (DispatchVoid, ResponseStrings));
   ("RIL_REQUEST_CDMA_WRITE_SMS_TO_RUIM", Some (DispatchRilCdmaSmsWriteArgs, ResponseInts));
   ("RIL_REQUEST_CDMA_DELETE_SMS_ON_RUIM", Some (DispatchInts, ResponseVoid));
   ("RIL_REQUEST_DEVICE_IDENTITY", Some (DispatchVoid, ResponseStrings));
   ("RIL_REQUEST_EXIT_EMERGENCY_CALLBACK_MODE", Some (DispatchVoid, ResponseVoid));
   ("RIL_REQUEST_GET_SMSC_ADDRESS", Some (DispatchVoid, ResponseString));
   ("RIL_REQUEST_SET_SMSC_ADDRESS", Some (DispatchString, ResponseVoid));
   ("RIL_REQUEST_REPORT_SMS_MEMORY_STATUS", Some (DispatchInts, ResponseVoid));
   ("RIL_REQUEST_REPORT_STK_SERVICE_IS_RUNNING", Some (DispatchVoid, ResponseVoid))].

Inductive WakeType := DONT_WAKE | WAKE_PARTIAL.

Definition s_unsolResponses : list (string * responseFunction * WakeType) :=
  [("RIL_UNSOL_RESPONSE_RADIO_STATE_CHANGED", ResponseVoid, WAKE_PARTIAL);
   ("RIL_UNSOL_RESPONSE_CALL_STATE_CHANGED", ResponseVoid, WAKE_PARTIAL);
   ("RIL_UNSOL_RESPONSE_NETWORK_STATE_CHANGED", ResponseVoid, WAKE_PARTIAL);
   ("RIL_UNSOL_RESPONSE_NEW_SMS", ResponseString, WAKE_PARTIAL);
   ("RIL_UNSOL_RESPONSE_NEW_SMS_STATUS_REPORT", ResponseString, WAKE_PARTIAL);
   ("RIL_UNSOL_RESPONSE_NEW_SMS_ON_SIM", ResponseInts, WAKE_PARTIAL);
   ("RIL_UNSOL_ON_USSD", ResponseStrings, WAKE_PARTIAL); ("RIL_UNSOL_ON_USSD_REQUEST", ResponseVoid, DONT_WAKE);
   ("RIL_UNSOL_NITZ_TIME_RECEIVED", ResponseString, WAKE_PARTIAL);
   ("RIL_UNSOL_SIGNAL_STRENGTH", ResponseRilSignalStrength, DONT_WAKE);
   ("RIL_UNSOL_DATA_CALL_LIST_CHANGED", ResponseDataCallList, WAKE_PARTIAL);
   ("RIL_UNSOL_SUPP_SVC_NOTIFICATION", ResponseSsn, WAKE_PARTIAL);
   ("RIL_UNSOL_STK_SESSION_END", ResponseVoid, WAKE_PARTIAL);
   ("RIL_UNSOL_STK_PROACTIVE_COMMAND", ResponseString, WAKE_PARTIAL);
   ("RIL_UNSOL_STK_EVENT_NOTIFY", ResponseString, WAKE_PARTIAL);
   ("RIL_UNSOL_STK_CALL_SETUP", ResponseInts, WAKE_PARTIAL);
   ("RIL_UNSOL_SIM_SMS_STORAGE_FULL", ResponseVoid, WAKE_PARTIAL);
   ("RIL_UNSOL_SIM_REFRESH", ResponseInts, WAKE_PARTIAL); ("RIL_UNSOL_CALL_RING", ResponseCallRing, WAKE_PARTIAL);
   ("RIL_UNSOL_RESPONSE_SIM_STATUS_CHANGED", ResponseVoid, WAKE_PARTIAL);
   ("RIL_UNSOL_RESPONSE_CDMA_NEW_SMS", ResponseCdmaSms, WAKE_PARTIAL);
   ("RIL_UNSOL_RESPONSE_NEW_BROADCAST_SMS", ResponseString, WAKE_PARTIAL);
   ("RIL_UNSOL_CDMA_RUIM_SMS_STORAGE_FULL", ResponseVoid, WAKE_PARTIAL);
   ("RIL_UNSOL_RESTRICTED_STATE_CHANGED", ResponseInts, WAKE_PARTIAL);
   ("RIL_UNSOL_ENTER_EMERGENCY_CALLBACK_MODE", ResponseVoid, WAKE_PARTIAL);
   ("RIL_UNSOL_CDMA_CALL_WAITING", ResponseCdmaCallWaiting, WAKE_PARTIAL);
   ("RIL_UNSOL_CDMA_OTA_PROVISION_STATUS", ResponseInts, WAKE_PARTIAL);
   ("RIL_UNSOL_CDMA_INFO_REC", ResponseCdmaInformationRecords, WAKE_PARTIAL);
   ("RIL_UNSOL_OEM_HOOK_RAW", ResponseRaw, WAKE_PARTIAL); ("RIL_UNSOL_RINGBACK_TONE", ResponseInts, WAKE_PARTIAL);
   ("RIL_UNSOL_RESEND_INCALL_MUTE", ResponseVoid, WAKE_PARTIAL)].

(** The rows of the switch of [requestToString]. *)
Definition request_names : list (string * string) :=
  [("RIL_REQUEST_GET_SIM_STATUS", "GET_SIM_STATUS"); ("RIL_REQUEST_ENTER_SIM_PIN", "ENTER_SIM_PIN");
   ("RIL_REQUEST_ENTER_SIM_PUK", "ENTER_SIM_PUK"); ("RIL_REQUEST_ENTER_SIM_PIN2", "ENTER_SIM_PIN2");
   ("RIL_REQUEST_ENTER_SIM_PUK2", "ENTER_SIM_PUK2"); ("RIL_REQUEST_CHANGE_SIM_PIN", "CHANGE_SIM_PIN");
   ("RIL_REQUEST_CHANGE_SIM_PIN2", "CHANGE_SIM_PIN2");
   ("RIL_REQUEST_ENTER_NETWORK_DEPERSONALIZATION", "ENTER_NETWORK_DEPERSONALIZATION");
   ("RIL_REQUEST_GET_CURRENT_CALLS", "GET_CURRENT_CALLS"); ("RIL_REQUEST_DIAL", "DIAL");
   ("RIL_REQUEST_GET_IMSI", "GET_IMSI"); ("RIL_REQUEST_HANGUP", "HANGUP");
   ("RIL_REQUEST_HANGUP_WAITING_OR_BACKGROUND", "HANGUP_WAITING_OR_BACKGROUND");
   ("RIL_REQUEST_HANGUP_FOREGROUND_RESUME_BACKGROUND", "HANGUP_FOREGROUND_RESUME_BACKGROUND");
   ("RIL_REQUEST_SWITCH_WAITING_OR_HOLDING_AND_ACTIVE", "SWITCH_WAITING_OR_HOLDING_AND_ACTIVE");
   ("RIL_REQUEST_CONFERENCE", "CONFERENCE"); ("RIL_REQUEST_UDUB", "UDUB");
   ("RIL_REQUEST_LAST_CALL_FAIL_CAUSE", "LAST_CALL_FAIL_CAUSE"); ("RIL_REQUEST_SIGNAL_STRENGTH", "SIGNAL_STRENGTH");
   ("RIL_REQUEST_REGISTRATION_STATE", "REGISTRATION_STATE");
   ("RIL_REQUEST_GPRS_REGISTRATION_STATE", "GPRS_REGISTRATION_STATE"); ("RIL_REQUEST_OPERATOR", "OPERATOR");
   ("RIL_REQUEST_RADIO_POWER", "RADIO_POWER"); ("RIL_REQUEST_DTMF", "DTMF"); ("RIL_REQUEST_SEND_SMS", "SEND_SMS");
   ("RIL_REQUEST_SEND_SMS_EXPECT_MORE", "SEND_SMS_EXPECT_MORE"); ("RIL_REQUEST_SETUP_DATA_CALL", "SETUP_DATA_CALL");
   ("RIL_REQUEST_SIM_IO", "SIM_IO"); ("RIL_REQUEST_SEND_USSD", "SEND_USSD");
   ("RIL_REQUEST_CANCEL_USSD", "CANCEL_USSD"); ("RIL_REQUEST_GET_CLIR", "GET_CLIR");
   ("RIL_REQUEST_SET_CLIR", "SET_CLIR"); ("RIL_REQUEST_QUERY_CALL_FORWARD_STATUS", "QUERY_CALL_FORWARD_STATUS");
   ("RIL_REQUEST_SET_CALL_FORWARD", "SET_CALL_FORWARD"); ("RIL_REQUEST_QUERY_CALL_WAITING", "QUERY_CALL_WAITING");
   ("RIL_REQUEST_SET_CALL_WAITING", "SET_CALL_WAITING"); ("RIL_REQUEST_SMS_ACKNOWLEDGE", "SMS_ACKNOWLEDGE");
   ("RIL_REQUEST_GET_IMEI", "GET_IMEI"); ("RIL_REQUEST_GET_IMEISV", "GET_IMEISV"); ("RIL_REQUEST_ANSWER", "ANSWER");
   ("RIL_REQUEST_DEACTIVATE_DATA_CALL", "DEACTIVATE_DATA_CALL");
   ("RIL_REQUEST_QUERY_FACILITY_LOCK", "QUERY_FACILITY_LOCK");
   ("RIL_REQUEST_SET_FACILITY_LOCK", "SET_FACILITY_LOCK");
   ("RIL_REQUEST_CHANGE_BARRING_PASSWORD", "CHANGE_BARRING_PASSWORD");
   ("RIL_REQUEST_QUERY_NETWORK_SELECTION_MODE", "QUERY_NETWORK_SELECTION_MODE");
   ("RIL_REQUEST_SET_NETWORK_SELECTION_AUTOMATIC", "SET_NETWORK_SELECTION_AUTOMATIC");
   ("RIL_REQUEST_SET_NETWORK_SELECTION_MANUAL", "SET_NETWORK_SELECTION_MANUAL");
   ("RIL_REQUEST_QUERY_AVAILABLE_NETWORKS", "QUERY_AVAILABLE_NETWORKS "); ("RIL_REQUEST_DTMF_START", "DTMF_START");
   ("RIL_REQUEST_DTMF_STOP", "DTMF_STOP"); ("RIL_REQUEST_BASEBAND_VERSION", "BASEBAND_VERSION");
   ("RIL_REQUEST_SEPARATE_CONNECTION", "SEPARATE_CONNECTION");
   ("RIL_REQUEST_SET_PREFERRED_NETWORK_TYPE", "SET_PREFERRED_NETWORK_TYPE");
   ("RIL_REQUEST_GET_PREFERRED_NETWORK_TYPE", "GET_PREFERRED_NETWORK_TYPE");
   ("RIL_REQUEST_GET_NEIGHBORING_CELL_IDS", "GET_NEIGHBORING_CELL_IDS"); ("RIL_REQUEST_SET_MUTE", "SET_MUTE");
   ("RIL_REQUEST_GET_MUTE", "GET_MUTE"); ("RIL_REQUEST_QUERY_CLIP", "QUERY_CLIP");
   ("RIL_REQUEST_LAST_DATA_CALL_FAIL_CAUSE", "LAST_DATA_CALL_FAIL_CAUSE");
   ("RIL_REQUEST_DATA_CALL_LIST", "DATA_CALL_LIST"); ("RIL_REQUEST_RESET_RADIO", "RESET_RADIO");
   ("RIL_REQUEST_OEM_HOOK_RAW", "OEM_HOOK_RAW"); ("RIL_REQUEST_OEM_HOOK_STRINGS", "OEM_HOOK_STRINGS");
   ("RIL_REQUEST_SET_BAND_MODE", "SET_BAND_MODE");
   ("RIL_REQUEST_QUERY_AVAILABLE_BAND_MODE", "QUERY_AVAILABLE_BAND_MODE");
   ("RIL_REQUEST_STK_GET_PROFILE", "STK_GET_PROFILE"); ("RIL_REQUEST_STK_SET_PROFILE", "STK_SET_PROFILE");
   ("RIL_REQUEST_STK_SEND_ENVELOPE_COMMAND", "STK_SEND_ENVELOPE_COMMAND");
   ("RIL_REQUEST_STK_SEND_TERMINAL_RESPONSE", "STK_SEND_TERMINAL_RESPONSE");
   ("RIL_REQUEST_STK_HANDLE_CALL_SETUP_REQUESTED_FROM_SIM", "STK_HANDLE_CALL_SETUP_REQUESTED_FROM_SIM");
   ("RIL_REQUEST_SCREEN_STATE", "SCREEN_STATE"); ("RIL_REQUEST_EXPLICIT_CALL_TRANSFER", "EXPLICIT_CALL_TRANSFER");
   ("RIL_REQUEST_SET_LOCATION_UPDATES", "SET_LOCATION_UPDATES");
   ("RIL_REQUEST_CDMA_SET_SUBSCRIPTION", "CDMA_SET_SUBSCRIPTION");
   ("RIL_REQUEST_CDMA_SET_ROAMING_PREFERENCE", "CDMA_SET_ROAMING_PREFERENCE");
   ("RIL_REQUEST_CDMA_QUERY_ROAMING_PREFERENCE", "CDMA_QUERY_ROAMING_PREFERENCE");
   ("RIL_REQUEST_SET_TTY_MODE", "SET_TTY_MODE"); ("RIL_REQUEST_QUERY_TTY_MODE", "QUERY_TTY_MODE");
   ("RIL_REQUEST_CDMA_SET_PREFERRED_VOICE_PRIVACY_MODE", "CDMA_SET_PREFERRED_VOICE_PRIVACY_MODE");
   ("RIL_REQUEST_CDMA_QUERY_PREFERRED_VOICE_PRIVACY_MODE", "CDMA_QUERY_PREFERRED_VOICE_PRIVACY_MODE");
   ("RIL_REQUEST_CDMA_FLASH", "CDMA_FLASH"); ("RIL_REQUEST_CDMA_BURST_DTMF", "CDMA_BURST_DTMF");
   ("RIL_REQUEST_CDMA_SEND_SMS", "CDMA_SEND_SMS"); ("RIL_REQUEST_CDMA_SMS_ACKNOWLEDGE", "CDMA_SMS_ACKNOWLEDGE");
   ("RIL_REQUEST_GSM_GET_BROADCAST_SMS_CONFIG", "GSM_GET_BROADCAST_SMS_CONFIG");
   ("RIL_REQUEST_GSM_SET_BROADCAST_SMS_CONFIG", "GSM_SET_BROADCAST_SMS_CONFIG");
   ("RIL_REQUEST_CDMA_GET_BROADCAST_SMS_CONFIG", "CDMA_GET_BROADCAST_SMS_CONFIG");
   ("RIL_REQUEST_CDMA_SET_BROADCAST_SMS_CONFIG", "CDMA_SET_BROADCAST_SMS_CONFIG");
   ("RIL_REQUEST_CDMA_SMS_BROADCAST_ACTIVATION", "CDMA_SMS_BROADCAST_ACTIVATION");
   ("RIL_REQUEST_CDMA_VALIDATE_AND_WRITE_AKEY", "CDMA_VALIDATE_AND_WRITE_AKEY");
   ("RIL_REQUEST_CDMA_SUBSCRIPTION", "CDMA_SUBSCRIPTION");
   ("RIL_REQUEST_CDMA_WRITE_SMS_TO_RUIM", "CDMA_WRITE_SMS_TO_RUIM");
   ("RIL_REQUEST_CDMA_DELETE_SMS_ON_RUIM", "CDMA_DELETE_SMS_ON_RUIM");
   ("RIL_REQUEST_DEVICE_IDENTITY", "DEVICE_IDENTITY");
   ("RIL_REQUEST_EXIT_EMERGENCY_CALLBACK_MODE", "EXIT_EMERGENCY_CALLBACK_MODE");
   ("RIL_REQUEST_GET_SMSC_ADDRESS", "GET_SMSC_ADDRESS"); ("RIL_REQUEST_SET_SMSC_ADDRESS", "SET_SMSC_ADDRESS");
   ("RIL_REQUEST_REPORT_SMS_MEMORY_STATUS", "REPORT_SMS_MEMORY_STATUS");
   ("RIL_REQUEST_REPORT_STK_SERVICE_IS_RUNNING", "REPORT_STK_SERVICE_IS_RUNNING");
   ("RIL_UNSOL_RESPONSE_RADIO_STATE_CHANGED", "UNSOL_RESPONSE_RADIO_STATE_CHANGED");
   ("RIL_UNSOL_RESPONSE_CALL_STATE_CHANGED", "UNSOL_RESPONSE_CALL_STATE_CHANGED");
   ("RIL_UNSOL_RESPONSE_NETWORK_STATE_CHANGED", "UNSOL_RESPONSE_NETWORK_STATE_CHANGED");
   ("RIL_UNSOL_RESPONSE_NEW_SMS", "UNSOL_RESPONSE_NEW_SMS");
   ("RIL_UNSOL_RESPONSE_NEW_SMS_STATUS_REPORT", "UNSOL_RESPONSE_NEW_SMS_STATUS_REPORT");
   ("RIL_UNSOL_RESPONSE_NEW_SMS_ON_SIM", "UNSOL_RESPONSE_NEW_SMS_ON_SIM"); ("RIL_UNSOL_ON_USSD", "UNSOL_ON_USSD");
   ("RIL_UNSOL_ON_USSD_REQUEST", "UNSOL_ON_USSD_REQUEST(obsolete)");
   ("RIL_UNSOL_NITZ_TIME_RECEIVED", "UNSOL_NITZ_TIME_RECEIVED");
   ("RIL_UNSOL_SIGNAL_STRENGTH", "UNSOL_SIGNAL_STRENGTH"); ("RIL_UNSOL_STK_SESSION_END", "UNSOL_STK_SESSION_END");
   ("RIL_UNSOL_STK_PROACTIVE_COMMAND", "UNSOL_STK_PROACTIVE_COMMAND");
   ("RIL_UNSOL_STK_EVENT_NOTIFY", "UNSOL_STK_EVENT_NOTIFY"); ("RIL_UNSOL_STK_CALL_SETUP", "UNSOL_STK_CALL_SETUP");
   ("RIL_UNSOL_SIM_SMS_STORAGE_FULL", "UNSOL_SIM_SMS_STORAGE_FUL"); ("RIL_UNSOL_SIM_REFRESH", "UNSOL_SIM_REFRESH");
   ("RIL_UNSOL_DATA_CALL_LIST_CHANGED", "UNSOL_DATA_CALL_LIST_CHANGED"); ("RIL_UNSOL_CALL_RING", "UNSOL_CALL_RING");
   ("RIL_UNSOL_RESPONSE_SIM_STATUS_CHANGED", "UNSOL_RESPONSE_SIM_STATUS_CHANGED");
   ("RIL_UNSOL_RESPONSE_CDMA_NEW_SMS", "UNSOL_NEW_CDMA_SMS");
   ("RIL_UNSOL_RESPONSE_NEW_BROADCAST_SMS", "UNSOL_NEW_BROADCAST_SMS");
   ("RIL_UNSOL_CDMA_RUIM_SMS_STORAGE_FULL", "UNSOL_CDMA_RUIM_SMS_STORAGE_FULL");
   ("RIL_UNSOL_RESTRICTED_STATE_CHANGED", "UNSOL_RESTRICTED_STATE_CHANGED");
   ("RIL_UNSOL_ENTER_EMERGENCY_CALLBACK_MODE", "UNSOL_ENTER_EMERGENCY_CALLBACK_MODE");
   ("RIL_UNSOL_CDMA_CALL_WAITING", "UNSOL_CDMA_CALL_WAITING");
   ("RIL_UNSOL_CDMA_OTA_PROVISION_STATUS", "UNSOL_CDMA_OTA_PROVISION_STATUS");
   ("RIL_UNSOL_CDMA_INFO_REC", "UNSOL_CDMA_INFO_REC"); ("RIL_UNSOL_OEM_HOOK_RAW", "UNSOL_OEM_HOOK_RAW");
   ("RIL_UNSOL_RINGBACK_TONE", "UNSOL_RINGBACK_TONE"); ("RIL_UNSOL_RESEND_INCALL_MUTE", "UNSOL_RESEND_INCALL_MUTE")].

Close Scope string_scope.
Open Scope Z_scope.

(** The values of the enumerators. *)
Class RilNumbers := { number : string -> Z; RIL_UNSOL_RESPONSE_BASE : Z; RIL_VERSION : Z }.

Section tables.
Context `{RilNumbers}.

Fixpoint switch (request : Z) (l : list (string * string)) : string :=
  match l with
  | [] => "<unknown request>"%string
  | (n, s) :: l => if number n =? request then s else switch request l
  end.

Definition requestToString (request : Z) : string := switch request request_names.

(** The number in a row of [s_commands]. *)
Definition command_number (n : string) : Z := if decide (n = "none"%string) then 0 else number n.

Definition unsol_name (row : string * responseFunction * WakeType) : string := row.1.1.

(** The asserts of [RIL_register]. *)
Definition self_check : bool :=
  forallb (fun '(i, row) => command_number row.1 =? Z.of_nat i) (imap pair s_commands) &&
  forallb (fun '(i, row) => number (unsol_name row) =? Z.of_nat i + RIL_UNSOL_RESPONSE_BASE) (imap pair s_unsolResponses).

(** ** The names *)

(** The name of a request is its enumerator without the prefix, but four requests have
    none and one has a space behind it. *)
Definition request_name (n : string) : string :=
  if decide (n ∈ ["RIL_REQUEST_SET_SUPP_SVC_NOTIFICATION"; "RIL_REQUEST_WRITE_SMS_TO_SIM";
                  "RIL_REQUEST_DELETE_SMS_ON_SIM"; "RIL_REQUEST_GSM_SMS_BROADCAST_ACTIVATION"]%string)
  then "<unknown request>"%string
  else if decide (n = "RIL_REQUEST_QUERY_AVAILABLE_NETWORKS"%string) then "QUERY_AVAILABLE_NETWORKS "%string
  else String.substring 12 (String.length n) n.

Definition event_name (n : string) : string :=
  if decide (n = "RIL_UNSOL_SUPP_SVC_NOTIFICATION"%string) then "<unknown request>"%string
  else if decide (n = "RIL_UNSOL_ON_USSD_REQUEST"%string) then "UNSOL_ON_USSD_REQUEST(obsolete)"%string
  else if decide (n = "RIL_UNSOL_SIM_SMS_STORAGE_FULL"%string) then "UNSOL_SIM_SMS_STORAGE_FUL"%string
  else if decide (n = "RIL_UNSOL_RESPONSE_CDMA_NEW_SMS"%string) then "UNSOL_NEW_CDMA_SMS"%string
  else if decide (n = "RIL_UNSOL_RESPONSE_NEW_BROADCAST_SMS"%string) then "UNSOL_NEW_BROADCAST_SMS"%string
  else String.substring 4 (String.length n) n.

(** Where a name stands: [inl i] in [s_commands], [inr k] in [s_unsolResponses]. *)
Fixpoint position (n : string) (l : list string) (i : nat) : option nat :=
  match l with
  | [] => None
  | m :: l => if decide (n = m) then Some i else position n l (S i)
  end.

Definition place (n : string) : option (nat + nat) :=
  match position n s_commands.*1 0 with
  | Some i => Some (inl i)
  | None => inr <$> position n (unsol_name <$> s_unsolResponses) 0
  end.

Definition at_place (p : nat + nat) : Z :=
  match p with inl i => Z.of_nat i | inr k => Z.of_nat k + RIL_UNSOL_RESPONSE_BASE end.

Definition placed (l : list (string * string)) : list (option (nat + nat) * string) := prod_map place id <$> l.
Definition placed_names : list (option (nat + nat) * string) := Eval vm_compute in placed request_names.

Fixpoint switch_place (p : nat + nat) (l : list (option (nat + nat) * string)) : string :=
  match l with
  | [] => "<unknown request>"%string
  | (q, s) :: l => if decide (q = Some p) then s else switch_place p l
  end.

Lemma position_lookup n l i j : position n l i = Some j -> (i <= j)%nat /\ l !! (j - i)%nat = Some n.
Proof.
  revert i. induction l as [|m l IH]; intros i; cbn; [done|]. destruct (decide (n = m)) as [->|Hn].
  - intros [= <-]. by rewrite Nat.sub_diag.
  - intros [Hi Hl]%IH. split; [lia|]. by replace (j - i)%nat with (S (j - S i))%nat by lia.
Qed.

Lemma forallb_imap {A} (f : nat -> A -> bool) l i x :
  forallb (fun '(i, x) => f i x) (imap pair l) = true -> l !! i = Some x -> f i x = true.
Proof.
  intros Hf Hx. assert ((i, x) ∈ imap pair l) as Hin.
  { apply (list_elem_of_lookup_2 _ i). by rewrite list_lookup_imap, Hx. }
  rewrite forallb_True in Hf || rewrite forallb_forall in Hf. apply list_elem_of_In in Hin. by apply (Hf (i, x)).
Qed.

Hypothesis checked : self_check = true.

Lemma place_number n p : n <> "none"%string -> place n = Some p -> number n = at_place p.
Proof.
  intros Hn. unfold place. apply andb_true_iff in checked as [Hc Hu].
  destruct (position n s_commands.*1 0) as [i|] eqn:E; [intros [= <-]|].
  - apply position_lookup in E as [_ E]. rewrite Nat.sub_0_r, list_lookup_fmap in E.
    destruct (s_commands !! i) as [row|] eqn:Ei; [|done]. injection E as <-.
    pose proof (forallb_imap (fun i row => command_number row.1 =? Z.of_nat i) _ _ _ Hc Ei) as Hr.
    unfold command_number in Hr. rewrite decide_False in Hr by done. by apply Z.eqb_eq.
  - intros Hp. apply fmap_Some in Hp as (k & Ek & ->).
    apply position_lookup in Ek as [_ Ek]. rewrite Nat.sub_0_r, list_lookup_fmap in Ek.
    destruct (s_unsolResponses !! k) as [row|] eqn:Er; [|done]. injection Ek as <-.
    pose proof (forallb_imap (fun i row => number (unsol_name row) =? Z.of_nat i + RIL_UNSOL_RESPONSE_BASE) _ _ _ Hu Er) as Hr.
    by apply Z.eqb_eq.
Qed.

Definition in_tables (p : nat + nat) : Prop := match p with inl i => (i < length s_commands)%nat | inr _ => True end.

Hypothesis events_above : Z.of_nat (length s_commands) <= RIL_UNSOL_RESPONSE_BASE.

Lemma at_place_inj p q : in_tables p -> in_tables q -> at_place p = at_place q -> p = q.
Proof. destruct p as [i|i], q as [k|k]; unfold in_tables, at_place; intros; f_equal; lia. Qed.

Lemma position_bound n l i j : position n l i = Some j -> (j < i + length l)%nat.
Proof. intros [Hi Hl]%position_lookup. apply lookup_lt_Some in Hl. lia. Qed.

Lemma place_in_tables n p : place n = Some p -> in_tables p.
Proof.
  unfold place. destruct (position n s_commands.*1 0) as [i|] eqn:E; [intros [= <-]|].
  - apply position_bound in E. by rewrite length_fmap in E.
  - intros Hp. apply fmap_Some in Hp as (k & _ & ->). done.
Qed.

Lemma switch_places p l :
  in_tables p -> Forall (fun '(n, s) => n <> "none"%string /\ is_Some (place n)) l ->
  switch (at_place p) l = switch_place p (placed l).
Proof.
  intros Hp. induction 1 as [|[n s] l [Hn [q Hq]] Hl IH]; [done|]. cbn. rewrite (place_number n q Hn Hq), Hq.
  destruct (Z.eqb_spec (at_place q) (at_place p)) as [E|E].
  - apply at_place_inj in E as ->; [by rewrite decide_True|by eapply place_in_tables|done].
  - rewrite decide_False; [done|]. intros [= ->]. done.
Qed.

Lemma names_placed : Forall (fun '(n, s) => n <> "none"%string /\ is_Some (place n)) request_names.
Proof. by_compute. Qed.

Lemma all_names :
  forallb (fun '(i, row) => bool_decide (i = 0%nat \/ switch_place (inl i) placed_names = request_name row.1)) (imap pair s_commands) &&
  forallb (fun '(k, row) => bool_decide (switch_place (inr k) placed_names = event_name (unsol_name row))) (imap pair s_unsolResponses) = true.
Proof. vm_compute. reflexivity. Qed.

(** Once the self-check of RIL_register has passed, [requestToString]
    knows every request by its enumerator's name and every event by its own, apart from
    the rows that [request_name] and [event_name] list: four requests and one event are
    unknown to it, one name has a space behind it and four names differ. *)
Theorem names_of_requests :
  (forall i n fs, (0 < i)%nat -> s_commands !! i = Some (n, fs) -> requestToString (Z.of_nat i) = request_name n) /\
  (forall k n f w, s_unsolResponses !! k = Some (n, f, w) ->
     requestToString (RIL_UNSOL_RESPONSE_BASE + Z.of_nat k) = event_name n).
Proof.
  destruct (andb_prop _ _ all_names) as [Hc Hu]. split.
  - intros i n fs Hi Hl. pose proof (forallb_imap (fun i row => bool_decide (i = 0%nat \/ switch_place (inl i) placed_names =
      request_name row.1)) _ _ _ Hc Hl) as Hr. apply bool_decide_eq_true in Hr as [?|Hr]; [lia|].
    transitivity (switch_place (inl i) placed_names); [|exact Hr].
    apply (switch_places (inl i) request_names); [|apply names_placed]. by eapply lookup_lt_Some.
  - intros k n f w Hl. pose proof (forallb_imap (fun k row => bool_decide (switch_place (inr k) placed_names =
      event_name (unsol_name row))) _ _ _ Hu Hl) as Hr. apply bool_decide_eq_true in Hr.
    rewrite Z.add_comm. transitivity (switch_place (inr k) placed_names); [|done].
    apply (switch_places (inr k) request_names); [done|apply names_placed].
Qed.

End tables.

(** The numbers of telephony/ril.h are the positions in the tables. *)
#[local] Instance by_place : RilNumbers :=
  {| number n := match place n with Some (inl i) => Z.of_nat i | Some (inr k) => Z.of_nat k + 1000 | None => -1 end;
     RIL_UNSOL_RESPONSE_BASE := 1000; RIL_VERSION := 3 |}.

Lemma names_of_requests_witness :
  self_check = true /\ requestToString 10 = "DIAL"%string /\ requestToString 1008 = "UNSOL_NITZ_TIME_RECEIVED"%string.
Proof.
  assert (self_check = true) as Hs by (vm_compute; reflexivity). split; [done|].
  assert (Z.of_nat (length s_commands) <= RIL_UNSOL_RESPONSE_BASE) as Hb by (vm_compute; done).
  destruct (names_of_requests Hs Hb) as [Hc Hu]. split.
  - apply (Hc 10%nat "RIL_REQUEST_DIAL"%string (Some (DispatchDial, ResponseVoid))); [lia|reflexivity].
  - apply (Hu 8%nat "RIL_UNSOL_NITZ_TIME_RECEIVED"%string ResponseString WAKE_PARTIAL). reflexivity.
Defined.
