(* ===== verification/AdbClient.v ===== *)
(** * The client side of the adb server's protocol (tools/adb/adb_client.c)

    A request is four hexadecimal digits of length and a service name; the answer
    is OKAY, or FAIL with a message.  Connections are descriptors with the results
    their reads and writes will have (see Io) and the bytes sent so far; the server
    is [Host], which accepts connections and can be launched.  A call that waits
    for ever is [Stop].  The theorems show that a query brings back what the server
    answers, that the server's reasons for a failure are what adb_error gives, and
    that connections are closed on every path that fails. *)

From S2P Require Import Prelude Io Sockets.

Class Host (W : Type) := {
  h_connect : W -> Z -> option (list Io.rd * list Io.wr) * W;   (* socket_loopback_client *)
  h_launch : W -> Z -> bool * W                                  (* launch_server; true: failed *)
}.

Definition ADB_SERVER_VERSION : Z := 26.
Definition LOCAL_CLIENT_PREFIX : bytes := bs "emulator-".

(** ** Numbers in text *)

(** The digits at the start of [l] in base [base], and whether there are any. *)
Fixpoint digits (base : Z) (l : bytes) (acc : Z) (seen : bool) : Z * bool :=
  match l with
  | c :: l' =>
      match Sockets.unhex_digit c with
      | Some v => if v <? base then digits base l' (acc * base + v) true else (acc, seen)
      | None => (acc, seen)
      end
  | [] => (acc, seen)
  end.

Definition split_sign (l : bytes) : bool * bytes :=
  match l with
  | c :: l' => if c =? 45 then (true, l') else if c =? 43 then (false, l') else (false, l)
  | [] => (false, [])
  end.

(** A prefix 0x counts when a hexadecimal digit follows. *)
Definition skip_0x (l : bytes) : bytes :=
  match l with
  | z :: x :: d :: l' =>
      if (z =? 48) && ((x =? 120) || (x =? 88)) && bool_decide (is_Some (Sockets.unhex_digit d)) then d :: l' else l
  | _ => l
  end.

(** strtoul with base 16; [None]: no digits. *)
Definition hex_number (l : bytes) : option Z :=
  let '(neg, l) := split_sign l in
  let '(v, seen) := digits 16 (skip_0x l) 0 false in
  if seen then Some (u64 (if neg : bool then - v else v)) else None.
Definition strtoul16 (l : bytes) : Z := default 0 (hex_number (skip_space l)).

(** sscanf with %04x: at most four characters after white space. *)
Definition sscanf_04x (l : bytes) : option Z := u32 <$> hex_number (take 4 (skip_space l)).

(** strtol with base 10. *)
Definition strtol10 (l : bytes) : Z :=
  let '(neg, l) := split_sign (skip_space l) in
  let '(v, _) := digits 10 l 0 false in
  if neg : bool then Z.max (- 2 ^ 63) (- v) else Z.min (2 ^ 63 - 1) v.

Definition hex2 (n : Z) : bytes := [Sockets.hex_digit (n / 16 mod 16); Sockets.hex_digit (n mod 16)].

(** ** Connections *)

Record conn := mk_conn { reads : list Io.rd; writes : list Io.wr; sent : bytes }.

Section client.
Context {W : Type} `{Host W}.

(** The static variables: what adb_set_transport and adb_set_tcp_specifics set. *)
Record settings := mk_settings { adb_transport : Sockets.transport_type; adb_serial : option bytes; adb_server_port : Z }.
Context (g : settings).

(** The open connections, the message of adb_error, the connections that were
    closed, and every descriptor given to adb_close. *)
Record client := mk_client {
  conns : gmap Z conn; next_fd : Z; adb_error : bytes; world : W;
  finished : list conn; closes : list Z
}.

Definition put_conn (c : client) (fd : Z) (k : conn) : client :=
  mk_client (<[fd := k]> (conns c)) (next_fd c) (adb_error c) (world c) (finished c) (closes c).
Definition put_error (c : client) (m : bytes) : client :=
  mk_client (conns c) (next_fd c) m (world c) (finished c) (closes c).
Definition put_world (c : client) (w : W) : client :=
  mk_client (conns c) (next_fd c) (adb_error c) w (finished c) (closes c).

(** [None] and [false]: -1. *)
Definition readx (c : client) (fd : Z) (n : nat) : outcome (option bytes * client) :=
  match conns c !! fd with
  | None => Done (None, c)
  | Some k =>
      match Io.readx (reads k) n with
      | Io.RxOk d s => Done (Some d, put_conn c fd (mk_conn s (writes k) (sent k)))
      | Io.RxErr s => Done (None, put_conn c fd (mk_conn s (writes k) (sent k)))
      | _ => Stop "waits for ever"
      end
  end.

Definition writex (c : client) (fd : Z) (d : bytes) : outcome (bool * client) :=
  match conns c !! fd with
  | None => Done (false, c)
  | Some k =>
      match Io.writex (writes k) d with
      | Io.TxOk out l => Done (true, put_conn c fd (mk_conn (reads k) l (sent k ++ out)))
      | Io.TxErr out l => Done (false, put_conn c fd (mk_conn (reads k) l (sent k ++ out)))
      | _ => Stop "waits for ever"
      end
  end.

Definition adb_close (c : client) (fd : Z) : client :=
  mk_client (delete fd (conns c)) (next_fd c) (adb_error c) (world c)
    (finished c ++ from_option (fun k => [k]) [] (conns c !! fd)) (closes c ++ [fd]).

Definition socket_loopback_client (c : client) : option Z * client :=
  match h_connect (world c) (adb_server_port g) with
  | (None, w) => (None, put_world c w)
  | (Some (r, wr), w) =>
      (Some (next_fd c), mk_client (<[next_fd c := mk_conn r wr []]> (conns c)) (next_fd c + 1) (adb_error c) w (finished c) (closes c))
  end.

(** ** The protocol *)

Definition adb_status (c : client) (fd : Z) : outcome (Z * client) :=
  '(r, c) ← readx c fd 4;
  match r with
  | None => Done (-1, put_error c (bs "protocol fault (no status)"))
  | Some buf =>
      if decide (buf = bs "OKAY") then Done (0, c)
      else if decide (buf <> bs "FAIL") then
        Done (-1, put_error c (bs "protocol fault (status " ++ hex2 (nth 0 buf 0) ++ [32] ++ hex2 (nth 1 buf 0) ++ [32] ++
                               hex2 (nth 2 buf 0) ++ [32] ++ hex2 (nth 3 buf 0) ++ bs "?!)"))
      else
        '(r, c) ← readx c fd 4;
        match r with
        | None => Done (-1, put_error c (bs "protocol fault (status len)"))
        | Some buf =>
            let len := u32 (strtoul16 (until_nul buf)) in
            let len := if 255 <? len then 255 else len in
            '(r, c) ← readx c fd (Z.to_nat len);
            match r with
            | None => Done (-1, put_error c (bs "protocol fault (status read)"))
            | Some m => Done (-1, put_error c (until_nul m))
            end
        end
  end.

(** The request of switch_socket_transport, cut to its buffer of 64; [None]: no
    switch is needed. *)
Definition transport_service : option bytes :=
  match adb_serial g with
  | Some serial => Some (take 63 (bs "host:transport:" ++ serial))
  | None =>
      match adb_transport g with
      | Sockets.kTransportUsb => Some (bs "host:transport-usb")
      | Sockets.kTransportLocal => Some (bs "host:transport-local")
      | Sockets.kTransportAny => Some (bs "host:transport-any")
      | Sockets.kTransportHost => None
      end
  end.

(** The length and the service: [false] when a write failed. *)
Definition send_request (c : client) (fd : Z) (service : bytes) : outcome (bool * client) :=
  '(ok, c) ← writex c fd (Sockets.hex4 (Z.of_nat (length service)));
  if ok : bool then writex c fd service else Done (false, c).

Definition switch_socket_transport (c : client) (fd : Z) : outcome (Z * client) :=
  match transport_service with
  | None => Done (0, c)
  | Some service =>
      '(ok, c) ← send_request c fd service;
      if negb ok then Done (-1, adb_close (put_error c (bs "write failure during connection")) fd)
      else
        '(r, c) ← adb_status c fd;
        if negb (r =? 0) then Done (-1, adb_close c fd) else Done (0, c)
  end.

Definition is_host (service : bytes) : bool := bool_decide (take 4 service = bs "host").

Definition _adb_connect (c : client) (service : bytes) : outcome (Z * client) :=
  let len := Z.of_nat (length service) in
  if (len <? 1) || (1024 <? len) then Done (-1, put_error c (bs "service name too long"))
  else
    match socket_loopback_client c with
    | (None, c) => Done (-2, put_error c (bs "cannot connect to daemon"))
    | (Some fd, c) =>
        '(r, c) ← (if is_host service then Done (0, c) else switch_socket_transport c fd);
        if negb (r =? 0) then Done (-1, c)
        else
          '(ok, c) ← send_request c fd service;
          if negb ok then Done (-1, adb_close (put_error c (bs "write failure during connection")) fd)
          else
            '(r, c) ← adb_status c fd;
            if negb (r =? 0) then Done (-1, adb_close c fd) else Done (fd, c)
    end.

(** The version that a server reports, read into buf[100]; [garbage] is what the
    buffer held.  [inl r]: adb_connect returns [r]. *)
Definition read_version (c : client) (fd : Z) (garbage : bytes) : outcome ((Z + Z) * client) :=
  '(r, c) ← readx c fd 4;
  match r with
  | None => Done (inl (-1), adb_close c fd)
  | Some buf =>
      let n := i32 (strtoul16 (until_nul buf)) in
      if 100 <? n then Done (inl (-1), adb_close c fd)
      else if n <? 0 then Undef "buf"
      else
        '(r, c) ← readx c fd (Z.to_nat n);
        match r with
        | None => Done (inl (-1), adb_close c fd)
        | Some d =>
            let c := adb_close c fd in
            match sscanf_04x (until_nul (d ++ drop (length d) (buf ++ 0 :: garbage))) with
            | None => Done (inl (-1), adb_close c fd)
            | Some v => Done (inr (i32 v), c)
            end
        end
  end.

(** From the label start_server on. *)
Definition start_server (c : client) : bool * client :=
  let '(failed, w) := h_launch (world c) (adb_server_port g) in (failed, put_world c w).

Definition finish_connect (c : client) (service : bytes) : outcome (Z * client) :=
  if decide (service = bs "host:start-server") then Done (0, c) else _adb_connect c service.

Definition launch_and_connect (c : client) (service : bytes) : outcome (Z * client) :=
  let '(failed, c) := start_server c in
  if failed : bool then Done (-1, c) else finish_connect c service.

Definition adb_connect (c : client) (service garbage : bytes) : outcome (Z * client) :=
  '(fd, c) ← _adb_connect c (bs "host:version");
  if fd =? -2 then launch_and_connect c service
  else
    '(v, c) ← (if 0 <=? fd then read_version c fd garbage
               else if decide (adb_error c <> bs "unknown host service") then Done (inl fd, c)
               else Done (inr (ADB_SERVER_VERSION - 1), c));
    match v with
    | inl r => Done (r, c)
    | inr version =>
        if negb (version =? ADB_SERVER_VERSION) then
          '(fd, c) ← _adb_connect c (bs "host:kill");
          launch_and_connect (adb_close c fd) service
        else finish_connect c service
    end.

Definition adb_command (c : client) (service garbage : bytes) : outcome (Z * client) :=
  '(fd, c) ← adb_connect c service garbage;
  if fd <? 0 then Done (-1, c)
  else
    '(r, c) ← adb_status c fd;
    if negb (r =? 0) then Done (-1, adb_close c fd) else Done (0, c).

Definition adb_query (c : client) (service garbage : bytes) : outcome (option bytes * client) :=
  '(fd, c) ← adb_connect c service garbage;
  if fd <? 0 then Done (None, c)
  else
    '(r, c) ← readx c fd 4;
    match r with
    | None => Done (None, adb_close c fd)
    | Some buf =>
        let n := u32 (strtoul16 (until_nul buf)) in
        if 1024 <? n then Done (None, adb_close c fd)
        else
          '(r, c) ← readx c fd (Z.to_nat n);
          match r with
          | Some d => Done (Some (until_nul d), adb_close c fd)
          | None => Done (None, adb_close c fd)
          end
    end.

(** ** The console port of the emulator *)

(** The loop over the lines of the device list: the emulator found so far. *)
Fixpoint find_emulator (fuel : nat) (p : bytes) (serial : option bytes) : option (Z + option bytes) :=
  match fuel, p with
  | _, [] => Some (inr serial)
  | O, _ => None
  | S fuel, _ =>
      let '(line, q) := default (p, []) (Sockets.split_at 10 p) in
      if bool_decide (take 9 line = LOCAL_CLIENT_PREFIX) then
        match serial with
        | Some _ => Some (inl (-2))
        | None => find_emulator fuel q (Some line)
        end
      else find_emulator fuel q serial
  end.

(** The serial found points into the text, which is freed before it is read. *)
Definition adb_get_emulator_console_port (c : client) (garbage : bytes) : outcome (Z * client) :=
  match adb_serial g with
  | None =>
      '(tmp, c) ← adb_query c (bs "host:devices") garbage;
      match tmp with
      | None => Done (-1, c)
      | Some tmp =>
          match find_emulator (S (length tmp)) tmp None with
          | None => Stop "fuel"
          | Some (inl r) => Done (r, c)
          | Some (inr None) => Done (-1, c)
          | Some (inr (Some _)) => Undef "serial"
          end
      end
  | Some serial =>
      if bool_decide (take 9 serial = LOCAL_CLIENT_PREFIX) then Done (i32 (strtol10 (drop 9 serial)), c)
      else Done (-1, c)
  end.

End client.
Arguments client : clear implicits.

(** ** Four hexadecimal digits *)

Section hex.
Import Sockets.

Lemma hex_digit_spec d :
  0 <= d < 16 ->
  unhex_digit (hex_digit d) = Some d /\ (48 <= hex_digit d <= 102 /\ hex_digit d <> 88) /\ hex_digit d <> 0 /\
  is_space (hex_digit d) = false /\ hex_digit d <> 45 /\ hex_digit d <> 43.
Proof.
  intros Hd. assert (In d (map Z.of_nat (seq 0 16))) as Hin.
  { apply in_map_iff. exists (Z.to_nat d). split; [lia|]. apply in_seq. lia. }
  cbn in Hin. repeat destruct Hin as [<-|Hin]; by vm_compute || (vm_compute; split_and!; done).
Qed.

(** The digits of a number below 2^16. *)
Lemma hex4_spec n :
  0 <= n < 65536 ->
  exists a b c d, hex4 n = [hex_digit a; hex_digit b; hex_digit c; hex_digit d] /\
    0 <= a < 16 /\ 0 <= b < 16 /\ 0 <= c < 16 /\ 0 <= d < 16 /\ n = ((a * 16 + b) * 16 + c) * 16 + d.
Proof.
  intros Hn. exists (n / 4096 mod 16), (n / 256 mod 16), (n / 16 mod 16), (n mod 16). split; [done|].
  assert (forall x, 0 <= x mod 16 < 16) as Hm by (intros x; apply Z.mod_pos_bound; lia). do 4 (split; [apply Hm|]).
  rewrite (Z.mod_small (n / 4096)) by (split; [apply Z.div_pos; lia|apply Z.div_lt_upper_bound; lia]).
  assert (n / 256 = 16 * (n / 4096) + n / 256 mod 16) as E1.
  { replace (n / 4096) with (n / 256 / 16) by (by rewrite Z.div_div by lia). apply Z.div_mod. lia. }
  assert (n / 16 = 16 * (n / 256) + n / 16 mod 16) as E2.
  { replace (n / 256) with (n / 16 / 16) by (by rewrite Z.div_div by lia). apply Z.div_mod. lia. }
  assert (n = 16 * (n / 16) + n mod 16) as E3 by (apply Z.div_mod; lia). lia.
Qed.

Lemma hex4_length n : length (hex4 n) = 4%nat.
Proof. done. Qed.

Lemma hex4_no_nul n : 0 <= n < 65536 -> no_nul (hex4 n).
Proof.
  intros Hn. destruct (hex4_spec n Hn) as (a & b & c & d & -> & Ha & Hb & Hc & Hd & _).
  repeat constructor; by apply hex_digit_spec.
Qed.

(** What the client's and the server's readers make of them. *)
Lemma hex4_number n : 0 <= n < 65536 -> hex_number (hex4 n) = Some n /\ skip_space (hex4 n) = hex4 n.
Proof.
  intros Hn. destruct (hex4_spec n Hn) as (a & b & c & d & -> & Ha & Hb & Hc & Hd & ->).
  destruct (hex_digit_spec a Ha) as (Ua & Ra & _ & Sa & Na & Pa), (hex_digit_spec b Hb) as (Ub & [Rb Xb] & _),
    (hex_digit_spec c Hc) as (Uc & _), (hex_digit_spec d Hd) as (Ud & _).
  split; [|cbn; by rewrite Sa].
  unfold hex_number, split_sign. rewrite (proj2 (Z.eqb_neq _ _) Na), (proj2 (Z.eqb_neq _ _) Pa).
  unfold skip_0x. rewrite (proj2 (Z.eqb_neq (hex_digit b) 120)), (proj2 (Z.eqb_neq (hex_digit b) 88)) by (lia || done).
  rewrite andb_false_r. cbn [andb digits]. rewrite Ua, Ub, Uc, Ud.
  rewrite (proj2 (Z.ltb_lt a 16)), (proj2 (Z.ltb_lt b 16)), (proj2 (Z.ltb_lt c 16)), (proj2 (Z.ltb_lt d 16)) by lia.
  f_equal. rewrite u64_small; lia.
Qed.

Lemma strtoul16_hex4 n : 0 <= n < 65536 -> strtoul16 (until_nul (hex4 n)) = n.
Proof.
  intros Hn. rewrite until_nul_id by (by apply hex4_no_nul). unfold strtoul16. destruct (hex4_number n Hn) as [E ->]. by rewrite E.
Qed.

Lemma unhex_hex4 n rest : 0 <= n < 65536 -> unhex (hex4 n ++ rest) 4 0 = n.
Proof.
  intros Hn. destruct (hex4_spec n Hn) as (a & b & c & d & -> & Ha & Hb & Hc & Hd & ->).
  cbn [app unhex]. rewrite (proj1 (hex_digit_spec a Ha)), (proj1 (hex_digit_spec b Hb)), (proj1 (hex_digit_spec c Hc)), (proj1 (hex_digit_spec d Hd)).
  assert (forall x y, 0 <= x < 2 ^ 28 -> 0 <= y < 16 -> Z.lor (u32 (Z.shiftl x 4)) y = x * 16 + y) as Hs.
  { intros x y Hx Hy. rewrite Z.shiftl_mul_pow2 by lia. rewrite u32_small by lia. change (x * 2 ^ 4) with (x * 2 ^ 4). by rewrite lor_add by lia. }
  rewrite (Hs 0 a), (Hs _ b), (Hs _ c), (Hs _ d) by lia. by destruct rest.
Qed.
End hex.

(** ** Connections that answer *)

(** Write results until the first failure; each takes at least one byte. *)
Fixpoint takes (w : list Io.wr) : nat :=
  match w with
  | Io.WTake _ :: w => S (takes w)
  | Io.WErr EINTR :: w => takes w
  | _ => 0
  end.

Lemma write_loop_takes fuel w p sent :
  (length w < fuel)%nat -> (length p <= takes w)%nat ->
  exists w', Io.write_loop fuel w p sent = Io.TxOk (sent ++ p) w' /\ (takes w - length p <= takes w')%nat.
Proof.
  revert w p sent. induction fuel as [|fuel IH]; intros w p sent Hf Hp; [lia|].
  destruct p as [|x p]; [exists w; rewrite app_nil_r; split; [done|cbn; lia]|].
  cbn [Io.write_loop]. destruct w as [|[n| |e] w]; cbn [takes] in Hp; try (cbn in Hp; lia).
  - cbn [Io.adb_write]. set (r := Nat.min (S n) (length (x :: p))).
    assert (0 < r <= length (x :: p))%nat by (unfold r; cbn [length]; lia).
    destruct (IH w (drop r (x :: p)) (sent ++ take r (x :: p))) as (w' & E & Hw').
    + cbn in Hf. lia.
    + rewrite length_drop. lia.
    + exists w'. rewrite E, <- app_assoc, take_drop. split; [done|]. rewrite length_drop in Hw'. cbn [takes]. lia.
  - destruct e; try (cbn in Hp; lia). cbn [Io.adb_write]. destruct (IH w (x :: p) sent) as (w' & E & Hw'); [cbn in Hf; lia|done|].
    exists w'. by split.
Qed.

Lemma writex_takes w p :
  (length p <= takes w)%nat -> exists w', Io.writex w p = Io.TxOk p w' /\ (takes w - length p <= takes w')%nat.
Proof. intros Hp. destruct (write_loop_takes (S (length w)) w p [] ltac:(lia) Hp) as (w' & E & H). by exists w'. Qed.

#[local] Arguments bs : simpl never.
#[local] Arguments Sockets.hex4 : simpl never.

Section proofs.
Context {W : Type} `{Host W} (g : settings).
Implicit Types c : client W.

(** Two states that differ in connection [fd] and the message only. *)
Definition only (fd : Z) c c' : Prop :=
  delete fd (conns c') = delete fd (conns c) /\ next_fd c' = next_fd c /\ world c' = world c /\
  finished c' = finished c /\ closes c' = closes c /\ (is_Some (conns c' !! fd) <-> is_Some (conns c !! fd)).

Lemma only_refl fd c : only fd c c.
Proof. by split_and!. Qed.
Lemma only_trans fd c1 c2 c3 : only fd c1 c2 -> only fd c2 c3 -> only fd c1 c3.
Proof. intros (A1 & A2 & A3 & A4 & A5 & A6) (B1 & B2 & B3 & B4 & B5 & B6). split_and!; try congruence; tauto. Qed.
Lemma only_error fd c m : only fd c (put_error c m).
Proof. by split_and!. Qed.
Lemma only_put fd c k : is_Some (conns c !! fd) -> only fd c (put_conn c fd k).
Proof. intros Hs. split_and!; try done; cbn; [apply delete_insert_eq|rewrite lookup_insert_eq; split; eauto]. Qed.

(** Results that leave all else alone, whatever the connection does. *)
Definition stays {A} (fd : Z) c (o : outcome (A * client W)) : Prop :=
  match o with Done (_, c') => only fd c c' | Stop _ => True | Undef _ => False end.

Lemma stays_bind {A B} fd c (o : outcome (A * client W)) (k : A * client W -> outcome (B * client W)) :
  stays fd c o -> (forall a c', only fd c c' -> stays fd c' (k (a, c'))) -> stays fd c (o ≫= k).
Proof.
  destruct o as [[a c']| |]; cbn; [|done..]. intros Ho Hk. specialize (Hk a c' Ho).
  destruct (k (a, c')) as [[b c'']| |]; [|done..]. by eapply only_trans.
Qed.

Lemma readx_stays fd c n : stays fd c (readx c fd n).
Proof.
  unfold readx. destruct (conns c !! fd) as [k|] eqn:E; [|apply only_refl].
  destruct (Io.readx (reads k) n); try done; (apply only_put; eauto).
Qed.
Lemma writex_stays fd c d : stays fd c (writex c fd d).
Proof.
  unfold writex. destruct (conns c !! fd) as [k|] eqn:E; [|apply only_refl].
  destruct (Io.writex (writes k) d); try done; (apply only_put; eauto).
Qed.
Lemma send_request_stays fd c s : stays fd c (send_request c fd s).
Proof.
  unfold send_request. apply stays_bind; [apply writex_stays|]. intros [] c' _; [apply writex_stays|apply only_refl].
Qed.
Lemma adb_status_stays fd c : stays fd c (adb_status c fd).
Proof.
  unfold adb_status. apply stays_bind; [apply readx_stays|]. intros [buf|] c1 _; [|apply only_error].
  case_decide; [apply only_refl|]. case_decide; [apply only_error|].
  apply stays_bind; [apply readx_stays|]. intros [buf'|] c2 _; [|apply only_error].
  apply stays_bind; [apply readx_stays|]. intros [m|] c3 _; apply only_error.
Qed.

(** The descriptors of open connections have been handed out. *)
Definition fds_ok c : Prop := 3 <= next_fd c /\ forall fd, is_Some (conns c !! fd) -> 3 <= fd < next_fd c.

Lemma fresh_fd c : fds_ok c -> conns c !! next_fd c = None.
Proof. intros [_ Hf]. apply eq_None_not_Some. intros Hs. apply Hf in Hs. lia. Qed.

(** From the state before a connection to the one after it has been closed. *)
Lemma close_only c0 c fd k w :
  fds_ok c0 -> fd = next_fd c0 ->
  only fd (mk_client (<[fd := k]> (conns c0)) (fd + 1) (adb_error c0) w (finished c0) (closes c0)) c ->
  conns (adb_close c fd) = conns c0 /\ fds_ok (adb_close c fd).
Proof.
  intros Hok -> (E1 & E2 & _). cbn in E1, E2. pose proof (fresh_fd c0 Hok) as Hf.
  assert (conns (adb_close c (next_fd c0)) = conns c0) as E.
  { cbn. rewrite E1, delete_insert_eq. by apply delete_id. }
  split; [done|]. destruct Hok as [H1 H2]. split; cbn; [lia|]. intros fd Hs. cbn in E. rewrite E in Hs. apply H2 in Hs. lia.
Qed.

(** What _adb_connect leaves: nothing new, or one connection. *)
Definition connected c (r : Z) c' : Prop :=
  fds_ok c' /\ ((r < 0 /\ conns c' = conns c) \/ (r = next_fd c /\ delete r (conns c') = conns c /\ is_Some (conns c' !! r))).

Lemma connect_cases c service :
  fds_ok c ->
  match _adb_connect g c service with
  | Done (r, c') => connected c r c'
  | Stop _ => True
  | Undef _ => False
  end.
Proof.
  intros Hok. unfold _adb_connect. destruct (_ || _); [split; [done|]; left; split; [lia|done]|].
  unfold socket_loopback_client. destruct (h_connect (world c) (adb_server_port g)) as [[[r wr]|] w].
  2:{ split; [done|]. left. split; [lia|done]. }
  set (fd := next_fd c). set (k := mk_conn r wr []). set (c1 := mk_client _ _ _ _ _ _).
  assert (forall c2 m, only fd c1 c2 -> connected c (-1) (adb_close (put_error c2 m) fd)) as Hclose'.
  { intros c2 m Ho. destruct (close_only c (put_error c2 m) fd k w Hok eq_refl) as [E Hok2].
    - eapply only_trans; [exact Ho|apply only_error].
    - split; [done|]. left. split; [lia|done]. }
  assert (forall c2, only fd c1 c2 -> connected c (-1) (adb_close c2 fd)) as Hclose.
  { intros c2 Ho. destruct (close_only c c2 fd k w Hok eq_refl Ho) as [E Hok2]. split; [done|]. left. split; [lia|done]. }
  set (sw := if is_host service then _ else _).
  assert (match sw with Done (r, c2) => (r = 0 /\ only fd c1 c2) \/ (r <> 0 /\ connected c (-1) c2) | Stop _ => True | Undef _ => False end) as Hsw.
  { unfold sw. destruct (is_host service); [left; by split|]. unfold switch_socket_transport.
    destruct (transport_service g) as [s|]; [|left; by split].
    pose proof (send_request_stays fd c1 s) as H1. destruct (send_request c1 fd s) as [[ok c2]| |]; cbn; [|done..].
    destruct ok; cbn [negb]; [|right; split; [lia|by apply Hclose']].
    pose proof (adb_status_stays fd c2) as H2. destruct (adb_status c2 fd) as [[st c3]| |]; cbn; [|done..].
    assert (only fd c1 c3) by (by eapply only_trans). destruct (st =? 0); cbn; [left; by split|right; split; [lia|by apply Hclose]]. }
  clearbody sw. destruct sw as [[st c2]| |]; cbn; [|done..].
  destruct Hsw as [[-> Ho]|[Hst Hc]]; cbn.
  2:{ rewrite (proj2 (Z.eqb_neq _ _) Hst). exact Hc. }
  pose proof (send_request_stays fd c2 service) as H1. destruct (send_request c2 fd service) as [[ok c3]| |]; cbn; [|done..].
  assert (only fd c1 c3) as Ho3 by (by eapply only_trans). destruct ok; cbn [negb]; [|by apply Hclose'].
  pose proof (adb_status_stays fd c3) as H2. destruct (adb_status c3 fd) as [[st' c4]| |]; cbn; [|done..].
  assert (only fd c1 c4) as Ho4 by (by eapply only_trans). destruct (st' =? 0); cbn; [|by apply Hclose].
  destruct Ho4 as (E1 & E2 & _ & _ & _ & E6). cbn in E1, E2, E6. split.
  - split; [rewrite E2; destruct Hok; unfold fd; lia|]. intros fd' Hs. rewrite E2.
    destruct (decide (fd' = fd)) as [->|Hne]; [destruct Hok; unfold fd; lia|].
    assert (is_Some (conns c !! fd')) as Hs'.
    { rewrite <- (lookup_delete_ne (conns c4) fd fd'), E1, delete_insert_eq, lookup_delete_ne in Hs by done. done. }
    destruct Hok as [_ Hf]. apply Hf in Hs'. unfold fd. lia.
  - right. split; [done|]. split; [rewrite E1, delete_insert_eq; by apply delete_id, fresh_fd|].
    apply E6. rewrite lookup_insert_eq. eauto.
Qed.

(** Reading the version closes the connection, whatever comes; only a negative
    length leaves the buffer. *)
Lemma read_version_closes c fd garbage :
  match read_version c fd garbage with
  | Done (v, c') => conns c' = delete fd (conns c) /\ next_fd c' = next_fd c /\ (forall r, v = inl r -> r = -1)
  | Stop _ => True
  | Undef w => w = "buf"%string
  end.
Proof.
  assert (forall c', only fd c c' -> conns (adb_close c' fd) = delete fd (conns c) /\ next_fd (adb_close c' fd) = next_fd c) as Hcl.
  { intros c' (E1 & E2 & _). cbn. by rewrite E1. }
  assert (forall c', only fd c c' -> conns (adb_close c' fd) = delete fd (conns c) /\ next_fd (adb_close c' fd) = next_fd c /\
    forall r, @inl Z Z (-1) = inl r -> r = -1) as Hfail.
  { intros c' Ho. destruct (Hcl c' Ho). split_and!; try done. by intros r [= <-]. }
  unfold read_version. pose proof (readx_stays fd c 4) as H1. destruct (readx c fd 4) as [[[buf|] c1]| |]; cbn; [|by apply Hfail|done..].
  destruct (100 <? _); [by apply Hfail|]. destruct (_ <? 0); [done|].
  set (n := Z.to_nat _). pose proof (readx_stays fd c1 n) as H2. destruct (readx c1 fd n) as [[[d|] c2]| |]; cbn; [| |done..].
  - assert (only fd c c2) as Ho by (by eapply only_trans). destruct (Hcl c2 Ho) as [E1 E2]. cbn in E1, E2.
    destruct (sscanf_04x _); cbn; [done|]. rewrite E1, delete_delete_eq. split_and!; try done. by intros r [= <-].
  - apply Hfail. by eapply only_trans.
Qed.

(** The result of adb_connect: no connection more, or one more. *)
Definition one_more c (r : Z) c' : Prop :=
  fds_ok c' /\ ((r <= 0 /\ conns c' = conns c) \/ (3 <= r /\ conns c !! r = None /\ delete r (conns c') = conns c)).

Lemma connected_more c0 c r c' : fds_ok c -> conns c = conns c0 -> connected c r c' -> one_more c0 r c'.
Proof.
  intros Hok E [Hok' [[Hr Hc]|(-> & Hc & _)]].
  - split; [done|]. left. split; [lia|congruence].
  - split; [done|]. right. split; [exact (proj1 Hok)|]. rewrite <- E. split; [by apply fresh_fd|done].
Qed.

Lemma finish_connect_more c0 c service :
  fds_ok c -> conns c = conns c0 ->
  match finish_connect g c service with Done (r, c') => one_more c0 r c' | Stop _ => True | Undef _ => False end.
Proof.
  intros Hok E. unfold finish_connect. case_decide; [split; [done|]; left; split; [lia|done]|].
  pose proof (connect_cases c service Hok) as Hc. destruct (_adb_connect g c service) as [[r c']| |]; [|done..].
  by apply (connected_more c0 c).
Qed.

Lemma launch_more c0 c service :
  fds_ok c -> conns c = conns c0 ->
  match launch_and_connect g c service with Done (r, c') => one_more c0 r c' | Stop _ => True | Undef _ => False end.
Proof.
  intros Hok E. unfold launch_and_connect, start_server. destruct (h_launch _ _) as [[] w]; [split; [done|]; left; split; [lia|done]|].
  by apply (finish_connect_more c0 (put_world c w)).
Qed.

Lemma adb_connect_more c service garbage :
  fds_ok c ->
  match adb_connect g c service garbage with
  | Done (r, c') => one_more c r c'
  | Stop _ => True
  | Undef w => w = "buf"%string
  end.
Proof.
  intros Hok. unfold adb_connect.
  assert (forall c1, fds_ok c1 -> conns c1 = conns c ->
    match launch_and_connect g c1 service with Done (r, c') => one_more c r c' | Stop _ => True | Undef w => w = "buf"%string end) as Hl.
  { intros c1 Hok1 E1. pose proof (launch_more c c1 service Hok1 E1) as Hl. by destruct (launch_and_connect _ _ _) as [[]| |]. }
  pose proof (connect_cases c (bs "host:version") Hok) as Hc.
  destruct (_adb_connect g c (bs "host:version")) as [[fd c1]| |]; cbn; [|done..].
  destruct (Z.eqb_spec fd (-2)) as [->|Hfd].
  { destruct Hc as [Hok1 [[_ E]|(E & _)]]; [by apply Hl|destruct Hok; lia]. }
  set (vr := if 0 <=? fd then _ else _).
  assert (match vr with Done (inl r, c2) => one_more c r c2 | Done (inr _, c2) => fds_ok c2 /\ conns c2 = conns c | Stop _ => True | Undef w => w = "buf"%string end) as Hv.
  { unfold vr. destruct (Z.leb_spec 0 fd) as [Hpos|Hneg].
    - destruct Hc as [Hok1 [[? _]|(-> & E & _)]]; [lia|].
      pose proof (read_version_closes c1 (next_fd c) garbage) as Hr. destruct (read_version _ _ _) as [[v c2]| |]; [|done..].
      destruct Hr as (E2 & E3 & Hneg1). rewrite E in E2.
      assert (fds_ok c2) as Hok2.
      { destruct Hok1 as [H1 H2]. split; rewrite ?E3; [done|]. intros fd. rewrite E2. intros Hs.
        apply H2. rewrite <- E in Hs. by apply lookup_delete_is_Some in Hs as [_ ?]. }
      destruct v as [r|]; [|done]. split; [done|]. left. rewrite (Hneg1 r eq_refl). split; [lia|done].
    - destruct Hc as [Hok1 [[? E]|(-> & _)]]; [|destruct Hok; lia].
      case_decide; [split; [done|]; left; split; [lia|done]|done]. }
  clearbody vr. destruct vr as [[[r|v] c2]| |]; cbn; [done| |done..]. destruct Hv as [Hok2 E2].
  destruct (negb _).
  - pose proof (connect_cases c2 (bs "host:kill") Hok2) as Hk. destruct (_adb_connect g c2 (bs "host:kill")) as [[fd' c3]| |]; cbn; [|done..].
    destruct Hk as [[H3 H4] Hk]. assert (conns (adb_close c3 fd') = conns c) as E3.
    { cbn. destruct Hk as [[Hn E]|(-> & E & _)]; [|by rewrite E]. rewrite delete_id; [by rewrite E|].
      apply eq_None_not_Some. intros Hs. apply H4 in Hs. lia. }
    apply Hl; [|done]. split; cbn; [done|]. intros f Hs. apply H4. by apply lookup_delete_is_Some in Hs as [_ ?].
  - pose proof (finish_connect_more c c2 service Hok2 E2) as Hf. by destruct (finish_connect _ _ _) as [[r c3]| |].
Qed.

(** Closing the connection that came with a result. *)
Lemma more_closed c r c' fd c2 :
  one_more c r c' -> 0 <= r -> fds_ok c -> fd = r -> only fd c' c2 -> conns (adb_close c2 fd) = conns c.
Proof.
  intros [Hok' Hc] Hr Hok -> (E & _). cbn. rewrite E. destruct Hc as [[? Ec]|(_ & _ & Ec)]; [|done].
  rewrite Ec. apply delete_id. apply eq_None_not_Some. intros Hs. apply Hok in Hs. lia.
Qed.
(** Connection [fd] delivers [l] and then [e], takes [n] bytes more and was sent [b]. *)
Context {e : ending}.
Definition at_conn c (fd : Z) (l : bytes) (n : nat) (b : bytes) : Prop :=
  exists k, conns c !! fd = Some k /\ deliver (reads k) = (l, e) /\ (n <= takes (writes k))%nat /\ sent k = b.

Lemma readx_gets c fd x l n b :
  at_conn c fd (x ++ l) n b ->
  exists c', readx c fd (length x) = Done (Some x, c') /\ only fd c c' /\ at_conn c' fd l n b.
Proof.
  intros (k & Ek & Ed & Hn & Hb). unfold readx. rewrite Ek.
  destruct (readx_ok (reads k) (length x) (x ++ l) e Ed) as (s' & -> & Ed'); [rewrite length_app; lia|].
  rewrite take_app_length. rewrite drop_app_length in Ed'. eexists. split; [done|]. split; [apply only_put; eauto|].
  exists (mk_conn s' (writes k) (sent k)). split; [apply lookup_insert_eq|]. by split_and!.
Qed.

Lemma writex_puts c fd p l n b :
  at_conn c fd l (length p + n) b ->
  exists c', writex c fd p = Done (true, c') /\ only fd c c' /\ at_conn c' fd l n (b ++ p).
Proof.
  intros (k & Ek & Ed & Hn & Hb). unfold writex. rewrite Ek.
  destruct (writex_takes (writes k) p) as (w' & -> & Hw); [lia|].
  eexists. split; [done|]. split; [apply only_put; eauto|].
  exists (mk_conn (reads k) w' (sent k ++ p)). split; [apply lookup_insert_eq|]. cbn. split_and!; [done|lia|by rewrite Hb].
Qed.

(** The bytes of a request. *)
Definition request (service : bytes) : bytes := Sockets.hex4 (Z.of_nat (length service)) ++ service.

Lemma send_request_puts c fd s l n b :
  at_conn c fd l (length (request s) + n) b ->
  exists c', send_request c fd s = Done (true, c') /\ only fd c c' /\ at_conn c' fd l n (b ++ request s).
Proof.
  intros Hc. unfold send_request.
  destruct (writex_puts c fd (Sockets.hex4 (Z.of_nat (length s))) l (length s + n) b) as (c1 & -> & O1 & H1).
  { replace (length (Sockets.hex4 (Z.of_nat (length s))) + (length s + n))%nat with (length (request s) + n)%nat; [exact Hc|].
    unfold request. rewrite length_app. lia. }
  destruct (writex_puts c1 fd s l n _ H1) as (c2 & E & O2 & H2). cbn. exists c2. split; [exact E|].
  split; [by eapply only_trans|]. unfold request. by rewrite app_assoc.
Qed.

Lemma status_okay c fd l n b :
  at_conn c fd (bs "OKAY" ++ l) n b ->
  exists c', adb_status c fd = Done (0, c') /\ only fd c c' /\ at_conn c' fd l n b.
Proof.
  intros Hc. destruct (readx_gets c fd (bs "OKAY") l n b Hc) as (c' & E & O & H').
  unfold adb_status. change 4%nat with (length (bs "OKAY")). rewrite E. cbn. rewrite decide_True by done. eauto.
Qed.

(** What a service that is not the host's adds to the conversation. *)
Definition switch_request (service : bytes) : bytes :=
  if is_host service then [] else from_option request [] (transport_service g).
Definition switch_answer (service : bytes) : bytes :=
  if is_host service then [] else from_option (fun _ => bs "OKAY") [] (transport_service g).

(** The state in which the connection has just been made. *)
Definition dialled c (r : list Io.rd) (wr : list Io.wr) (w : W) : client W :=
  mk_client (<[next_fd c := mk_conn r wr []]> (conns c)) (next_fd c + 1) (adb_error c) w (finished c) (closes c).

Lemma connect_talks c service r wr w l n :
  (1 <= length service <= 1024)%nat ->
  h_connect (world c) (adb_server_port g) = (Some (r, wr), w) ->
  deliver r = (switch_answer service ++ bs "OKAY" ++ l, e) ->
  (length (switch_request service) + (length (request service) + n) <= takes wr)%nat ->
  exists c', _adb_connect g c service = Done (next_fd c, c') /\ only (next_fd c) (dialled c r wr w) c' /\
    at_conn c' (next_fd c) l n (switch_request service ++ request service).
Proof.
  intros Hlen Hconn Hd Hw. unfold _adb_connect.
  rewrite (proj2 (Z.ltb_ge _ _)), (proj2 (Z.ltb_ge _ _)) by lia. cbn [orb].
  unfold socket_loopback_client. rewrite Hconn. fold (dialled c r wr w). set (c1 := dialled _ _ _ _). set (fd := next_fd c).
  assert (at_conn c1 fd (switch_answer service ++ bs "OKAY" ++ l) (length (switch_request service) + (length (request service) + n)) []) as H1.
  { exists (mk_conn r wr []). split; [apply lookup_insert_eq|]. by split_and!. }
  assert (exists c2, (if is_host service then Done (0, c1) else switch_socket_transport g c1 fd) = Done (0, c2) /\ only fd c1 c2 /\
    at_conn c2 fd (bs "OKAY" ++ l) (length (request service) + n) (switch_request service)) as (c2 & -> & O2 & H2).
  { unfold switch_request, switch_answer in *. destruct (is_host service); [by exists c1|].
    unfold switch_socket_transport. destruct (transport_service g) as [s|]; [|by exists c1]. cbn [from_option] in *.
    destruct (send_request_puts c1 fd s _ _ _ H1) as (c2 & -> & O2 & H2). cbn.
    destruct (status_okay c2 fd _ _ _ H2) as (c3 & -> & O3 & H3). cbn. exists c3. split; [done|].
    split; [by eapply only_trans|done]. }
  cbn. destruct (send_request_puts c2 fd service _ _ _ H2) as (c3 & -> & O3 & H3). cbn.
  destruct (status_okay c3 fd _ _ _ H3) as (c4 & -> & O4 & H4). cbn. exists c4. split; [done|].
  split; [|done]. eapply only_trans; [exact O2|]. by eapply only_trans.
Qed.

(** Closing such a connection. *)
Lemma close_dialled c0 c r wr w l n b :
  fds_ok c0 -> only (next_fd c0) (dialled c0 r wr w) c -> at_conn c (next_fd c0) l n b ->
  conns (adb_close c (next_fd c0)) = conns c0 /\ fds_ok (adb_close c (next_fd c0)) /\ world (adb_close c (next_fd c0)) = w /\
  sent <$> finished (adb_close c (next_fd c0)) = (sent <$> finished c0) ++ [b].
Proof.
  intros Hok Ho (k & Ek & _ & _ & <-). destruct (close_only c0 c _ _ w Hok eq_refl Ho) as [E1 E2].
  destruct Ho as (_ & _ & Ew & Ef & _). split_and!; [done..|]. cbn in Ef |- *. by rewrite Ek, Ef, fmap_app.
Qed.

Lemma read_version_right c fd garbage l n b :
  at_conn c fd (Sockets.hex4 4 ++ Sockets.hex4 ADB_SERVER_VERSION ++ l) n b ->
  exists c', read_version c fd garbage = Done (inr ADB_SERVER_VERSION, adb_close c' fd) /\ only fd c c' /\ at_conn c' fd l n b.
Proof.
  intros Hc. destruct (readx_gets c fd (Sockets.hex4 4) _ _ _ Hc) as (c1 & E1 & O1 & H1).
  destruct (readx_gets c1 fd (Sockets.hex4 ADB_SERVER_VERSION) _ _ _ H1) as (c2 & E2 & O2 & H2).
  exists c2. split; [|split; [by eapply only_trans|done]].
  unfold read_version. change 4%nat with (length (Sockets.hex4 4)). rewrite E1. cbn [mbind outcome_bind].
  rewrite strtoul16_hex4 by lia. change (Z.to_nat (i32 4)) with (length (Sockets.hex4 ADB_SERVER_VERSION)).
  change (100 <? i32 4) with false. change (i32 4 <? 0) with false. cbn iota. rewrite E2. done.
Qed.

(** A failure and its message: adb_error holds the first 255 bytes. *)
Lemma status_fail c fd m l n b :
  no_nul m -> Z.of_nat (length m) < 65536 -> at_conn c fd (bs "FAIL" ++ request m ++ l) n b ->
  exists c', adb_status c fd = Done (-1, c') /\ only fd c c' /\ adb_error c' = take 255 m /\ at_conn c' fd (drop 255 m ++ l) n b.
Proof.
  intros Hm Hl Hc. destruct (readx_gets c fd (bs "FAIL") _ _ _ Hc) as (c1 & E1 & O1 & H1). unfold request in H1. rewrite <- app_assoc in H1.
  destruct (readx_gets c1 fd (Sockets.hex4 (Z.of_nat (length m))) _ _ _ H1) as (c2 & E2 & O2 & H2).
  rewrite <- (take_drop 255 m), <- app_assoc in H2.
  destruct (readx_gets c2 fd (take 255 m) _ _ _ H2) as (c3 & E3 & O3 & (k & Ek & Hk)).
  exists (put_error c3 (take 255 m)). split.
  - unfold adb_status. change 4%nat with (length (bs "FAIL")). rewrite E1. cbn [mbind outcome_bind].
    rewrite decide_False by done. rewrite decide_False by (by intros []).
    change (length (bs "FAIL")) with (length (Sockets.hex4 (Z.of_nat (length m)))). rewrite E2. cbn [mbind outcome_bind].
    rewrite strtoul16_hex4, u32_small by lia.
    replace (Z.to_nat (if 255 <? Z.of_nat (length m) then 255 else Z.of_nat (length m))) with (length (take 255 m)).
    + rewrite E3. cbn [mbind outcome_bind]. rewrite until_nul_id by (by apply Forall_take). done.
    + rewrite length_take. destruct (Z.ltb_spec 255 (Z.of_nat (length m))); lia.
  - split; [|split; [done|by exists k]].
    eapply only_trans; [exact O1|]. eapply only_trans; [exact O2|]. eapply only_trans; [exact O3|apply only_error].
Qed.

(** The end of a query: the length and the message. *)
Lemma query_tail c fd m l n b :
  at_conn c fd (request m ++ l) n b ->
  exists c1 c2, readx c fd 4 = Done (Some (Sockets.hex4 (Z.of_nat (length m))), c1) /\
    readx c1 fd (length m) = Done (Some m, c2) /\ only fd c c2 /\ at_conn c2 fd l n b.
Proof.
  intros Hc. unfold request in Hc. rewrite <- app_assoc in Hc.
  destruct (readx_gets c fd (Sockets.hex4 (Z.of_nat (length m))) _ _ _ Hc) as (c1 & E1 & O1 & H1).
  destruct (readx_gets c1 fd m _ _ _ H1) as (c2 & E2 & O2 & H2). exists c1, c2. split_and!; try done. by eapply only_trans.
Qed.
End proofs.

(** A request to a server of the right version: the version is asked for on a
    connection of its own; [c1] is the state between the two. *)
Lemma adb_connect_talks {W : Type} `{Host W} (g : settings) (c : client W) service garbage r1 wr1 w1 r2 wr2 w2 l1 l2 e1 e2 n :
  fds_ok c -> service <> bs "host:start-server" -> (1 <= length service <= 1024)%nat ->
  h_connect (world c) (adb_server_port g) = (Some (r1, wr1), w1) ->
  h_connect w1 (adb_server_port g) = (Some (r2, wr2), w2) ->
  deliver r1 = (bs "OKAY" ++ Sockets.hex4 4 ++ Sockets.hex4 ADB_SERVER_VERSION ++ l1, e1) ->
  deliver r2 = (switch_answer g service ++ bs "OKAY" ++ l2, e2) ->
  (length (request (bs "host:version")) <= takes wr1)%nat ->
  (length (switch_request g service ++ request service) + n <= takes wr2)%nat ->
  exists c1 c', adb_connect g c service garbage = Done (next_fd c1, c') /\ fds_ok c1 /\ conns c1 = conns c /\
    sent <$> finished c1 = (sent <$> finished c) ++ [request (bs "host:version")] /\
    only (next_fd c1) (dialled c1 r2 wr2 w2) c' /\
    at_conn (e:=e2) c' (next_fd c1) l2 n (switch_request g service ++ request service).
Proof.
  intros Hok Hs Hlen Hc1 Hc2 Hd1 Hd2 Hw1 Hw2. rewrite length_app in Hw2. unfold adb_connect.
  destruct (connect_talks g c (bs "host:version") r1 wr1 w1 _ 0 ltac:(by vm_compute; lia) Hc1 Hd1) as (c1 & -> & O1 & H1).
  { change (switch_request g (bs "host:version")) with (@nil Z). cbn [length]. lia. }
  destruct (read_version_right c1 (next_fd c) garbage _ _ _ H1) as (c1' & E1 & O1' & H1').
  destruct (close_dialled c c1' r1 wr1 w1 _ _ _ Hok (only_trans _ _ _ _ O1 O1') H1') as (F1 & Hok2 & F3 & F4).
  set (c2 := adb_close c1' (next_fd c)) in *. change (switch_request g (bs "host:version")) with (@nil Z) in F4. cbn [app] in F4.
  cbn [mbind outcome_bind]. rewrite (proj2 (Z.eqb_neq _ _)), (proj2 (Z.leb_le _ _)), E1 by (destruct Hok; lia).
  cbn [mbind outcome_bind]. rewrite Z.eqb_refl. cbn [negb]. unfold finish_connect. rewrite decide_False by done.
  rewrite <- F3 in Hc2.
  destruct (connect_talks g c2 service r2 wr2 w2 _ n Hlen Hc2 Hd2) as (c3 & E3 & O3 & H3); [lia|].
  exists c2, c3. split_and!; done.
Qed.

(** A query to a server of the right version, from its pieces. *)
Lemma query_talks {W : Type} `{Host W} (g : settings) (c : client W) service garbage m r1 wr1 w1 r2 wr2 w2 l1 l2 e1 e2 :
  fds_ok c -> service <> bs "host:start-server" -> (1 <= length service <= 1024)%nat ->
  no_nul m -> (length m <= 1024)%nat ->
  h_connect (world c) (adb_server_port g) = (Some (r1, wr1), w1) ->
  h_connect w1 (adb_server_port g) = (Some (r2, wr2), w2) ->
  deliver r1 = (bs "OKAY" ++ Sockets.hex4 4 ++ Sockets.hex4 ADB_SERVER_VERSION ++ l1, e1) ->
  deliver r2 = (switch_answer g service ++ bs "OKAY" ++ request m ++ l2, e2) ->
  (length (request (bs "host:version")) <= takes wr1)%nat ->
  (length (switch_request g service ++ request service) <= takes wr2)%nat ->
  exists c', adb_query g c service garbage = Done (Some m, c') /\ conns c' = conns c /\
    sent <$> finished c' = (sent <$> finished c) ++ [request (bs "host:version"); switch_request g service ++ request service].
Proof.
  intros Hok Hs Hlen Hm Hm' Hc1 Hc2 Hd1 Hd2 Hw1 Hw2. unfold adb_query.
  destruct (adb_connect_talks g c service garbage r1 wr1 w1 r2 wr2 w2 l1 _ e1 e2 0 Hok Hs Hlen Hc1 Hc2 Hd1 Hd2 Hw1)
    as (c2 & c3 & -> & Hok2 & F1 & F4 & O3 & H3); [lia|].
  cbn [mbind outcome_bind]. rewrite (proj2 (Z.ltb_ge _ _)) by (destruct Hok2; lia).
  destruct (query_tail c3 (next_fd c2) m _ _ _ H3) as (c4 & c5 & E4 & E5 & O5 & H5).
  rewrite E4. cbn [mbind outcome_bind]. rewrite strtoul16_hex4, u32_small, (proj2 (Z.ltb_ge _ _)), Nat2Z.id, E5 by lia.
  cbn [mbind outcome_bind]. rewrite until_nul_id by done.
  destruct (close_dialled c2 c5 r2 wr2 w2 _ _ _ Hok2 (only_trans _ _ _ _ O3 O5) H5) as (G1 & _ & _ & G4).
  eexists. split; [done|]. split; [by rewrite G1, F1|]. by rewrite G4, F4, <- app_assoc.
Qed.

(** ** The results *)

(** A query gives back every descriptor it used, whatever the
    server answers, however its writes fail and whether or not the server had to be
    started or replaced: the open connections after it are those before it.  The
    only behaviour outside the model is a version message whose length, taken as
    an int, is negative. *)
Theorem query_closes {W : Type} `{Host W} (g : settings) (c : client W) service garbage :
  fds_ok c -> service <> bs "host:start-server" ->
  match adb_query g c service garbage with
  | Done (_, c') => conns c' = conns c
  | Stop w => True
  | Undef w => w = "buf"%string
  end.
Proof.
  intros Hok _. unfold adb_query. pose proof (adb_connect_more g c service garbage Hok) as Hc.
  destruct (adb_connect g c service garbage) as [[fd c1]| |]; cbn; [|done..].
  destruct (Z.ltb_spec fd 0) as [Hneg|Hpos].
  { destruct Hc as [_ [[_ E]|(? & _)]]; [done|lia]. }
  assert (forall c2, only fd c1 c2 -> delete fd (conns c2) = conns c) as Hcl.
  { intros c2 Ho. exact (more_closed c fd c1 fd c2 Hc Hpos Hok eq_refl Ho). }
  pose proof (readx_stays fd c1 4) as H1. destruct (readx c1 fd 4) as [[[buf|] c2]| |]; cbn; [|by apply Hcl|done..].
  destruct (1024 <? _); [by apply Hcl|]. set (n := Z.to_nat _).
  pose proof (readx_stays fd c2 n) as H2. destruct (readx c2 fd n) as [[[d|] c3]| |]; cbn; [| |done..].
  all: apply Hcl; by eapply only_trans.
Qed.

(** A query to a server of the right version: when the first
    connection answers the version request with OKAY and 001a, and the second one
    the request (and the switch of transport before it) with OKAY, a length and a
    message of at most 1024 bytes without a null byte, adb_query returns exactly
    that message, in whatever pieces it arrives, having sent exactly the two
    requests in the server's format, with both connections closed. *)
Theorem query_roundtrip {W : Type} `{Host W} (g : settings) (c : client W) service garbage m r1 wr1 w1 r2 wr2 w2 l1 l2 e1 e2 :
  fds_ok c -> service <> bs "host:start-server" -> (1 <= length service <= 1024)%nat ->
  no_nul m -> (length m <= 1024)%nat ->
  h_connect (world c) (adb_server_port g) = (Some (r1, wr1), w1) ->
  h_connect w1 (adb_server_port g) = (Some (r2, wr2), w2) ->
  deliver r1 = (bs "OKAY" ++ Sockets.hex4 4 ++ Sockets.hex4 ADB_SERVER_VERSION ++ l1, e1) ->
  deliver r2 = (switch_answer g service ++ bs "OKAY" ++ request m ++ l2, e2) ->
  (length (request (bs "host:version")) <= takes wr1)%nat ->
  (length (switch_request g service ++ request service) <= takes wr2)%nat ->
  exists c', adb_query g c service garbage = Done (Some m, c') /\ conns c' = conns c /\
    sent <$> finished c' = (sent <$> finished c) ++ [request (bs "host:version"); switch_request g service ++ request service].
Proof. intros. by eapply query_talks. Qed.

(** What the server's sendfailmsg puts on a descriptor when it succeeds. *)
Lemma chan_writex_written w i d w' :
  Sockets.chan_writex w i d = (0, w') ->
  Sockets.written (Sockets.chan_of w' i) = Sockets.written (Sockets.chan_of w i) ++ d.
Proof.
  unfold Sockets.chan_writex. pose proof (writex_sends (Sockets.writes (Sockets.chan_of w i)) d) as Hd.
  destruct (Io.writex _ _) as [out l|out l|out|]; [|done..]. destruct Hd as [-> _]. intros [= <-].
  unfold Sockets.chan_of, Sockets.put_chan. cbn. by rewrite lookup_insert_eq.
Qed.

Lemma sendfailmsg_written w i reason w' :
  Sockets.sendfailmsg w i reason = (0, w') -> Z.of_nat (length reason) < 65536 ->
  Sockets.written (Sockets.chan_of w' i) = Sockets.written (Sockets.chan_of w i) ++ bs "FAIL" ++ request reason.
Proof.
  intros E Hl. unfold Sockets.sendfailmsg in E. rewrite Z.min_l in E by lia.
  destruct (Sockets.chan_writex w i _) as [r w1] eqn:E1. destruct (Z.eqb_spec r 0) as [->|Hr]; cbn in E; [|by injection E].
  apply chan_writex_written in E1. apply chan_writex_written in E. rewrite E, E1.
  rewrite Nat2Z.id, take_ge by lia. unfold request. by rewrite <- !app_assoc.
Qed.

(** The reason a server gives with sendfailmsg is what the
    client's adb_error returns: when the client's connection delivers the bytes
    that sendfailmsg wrote, in any pieces, adb_status fails with the first 255
    bytes of the reason as its message. *)
Theorem fail_message_arrives {W : Type} `{Host W} (s s' : Sockets.sys) i reason d (c : client W) fd k l e :
  no_nul reason -> Z.of_nat (length reason) < 65536 ->
  Sockets.sendfailmsg s i reason = (0, s') ->
  Sockets.written (Sockets.chan_of s' i) = Sockets.written (Sockets.chan_of s i) ++ d ->
  conns c !! fd = Some k -> deliver (reads k) = (d ++ l, e) ->
  exists c', adb_status c fd = Done (-1, c') /\ adb_error c' = take 255 reason /\ only fd c c'.
Proof.
  intros Hn Hl Es Ed Ek El. rewrite (sendfailmsg_written s i reason s' Es Hl) in Ed. apply app_inv_head in Ed as <-.
  rewrite <- app_assoc in El.
  destruct (status_fail (e:=e) c fd reason l 0 (sent k) Hn Hl) as (c' & E & O & Em & _); [exists k; split_and!; [done..|lia|done]|].
  by exists c'.
Qed.

(** ** Concrete servers *)

(** A server that answers each connection with given bytes, and takes 64 writes. *)
Definition feed (b : bytes) : list Io.rd := match b with x :: d => [Io.RData x d] | [] => [] end.
#[local] Instance scripted : Host (list bytes) := {
  h_connect w _ := match w with b :: w => (Some (feed b, repeat (Io.WTake 99) 64), w) | [] => (None, []) end;
  h_launch w _ := (true, w)
}.
Definition idle (w : list bytes) : client (list bytes) := mk_client ∅ 3 [] w [] [].
Definition any_device : settings := mk_settings Sockets.kTransportAny None 5037.
Definition version_answer : bytes := bs "OKAY0004001a".

Lemma idle_ok w : fds_ok (idle w).
Proof. split; [done|]. intros fd [k Hk]. done. Qed.

Lemma query_closes_witness :
  fds_ok (idle [version_answer; bs "FAIL0002no"]) /\
  match adb_query any_device (idle [version_answer; bs "FAIL0002no"]) (bs "host:devices") [] with
  | Done (_, c') => conns c' = ∅
  | Stop w => True
  | Undef w => w = "buf"%string
  end.
Proof. split; [apply idle_ok|]. apply (query_closes any_device); [apply idle_ok|by vm_compute]. Defined.

Lemma query_roundtrip_witness :
  exists c', adb_query any_device (idle [version_answer; bs "OKAY0005hello"]) (bs "host:devices") [] = Done (Some (bs "hello"), c') /\
    conns c' = ∅ /\ sent <$> finished c' = [bs "000chost:version"; bs "000chost:devices"].
Proof.
  refine (query_roundtrip any_device (idle [version_answer; bs "OKAY0005hello"]) (bs "host:devices") [] (bs "hello") _ _ _ _ _ _ [] [] Exhausted Exhausted
    (idle_ok _) _ _ _ _ eq_refl eq_refl _ _ _ _).
  all: try reflexivity. all: try (by vm_compute). all: try (vm_compute; lia).
  repeat constructor; by vm_compute.
Defined.

Lemma fail_message_arrives_witness :
  let s := Sockets.mk_sys ∅ [] [] 1 1 false ∅ ∅ [] {[7 := Sockets.mk_chan [] (repeat (Io.WTake 99) 9) []]} [] in
  let d := Sockets.written (Sockets.chan_of (Sockets.sendfailmsg s 7 (bs "closed")).2 7) in
  exists c', adb_status (put_conn (idle []) 3 (mk_conn (feed d) [] [])) 3 = Done (-1, c') /\ adb_error c' = bs "closed" /\
    only 3 (put_conn (idle []) 3 (mk_conn (feed d) [] [])) c'.
Proof.
  cbv zeta. set (s := Sockets.mk_sys _ _ _ _ _ _ _ _ _ _ _).
  refine (fail_message_arrives s (Sockets.sendfailmsg s 7 (bs "closed")).2 7 (bs "closed") _ _ 3 _ [] Exhausted _ _ _ _ _ _).
  all: try reflexivity. all: try (by vm_compute).
  repeat constructor; by vm_compute.
Defined.

(** A command that succeeds leaves its connection open. *)
Example command_leaks :
  exists c', adb_command any_device (idle [version_answer; bs "OKAYOKAY"]) (bs "host:wait") [] = Done (0, c') /\ is_Some (conns c' !! 4).
Proof. eexists. split; [vm_compute; reflexivity|]. vm_compute. eauto. Qed.

(** A version that is not a number: the descriptor is closed twice. *)
Example version_closed_twice :
  exists c', adb_connect any_device (idle [bs "OKAY0004zzzz"]) (bs "host:devices") [] = Done (-1, c') /\ closes c' = [3; 3].
Proof. eexists. split; vm_compute; reflexivity. Qed.

(** A version whose length is negative passes the check against the buffer. *)
Example version_overruns : adb_connect any_device (idle [bs "OKAY-fff"]) (bs "host:devices") [] = Undef "buf".
Proof. by vm_compute. Qed.

(** One emulator: its serial is read after the list was freed. *)
Example console_port_use_after_free :
  adb_get_emulator_console_port any_device (idle [version_answer; bs "OKAY0015emulator-5554 device" ++ [10]]) [] = Undef "serial".
Proof. by vm_compute. Qed.
