(* ===== verification/Jdwp.v ===== *)
(** * The debugger services of the device (tools/adb/jdwp_service.c)

    Every virtual machine connects to a control socket and says its process id; the
    daemon keeps the list of them, serves it once (jdwp) or whenever it changes
    (track-jdwp), and passes the descriptors of debuggers to the machines.

    The circular lists are lists of pointers (see Dlist), the descriptors' futures
    are lists of results (see Io).  The other ends of the service sockets are remote
    sockets (see Sockets), of which only the packets they are handed and the close
    that comes back to their peer matter here.  The theorems show that no event
    sequence leaves the arrays or reaches freed memory until a tracker is lost with its
    transport, that the trackers always have the current list, and how a debugger reaches
    the machine it asked for. *)

From S2P Require Import Prelude Io Dlist Fdevent Sockets Packet Transport AdbClient.

Definition MAX_OUT_FDS : nat := 4.

(** What sendmsg can do. *)
Inductive sending := MsgSent | MsgFailed (e : errno).

Record process := mk_proc {
  pid : Z; socket : Z; fde : Z;                    (* fde: the events asked for *)
  in_buff : bytes; in_len : nat;
  out_fds : list Z; out_count : nat;
  reads : list Io.rd; sends : list sending         (* what recv and sendmsg will do *)
}.

(** The socket of a service: a tracker, or the one-shot list. *)
Inductive service := Tracker (need_update : bool) | ListOnce (pass : bool).
Record ssocket := mk_ssocket { peer : ptr; serves : service }.

(** [queued]: the packets each remote socket was handed; [backlink]: the remote
    socket's own peer; [handed]: the descriptors sent over a control socket. *)
Record jdwp := mk_jdwp {
  procs : gmap ptr process; _jdwp_list : list ptr;
  ssockets : gmap ptr ssocket; _jdwp_trackers_list : list ptr; local_sockets : list ptr;
  brk : ptr;
  queued : gmap ptr (list bytes); backlink : gmap ptr ptr; closed_peers : list ptr;
  closed_fds : list Z; handed : list (Z * Z)
}.

Definition put_procs (s : jdwp) v l : jdwp :=
  mk_jdwp v l (ssockets s) (_jdwp_trackers_list s) (local_sockets s) (brk s) (queued s) (backlink s) (closed_peers s) (closed_fds s) (handed s).
Definition put_proc (s : jdwp) (p : ptr) (x : process) : jdwp := put_procs s (<[p := x]> (procs s)) (_jdwp_list s).
Definition put_ssockets (s : jdwp) v l loc : jdwp :=
  mk_jdwp (procs s) (_jdwp_list s) v l loc (brk s) (queued s) (backlink s) (closed_peers s) (closed_fds s) (handed s).
Definition put_ssocket (s : jdwp) (q : ptr) (x : ssocket) : jdwp :=
  put_ssockets s (<[q := x]> (ssockets s)) (_jdwp_trackers_list s) (local_sockets s).
Definition put_brk (s : jdwp) v : jdwp :=
  mk_jdwp (procs s) (_jdwp_list s) (ssockets s) (_jdwp_trackers_list s) (local_sockets s) v (queued s) (backlink s) (closed_peers s) (closed_fds s) (handed s).
Definition put_queued (s : jdwp) v : jdwp :=
  mk_jdwp (procs s) (_jdwp_list s) (ssockets s) (_jdwp_trackers_list s) (local_sockets s) (brk s) v (backlink s) (closed_peers s) (closed_fds s) (handed s).
Definition put_backlink (s : jdwp) v l : jdwp :=
  mk_jdwp (procs s) (_jdwp_list s) (ssockets s) (_jdwp_trackers_list s) (local_sockets s) (brk s) (queued s) v l (closed_fds s) (handed s).
Definition put_fds (s : jdwp) v h : jdwp :=
  mk_jdwp (procs s) (_jdwp_list s) (ssockets s) (_jdwp_trackers_list s) (local_sockets s) (brk s) (queued s) (backlink s) (closed_peers s) v h.

Definition with_pid (x : process) (v : Z) : process :=
  mk_proc v (socket x) (fde x) (in_buff x) (in_len x) (out_fds x) (out_count x) (reads x) (sends x).
Definition with_in (x : process) b n r : process :=
  mk_proc (pid x) (socket x) (fde x) b n (out_fds x) (out_count x) r (sends x).
Definition with_out (x : process) l n e : process :=
  mk_proc (pid x) (socket x) e (in_buff x) (in_len x) l n (reads x) (sends x).
Definition with_sends (x : process) l : process :=
  mk_proc (pid x) (socket x) (fde x) (in_buff x) (in_len x) (out_fds x) (out_count x) (reads x) l.

Definition init_jdwp_lists : jdwp := mk_jdwp ∅ [] ∅ [] [] 1 ∅ ∅ [] [] [].

(** ** The list as text *)

Definition pid_lines (l : list process) : list bytes :=
  (fun x => decimal (pid x) ++ [10]) <$> filter (fun x => 0 <= pid x) l.

Definition listed (s : jdwp) : outcome (list process) := deref "proc" (mapM (fun p => procs s !! p) (_jdwp_list s)).

(** The text printed into a buffer of [bufferlen] bytes. *)
Definition jdwp_process_list (s : jdwp) (bufferlen : nat) : outcome bytes :=
  l ← listed s;
  '(mem, len) ← deref "buffer" (Transport.print_list (pid_lines l) (replicate bufferlen 0));
  Done (take len mem).

Definition jdwp_process_list_msg (s : jdwp) (bufferlen : nat) : outcome bytes :=
  l ← listed s;
  '(mem, len) ← deref "buffer" (Transport.print_list_msg (pid_lines l) (replicate bufferlen 0));
  Done (take len mem).

(** ** Remote sockets *)

Definition peer_enqueue (s : jdwp) (r : ptr) (d : bytes) : jdwp :=
  put_queued s (<[r := default [] (queued s !! r) ++ [d]]> (queued s)).

(** The loop of jdwp_process_list_updated over the trackers. *)
Fixpoint enqueue_all (s : jdwp) (buffer : bytes) (l : list ptr) : outcome jdwp :=
  match l with
  | [] => Done s
  | t :: l =>
      x ← deref "tracker" (ssockets s !! t);
      if (peer x =? NULL)%nat then Undef "peer" else enqueue_all (peer_enqueue s (peer x) buffer) buffer l
  end.

Definition jdwp_process_list_updated (s : jdwp) : outcome jdwp :=
  buffer ← jdwp_process_list_msg s 1024; enqueue_all s buffer (_jdwp_trackers_list s).

(** What closing a service socket does once its peer is gone. *)
Definition remove_ssocket (s : jdwp) (q : ptr) : outcome jdwp :=
  x ← deref "socket" (ssockets s !! q);
  let l := match serves x with
           | Tracker _ => filter (fun t => t <> q) (_jdwp_trackers_list s)
           | ListOnce _ => _jdwp_trackers_list s
           end in
  Done (put_ssockets s (delete q (ssockets s)) l (filter (fun t => t <> q) (local_sockets s))).

(** peer->close(peer): a remote socket first closes its own peer. *)
Definition peer_close (s : jdwp) (r : ptr) : outcome jdwp :=
  match backlink s !! r with
  | None => Done (put_backlink s (backlink s) (closed_peers s ++ [r]))
  | Some q => remove_ssocket (put_backlink s (delete r (backlink s)) (closed_peers s ++ [r])) q
  end.

(** jdwp_socket_close and jdwp_tracker_close, which differ in the order of removal. *)
Definition ssocket_close (s : jdwp) (q : ptr) : outcome jdwp :=
  x ← deref "socket" (ssockets s !! q);
  if (peer x =? NULL)%nat then remove_ssocket s q
  else s ← peer_close (put_backlink s (delete (peer x) (backlink s)) (closed_peers s)) (peer x); remove_ssocket s q.

(** The turn of close_all_sockets for a service socket, when its transport goes away:
    local_socket_close_locked closes the peer, which has no peer of its own any more, and
    local_socket_destroy frees the socket.  A tracker stays on the list of trackers. *)
Definition transport_close (s : jdwp) (q : ptr) : outcome jdwp :=
  x ← deref "socket" (ssockets s !! q);
  s ← (if (peer x =? NULL)%nat then Done s
       else peer_close (put_backlink s (delete (peer x) (backlink s)) (closed_peers s)) (peer x));
  Done (put_ssockets s (delete q (ssockets s)) (_jdwp_trackers_list s) (filter (fun t => t <> q) (local_sockets s))).

(** ** Machines *)

Definition jdwp_process_free (s : jdwp) (p : ptr) : outcome jdwp :=
  x ← deref "proc" (procs s !! p);
  let s := put_procs s (delete p (procs s)) (filter (fun q => q <> p) (_jdwp_list s)) in
  let s := put_fds s (closed_fds s ++ (if 0 <=? socket x then [socket x] else []) ++ take (out_count x) (out_fds x)) (handed s) in
  jdwp_process_list_updated s.

Definition jdwp_process_alloc (s : jdwp) (sock : Z) (r : list Io.rd) (w : list sending) : ptr * jdwp :=
  let x := mk_proc (-1) sock Fdevent.FDE_READ (replicate 4 0) 0 (replicate MAX_OUT_FDS 0) 0 r w in
  (brk s, put_brk (put_procs s (<[brk s := x]> (procs s)) (_jdwp_list s ++ [brk s])) (S (brk s))).

Inductive progress := Complete | Again | Ended.

(** The loop that reads the process id: recv until four characters are there. *)
Fixpoint read_pid (fuel : nat) (x : process) : outcome (progress * process) :=
  if (4 <=? in_len x)%nat then Done (Complete, x)
  else
    match fuel with
    | O => Stop "fuel"
    | S fuel =>
        match Io.adb_read (reads x) (4 - in_len x) with
        | None => Done (Again, x)
        | Some (Io.Got d, r) =>
            m ← deref "in_buff" (store_bytes (in_buff x) (in_len x) d);
            read_pid fuel (with_in x m (in_len x + length d) r)
        | Some (Io.RFail EINTR, r) => read_pid fuel (with_in x (in_buff x) (in_len x) r)
        | Some (Io.RFail EAGAIN, r) => Done (Again, with_in x (in_buff x) (in_len x) r)
        | Some (_, r) => Done (Ended, with_in x (in_buff x) (in_len x) r)
        end
    end.

(** The loop that drains a known machine's socket. *)
Fixpoint drain (fuel : nat) (r : list Io.rd) : outcome (progress * list Io.rd) :=
  match fuel with
  | O => Stop "fuel"
  | S fuel =>
      match Io.adb_read r 32 with
      | None => Done (Again, r)
      | Some (Io.Got _, r) | Some (Io.RFail EINTR, r) => drain fuel r
      | Some (Io.RFail EAGAIN, r) => Done (Again, r)
      | Some (_, r) => Done (Ended, r)
      end
  end.

(** sendmsg until it is not interrupted; a nonblocking socket with no room fails
    with EAGAIN. *)
Fixpoint send_fd (l : list sending) : bool * list sending :=
  match l with
  | MsgFailed EINTR :: l => send_fd l
  | MsgSent :: l => (true, l)
  | MsgFailed _ :: l => (false, l)
  | [] => (false, [])
  end.

(** out_fds[n-1] = out_fds[n] for n from [n] to [n + k - 1]. *)
Fixpoint shift_fds (l : list Z) (n k : nat) : outcome (list Z) :=
  match k with
  | O => Done l
  | S k =>
      v ← deref "out_fds" (l !! n);
      if (n - 1 <? length l)%nat then shift_fds (<[(n - 1)%nat := v]> l) (S n) k else Undef "out_fds"
  end.

(** The part of jdwp_process_event for FDE_WRITE. *)
Definition write_event (s : jdwp) (p : ptr) (events : Z) : outcome jdwp :=
  x ← deref "proc" (procs s !! p);
  if negb (Fdevent.has events Fdevent.FDE_WRITE) then Done s
  else if (out_count x =? 0)%nat then Done s
  else
    fd ← deref "out_fds" (out_fds x !! 0%nat);
    let '(ok, l) := send_fd (sends x) in
    let s := put_proc s p (with_sends x l) in
    if negb ok then jdwp_process_free s p
    else
      fds ← shift_fds (out_fds x) 1 (out_count x - 1);
      let e := if (out_count x - 1 =? 0)%nat then Z.land (fde x) (Z.lnot Fdevent.FDE_WRITE) else fde x in
      let s := put_fds s (closed_fds s) (handed s ++ [(socket x, fd)]) in
      Done (put_proc s p (with_out (with_sends x l) fds (out_count x - 1) e)).

Definition jdwp_process_event (s : jdwp) (p : ptr) (events : Z) : outcome jdwp :=
  x ← deref "proc" (procs s !! p);
  if Fdevent.has events Fdevent.FDE_READ then
    if pid x <? 0 then
      '(r, x) ← read_pid (S (rd_weight (reads x))) x;
      let s := put_proc s p x in
      match r with
      | Again => Done s
      | Ended => jdwp_process_free s p
      | Complete =>
          match sscanf_04x (until_nul (in_buff x)) with
          | None => jdwp_process_free s p
          | Some v =>
              s ← jdwp_process_list_updated (put_proc s p (with_pid x (i32 v)));
              write_event s p events
          end
      end
    else
      '(r, l) ← drain (S (rd_weight (reads x))) (reads x);
      let s := put_proc s p (with_in x (in_buff x) (in_len x) l) in
      match r with Again => Done s | _ => jdwp_process_free s p end
  else write_event s p events.

(** The descriptor for a debugger, or -1.  The pair of sockets is asked for only when there is
    a process that has room in its array, where the other end stays until it is sent. *)
Definition create_jdwp_connection_fd {W} (adb_socketpair : W -> option (Z * Z) * W) (w : W) (s : jdwp) (n : Z)
    : outcome (Z * jdwp * W) :=
  l ← listed s;
  match list_find (fun px => pid px.2 = n) (zip (_jdwp_list s) l) with
  | None => Done (-1, s, w)
  | Some (_, (p, x)) =>
      if (MAX_OUT_FDS <=? out_count x)%nat then Done (-1, s, w)
      else
        let '(fds, w) := adb_socketpair w in
        match fds with
        | None => Done (-1, s, w)
        | Some (a, b) =>
            if (out_count x <? length (out_fds x))%nat then
              let e := if (S (out_count x) =? 1)%nat then Z.lor (fde x) Fdevent.FDE_WRITE else fde x in
              Done (a, put_proc s p (with_out x (<[out_count x := b]> (out_fds x)) (S (out_count x)) e), w)
            else Undef "out_fds"
        end
  end.

(** The same with [fds] as what adb_socketpair gives. *)
Definition debugger_fd (s : jdwp) (n : Z) (fds : option (Z * Z)) : outcome (Z * jdwp) :=
  '(r, s, _) ← create_jdwp_connection_fd (fun fds => (fds, None)) fds s n; Done (r, s).

(** ** The control socket *)

Inductive accepted := Accepted (sock : Z) (r : list Io.rd) (w : list sending) | AcceptFailed (e : errno).

(** The accept loop; a connection that waits no longer is an error like others. *)
Fixpoint jdwp_control_event (s : jdwp) (events : Z) (l : list accepted) : jdwp * list accepted :=
  if negb (Fdevent.has events Fdevent.FDE_READ) then (s, l)
  else
    match l with
    | AcceptFailed EINTR :: l => jdwp_control_event s events l
    | AcceptFailed _ :: l => (s, l)
    | Accepted sock r w :: l => ((jdwp_process_alloc s sock r w).2, l)
    | [] => (s, [])
    end.

(** The results of socket, bind and listen; the descriptor, if the socket serves. *)
Definition jdwp_control_init (namelen : Z) (sock bound listening : Z) : option Z * list Z :=
  if 108 <=? namelen then (None, [])
  else if sock <? 0 then (None, [])
  else if bound <? 0 then (None, [sock])
  else if listening <? 0 then (None, [sock])
  else (Some sock, []).

(** ** The services *)

Definition create_service_socket (s : jdwp) (k : service) : ptr * jdwp :=
  let q := brk s in
  let l := match k with Tracker _ => _jdwp_trackers_list s ++ [q] | ListOnce _ => _jdwp_trackers_list s end in
  (q, put_brk (put_ssockets s (<[q := mk_ssocket NULL k]> (ssockets s)) l (local_sockets s ++ [q])) (S q)).
Definition create_jdwp_service_socket (s : jdwp) : ptr * jdwp := create_service_socket s (ListOnce false).
Definition create_jdwp_tracker_service_socket (s : jdwp) : ptr * jdwp := create_service_socket s (Tracker true).

Definition jdwp_socket_ready (s : jdwp) (q : ptr) (pass : bool) (r : ptr) : outcome jdwp :=
  if pass then peer_close s r
  else
    d ← jdwp_process_list s (Z.to_nat Packet.MAX_PAYLOAD);
    Done (put_ssocket (peer_enqueue s r d) q (mk_ssocket r (ListOnce true))).

Definition jdwp_tracker_ready (s : jdwp) (q : ptr) (need_update : bool) (r : ptr) : outcome jdwp :=
  if need_update then
    d ← jdwp_process_list_msg s (Z.to_nat Packet.MAX_PAYLOAD);
    Done (peer_enqueue (put_ssocket s q (mk_ssocket r (Tracker false))) r d)
  else Done s.

(** The ready handler: a null peer is used only when there is something to do. *)
Definition ssocket_ready (s : jdwp) (q : ptr) : outcome jdwp :=
  x ← deref "socket" (ssockets s !! q);
  match serves x with
  | ListOnce pass => if (peer x =? NULL)%nat then Undef "peer" else jdwp_socket_ready s q pass (peer x)
  | Tracker false => Done s
  | Tracker true => if (peer x =? NULL)%nat then Undef "peer" else jdwp_tracker_ready s q true (peer x)
  end.

(** jdwp_socket_enqueue and jdwp_tracker_enqueue: writing closes the stream. *)
Definition ssocket_enqueue (s : jdwp) (q : ptr) : outcome (Z * jdwp) :=
  x ← deref "socket" (ssockets s !! q);
  if (peer x =? NULL)%nat then Undef "peer" else s ← peer_close s (peer x); Done (-1, s).

(** ** What the invariant says *)

Definition packets (s : jdwp) (r : ptr) : list bytes := default [] (queued s !! r).

(** The message of the list in a buffer of [cap] bytes: the whole lines that fit. *)
Definition list_text (l : list process) (cap : nat) : bytes := fits cap (pid_lines l).
Definition list_msg (l : list process) (cap : nat) : bytes :=
  Sockets.hex4 (Z.of_nat (length (list_text l (cap - 4)))) ++ list_text l (cap - 4).

Record proc_ok (x : process) : Prop := {
  p_buff : length (in_buff x) = 4%nat; p_in : (in_len x <= 4)%nat;
  p_out : length (out_fds x) = MAX_OUT_FDS; p_count : (out_count x <= MAX_OUT_FDS)%nat;
  p_fde : fde x = if (out_count x =? 0)%nat then Fdevent.FDE_READ else Z.lor Fdevent.FDE_READ Fdevent.FDE_WRITE
}.

Record base (s : jdwp) : Prop := {
  b_nodup : NoDup (_jdwp_list s);
  b_procs p : p ∈ _jdwp_list s <-> is_Some (procs s !! p);
  b_proc p x : procs s !! p = Some x -> proc_ok x;
  b_track t : t ∈ _jdwp_trackers_list s <-> exists x b, ssockets s !! t = Some x /\ serves x = Tracker b;
  b_local q : q ∈ local_sockets s <-> is_Some (ssockets s !! q);
  b_peer q x : ssockets s !! q = Some x -> peer x <> NULL /\ backlink s !! peer x = Some q;
  b_back r q : backlink s !! r = Some q -> exists x, ssockets s !! q = Some x /\ peer x = r;
  b_brk p : is_Some (procs s !! p) \/ is_Some (ssockets s !! p) -> (p < brk s)%nat
}.

(** Every tracker has the list [l], or was never handed one and is to be. *)
Definition current (s : jdwp) (l : list process) : Prop :=
  forall t x b, ssockets s !! t = Some x -> serves x = Tracker b ->
    match last (packets s (peer x)) with
    | None => b = true
    | Some d => d = list_msg l 1024 \/ d = list_msg l (Z.to_nat Packet.MAX_PAYLOAD)
    end.

Definition good (s : jdwp) : Prop := base s /\ exists l, listed s = Done l /\ current s l.

Section lists.

Lemma listed_ok s : base s -> exists l, mapM (fun p => procs s !! p) (_jdwp_list s) = Some l.
Proof.
  intros Hs. assert (Forall (fun p => is_Some (procs s !! p)) (_jdwp_list s)) as Hf.
  { apply Forall_forall. intros p Hp. by apply (b_procs _ Hs). }
  revert Hf. generalize (_jdwp_list s). intros l Hf. by apply mapM_is_Some.
Qed.

Lemma listed_Done s l : mapM (fun p => procs s !! p) (_jdwp_list s) = Some l -> listed s = Done l.
Proof. unfold listed. by intros ->. Qed.
Lemma listed_inv s l : listed s = Done l -> mapM (fun p => procs s !! p) (_jdwp_list s) = Some l.
Proof. unfold listed. destruct (mapM _ _); [by intros [= ->]|done]. Qed.

(** The printed lists are the lines that fit. *)
Lemma process_list_text s l cap : listed s = Done l -> (0 < cap)%nat -> jdwp_process_list s cap = Done (list_text l cap).
Proof.
  intros E Hc. unfold jdwp_process_list. rewrite E. cbn [mbind outcome_bind].
  destruct (print_list_spec (pid_lines l) (replicate cap 0)) as (rest & -> & _); [by rewrite length_replicate|].
  rewrite length_replicate. cbn [deref mbind outcome_bind]. by rewrite take_app_length.
Qed.

Lemma process_list_message s l cap : listed s = Done l -> (4 < cap)%nat -> jdwp_process_list_msg s cap = Done (list_msg l cap).
Proof.
  intros E Hc. unfold jdwp_process_list_msg, Transport.print_list_msg. rewrite E. cbn [mbind outcome_bind].
  rewrite drop_replicate. destruct (print_list_spec (pid_lines l) (replicate (cap - 4) 0)) as (rest & -> & _); [rewrite length_replicate; lia|].
  rewrite length_replicate. cbn [deref mbind option_bind outcome_bind]. unfold list_msg. fold (list_text l (cap - 4)).
  f_equal. rewrite Nat.add_comm. set (h := Sockets.hex4 _). change 4%nat with (length h). rewrite <- length_app, app_assoc. apply take_app_length.
Qed.

(** Handing a packet to all trackers. *)
Lemma enqueue_all_ok s d l :
  (forall t, t ∈ l -> exists x, ssockets s !! t = Some x /\ peer x <> NULL) ->
  exists m, enqueue_all s d l = Done (put_queued s m) /\
    (forall r, default [] (m !! r) = packets s r \/ last (default [] (m !! r)) = Some d) /\
    (forall t x, t ∈ l -> ssockets s !! t = Some x -> last (default [] (m !! peer x)) = Some d).
Proof.
  revert s. induction l as [|t l IH]; intros s Hl.
  { exists (queued s). split; [by destruct s|]. split; [by left|]. intros t x Ht. by apply elem_of_nil in Ht. }
  cbn [enqueue_all]. destruct (Hl t) as (x & Ex & Hx); [by left|]. rewrite Ex. cbn [deref mbind outcome_bind].
  rewrite (proj2 (Nat.eqb_neq _ _) Hx). set (s1 := peer_enqueue s (peer x) d).
  destruct (IH s1) as (m & E & Hm1 & Hm2); [intros t' Ht'; apply Hl; by right|].
  exists m. rewrite E. split; [done|].
  assert (forall r, packets s1 r = packets s r \/ last (packets s1 r) = Some d) as H1.
  { intros r. unfold s1, packets, peer_enqueue. cbn. destruct (decide (r = peer x)) as [->|Hne].
    - right. rewrite lookup_insert_eq. cbn. by rewrite last_snoc.
    - left. by rewrite lookup_insert_ne. }
  split.
  - intros r. destruct (Hm1 r) as [->|?]; [apply H1|by right].
  - intros t' x' [->|Ht']%elem_of_cons Ex'; [|by eapply Hm2].
    rewrite Ex in Ex'. injection Ex' as <-. destruct (Hm1 (peer x)) as [->|?]; [|done].
    unfold s1, packets, peer_enqueue. cbn. rewrite lookup_insert_eq. cbn. by rewrite last_snoc.
Qed.

(** After the trackers have been told, everything is current. *)
Lemma updated_good s : base s -> exists m, jdwp_process_list_updated s = Done (put_queued s m) /\ good (put_queued s m).
Proof.
  intros Hs. destruct (listed_ok s Hs) as [l El]. apply listed_Done in El as El'.
  unfold jdwp_process_list_updated. rewrite (process_list_message s l 1024 El') by lia. cbn [mbind outcome_bind].
  destruct (enqueue_all_ok s (list_msg l 1024) (_jdwp_trackers_list s)) as (m & -> & _ & Hm).
  { intros t (x & b & Ex & _)%(b_track _ Hs). exists x. split; [done|]. by apply (b_peer _ Hs t). }
  exists m. split; [done|]. split; [by destruct Hs; constructor|]. exists l. split; [exact El'|].
  intros t x b Ex Hb. unfold packets. cbn. rewrite (Hm t x); [by left| |done]. apply (b_track _ Hs). eauto.
Qed.
End lists.

(** ** The operations keep it *)

Section machines.

Lemma good_base s : good s -> base s.
Proof. by intros []. Qed.

(** Changes that the list does not show. *)
Lemma good_quiet s s' l' :
  good s -> base s' -> listed s' = Done l' -> (forall l, listed s = Done l -> pid_lines l' = pid_lines l) ->
  ssockets s' = ssockets s -> queued s' = queued s -> good s'.
Proof.
  intros (_ & l & El & Hc) Hs' El' Hl Es Eq. split; [done|]. exists l'. split; [done|].
  intros t x b Ex Hb. rewrite Es in Ex. specialize (Hc t x b Ex Hb). unfold packets in *. rewrite Eq.
  unfold list_msg, list_text in *. by rewrite (Hl l El).
Qed.

Lemma pid_lines_pids l l' : pid <$> l = pid <$> l' -> pid_lines l = pid_lines l'.
Proof.
  revert l'. induction l as [|x l IH]; intros [|x' l'] E; try done. cbn in E. injection E as Ex E.
  unfold pid_lines in *. rewrite !filter_cons, Ex. destruct (decide (0 <= pid x')); cbn; [|by apply IH].
  rewrite Ex. f_equal. by apply IH.
Qed.

Lemma base_put_proc s p x x' : base s -> procs s !! p = Some x -> proc_ok x' -> base (put_proc s p x').
Proof.
  intros Hs Ex Hx'. destruct Hs. constructor; cbn; try done.
  - intros q. rewrite b_procs0. destruct (decide (q = p)) as [->|Hne]; [rewrite lookup_insert_eq, Ex; split; eauto|by rewrite lookup_insert_ne].
  - intros q y. destruct (decide (q = p)) as [->|Hne]; [rewrite lookup_insert_eq; by intros [= <-]|rewrite lookup_insert_ne by done; eauto].
  - intros q. destruct (decide (q = p)) as [->|Hne]; [intros _; apply b_brk0; eauto|by rewrite lookup_insert_ne by done; auto].
Qed.

Lemma good_put_proc s p x x' :
  good s -> procs s !! p = Some x -> proc_ok x' -> pid x' = pid x -> good (put_proc s p x').
Proof.
  intros Hg Ex Hx' Hpid. pose proof (base_put_proc s p x x' (good_base _ Hg) Ex Hx') as Hs'.
  destruct (listed_ok _ Hs') as [l' El']. eapply (good_quiet s _ l' Hg Hs'); [by apply listed_Done| |done..].
  intros l El%listed_inv. apply pid_lines_pids. apply mapM_Some in El, El'. cbn in El'. clear -El El' Ex Hpid. revert l' El'.
  induction El as [|q y L l Eq _ IH]; intros l' El'; inversion El' as [|? y' ? ? Eq']; subst; [done|].
  cbn. f_equal; [|by apply IH]. destruct (decide (q = p)) as [->|Hne].
  - rewrite lookup_insert_eq in Eq'. injection Eq' as <-. rewrite Ex in Eq. injection Eq as <-. done.
  - rewrite lookup_insert_ne in Eq' by done. congruence.
Qed.

Lemma base_fds s c h : base s -> base (put_fds s c h).
Proof. by intros []. Qed.
Lemma good_fds s c h : good s -> good (put_fds s c h).
Proof. intros [Hb Hc]. split; [by apply base_fds|done]. Qed.

Lemma process_free_good s p : base s -> is_Some (procs s !! p) -> exists s', jdwp_process_free s p = Done s' /\ good s'.
Proof.
  intros Hs [x Ex]. unfold jdwp_process_free. rewrite Ex. cbn [deref mbind outcome_bind].
  match goal with |- exists s', jdwp_process_list_updated ?t = _ /\ _ => set (s1 := t) end.
  assert (base s1) as Hs1.
  { apply base_fds. destruct Hs. constructor; cbn; try done.
    - by apply NoDup_filter.
    - intros q. rewrite list_elem_of_filter, b_procs0. destruct (decide (q = p)) as [->|Hne].
      + rewrite lookup_delete_eq. split; [by intros []|by intros []].
      + rewrite lookup_delete_ne by done. tauto.
    - intros q y [_ Hq]%lookup_delete_Some. eauto.
    - intros q [[y [_ Hq]%lookup_delete_Some]|Hq]; apply b_brk0; eauto. }
  destruct (updated_good s1 Hs1) as (m & -> & Hg). eauto.
Qed.

Lemma process_alloc_good s sock r w : good s -> good (jdwp_process_alloc s sock r w).2.
Proof.
  intros Hg. destruct (good_base s Hg) as [H1 H2 H3 H4 H5 H6 H7 H8].
  assert (procs s !! brk s = None) as Hnone.
  { apply eq_None_not_Some. intros Hp. pose proof (H8 (brk s) (or_introl Hp)). lia. }
  set (s' := (jdwp_process_alloc s sock r w).2). assert (base s') as Hs'.
  { constructor; cbn; try done.
    - apply NoDup_app. split; [done|]. split; [|apply NoDup_singleton].
      intros q Hq ->%list_elem_of_singleton. apply H2 in Hq. rewrite Hnone in Hq. by destruct Hq.
    - intros q. rewrite elem_of_app, list_elem_of_singleton, H2. destruct (decide (q = brk s)) as [->|Hne].
      + rewrite lookup_insert_eq. split; eauto.
      + rewrite lookup_insert_ne by done. tauto.
    - intros q y. destruct (decide (q = brk s)) as [->|Hne]; [|rewrite lookup_insert_ne by done; eauto].
      rewrite lookup_insert_eq. intros [= <-]. constructor; cbn; unfold MAX_OUT_FDS; done || lia.
    - intros q. destruct (decide (q = brk s)) as [->|Hne]; [intros _; lia|]. rewrite lookup_insert_ne by done. intros Hq.
      apply H8 in Hq. lia. }
  destruct (listed_ok _ Hs') as [l' El']. eapply (good_quiet s _ l' Hg Hs'); [by apply listed_Done| |done..].
  intros l El%listed_inv. apply mapM_Some in El, El'. cbn in El'.
  apply Forall2_app_inv_l in El' as (l1 & l2 & Hl1 & Hl2 & ->). inversion Hl2 as [|? y ? ? Ey Hnil]; subst. inversion Hnil; subst.
  rewrite lookup_insert_eq in Ey. injection Ey as <-. unfold pid_lines. rewrite filter_app, fmap_app. cbn. rewrite app_nil_r.
  assert (l1 = l) as ->; [|done]. clear -El Hl1 Hnone H2. assert (forall q, q ∈ _jdwp_list s -> q <> brk s) as Hne.
  { intros q Hq ->. apply H2 in Hq. rewrite Hnone in Hq. by destruct Hq. }
  clear H2. revert l1 Hl1. induction El as [|q y L l Eq El IH]; intros l1 Hl1; inversion Hl1 as [|? y' ? ? Eq']; subst; [done|].
  rewrite lookup_insert_ne in Eq' by (apply not_eq_sym, Hne; left). f_equal; [congruence|]. apply IH; [|done].
  intros q' Hq'. apply Hne. by right.
Qed.

(** Reading the process id never leaves the buffer and ends within its fuel. *)
Lemma read_pid_ok fuel x :
  proc_ok x -> (rd_weight (reads x) < fuel)%nat ->
  exists r x', read_pid fuel x = Done (r, x') /\ proc_ok x' /\ pid x' = pid x.
Proof.
  revert x. induction fuel as [|fuel IH]; intros x Hx Hf; [lia|]. cbn [read_pid].
  destruct (Nat.leb_spec 4 (in_len x)) as [Hfull|Hlen]; [eauto|].
  destruct (Io.adb_read (reads x) (4 - in_len x)) as [[r l]|] eqn:E; [|eauto].
  pose proof (adb_read_weight (reads x) (4 - in_len x) r l ltac:(lia) E) as Hw.
  pose proof (adb_read_deliver (reads x) (4 - in_len x) r l ltac:(lia) E) as Hd.
  assert (forall l', proc_ok (with_in x (in_buff x) (in_len x) l')) as Hkeep by (intros; destruct Hx; by constructor).
  destruct r as [d| |e].
  - destruct Hd as [Hd _]. unfold store_bytes. rewrite decide_True by (rewrite (p_buff _ Hx); lia). cbn [deref mbind outcome_bind].
    match goal with |- context [read_pid fuel ?y] => destruct (IH y) as (q & x' & -> & Hx' & Hp) end; [|cbn; lia|by exists q, x'].
    destruct Hx. constructor; cbn; try done; [|lia]. rewrite !length_app, length_take, length_drop. lia.
  - eexists _, _. split; [done|]. by split.
  - destruct e; try (eexists _, _; split; [done|]; by split).
    match goal with |- context [read_pid fuel ?y] => destruct (IH y) as (q & x' & -> & Hx' & Hp) end; [done|cbn; lia|by exists q, x'].
Qed.

Lemma drain_ok fuel r : (rd_weight r < fuel)%nat -> exists q r', drain fuel r = Done (q, r').
Proof.
  revert r. induction fuel as [|fuel IH]; intros r Hf; [lia|]. cbn [drain].
  destruct (Io.adb_read r 32) as [[q r']|] eqn:E; [|eauto]. pose proof (adb_read_weight r 32 q r' ltac:(lia) E) as Hw.
  destruct q as [d| |[]]; eauto; apply IH; lia.
Qed.

(** Shifting the array drops the first of the descriptors in use. *)
Lemma shift_fds_ok l n k :
  (0 < n)%nat -> (n + k <= length l)%nat ->
  exists l', shift_fds l n k = Done l' /\ length l' = length l /\
    take (n - 1 + k) l' = take (n - 1) l ++ take k (drop n l).
Proof.
  revert l n. induction k as [|k IH]; intros l n Hn Hk; cbn [shift_fds].
  { exists l. by rewrite Nat.add_0_r, take_0, app_nil_r. }
  destruct (lookup_lt_is_Some_2 l n ltac:(lia)) as [v Ev]. rewrite Ev. cbn [deref mbind outcome_bind].
  rewrite (proj2 (Nat.ltb_lt _ _)) by lia.
  destruct (IH (<[(n - 1)%nat := v]> l) (S n) ltac:(lia)) as (l' & E & Hl & Ht); [rewrite length_insert; lia|].
  exists l'. rewrite length_insert in Hl. split_and!; [done..|].
  replace (n - 1 + S k)%nat with (S n - 1 + k)%nat by lia. rewrite Ht.
  rewrite (drop_S l v n Ev). cbn [take]. rewrite drop_insert_lt by lia.
  replace (S n - 1)%nat with (S (n - 1)) by lia. rewrite (take_S_r _ _ v) by (rewrite list_lookup_insert_eq; [done|lia]).
  rewrite take_insert_ge by lia. by rewrite <- app_assoc.
Qed.

Lemma write_event_good s p events : good s -> is_Some (procs s !! p) -> exists s', write_event s p events = Done s' /\ good s'.
Proof.
  intros Hg [x Ex]. unfold write_event. rewrite Ex. cbn [deref mbind outcome_bind]. pose proof (b_proc _ (good_base _ Hg) p x Ex) as Hx.
  destruct (Fdevent.has events Fdevent.FDE_WRITE); cbn [negb]; [|eauto].
  destruct (Nat.eqb_spec (out_count x) 0) as [|Hc]; [eauto|].
  destruct (lookup_lt_is_Some_2 (out_fds x) 0) as [fd Ef]; [rewrite (p_out _ Hx); unfold MAX_OUT_FDS; lia|].
  rewrite Ef. cbn [deref mbind outcome_bind]. destruct (send_fd (sends x)) as [ok l].
  assert (proc_ok (with_sends x l)) as Hx' by (destruct Hx; by constructor).
  pose proof (good_put_proc s p x _ Hg Ex Hx' eq_refl) as Hg1. destruct ok; cbn [negb].
  - destruct (shift_fds_ok (out_fds x) 1 (out_count x - 1)) as (fds & -> & Hl & _); [lia|rewrite (p_out _ Hx); pose proof (p_count _ Hx); lia|].
    cbn [mbind outcome_bind]. eexists. split; [done|]. apply (good_put_proc _ _ (with_sends x l)).
    + by apply good_fds.
    + apply lookup_insert_eq.
    + destruct Hx. constructor; cbn; try done; [congruence|lia|]. rewrite p_fde0, (proj2 (Nat.eqb_neq _ _) Hc).
      by destruct (out_count x - 1 =? 0)%nat.
    + done.
  - apply process_free_good; [by apply good_base|]. cbn. rewrite lookup_insert_eq. eauto.
Qed.
End machines.

Section handlers.

Lemma process_event_good s p events :
  good s -> is_Some (procs s !! p) -> exists s', jdwp_process_event s p events = Done s' /\ good s'.
Proof.
  intros Hg Hp. unfold jdwp_process_event. destruct (Hp) as [x Ex]. rewrite Ex. cbn [deref mbind outcome_bind].
  pose proof (b_proc _ (good_base _ Hg) p x Ex) as Hx.
  destruct (Fdevent.has events Fdevent.FDE_READ); [|by apply write_event_good].
  destruct (pid x <? 0).
  - destruct (read_pid_ok (S (rd_weight (reads x))) x Hx ltac:(lia)) as (r & x' & -> & Hx' & Hpid). cbn [mbind outcome_bind].
    pose proof (good_put_proc s p x x' Hg Ex Hx' Hpid) as Hg1.
    assert (is_Some (procs (put_proc s p x') !! p)) as Hp1 by (cbn; rewrite lookup_insert_eq; eauto).
    destruct r; [|eauto|by apply process_free_good, Hp1; apply good_base].
    destruct (sscanf_04x _) as [v|]; [|by apply process_free_good, Hp1; apply good_base].
    set (s2 := put_proc (put_proc s p x') p (with_pid x' (i32 v))).
    assert (base s2) as Hs2 by (apply (base_put_proc _ p x'); [by apply good_base|apply lookup_insert_eq|destruct Hx'; by constructor]).
    destruct (updated_good s2 Hs2) as (m & -> & Hg2). cbn [mbind outcome_bind]. apply write_event_good; [done|].
    cbn. rewrite lookup_insert_eq. eauto.
  - destruct (drain_ok (S (rd_weight (reads x))) (reads x) ltac:(lia)) as (r & l & ->). cbn [mbind outcome_bind].
    assert (good (put_proc s p (with_in x (in_buff x) (in_len x) l))) as Hg1.
    { apply (good_put_proc s p x); try done. destruct Hx; by constructor. }
    destruct r; [|eauto|]; (apply process_free_good; [by apply good_base|cbn; rewrite lookup_insert_eq; eauto]).
Qed.

Lemma connection_fd_good s n fds :
  good s -> exists r s', debugger_fd s n fds = Done (r, s') /\ good s'.
Proof.
  intros Hg. destruct Hg as (Hs & l & El & Hc). assert (good s) as Hg by (split; [done|by exists l]).
  unfold debugger_fd, create_jdwp_connection_fd. rewrite El. cbn [mbind outcome_bind].
  destruct (list_find _ _) as [[i [p x]]|] eqn:Ef; [|eauto]. apply list_find_Some in Ef as (Hi & _ & _).
  apply lookup_zip_Some in Hi as [Hi1 Hi2]. apply listed_inv in El. apply mapM_Some in El.
  destruct (Forall2_lookup_l _ _ _ _ _ El Hi1) as (x' & Hi2' & Ex). rewrite Hi2 in Hi2'. injection Hi2' as <-. cbn in Ex.
  pose proof (b_proc _ Hs p x Ex) as Hx.
  destruct (Nat.leb_spec MAX_OUT_FDS (out_count x)); [eauto|]. destruct fds as [[a b]|]; [|eauto].
  rewrite (proj2 (Nat.ltb_lt _ _)) by (rewrite (p_out _ Hx); lia). eexists _, _. split; [done|].
  apply (good_put_proc s p x _ Hg Ex); [|done]. destruct Hx. constructor; cbn; try done; [by rewrite length_insert|].
  rewrite p_fde0. by destruct (out_count x) as [|[|k]].
Qed.

(** Taking a service socket out whose link is gone. *)
Lemma remove_ssocket_good s q x c :
  good s -> ssockets s !! q = Some x ->
  exists s', remove_ssocket (put_backlink s (delete (peer x) (backlink s)) c) q = Done s' /\ good s'.
Proof.
  intros Hg Ex. destruct (Hg) as (Hs & l & El & Hc). unfold remove_ssocket. cbn [ssockets put_backlink]. rewrite Ex. cbn [deref mbind outcome_bind].
  eexists. split; [done|]. split.
  - destruct Hs. constructor; cbn; try done.
    + intros t. transitivity (t ∈ _jdwp_trackers_list s /\ t <> q).
      * destruct (serves x) eqn:Ek; [by rewrite list_elem_of_filter; tauto|].
        split; [|tauto]. intros Ht. split; [done|]. intros ->. apply b_track0 in Ht as (x' & b & Ex' & Hb).
        cbn in Ex'. rewrite Ex in Ex'. injection Ex' as <-. congruence.
      * rewrite b_track0. destruct (decide (t = q)) as [->|Hne].
        -- split; [by intros []|]. intros (y & b & Ey & _). by rewrite lookup_delete_eq in Ey.
        -- rewrite lookup_delete_ne by done. tauto.
    + intros t. rewrite list_elem_of_filter, b_local0. destruct (decide (t = q)) as [->|Hne].
      * rewrite lookup_delete_eq. split; [by intros []|by intros []].
      * rewrite lookup_delete_ne by done. tauto.
    + intros t y [Hne Ey]%lookup_delete_Some. destruct (b_peer0 t y Ey) as [H1 H2]. split; [done|].
      rewrite lookup_delete_ne; [done|]. intros E. destruct (b_peer0 q x Ex) as [_ H3]. rewrite E, H2 in H3. by injection H3.
    + intros r t [Hne Hr]%lookup_delete_Some. destruct (b_back0 r t Hr) as (y & Ey & Hy). exists y. split; [|done].
      rewrite lookup_delete_ne; [done|]. intros ->. rewrite Ex in Ey. injection Ey as <-. done.
    + intros p [Hp|[y [_ Hp]%lookup_delete_Some]]; apply b_brk0; eauto.
  - exists l. split; [done|]. intros t y b Ey Hb. cbn in Ey. apply lookup_delete_Some in Ey as [_ Ey]. exact (Hc t y b Ey Hb).
Qed.

Lemma peer_close_good s r : good s -> exists s', peer_close s r = Done s' /\ good s'.
Proof.
  intros Hg. unfold peer_close. destruct (backlink s !! r) as [q|] eqn:Er.
  - destruct (b_back _ (good_base _ Hg) r q Er) as (x & Ex & <-).
    destruct (remove_ssocket_good s q x (closed_peers s ++ [peer x]) Hg Ex) as (s' & -> & Hg'). eauto.
  - eexists. split; [done|]. destruct Hg as [Hs Hc]. split; [|done]. by destruct Hs.
Qed.

Lemma ssocket_close_good s q :
  good s -> is_Some (ssockets s !! q) -> exists s', ssocket_close s q = Done s' /\ good s'.
Proof.
  intros Hg [x Ex]. unfold ssocket_close. rewrite Ex. cbn [deref mbind outcome_bind].
  destruct (b_peer _ (good_base _ Hg) q x Ex) as [Hn _]. rewrite (proj2 (Nat.eqb_neq _ _) Hn).
  unfold peer_close at 1. cbn [backlink put_backlink closed_peers]. rewrite lookup_delete_eq. cbn [mbind outcome_bind].
  destruct (remove_ssocket_good s q x (closed_peers s ++ [peer x]) Hg Ex) as (s' & E & Hg').
  exists s'. split; [exact E|done].
Qed.

Lemma ssocket_enqueue_good s q :
  good s -> is_Some (ssockets s !! q) -> exists s', ssocket_enqueue s q = Done (-1, s') /\ good s'.
Proof.
  intros Hg [x Ex]. unfold ssocket_enqueue. rewrite Ex. cbn [deref mbind outcome_bind].
  destruct (b_peer _ (good_base _ Hg) q x Ex) as [Hn _]. rewrite (proj2 (Nat.eqb_neq _ _) Hn).
  destruct (peer_close_good s (peer x) Hg) as (s' & -> & Hg'). cbn. eauto.
Qed.

(** Two sockets do not share a peer. *)
Lemma peer_inj s q q' x x' :
  base s -> ssockets s !! q = Some x -> ssockets s !! q' = Some x' -> peer x = peer x' -> q = q'.
Proof.
  intros Hs Ex Ex' E. destruct (b_peer _ Hs q x Ex) as [_ H1], (b_peer _ Hs q' x' Ex') as [_ H2].
  rewrite E, H2 in H1. by injection H1.
Qed.

(** A socket is handed to its peer and changes its state. *)
Lemma serve_good s q x k d :
  good s -> ssockets s !! q = Some x -> (forall b, serves x = Tracker b <-> exists b', k = Tracker b' /\ serves x = Tracker b) ->
  (forall b, k = Tracker b -> exists b', serves x = Tracker b') ->
  (forall b, k = Tracker b -> exists l, listed s = Done l /\ (d = list_msg l 1024 \/ d = list_msg l (Z.to_nat Packet.MAX_PAYLOAD))) ->
  good (peer_enqueue (put_ssocket s q (mk_ssocket (peer x) k)) (peer x) d).
Proof.
  intros Hg Ex Hk Hk' Hd. destruct (Hg) as (Hs & l & El & Hc). split.
  - destruct Hs. constructor; cbn; try done.
    + intros t. rewrite b_track0. destruct (decide (t = q)) as [->|Hne]; [|by rewrite lookup_insert_ne].
      rewrite lookup_insert_eq. split.
      * intros (y & b & Ey & Hb). rewrite Ex in Ey. injection Ey as <-. apply Hk in Hb as (b' & -> & _). eauto.
      * intros (y & b & [= <-] & Hb). cbn in Hb. apply Hk' in Hb as [b' Hb']. eauto.
    + intros t. rewrite b_local0. destruct (decide (t = q)) as [->|Hne]; [rewrite lookup_insert_eq, Ex; split; eauto|by rewrite lookup_insert_ne].
    + intros t y. destruct (decide (t = q)) as [->|Hne]; [|rewrite lookup_insert_ne by done; apply b_peer0].
      rewrite lookup_insert_eq. intros [= <-]. exact (b_peer0 q x Ex).
    + intros r t Hr. destruct (b_back0 r t Hr) as (y & Ey & Hy). destruct (decide (t = q)) as [->|Hne].
      * rewrite lookup_insert_eq. rewrite Ex in Ey. injection Ey as <-. by eexists.
      * rewrite lookup_insert_ne by done. eauto.
    + intros p Hp. apply b_brk0. destruct Hp as [Hp|Hp]; [by left|right].
      destruct (decide (p = q)) as [->|Hne]; [eauto|by rewrite lookup_insert_ne in Hp].
  - exists l. split; [done|]. intros t y b Ey Hb. cbn in Ey. unfold packets. cbn.
    destruct (decide (t = q)) as [->|Hne].
    + rewrite lookup_insert_eq in Ey. injection Ey as <-. cbn in Hb |- *. rewrite lookup_insert_eq. cbn. rewrite last_snoc.
      destruct (Hd b Hb) as (l' & El' & H'). rewrite El in El'. by injection El' as <-.
    + rewrite lookup_insert_ne in Ey by done. rewrite lookup_insert_ne; [by apply (Hc t y b)|].
      intros E. apply Hne. eapply (peer_inj s); eauto.
Qed.

Lemma ssocket_ready_good s q :
  good s -> is_Some (ssockets s !! q) -> exists s', ssocket_ready s q = Done s' /\ good s'.
Proof.
  intros Hg [x Ex]. unfold ssocket_ready. rewrite Ex. cbn [deref mbind outcome_bind].
  destruct (b_peer _ (good_base _ Hg) q x Ex) as [Hn _]. rewrite (proj2 (Nat.eqb_neq _ _) Hn).
  destruct (Hg) as (_ & l & El & _). destruct (serves x) as [[]|pass] eqn:Ek; [|eauto|].
  - unfold jdwp_tracker_ready. rewrite (process_list_message s l _ El) by (unfold Packet.MAX_PAYLOAD; lia). cbn [mbind outcome_bind].
    eexists. split; [done|]. apply serve_good; try done.
    + intros b. rewrite Ek. split; [intros [= <-]; eauto|by intros (b' & _ & ?)].
    + eauto.
    + intros b _. exists l. by split; [|right].
  - unfold jdwp_socket_ready. destruct pass; [by apply peer_close_good|].
    rewrite (process_list_text s l _ El) by (unfold Packet.MAX_PAYLOAD; lia). cbn [mbind outcome_bind].
    eexists. split; [done|]. match goal with |- good ?t => change t with (peer_enqueue (put_ssocket s q (mk_ssocket (peer x) (ListOnce true))) (peer x) (list_text l (Z.to_nat Packet.MAX_PAYLOAD))) end.
    apply serve_good; try done. intros b. rewrite Ek. split; [done|by intros (b' & ? & _)].
Qed.
End handlers.

(** ** Sequences of events *)

(** A service is opened by the packet dispatcher: created, and linked to a new
    remote socket. *)
Definition attach (s : jdwp) (q r : ptr) (k : service) : jdwp :=
  put_backlink (put_ssocket s q (mk_ssocket r k)) (<[r := q]> (backlink s)) (closed_peers s).

Inductive call :=
| CControl (events : Z) (l : list accepted)
| CArrive (p : ptr) (r : list Io.rd) (w : list sending)   (* more will happen on a machine's socket *)
| CEvent (p : ptr) (events : Z)
| CDebugger (n : Z) (fds : option (Z * Z))
| COpenList (r : ptr)
| COpenTracker (r : ptr)
| CReady (q : ptr)
| CEnqueue (q : ptr)
| CClose (q : ptr)
| CPeerClose (r : ptr)
| CTransportGone (q : ptr).

Definition run (s : jdwp) (c : call) : outcome jdwp :=
  match c with
  | CControl events l => Done (jdwp_control_event s events l).1
  | CArrive p r w =>
      x ← deref "proc" (procs s !! p);
      Done (put_proc s p (with_sends (with_in x (in_buff x) (in_len x) (reads x ++ r)) (sends x ++ w)))
  | CEvent p events => jdwp_process_event s p events
  | CDebugger n fds => '(_, s) ← debugger_fd s n fds; Done s
  | COpenList r => let '(q, s) := create_jdwp_service_socket s in Done (attach s q r (ListOnce false))
  | COpenTracker r => let '(q, s) := create_jdwp_tracker_service_socket s in Done (attach s q r (Tracker true))
  | CReady q => ssocket_ready s q
  | CEnqueue q => '(_, s) ← ssocket_enqueue s q; Done s
  | CClose q => ssocket_close s q
  | CPeerClose r => peer_close s r
  | CTransportGone q => transport_close s q
  end.

(** Events come for what exists, remote sockets are new. *)
Definition jdwp_call_ok (s : jdwp) (c : call) : Prop :=
  match c with
  | CArrive p _ _ | CEvent p _ => is_Some (procs s !! p)
  | COpenList r | COpenTracker r => r <> NULL /\ backlink s !! r = None /\ queued s !! r = None
  | CReady q | CEnqueue q | CClose q | CTransportGone q => is_Some (ssockets s !! q)
  | CControl _ _ | CDebugger _ _ | CPeerClose _ => True
  end.

(** No tracker on the list has been freed.  jdwp_process_list_updated reads them all, and
    entering or leaving the list writes to the neighbours. *)
Definition trackers_alive (s : jdwp) : Prop := Forall (fun t => is_Some (ssockets s !! t)) (_jdwp_trackers_list s).

(** The states that events lead to, each from one without a freed tracker. *)
Inductive reach : jdwp -> Prop :=
| reach_init : reach init_jdwp_lists
| reach_call s c s' : reach s -> trackers_alive s -> jdwp_call_ok s c -> run s c = Done s' -> reach s'.

Section reach.

Lemma init_good : good init_jdwp_lists.
Proof.
  split.
  - constructor; cbn; try done.
    + apply NoDup_nil_2.
    + intros p. rewrite lookup_empty. split; [by intros ?%elem_of_nil|by intros []].
    + intros t. split; [by intros ?%elem_of_nil|]. by intros (x & b & ? & _).
    + intros q. rewrite lookup_empty. split; [by intros ?%elem_of_nil|by intros []].
    + by intros p [[]|[]].
  - exists []. split; [done|]. by intros t x b.
Qed.

Lemma control_good s events l : good s -> good (jdwp_control_event s events l).1.
Proof.
  intros Hg. induction l as [|a l IH]; cbn [jdwp_control_event]; destruct (Fdevent.has _ _); cbn [negb]; try done.
  destruct a as [sock r w|[]]; try done. by apply process_alloc_good.
Qed.

Lemma open_good s r k q l :
  good s -> r <> NULL -> backlink s !! r = None -> queued s !! r = None ->
  (k = ListOnce false /\ l = _jdwp_trackers_list s \/ k = Tracker true /\ l = _jdwp_trackers_list s ++ [q]) -> q = brk s ->
  good (attach (put_brk (put_ssockets s (<[q := mk_ssocket NULL k]> (ssockets s)) l (local_sockets s ++ [q])) (S q)) q r k).
Proof.
  intros Hg Hr Hb Hq Hk ->. destruct (Hg) as (Hs & l0 & El & Hc).
  assert (ssockets s !! brk s = None) as Hnone.
  { apply eq_None_not_Some. intros Hp. pose proof (b_brk _ Hs (brk s) (or_intror Hp)). lia. }
  split.
  - destruct Hs. constructor; cbn; rewrite ?insert_insert_eq; try done.
    + intros t. destruct (decide (t = brk s)) as [->|Hne].
      * rewrite lookup_insert_eq. destruct Hk as [[-> ->]|[-> ->]].
        -- rewrite b_track0, Hnone. split; [by intros (? & ? & ? & _)|intros (x & b & [= <-] & Hx); by cbn in Hx].
        -- split; [intros _; eexists _, true; by split|]. intros _. apply elem_of_app. right. by left.
      * rewrite lookup_insert_ne by done. destruct Hk as [[_ ->]|[_ ->]]; rewrite ?elem_of_app, ?list_elem_of_singleton, b_track0; tauto.
    + intros t. rewrite elem_of_app, list_elem_of_singleton, b_local0. destruct (decide (t = brk s)) as [->|Hne].
      * rewrite lookup_insert_eq. split; eauto.
      * rewrite lookup_insert_ne by done. tauto.
    + intros t x. destruct (decide (t = brk s)) as [->|Hne].
      * rewrite lookup_insert_eq. intros [= <-]. cbn. by rewrite lookup_insert_eq.
      * rewrite lookup_insert_ne by done. intros Ex. destruct (b_peer0 t x Ex) as [H1 H2]. split; [done|].
        rewrite lookup_insert_ne; [done|]. intros ->. congruence.
    + intros r' t. destruct (decide (r' = r)) as [->|Hne].
      * rewrite lookup_insert_eq. intros [= <-]. rewrite lookup_insert_eq. by eexists.
      * rewrite lookup_insert_ne by done. intros Hr'. destruct (b_back0 r' t Hr') as (x & Ex & Hx). exists x. split; [|done].
        rewrite lookup_insert_ne; [done|]. intros <-. congruence.
    + intros p Hp. destruct (decide (p = brk s)) as [->|Hne]; [lia|]. rewrite lookup_insert_ne in Hp by done. apply b_brk0 in Hp. lia.
  - exists l0. split; [done|]. intros t x b Ex Hx. cbn in Ex. rewrite insert_insert_eq in Ex.
    destruct (decide (t = brk s)) as [->|Hne].
    + rewrite lookup_insert_eq in Ex. injection Ex as <-. unfold packets. cbn. rewrite Hq. cbn.
      destruct Hk as [[-> _]|[-> _]]; cbn in Hx; [done|by injection Hx].
    + rewrite lookup_insert_ne in Ex by done. exact (Hc t x b Ex Hx).
Qed.

Lemma good_alive s : good s -> trackers_alive s.
Proof. intros [Hs _]. apply Forall_forall. intros t (x & b & Ex & _)%(b_track _ Hs). eauto. Qed.

(** A transport goes away: a one-shot list is closed as its owner would, a tracker is
    lost. *)
Lemma transport_close_good s q :
  good s -> is_Some (ssockets s !! q) ->
  exists s', transport_close s q = Done s' /\
    ((forall x b, ssockets s !! q = Some x -> serves x <> Tracker b) -> good s') /\
    (forall x b, ssockets s !! q = Some x -> serves x = Tracker b -> q ∈ _jdwp_trackers_list s' /\ ssockets s' !! q = None).
Proof.
  intros Hg [x Ex]. unfold transport_close. rewrite Ex. cbn [deref mbind outcome_bind].
  destruct (b_peer _ (good_base _ Hg) q x Ex) as [Hn _]. rewrite (proj2 (Nat.eqb_neq _ _) Hn).
  unfold peer_close at 1. cbn [backlink put_backlink closed_peers]. rewrite lookup_delete_eq. cbn [mbind outcome_bind].
  eexists. split; [reflexivity|]. split.
  - intros Hk. destruct (remove_ssocket_good s q x (closed_peers s ++ [peer x]) Hg Ex) as (s' & E & Hg').
    unfold remove_ssocket in E. cbn [ssockets put_backlink] in E. rewrite Ex in E. cbn [deref mbind outcome_bind] in E.
    destruct (serves x) as [b|pass] eqn:Ek; [by destruct (Hk x b eq_refl Ek)|]. by injection E as <-.
  - intros y b [= <-] Hb. cbn. split; [|by rewrite lookup_delete_eq]. apply (b_track _ (good_base _ Hg)). eauto.
Qed.

Lemma run_good s c : good s -> jdwp_call_ok s c ->
  exists s', run s c = Done s' /\
    (good s' \/ exists q x b, c = CTransportGone q /\ ssockets s !! q = Some x /\ serves x = Tracker b /\
       q ∈ _jdwp_trackers_list s' /\ ssockets s' !! q = None /\ procs s' = procs s).
Proof.
  intros Hg Hc.
  assert (forall m, (exists s', m = Done s' /\ good s') -> exists s', m = Done s' /\ (good s' \/ exists q x b, c = CTransportGone q /\ ssockets s !! q = Some x /\ serves x = Tracker b /\
       q ∈ _jdwp_trackers_list s' /\ ssockets s' !! q = None /\ procs s' = procs s)) as Hyes by (intros m (s' & E & Hg'); eauto).
  destruct c as [events l|p r w|p events|n fds|r|r|q|q|q|r|q]; cbn [run jdwp_call_ok] in *; [apply Hyes..|].
  - eexists. split; [done|]. by apply control_good.
  - destruct Hc as [x Ex]. rewrite Ex. cbn [deref mbind outcome_bind]. eexists. split; [done|].
    pose proof (b_proc _ (good_base _ Hg) p x Ex) as Hx.
    apply (good_put_proc s p x _ Hg Ex); [|done]. destruct Hx; by constructor.
  - by apply process_event_good.
  - destruct (connection_fd_good s n fds Hg) as (r & s' & -> & Hg'). cbn. eauto.
  - destruct Hc as (H1 & H2 & H3). eexists. split; [done|]. apply open_good; auto.
  - destruct Hc as (H1 & H2 & H3). eexists. split; [done|]. apply open_good; auto.
  - by apply ssocket_ready_good.
  - destruct (ssocket_enqueue_good s q Hg Hc) as (s' & -> & Hg'). cbn. eauto.
  - by apply ssocket_close_good.
  - by apply peer_close_good.
  - destruct (transport_close_good s q Hg Hc) as (s' & E & H1 & H2). exists s'. split; [exact E|]. destruct Hc as [x Ex].
    destruct (serves x) as [b|pass] eqn:Ek; [right|left].
    + exists q, x, b. destruct (H2 x b Ex Ek). split_and!; try done.
      unfold transport_close in E. rewrite Ex in E. cbn [deref mbind outcome_bind] in E.
      destruct (b_peer _ (good_base _ Hg) q x Ex) as [Hn _]. rewrite (proj2 (Nat.eqb_neq _ _) Hn) in E.
      unfold peer_close in E. cbn [backlink put_backlink closed_peers] in E. rewrite lookup_delete_eq in E.
      cbn [mbind outcome_bind] in E. by injection E as <-.
    + apply H1. intros y b Ey. rewrite Ex in Ey. injection Ey as <-. by rewrite Ek.
Qed.

Lemma reach_good s : reach s -> trackers_alive s -> good s.
Proof.
  induction 1 as [|s c s' _ IH Ha Hc E]; intros Ha'; [apply init_good|].
  destruct (run_good s c (IH Ha) Hc) as (s1 & E1 & [Hg|(q & x & b & _ & _ & _ & Hq & Hn & _)]); rewrite E in E1; injection E1 as <-; [done|].
  unfold trackers_alive in Ha'. rewrite Forall_forall in Ha'. destruct (Ha' q Hq) as [y Ey]. congruence.
Qed.
End reach.

(** ** The results *)

(** C35 (safety). Whatever connects, sends, breaks off or is opened and closed, in
    any order, as long as no freed tracker is on the list: every event is handled without
    a store outside the four-byte and four-descriptor arrays, a null peer or freed memory,
    and within the loops' fuel, and afterwards a machine waits for room to write exactly
    when descriptors are queued for it.  After it there is again no freed tracker on the
    list, but for one event: the transport of a track-jdwp client goes away and
    close_all_sockets frees its tracker; the next change of the list then reads freed
    memory ([lost_tracker_read]). *)
Theorem jdwp_safe (s : jdwp) (c : call) :
  reach s -> trackers_alive s -> jdwp_call_ok s c ->
  exists s', run s c = Done s' /\
    (trackers_alive s' \/ exists q x b, c = CTransportGone q /\ ssockets s !! q = Some x /\ serves x = Tracker b) /\
    forall p x, procs s' !! p = Some x ->
      (in_len x <= 4)%nat /\ (out_count x <= MAX_OUT_FDS)%nat /\
      Fdevent.has (fde x) Fdevent.FDE_READ = true /\ Fdevent.has (fde x) Fdevent.FDE_WRITE = bool_decide (out_count x <> 0%nat).
Proof.
  intros Hs Ha Hc. pose proof (reach_good s Hs Ha) as Hg0. destruct (run_good s c Hg0 Hc) as (s' & E & Hg). exists s'. split; [done|].
  assert (forall p x, proc_ok x -> procs s' !! p = Some x ->
      (in_len x <= 4)%nat /\ (out_count x <= MAX_OUT_FDS)%nat /\
      Fdevent.has (fde x) Fdevent.FDE_READ = true /\ Fdevent.has (fde x) Fdevent.FDE_WRITE = bool_decide (out_count x <> 0%nat)) as Hproc.
  { intros p x [] _. split_and!; [done..| |]; rewrite p_fde0.
    - by destruct (out_count x =? 0)%nat.
    - by destruct (out_count x). }
  destruct Hg as [Hg|(q & x & b & -> & Ex & Hb & _ & _ & Ep)].
  - split; [left; by apply good_alive|]. intros p x Ex. apply (Hproc p); [|done]. by apply (b_proc _ (good_base _ Hg) p).
  - split; [right; by exists q, x, b|]. intros p y Ey. apply (Hproc p); [|done]. rewrite Ep in Ey. by apply (b_proc _ (good_base _ Hg0) p).
Qed.

Lemma fits_all cap l : (length (concat l) < cap)%nat -> fits cap l = concat l.
Proof.
  revert cap. induction l as [|x l IH]; intros cap Hl; [done|]. cbn [concat fits] in Hl |- *. rewrite length_app in Hl.
  rewrite (proj2 (Nat.ltb_lt _ _)) by lia. by rewrite IH by lia.
Qed.

(** At every moment every tracker's last packet is the current list
    of process ids, in order of connection, after its length in hexadecimal; only a
    tracker that has not been asked for data may have had no packet.  The list is
    complete as long as it takes no more than 1019 bytes; a longer one is cut to
    whole lines. *)
Theorem trackers_current (s : jdwp) (t : ptr) (x : ssocket) (b : bool) :
  reach s -> trackers_alive s -> ssockets s !! t = Some x -> serves x = Tracker b ->
  exists l, listed s = Done l /\
    match last (packets s (peer x)) with
    | None => b = true
    | Some d => exists text, d = Sockets.hex4 (Z.of_nat (length text)) ++ text /\
        (text = fits 1020 (pid_lines l) \/ text = fits 4092 (pid_lines l)) /\
        ((length (concat (pid_lines l)) <= 1019)%nat -> text = concat (pid_lines l))
    end.
Proof.
  intros Hs Ha Ex Hx. destruct (reach_good s Hs Ha) as (_ & l & El & Hc). exists l. split; [done|].
  specialize (Hc t x b Ex Hx). destruct (last _) as [d|]; [|done]. destruct Hc as [->| ->]; eexists; (split; [done|]).
  - split; [by left|]. intros Hl. unfold list_text. apply fits_all. lia.
  - split; [by right|]. intros Hl. unfold list_text. apply fits_all. unfold Packet.MAX_PAYLOAD. lia.
Qed.

(** The process id arrives in any pieces. *)
Lemma read_pid_full fuel x d l e :
  proc_ok x -> (rd_weight (reads x) < fuel)%nat -> (in_len x + length d = 4)%nat -> deliver (reads x) = (d ++ l, e) ->
  exists r, read_pid fuel x = Done (Complete, with_in x (take (in_len x) (in_buff x) ++ d) 4 r).
Proof.
  revert x d. induction fuel as [|fuel IH]; intros x d Hx Hf Hd El; [lia|]. cbn [read_pid].
  destruct (Nat.leb_spec 4 (in_len x)) as [Hfull|Hlen].
  { assert (d = []) as -> by (destruct d; [done|cbn in Hd; lia]). exists (reads x).
    assert (in_len x = 4%nat) as E4 by (pose proof (p_in _ Hx); lia). rewrite E4, app_nil_r, take_ge by (rewrite (p_buff _ Hx); lia).
    destruct x; cbn in *. by subst. }
  destruct (Io.adb_read (reads x) (4 - in_len x)) as [[r l1]|] eqn:E.
  2:{ destruct (reads x) as [|[b q| |e'] s']; cbn in E, El; [destruct d; [cbn in Hd; lia|done]| |done|done].
      by repeat case_match. }
  pose proof (adb_read_weight (reads x) (4 - in_len x) r l1 ltac:(lia) E) as Hw.
  pose proof (adb_read_deliver (reads x) (4 - in_len x) r l1 ltac:(lia) E) as Hr.
  destruct r as [q| |e'].
  - destruct Hr as (Hq & Hdel & _). rewrite El in Hdel. injection Hdel as Hdel He.
    assert (q = take (length q) d) as Eq.
    { apply (f_equal (take (length q))) in Hdel. rewrite take_app_length, take_app_le in Hdel by lia. done. }
    assert (d = q ++ drop (length q) d) as Hsplit by (rewrite Eq at 1; by rewrite take_drop).
    unfold store_bytes. rewrite decide_True by (rewrite (p_buff _ Hx); lia). cbn [deref mbind outcome_bind].
    match goal with |- context [read_pid fuel ?y] => destruct (IH y (drop (length q) d)) as (r & ->) end.
    + destruct Hx. constructor; cbn; try done; [|lia]. rewrite !length_app, length_take, length_drop. lia.
    + cbn. lia.
    + cbn. rewrite length_drop. lia.
    + cbn. rewrite Hsplit, <- app_assoc in Hdel. apply app_inv_head in Hdel. destruct (deliver l1). cbn in *. by subst.
    + exists r. cbn. f_equal. f_equal. unfold with_in. cbn. f_equal.
      assert (length (take (in_len x) (in_buff x)) = in_len x) as Ht by (rewrite length_take, (p_buff _ Hx); lia).
      rewrite app_assoc, take_app_le by (rewrite length_app; lia).
      rewrite take_ge by (rewrite length_app; lia). rewrite <- app_assoc. f_equal. by symmetry.
  - rewrite El in Hr. injection Hr as Hr _. destruct d; [cbn in Hd; lia|done].
  - destruct e'; try (rewrite El in Hr; injection Hr as Hr _; destruct d; [cbn in Hd; lia|done]).
    destruct Hr as [Hdel _]. match goal with |- context [read_pid fuel ?y] => destruct (IH y d) as (r & ->) end.
    + destruct Hx; by constructor.
    + cbn. lia.
    + done.
    + cbn. by rewrite <- Hdel.
    + by exists r.
Qed.

Lemma sscanf_hex4 n : 0 <= n < 65536 -> sscanf_04x (until_nul (Sockets.hex4 n)) = Some n.
Proof.
  intros Hn. rewrite until_nul_id by (by apply hex4_no_nul). unfold sscanf_04x. destruct (hex4_number n Hn) as [E ->].
  rewrite take_ge by (rewrite hex4_length; lia). rewrite E. cbn. by rewrite u32_small by lia.
Qed.

(** From the debugger to the machine.  A machine that has connected
    and sends its process id as four hexadecimal digits, in any pieces, is listed
    under it; a debugger that asks for that id then gets one end of the new pair of
    sockets, and the next chance to write hands the machine the other end.  That
    other end is not closed here afterwards. *)
Theorem debugger_reaches (s : jdwp) (p : ptr) (x : process) (n : Z) (l : bytes) (e : ending) (a b : Z) (w : list sending) :
  reach s -> trackers_alive s -> procs s !! p = Some x -> pid x = -1 -> in_len x = 0%nat -> out_count x = 0%nat ->
  0 <= n < 65536 -> deliver (reads x) = (Sockets.hex4 n ++ l, e) -> sends x = MsgSent :: w ->
  (forall p' x', procs s !! p' = Some x' -> pid x' <> n) ->
  exists s1 x1, jdwp_process_event s p Fdevent.FDE_READ = Done s1 /\ procs s1 !! p = Some x1 /\ pid x1 = n /\
    exists s2, debugger_fd s1 n (Some (a, b)) = Done (a, s2) /\
      exists s3, jdwp_process_event s2 p Fdevent.FDE_WRITE = Done s3 /\
        handed s3 = handed s ++ [(socket x, b)] /\ closed_fds s3 = closed_fds s.
Proof.
  intros Hs Ha Ex Hpid Hin Hout Hn Hd Hsend Hne. pose proof (reach_good s Hs Ha) as Hg. pose proof (b_proc _ (good_base _ Hg) p x Ex) as Hx.
  unfold jdwp_process_event at 1. rewrite Ex. cbn [deref mbind outcome_bind]. change (Fdevent.has Fdevent.FDE_READ Fdevent.FDE_READ) with true.
  rewrite Hpid. change (-1 <? 0) with true. cbn iota.
  destruct (read_pid_full (S (rd_weight (reads x))) x (Sockets.hex4 n) l e Hx ltac:(lia)) as (r & ->); [rewrite Hin; done|done|].
  rewrite Hin, take_0. cbn [app mbind outcome_bind in_buff with_in]. rewrite sscanf_hex4 by done.
  set (x1 := with_pid (with_in x (Sockets.hex4 n) 4 r) (i32 n)).
  match goal with |- context [jdwp_process_list_updated ?t] => set (s1 := t) end.
  assert (procs s1 !! p = Some x1) as Ex1 by apply lookup_insert_eq.
  assert (base s1) as Hs1.
  { apply (base_put_proc _ p (with_in x (Sockets.hex4 n) 4 r)); [|apply lookup_insert_eq|destruct Hx; constructor; done || (cbn; lia)].
    apply (base_put_proc _ p x); [by apply good_base|done|destruct Hx; constructor; done || (cbn; lia)]. }
  destruct (updated_good s1 Hs1) as (m & -> & Hg1). cbn [mbind outcome_bind]. set (s1' := put_queued s1 m) in *.
  unfold write_event at 1. change (procs s1' !! p) with (procs s1 !! p). rewrite Ex1. cbn [deref mbind outcome_bind].
  change (Fdevent.has Fdevent.FDE_READ Fdevent.FDE_WRITE) with false. cbn [negb].
  exists s1', x1. split; [done|]. split; [done|]. assert (pid x1 = n) as Hp1 by (apply i32_small; lia). split; [done|].
  unfold debugger_fd, create_jdwp_connection_fd. destruct (Hg1) as (_ & l1 & El1 & _). rewrite El1. cbn [mbind outcome_bind].
  apply listed_inv, mapM_Some in El1. assert (p ∈ _jdwp_list s1') as Hp by (apply (b_procs _ (good_base _ Hg1)); cbn; eauto).
  apply list_elem_of_lookup in Hp as [i Hi]. destruct (Forall2_lookup_l _ _ _ _ _ El1 Hi) as (y & Hi' & Ey).
  cbn in Ey. change (procs s1 !! p = Some y) in Ey. rewrite Ex1 in Ey. injection Ey as <-.
  assert (list_find (fun px => pid px.2 = n) (zip (_jdwp_list s1') l1) = Some (i, (p, x1))) as ->.
  { apply list_find_Some. split; [by apply lookup_zip_Some|]. split; [done|]. intros j [p' x'] Hj Hji.
    apply lookup_zip_Some in Hj as [Hj1 Hj2]. destruct (Forall2_lookup_l _ _ _ _ _ El1 Hj1) as (y & Hj2' & Ey).
    cbn in *. rewrite Hj2 in Hj2'. injection Hj2' as <-. assert (p' <> p) as Hpp.
    { intros ->. pose proof (NoDup_lookup _ _ _ _ (b_nodup _ Hs1) Hj1 Hi). lia. }
    rewrite !lookup_insert_ne in Ey by done. by apply (Hne p' x'). }
  cbn [out_count with_pid with_in x1]. rewrite Hout. unfold MAX_OUT_FDS. cbn [Nat.leb].
  rewrite (proj2 (Nat.ltb_lt _ _)) by (cbn; rewrite (p_out _ Hx); unfold MAX_OUT_FDS; lia).
  eexists. split; [done|]. unfold jdwp_process_event. cbn [procs put_proc put_procs]. rewrite lookup_insert_eq. cbn [deref mbind outcome_bind].
  change (Fdevent.has Fdevent.FDE_WRITE Fdevent.FDE_READ) with false. cbn iota.
  unfold write_event. cbn [procs put_proc put_procs]. rewrite lookup_insert_eq. cbn [deref mbind outcome_bind].
  change (Fdevent.has Fdevent.FDE_WRITE Fdevent.FDE_WRITE) with true. cbn [negb out_count with_out Nat.eqb].
  cbn [out_fds with_out x1 with_pid with_in]. rewrite list_lookup_insert_eq by (rewrite (p_out _ Hx); unfold MAX_OUT_FDS; lia).
  cbn [deref mbind outcome_bind sends with_out with_pid with_in]. change (sends x1) with (sends x). rewrite Hsend. cbn. eexists. split; [done|]. by split.
Qed.

(** ** Concrete runs *)

(** A machine that connects and sends text. *)
Definition one_machine (text : bytes) (w : list sending) : jdwp :=
  (jdwp_process_alloc init_jdwp_lists 7 (feed text) w).2.

Lemma one_machine_reach text w : reach (one_machine text w).
Proof. by apply (reach_call init_jdwp_lists (CControl Fdevent.FDE_READ [Accepted 7 (feed text) w])); [apply reach_init|constructor|..]. Qed.

Lemma debugger_reaches_witness :
  exists s1 x1, jdwp_process_event (one_machine (bs "04d2") [MsgSent]) 1%nat Fdevent.FDE_READ = Done s1 /\ procs s1 !! 1%nat = Some x1 /\ pid x1 = 1234 /\
    exists s2, debugger_fd s1 1234 (Some (8, 9)) = Done (8, s2) /\
      exists s3, jdwp_process_event s2 1%nat Fdevent.FDE_WRITE = Done s3 /\ handed s3 = [(7, 9)] /\ closed_fds s3 = [].
Proof.
  apply (debugger_reaches (one_machine (bs "04d2") [MsgSent]) 1%nat
    (mk_proc (-1) 7 1 (replicate 4 0) 0 (replicate 4 0) 0 (feed (bs "04d2")) [MsgSent]) 1234 [] Exhausted 8 9 []).
  - apply one_machine_reach.
  - constructor.
  - by vm_compute.
  - done.
  - done.
  - done.
  - lia.
  - by vm_compute.
  - done.
  - intros p' x'. destruct (decide (p' = 1%nat)) as [->|Hne].
    + intros E. vm_compute in E. by injection E as <-.
    + unfold one_machine, jdwp_process_alloc. cbn [snd procs put_brk put_procs init_jdwp_lists brk]. by rewrite lookup_insert_ne, lookup_empty by done.
Defined.

Lemma jdwp_safe_witness :
  exists s', run (one_machine (bs "04d2") []) (CEvent 1%nat 3) = Done s' /\
    (trackers_alive s' \/ exists q x b, CEvent 1%nat 3 = CTransportGone q /\ ssockets (one_machine (bs "04d2") []) !! q = Some x /\ serves x = Tracker b) /\
    forall p x, procs s' !! p = Some x ->
      (in_len x <= 4)%nat /\ (out_count x <= MAX_OUT_FDS)%nat /\
      Fdevent.has (fde x) Fdevent.FDE_READ = true /\ Fdevent.has (fde x) Fdevent.FDE_WRITE = bool_decide (out_count x <> 0%nat).
Proof. apply (jdwp_safe (one_machine (bs "04d2") []) (CEvent 1%nat 3)); [apply one_machine_reach|constructor|]. vm_compute. eauto. Defined.

(** A tracker, and a machine that then says its id. *)
Definition after (s : jdwp) (c : call) : jdwp := match run s c with Done s' => s' | _ => s end.
Definition tracked : jdwp := after (after (one_machine (bs "04d2") []) (COpenTracker 9%nat)) (CEvent 1%nat 1).

Lemma after_reach s c : reach s -> trackers_alive s -> jdwp_call_ok s c -> reach (after s c).
Proof.
  intros Hs Ha Hc. unfold after. destruct (run s c) as [s'| |] eqn:E; [|done..]. by eapply reach_call.
Qed.

Lemma trackers_current_witness :
  packets tracked 9%nat = [bs "00051234" ++ [10]] /\
  exists l, listed tracked = Done l /\
    match last (packets tracked 9%nat) with
    | None => true = true
    | Some d => exists text, d = Sockets.hex4 (Z.of_nat (length text)) ++ text /\
        (text = fits 1020 (pid_lines l) \/ text = fits 4092 (pid_lines l)) /\
        ((length (concat (pid_lines l)) <= 1019)%nat -> text = concat (pid_lines l))
    end.
Proof.
  split; [by vm_compute|]. apply (trackers_current tracked 2%nat (mk_ssocket 9%nat (Tracker true)) true); [| |by vm_compute|done].
  - apply after_reach; [apply after_reach; [apply one_machine_reach|constructor|by split_and!]|..]; vm_compute; [by repeat (constructor; eauto)|eauto].
  - vm_compute. by repeat (constructor; eauto).
Defined.

(** A process id that is not positive is never drained: the machine stays unlisted
    and each event finds it as the one before. *)
Example negative_pid_spins :
  exists s1 s2, jdwp_process_event (one_machine (bs "-fffmore") []) 1%nat 1 = Done s1 /\ pid <$> procs s1 !! 1%nat = Some (-4095) /\
    jdwp_process_event s1 1%nat 1 = Done s2 /\ procs s2 !! 1%nat = procs s1 !! 1%nat /\ reads <$> procs s2 !! 1%nat = Some (feed (bs "more")).
Proof. eexists _, _. split; [vm_compute; reflexivity|]. split; [by vm_compute|]. split; [vm_compute; reflexivity|]. by vm_compute. Qed.

(** Asking for process -1 finds a machine that has not said its id. *)
Example minus_one_matches :
  exists s', debugger_fd (one_machine (bs "04") []) (-1) (Some (8, 9)) = Done (8, s').
Proof. eexists. by vm_compute. Qed.

(** The transport of a tracker goes away, and then the machine: the freed tracker is read. *)
Example lost_tracker_read :
  exists s, run tracked (CTransportGone 2%nat) = Done s /\ closed_peers s = [9%nat] /\
    jdwp_process_event (put_proc s 1%nat (mk_proc 1234 7 1 (replicate 4 0) 4 (replicate 4 0) 0 [Io.REof] [])) 1%nat 1 = Undef "tracker".
Proof. eexists. split; [vm_compute; reflexivity|]. by vm_compute. Qed.
