(* ===== verification/HostRequest.v ===== *)
(** * The requests the server answers itself (tools/adb/adb.c, host build)

    install_listener and remove_listener keep the list of forwarded ports, each tied
    to its transport by a node on the transport's disconnect list; handle_host_request
    answers the host: services.  The list is a list of listeners with their
    addresses (see Dlist for circular lists).  Opening sockets and registering
    transports are the class [HostOps]; what the server writes to the client is
    collected, as the code ignores failures of these writes.  The theorems show that
    forwards are kept consistent with the transports and their sockets, what each
    request does to them, and that the answers are those the client library reads
    (AdbClient). *)

From S2P Require Import Prelude Io Dlist FileSync Sockets AdbClient Transport.

Class HostOps (W : Type) := {
  h_loopback_server : W -> Z -> Z * W;                    (* socket_loopback_server *)
  h_local_server : W -> bytes -> bool -> Z * W;           (* socket_local_server; true: abstract *)
  h_network_client : W -> bytes -> Z -> Z * W;            (* socket_network_client *)
  h_register_socket : W -> Z -> bytes -> Z -> W;          (* register_socket_transport *)
  h_local_connect : W -> Z -> Z -> bool * W;              (* local_connect_arbitrary_ports; true: failed *)
  h_unregister : W -> ptr -> W;
  h_unregister_all_tcp : W -> W
}.

(** [l_smart]: the event function is that of the smart socket. *)
Record alistener := mk_listener {
  l_addr : ptr; l_fd : Z; local_name : bytes; connect_to : bytes; l_transport : option ptr; l_smart : bool
}.

Definition with_target (l : alistener) (c : bytes) (t : option ptr) : alistener :=
  mk_listener (l_addr l) (l_fd l) (local_name l) c t (l_smart l).

(** ** Text *)

Fixpoint has_prefix (p s : bytes) : bool :=
  match p, s with
  | [], _ => true
  | a :: p, b :: s => (a =? b) && has_prefix p s
  | _, [] => false
  end.

(** sscanf with %d: end of input, no number, or an int. *)
Inductive scanned := ScanEnd | ScanNone | ScanInt (v : Z).
Definition sscanf_d (l : bytes) : scanned :=
  match skip_space l with
  | [] => ScanEnd
  | l => let '(_, seen) := AdbClient.digits 10 (split_sign l).2 0 false in
         if seen : bool then ScanInt (i32 (strtol10 l)) else ScanNone
  end.
Definition atoi (l : bytes) : Z := i32 (strtol10 l).

(** strtol with base 0, as an int. *)
Definition strtol0 (l : bytes) : Z :=
  let '(neg, l) := split_sign (skip_space l) in
  let v :=
    match l with
    | 48 :: 120 :: d :: l' | 48 :: 88 :: d :: l' =>
        if Service.digit_value d <? 16 then Service.digits 16 (d :: l') 0 else 0
    | 48 :: l' => Service.digits 8 l' 0
    | _ => Service.digits 10 l 0
    end in
  i32 (if neg : bool then Z.max (- 2 ^ 63) (- v) else Z.min (2 ^ 63 - 1) v).

(** snprintf into [n] bytes. *)
Definition fmt (n : nat) (text : bytes) : bytes := take (n - 1) text.

Section server.
Context {W : Type} `{HostOps W}.

Record server := mk_server {
  listener_list : list alistener; disconnects : gmap ptr (list ptr); brk : ptr; closed_fds : list Z;
  transport_list : list Transport.atransport; local_transports : Transport.table;
  world : W; reply : bytes
}.

Definition put_listeners (s : server) v d : server :=
  mk_server v d (brk s) (closed_fds s) (transport_list s) (local_transports s) (world s) (reply s).
Definition put_next (s : server) : server :=
  mk_server (listener_list s) (disconnects s) (S (brk s)) (closed_fds s) (transport_list s) (local_transports s) (world s) (reply s).
Definition put_closed (s : server) (fd : Z) : server :=
  mk_server (listener_list s) (disconnects s) (brk s) (closed_fds s ++ [fd]) (transport_list s) (local_transports s) (world s) (reply s).
Definition put_world (s : server) (w : W) : server :=
  mk_server (listener_list s) (disconnects s) (brk s) (closed_fds s) (transport_list s) (local_transports s) w (reply s).
Definition put_reply (s : server) (d : bytes) : server :=
  mk_server (listener_list s) (disconnects s) (brk s) (closed_fds s) (transport_list s) (local_transports s) (world s) (reply s ++ d).

(** ** Listeners *)

Definition add_disconnect (d : gmap ptr (list ptr)) (t : option ptr) (p : ptr) : gmap ptr (list ptr) :=
  match t with Some t => <[t := default [] (d !! t) ++ [p]]> d | None => d end.
Definition remove_disconnect (d : gmap ptr (list ptr)) (t : option ptr) (p : ptr) : gmap ptr (list ptr) :=
  match t with Some t => <[t := filter (fun q => q <> p) (default [] (d !! t))]> d | None => d end.

Definition free_listener (s : server) (l : alistener) : server :=
  put_closed (put_listeners s (filter (fun x => l_addr x <> l_addr l) (listener_list s))
    (remove_disconnect (disconnects s) (l_transport l) (l_addr l))) (l_fd l).

Definition local_name_to_fd (s : server) (name : bytes) : Z * server :=
  if has_prefix (bs "tcp:") name then
    let '(r, w) := h_loopback_server (world s) (atoi (drop 4 name)) in (r, put_world s w)
  else if has_prefix (bs "local:") name then
    let '(r, w) := h_local_server (world s) (drop 6 name) true in (r, put_world s w)
  else if has_prefix (bs "localabstract:") name then
    let '(r, w) := h_local_server (world s) (drop 14 name) true in (r, put_world s w)
  else if has_prefix (bs "localfilesystem:") name then
    let '(r, w) := h_local_server (world s) (drop 16 name) false in (r, put_world s w)
  else (-1, s).

Definition remove_listener (s : server) (name target : bytes) (t : ptr) : Z * server :=
  match list_find (fun l => name = local_name l /\ target = connect_to l /\ l_transport l = Some t) (listener_list s) with
  | Some (_, l) => (0, free_listener s l)
  | None => (-1, s)
  end.

Definition smartsocket : bytes := bs "*smartsocket*".

Definition install_listener (s : server) (name target : bytes) (t : option ptr) : outcome (Z * server) :=
  match list_find (fun l => name = local_name l) (listener_list s) with
  | Some (i, l) =>
      if bool_decide (take 1 (connect_to l) = bs "*") then Done (-1, s)
      else if decide (l_transport l = t) then
        Done (0, put_listeners s (<[i := with_target l target t]> (listener_list s)) (disconnects s))
      else
        match l_transport l with
        | None => Undef "transport"   (* remove_transport_disconnect of a null transport *)
        | Some _ =>
            if decide (t = None) then Undef "transport"
            else Done (0, put_listeners s (<[i := with_target l target t]> (listener_list s))
                   (add_disconnect (remove_disconnect (disconnects s) (l_transport l) (l_addr l)) t (l_addr l)))
        end
  | None =>
      let '(fd, s) := local_name_to_fd s name in
      if fd <? 0 then Done (-2, s)
      else
        let l := mk_listener (brk s) fd name target t (bool_decide (target = smartsocket)) in
        Done (0, put_next (put_listeners s (listener_list s ++ [l]) (add_disconnect (disconnects s) t (brk s))))
  end.

(** run_transport_disconnects, as far as it concerns listeners. *)
Fixpoint run_disconnects (s : server) (ps : list ptr) : outcome server :=
  match ps with
  | [] => Done s
  | p :: ps =>
      '(_, l) ← deref "listener" (list_find (fun l => l_addr l = p) (listener_list s));
      run_disconnects (free_listener s l) ps
  end.
Definition transport_gone (s : server) (t : ptr) : outcome server :=
  run_disconnects s (default [] (disconnects s !! t)).

Definition build_local_name (n : nat) (port : Z) : bytes := fmt n (bs "tcp:" ++ decimal port).

(** ** connect: *)

(** The text left in the buffer, of 4096 bytes. *)
Definition connect_device (s : server) (host : bytes) : outcome (bytes * server) :=
  let go (s : server) (hostbuf : bytes) (port : Z) :=
    let serial := fmt 100 (hostbuf ++ bs ":" ++ decimal port) in
    match Transport.find_transport serial (transport_list s) with
    | Some _ => Done (fmt 4096 (bs "already connected to " ++ serial), s)
    | None =>
        let '(fd, w) := h_network_client (world s) hostbuf port in
        if fd <? 0 then Done (fmt 4096 (bs "unable to connect to " ++ host ++ bs ":" ++ decimal port), put_world s w)
        else Done (fmt 4096 (bs "connected to " ++ serial), put_world s (h_register_socket w fd serial port))
    end in
  match Sockets.split_at 58 host with
  | Some (name, portstr) =>
      if (100 <=? length name)%nat then Done (fmt 4096 (bs "bad host name " ++ host), s)
      else
        match sscanf_d portstr with
        | ScanNone => Done (fmt 4096 (bs "bad port number :" ++ portstr), s)
        | ScanEnd => Undef "port"
        | ScanInt port => go s name port
        end
  | None => if (99 <=? length host)%nat then Undef "hostbuf" else go s host 5555
  end.

Definition connect_emulator (s : server) (port_spec : bytes) : bytes * server :=
  match Sockets.split_at 44 port_spec with
  | None => (fmt 4096 (bs "unable to parse '" ++ port_spec ++ bs "' as <console port>,<adb port>"), s)
  | Some (a, b) =>
      let console_port := strtol0 a in
      let adb_port := strtol0 b in
      if negb ((0 <? console_port) && (0 <? adb_port)) then
        (fmt 4096 (bs "Invalid port numbers: Expected positive numbers, got '" ++ port_spec ++ bs "'"), s)
      else
        match Transport.find_emulator_transport_by_adb_port adb_port (local_transports s) with
        | Some _ => (fmt 4096 (bs "Emulator on port " ++ decimal adb_port ++ bs " already registered."), s)
        | None =>
            if Transport.get_available_local_transport_index 0 (local_transports s) <? 0 then
              (fmt 4096 (bs "Cannot accept more emulators."), s)
            else
              let '(failed, w) := h_local_connect (world s) console_port adb_port in
              let ports := decimal console_port ++ bs "," ++ decimal adb_port in
              (fmt 4096 ((if failed : bool then bs "Could not connect to emulator on ports "
                          else bs "Connected to emulator on ports ") ++ ports), put_world s w)
        end
  end.

(** ** handle_host_request *)

(** The process ends, or the result with the transport chosen for the socket. *)
Inductive answer := Killed | Answered (r : Z) (chosen : option ptr).

Definition failmsg (reason : bytes) : bytes :=
  let len := Z.min (Z.of_nat (length reason)) 0xffff in
  bs "FAIL" ++ Sockets.hex4 len ++ take (Z.to_nat len) reason.
(** "OKAY%04x%s" printed into buf[4096]. *)
Definition okay (text : bytes) : bytes := fmt 4096 (bs "OKAY" ++ Sockets.hex4 (Z.of_nat (length text)) ++ text).

Definition acquire (s : server) (ttype : Sockets.transport_type) (serial : option bytes) : Transport.atransport + bytes :=
  match Transport.acquire_pass Transport.CS_ANY ttype serial (transport_list s) with
  | Transport.Taken t => inl t
  | Transport.Failed e => inr e
  | Transport.Retry => inr []
  end.

Definition transport_request (s : server) (service : bytes) (serial : option bytes) : answer * server :=
  let '(type, serial) :=
    if has_prefix (bs "transport-usb") service then (Sockets.kTransportUsb, serial)
    else if has_prefix (bs "transport-local") service then (Sockets.kTransportLocal, serial)
    else if has_prefix (bs "transport-any") service then (Sockets.kTransportAny, serial)
    else if has_prefix (bs "transport:") service then (Sockets.kTransportAny, Some (drop 10 service))
    else (Sockets.kTransportAny, serial) in
  match acquire s type serial with
  | inl t => (Answered 1 (Some (Transport.addr t)), put_reply s (bs "OKAY"))
  | inr e => (Answered 1 None, put_reply s (failmsg e))
  end.

Definition disconnect_request (s : server) (serial : bytes) : server :=
  let '(text, s) :=
    match serial with
    | [] => ([], put_world s (h_unregister_all_tcp (world s)))
    | _ =>
        let serial := if bool_decide (58 ∈ serial) then serial else fmt 99 (serial ++ bs ":5555") in
        match Transport.find_transport serial (transport_list s) with
        | Some t => ([], put_world s (h_unregister (world s) (Transport.addr t)))
        | None => (fmt 4096 (bs "No such device " ++ serial), s)
        end
    end in
  put_reply s (okay text).

Definition forward_request (s : server) (service : bytes) (create : bool) (ttype : Sockets.transport_type)
    (serial : option bytes) : outcome server :=
  let local := drop (if create then 8 else 12) service in
  match Sockets.split_at 59 local with
  | None => Done (put_reply s (failmsg (bs "malformed forward spec")))
  | Some (local, remote) =>
      if bool_decide (local = []) || bool_decide (remote = []) || bool_decide (take 1 remote = bs "*")
      then Done (put_reply s (failmsg (bs "malformed forward spec")))
      else
        match acquire s ttype serial with
        | inr e => Done (put_reply s (failmsg e))
        | inl t =>
            '(r, s) ← (if create then install_listener s local remote (Some (Transport.addr t))
                       else Done (remove_listener s local remote (Transport.addr t)));
            Done (put_reply s
              (if r =? 0 then bs "OKAYOKAY"
               else failmsg (if create then (if r =? -1 then bs "cannot rebind smartsocket" else bs "cannot bind socket")
                             else bs "cannot remove listener")))
        end
  end.

Definition devices (s : server) : outcome bytes :=
  '(mem, len) ← deref "buffer" (Transport.list_transports (transport_list s) (replicate 4096 0)); Done (take len mem).

Definition handle_host_request (s : server) (service : bytes) (ttype : Sockets.transport_type)
    (serial : option bytes) : outcome (answer * server) :=
  if decide (service = bs "kill") then Done (Killed, put_reply s (bs "OKAY"))
  else if has_prefix (bs "transport") service then Done (transport_request s service serial)
  else if decide (service = bs "devices") then
    text ← devices s; Done (Answered 0 None, put_reply s (okay text))
  else if has_prefix (bs "connect:") service then
    let host := drop 8 service in
    '(text, s) ← (if has_prefix (bs "emu:") host then Done (connect_emulator s (drop 4 host)) else connect_device s host);
    Done (Answered 0 None, put_reply s (okay text))
  else if has_prefix (bs "disconnect:") service then
    Done (Answered 0 None, disconnect_request s (drop 11 service))
  else if decide (service = bs "version") then
    Done (Answered 0 None, put_reply s (okay (Sockets.hex4 ADB_SERVER_VERSION)))
  else if has_prefix (bs "get-serialno") service then
    let out := match acquire s ttype serial with inl t => default (bs "unknown") (Transport.serial t) | inr _ => bs "unknown" end in
    Done (Answered 0 None, put_reply s (okay out))
  else if has_prefix (bs "emulator:") service then
    let port := atoi (drop 9 service) in
    let '(_, w) := h_local_connect (world s) (port - 1) port in
    Done (Answered 0 None, put_world s w)
  else if has_prefix (bs "forward:") service then
    s ← forward_request s service true ttype serial; Done (Answered 0 None, s)
  else if has_prefix (bs "killforward:") service then
    s ← forward_request s service false ttype serial; Done (Answered 0 None, s)
  else if has_prefix (bs "get-state") service then
    let state := match acquire s ttype serial with inl t => Some (Transport.connection_state t) | inr _ => None end in
    Done (Answered 0 None, put_reply s (okay (Transport.connection_state_name state)))
  else Done (Answered (-1) None, s).

End server.
Arguments server : clear implicits.

(** ** Consistency of the listeners *)

Section consistent.
Context {W : Type} `{HostOps W}.
Implicit Types s : server W.

Definition nodes s (t : ptr) : list ptr := default [] (disconnects s !! t).
Definition starred (x : bytes) : Prop := take 1 x = bs "*".

Record listeners_ok s : Prop := {
  o_addr : NoDup (l_addr <$> listener_list s);
  o_name : NoDup (local_name <$> listener_list s);
  o_brk l : l ∈ listener_list s -> (l_addr l < brk s)%nat;
  o_smart l : l ∈ listener_list s ->
    match l_transport l with None => starred (connect_to l) /\ l_smart l = true | Some _ => ~ starred (connect_to l) /\ l_smart l = false end;
  o_nodup t : NoDup (nodes s t);
  o_nodes t p : p ∈ nodes s t <-> exists l, l ∈ listener_list s /\ l_addr l = p /\ l_transport l = Some t
}.

(** Two listeners with one address are one. *)
Lemma addr_inj s l l' : listeners_ok s -> l ∈ listener_list s -> l' ∈ listener_list s -> l_addr l = l_addr l' -> l = l'.
Proof.
  intros Hs [i Hi]%list_elem_of_lookup [j Hj]%list_elem_of_lookup E.
  assert (i = j) as ->; [|congruence].
  eapply NoDup_lookup; [apply (o_addr _ Hs)|..]; rewrite list_lookup_fmap, ?Hi, ?Hj; cbn; by rewrite ?E.
Qed.

Lemma name_inj s l l' : listeners_ok s -> l ∈ listener_list s -> l' ∈ listener_list s -> local_name l = local_name l' -> l = l'.
Proof.
  intros Hs [i Hi]%list_elem_of_lookup [j Hj]%list_elem_of_lookup E.
  assert (i = j) as ->; [|congruence].
  eapply NoDup_lookup; [apply (o_name _ Hs)|..]; rewrite list_lookup_fmap, ?Hi, ?Hj; cbn; by rewrite ?E.
Qed.

Lemma NoDup_fmap_filter {A B} (f : A -> B) (P : A -> Prop) `{!forall x, Decision (P x)} l :
  NoDup (f <$> l) -> NoDup (f <$> filter P l).
Proof.
  induction l as [|x l IH]; [done|]. rewrite fmap_cons, NoDup_cons. intros [Hx Hl]. rewrite filter_cons.
  case_decide; [|by apply IH]. rewrite fmap_cons, NoDup_cons. split; [|by apply IH].
  intros Hin. apply Hx. apply list_elem_of_fmap in Hin as (y & E & [_ Hy]%list_elem_of_filter). rewrite E. by apply list_elem_of_fmap_2.
Qed.

(** Taking a listener out. *)
Lemma free_listener_ok s l : listeners_ok s -> l ∈ listener_list s -> listeners_ok (free_listener s l).
Proof.
  intros Hs Hl. assert (forall t, nodes (free_listener s l) t = if decide (l_transport l = Some t) then filter (fun q => q <> l_addr l) (nodes s t) else nodes s t) as Hn.
  { intros t. unfold nodes, free_listener, remove_disconnect. cbn. destruct (l_transport l) as [t'|].
    - destruct (decide (t' = t)) as [->|Hne]; [by rewrite lookup_insert_eq, decide_True by done|].
      rewrite lookup_insert_ne by done. rewrite decide_False; [done|]. by intros [= ->].
    - by rewrite decide_False by done. }
  destruct Hs as [H1 H2 H3 H4 H5 H6]. constructor; cbn.
  - by apply NoDup_fmap_filter.
  - by apply NoDup_fmap_filter.
  - intros x [_ Hx]%list_elem_of_filter. by apply H3.
  - intros x [_ Hx]%list_elem_of_filter. by apply H4.
  - intros t. rewrite Hn. case_decide; [by apply NoDup_filter|apply H5].
  - intros t p. rewrite Hn. transitivity (p ∈ nodes s t /\ p <> l_addr l).
    + case_decide; [rewrite list_elem_of_filter; tauto|]. split; [|tauto]. intros Hp. split; [done|]. intros ->.
      apply H6 in Hp as (x & Hx & E & Ht). assert (x = l) as -> by (apply (addr_inj s); [by constructor|done..]). done.
    + rewrite H6. split.
      * intros [(x & Hx & E & Ht) Hne]. exists x. rewrite list_elem_of_filter. split_and!; try done. congruence.
      * intros (x & [Hne Hx]%list_elem_of_filter & E & Ht). split; [by exists x|congruence].
Qed.

(** The listeners at some addresses. *)
Definition at_addrs (ps : list ptr) (ls : list alistener) : list alistener := filter (fun l => l_addr l ∈ ps) ls.

Lemma at_addrs_cons s l ps :
  listeners_ok s -> l ∈ listener_list s -> l_addr l ∉ ps ->
  at_addrs (l_addr l :: ps) (listener_list s) ≡ₚ l :: at_addrs ps (filter (fun x => l_addr x <> l_addr l) (listener_list s)).
Proof.
  intros Hs Hl Hp. pose proof (NoDup_fmap_1 _ _ (o_addr _ Hs)) as Hnd. unfold at_addrs. apply NoDup_Permutation.
  - by apply NoDup_filter.
  - apply NoDup_cons. split; [|by do 2 apply NoDup_filter]. by intros [? _]%list_elem_of_filter.
  - intros x. rewrite elem_of_cons, !list_elem_of_filter, elem_of_cons. split.
    + intros [[E|Hx] Hin]; [left; by apply (addr_inj s)|]. right. split_and!; try done. by intros E; rewrite E in Hx.
    + intros [->|(Hx & _ & Hin)]; [split; [by left|done]|split; [by right|done]].
Qed.

(** A transport that goes takes exactly its listeners with it. *)
Lemma run_disconnects_ok s ps :
  listeners_ok s -> NoDup ps -> (forall p, p ∈ ps -> exists l, l ∈ listener_list s /\ l_addr l = p) ->
  exists s', run_disconnects s ps = Done s' /\ listeners_ok s' /\
    listener_list s' = filter (fun l => l_addr l ∉ ps) (listener_list s) /\ reply s' = reply s /\
    closed_fds s' ≡ₚ closed_fds s ++ (l_fd <$> at_addrs ps (listener_list s)).
Proof.
  revert s. induction ps as [|p ps IH]; intros s Hs Hnd Hps.
  { exists s. split; [done|]. split; [done|]. split; [symmetry; apply filter_all; by intros l _ ?%elem_of_nil|]. split; [done|].
    assert (at_addrs [] (listener_list s) = []) as ->; [|by rewrite app_nil_r]. unfold at_addrs.
    generalize (listener_list s). clear. intros ls. induction ls as [|l ls IH]; [done|]. by rewrite filter_cons_False by apply not_elem_of_nil. }
  cbn [run_disconnects]. destruct (Hps p) as (l & Hl & E); [by left|].
  destruct (list_find (fun l => l_addr l = p) (listener_list s)) as [[i x]|] eqn:Ef.
  2:{ exfalso. apply list_find_None in Ef. rewrite Forall_forall in Ef. by apply (Ef l). }
  apply list_find_Some in Ef as (Hi & Ex & _). assert (x = l) as ->.
  { apply (addr_inj s); [done|by eapply list_elem_of_lookup_2|done|congruence]. }
  cbn [deref mbind outcome_bind]. apply NoDup_cons in Hnd as [Hp Hnd].
  destruct (IH (free_listener s l)) as (s' & E' & Hs' & El & Er & Ec); [by apply free_listener_ok|done| |].
  - intros q Hq. destruct (Hps q) as (y & Hy & Ey); [by right|]. exists y. split; [|done].
    cbn. apply list_elem_of_filter. split; [|done]. congruence.
  - exists s'. split; [done|]. split; [done|]. split; [|split].
    + rewrite El. cbn. rewrite list_filter_filter. apply list_filter_iff. intros y. rewrite not_elem_of_cons, E. tauto.
    + done.
    + rewrite Ec, <- E, (at_addrs_cons s) by (done || congruence). cbn. by rewrite <- app_assoc.
Qed.
(** Changes elsewhere. *)
Lemma listeners_ok_same s s' :
  listeners_ok s -> listener_list s' = listener_list s -> disconnects s' = disconnects s -> brk s' = brk s -> listeners_ok s'.
Proof. intros [H1 H2 H3 H4 H5 H6] E1 E2 E3. unfold nodes in *. constructor; unfold nodes; rewrite ?E1, ?E2, ?E3; done. Qed.

Lemma elem_of_insert_NoDup {A B} (f : A -> B) (l : list A) i x y z :
  NoDup (f <$> l) -> l !! i = Some x -> z ∈ <[i:=y]> l <-> z = y \/ (z ∈ l /\ f z <> f x).
Proof.
  intros Hnd Hi. pose proof (lookup_lt_Some _ _ _ Hi) as Hlt. split.
  - intros [j Hj]%list_elem_of_lookup. destruct (decide (j = i)) as [->|Hne].
    + rewrite list_lookup_insert_eq in Hj by done. left. congruence.
    + rewrite list_lookup_insert_ne in Hj by done. right. split; [by eapply list_elem_of_lookup_2|]. intros E. apply Hne.
      eapply NoDup_lookup; [exact Hnd|..]; rewrite list_lookup_fmap, ?Hi, ?Hj; cbn; by rewrite ?E.
  - intros [->|[[j Hj]%list_elem_of_lookup Hne]]; [by apply list_elem_of_insert|].
    apply list_elem_of_lookup. exists j. rewrite list_lookup_insert_ne; [done|]. intros ->. congruence.
Qed.

(** The nodes after a listener has changed its transport. *)
Lemma rebind_nodes d t0 t (p : ptr) :
  NoDup (default [] (d !! t0)) -> NoDup (default [] (d !! t)) -> p ∉ default [] (d !! t) -> t0 <> t ->
  let d' := add_disconnect (remove_disconnect d (Some t0) p) (Some t) p in
  forall t', (NoDup (default [] (d !! t')) -> NoDup (default [] (d' !! t'))) /\
    forall q, q ∈ default [] (d' !! t') <-> (q ∈ default [] (d !! t') /\ (t' = t0 -> q <> p)) \/ (q = p /\ t' = t).
Proof.
  intros H1 H2 Hp Hne d' t'. unfold d', add_disconnect, remove_disconnect. rewrite (lookup_insert_ne _ t0 t) by done.
  destruct (decide (t' = t)) as [->|Ht].
  - rewrite lookup_insert_eq. cbn. split.
    + intros _. apply NoDup_app. split; [done|]. split; [|apply NoDup_singleton]. by intros q Hq ->%list_elem_of_singleton.
    + intros q. rewrite elem_of_app, list_elem_of_singleton. split; [intros [?| ->]; [left; split; [done|congruence]|by right]|].
      intros [[? _]|[? _]]; [by left|by right].
  - rewrite lookup_insert_ne by done. destruct (decide (t' = t0)) as [->|Ht0].
    + rewrite lookup_insert_eq. cbn. split; [intros Hnd; by apply NoDup_filter|]. intros q. rewrite list_elem_of_filter. naive_solver.
    + rewrite lookup_insert_ne by done. split; [done|]. intros q. naive_solver.
Qed.

Lemma retarget_ok s i l t0 t target d :
  listeners_ok s -> listener_list s !! i = Some l -> l_transport l = Some t0 -> ~ starred target ->
  (if decide (t0 = t) then d = disconnects s else d = add_disconnect (remove_disconnect (disconnects s) (Some t0) (l_addr l)) (Some t) (l_addr l)) ->
  listeners_ok (put_listeners s (<[i := with_target l target (Some t)]> (listener_list s)) d).
Proof.
  intros Hs Hi Ht Hstar Hd. pose proof (list_elem_of_lookup_2 _ _ _ Hi) as Hl. pose proof (o_smart _ Hs l Hl) as Hsm. rewrite Ht in Hsm.
  assert (forall A (f : alistener -> A), f (with_target l target (Some t)) = f l -> f <$> <[i := with_target l target (Some t)]> (listener_list s) = f <$> listener_list s) as Hf.
  { intros A f E. rewrite list_fmap_insert, E. apply list_insert_id. by rewrite list_lookup_fmap, Hi. }
  assert (forall z, z ∈ <[i := with_target l target (Some t)]> (listener_list s) <-> z = with_target l target (Some t) \/ (z ∈ listener_list s /\ l_addr z <> l_addr l)) as Hin.
  { intros z. by apply (elem_of_insert_NoDup l_addr); [apply (o_addr _ Hs)|]. }
  assert (forall t', (NoDup (default [] (d !! t'))) /\
    forall q, q ∈ default [] (d !! t') <-> (q ∈ nodes s t' /\ q <> l_addr l) \/ (q = l_addr l /\ t' = t)) as Hn.
  { assert (forall t', l_addr l ∈ nodes s t' <-> t' = t0) as Hl0.
    { intros t'. rewrite (o_nodes _ Hs). split; [|intros ->; by exists l]. intros (x & Hx & E & Htx).
      assert (x = l) as -> by (by apply (addr_inj s)). congruence. }
    intros t'. destruct (decide (t0 = t)) as [->|Hne].
    - rewrite Hd. split; [apply (o_nodup _ Hs)|]. intros q. fold (nodes s t'). specialize (Hl0 t').
      destruct (decide (q = l_addr l)) as [->|]; [rewrite Hl0; tauto|tauto].
    - assert (l_addr l ∉ nodes s t) as Hnt by (rewrite Hl0; congruence).
      destruct (rebind_nodes (disconnects s) t0 t (l_addr l) (o_nodup _ Hs t0) (o_nodup _ Hs t) Hnt Hne t') as [Hr1 Hr2].
      rewrite Hd. split; [by apply Hr1, (o_nodup _ Hs)|]. intros q. rewrite Hr2. fold (nodes s t'). specialize (Hl0 t').
      destruct (decide (q = l_addr l)) as [->|]; [rewrite Hl0; naive_solver|naive_solver]. }
  destruct Hs as [H1 H2 H3 H4 H5 H6]. constructor; cbn.
  - by rewrite (Hf _ l_addr).
  - by rewrite (Hf _ local_name).
  - intros z [->|[Hz _]]%Hin; cbn; by apply H3.
  - intros z [->|[Hz _]]%Hin; [cbn; split; [done|apply Hsm]|by apply H4].
  - intros t'. apply Hn.
  - intros t' q. destruct (Hn t') as [_ Hq]. change (nodes _ t') with (default [] (d !! t')). rewrite Hq, H6. split.
    + intros [[(z & Hz & <- & Htz) Hne]|[-> ->]]; [exists z; rewrite Hin; by split_and!; [right|..]|].
      exists (with_target l target (Some t)). rewrite Hin. by split_and!; [left|..].
    + intros (z & [->|[Hz Hne]]%Hin & <- & Htz); cbn in *; [right; split; [done|congruence]|left; split; [by exists z|done]].
Qed.

Lemma append_ok s l :
  listeners_ok s -> l_addr l = brk s -> (forall x, x ∈ listener_list s -> local_name x <> local_name l) ->
  match l_transport l with None => starred (connect_to l) /\ l_smart l = true | Some _ => ~ starred (connect_to l) /\ l_smart l = false end ->
  listeners_ok (put_next (put_listeners s (listener_list s ++ [l]) (add_disconnect (disconnects s) (l_transport l) (l_addr l)))).
Proof.
  intros [H1 H2 H3 H4 H5 H6] Ha Hname Hsm.
  assert (forall t, ~ l_addr l ∈ nodes s t) as Hfresh.
  { intros t (x & Hx & E & _)%H6. apply H3 in Hx. lia. }
  assert (forall t, nodes (put_next (put_listeners s (listener_list s ++ [l]) (add_disconnect (disconnects s) (l_transport l) (l_addr l)))) t
    = nodes s t ++ (if decide (l_transport l = Some t) then [l_addr l] else [])) as Hn.
  { intros t. unfold nodes, add_disconnect. cbn. destruct (l_transport l) as [t'|].
    - destruct (decide (t' = t)) as [->|Hne]; [by rewrite lookup_insert_eq, decide_True by done|].
      rewrite lookup_insert_ne by done. rewrite decide_False, app_nil_r; [done|]. by intros [= ->].
    - by rewrite decide_False, app_nil_r by done. }
  assert (forall A (f : alistener -> A), NoDup (f <$> listener_list s) -> (forall x, x ∈ listener_list s -> f x <> f l) -> NoDup (f <$> listener_list s ++ [l])) as Hsnoc.
  { intros A f Hf Hx. rewrite fmap_app. apply NoDup_app. split; [done|]. split; [|apply NoDup_singleton].
    intros y (x & -> & Hin)%list_elem_of_fmap E%list_elem_of_singleton. by apply (Hx x). }
  constructor; cbn [listener_list put_next put_listeners brk].
  - apply Hsnoc; [done|]. intros x Hx E. apply H3 in Hx. lia.
  - by apply Hsnoc.
  - intros x [Hx| ->%list_elem_of_singleton]%elem_of_app; [apply H3 in Hx; lia|lia].
  - intros x [Hx| ->%list_elem_of_singleton]%elem_of_app; [by apply H4|done].
  - intros t. rewrite Hn. case_decide; [|by rewrite app_nil_r]. apply NoDup_app. split; [done|]. split; [|apply NoDup_singleton].
    by intros q Hq ->%list_elem_of_singleton; apply (Hfresh t).
  - intros t q. rewrite Hn, elem_of_app, H6. split.
    + intros [(x & Hx & E)|Hq]; [exists x; rewrite elem_of_app; by split; [left|]|]. case_decide; [|by apply elem_of_nil in Hq].
      apply list_elem_of_singleton in Hq as ->. exists l. rewrite elem_of_app. split_and!; [right; by left|done..].
    + intros (x & [Hx| ->%list_elem_of_singleton]%elem_of_app & <- & Ht); [left; by exists x|]. right. rewrite decide_True by done. by left.
Qed.
(** What can become of a request to forward. *)
Definition named (name : bytes) s : Prop := exists l, l ∈ listener_list s /\ local_name l = name.
Definition installed (name target : bytes) (t : ptr) s s' : Prop :=
  exists l, l ∈ listener_list s' /\ local_name l = name /\ connect_to l = target /\ l_transport l = Some t /\
    forall x, local_name x <> name -> x ∈ listener_list s' <-> x ∈ listener_list s.

Lemma local_name_to_fd_ok s name :
  exists fd w, local_name_to_fd s name = (fd, put_world s w).
Proof.
  unfold local_name_to_fd. repeat case_match; try (by eexists _, _). exists (-1), (world s). by destruct s.
Qed.

Lemma install_listener_ok s name target t :
  listeners_ok s -> ~ starred target ->
  exists r s', install_listener s name target (Some t) = Done (r, s') /\ listeners_ok s' /\
    reply s' = reply s /\ transport_list s' = transport_list s /\ closed_fds s' = closed_fds s /\
    ((r = 0 /\ installed name target t s s') \/
     (r = -1 /\ s' = s /\ exists l, l ∈ listener_list s /\ local_name l = name /\ l_smart l = true) \/
     (r = -2 /\ listener_list s' = listener_list s /\ ~ named name s)).
Proof.
  intros Hs Hstar. unfold install_listener. destruct (list_find _ _) as [[i l]|] eqn:Ef.
  - apply list_find_Some in Ef as (Hi & Hname & _). pose proof (list_elem_of_lookup_2 _ _ _ Hi) as Hl.
    pose proof (o_smart _ Hs l Hl) as Hsm. destruct (l_transport l) as [t0|] eqn:Ht.
    + rewrite bool_decide_false by apply Hsm.
      assert (forall d, listeners_ok (put_listeners s (<[i := with_target l target (Some t)]> (listener_list s)) d) ->
        installed name target t s (put_listeners s (<[i := with_target l target (Some t)]> (listener_list s)) d)) as Hins.
      { intros d _. exists (with_target l target (Some t)). split_and!; try done; [by apply list_elem_of_insert, (lookup_lt_Some _ _ _ Hi)|].
        intros x Hx. cbn. rewrite (elem_of_insert_NoDup local_name _ _ _ _ _ (o_name _ Hs) Hi). split; [intros [->|[? _]]; done|].
        intros ?. right. split; [done|congruence]. }
      case_decide as Ed; pose proof (retarget_ok s i l t0 t target) as Hok.
      * injection Ed as ->. specialize (Hok (disconnects s) Hs Hi Ht Hstar). rewrite decide_True in Hok by done. specialize (Hok eq_refl).
        eexists _, _. split; [done|]. split_and!; try done. left. split; [done|]. by apply Hins.
      * rewrite decide_False by done.
        specialize (Hok (add_disconnect (remove_disconnect (disconnects s) (Some t0) (l_addr l)) (Some t) (l_addr l)) Hs Hi Ht Hstar).
        rewrite decide_False in Hok by congruence. specialize (Hok eq_refl).
        eexists _, _. split; [done|]. split_and!; try done. left. split; [done|]. by apply Hins.
    + rewrite bool_decide_true by apply Hsm. exists (-1), s. split_and!; try done. right. left. split_and!; try done. exists l. split_and!; [done..|apply Hsm].
  - apply list_find_None in Ef. rewrite Forall_forall in Ef.
    destruct (local_name_to_fd_ok s name) as (fd & w & ->). destruct (fd <? 0).
    + eexists _, _. split; [done|]. split_and!; try done; [by apply (listeners_ok_same s)|]. right. right. split_and!; try done.
      intros (l & Hl & E). by apply (Ef l).
    + rewrite bool_decide_false by (intros ->; by apply Hstar).
      set (l := mk_listener _ _ _ _ _ _). set (s1 := put_world s w).
      assert (listeners_ok s1) as Hs1 by (by apply (listeners_ok_same s)).
      eexists _, _. split; [done|]. split; [|split_and!; try done].
      * apply (append_ok s1 l Hs1); [done| |done]. intros x Hx E. by apply (Ef x Hx).
      * left. split; [done|]. exists l. split_and!; try done; [cbn; apply elem_of_app; right; by left|].
        intros x Hx. cbn. rewrite elem_of_app, list_elem_of_singleton. split; [intros [?| ->]; done|by left].
Qed.

Lemma remove_listener_ok s name target t :
  listeners_ok s ->
  let '(r, s') := remove_listener s name target t in
  listeners_ok s' /\ reply s' = reply s /\
  ((r = -1 /\ s' = s /\ forall l, l ∈ listener_list s -> ~ (local_name l = name /\ connect_to l = target /\ l_transport l = Some t)) \/
   (r = 0 /\ exists l, l ∈ listener_list s /\ local_name l = name /\ connect_to l = target /\ l_transport l = Some t /\
      listener_list s' = filter (fun x => local_name x <> name) (listener_list s) /\ closed_fds s' = closed_fds s ++ [l_fd l])).
Proof.
  intros Hs. unfold remove_listener. destruct (list_find _ _) as [[i l]|] eqn:Ef.
  - apply list_find_Some in Ef as (Hi & (-> & -> & Ht) & _). pose proof (list_elem_of_lookup_2 _ _ _ Hi) as Hl.
    split; [by apply free_listener_ok|]. split; [done|]. right. split; [done|]. exists l. split_and!; try done. cbn.
    apply filter_ext_in. intros x Hx. split; intros Hne E; apply Hne.
    + by rewrite (name_inj s x l).
    + by rewrite (addr_inj s x l).
  - split; [done|]. split; [done|]. left. split_and!; try done. intros l Hl (<- & <- & Ht). apply list_find_None in Ef.
    rewrite Forall_forall in Ef. by apply (Ef l Hl).
Qed.
End consistent.

Section requests.
Context {W : Type} `{HostOps W}.
Implicit Types s : server W.

Lemma reply_ok s d : listeners_ok s -> listeners_ok (put_reply s d).
Proof. intros Hs. by apply (listeners_ok_same s). Qed.
Lemma world_ok s w : listeners_ok s -> listeners_ok (put_world s w).
Proof. intros Hs. by apply (listeners_ok_same s). Qed.

Lemma transport_gone_ok s t :
  listeners_ok s ->
  exists s', transport_gone s t = Done s' /\ listeners_ok s' /\
    listener_list s' = filter (fun l => l_transport l <> Some t) (listener_list s) /\ reply s' = reply s /\
    closed_fds s' ≡ₚ closed_fds s ++ (l_fd <$> filter (fun l => l_transport l = Some t) (listener_list s)).
Proof.
  intros Hs. assert (forall l, l ∈ listener_list s -> l_addr l ∈ nodes s t <-> l_transport l = Some t) as Hn.
  { intros l Hl. rewrite (o_nodes _ Hs). split; [|intros; by exists l]. intros (x & Hx & E & Ht). by rewrite <- (addr_inj s x l Hs Hx Hl E). }
  destruct (run_disconnects_ok s (nodes s t) Hs (o_nodup _ Hs t)) as (s' & E & Hs' & El & Er & Ec).
  { intros p (l & Hl & E & _)%(o_nodes _ Hs). by exists l. }
  exists s'. split; [exact E|]. split; [done|]. split; [|split; [done|]].
  - rewrite El. apply filter_ext_in. intros l Hl. by rewrite Hn.
  - rewrite Ec. unfold at_addrs. by rewrite (filter_ext_in _ (fun l => l_transport l = Some t)).
Qed.

Lemma forward_request_ok s service create ttype serial :
  listeners_ok s -> exists s', forward_request s service create ttype serial = Done s' /\ listeners_ok s'.
Proof.
  intros Hs. unfold forward_request. destruct (Sockets.split_at _ _) as [[local remote]|]; [|eexists; split; [done|by apply reply_ok]].
  destruct (bool_decide (local = [])); [eexists; split; [done|by apply reply_ok]|].
  destruct (bool_decide (remote = [])); [eexists; split; [done|by apply reply_ok]|].
  destruct (bool_decide_reflect (take 1 remote = bs "*")) as [|Hstar]; [eexists; split; [done|by apply reply_ok]|]. cbn [orb].
  destruct (acquire s ttype serial) as [t|e]; [|eexists; split; [done|by apply reply_ok]].
  destruct create.
  - destruct (install_listener_ok s local remote (Transport.addr t) Hs Hstar) as (r & s' & -> & Hs' & _). cbn [mbind outcome_bind].
    eexists. split; [done|by apply reply_ok].
  - pose proof (remove_listener_ok s local remote (Transport.addr t) Hs) as Hr.
    destruct (remove_listener s local remote (Transport.addr t)) as [r s']. cbn [mbind outcome_bind].
    eexists. split; [done|by apply reply_ok, Hr].
Qed.

Lemma connect_device_ok s host :
  listeners_ok s ->
  match connect_device s host with
  | Done (_, s') => listeners_ok s'
  | Stop _ => False
  | Undef w => w = "port"%string \/ w = "hostbuf"%string
  end.
Proof.
  intros Hs. unfold connect_device.
  destruct (Sockets.split_at 58 host) as [[name portstr]|].
  - destruct (_ <=? _)%nat; [done|]. destruct (sscanf_d portstr); [by left|done|].
    destruct (Transport.find_transport _ _); [done|]. destruct (h_network_client _ _ _) as [fd w]. destruct (fd <? 0); by apply world_ok.
  - destruct (_ <=? _)%nat; [by right|]. destruct (Transport.find_transport _ _); [done|].
    destruct (h_network_client _ _ _) as [fd w]. destruct (fd <? 0); by apply world_ok.
Qed.

Lemma connect_emulator_ok s spec : listeners_ok s -> listeners_ok (connect_emulator s spec).2.
Proof.
  intros Hs. unfold connect_emulator. destruct (Sockets.split_at _ _) as [[a b]|]; [|done]. destruct (negb _); [done|].
  destruct (Transport.find_emulator_transport_by_adb_port _ _); [done|]. destruct (_ <? 0); [done|].
  destruct (h_local_connect _ _ _) as [failed w]. by apply world_ok.
Qed.

Lemma devices_text s : devices s = Done (fits 4096 (Transport.line <$> transport_list s)).
Proof.
  unfold devices, Transport.list_transports.
  destruct (print_list_spec (Transport.line <$> transport_list s) (replicate 4096 0)) as (rest & -> & _); [rewrite length_replicate; lia|].
  rewrite length_replicate. cbn [deref mbind outcome_bind]. by rewrite take_app_length.
Qed.

Lemma transport_request_ok s service serial : listeners_ok s -> listeners_ok (transport_request s service serial).2.
Proof.
  intros Hs. unfold transport_request. repeat (destruct (has_prefix _ service)); cbn beta iota; destruct (acquire _ _ _); by apply reply_ok.
Qed.

Lemma handle_host_request_ok s service ttype serial :
  listeners_ok s ->
  match handle_host_request s service ttype serial with
  | Done (_, s') => listeners_ok s'
  | Stop _ => False
  | Undef w => (w = "port"%string \/ w = "hostbuf"%string) /\ has_prefix (bs "connect:") service = true
  end.
Proof.
  intros Hs. unfold handle_host_request.
  case_decide; [by apply reply_ok|]. destruct (has_prefix (bs "transport") service).
  { pose proof (transport_request_ok s service serial Hs) as Ht. by destruct (transport_request s service serial). }
  case_decide; [rewrite devices_text; by apply reply_ok|].
  destruct (has_prefix (bs "connect:") service).
  { destruct (has_prefix (bs "emu:") _).
    - pose proof (connect_emulator_ok s (drop 4 (drop 8 service)) Hs) as Hc. destruct (connect_emulator s _) as [text s']. by apply reply_ok.
    - pose proof (connect_device_ok s (drop 8 service) Hs) as Hc. destruct (connect_device s _) as [[text s']| |]; [by apply reply_ok|done..]. }
  destruct (has_prefix (bs "disconnect:") service).
  { unfold disconnect_request. destruct (drop 11 service); [by apply reply_ok, world_ok|].
    destruct (Transport.find_transport _ _); [by apply reply_ok, world_ok|by apply reply_ok]. }
  case_decide; [by apply reply_ok|]. destruct (has_prefix (bs "get-serialno") service); [by apply reply_ok|].
  destruct (has_prefix (bs "emulator:") service); [destruct (h_local_connect _ _ _) as [f w]; by apply world_ok|].
  destruct (has_prefix (bs "forward:") service); [destruct (forward_request_ok s service true ttype serial Hs) as (s' & -> & Hs'); done|].
  destruct (has_prefix (bs "killforward:") service); [destruct (forward_request_ok s service false ttype serial Hs) as (s' & -> & Hs'); done|].
  destruct (has_prefix (bs "get-state") service); [by apply reply_ok|done].
Qed.
End requests.

(** The server's life: its own listener, requests, transports that go, and whatever
    else changes. *)
Definition fresh_server {W} (ts : list Transport.atransport) (tbl : Transport.table) (w : W) : server W :=
  mk_server [] ∅ 1 [] ts tbl w [].
Definition elsewhere {W} (s : server W) (ts : list Transport.atransport) (tbl : Transport.table) (w : W) : server W :=
  mk_server (listener_list s) (disconnects s) (brk s) (closed_fds s) ts tbl w (reply s).

Inductive reach {W : Type} `{HostOps W} : server W -> Prop :=
| reach_start port ts tbl w s :
    install_listener (fresh_server ts tbl w) (build_local_name 30 port) smartsocket None = Done (0, s) -> reach s
| reach_request s service ttype serial a s' :
    reach s -> handle_host_request s service ttype serial = Done (a, s') -> reach s'
| reach_gone s t s' : reach s -> transport_gone s t = Done s' -> reach s'
| reach_elsewhere s ts tbl w : reach s -> reach (elsewhere s ts tbl w).

Section results.
Context {W : Type} `{HostOps W}.
Implicit Types s : server W.

Lemma start_ok port ts tbl (w : W) :
  match install_listener (fresh_server ts tbl w) (build_local_name 30 port) smartsocket None with
  | Done (r, s) => listeners_ok s /\ (r = 0 \/ r = -2)
  | _ => False
  end.
Proof.
  unfold install_listener. cbn [listener_list fresh_server list_find].
  assert (listeners_ok (fresh_server ts tbl w)) as Hs.
  { constructor; cbn; try (by apply NoDup_nil_2); try by intros l ?%elem_of_nil.
    - intros t. unfold nodes. cbn. by rewrite lookup_empty; apply NoDup_nil_2.
    - intros t p. unfold nodes. cbn. rewrite lookup_empty. split; [by intros ?%elem_of_nil|]. by intros (l & ?%elem_of_nil & _). }
  destruct (local_name_to_fd_ok (fresh_server ts tbl w) (build_local_name 30 port)) as (fd & w' & ->).
  destruct (fd <? 0); [split; [by apply world_ok|by right]|]. split; [|by left].
  apply (append_ok (put_world (fresh_server ts tbl w) w') (mk_listener 1 fd (build_local_name 30 port) smartsocket None true));
    [by apply world_ok|done|by intros x ?%elem_of_nil|done].
Qed.

Lemma host_reach_ok s : reach s -> listeners_ok s.
Proof.
  induction 1 as [port ts tbl w s E|s service ttype serial a s' _ IH E|s t s' _ IH E|s ts tbl w _ IH].
  - pose proof (start_ok port ts tbl w) as Hs. rewrite E in Hs. apply Hs.
  - pose proof (handle_host_request_ok s service ttype serial IH) as Hs. by rewrite E in Hs.
  - destruct (transport_gone_ok s t IH) as (s1 & E1 & Hs & _). rewrite E in E1. by injection E1 as ->.
  - by apply (listeners_ok_same s).
Qed.
End results.

(** ** The results *)

(** In every state of the server: one listener for a name, each
    forward on the disconnect list of its transport exactly once and nothing else
    there, so that a transport that goes closes exactly the sockets of its forwards
    and no freed listener is reached; and no request leaves defined behaviour, a
    connect: with an odd host name apart. *)
Theorem forwards_consistent {W : Type} `{HostOps W} (s : server W) :
  reach s ->
  NoDup (local_name <$> listener_list s) /\
  (forall t, NoDup (nodes s t) /\
     forall p, p ∈ nodes s t <-> exists l, l ∈ listener_list s /\ l_addr l = p /\ l_transport l = Some t) /\
  (forall t, exists s', transport_gone s t = Done s' /\
     listener_list s' = filter (fun l => l_transport l <> Some t) (listener_list s) /\
     closed_fds s' ≡ₚ closed_fds s ++ (l_fd <$> filter (fun l => l_transport l = Some t) (listener_list s))) /\
  (forall service ttype serial,
     match handle_host_request s service ttype serial with
     | Done _ => True
     | Stop _ => False
     | Undef w => (w = "port"%string \/ w = "hostbuf"%string) /\ has_prefix (bs "connect:") service = true
     end).
Proof.
  intros Hs%host_reach_ok. split_and!; [apply (o_name _ Hs)|intros t; split; [apply (o_nodup _ Hs)|apply (o_nodes _ Hs)]| |].
  - intros t. destruct (transport_gone_ok s t Hs) as (s' & E & _ & H1 & _ & H2). by exists s'.
  - intros service ttype serial. pose proof (handle_host_request_ok s service ttype serial Hs) as Hh.
    by destruct (handle_host_request s service ttype serial).
Qed.

Lemma split_at_app c a b : c ∉ a -> Sockets.split_at c (a ++ c :: b) = Some (a, b).
Proof.
  induction a as [|x a IH]; intros Ha; cbn; [by rewrite Z.eqb_refl|]. apply not_elem_of_cons in Ha as [Hx Ha].
  rewrite (proj2 (Z.eqb_neq _ _)) by done. by rewrite IH.
Qed.

(** The requests that forward reach forward_request. *)
Lemma handle_forward {W} `{HostOps W} (s : server W) x ttype serial :
  handle_host_request s (bs "forward:" ++ x) ttype serial =
  (s ← forward_request s (bs "forward:" ++ x) true ttype serial; Done (Answered 0 None, s)).
Proof. unfold handle_host_request. by rewrite !decide_False by done. Qed.
Lemma handle_killforward {W} `{HostOps W} (s : server W) x ttype serial :
  handle_host_request s (bs "killforward:" ++ x) ttype serial =
  (s ← forward_request s (bs "killforward:" ++ x) false ttype serial; Done (Answered 0 None, s)).
Proof. unfold handle_host_request. by rewrite !decide_False by done. Qed.

Lemma forward_parsed {W} `{HostOps W} (s : server W) (create : bool) local remote ttype serial t :
  59 ∉ local -> local <> [] -> remote <> [] -> ~ starred remote -> acquire s ttype serial = inl t ->
  forward_request s ((if create then bs "forward:" else bs "killforward:") ++ local ++ 59 :: remote) create ttype serial =
  ('(r, s) ← (if create then install_listener s local remote (Some (Transport.addr t))
              else Done (remove_listener s local remote (Transport.addr t)));
   Done (put_reply s
     (if r =? 0 then bs "OKAYOKAY"
      else failmsg (if create then (if r =? -1 then bs "cannot rebind smartsocket" else bs "cannot bind socket")
                    else bs "cannot remove listener")))).
Proof.
  intros Hl Hl0 Hr0 Hr Ht. unfold forward_request.
  assert (drop (if create then 8 else 12) ((if create then bs "forward:" else bs "killforward:") ++ local ++ 59 :: remote) = local ++ 59 :: remote) as ->
    by by destruct create.
  rewrite split_at_app by done. rewrite !bool_decide_false by done. cbn [orb]. by rewrite Ht.
Qed.

(** adb forward.  A well-formed request for a transport that is
    there is answered with OKAYOKAY, and then the listener of that name leads to
    the wanted target on that transport and no other has changed; or it is refused
    for the name of the server's own socket, or because the name cannot be bound,
    and then nothing has changed.  An accepted forward can be taken back: the
    request to kill it is answered with OKAYOKAY, removes this listener only and
    closes its socket. *)
Theorem forward_kill {W : Type} `{HostOps W} (s : server W) (local remote : bytes) (ttype : Sockets.transport_type)
    (serial : option bytes) (t : Transport.atransport) :
  reach s -> 59 ∉ local -> local <> [] -> remote <> [] -> ~ starred remote -> acquire s ttype serial = inl t ->
  exists s1, handle_host_request s (bs "forward:" ++ local ++ 59 :: remote) ttype serial = Done (Answered 0 None, s1) /\
    ((reply s1 = reply s ++ bs "OKAYOKAY" /\ installed local remote (Transport.addr t) s s1 /\ closed_fds s1 = closed_fds s /\
      exists s2 l, handle_host_request s1 (bs "killforward:" ++ local ++ 59 :: remote) ttype serial = Done (Answered 0 None, s2) /\
        reply s2 = reply s1 ++ bs "OKAYOKAY" /\ l ∈ listener_list s1 /\ local_name l = local /\
        listener_list s2 = filter (fun x => local_name x <> local) (listener_list s1) /\ closed_fds s2 = closed_fds s1 ++ [l_fd l]) \/
     (reply s1 = reply s ++ failmsg (bs "cannot rebind smartsocket") /\ listener_list s1 = listener_list s /\
      exists l, l ∈ listener_list s /\ local_name l = local /\ l_smart l = true) \/
     (reply s1 = reply s ++ failmsg (bs "cannot bind socket") /\ listener_list s1 = listener_list s /\ ~ named local s)).
Proof.
  intros Hs Hl Hl0 Hr0 Hr Ht. apply host_reach_ok in Hs. rewrite handle_forward, (forward_parsed s true _ _ _ _ t) by done.
  destruct (install_listener_ok s local remote (Transport.addr t) Hs Hr) as (r & s1 & -> & Hs1 & Er & Et & Ec & Hres). cbn [mbind outcome_bind].
  eexists. split; [done|]. cbn [reply put_reply listener_list closed_fds]. rewrite Er.
  destruct Hres as [[-> Hin]|[(-> & -> & Hsm)|(-> & El & Hn)]]; [left|by right; left|by right; right].
  split; [done|]. split; [done|]. split; [done|].
  assert (acquire (put_reply s1 (bs "OKAYOKAY")) ttype serial = inl t) as Ht1 by (unfold acquire in *; cbn; by rewrite Et).
  rewrite handle_killforward, (forward_parsed _ false _ _ _ _ t) by done. cbn [mbind outcome_bind].
  pose proof (remove_listener_ok (put_reply s1 (bs "OKAYOKAY")) local remote (Transport.addr t) (reply_ok _ _ Hs1)) as Hrm.
  destruct (remove_listener _ local remote _) as [r s2]. destruct Hrm as (_ & Er2 & [(-> & -> & Hno)|(-> & l & Hl1 & Hl2 & Hl3 & Hl4 & El & Ec2)]).
  - destruct Hin as (l & Hl1 & Hl2 & Hl3 & Hl4 & _). exfalso. by apply (Hno l).
  - eexists _, l. split; [done|]. cbn [reply put_reply listener_list closed_fds] in *. rewrite Er2, Er. by split_and!.
Qed.

(** What fits is the request format that the client reads. *)
Lemma okay_fits text : (length text <= 4087)%nat -> okay text = bs "OKAY" ++ request text.
Proof. intros Hl. unfold okay, fmt, request. apply take_ge. rewrite !length_app, hex4_length. change (length (bs "OKAY")) with 4%nat. lia. Qed.

(** What does not fit is announced longer than it is. *)
Lemma okay_truncated text : (4087 < length text)%nat -> length (okay text) = 4095%nat /\ (4095 < length (bs "OKAY" ++ request text))%nat.
Proof.
  intros Hl. unfold okay, fmt. fold (request text). rewrite length_take. unfold request. rewrite !length_app, hex4_length.
  change (length (bs "OKAY")) with 4%nat. lia.
Qed.

(** C34 (roundtrip). adb devices, end to end.  The server takes the request that the
    client sends apart, prints its list of transports, and the client's query
    returns exactly that text, as long as it has at most 1024 bytes and the serial
    numbers are C strings; in whatever pieces it travels. *)
Theorem devices_query {W V : Type} `{HostOps W} `{Host V} (s : server W) (g : settings) (c : client V) garbage r1 wr1 w1 r2 wr2 w2 l1 l2 e1 e2 :
  let text := fits 4096 (Transport.line <$> transport_list s) in
  Forall (fun t => no_nul (default [] (Transport.serial t))) (transport_list s) -> (length text <= 1024)%nat -> reply s = [] ->
  fds_ok c ->
  h_connect (AdbClient.world c) (adb_server_port g) = (Some (r1, wr1), w1) ->
  h_connect w1 (adb_server_port g) = (Some (r2, wr2), w2) ->
  deliver r1 = (okay (Sockets.hex4 ADB_SERVER_VERSION) ++ l1, e1) ->
  (length (request (bs "host:version")) <= takes wr1)%nat -> (length (request (bs "host:devices")) <= takes wr2)%nat ->
  exists service ttype serial s',
    Sockets.parse_service (bs "host:devices") = (Some service, ttype, serial) /\
    handle_host_request s service ttype serial = Done (Answered 0 None, s') /\
    (deliver r2 = (reply s' ++ l2, e2) ->
     exists c', adb_query g c (bs "host:devices") garbage = Done (Some text, c') /\ conns c' = conns c).
Proof.
  intros text Hnul Hlen Hrep Hok Hc1 Hc2 Hd1 Hw1 Hw2. exists (bs "devices"), Sockets.kTransportAny, None, (put_reply s (okay text)).
  split; [done|]. split; [unfold handle_host_request; cbn; by rewrite devices_text|].
  cbn [reply put_reply]. rewrite Hrep, app_nil_l. intros Hd2. rewrite okay_fits, <- app_assoc in Hd2 by lia.
  assert (no_nul text) as Hn.
  { unfold text. generalize 4096%nat. clear -Hnul. induction Hnul as [|t ts Ht _ IH]; intros n; cbn [fmap list_fmap fits]; [done|].
    destruct (_ <? _)%nat; [|done]. apply Forall_app. split; [|apply IH]. unfold Transport.line.
    repeat (apply Forall_app; split); [| |unfold Transport.statename; repeat case_match; by repeat constructor|by repeat constructor].
    - destruct (Transport.serial t) as [[|x l]|]; [by repeat constructor|done|by repeat constructor].
    - by repeat constructor. }
  assert (1 <= length (bs "host:devices") <= 1024)%nat as Hl by (change (length (bs "host:devices")) with 12%nat; lia).
  destruct (query_talks g c (bs "host:devices") garbage text r1 wr1 w1 r2 wr2 w2 l1 l2 e1 e2 Hok ltac:(done) Hl Hn Hlen Hc1 Hc2 Hd1 Hd2 Hw1 Hw2)
    as (c' & E & Ec & _). by exists c'.
Qed.

(** ** A concrete server *)

#[local] Existing Instance scripted.
#[local] Instance counting : HostOps Z := {
  h_loopback_server w _ := (w, w + 1); h_local_server w _ _ := (-1, w); h_network_client w _ _ := (-1, w);
  h_register_socket w _ _ _ := w; h_local_connect w _ _ := (true, w); h_unregister w _ := w; h_unregister_all_tcp w := w
}.
Definition phone : Transport.atransport := Transport.mk_t 50%nat 3 Sockets.kTransportUsb (Some (bs "T1")) 0.
Definition started : server Z :=
  match install_listener (fresh_server [phone] [] 10) (build_local_name 30 5037) smartsocket None with
  | Done (_, s) => s | _ => fresh_server [phone] [] 10 end.

Lemma started_reach : reach started.
Proof. apply (reach_start 5037 [phone] [] 10). by vm_compute. Qed.

Lemma forwards_consistent_witness :
  NoDup (local_name <$> listener_list started) /\
  (forall t, NoDup (nodes started t) /\
     forall p, p ∈ nodes started t <-> exists l, l ∈ listener_list started /\ l_addr l = p /\ l_transport l = Some t) /\
  (forall t, exists s', transport_gone started t = Done s' /\
     listener_list s' = filter (fun l => l_transport l <> Some t) (listener_list started) /\
     closed_fds s' ≡ₚ closed_fds started ++ (l_fd <$> filter (fun l => l_transport l = Some t) (listener_list started))) /\
  (forall service ttype serial,
     match handle_host_request started service ttype serial with
     | Done _ => True
     | Stop _ => False
     | Undef w => (w = "port"%string \/ w = "hostbuf"%string) /\ has_prefix (bs "connect:") service = true
     end).
Proof. apply (forwards_consistent started), started_reach. Defined.

Lemma forward_kill_witness :
  exists s1, handle_host_request started (bs "forward:tcp:7000;tcp:8000") Sockets.kTransportAny None = Done (Answered 0 None, s1) /\
    ((reply s1 = reply started ++ bs "OKAYOKAY" /\ installed (bs "tcp:7000") (bs "tcp:8000") 50%nat started s1 /\ closed_fds s1 = closed_fds started /\
      exists s2 l, handle_host_request s1 (bs "killforward:tcp:7000;tcp:8000") Sockets.kTransportAny None = Done (Answered 0 None, s2) /\
        reply s2 = reply s1 ++ bs "OKAYOKAY" /\ l ∈ listener_list s1 /\ local_name l = bs "tcp:7000" /\
        listener_list s2 = filter (fun x => local_name x <> bs "tcp:7000") (listener_list s1) /\ closed_fds s2 = closed_fds s1 ++ [l_fd l]) \/
     (reply s1 = reply started ++ failmsg (bs "cannot rebind smartsocket") /\ listener_list s1 = listener_list started /\
      exists l, l ∈ listener_list started /\ local_name l = bs "tcp:7000" /\ l_smart l = true) \/
     (reply s1 = reply started ++ failmsg (bs "cannot bind socket") /\ listener_list s1 = listener_list started /\ ~ named (bs "tcp:7000") started)).
Proof.
  apply (forward_kill started (bs "tcp:7000") (bs "tcp:8000") Sockets.kTransportAny None phone).
  - apply started_reach.
  - by_compute.
  - done.
  - done.
  - by_compute.
  - by vm_compute.
Defined.

Lemma devices_query_witness :
  exists service ttype serial s',
    Sockets.parse_service (bs "host:devices") = (Some service, ttype, serial) /\
    handle_host_request started service ttype serial = Done (Answered 0 None, s') /\
    (deliver (feed (bs "OKAY000aT1" ++ [9] ++ bs "device" ++ [10])) = (reply s' ++ [], Exhausted) ->
     exists c', adb_query any_device (idle [version_answer; bs "OKAY000aT1" ++ [9] ++ bs "device" ++ [10]]) (bs "host:devices") [] =
       Done (Some (fits 4096 (Transport.line <$> transport_list started)), c') /\ conns c' = ∅).
Proof.
  apply (devices_query started any_device (idle [version_answer; bs "OKAY000aT1" ++ [9] ++ bs "device" ++ [10]]) []
    (feed version_answer) (repeat (Io.WTake 99) 64) [bs "OKAY000aT1" ++ [9] ++ bs "device" ++ [10]]
    _ (repeat (Io.WTake 99) 64) [] [] [] Exhausted Exhausted).
  - repeat constructor; by vm_compute.
  - vm_compute. lia.
  - by vm_compute.
  - apply idle_ok.
  - done.
  - done.
  - by vm_compute.
  - vm_compute. lia.
  - vm_compute. lia.
Defined.

(** A host name of 99 characters without a port is read beyond the buffer it was
    copied to, and an empty port is never set. *)
Example long_host_overread : connect_device started (repeat 97 99) = Undef "hostbuf".
Proof. by vm_compute. Qed.
Example empty_port_unset : connect_device started (bs "phone:") = Undef "port".
Proof. by vm_compute. Qed.
