(* ===== verification/AdbShell.v ===== *)
(** * adb shell: the words and the two threads (tools/adb/commandline.c)

    How the words of a command are quoted for the device's shell, with what a POSIX
    shell makes of them, and the interactive shell, whose main thread prints what
    the device sends while stdin_read_thread sends what is typed and looks for the
    sequence that ends it.  A step of either thread is a turn, and an order of turns
    a list of booleans. *)

From S2P Require Import Prelude Io.

(** ** Text for the device's shell *)

(** dupAndQuote *)
Definition is_quoted (b : Z) : bool := existsb (Z.eqb b) [32; 34; 92; 40; 41].
Definition dupAndQuote (s : bytes) : bytes :=
  flat_map (fun b => if is_quoted b then [92; b] else [b]) s.

(** strncat(buf, src, sizeof(buf)-1) and strcat on a buffer of 4096 bytes: the bound
    is that of what is appended. *)
Definition strcat (buf src : bytes) : outcome bytes :=
  if (length (buf ++ src) <? 4096)%nat then Done (buf ++ src) else Undef "buffer overrun".
Definition strncat (buf src : bytes) : outcome bytes := strcat buf (take 4095 src).

(** The loop of logcat and pm_command: a space and the quoted word. *)
Fixpoint append_words (buf : bytes) (argv : list bytes) : outcome bytes :=
  match argv with
  | [] => Done buf
  | w :: argv =>
      buf ← strncat buf [32];
      buf ← strncat buf (dupAndQuote w);
      append_words buf argv
  end.

(** The loop of the shell command: an empty word or one with a space between double
    quotes. *)
Definition shell_word (w : bytes) : bytes :=
  if bool_decide (w = []) || existsb (Z.eqb 32) w then 34 :: w ++ [34] else w.
Fixpoint shell_words (buf : bytes) (argv : list bytes) : outcome bytes :=
  match argv with
  | [] => Done buf
  | w :: argv =>
      buf ← strcat buf (32 :: shell_word w);
      shell_words buf argv
  end.

(** ** What a shell makes of the text

    The words of a simple command as POSIX sh reads them (XCU 2.2, 2.3): blanks
    separate, a backslash keeps the next character, and between double quotes only
    in front of four characters.  [None]: the text is not just literal words, as an
    operator, an expansion or a pattern is in it. *)

Inductive sh_mode := Plain | Escaped | Quoted | QuotedEscaped.
Definition sh_special (b : Z) : bool :=
  existsb (Z.eqb b) (bs "'$`;&|<>()*?[#~!{}" ++ [10]).
Definition flush (cur : option bytes) : list bytes := match cur with Some w => [w] | None => [] end.
Definition grow (cur : option bytes) (b : Z) : option bytes := Some (default [] cur ++ [b]).

Fixpoint sh_scan (m : sh_mode) (cur : option bytes) (s : bytes) : option (list bytes) :=
  match s with
  | [] => match m with Plain => Some (flush cur) | _ => None end
  | b :: s =>
      match m with
      | Plain =>
          if (b =? 32) || (b =? 9) then (fun l => flush cur ++ l) <$> sh_scan Plain None s
          else if b =? 92 then sh_scan Escaped (Some (default [] cur)) s
          else if b =? 34 then sh_scan Quoted (Some (default [] cur)) s
          else if sh_special b then None
          else sh_scan Plain (grow cur b) s
      | Escaped => if b =? 10 then sh_scan Plain cur s else sh_scan Plain (grow cur b) s
      | Quoted =>
          if b =? 34 then sh_scan Plain cur s
          else if b =? 92 then sh_scan QuotedEscaped cur s
          else if existsb (Z.eqb b) (bs "$`") then None
          else sh_scan Quoted (grow cur b) s
      | QuotedEscaped =>
          if b =? 10 then sh_scan Quoted cur s
          else if existsb (Z.eqb b) (bs "$`" ++ [34; 92]) then sh_scan Quoted (grow cur b) s
          else sh_scan Quoted (grow (grow cur 92) b) s
      end
  end.
Definition sh_words (s : bytes) : option (list bytes) := sh_scan Plain None s.

(** A character, and a word, that the quoting of dupAndQuote protects. *)
Abbreviation literal_char := (fun b => is_quoted b = true \/ (b <> 9 /\ sh_special b = false)).
Definition literal (w : bytes) : Prop :=
  w <> [] /\ Forall literal_char w.

Lemma is_quoted_spec b : is_quoted b = true -> In b [32; 34; 92; 40; 41].
Proof. intros E. apply existsb_exists in E as (x & Hx & Eq). apply Z.eqb_eq in Eq. by subst. Qed.
Lemma not_quoted b x : is_quoted b = false -> In x [32; 34; 92; 40; 41] -> (b =? x) = false.
Proof.
  intros E Hx. destruct (Z.eqb_spec b x) as [->|]; [|done]. assert (is_quoted x = true) as Ht; [|congruence].
  apply existsb_exists. exists x. split; [done|apply Z.eqb_refl].
Qed.

Lemma sh_scan_quoted w : forall cur rest, Forall literal_char w ->
  sh_scan Plain (Some cur) (dupAndQuote w ++ rest) = sh_scan Plain (Some (cur ++ w)) rest.
Proof.
  induction w as [|b w IH]; intros cur rest Hw; [by rewrite app_nil_r|]. inversion Hw as [|? ? Hb Hw']; subst.
  cbn [dupAndQuote flat_map]. fold (dupAndQuote w). replace (cur ++ b :: w) with ((cur ++ [b]) ++ w) by (by rewrite <- app_assoc).
  destruct (is_quoted b) eqn:Eq; cbn [app].
  - cbn [sh_scan]. change (92 =? 32) with false. change (92 =? 9) with false. change (92 =? 92) with true. cbn [orb].
    assert (b <> 10) by (apply is_quoted_spec in Eq; cbn in Eq; lia).
    rewrite (proj2 (Z.eqb_neq b 10)) by done. cbn [grow default]. by apply IH.
  - destruct Hb as [Hb|[H9 Hs]]; [done|]. cbn [sh_scan].
    rewrite (not_quoted b 32), (not_quoted b 92), (not_quoted b 34), (proj2 (Z.eqb_neq b 9)), Hs by (done || (cbn; tauto)).
    cbn [orb grow default]. by apply IH.
Qed.

(** A word in front of which nothing was read yet. *)
Lemma sh_scan_word w rest : literal w ->
  sh_scan Plain None (dupAndQuote w ++ rest) = sh_scan Plain (Some w) rest.
Proof.
  intros [Hne Hw]. destruct w as [|b w]; [done|]. inversion Hw as [|? ? Hb Hw']; subst.
  transitivity (sh_scan Plain (Some []) (dupAndQuote (b :: w) ++ rest)); [|by apply sh_scan_quoted]. cbn [dupAndQuote flat_map].
  destruct (is_quoted b) eqn:Eq; [done|]. destruct Hb as [Hb|[H9 Hs]]; [done|]. cbn [app sh_scan].
  by rewrite (not_quoted b 32), (not_quoted b 92), (not_quoted b 34), (proj2 (Z.eqb_neq b 9)), Hs by (done || (cbn; tauto)).
Qed.

(** The text that the loop of pm_command and logcat appends. *)
Definition quoted_text (argv : list bytes) : bytes := flat_map (fun w => 32 :: dupAndQuote w) argv.

Lemma sh_words_quoted argv : forall w, Forall literal argv ->
  sh_scan Plain (Some w) (quoted_text argv) = Some (w :: argv).
Proof.
  induction argv as [|v argv IH]; intros w Hv; [done|]. inversion Hv; subst.
  cbn [quoted_text flat_map app sh_scan]. fold (quoted_text argv). change ((32 =? 32) || (32 =? 9)) with true. cbn iota.
  by rewrite sh_scan_word, IH.
Qed.

Lemma strcat_done buf src : (length buf + length src < 4096)%nat -> strcat buf src = Done (buf ++ src).
Proof. intros Hl. unfold strcat. by rewrite (proj2 (Nat.ltb_lt _ _)) by (rewrite length_app; lia). Qed.
Lemma strncat_done buf src : (length buf + length src < 4096)%nat -> strncat buf src = Done (buf ++ src).
Proof. intros Hl. unfold strncat. rewrite take_ge by lia. by apply strcat_done. Qed.

Lemma append_words_done argv : forall buf, (length buf + length (quoted_text argv) < 4096)%nat ->
  append_words buf argv = Done (buf ++ quoted_text argv).
Proof.
  induction argv as [|w argv IH]; intros buf Hl; [by rewrite app_nil_r|].
  cbn [quoted_text flat_map] in *. fold (quoted_text argv) in *. rewrite length_app in Hl. cbn [length] in Hl.
  cbn [append_words]. rewrite strncat_done by (cbn; lia). cbn [mbind outcome_bind].
  rewrite strncat_done by (rewrite length_app; cbn; lia). cbn [mbind outcome_bind].
  rewrite IH by (rewrite !length_app; cbn; lia). by rewrite <- !app_assoc.
Qed.

(** The words of the package manager's command line. *)
Lemma pm_words argv : Forall literal argv -> sh_words (bs "pm" ++ quoted_text argv) = Some (bs "pm" :: argv).
Proof. intros Hv. unfold sh_words. cbn [bs app]. change (sh_scan Plain None (bs "pm" ++ quoted_text argv)) with (sh_scan Plain (Some (bs "pm")) (quoted_text argv)). by apply sh_words_quoted. Qed.

(** ** The interactive shell *)

(** One character of stdin: the state goes from 0 to 1 at an end of line and to 2
    at '~'; [None]: '.' in state 2. *)
Definition escape_char (state : Z) (b : Z) : option Z :=
  if (b =? 10) || (b =? 13) then Some 1
  else if b =? 126 then Some (if state =? 1 then 2 else state)
  else if (b =? 46) && (state =? 2) then None
  else Some 0.
Fixpoint escape (state : Z) (buf : bytes) : option Z :=
  match buf with
  | [] => Some state
  | b :: buf => match escape_char state b with Some state => escape state buf | None => None end
  end.

(** stdin_read_thread's place in its loop. *)
Inductive phase := Reading | Writing (buf : bytes) | Over.
(** read_and_dump returned, or the thread called exit. *)
Inductive ended := Returned | Disconnected.

(** Both threads, what the terminal and the connection will give, what was printed
    and what was sent; [raw]: the terminal is in raw
    mode. *)
Record shell := mk_shell {
  tty : list Io.rd; down : list Io.rd; up : list Io.wr;
  esc : Z; thread : phase; raw : bool; printed : bytes; written : bytes
}.

(** A step of the main thread, in read_and_dump. *)
Definition main_turn (s : shell) : shell * option ended :=
  match Io.adb_read (down s) 4096 with
  | None => (s, None)
  | Some (Io.Got d, l) =>
      (mk_shell (tty s) l (up s) (esc s) (thread s) (raw s) (printed s ++ d) (written s), None)
  | Some (Io.RFail EINTR, l) =>
      (mk_shell (tty s) l (up s) (esc s) (thread s) (raw s) (printed s) (written s), None)
  | Some (_, l) =>
      (mk_shell (tty s) l (up s) (esc s) (thread s) false (printed s) (written s), Some Returned)
  end.

(** A step of stdin_read_thread: a read with the loop over what it got, or a write. *)
Definition thread_turn (s : shell) : shell * option ended :=
  match thread s with
  | Over => (s, None)
  | Reading =>
      match Io.adb_read (tty s) 1024 with
      | None => (s, None)
      | Some (Io.Got d, l) =>
          match escape (esc s) d with
          | None => (mk_shell l (down s) (up s) (esc s) (thread s) false (printed s) (written s), Some Disconnected)
          | Some st => (mk_shell l (down s) (up s) st (Writing d) (raw s) (printed s) (written s), None)
          end
      | Some (Io.RFail EINTR, l) =>
          (mk_shell l (down s) (up s) (esc s) Reading (raw s) (printed s) (written s), None)
      | Some (_, l) => (mk_shell l (down s) (up s) (esc s) Over (raw s) (printed s) (written s), None)
      end
  | Writing buf =>
      match Io.adb_write (up s) (length buf) with
      | None => (s, None)
      | Some (Io.Took n, w) =>
          (mk_shell (tty s) (down s) w (esc s) Reading (raw s) (printed s) (written s ++ take n buf), None)
      | Some (_, w) => (mk_shell (tty s) (down s) w (esc s) Over (raw s) (printed s) (written s), None)
      end
  end.

(** [true]: the main thread runs.  [None]: nothing has ended yet. *)
Fixpoint shell_run (sched : list bool) (s : shell) : shell * option ended :=
  match sched with
  | [] => (s, None)
  | b :: sched =>
      match (if b : bool then main_turn s else thread_turn s) with
      | (s, None) => shell_run sched s
      | r => r
      end
  end.

(** read_and_dump: what it prints; one turn per result and per byte are enough. *)
Fixpoint dump_loop (fuel : nat) (l : list Io.rd) : outcome (bytes * list Io.rd) :=
  match fuel with
  | O => Stop "fuel"
  | S fuel =>
      match Io.adb_read l 4096 with
      | None => Stop "waits for ever"
      | Some (Io.Got d, l) => '(out, l) ← dump_loop fuel l; Done (d ++ out, l)
      | Some (Io.RFail EINTR, l) => dump_loop fuel l
      | Some (_, l) => Done ([], l)
      end
  end.
Definition dump (l : list Io.rd) : outcome (bytes * list Io.rd) :=
  dump_loop (rd_weight l) l.

Lemma dump_loop_delivers fuel l : (rd_weight l <= fuel)%nat ->
  match deliver l with
  | (d, Broken) => exists l', dump_loop fuel l = Done (d, l')
  | (_, Exhausted) => dump_loop fuel l = Stop "waits for ever"
  end.
Proof.
  revert l. induction fuel as [|fuel IH]; intros l Hf; [destruct l as [|[]]; cbn in Hf; lia|].
  cbn [dump_loop]. destruct (Io.adb_read l 4096) as [[r l']|] eqn:E.
  2:{ by rewrite (adb_read_blocks _ _ E). }
  pose proof (adb_read_deliver l 4096 r l' ltac:(lia) E) as Hd. pose proof (adb_read_weight l 4096 r l' ltac:(lia) E) as Hw.
  destruct r as [d| |e]; [|rewrite Hd; eauto|].
  - destruct Hd as (_ & -> & _). specialize (IH l' ltac:(lia)). destruct (deliver l') as [d' []]; cbn [fst snd].
    + destruct IH as (l'' & ->). cbn. eauto.
    + by rewrite IH.
  - destruct e; try (rewrite Hd; by eauto). destruct Hd as [-> _]. apply IH. lia.
Qed.

(** read_and_dump shows all that comes until the connection ends. *)
Lemma dump_delivers l d : deliver l = (d, Broken) -> exists l', dump l = Done (d, l').
Proof. intros E. pose proof (dump_loop_delivers _ l (Nat.le_refl _)) as Hd. by rewrite E in Hd. Qed.

(** ** The sequence that ends the shell *)

(** An end of line, one or more '~', and '.'. *)
Definition ends_shell (text : bytes) : Prop :=
  exists pre nl n rest, text = pre ++ [nl] ++ replicate (S n) 126 ++ 46 :: rest /\ (nl = 10 \/ nl = 13).

Lemma escape_app a : forall b st,
  escape st (a ++ b) = match escape st a with Some st' => escape st' b | None => None end.
Proof. induction a as [|x a IH]; intros b st; [done|]. cbn [app escape]. destruct (escape_char st x); [apply IH|done]. Qed.

(** The text read so far ends in an end of line (1), or in one and '~'s (2). *)
Definition at_state (st : Z) (text : bytes) : Prop :=
  match st with
  | 1 => exists pre nl, text = pre ++ [nl] /\ (nl = 10 \/ nl = 13)
  | 2 => exists pre nl n, text = pre ++ [nl] ++ replicate (S n) 126 /\ (nl = 10 \/ nl = 13)
  | _ => st = 0
  end.

Lemma snoc_tildes {A} (x : A) n : replicate n x ++ [x] = x :: replicate n x.
Proof. change [x] with (replicate 1 x). by rewrite <- replicate_add, Nat.add_comm. Qed.

Lemma escape_state text b st : at_state st text ->
  match escape_char st b with
  | Some st' => at_state st' (text ++ [b])
  | None => b = 46 /\ st = 2
  end.
Proof.
  intros Hs. assert (st = 0 \/ st = 1 \/ st = 2) as Hst.
  { destruct st as [|[[]|[]|]|]; cbn in Hs; lia. }
  unfold escape_char. destruct (Z.eqb_spec b 10) as [->|]; [cbn; eauto 6|]. destruct (Z.eqb_spec b 13) as [->|]; [cbn; eauto 6|].
  cbn [orb]. destruct (Z.eqb_spec b 126) as [->|].
  - destruct Hst as [->|[->| ->]]; cbn in *; [done| |].
    + destruct Hs as (pre & nl & -> & Hnl). exists pre, nl, 0%nat. by rewrite <- app_assoc.
    + destruct Hs as (pre & nl & k & -> & Hnl). exists pre, nl, (S k). split; [|done]. rewrite <- app_assoc. f_equal.
      cbn. do 2 f_equal. by rewrite snoc_tildes.
  - destruct (Z.eqb_spec b 46) as [->|]; [|done]. cbn [andb]. destruct (Z.eqb_spec st 2); [done|]. done.
Qed.

Lemma escape_none_ends text : escape 0 text = None -> ends_shell text.
Proof.
  assert (forall text seen st, at_state st seen -> escape st text = None -> ends_shell (seen ++ text)) as Hall.
  { clear text. induction text as [|b text IH]; intros seen st Hs E; [discriminate E|].
    cbn [escape] in E. pose proof (escape_state seen b st Hs) as Hb. destruct (escape_char st b) as [st'|].
    - replace (seen ++ b :: text) with ((seen ++ [b]) ++ text) by (by rewrite <- app_assoc). by eapply IH.
    - destruct Hb as [-> ->]. destruct Hs as (pre & nl & k & -> & Hnl). exists pre, nl, k, text. split; [|done].
      by rewrite <- !app_assoc. }
  intros E. by apply (Hall text [] 0).
Qed.

Lemma escape_tildes n : forall rest, escape 2 (replicate n 126 ++ 46 :: rest) = None.
Proof. induction n as [|n IH]; intros rest; [done|]. cbn. apply IH. Qed.

Lemma escape_ends text : escape 0 text = None <-> ends_shell text.
Proof.
  split; [apply escape_none_ends|]. intros (pre & nl & n & rest & -> & Hnl).
  rewrite escape_app. destruct (escape 0 pre) as [st|]; [|done]. cbn [app escape].
  assert (escape_char st nl = Some 1) as -> by (by destruct Hnl; subst). cbn. apply escape_tildes.
Qed.

(** ** The two threads *)

(** No write takes less than it is given. *)
Definition whole_writes : list Io.wr -> Prop :=
  Forall (fun w => match w with Io.WTake n => (1024 <= S n)%nat | _ => True end).
(** None fails. *)
Definition good_writes : list Io.wr -> Prop :=
  Forall (fun w => match w with Io.WTake _ => True | _ => False end).

(** What one read gives. *)
Definition piece (d : bytes) : Prop := (0 < length d <= 1024)%nat.
(** What of the pieces the writes send, one write for each piece: the rest of a piece is lost. *)
Fixpoint what_took (wr : list Io.wr) (pieces : list bytes) : bytes :=
  match wr, pieces with
  | Io.WTake n :: wr, d :: pieces => take (S n) d ++ what_took wr pieces
  | _, _ => []
  end.

Lemma sent_snoc used n d rest : forall pieces, good_writes used -> length used = length pieces ->
  what_took (used ++ Io.WTake n :: rest) (pieces ++ [d]) = what_took used pieces ++ take (S n) d.
Proof.
  induction used as [|[k| |e] used IH]; intros [|x pieces] Hg El; try done; inversion Hg; subst; try done.
  - cbn [app what_took length]. destruct rest as [|[]]; by rewrite app_nil_r.
  - cbn [app what_took]. rewrite IH by (done || (cbn in El; lia)). by rewrite <- app_assoc.
Qed.
Lemma sent_app used rest : forall pieces, length used = length pieces -> what_took (used ++ rest) pieces = what_took used pieces.
Proof.
  induction used as [|[k| |e] used IH]; intros [|x pieces] El; try done; cbn [app what_took]; [by destruct rest as [|[]]|].
  rewrite IH by (cbn in El; lia). done.
Qed.
(** Whole writes lose nothing. *)
Lemma sent_whole pieces : forall wr, whole_writes wr -> Forall piece pieces ->
  what_took wr pieces `prefix_of` concat pieces.
Proof.
  induction pieces as [|d pieces IH]; intros [|[n| |e] wr] Hw Hp; try apply prefix_nil.
  inversion Hw as [|? ? Hn Hw']; inversion Hp; subst. cbn [what_took concat]. unfold piece in *. rewrite take_ge by lia. by apply prefix_app, IH.
Qed.

Section threads.
Variables (typed : bytes) (e1 : ending) (answer : bytes) (e2 : ending) (wr : list Io.wr).

(** The pieces read from the terminal that a write was given, and the writes still to come. *)
Definition pieces_ok (s : shell) (pieces : list bytes) : Prop :=
  Forall piece pieces /\
  exists used rest, wr = used ++ rest /\ length used = length pieces /\ good_writes used /\
    written s = what_took used pieces /\ (thread s <> Over -> rest = up s).
(** [seen] was read from the terminal. *)
Definition thread_ok (s : shell) (seen : bytes) (pieces : list bytes) : Prop :=
  match thread s with
  | Reading => seen = concat pieces /\ exists rest, typed = seen ++ rest /\ deliver (tty s) = (rest, e1)
  | Writing buf => seen = concat pieces ++ buf /\ (0 < length buf <= 1024)%nat /\
                   exists rest, typed = seen ++ rest /\ deliver (tty s) = (rest, e1)
  | Over => concat pieces `prefix_of` seen /\ seen `prefix_of` typed
  end.
Definition main_ok (s : shell) : Prop :=
  exists rest, answer = printed s ++ rest /\ deliver (down s) = (rest, e2).
Definition running (s : shell) : Prop :=
  main_ok s /\ exists seen pieces, pieces_ok s pieces /\ escape 0 seen = Some (esc s) /\ thread_ok s seen pieces.

(** What holds of the streams at any time. *)
Definition streams (s : shell) : Prop :=
  printed s `prefix_of` answer /\
  exists pieces, Forall piece pieces /\ concat pieces `prefix_of` typed /\
    ~ ends_shell (concat pieces) /\ written s = what_took wr pieces.

Lemma escape_prefix a b st : a `prefix_of` b -> escape 0 b = Some st -> ~ ends_shell a.
Proof. intros [c ->] E Ha. apply escape_ends in Ha. by rewrite escape_app, Ha in E. Qed.

Lemma thread_prefix s seen pieces : thread_ok s seen pieces -> concat pieces `prefix_of` seen /\ seen `prefix_of` typed.
Proof.
  unfold thread_ok. destruct (thread s) as [|buf|].
  - intros (-> & rest & -> & _). split; [done|by exists rest].
  - intros (-> & _ & rest & -> & _). split; by eexists.
  - done.
Qed.

Lemma running_streams s : running s -> streams s.
Proof.
  intros ((rest & -> & _) & seen & pieces & (Hp & used & left & Ewr & El & _ & Ew & _) & Es & Ht).
  apply thread_prefix in Ht as [Hw Hs]. split; [by exists rest|]. exists pieces. split_and!; [done|by etrans|by eapply escape_prefix|].
  by rewrite Ewr, sent_app.
Qed.

Lemma main_turn_ok s : running s ->
  match main_turn s with
  | (s', None) => running s' /\ tty s' = tty s /\ up s' = up s /\ thread s' = thread s
  | (s', Some r) => r = Returned /\ streams s' /\ printed s' = answer /\ e2 = Broken /\ raw s' = false
  end.
Proof.
  intros Hr. pose proof (running_streams s Hr) as Hst. destruct Hr as ((rest & Ha & Hd) & Hseen). unfold main_turn.
  destruct (Io.adb_read (down s) 4096) as [[r l]|] eqn:E; [|split; [|done]; split; [exists rest; done|done]].
  pose proof (adb_read_deliver (down s) 4096 r l ltac:(lia) E) as H. rewrite Hd in H.
  assert (([], Broken) = (rest, e2) -> Returned = Returned /\ streams s /\ printed s = answer /\ e2 = Broken /\ false = false) as Hend.
  { intros [= <- <-]. rewrite app_nil_r in Ha. by split_and!. }
  destruct r as [d| |e].
  - destruct H as (_ & Eq & _). injection Eq as -> ->. split; [|done]. split; [|done]. exists (deliver l).1. cbn.
    split; [by rewrite <- app_assoc|]. rewrite H. by destruct (deliver l).
  - by apply Hend.
  - destruct e; try (by apply Hend). destruct H as [H _]. split; [|done]. split; [|done]. by exists rest.
Qed.

(** A piece that a write takes. *)
Lemma pieces_snoc s s' pieces buf n left : thread s = Writing buf -> pieces_ok s pieces -> piece buf -> up s = Io.WTake n :: left ->
  up s' = left -> written s' = written s ++ take (S n `min` length buf) buf -> pieces_ok s' (pieces ++ [buf]).
Proof.
  intros Et (Hp & used & rest & Ew & El & Hg & Es & Hr) Hb Eu Eu' Ew'. rewrite Et in Hr.
  assert (rest = Io.WTake n :: left) as -> by (rewrite <- Eu; by apply Hr). split; [by apply Forall_app; split; [|constructor]|].
  exists (used ++ [Io.WTake n]), left. split_and!; [by rewrite <- app_assoc|by rewrite !length_app, El| | |by rewrite Eu'].
  - apply Forall_app. split; [done|by constructor].
  - rewrite Ew', Es, (sent_snoc used n buf []) by done. f_equal. destruct (Nat.le_ge_cases (S n) (length buf)).
    + by rewrite Nat.min_l.
    + by rewrite Nat.min_r, !take_ge.
Qed.

Lemma thread_turn_ok s : running s ->
  match thread_turn s with
  | (s', None) => running s'
  | (s', Some r) => r = Disconnected /\ streams s' /\ ends_shell typed /\ raw s' = false
  end.
Proof.
  intros Hr. pose proof (running_streams s Hr) as Hst. pose proof Hr as (Hm & seen & pieces & Hp & Es & Ht). unfold thread_turn.
  unfold thread_ok in Ht. destruct (thread s) as [|buf|] eqn:Eth; [| |done].
  - destruct Ht as (Ew & rest & Et & Hd). destruct (Io.adb_read (tty s) 1024) as [[r l]|] eqn:E; [|done].
    pose proof (adb_read_deliver (tty s) 1024 r l ltac:(lia) E) as H. rewrite Hd in H.
    assert (forall st ph, pieces_ok (mk_shell l (down s) (up s) st ph (raw s) (printed s) (written s)) pieces) as Hp'.
    { intros st ph. destruct Hp as (Hp & used & left & H1 & H2 & H3 & H4 & H5). split; [done|]. exists used, left. split_and!; try done.
      intros _. apply H5. by rewrite Eth. }
    assert (running (mk_shell l (down s) (up s) (esc s) Over (raw s) (printed s) (written s))) as Hover.
    { split; [done|]. exists seen, pieces. split_and!; [done..|]. cbn. split; [by rewrite Ew|by exists rest]. }
    destruct r as [d| |e]; [|exact Hover|].
    + destruct H as (Hl & Eq & _). injection Eq as -> He.
      assert (escape 0 (seen ++ d) = escape (esc s) d) as Eapp by (by rewrite escape_app, Es).
      destruct (escape (esc s) d) as [st|] eqn:Ed.
      * split; [done|]. exists (seen ++ d), pieces. split_and!; [done..|]. cbn. rewrite Ew. split; [done|]. split; [exact Hl|].
        exists (deliver l).1. split; [by rewrite <- app_assoc, <- Ew|]. rewrite He. by destruct (deliver l).
      * split_and!; [done|by destruct Hst as (? & ?)| |done].
        apply escape_ends. by rewrite Et, app_assoc, escape_app, Eapp.
    + destruct e; try exact Hover. destruct H as [H _]. split; [done|]. exists seen, pieces. split_and!; [done..|]. cbn. eauto.
  - destruct Ht as (Eb & Hl & rest & Et & Hd). unfold Io.adb_write. destruct (up s) as [|[n| |e] w] eqn:Eu; [done| | |].
    + split; [done|]. exists seen, (pieces ++ [buf]). split; [by eapply pieces_snoc|]. split; [done|]. unfold thread_ok. cbn [thread tty].
      split; [by rewrite concat_app; cbn; rewrite app_nil_r|eauto].
    + split; [done|]. exists seen, pieces. split_and!; [|done|].
      * destruct Hp as (Hp & used & left & H1 & H2 & H3 & H4 & _). split; [done|]. by exists used, left.
      * cbn. split; [rewrite Eb; by eexists|by exists rest].
    + split; [done|]. exists seen, pieces. split_and!; [|done|].
      * destruct Hp as (Hp & used & left & H1 & H2 & H3 & H4 & _). split; [done|]. by exists used, left.
      * cbn. split; [rewrite Eb; by eexists|by exists rest].
Qed.

Lemma shell_run_ok sched : forall s, running s ->
  let '(s', r) := shell_run sched s in
  streams s' /\
  (r = Some Returned -> printed s' = answer /\ e2 = Broken /\ raw s' = false) /\
  (r = Some Disconnected -> ends_shell typed /\ raw s' = false).
Proof.
  induction sched as [|b sched IH]; intros s Hr; cbn [shell_run]; [by split; [apply running_streams|]|].
  pose proof (main_turn_ok s Hr) as Hm. pose proof (thread_turn_ok s Hr) as Ht. destruct b.
  - destruct (main_turn s) as [s' [r|]]; [|destruct Hm; by apply IH].
    destruct Hm as (-> & ? & ? & ? & ?). by split_and!.
  - destruct (thread_turn s) as [s' [r|]]; [|by apply IH]. destruct Ht as (-> & ? & ? & ?). by split_and!.
Qed.

Fixpoint thread_turns (sched : list bool) : nat :=
  match sched with [] => 0 | b :: sched => (if b : bool then 0 else 1) + thread_turns sched end.

(** How many turns the thread may still need, when the sequence is to come. *)
Definition work (s : shell) : nat :=
  2 * rd_weight (tty s) + match thread s with Writing _ => 1 | _ => 0 end.
Definition able (s : shell) : Prop :=
  thread s <> Over /\ good_writes (up s) /\
  (rd_weight (tty s) + match thread s with Writing _ => 1 | _ => 0 end <= length (up s))%nat.

Lemma thread_turn_works s : running s -> able s -> ends_shell typed ->
  match thread_turn s with
  | (s', None) => able s' /\ (work s' < work s)%nat
  | (_, Some _) => True
  end.
Proof.
  intros (_ & seen & pieces & _ & Es & Ht) (Hno & Hg & Hl) Hend. apply escape_ends in Hend. unfold thread_turn, able, work in *.
  unfold thread_ok in Ht. destruct (thread s) as [|buf|] eqn:Eth; [| |done].
  - destruct Ht as (_ & rest & Et & Hd). rewrite Et, escape_app, Es in Hend.
    assert (rest <> []) as Hrest by (by destruct rest).
    destruct (Io.adb_read (tty s) 1024) as [[r l]|] eqn:E.
    2:{ rewrite (adb_read_blocks _ _ E) in Hd. by injection Hd as <-. }
    pose proof (adb_read_deliver (tty s) 1024 r l ltac:(lia) E) as H. pose proof (adb_read_weight (tty s) 1024 r l ltac:(lia) E) as Hwt.
    rewrite Hd in H. destruct r as [d| |e]; [|congruence|].
    + destruct (escape (esc s) d); [|done]. cbn. split_and!; try done; lia.
    + destruct e; try congruence. cbn. split_and!; try done; lia.
  - destruct Ht as (_ & Hb & _). unfold Io.adb_write. destruct (up s) as [|[n| |e] w]; cbn [length] in Hl; [lia| | |].
    all: inversion Hg; subst; try done. cbn. split_and!; try done; lia.
Qed.

Lemma shell_run_ends sched : forall s, running s -> able s -> ends_shell typed ->
  (work s < thread_turns sched)%nat -> (shell_run sched s).2 <> None.
Proof.
  induction sched as [|b sched IH]; intros s Hr Ha He Hl; [cbn [thread_turns] in Hl; lia|]. cbn [shell_run].
  pose proof (main_turn_ok s Hr) as Hm. pose proof (thread_turn_ok s Hr) as Ht. pose proof (thread_turn_works s Hr Ha He) as Hw.
  destruct b; cbn [thread_turns] in Hl.
  - destruct (main_turn s) as [s' [r|]]; [done|]. destruct Hm as (Hr' & Etty & Eup & Eth).
    apply IH; try done; unfold able, work in *; by rewrite Etty, ?Eup, Eth.
  - destruct (thread_turn s) as [s' [r|]]; [done|]. destruct Hw as [Ha' Hw]. apply IH; try done. lia.
Qed.
End threads.

(** C30 (liveness). The interactive shell, in every order of its threads' steps: what is printed
    is what the device sent, so far and in order.  What is typed is read in pieces, in
    order, and each piece is given to one write; what is sent is what the writes took of
    the pieces, and what a short write leaves is lost.  The pieces never hold a newline,
    one or more '~' and '.', and when no write takes less than it is given, what is sent is
    what was typed, so far, and does not hold them either.  The command ends when the
    device closes the connection, and then all of it was printed, or because that
    sequence was typed; the terminal is back in its old mode then.  When the sequence was
    typed, the thread runs often enough and no write fails, the command does end. *)
Theorem shell_streams (sched : list bool) (tt : list Io.rd) (dn : list Io.rd) (wr : list Io.wr) (tio : bool) typed e1 answer e2 :
  deliver tt = (typed, e1) -> deliver dn = (answer, e2) ->
  let start := mk_shell tt dn wr 0 Reading tio [] [] in
  let '(s, r) := shell_run sched start in
  printed s `prefix_of` answer /\
  (exists pieces, Forall piece pieces /\ concat pieces `prefix_of` typed /\ ~ ends_shell (concat pieces) /\
     written s = what_took wr pieces) /\
  (whole_writes wr -> written s `prefix_of` typed /\ ~ ends_shell (written s)) /\
  (r = Some Returned -> printed s = answer /\ e2 = Broken /\ raw s = false) /\
  (r = Some Disconnected -> ends_shell typed /\ raw s = false) /\
  (ends_shell typed -> good_writes wr -> (rd_weight tt <= length wr)%nat ->
   (2 * rd_weight tt < thread_turns sched)%nat -> r <> None).
Proof.
  intros Ht Hd start.
  assert (running typed e1 answer e2 wr start) as Hr.
  { split; [exists answer; by cbn|]. exists [], []. split_and!; [|done|cbn; split; [done|by exists typed]].
    split; [constructor|]. exists [], wr. split_and!; try done. constructor. }
  pose proof (shell_run_ok typed e1 answer e2 wr sched start Hr) as Hok.
  pose proof (shell_run_ends typed e1 answer e2 wr sched start Hr) as Hend.
  destruct (shell_run sched start) as [s r]. destruct Hok as ((? & Hs) & ? & ?). split_and!; try done.
  - intros Hw. destruct Hs as (pieces & Hp & Hpre & He & ->). pose proof (sent_whole pieces wr Hw Hp) as Hsent. split; [by etrans|].
    intros Hn. apply He, escape_ends. destruct Hsent as [c ->]. apply escape_ends in Hn. by rewrite escape_app, Hn.
  - intros He Hg Hl Hn. apply Hend; [|done|unfold work; cbn; lia]. unfold able. cbn. split_and!; [done..|lia].
Qed.

(** ** Concrete runs *)

(** The terminal gives "ls", a newline, "~." in two pieces; the device has said "hi". *)
Definition typing : list Io.rd := [Io.RData 108 [115; 10]; Io.RData 126 [46]].
Definition greeting : list Io.rd := [Io.RData 104 [105]].

Lemma shell_streams_witness :
  let '(s, r) := shell_run (true :: repeat false 9) (mk_shell typing greeting (repeat (Io.WTake 1) 7) 0 Reading true [] []) in
  (printed s `prefix_of` bs "hi" /\
   (exists pieces, Forall piece pieces /\ concat pieces `prefix_of` (bs "ls" ++ [10] ++ bs "~.") /\ ~ ends_shell (concat pieces) /\
     written s = what_took (repeat (Io.WTake 1) 7) pieces) /\
   (whole_writes (repeat (Io.WTake 1) 7) -> written s `prefix_of` (bs "ls" ++ [10] ++ bs "~.") /\ ~ ends_shell (written s)) /\
   (r = Some Returned -> printed s = bs "hi" /\ Exhausted = Broken /\ raw s = false) /\
   (r = Some Disconnected -> ends_shell (bs "ls" ++ [10] ++ bs "~.") /\ raw s = false) /\
   (ends_shell (bs "ls" ++ [10] ++ bs "~.") -> good_writes (repeat (Io.WTake 1) 7) ->
    (rd_weight typing <= length (repeat (Io.WTake 1) 7))%nat ->
    (2 * rd_weight typing < thread_turns (true :: repeat false 9))%nat -> r <> None)) /\
  written s = bs "ls" /\ r = Some Disconnected.
Proof.
  pose proof (shell_streams (true :: repeat false 9) typing greeting (repeat (Io.WTake 1) 7) true
    (bs "ls" ++ [10] ++ bs "~.") Exhausted (bs "hi") Exhausted eq_refl eq_refl) as Hs.
  cbv zeta in Hs. destruct (shell_run _ _) as [s r] eqn:E. split; [exact Hs|]. vm_compute in E. by injection E as <- <-.
Defined.

(** A write that takes less than it is given: the rest is not sent. *)
Example short_write_loses :
  let '(s, _) := shell_run (repeat false 9) (mk_shell [Io.RData 97 [98; 99]] [] [Io.WTake 0] 0 Reading false [] []) in
  written s = bs "a" /\ thread s = Reading /\ tty s = [].
Proof. by vm_compute. Qed.

(** Two '~' do as well as one. *)
Example two_tildes_end : escape 0 ([10] ++ bs "~~.") = None.
Proof. done. Qed.

(** What the device's shell makes of adb shell echo 'a "b"': the quotes are gone. *)
Example inner_quotes_lost :
  (buf ← shell_words (bs "echo") [bs "a " ++ [34] ++ bs "b" ++ [34]]; Done (sh_words buf)) =
  Done (Some [bs "echo"; bs "a b"]).
Proof. by vm_compute. Qed.

(** Between the double quotes of logcat's command the backslash stays in front of a
    space. *)
Example log_tags_keep_backslash :
  sh_words (bs "export T=" ++ [34] ++ dupAndQuote (bs "a:V b:S") ++ [34]) =
  Some [bs "export"; bs "T=a:V" ++ [92; 32] ++ bs "b:S"].
Proof. by vm_compute. Qed.

(** A quote, a dollar or a semicolon in a name is not protected, and an empty word is
    lost. *)
Example name_not_protected :
  sh_words (bs "pm" ++ quoted_text [bs "install"; bs "it's.apk"]) = None /\
  sh_words (bs "pm" ++ quoted_text [bs "install"; bs "a;b.apk"]) = None /\
  sh_words (bs "pm" ++ quoted_text [bs "install"; []]) = Some [bs "pm"; bs "install"].
Proof. by vm_compute. Qed.

(** A command line that does not fit the buffer is written past its end. *)
Example long_words_overrun : append_words (bs "shell:pm") [repeat 97 5000] = Undef "buffer overrun".
Proof. by vm_compute. Qed.
