(* ===== verification/Commandline.v ===== *)
(** * The adb command (tools/adb/commandline.c, console.c)

    The flags, the commands and what they make of their arguments: requests to the
    server through AdbClient, file copies through SyncDirs, command lines for the
    device's shell (AdbShell).  A store outside a buffer or a read through a null
    pointer is [Undef], a call of exit is [Stop].

    Commands that wait for a device try again and again: [tries] bounds how often. *)

From S2P Require Import Prelude Io Sockets FileSync SyncDirs AdbClient HostRequest AdbShell.

(** The environment and the host's paths. *)
Class Machine (F : Type) := {
  getenv : string -> option bytes;
  getcwd : option bytes;
  my_path : bytes;
  access : F -> bytes -> bool;                 (* access(path, F_OK) == 0 *)
  has_manifest : bytes -> bool                 (* the zip library on a package *)
}.

(** What else happens around the command: what the stack held, the connection that
    adb_connect gave for sync:, the time a copy takes, the terminal, the order in
    which the shell's threads run, the result of fork, and the server run in the
    foreground. *)
Class Around (W : Type) := {
  garbage : W -> bytes;
  sync_connection : W -> Wire.conn;
  duration : W -> Z;
  terminal : W -> list Io.rd;
  is_tty : W -> bool;
  schedule : W -> list bool;
  fork : W -> option bool;                     (* [Some true]: the parent *)
  adb_main : W -> bool -> Z -> outcome (Z * W)
}.

Definition PATH_MAX : nat := 4096.
Definition DEFAULT_ADB_PORT : Z := 5037.

Definition format_host_command (command : bytes) (ttype : Sockets.transport_type) (serial : option bytes) : bytes :=
  fmt 4096
    (match serial with
     | Some serial => bs "host-serial:" ++ serial ++ bs ":" ++ command
     | None =>
         (match ttype with
          | Sockets.kTransportUsb => bs "host-usb"
          | Sockets.kTransportLocal => bs "host-local"
          | _ => bs "host"
          end) ++ bs ":" ++ command
     end).

(** ** The command's state *)

(** What is shown: text on stdout and stderr (without the texts of errno), the help,
    the lines of a file copy. *)
Inductive shown :=
| Out (text : bytes) | Err (text : bytes) | Help | Copying (r : SyncDirs.report).

Definition error_text (m : bytes) : shown := Err (bs "error: " ++ m ++ [10]).

Section commands.
Context {W F : Type} `{Host W} `{Around W} `{Machine F} `{FileSystem F} `{StatFiles F}.

(** [ask]: the static variables of adb_client.c; [finished]: the connections that
    were used for file copies. *)
Record cmd := mk_cmd {
  ask : settings; cl : AdbClient.client W; gProductOutPath : option bytes; disk : F;
  copies : list Wire.conn; seen : list shown
}.
Definition put_ask (s : cmd) x := mk_cmd x (cl s) (gProductOutPath s) (disk s) (copies s) (seen s).
Definition put_cl (s : cmd) x := mk_cmd (ask s) x (gProductOutPath s) (disk s) (copies s) (seen s).
Definition put_product (s : cmd) x := mk_cmd (ask s) (cl s) x (disk s) (copies s) (seen s).
Definition show (s : cmd) (l : list shown) :=
  mk_cmd (ask s) (cl s) (gProductOutPath s) (disk s) (copies s) (seen s ++ l).
Definition around (s : cmd) : W := AdbClient.world (cl s).

Definition version_text : bytes :=
  bs "Android Debug Bridge version 1.0." ++ decimal ADB_SERVER_VERSION ++ [10].
Definition help (s : cmd) : cmd := show s [Err version_text; Help].
Definition usage (s : cmd) : outcome (Z * cmd) := Done (1, help s).
Definition complain (s : cmd) (text : bytes) : cmd := show s [Err (text ++ [10])].
(** fprintf(stderr, "error: %s\n", adb_error()) *)
Definition adb_failed (s : cmd) : cmd := show s [error_text (adb_error (cl s))].

(** *** Calls of the client library *)

Definition connect (s : cmd) (service : bytes) : outcome (Z * cmd) :=
  '(fd, c) ← adb_connect (ask s) (cl s) service (garbage (around s)); Done (fd, put_cl s c).
Definition command (s : cmd) (service : bytes) : outcome (Z * cmd) :=
  '(r, c) ← adb_command (ask s) (cl s) service (garbage (around s)); Done (r, put_cl s c).
Definition query (s : cmd) (service : bytes) : outcome (option bytes * cmd) :=
  '(m, c) ← adb_query (ask s) (cl s) service (garbage (around s)); Done (m, put_cl s c).
Definition close (s : cmd) (fd : Z) : cmd := put_cl s (adb_close (cl s) fd).

Definition read_and_dump (s : cmd) (fd : Z) : outcome cmd :=
  match (if fd <? 0 then None else conns (cl s) !! fd) with
  | None => Done s
  | Some k =>
      '(text, l) ← dump (reads k);
      Done (show (put_cl s (put_conn (cl s) fd (mk_conn l (writes k) (sent k)))) [Out text])
  end.

(** The answer of a query, on a line of its own. *)
Definition print_answer (s : cmd) (before : list shown) (service : bytes) : outcome (Z * cmd) :=
  '(tmp, s) ← query s service;
  match tmp with
  | Some tmp => Done (0, show s (before ++ [Out (tmp ++ [10])]))
  | None => Done (1, s)
  end.

Definition interactive_shell (s : cmd) : outcome (Z * cmd) :=
  '(fd, s) ← connect s (bs "shell:");
  if fd <? 0 then Done (1, adb_failed s)
  else
    k ← deref "closed descriptor" (conns (cl s) !! fd);
    match shell_run (schedule (around s))
            (mk_shell (terminal (around s)) (reads k) (writes k) 0 Reading (is_tty (around s)) [] []) with
    | (sh, Some Returned) =>
        Done (0, show (put_cl s (put_conn (cl s) fd (mk_conn (down sh) (up sh) (sent k ++ written sh)))) [Out (printed sh)])
    | (_, Some Disconnected) => Stop "exit 0"
    | (_, None) => Stop "waits for ever"
    end.

(** The window: the codes that clear the terminal, and the text. *)
Definition window (state : bytes) : shown :=
  Out ([27] ++ bs "[2J" ++ [27] ++ bs "[2H" ++ bs "Android Debug Bridge" ++ [10] ++ bs "State: " ++ state ++ [10]).

(** One turn of status_window's loop, with [laststate], and [n] of them: the loop
    does not end. *)
Definition status_turn (command : bytes) (s : cmd) (laststate : option bytes) : outcome (cmd * option bytes) :=
  '(state, s) ← query s command;
  match state with
  | None => Done (show s [window (bs "offline")], laststate)
  | Some st =>
      if bool_decide (laststate = Some st) then Done (s, laststate)
      else Done (show s [window st], Some st)
  end.
Fixpoint status_turns (n : nat) (command : bytes) (s : cmd) (laststate : option bytes) : outcome (cmd * option bytes) :=
  match n with
  | O => Done (s, laststate)
  | S n => '(s, laststate) ← status_turn command s laststate; status_turns n command s laststate
  end.

(** ppp: the child becomes pppd on the connection. *)
Definition ppp (s : cmd) (argv : list bytes) : outcome (Z * cmd) :=
  match argv with
  | _ :: adb_service_name :: _ =>
      '(fd, s) ← connect s adb_service_name;
      if fd <? 0 then
        Done (1, complain s (bs "Error: Could not open adb service: " ++ adb_service_name ++ bs ". Error: " ++ adb_error (cl s)))
      else
        match fork (around s) with
        | None => Done (1, complain s (bs "from fork()"))
        | Some true => Done (0, close s fd)
        | Some false => Stop "execvp"
        end
  | _ => Done (1, complain s (bs "usage: adb ppp <adb service name> [ppp opts]"))
  end.

(** *** The emulator's console (console.c) *)

Definition connect_to_console (s : cmd) : outcome (Z * cmd) :=
  '(port, c) ← adb_get_emulator_console_port (ask s) (cl s) (garbage (around s));
  let s := put_cl s c in
  if port <? 0 then
    Done (-1, complain s (if port =? -2 then bs "error: more than one emulator detected. use -s option"
                          else bs "error: no emulator detected"))
  else
    match socket_loopback_client (mk_settings (adb_transport (ask s)) (adb_serial (ask s)) port) (cl s) with
    | (Some fd, c) => Done (fd, put_cl s c)
    | (None, c) => Done (-1, complain (put_cl s c) (bs "error: could not connect to TCP port " ++ decimal port))
    end.

(** One adb_write, whose result nobody looks at. *)
Definition write_once (s : cmd) (fd : Z) (d : bytes) : outcome cmd :=
  match conns (cl s) !! fd, d with
  | Some k, _ :: _ =>
      match Io.adb_write (writes k) (length d) with
      | None => Stop "waits for ever"
      | Some (Io.Took n, w) => Done (put_cl s (put_conn (cl s) fd (mk_conn (reads k) w (sent k ++ take n d))))
      | Some (_, w) => Done (put_cl s (put_conn (cl s) fd (mk_conn (reads k) w (sent k))))
      end
  | _, _ => Done s
  end.

Fixpoint write_words (s : cmd) (fd : Z) (argv : list bytes) : outcome cmd :=
  match argv with
  | [] => Done s
  | w :: argv =>
      s ← write_once s fd w;
      s ← write_once s fd (match argv with [] => [10] | _ => [32] end);
      write_words s fd argv
  end.

Definition adb_send_emulator_command (s : cmd) (argv : list bytes) : outcome (Z * cmd) :=
  '(fd, s) ← connect_to_console s;
  if fd <? 0 then Done (1, s)
  else
    s ← write_words s fd (tail argv);
    s ← write_once s fd (bs "quit" ++ [10]);
    Done (0, close s fd).

(** *** File copies *)

(** adb_connect("sync:") and the rest of a do_sync_* function. *)
Definition copy (s : cmd) (run : option Wire.conn -> outcome (Z * option Wire.conn * F * list report)) : outcome (Z * cmd) :=
  '(fd, s) ← connect s (bs "sync:");
  '(r, c, f, log) ← run (if fd <? 0 then None else Some (sync_connection (around s)));
  Done (r, mk_cmd (ask s) (cl s) (gProductOutPath s) f
             (copies s ++ match c with Some c => [c] | None => [] end) (seen s ++ map Copying log)).

(** What a copy that also changes files gives to [copy]. *)
Definition copied (f : F) (r : outcome (Z * option (Client.client F) * list report))
    : outcome (Z * option Wire.conn * F * list report) :=
  '(r, c, log) ← r;
  Done (r, Client.con <$> c, from_option Client.files f c, log).

Definition sync_ls (s : cmd) (path : bytes) : outcome (Z * cmd) :=
  copy s (fun k => '(r, c, log) ← do_sync_ls k path; Done (r, c, disk s, log)).
Definition sync_push (s : cmd) (lpath rpath : bytes) (verifyApk : bool) : outcome (Z * cmd) :=
  copy s (fun k => copied (disk s) (do_sync_push has_manifest (disk s) k (duration (around s)) lpath rpath verifyApk)).
Definition sync_pull (s : cmd) (rpath lpath : bytes) : outcome (Z * cmd) :=
  copy s (fun k => copied (disk s) (do_sync_pull (disk s) k (duration (around s)) rpath lpath)).
Definition sync_sync (s : cmd) (lpath rpath : bytes) (listonly : bool) : outcome (Z * cmd) :=
  copy s (fun k => copied (disk s) (do_sync_sync has_manifest (disk s) k (duration (around s)) lpath rpath listonly)).

(** ** The product directory *)

Definition product_file (s : cmd) (extra : bytes) : outcome bytes :=
  match gProductOutPath s with
  | None => Stop "exit 1"
  | Some p => Done (p ++ [47] ++ extra)
  end.

(** strcpy into path_buf *)
Definition path_copy (p : bytes) : outcome bytes :=
  if (length p <? PATH_MAX)%nat then Done p else Undef "buffer overrun".

Definition adb_is_absolute_host_path (path : bytes) : bool :=
  match path with b :: _ => b =? 47 | [] => false end.

Definition SENTINEL_FILE : bytes := bs "config/envsetup.make".
Definition top_works (f : F) (top : bytes) : bool :=
  adb_is_absolute_host_path top && access f (fmt PATH_MAX (top ++ [47] ++ SENTINEL_FILE)).

(** The loop that goes up; one turn per '/' and one more are enough. *)
Fixpoint find_top_loop (fuel : nat) (f : F) (path : bytes) : outcome (option bytes) :=
  match fuel with
  | O => Stop "fuel"
  | S fuel =>
      if top_works f path then Done (Some path)
      else match Service.strrchr 47 path with
           | Some (up, _) => find_top_loop fuel f up
           | None => Done None
           end
  end.
Definition find_top_from (f : F) (indir : bytes) : outcome (option bytes) :=
  path ← path_copy indir;
  find_top_loop (S (length path)) f path.

(** A variable that is set and not empty. *)
Definition env_path (name : string) : option bytes :=
  match getenv name with Some (b :: v) => Some (b :: v) | _ => None end.

Definition find_top (s : cmd) : outcome (option bytes * cmd) :=
  let bad name top := complain s (bs "adb: bad " ++ bs name ++ bs " value " ++ [34] ++ top ++ [34]) in
  let take name top := if top_works (disk s) top then p ← path_copy top; Done (Some p, s) else Done (None, bad name top) in
  match env_path "ANDROID_BUILD_TOP", env_path "TOP" with
  | Some top, _ => take "ANDROID_BUILD_TOP"%string top
  | None, Some top => take "TOP"%string top
  | None, None =>
      dir ← deref "null path" getcwd;
      top ← find_top_from (disk s) dir;
      match top with
      | Some top => Done (Some top, s)
      | None => top ← find_top_from (disk s) my_path; Done (top, s)
      end
  end.

Definition find_product_out_path (s : cmd) (hint : bytes) : outcome (option bytes * cmd) :=
  match hint with
  | [] => Done (None, s)
  | _ =>
      if adb_is_absolute_host_path hint then p ← path_copy hint; Done (Some p, s)
      else if existsb (Z.eqb 47) hint then
        match getcwd with
        | None => Done (None, complain s (bs "adb: Couldn't get CWD"))
        | Some cwd =>
            if (PATH_MAX <=? length cwd + 1 + length hint)%nat then Done (None, complain s (bs "adb: Couldn't assemble path"))
            else Done (Some (cwd ++ [47] ++ hint), s)
        end
      else
        '(top, s) ← find_top s;
        match top with
        | None => Done (None, complain s (bs "adb: Couldn't find top of build tree"))
        | Some top =>
            let path := fmt PATH_MAX (top ++ bs "/out/target/product/" ++ hint) in
            if access (disk s) path then Done (Some path, s)
            else Done (None, complain s (bs "adb: Couldn't find a product dir based on " ++ [34] ++ bs "-p " ++ hint ++ [34]
                                         ++ bs "; " ++ [34] ++ path ++ [34] ++ bs " doesn't exist"))
        end
  end.

(** [None]: 1, otherwise the directories to be copied to /system and /data. *)
Definition find_sync_dirs (s : cmd) (srcarg : option bytes) : outcome (option (option bytes * option bytes)) :=
  match srcarg with
  | None =>
      android ← product_file s (bs "system");
      data ← product_file s (bs "data");
      Done (Some (Some android, Some data))
  | Some srcarg =>
      if bool_decide (srcarg = bs "system") then android ← product_file s srcarg; Done (Some (Some android, None))
      else if bool_decide (srcarg = bs "data") then data ← product_file s srcarg; Done (Some (None, Some data))
      else Done None
  end.

(** ** Flags *)

Record flags := mk_flags {
  no_daemon : bool; is_daemon : bool; persist : bool; ttype : Sockets.transport_type; serial : option bytes
}.
Definition isdigit (b : Z) : bool := (48 <=? b) && (b <=? 57).

(** The loop over the modifiers and flags.  [inl]: adb_commandline returns. *)
Fixpoint flag_loop (argv : list bytes) (fl : flags) (s : cmd) : outcome ((Z + list bytes * flags) * cmd) :=
  let stop s := '(r, s) ← usage s; Done (inl r, s) in
  match argv with
  | [] => Done (inr (argv, fl), s)
  | a :: rest =>
      let go := flag_loop rest in
      let product p s (k : cmd -> outcome ((Z + list bytes * flags) * cmd)) :=
        '(path, s) ← find_product_out_path s p;
        let s := put_product s path in
        match path with
        | None => stop (complain s (bs "adb: could not resolve " ++ [34] ++ bs "-p " ++ p ++ [34]))
        | Some _ => k s
        end in
      if bool_decide (a = bs "nodaemon") then go (mk_flags true (is_daemon fl) (persist fl) (ttype fl) (serial fl)) s
      else if bool_decide (a = bs "fork-server") then go (mk_flags (no_daemon fl) true (persist fl) (ttype fl) (serial fl)) s
      else if bool_decide (a = bs "persist") then go (mk_flags (no_daemon fl) (is_daemon fl) true (ttype fl) (serial fl)) s
      else if bool_decide (take 2 a = bs "-p") then
        if bool_decide (a = bs "-p") then
          match rest with
          | [] => stop s
          | p :: rest' => product p s (flag_loop rest' fl)
          end
        else
          match rest with
          | [] => Undef "null argument"
          | b :: _ => if (length b <? 2)%nat then Undef "past the end of the argument" else product (drop 2 b) s (go fl)
          end
      else if bool_decide (take 2 a = bs "-s") then
        if existsb isdigit (take 1 (drop 2 a)) then
          go (mk_flags (no_daemon fl) (is_daemon fl) (persist fl) (ttype fl) (Some (drop 2 a))) s
        else
          match rest with
          | b :: rest' =>
              if bool_decide (a = bs "-s") then flag_loop rest' (mk_flags (no_daemon fl) (is_daemon fl) (persist fl) (ttype fl) (Some b)) s
              else stop s
          | [] => stop s
          end
      else if bool_decide (a = bs "-d") then
        go (mk_flags (no_daemon fl) (is_daemon fl) (persist fl) Sockets.kTransportUsb (serial fl)) s
      else if bool_decide (a = bs "-e") then
        go (mk_flags (no_daemon fl) (is_daemon fl) (persist fl) Sockets.kTransportLocal (serial fl)) s
      else Done (inr (argv, fl), s)
  end.

(** ** The commands

    [recur] is adb_commandline as do_cmd calls it again, [tries] bounds the loops
    that wait for a device. *)

Section recursive.
Variable recur : list bytes -> cmd -> outcome (Z * cmd).
Variable tries : nat.

(** do_cmd: the arguments it makes. *)
Definition do_cmd_args (ttype : Sockets.transport_type) (serial : option bytes) (words : list bytes) : list bytes :=
  match serial, ttype with
  | Some serial, _ => [bs "-s"; serial]
  | None, Sockets.kTransportUsb => [bs "-d"]
  | None, Sockets.kTransportLocal => [bs "-e"]
  | None, _ => []
  end ++ words.
Definition do_cmd ttype serial words (s : cmd) : outcome (Z * cmd) := recur (do_cmd_args ttype serial words) s.

Fixpoint send_tries (n : nat) ttype serial (buf : bytes) (s : cmd) : outcome (Z * cmd) :=
  match n with
  | O => Stop "still waiting"
  | S n =>
      '(fd, s) ← connect s buf;
      if 0 <=? fd then s ← read_and_dump s fd; Done (0, close s fd)
      else
        '(_, s) ← do_cmd ttype serial [bs "wait-for-device"] (complain s (bs "- waiting for device -"));
        send_tries n ttype serial buf s
  end.
Definition send_shellcommand ttype serial (buf : bytes) (s : cmd) : outcome (Z * cmd) :=
  send_tries tries ttype serial buf s.

Definition logcat ttype serial (argv : list bytes) (s : cmd) : outcome (Z * cmd) :=
  let log_tags := default [] (getenv "ANDROID_LOG_TAGS") in
  buf ← append_words (fmt 4096 (bs "shell:export ANDROID_LOG_TAGS=" ++ [34] ++ dupAndQuote log_tags ++ [34] ++ bs " ; exec logcat"))
          (tail argv);
  '(_, s) ← send_shellcommand ttype serial buf s;
  Done (0, s).

Definition pm_command ttype serial (argv : list bytes) (s : cmd) : outcome (Z * cmd) :=
  buf ← append_words (bs "shell:pm") argv;
  '(_, s) ← send_shellcommand ttype serial buf s;
  Done (0, s).

Definition uninstall_app ttype serial (argv : list bytes) (s : cmd) : outcome (Z * cmd) :=
  match argv with
  | [_; k; package] =>
      if bool_decide (k = bs "-k") then
        Done (-1, show s [Out (bs "The -k option uninstalls the application while retaining the data/cache." ++ [10] ++
          bs "At the moment, there is no way to remove the remaining data." ++ [10] ++
          bs "You will have to reinstall the application with the same signature, and fully uninstall it." ++ [10] ++
          bs "If you truly wish to continue, execute 'adb shell pm uninstall -k " ++ package ++ bs "'" ++ [10])])
      else pm_command ttype serial argv s
  | _ => pm_command ttype serial argv s
  end.

Definition delete_file ttype serial (filename : bytes) (s : cmd) : outcome (Z * cmd) :=
  buf ← strncat (bs "shell:rm ") (dupAndQuote filename);
  '(_, s) ← send_shellcommand ttype serial buf s;
  Done (0, s).

(** The directory on the device, and the package's place in it. *)
Definition install_dir (argv : list bytes) : bytes :=
  if bool_decide (bs "-s" ∈ argv) then bs "/sdcard/tmp/" else bs "/data/local/tmp/".

(** [argv] with another last element. *)
Definition set_last (argv : list bytes) (w : bytes) : list bytes := removelast argv ++ [w].

Definition install_app ttype serial (argv : list bytes) (s : cmd) : outcome (Z * cmd) :=
  let filename := List.last argv [] in
  match Service.strrchr 47 filename with
  | None => Undef "null pointer"
  | Some (_, p) =>
      let to := fmt PATH_MAX (install_dir argv ++ p) in
      match fs_stat (disk s) filename with
      | None => Done (1, complain s (bs "can't find '" ++ filename ++ bs "' to install"))
      | Some st =>
          if negb (Service.S_ISREG st.1.1) then
            Done (1, complain s (bs "can't install '" ++ filename ++ bs "' because it's not a file"))
          else
            '(err, s) ← sync_push s filename to true;
            if negb (err =? 0) then Done (err, s)
            else
              '(_, s) ← pm_command ttype serial (set_last argv to) s;
              '(_, s) ← delete_file ttype serial to s;
              Done (err, s)
      end
  end.

(** The shell command: [buf] is what the device's shell is given. *)
Fixpoint shell_tries (n : nat) (persist : bool) ttype serial (buf : bytes) (s : cmd) : outcome (Z * cmd) :=
  match n with
  | O => Stop "still waiting"
  | S n =>
      '(fd, s) ← connect s buf;
      '(r, s) ← (if 0 <=? fd then s ← read_and_dump s fd; Done (0, close s fd) else Done (-1, adb_failed s));
      if negb persist then Done (r, s)
      else
        '(_, s) ← do_cmd ttype serial [bs "wait-for-device"] (show s [Err ([10] ++ bs "- waiting for device -" ++ [10])]);
        shell_tries n persist ttype serial buf s
  end.

Definition shell_command (fl : flags) (argv : list bytes) (s : cmd) : outcome (Z * cmd) :=
  match argv with
  | [] => interactive_shell s
  | w :: argv =>
      buf ← shell_words (fmt 4096 (bs "shell:" ++ w)) argv;
      shell_tries tries (persist fl) (ttype fl) (serial fl) buf s
  end.

(** remount, reboot and the like: a service of the device, whose answer is shown. *)
Definition device_service (s : cmd) (argv : list bytes) : outcome (Z * cmd) :=
  let name := hd [] argv in
  let service :=
    fmt 100 (if bool_decide (name = bs "reboot-bootloader") then bs "reboot:bootloader"
             else match argv with _ :: a :: _ => name ++ bs ":" ++ a | _ => name ++ bs ":" end) in
  '(fd, s) ← connect s service;
  if 0 <=? fd then s ← read_and_dump s fd; Done (0, close s fd) else Done (1, adb_failed s).

Definition request_command (s : cmd) (buf : bytes) : outcome (Z * cmd) :=
  '(r, s) ← command s buf;
  if negb (r =? 0) then Done (1, adb_failed s) else Done (0, s).

Definition forward_request (fl : flags) (local remote : bytes) : bytes :=
  fmt 4096
    (match serial fl with
     | Some serial => bs "host-serial:" ++ serial ++ bs ":"
     | None => match ttype fl with
               | Sockets.kTransportUsb => bs "host-usb:"
               | Sockets.kTransportLocal => bs "host-local:"
               | _ => bs "host:"
               end
     end ++ bs "forward:" ++ local ++ bs ";" ++ remote).

(** The service that a wait-for- command asks for. *)
Definition wait_service (ttype : Sockets.transport_type) (service : bytes) : bytes :=
  if bool_decide (take 15 service = bs "wait-for-device") then
    match ttype with
    | Sockets.kTransportUsb => bs "wait-for-usb"
    | Sockets.kTransportLocal => bs "wait-for-local"
    | _ => bs "wait-for-any"
    end
  else service.

(** sync: [inl]: usage, otherwise the directory and -l. *)
Definition sync_args (argv : list bytes) : option (option bytes * bool) :=
  match argv with
  | [] => Some (None, false)
  | a :: rest =>
      if bool_decide (a = bs "-l") then Some (match rest with [d] => Some d | _ => None end, true)
      else match rest with [] => Some (Some a, false) | _ => None end
  end.
Definition sync_command (argv : list bytes) (s : cmd) : outcome (Z * cmd) :=
  match sync_args argv with
  | None => usage s
  | Some (srcarg, listonly) =>
      dirs ← find_sync_dirs s srcarg;
      match dirs with
      | None => usage s
      | Some (android, data) =>
          '(ret, s) ← (match android with Some p => sync_sync s p (bs "/system") listonly | None => Done (0, s) end);
          match data with
          | Some p => if ret =? 0 then sync_sync s p (bs "/data") listonly else Done (ret, s)
          | None => Done (ret, s)
          end
      end
  end.

(** The commands behind the wait-for- commands: requests, file copies and others. *)
Definition more_commands (fl : flags) (argv : list bytes) (s : cmd) : outcome (Z * cmd) :=
  let name := hd [] argv in
  let args := tail argv in
  let named w := bool_decide (name = bs w) in
  if named "forward" then
    match args with
    | [a; b] => request_command s (forward_request fl a b)
    | _ => usage s
    end
  else if named "ls" then match args with [p] => sync_ls s p | _ => usage s end
  else if named "push" then match args with [l; r] => sync_push s l r false | _ => usage s end
  else if named "pull" then
    match args with
    | [r] => sync_pull s r (bs ".")
    | [r; l] => sync_pull s r l
    | _ => usage s
    end
  else if named "install" then
    match args with [] => usage s | _ => install_app (ttype fl) (serial fl) argv s end
  else if named "uninstall" then
    match args with [] => usage s | _ => uninstall_app (ttype fl) (serial fl) argv s end
  else if named "sync" then sync_command args s
  else if named "get-state" || named "get-serialno" then
    print_answer s [] (format_host_command name (ttype fl) (serial fl))
  else if named "status-window" then
    '(_, _) ← status_turns tries (format_host_command (bs "get-state") (ttype fl) (serial fl)) s None;
    Stop "runs for ever"
  else if named "logcat" || named "lolcat" then logcat (ttype fl) (serial fl) argv s
  else if named "ppp" then ppp s argv
  else if named "start-server" then connect s (bs "host:start-server")
  else if named "jdwp" then
    '(fd, s) ← connect s (bs "jdwp");
    if 0 <=? fd then s ← read_and_dump s fd; Done (0, close s fd) else Done (-1, adb_failed s)
  else if named "help" || named "/?" then Done (0, help s)
  else if named "version" then Done (0, show s [Out version_text])
  else '(_, s) ← usage s; Done (1, s).

(** From the label top on: [argv] is the command with its arguments. *)
Fixpoint top (fl : flags) (argv : list bytes) (s : cmd) : outcome (Z * cmd) :=
  match argv with
  | [] => usage s
  | name :: args =>
      let named w := bool_decide (name = bs w) in
      if named "devices" then print_answer s [Out (bs "List of devices attached " ++ [10])] (bs "host:devices")
      else if named "connect" then
        match args with
        | [a] => print_answer s [] (fmt 4096 (bs "host:connect:" ++ a))
        | _ => Done (1, complain s (bs "Usage: adb connect <host>[:<port>]"))
        end
      else if named "disconnect" then
        match args with
        | [a] => print_answer s [] (fmt 4096 (bs "host:disconnect:" ++ a))
        | [] => print_answer s [] (bs "host:disconnect:")
        | _ => Done (1, complain s (bs "Usage: adb disconnect [<host>[:<port>]]"))
        end
      else if named "emu" then adb_send_emulator_command s argv
      else if named "shell" then shell_command fl args s
      else if named "kill-server" then
        '(fd, c) ← _adb_connect (ask s) (cl s) (bs "host:kill");
        if fd =? -1 then Done (1, complain (put_cl s c) (bs "* server not running *")) else Done (0, put_cl s c)
      else if existsb named ["remount"; "reboot"; "reboot-bootloader"; "tcpip"; "usb"; "root"] then device_service s argv
      else if named "bugreport" then
        match args with
        | [] => '(_, s) ← do_cmd (ttype fl) (serial fl) [bs "shell"; bs "bugreport"] s; Done (0, s)
        | _ => usage s
        end
      else if bool_decide (take 9 name = bs "wait-for-") then
        '(r, s) ← request_command s (format_host_command (wait_service (ttype fl) name) (ttype fl) (serial fl));
        if negb (r =? 0) then Done (r, s)
        else match args with [] => Done (0, s) | _ => top fl args s end
      else more_commands fl argv s
  end.

(** server: in this process or in one of its own. *)
Definition server_command (fl : flags) (server_port : Z) (s : cmd) : outcome (Z * cmd) :=
  '(r, s) ←
    (if no_daemon fl || is_daemon fl then
       '(r, w) ← adb_main (around s) (is_daemon fl) server_port; Done (r, put_cl s (AdbClient.put_world (cl s) w))
     else
       let '(failed, w) := h_launch (around s) server_port in
       Done (if failed : bool then -1 else 0, put_cl s (AdbClient.put_world (cl s) w)));
  Done (r, if r =? 0 then s else complain s (bs "* could not start server *")).

(** [None]: the variable is set to something that is no port. *)
Definition server_port : option Z :=
  match env_path "ANDROID_ADB_SERVER_PORT" with
  | None => Some DEFAULT_ADB_PORT
  | Some text => let port := strtol0 text in if port <=? 0 then None else Some port
  end.

Definition initial_flags : flags := mk_flags false false false Sockets.kTransportAny (getenv "ANDROID_SERIAL").

Definition commandline (argv : list bytes) (s : cmd) : outcome (Z * cmd) :=
  let s := put_product s (env_path "ANDROID_PRODUCT_OUT") in
  match server_port with
  | None => usage (complain s (bs "adb: Env var ANDROID_ADB_SERVER_PORT must be a positive number. Got " ++
                               [34] ++ default [] (getenv "ANDROID_ADB_SERVER_PORT") ++ [34]))
  | Some port =>
      '(r, s) ← flag_loop argv initial_flags s;
      match r with
      | inl r => Done (r, s)
      | inr (argv, fl) =>
          let s := put_ask s (mk_settings (ttype fl) (serial fl) port) in
          match argv with
          | a :: _ => if bool_decide (a = bs "server") then server_command fl port s else top fl argv s
          | [] => top fl argv s
          end
      end
  end.

End recursive.

(** do_cmd's own commands (wait-for-device; shell bugreport) do not call it again. *)
Definition adb_commandline (tries : nat) (argv : list bytes) (s : cmd) : outcome (Z * cmd) :=
  commandline (commandline (fun _ _ => Stop "nested") tries) tries argv s.

End commands.
Arguments cmd : clear implicits.


(** ** The search for the top of the build tree *)

Lemma strrchr_spec ch s :
  match Service.strrchr ch s with
  | Some (l, r) => s = l ++ ch :: r /\ ch ∉ r
  | None => ch ∉ s
  end.
Proof.
  induction s as [|b s IH]; cbn [Service.strrchr]; [apply not_elem_of_nil|].
  destruct (Service.strrchr ch s) as [[l r]|]; [destruct IH as [-> Hr]; by split|].
  destruct (Z.eqb_spec b ch) as [->|Hne]; [by split|]. by apply not_elem_of_cons.
Qed.

(** [p] is the path itself or the path of a directory above it. *)
Definition ancestor (p path : bytes) : Prop := p = path \/ exists rest, path = p ++ 47 :: rest.

Lemma ancestor_up q up name : ancestor q (up ++ 47 :: name) -> 47 ∉ name -> q = up ++ 47 :: name \/ ancestor q up.
Proof.
  intros [->|(rest & E)] Hn; [by left|right].
  apply app_eq_app in E as (l & [[-> E]|[-> E]]).
  - destruct l as [|x l]; [left; by rewrite app_nil_r|]. injection E as <- E. right. eauto.
  - destruct l as [|x l]; [left; by rewrite app_nil_r|]. injection E as <- ->. destruct Hn. set_solver.
Qed.

(** find_top_from ends for every path that fits its buffer: it gives the
    directory nearest to the path, or the path itself, that has config/envsetup.make
    in it, and none only when no directory above the path has it. *)
Theorem find_top_from_nearest {F : Type} `{Machine F} (f : F) (path : bytes) :
  (length path < PATH_MAX)%nat ->
  match find_top_from f path with
  | Done (Some top) =>
      ancestor top path /\ top_works f top = true /\
      forall q, ancestor q path -> (length top < length q)%nat -> top_works f q = false
  | Done None => forall q, ancestor q path -> top_works f q = false
  | _ => False
  end.
Proof.
  intros Hl. unfold find_top_from, path_copy. rewrite (proj2 (Nat.ltb_lt _ _)) by done. cbn [mbind outcome_bind].
  generalize (Nat.lt_succ_diag_r (length path)). generalize (S (length path)) as fuel. intros fuel. clear Hl. revert path.
  induction fuel as [|fuel IH]; intros path Hf; [lia|]. cbn [find_top_loop].
  destruct (top_works f path) eqn:Ew.
  { split_and!; [by left|done|]. intros q [->|(rest & ->)] Hq; [lia|]. rewrite length_app in Hq. lia. }
  pose proof (strrchr_spec 47 path) as Hs. destruct (Service.strrchr 47 path) as [[up name]|].
  - destruct Hs as [-> Hn]. rewrite length_app in Hf. cbn [length] in Hf. specialize (IH up ltac:(lia)).
    destruct (find_top_loop fuel f up) as [[top|]| |]; try done.
    + destruct IH as (Ha & Ht & Hnear). split_and!; [|done|].
      * right. destruct Ha as [->|(rest & ->)]; [by eexists|]. exists (rest ++ 47 :: name). by rewrite <- app_assoc.
      * intros q Hq Hlen. destruct (ancestor_up q up name Hq Hn) as [->|Hup]; [done|by apply Hnear].
    + intros q Hq. destruct (ancestor_up q up name Hq Hn) as [->|Hup]; [done|by apply IH].
  - intros q [->|(rest & ->)]; [done|]. destruct Hs. set_solver.
Qed.
