(* ===== verification/Install.v ===== *)
(** * adb install, from the command line to the device

    The push of one file against the device's service, requests to a server that
    answers, and their composition: what adb install leaves on the device and what
    the package manager is told.  Also how the command calls itself to wait for the
    device. *)

From S2P Require Import Prelude Io Sockets FileSync SyncDirs SyncPush AdbClient HostRequest AdbShell Commandline.

Import Wire Service Client.

(** ** One file is pushed *)

Section file.
Context {D F : Type} `{FileSystemFrame D} `{FileSystem F} `{StatFiles F}.
Variable zip : bytes -> bool.







End file.

(** ** Requests to a server that answers *)

Section requests.
Context {W F : Type} `{Host W} `{Around W} `{Machine F} `{FileSystem F} `{StatFiles F}.
Implicit Types s : cmd W F.





(** What a request leaves as it was. *)
Definition same_but_cl s s' : Prop := exists c, s' = put_cl s c.



End requests.

(** ** The whole command *)

Section install.
Context {W D F : Type} `{Host W} `{Around W} `{Machine F} `{FileSystemFrame D} `{FileSystem F} `{StatFiles F}.
Implicit Types s : cmd W F.










End install.


(** ** The command waits for its own device *)

Section waiting.
Context {W F : Type} `{Host W} `{Around W} `{Machine F} `{FileSystem F} `{StatFiles F}.
Implicit Types s : cmd W F.

(** The flags that do_cmd's arguments are read back to. *)
Definition reread (tt : Sockets.transport_type) (ser : option bytes) : Sockets.transport_type :=
  match ser with Some _ => Sockets.kTransportAny | None => tt end.

Lemma do_cmd_flags tt ser s :
  tt <> Sockets.kTransportHost -> (ser = None -> getenv "ANDROID_SERIAL" = None) ->
  flag_loop (do_cmd_args tt ser [bs "wait-for-device"]) initial_flags s =
  Done (inr ([bs "wait-for-device"], mk_flags false false false (reread tt ser) ser), s).
Proof.
  intros Hh He. destruct ser as [serial|]; [reflexivity|]. unfold initial_flags. rewrite He by done. by destruct tt.
Qed.

(** The request for a device to wait for. *)
Definition wait_request (tt : Sockets.transport_type) (ser : option bytes) : bytes :=
  format_host_command (wait_service tt (bs "wait-for-device")) tt ser.
End waiting.

(** When a command for a device waits for it, it calls itself with
    wait-for-device and flags made of the transport and the serial it was given.  The
    second call reads these back: it asks the server to wait for a device of that
    serial or that kind, shows the error when there is one and nothing else happens;
    requests after it go where requests went before it. *)
Theorem waits_for_its_device {W F : Type} `{Host W} `{Around W} `{Machine F} `{FileSystem F} `{StatFiles F}
    recur tries port tt ser (s : cmd W F) :
  server_port = Some port -> tt <> Sockets.kTransportHost -> (ser = None -> getenv "ANDROID_SERIAL" = None) ->
  ask s = mk_settings tt ser port ->
  exists s1,
    ask s1 = mk_settings (reread tt ser) ser port /\ cl s1 = cl s /\ disk s1 = disk s /\ seen s1 = seen s /\
    transport_service (ask s1) = transport_service (ask s) /\
    do_cmd (commandline recur tries) tt ser [bs "wait-for-device"] s =
      ('(r, s2) ← request_command s1 (wait_request (reread tt ser) ser); Done (if r =? 0 then 0 else r, s2)) /\
    wait_request (reread tt ser) ser =
      fmt 4096 (match ser with
                | Some serial => bs "host-serial:" ++ serial ++ bs ":wait-for-any"
                | None => match tt with
                          | Sockets.kTransportUsb => bs "host-usb:wait-for-usb"
                          | Sockets.kTransportLocal => bs "host-local:wait-for-local"
                          | _ => bs "host:wait-for-any"
                          end
                end).
Proof.
  intros Hport Hh He Hask.
  exists (put_ask (put_product s (env_path "ANDROID_PRODUCT_OUT")) (mk_settings (reread tt ser) ser port)).
  split_and!; try done.
  - cbn. rewrite Hask. by destruct ser.
  - unfold do_cmd, commandline. rewrite Hport, do_cmd_flags by done. cbv [mbind outcome_bind]. cbv beta iota.
    cbn [ttype serial]. rewrite bool_decide_eq_false_2 by done. set (s1 := put_ask _ _).
    transitivity ('(r, s2) ← request_command s1 (wait_request (reread tt ser) ser); if negb (r =? 0) then Done (r, s2) else Done (0, s2)).
    { reflexivity. }
    destruct (request_command s1 _) as [[r s2]| |]; cbn [mbind outcome_bind]; [|done..]. by destruct (r =? 0).
  - unfold wait_request. destruct ser as [serial|]; [done|]. by destruct tt.
Qed.

(** ** A command that is too long *)

Lemma connect_too_long {W : Type} `{Host W} (g : settings) (c : AdbClient.client W) service garbage fd c' :
  (1024 < length service)%nat -> adb_connect g c service garbage = Done (fd, c') -> fd < 0.
Proof.
  intros Hl. assert (service <> bs "host:start-server") as Hne.
  { intros ->. assert (length (bs "host:start-server") = 17%nat) as El by done. lia. }
  assert (forall c0, finish_connect g c0 service = Done (-1, put_error c0 (bs "service name too long"))) as Hfin.
  { intros c0. unfold finish_connect. rewrite decide_False by done. unfold _adb_connect.
    rewrite (proj2 (Z.ltb_lt 1024 _)) by lia. by rewrite orb_true_r. }
  assert (forall c0, launch_and_connect g c0 service = Done (fd, c') -> fd < 0) as Hlaunch.
  { intros c0. unfold launch_and_connect. destruct (start_server g c0) as [[] c1]; [|rewrite Hfin]; intros [= <- _]; lia. }
  unfold adb_connect. destruct (_adb_connect g c (bs "host:version")) as [[fd0 c1]| |]; cbn [mbind outcome_bind]; [|done..].
  destruct (fd0 =? -2); [apply Hlaunch|]. intros E. inv_done E. destruct r as [v c2].
  assert (forall r, v = inl r -> r < 0) as Hv.
  { intros r ->. revert E0. destruct (Z.leb_spec 0 fd0); intros E0.
    - pose proof (read_version_closes c1 fd0 garbage) as Hr. rewrite E0 in Hr. destruct Hr as (_ & _ & Hr). rewrite (Hr r eq_refl). lia.
    - case_decide; simplify_eq. lia. }
  destruct v as [r|version]; [injection E as <- _; by apply Hv|].
  destruct (negb (version =? ADB_SERVER_VERSION)).
  - inv_done E. destruct r as [fd1 c3]. by apply Hlaunch in E.
  - rewrite Hfin in E. injection E as <- _. lia.
Qed.

(** A command line of more than 1024 bytes is refused by the client library every
    time, and the command waits for a device that is there. *)
Lemma long_command_never_sent {W F : Type} `{Host W} `{Around W} recur tries tt ser buf : forall (s : cmd W F) r s',
  (1024 < length buf)%nat -> send_shellcommand recur tries tt ser buf s <> Done (r, s').
Proof.
  unfold send_shellcommand. induction tries as [|n IH]; intros s r s' Hl; [done|]. cbn [send_tries]. intros E.
  inv_done E. destruct r0 as [fd s1]. unfold connect in E0. inv_done E0. destruct r0 as [fd' c].
  pose proof (connect_too_long _ _ _ _ _ _ Hl E1). injection E0 as -> _.
  destruct (Z.leb_spec 0 fd); [lia|]. inv_done E. destruct r0 as [x s2]. by apply (IH s2 r s') in E.
Qed.

(** ** Concrete runs *)

Module Session.

(** A server that answers with given bytes, and one connection for copies. *)
Definition world : Type := list bytes * conn.
#[global] Instance server : AdbClient.Host world := {
  h_connect w _ := match w.1 with
                   | b :: l => (Some (AdbClient.feed b ++ [Io.REof], repeat (Io.WTake 99) 1100), (l, w.2))
                   | [] => (None, w)
                   end;
  h_launch w _ := (true, w)
}.
#[global] Instance surroundings : Around world := {
  garbage _ := [];
  sync_connection w := w.2;
  duration _ := 5;
  terminal _ := [];
  is_tty _ := false;
  schedule _ := [];
  fork _ := None;
  adb_main w _ _ := Done (0, w)
}.
#[global] Instance machine : Machine SyncPush.Host.host := {
  getenv _ := None;
  getcwd := Some (bs "/home");
  my_path := bs "/bin/adb";
  access _ p := bool_decide (p = bs "/src/config/envsetup.make");
  has_manifest _ := true
}.

Definition begin (l : list bytes) (k : conn) : cmd world SyncPush.Host.host :=
  mk_cmd (mk_settings Sockets.kTransportAny None 5037) (AdbClient.mk_client ∅ 3 [] (l, k) [] []) None SyncPush.Host.demo [] [].
Definition version := version_answer.
(** The package manager says Success, rm nothing. *)
Definition answered : list bytes :=
  [version; bs "OKAYOKAY"; version; bs "OKAYOKAYSuccess"; version; bs "OKAYOKAY"].
Definition copying : conn := fresh (msg_stat 0 0 0 ++ msg2 ID_OKAY 0).
Definition phone : Disk.disk := Disk.demo (bs "x") [9].


End Session.


(** The run itself: the package is on the phone and the command has returned 0. *)
Example install_run :
  match adb_commandline 1 [bs "install"; bs "-r"; bs "p/a"] (Session.begin Session.answered Session.copying) with
  | Done (0, s) =>
      seen s = [Copying (Rate 390 2 0 0); Out (bs "Success"); Out []] /\
      match copies s with
      | [k] => match file_sync_service Session.phone (fresh (outp k)) with
               | Done (d, c) => Disk.nodes d !! bs "/data/local/tmp/a" = Some (0x1A4, [1; 2], 7) /\
                                fresh (outp c) = Session.copying
               | _ => False
               end
      | _ => False
      end
  | _ => False
  end.
Proof. vm_compute. done. Qed.

Lemma waits_for_its_device_witness :
  let s := put_ask (Session.begin [] Session.copying) (mk_settings Sockets.kTransportUsb None 5037) in
  exists s1,
    ask s1 = mk_settings Sockets.kTransportUsb None 5037 /\ cl s1 = cl s /\ disk s1 = disk s /\ seen s1 = seen s /\
    transport_service (ask s1) = transport_service (ask s) /\
    do_cmd (commandline (fun _ _ => Stop "nested") 3) Sockets.kTransportUsb None [bs "wait-for-device"] s =
      ('(r, s2) ← request_command s1 (bs "host-usb:wait-for-usb"); Done (if r =? 0 then 0 else r, s2)).
Proof.
  cbv zeta. destruct (waits_for_its_device (F:=SyncPush.Host.host) (fun _ _ => Stop "nested") 3 5037 Sockets.kTransportUsb None
    (put_ask (Session.begin [] Session.copying) (mk_settings Sockets.kTransportUsb None 5037))) as (s1 & E1 & E2 & E3 & E4 & E5 & E6 & _).
  - reflexivity.
  - done.
  - done.
  - done.
  - exists s1. split_and!; done.
Defined.

Lemma find_top_from_nearest_witness :
  (length (bs "/src/device/x") < Commandline.PATH_MAX)%nat /\
  match find_top_from SyncPush.Host.demo (bs "/src/device/x") with
  | Done (Some top) =>
      ancestor top (bs "/src/device/x") /\ top_works SyncPush.Host.demo top = true /\
      forall q, ancestor q (bs "/src/device/x") -> (length top < length q)%nat -> top_works SyncPush.Host.demo q = false
  | Done None => forall q, ancestor q (bs "/src/device/x") -> top_works SyncPush.Host.demo q = false
  | _ => False
  end /\
  find_top_from SyncPush.Host.demo (bs "/src/device/x") = Done (Some (bs "/src")).
Proof.
  split; [by_compute|]. split; [|by vm_compute].
  apply (find_top_from_nearest SyncPush.Host.demo (bs "/src/device/x")). by_compute.
Defined.

(** A package without a directory in its name: a null pointer is read. *)
Example bare_name_read : 
  adb_commandline 1 [bs "install"; bs "a.apk"] (Session.begin [] Session.copying) = Undef "null pointer".
Proof. by vm_compute. Qed.

(** -pNAME: the name is taken from the next word, which is the command. *)
Example product_of_next_word :
  match adb_commandline 1 [bs "-p/out/one"; bs "xx/two"; bs "version"] (Session.begin [] Session.copying) with
  | Done (r, s) => gProductOutPath s = Some (bs "/two")
  | _ => False
  end /\
  adb_commandline 1 [bs "-p/out/one"] (Session.begin [] Session.copying) = Undef "null argument".
Proof. by vm_compute. Qed.

(** No server: kill-server says nothing and returns 0. *)
Example kill_of_nothing :
  match adb_commandline 1 [bs "kill-server"] (Session.begin [] Session.copying) with
  | Done (r, s) => r = 0 /\ seen s = [] /\ adb_error (cl s) = bs "cannot connect to daemon"
  | _ => False
  end.
Proof. by vm_compute. Qed.

(** A device that was there, is gone and is back: the window stays at offline. *)
Example window_stays_offline :
  match status_turns 3 (bs "host:get-state")
          (Session.begin [Session.version; bs "OKAY0006device"; Session.version; bs "FAIL0000"; Session.version; bs "OKAY0006device"] Session.copying) None with
  | Done (s, _) => seen s = [window (bs "device"); window (bs "offline")]
  | _ => False
  end.
Proof. by vm_compute. Qed.
