(* ===== verification/ServiceFd.v ===== *)
(** * Starting services (tools/adb/services.c)

    service_to_fd turns the name of a service into a descriptor: a socket, a device,
    the terminal of a shell, or one end of a socket pair with a thread behind the
    other (Services, FileSync); a debugger's comes from Jdwp.  The system's calls are the class [ServiceOps]; its
    laws in [ServiceLaws] say which descriptors the daemon then owns.  Module
    [HostServices] has what only the server has: wait-for. *)

From S2P Require Import Prelude Dlist Io Fdevent Sockets AdbClient Transport HostRequest Trackers.
From S2P Require Jdwp.

(** What runs in a thread behind a socket pair. *)
Inductive service :=
  | Dns (hostname : bytes) | Framebuffer | Recover (count : Z) | Log (path : bytes) | FileSyncService
  | Remount | Reboot (arg : bytes) | RestartRoot | RestartTcp (port : Z) | RestartUsb
  | WaitForState (transport : Sockets.transport_type) (state : Z) (serial : option bytes).

Inductive namespace := RESERVED | ABSTRACT | FILESYSTEM.

(** Descriptors are numbers, a negative one is an error. *)
Class ServiceOps (W : Type) := {
  op_socketpair : W -> option (Z * Z) * W;
  op_thread_create : W -> service -> Z -> bool * W;           (* true: it runs, with its descriptor *)
  op_close : W -> Z -> W;
  op_close_on_exec : W -> Z -> W;
  op_loopback_client : W -> Z -> Z * W;
  op_nagle : W -> Z -> W;
  op_network_client : W -> bytes -> Z -> Z * W;
  op_local_client : W -> bytes -> namespace -> Z * W;
  op_open : W -> bytes -> Z * W;
  op_stat : W -> bytes -> bool;                               (* true: it exists *)
  op_pty : W -> Z -> option bytes * W;                        (* grantpt, unlockpt, ptsname *)
  op_fork : W -> bytes -> bytes -> bytes -> option bytes -> Z * W;   (* the child runs a command on a terminal *)
  op_write : W -> Z -> bytes -> W
}.

Section services.
Context {W : Type} `{ServiceOps W}.

(** -1 when the pair or the thread cannot be made. *)
Definition create_service_thread (w : W) (func : service) : Z * W :=
  let '(r, w) := op_socketpair w in
  match r with
  | None => (-1, w)
  | Some (s0, s1) =>
      let '(ok, w) := op_thread_create w func s1 in
      if ok : bool then (s0, w) else (-1, op_close (op_close w s0) s1)
  end.

(** create_subprocess in the parent; [host]: ADB_HOST.  A terminal that cannot be set
    up is not closed. *)
Definition create_subprocess (host : bool) (w : W) (cmd arg0 : bytes) (arg1 : option bytes) : Z * W :=
  let '(ptm, w) := op_open w (bs "/dev/ptmx") in
  if ptm <? 0 then (-1, w)
  else
    let w := op_close_on_exec w ptm in
    let '(devname, w) := op_pty w ptm in
    match devname with
    | None => (-1, w)
    | Some devname =>
        let '(pid, w) := op_fork w devname cmd arg0 arg1 in
        if pid <? 0 then (-1, w)
        else if host then (ptm, w)
        else
          let '(fd, w) := op_open w (bs "/proc/" ++ decimal pid ++ bs "/oom_adj") in
          (ptm, if 0 <=? fd then op_close (op_write w fd (bs "0")) fd else w)
    end.

Definition SHELL_COMMAND (host : bool) : bytes := if host then bs "/bin/sh" else bs "/system/bin/sh".
Definition ALTERNATE_SHELL_COMMAND (host : bool) : bytes := if host then [] else bs "/sbin/sh".

(** The shell of the recovery system, when it is there, and the normal one when it is
    not or cannot be started. *)
Definition shell (host : bool) (w : W) (command : bytes) : Z * W :=
  let '(arg0, arg1) := match command with [] => (bs "-", None) | _ => (bs "-c", Some command) end in
  let '(ret, w) :=
    if op_stat w (ALTERNATE_SHELL_COMMAND host)
    then create_subprocess host w (ALTERNATE_SHELL_COMMAND host) arg0 arg1 else (-1, w) in
  if ret =? -1 then create_subprocess host w (SHELL_COMMAND host) arg0 arg1 else (ret, w).

(** What follows the first [ch]. *)
Fixpoint after_char (ch : Z) (s : bytes) : option bytes :=
  match s with [] => None | b :: s => if b =? ch then Some s else after_char ch s end.

Definition tcp_service (host : bool) (w : W) (rest : bytes) : Z * W :=
  let port := atoi rest in
  match after_char 58 rest with
  | None =>
      let '(ret, w) := op_loopback_client w port in
      (ret, if 0 <=? ret then op_nagle w ret else w)
  | Some name => if host then op_network_client w name port else (-1, w)
  end.

(** The chain of names; [server]: the variable HOST; [j]: the machines that can be debugged. *)
Definition select_service (host server recovery_mode : bool) (w : W) (j : Jdwp.jdwp) (name : bytes)
    : outcome (Z * W * Jdwp.jdwp) :=
  let named p := has_prefix (bs p) name in
  let ret (m : Z * W) := Done (m, j) in
  let thread func := ret (create_service_thread w func) in
  if named "tcp:"%string then ret (tcp_service host w (drop 4 name))
  else if named "local:"%string then ret (op_local_client w (drop 6 name) RESERVED)
  else if named "localreserved:"%string then ret (op_local_client w (drop 14 name) RESERVED)
  else if named "localabstract:"%string then ret (op_local_client w (drop 14 name) ABSTRACT)
  else if named "localfilesystem:"%string then ret (op_local_client w (drop 16 name) FILESYSTEM)
  else if host && named "dns:"%string then thread (Dns (drop 4 name))
  else if negb host && named "dev:"%string then ret (op_open w (drop 4 name))
  else if negb host && named "framebuffer:"%string then thread Framebuffer
  else if negb host && recovery_mode && named "recover:"%string then thread (Recover (atoi (drop 8 name)))
  else if negb host && named "jdwp:"%string then
    '(r, j, w) ← Jdwp.create_jdwp_connection_fd op_socketpair w j (atoi (drop 5 name)); Done (r, w, j)
  else if negb host && named "log:"%string then thread (Log (bs "/dev/log/" ++ drop 4 name))
  else if negb server && named "shell:"%string then ret (shell host w (drop 6 name))
  else if negb host && named "sync:"%string then thread FileSyncService
  else if negb host && named "remount:"%string then thread Remount
  else if negb host && named "reboot:"%string then thread (Reboot (drop 7 name))
  else if negb host && named "root:"%string then thread RestartRoot
  else if negb host && named "tcpip:"%string then
    match sscanf_d (drop 6 name) with
    | ScanEnd => Undef "port not set"
    | ScanNone => thread (RestartTcp 0)
    | ScanInt port => thread (RestartTcp port)
    end
  else if negb host && named "usb:"%string then thread RestartUsb
  else ret (-1, w).

(** tcp: with an address returns -1 at once on the device, which is the same. *)
Definition service_to_fd (host server recovery_mode : bool) (w : W) (j : Jdwp.jdwp) (name : bytes)
    : outcome (Z * W * Jdwp.jdwp) :=
  '(ret, w, j) ← select_service host server recovery_mode w j name;
  Done (ret, if 0 <=? ret then op_close_on_exec w ret else w, j).

End services.

(** ** Who owns which descriptor *)

(** A call gave a new descriptor, or none. *)
Definition gives (owned owned' : gset Z) (r : Z) : Prop :=
  (0 <= r /\ r ∉ owned /\ owned' = {[r]} ∪ owned) \/ (r < 0 /\ owned' = owned).

Class ServiceLaws (W : Type) `{ServiceOps W} := {
  owned : W -> gset Z;
  socketpair_gives w r w' : op_socketpair w = (r, w') ->
    match r with
    | None => owned w' = owned w
    | Some (a, b) => 0 <= a /\ 0 <= b /\ a <> b /\ a ∉ owned w /\ b ∉ owned w /\ owned w' = {[a; b]} ∪ owned w
    end;
  thread_takes w k fd ok w' : op_thread_create w k fd = (ok, w') -> owned w' = if ok : bool then owned w ∖ {[fd]} else owned w;
  close_drops w fd : owned (op_close w fd) = owned w ∖ {[fd]};
  cloexec_keeps w fd : owned (op_close_on_exec w fd) = owned w;
  nagle_keeps w fd : owned (op_nagle w fd) = owned w;
  loopback_gives w p r w' : op_loopback_client w p = (r, w') -> gives (owned w) (owned w') r;
  network_gives w h p r w' : op_network_client w h p = (r, w') -> gives (owned w) (owned w') r;
  local_gives w n k r w' : op_local_client w n k = (r, w') -> gives (owned w) (owned w') r;
  open_gives w n r w' : op_open w n = (r, w') -> gives (owned w) (owned w') r;
  pty_keeps w fd r w' : op_pty w fd = (r, w') -> owned w' = owned w;
  fork_keeps w d c a b r w' : op_fork w d c a b = (r, w') -> owned w' = owned w;
  write_keeps w fd d : owned (op_write w fd d) = owned w
}.

Create HintDb owned.
#[export] Hint Resolve loopback_gives network_gives local_gives open_gives : owned.

Section owning.
Context {W : Type} `{ServiceLaws W}.

Lemma gives_none (o : gset Z) : gives o o (-1).
Proof. by right. Qed.

Lemma thread_gives w k : let '(r, w') := create_service_thread w k in gives (owned w) (owned w') r.
Proof.
  unfold create_service_thread. destruct (op_socketpair w) as [r w1] eqn:E. apply socketpair_gives in E.
  destruct r as [[a b]|]; [|rewrite E; apply gives_none]. destruct E as (Ha & Hb & Hab & Na & Nb & E).
  destruct (op_thread_create w1 k b) as [ok w2] eqn:E2. apply thread_takes in E2. destruct ok.
  - left. split_and!; [done..|]. rewrite E2, E. set_solver.
  - right. split; [done|]. rewrite !close_drops, E2, E. set_solver.
Qed.

(** Every terminal that is given up on stays open. *)
Definition gives_leaking (n : nat) (o o' : gset Z) (r : Z) : Prop :=
  exists leaked : gset Z, leaked ## o /\ (size leaked <= n)%nat /\ gives (leaked ∪ o) o' r.

Lemma leaking_none n o o' r : gives o o' r -> gives_leaking n o o' r.
Proof. intros Hg. exists ∅. rewrite size_empty. split_and!; [set_solver|lia|]. by rewrite (left_id_L ∅ (∪)). Qed.

Lemma subprocess_gives host w cmd a0 a1 :
  let '(r, w') := create_subprocess host w cmd a0 a1 in gives_leaking 1 (owned w) (owned w') r /\ (r < 0 -> r = -1).
Proof.
  unfold create_subprocess. destruct (op_open w (bs "/dev/ptmx")) as [ptm w1] eqn:E1. apply open_gives in E1.
  destruct (Z.ltb_spec ptm 0).
  { split; [|done]. destruct E1 as [[]|[_ E1]]; [lia|]. apply leaking_none. rewrite E1. apply gives_none. }
  destruct E1 as [(_ & Hn & E1)|[]]; [|lia].
  assert (forall w2, owned w2 = owned w1 -> gives_leaking 1 (owned w) (owned w2) (-1)) as Hleak.
  { intros w2 E2. exists {[ptm]}. rewrite size_singleton. split_and!; [set_solver|done|]. right. split; [lia|].
    by rewrite E2, E1. }
  assert (forall w2, owned w2 = owned w1 -> gives_leaking 1 (owned w) (owned w2) ptm) as Hok.
  { intros w2 E2. apply leaking_none. left. rewrite E2, E1. done. }
  destruct (op_pty (op_close_on_exec w1 ptm) ptm) as [[dev|] w2] eqn:E2; apply pty_keeps in E2; rewrite cloexec_keeps in E2.
  2: { split; [by apply Hleak|done]. }
  destruct (op_fork w2 dev cmd a0 a1) as [pid w3] eqn:E3. apply fork_keeps in E3. rewrite E2 in E3.
  destruct (Z.ltb_spec pid 0); [split; [by apply Hleak|done]|].
  destruct host; [split; [by apply Hok|lia]|].
  destruct (op_open w3 _) as [fd w4] eqn:E4. apply open_gives in E4. split; [|lia]. apply Hok.
  destruct (Z.leb_spec 0 fd), E4 as [(? & Hn4 & E4)|[? E4]]; try lia; [|congruence].
  rewrite close_drops, write_keeps, E4, <- E3. set_solver.
Qed.

Lemma leaking_trans n m o o1 o2 r : gives_leaking n o o1 (-1) -> gives_leaking m o1 o2 r -> gives_leaking (n + m) o o2 r.
Proof.
  intros (l1 & Hd1 & Hs1 & [[]|[_ E1]]) (l2 & Hd2 & Hs2 & Hg); [lia|]. subst o1. exists (l2 ∪ l1).
  split_and!; [set_solver| |].
  - rewrite size_union by set_solver. lia.
  - by rewrite <- (assoc_L (∪)).
Qed.

Lemma shell_gives host w command : let '(r, w') := shell host w command in gives_leaking 2 (owned w) (owned w') r.
Proof.
  unfold shell. destruct (match command with [] => _ | _ => _ end) as [a0 a1].
  assert (forall w1, gives_leaking 1 (owned w) (owned w1) (-1) ->
    let '(r, w2) := create_subprocess host w1 (SHELL_COMMAND host) a0 a1 in gives_leaking 2 (owned w) (owned w2) r) as Hlast.
  { intros w1 H1. pose proof (subprocess_gives host w1 (SHELL_COMMAND host) a0 a1) as Hs.
    destruct (create_subprocess host w1 _ a0 a1) as [r w2]. destruct Hs as [Hs _]. by apply (leaking_trans 1 1 _ (owned w1)). }
  destruct (op_stat w (ALTERNATE_SHELL_COMMAND host)).
  - pose proof (subprocess_gives host w (ALTERNATE_SHELL_COMMAND host) a0 a1) as Hs.
    destruct (create_subprocess host w _ a0 a1) as [r w1]. destruct Hs as [Hs _].
    destruct (Z.eqb_spec r (-1)) as [->|Hr]; [by apply Hlast|].
    destruct Hs as (l & Hd & Hl & Hg). exists l. split_and!; [done|lia|done].
  - cbn [Z.eqb]. apply Hlast, leaking_none, gives_none.
Qed.

Lemma has_prefix_app p s : has_prefix p s = true -> s = p ++ drop (length p) s.
Proof.
  revert s. induction p as [|a p IH]; intros [|b s] Hp; cbn in *; try done.
  apply andb_true_iff in Hp as [->%Z.eqb_eq Hp]. f_equal. by apply IH.
Qed.

(** The kinds of branches of the chain. *)
Lemma done_gives w (j j' : Jdwp.jdwp) (m : Z * W) r w' : (let '(r0, w0) := m in gives (owned w) (owned w0) r0) ->
  Done (m, j) = Done (r, w', j') -> gives (owned w) (owned w') r /\ j' = j.
Proof. intros Hm E. by simplify_eq. Qed.
Lemma call_gives w (m : Z * W) : (forall r w', m = (r, w') -> gives (owned w) (owned w') r) ->
  let '(r, w') := m in gives (owned w) (owned w') r.
Proof. destruct m. eauto. Qed.
Lemma tcp_gives host w rest : let '(r, w') := tcp_service host w rest in gives (owned w) (owned w') r.
Proof.
  unfold tcp_service. destruct (after_char 58 rest) as [name|].
  - destruct host; [apply call_gives; eauto with owned|apply gives_none].
  - destruct (op_loopback_client w (atoi rest)) as [r w1] eqn:E. apply loopback_gives in E.
    by destruct (0 <=? r); rewrite ?nagle_keeps.
Qed.

Ltac by_branch :=
  match goal with
  | |- (if ?b then _ else _) = _ -> _ => destruct b; [by_branch|]
  | |- (match ?x with ScanEnd => _ | _ => _ end) = _ -> _ => destruct x; by_branch
  | |- mbind _ _ = Done _ -> _ => idtac
  | |- Done _ = Done _ -> _ => apply done_gives; first [apply thread_gives | apply tcp_gives | apply gives_none | apply call_gives; eauto with owned]
  | |- _ = Done _ -> _ => done
  | _ => idtac
  end.

(** A pair of sockets for a debugger: one end is returned, the other is put behind the
    descriptors that wait to be sent to the machine. *)
Definition queued_for (j j' : Jdwp.jdwp) (n b : Z) : Prop :=
  exists p x e, p ∈ Jdwp._jdwp_list j /\ Jdwp.procs j !! p = Some x /\ Jdwp.pid x = n /\
    (Jdwp.out_count x < Jdwp.MAX_OUT_FDS)%nat /\
    j' = Jdwp.put_proc j p (Jdwp.with_out x (<[Jdwp.out_count x := b]> (Jdwp.out_fds x)) (S (Jdwp.out_count x)) e) /\
    <[Jdwp.out_count x := b]> (Jdwp.out_fds x) !! Jdwp.out_count x = Some b.

Definition gives_debugger (o o' : gset Z) (j j' : Jdwp.jdwp) (n r : Z) : Prop :=
  (r = -1 /\ o' = o /\ j' = j) \/
  exists b, 0 <= r /\ 0 <= b /\ r <> b /\ r ∉ o /\ b ∉ o /\ o' = {[r; b]} ∪ o /\ queued_for j j' n b.

Lemma jdwp_gives w j n r j' w' : Jdwp.create_jdwp_connection_fd op_socketpair w j n = Done (r, j', w') ->
  gives_debugger (owned w) (owned w') j j' n r.
Proof.
  unfold Jdwp.create_jdwp_connection_fd. intros E. apply bind_Done in E as (l & El & E). apply Jdwp.listed_inv, mapM_Some in El.
  destruct (list_find _ _) as [[i [p x]]|] eqn:Ef; [|injection E as <- <- <-; by left].
  apply list_find_Some in Ef as (Hi & Hpid & _). apply lookup_zip_Some in Hi as [Hi1 Hi2].
  destruct (Forall2_lookup_l _ _ _ _ _ El Hi1) as (x' & Hi2' & Ex). rewrite Hi2 in Hi2'. injection Hi2' as <-. cbn in Ex, Hpid.
  destruct (Nat.leb_spec Jdwp.MAX_OUT_FDS (Jdwp.out_count x)) as [|Hroom]; [injection E as <- <- <-; by left|].
  destruct (op_socketpair w) as [fds w1] eqn:Ep. apply socketpair_gives in Ep.
  destruct fds as [[a b]|]; [|injection E as <- <- <-; by left]. destruct Ep as (Ha & Hb & Hab & Na & Nb & Eo).
  destruct (Nat.ltb_spec (Jdwp.out_count x) (length (Jdwp.out_fds x))) as [Hlt|]; [|done]. injection E as <- <- <-.
  right. exists b. split_and!; [done..|]. eexists p, x, _. split_and!; [by eapply list_elem_of_lookup_2|done..|].
  by apply list_lookup_insert_eq.
Qed.

(** What the daemon owns afterwards, by the name of the service. *)
Definition service_owns (host server : bool) (name : bytes) (o o' : gset Z) (j j' : Jdwp.jdwp) (r : Z) : Prop :=
  if negb server && has_prefix (bs "shell:") name then gives_leaking 2 o o' r /\ j' = j
  else if negb host && has_prefix (bs "jdwp:") name then gives_debugger o o' j j' (atoi (drop 5 name)) r
  else gives o o' r /\ j' = j.

Ltac other_names p rest :=
  repeat match goal with |- context [has_prefix (bs ?q) (bs p ++ rest)] =>
    let v := eval vm_compute in (has_prefix (bs q) (bs p ++ rest)) in
    change (has_prefix (bs q) (bs p ++ rest)) with v end;
  rewrite ?andb_false_r, ?andb_true_r; cbn [andb].

Lemma select_gives host server recovery w j name r w' j' :
  select_service host server recovery w j name = Done (r, w', j') ->
  service_owns host server name (owned w) (owned w') j j' r.
Proof.
  unfold select_service, service_owns. destruct (has_prefix (bs "shell:") name) eqn:Es.
  - rewrite (has_prefix_app _ _ Es). generalize (drop (length (bs "shell:")) name). intros command.
    pose proof (shell_gives host w command) as Hs. other_names "shell:"%string command.
    change (drop 6 (bs "shell:" ++ command)) with command. destruct server; cbn [negb].
    + intros [= <- <- <-]. split; [apply gives_none|done].
    + intros [= E <-]. by rewrite E in Hs.
  - rewrite andb_false_r. destruct (has_prefix (bs "jdwp:") name) eqn:Ej.
    + rewrite (has_prefix_app _ _ Ej). generalize (drop (length (bs "jdwp:")) name). intros n. other_names "jdwp:"%string n.
      destruct host; cbn [negb].
      * intros [= <- <- <-]. split; [apply gives_none|done].
      * intros E. apply bind_Done in E as ([[r1 j1] w1] & E & [= <- <- <-]). by apply jdwp_gives in E.
    + rewrite andb_false_r. repeat by_branch.
Qed.

(** A debugger's descriptor is always answered for. *)
Lemma jdwp_returns w j n : Jdwp.good j -> exists r j' w', Jdwp.create_jdwp_connection_fd op_socketpair w j n = Done (r, j', w').
Proof.
  intros (Hj & l & El & _). unfold Jdwp.create_jdwp_connection_fd. rewrite El. cbn [mbind outcome_bind].
  destruct (list_find _ _) as [[i [p x]]|] eqn:Ef; [|eauto]. apply list_find_Some in Ef as (Hi & _ & _).
  apply lookup_zip_Some in Hi as [Hi1 Hi2]. apply Jdwp.listed_inv, mapM_Some in El.
  destruct (Forall2_lookup_l _ _ _ _ _ El Hi1) as (x' & Hi2' & Ex). rewrite Hi2 in Hi2'. injection Hi2' as <-. cbn in Ex.
  destruct (Nat.leb_spec Jdwp.MAX_OUT_FDS (Jdwp.out_count x)); [eauto|].
  destruct (op_socketpair w) as [[[a b]|] w1]; [|eauto].
  rewrite (proj2 (Nat.ltb_lt _ _)) by (rewrite (Jdwp.p_out _ (Jdwp.b_proc _ Hj p x Ex)); lia). eauto.
Qed.

Ltac returns :=
  match goal with
  | |- exists r w' j', (if ?b then _ else _) = _ => destruct b eqn:?; returns
  | |- exists r w' j', (match ?x with ScanEnd => _ | _ => _ end) = _ => destruct x eqn:?; returns
  | |- exists r w' j', Done (?m, _) = _ => destruct m; eauto
  | _ => idtac
  end.

Lemma select_returns host server recovery w j name : Jdwp.good j ->
  (host = false -> has_prefix (bs "tcpip:") name = true -> sscanf_d (drop 6 name) <> ScanEnd) ->
  exists r w' j', select_service host server recovery w j name = Done (r, w', j').
Proof.
  intros Hj Ht. unfold select_service. returns.
  - destruct (jdwp_returns w j (atoi (drop 5 name)) Hj) as (r & j' & w' & ->). cbn [mbind outcome_bind]. eauto.
  - destruct host; [done|]. by destruct Ht.
Qed.

(** C31 (safety). Whatever fails on the way, service_to_fd returns (for tcpip: a number or
    another word must follow), and it returns a new descriptor
    that the daemon owns besides those it had, or a negative number and owns what it
    had; the end of a socket pair behind which a service runs is its thread's.  Two
    services differ.  For a shell at most two terminals stay open that could not be
    used.  For jdwp: the daemon also owns the other end of the pair, which lies in the
    free slot of the process asked for, to be sent to it. *)
Theorem service_descriptors host server recovery w j name :
  Jdwp.reach j -> Jdwp.trackers_alive j ->
  (host = false -> has_prefix (bs "tcpip:") name = true -> sscanf_d (drop 6 name) <> ScanEnd) ->
  exists r w' j', service_to_fd host server recovery w j name = Done (r, w', j') /\
    service_owns host server name (owned w) (owned w') j j' r.
Proof.
  intros Hj Ha Ht. destruct (select_returns host server recovery w j name (Jdwp.reach_good j Hj Ha) Ht) as (r & w1 & j' & E).
  unfold service_to_fd. rewrite E. cbn [mbind outcome_bind]. eexists _, _, _. split; [done|].
  apply select_gives in E. by destruct (0 <=? r); rewrite ?cloexec_keeps.
Qed.

(** A terminal that cannot be set up is such a leak, and tcpip: without a number
    starts its service with whatever the variable holds. *)
Lemma terminal_leaks host w cmd a0 a1 ptm w1 w2 : op_open w (bs "/dev/ptmx") = (ptm, w1) -> 0 <= ptm ->
  op_pty (op_close_on_exec w1 ptm) ptm = (None, w2) ->
  create_subprocess host w cmd a0 a1 = (-1, w2) /\ owned w2 = {[ptm]} ∪ owned w.
Proof.
  intros E Hp E2. unfold create_subprocess. rewrite E. destruct (Z.ltb_spec ptm 0); [lia|]. rewrite E2.
  apply open_gives in E. apply pty_keeps in E2. rewrite cloexec_keeps in E2.
  destruct E as [(_ & _ & E)|[]]; [|lia]. by rewrite E2, E.
Qed.
Lemma tcpip_port_unset server recovery w j : service_to_fd false server recovery w j (bs "tcpip:") = Undef "port not set".
Proof. by destruct server, recovery. Qed.

End owning.

(** ** Services of the server *)

Module HostServices.

(** wait_for_state on descriptor [fd]; [snapshots]: the lists of transports that its
    passes see.  [None]: it waits for ever. *)
Definition wait_for_state (w : Sockets.sys) (fd : Z) (transport : Sockets.transport_type) (state : Z) (serial : option bytes)
    (snapshots : list (list Transport.atransport)) : option Sockets.sys :=
  r ← Transport.acquire_one_transport state transport serial snapshots;
  let w := match r with
           | Transport.Taken _ => (Sockets.chan_writex w fd (bs "OKAY")).2
           | Transport.Failed err => (Sockets.sendfailmsg w fd err).2
           | Transport.Retry => w
           end in
  Some (Sockets.put_closed w (Sockets.closed_fds w ++ [fd])).

Section host.
Context {W : Type} `{ServiceOps W}.

(** What host_service_to_socket returns; the trackers are those of Trackers. *)
Inductive host_socket := NoSocket | DeviceTracker (t : ptr) | LocalSocket (p : ptr).

Definition waited (rest : bytes) : option Sockets.transport_type :=
  if has_prefix (bs "local") rest then Some Sockets.kTransportLocal
  else if has_prefix (bs "usb") rest then Some Sockets.kTransportUsb
  else if has_prefix (bs "any") rest then Some Sockets.kTransportAny
  else None.

(** The result of create_service_thread is not looked at. *)
Definition host_service_to_socket (w : W) (s : Sockets.sys) (d : Trackers.trackers) (name : bytes) (serial : option bytes)
    : outcome (host_socket * W * Sockets.sys * Trackers.trackers) :=
  if bool_decide (name = bs "track-devices") then
    let '(t, d) := Trackers.create_device_tracker d in Done (DeviceTracker t, w, s, d)
  else if has_prefix (bs "wait-for-") name then
    match waited (drop 9 name) with
    | None => Done (NoSocket, w, s, d)
    | Some transport =>
        let '(fd, w) := create_service_thread w (WaitForState transport Streams.CS_DEVICE serial) in
        '(p, s) ← Sockets.create_local_socket s fd;
        Done (LocalSocket p, w, s, d)
    end
  else Done (NoSocket, w, s, d).
End host.

(** Waiting ends with OKAY when the first pass that does not retry finds the device in
    the wanted state. *)
Lemma wait_ends w fd transport serial before l t after : Forall (fun l => Transport.acquire_pass Streams.CS_DEVICE transport serial l = Transport.Retry) before ->
  Transport.acquire_pass Streams.CS_DEVICE transport serial l = Transport.Taken t ->
  exists w', wait_for_state w fd transport Streams.CS_DEVICE serial (before ++ l :: after) = Some w' /\
    Sockets.closed_fds w' = Sockets.closed_fds (Sockets.chan_writex w fd (bs "OKAY")).2 ++ [fd].
Proof.
  intros Hb Hl. unfold wait_for_state.
  assert (Transport.acquire_one_transport Streams.CS_DEVICE transport serial (before ++ l :: after) = Some (Transport.Taken t)) as ->.
  { induction Hb as [|x before Hx _ IH]; cbn [Transport.acquire_one_transport app]; [by rewrite Hl|by rewrite Hx]. }
  eexists. split; reflexivity.
Qed.

(** A socket pair that cannot be made gives a socket on descriptor -1. *)
Lemma wait_without_pair {W} `{ServiceOps W} (w w1 : W) s d serial : op_socketpair w = (None, w1) ->
  host_service_to_socket w s d (bs "wait-for-usb") serial =
    '(p, s) ← Sockets.create_local_socket s (-1); Done (LocalSocket p, w1, s, d).
Proof.
  intros E. unfold host_service_to_socket, create_service_thread. rewrite E. reflexivity.
Qed.

End HostServices.

(** ** An instance

    Descriptors are given out in order; every call works. *)
Module Counting.

Record world := mk_world { next : nat; fds : gset Z }.
Definition own (w : world) : gset Z := filter (fun x => x < Z.of_nat (next w)) (fds w).
Definition take_one (w : world) : Z * world :=
  (Z.of_nat (next w), mk_world (S (next w)) (fds w ∪ {[Z.of_nat (next w)]})).
Definition drop_one (w : world) (fd : Z) : world := mk_world (next w) (fds w ∖ {[fd]}).

#[global] Instance counting_ops : ServiceOps world := {
  op_socketpair w := let '(a, w) := take_one w in let '(b, w) := take_one w in (Some (a, b), w);
  op_thread_create w _ fd := (true, drop_one w fd);
  op_close := drop_one;
  op_close_on_exec w _ := w;
  op_loopback_client w _ := take_one w;
  op_nagle w _ := w;
  op_network_client w _ _ := take_one w;
  op_local_client w _ _ := take_one w;
  op_open w _ := take_one w;
  op_stat _ _ := true;
  op_pty w _ := (None, w);
  op_fork w _ _ _ _ := (100, w);
  op_write w _ _ := w
}.

Lemma take_one_gives w r w' : take_one w = (r, w') -> gives (own w) (own w') r.
Proof.
  intros [= <- <-]. left. split_and!; [lia| |]; unfold own; cbn [next fds].
  - rewrite elem_of_filter. intros [Hlt _]. lia.
  - apply set_eq. intros x. rewrite elem_of_union, elem_of_singleton, !elem_of_filter, elem_of_union, elem_of_singleton.
    destruct (decide (x = Z.of_nat (next w))) as [->|]; intuition lia.
Qed.
Lemma drop_one_drops w fd : own (drop_one w fd) = own w ∖ {[fd]}.
Proof. unfold own. cbn. apply set_eq. intros x. rewrite elem_of_difference, !elem_of_filter, elem_of_difference. tauto. Qed.

#[global] Program Instance counting_laws : ServiceLaws world := { owned := own }.
Next Obligation.
  intros w r w'. cbn. intros [= <- <-]. unfold own; cbn [next fds]. split_and!; try lia; rewrite ?elem_of_filter; try (intros [Hlt _]; lia).
  apply set_eq. intros x. rewrite !elem_of_union, !elem_of_filter, !elem_of_union, !elem_of_singleton.
  destruct (decide (x = Z.of_nat (next w))), (decide (x = Z.of_nat (S (next w)))); intuition lia.
Qed.
Next Obligation. intros w k fd ok w'. cbn. intros [= <- <-]. apply drop_one_drops. Qed.
Next Obligation. intros w fd. apply drop_one_drops. Qed.
Next Obligation. done. Qed.
Next Obligation. done. Qed.
Next Obligation. intros w p r w'. apply take_one_gives. Qed.
Next Obligation. intros w h p r w'. apply take_one_gives. Qed.
Next Obligation. intros w n k r w'. apply take_one_gives. Qed.
Next Obligation. intros w n r w'. apply take_one_gives. Qed.
Next Obligation. by intros w fd r w' [= <- <-]. Qed.
Next Obligation. by intros w d c a b r w' [= <- <-]. Qed.
Next Obligation. done. Qed.

(** A machine has said that it is process 1234. *)
Definition machines : Jdwp.jdwp := Jdwp.after (Jdwp.one_machine (bs "04d2") []) (Jdwp.CEvent 1%nat 1).

Lemma machines_reach : Jdwp.reach machines /\ Jdwp.trackers_alive machines.
Proof.
  split; [|vm_compute; constructor]. apply Jdwp.after_reach; [apply Jdwp.one_machine_reach|constructor|by vm_compute; eauto].
Qed.

Lemma service_descriptors_witness :
  exists r w' j', service_to_fd false false false (mk_world 3 ∅) machines (bs "jdwp:1234") = Done (r, w', j') /\
    service_owns false false (bs "jdwp:1234") (owned (mk_world 3 ∅)) (owned w') machines j' r.
Proof.
  apply (service_descriptors false false false (mk_world 3 ∅) machines (bs "jdwp:1234")); [apply machines_reach..|].
  intros _ Hp. vm_compute in Hp. discriminate Hp.
Defined.

Example shell_leaks_terminals :
  (fun x => (x.1.1, elements (owned x.1.2))) <$> (match service_to_fd false false false (mk_world 3 ∅) machines (bs "shell:") with Done x => Some x | _ => None end)
    = Some (-1, [3; 4]).
Proof. vm_compute. reflexivity. Qed.
Example debugger_pair :
  (fun x => (x.1.1, elements (owned x.1.2), (fun p => take (Jdwp.out_count p) (Jdwp.out_fds p)) <$> Jdwp.procs x.2 !! 1%nat)) <$>
    (match service_to_fd false false false (mk_world 3 ∅) machines (bs "jdwp:1234") with Done x => Some x | _ => None end)
    = Some (3, [3; 4], Some [4]).
Proof. vm_compute. reflexivity. Qed.

End Counting.
