(* ===== verification/Ril.v ===== *)
(** * Requests, responses and events (the core of libril/ril.cpp)

    The daemon takes requests from the phone process over one connection, hands them to
    the vendor's library and sends its answers and events back.  The vendor answers from
    its own threads: [RIL_onRequestComplete] takes the request off the list of pending
    requests (one step) and then writes the answer (another), so that a connection can
    be lost and another made in between.  [step] is the relation of all that can happen;
    every callback of the event loop and every function the vendor can call is one
    executable definition in the monad [ril].

    The results of [write] are an argument ([ws]); the vendor's functions and the system
    leave a trace ([out]).  Two fields are ghosts that the code does not have: the number
    of the connection ([epoch]) and the number of the request ([serial]). *)

From S2P Require Import Prelude RilParcel RilDispatch RilResponse RilTables.
From S2P Require HostRequest.

(** ** State *)

Record RequestInfo := {
  token : Z; pCI : nat; cancelled : bool; local : bool;
  born : Z; serial : nat                                  (* ghosts *)
}.

Inductive timed_callback := wakeTimeoutCallback | VendorCallback (n : Z).
Record UserCallbackInfo := { p_callback : timed_callback; userParam : Z }.

(** The result of one [write]: so many bytes, EINTR, or any other error, EAGAIN included. *)
Inductive wres := Wrote (n : nat) | Eintr | Failed.

Inductive event :=
| OnRequest (request : Z) (q : payload) (datalen : Z) (pRI : Z)
| Sent (fd : Z) (b : bytes)
| Closed (fd : Z)
| Acquire | Release
| Called (n : Z) (param : Z)
| Answered (serial : nat) (born dequeued now : Z)         (* ghost: an answer goes to sendResponse *)
| PropertySet (version : option bytes).

Record conn := { fdListen : Z; fdCommand : Z; listening : bool; commanding : option Z; epoch : Z }.
Record answer := { a_errno : Z; a_response : option rdata; a_len : Z; a_epoch : Z }.
Record reqs := { heap : gmap Z RequestInfo; pendingRequests : list Z; completing : list (Z * answer); accepted : nat }.
Record power := {
  wake : bool; timers : gmap Z UserCallbackInfo; last_wake_timeout_info : option Z; lastNITZTimeData : option bytes }.
Record io := { ws : list wres; out : list event }.

Record st := mk_st { registerCalled : bool; version : Z; cn : conn; rq : reqs; pw : power; sys : io }.

Definition put_cn (c : conn) (s : st) : st := mk_st (registerCalled s) (version s) c (rq s) (pw s) (sys s).
Definition put_rq (r : reqs) (s : st) : st := mk_st (registerCalled s) (version s) (cn s) r (pw s) (sys s).
Definition put_pw (p : power) (s : st) : st := mk_st (registerCalled s) (version s) (cn s) (rq s) p (sys s).
Definition put_sys (i : io) (s : st) : st := mk_st (registerCalled s) (version s) (cn s) (rq s) (pw s) i.

(** State passing with an outcome: [Stop] is a failing [assert] or a [write] that never
    returns, [Undef] is undefined behaviour. *)
Definition ril (A : Type) : Type := st -> outcome (A * st).
#[export] Instance ril_ret : MRet ril := fun A a s => Done (a, s).
#[export] Instance ril_bind : MBind ril := fun A B k m s => '(a, s) ← m s; k a s.

Definition get : ril st := fun s => Done (s, s).
Definition modify (f : st -> st) : ril () := fun s => Done ((), f s).
(** A computation on the vendor's data. *)
Definition lift {A} (m : outcome A) : ril A := fun s =>
  match m with
  | Done a => Done (a, s)
  | Stop w => Stop w
  | Undef w => Undef ("data: " ++ w)
  end.
Definition emit (e : event) : ril () := modify (fun s => put_sys {| ws := ws (sys s); out := out (sys s) ++ [e] |} s).
Definition assert (b : bool) : ril () := if b then mret () else fun _ => Stop "assert".
Definition exit {A} : ril A := fun _ => Stop "exit".
Definition undef {A} (w : string) : ril A := fun _ => Undef w.

Definition set_fdCommand (fd : Z) : ril () := modify (fun s =>
  let c := cn s in put_cn {| fdListen := fdListen c; fdCommand := fd; listening := listening c; commanding := commanding c;
                             epoch := epoch c |} s).
(** [ril_event_add(&s_listen_event)] and its end: the event is not persistent *)
Definition set_listening (b : bool) : ril () := modify (fun s =>
  let c := cn s in put_cn {| fdListen := fdListen c; fdCommand := fdCommand c; listening := b; commanding := commanding c;
                             epoch := epoch c |} s).
(** the descriptor that [s_commands_event] watches *)
Definition set_commanding (b : option Z) : ril () := modify (fun s =>
  let c := cn s in put_cn {| fdListen := fdListen c; fdCommand := fdCommand c; listening := listening c; commanding := b;
                             epoch := epoch c |} s).
Definition next_epoch : ril () := modify (fun s =>
  let c := cn s in put_cn {| fdListen := fdListen c; fdCommand := fdCommand c; listening := listening c;
                             commanding := commanding c; epoch := epoch c + 1 |} s).

Definition put_wake (b : bool) : ril () := modify (fun s =>
  let p := pw s in put_pw {| wake := b; timers := timers p; last_wake_timeout_info := last_wake_timeout_info p;
                             lastNITZTimeData := lastNITZTimeData p |} s).
Definition put_timers (t : gmap Z UserCallbackInfo) : ril () := modify (fun s =>
  let p := pw s in put_pw {| wake := wake p; timers := t; last_wake_timeout_info := last_wake_timeout_info p;
                             lastNITZTimeData := lastNITZTimeData p |} s).
Definition put_last (l : option Z) : ril () := modify (fun s =>
  let p := pw s in put_pw {| wake := wake p; timers := timers p; last_wake_timeout_info := l;
                             lastNITZTimeData := lastNITZTimeData p |} s).
Definition put_nitz (d : option bytes) : ril () := modify (fun s =>
  let p := pw s in put_pw {| wake := wake p; timers := timers p; last_wake_timeout_info := last_wake_timeout_info p;
                             lastNITZTimeData := d |} s).

Definition put_heap (h : gmap Z RequestInfo) (r : reqs) : reqs :=
  {| heap := h; pendingRequests := pendingRequests r; completing := completing r; accepted := accepted r |}.
Definition put_pending (l : list Z) (r : reqs) : reqs :=
  {| heap := heap r; pendingRequests := l; completing := completing r; accepted := accepted r |}.
Definition put_completing (l : list (Z * answer)) (r : reqs) : reqs :=
  {| heap := heap r; pendingRequests := pendingRequests r; completing := l; accepted := accepted r |}.
Definition on_rq (f : reqs -> reqs) : ril () := modify (fun s => put_rq (f (rq s)) s).

Definition MAX_COMMAND_BYTES : Z := 8 * 1024.
Definition RESPONSE_SOLICITED : Z := 0.
Definition RESPONSE_UNSOLICITED : Z := 1.

Section ril.
Context {P : Type} `{Parcel P} `{Jstring} `{RilH'} `{RilNumbers}.
Context (stack : Z -> bool).

(** ** Writing to the connection *)

(** [write] until all is out; [None] when the results end before that. *)
Fixpoint write_loop (rs : list wres) (buf : bytes) : option (bool * bytes * list wres) :=
  match buf, rs with
  | [], _ => Some (true, [], rs)
  | _, [] => None
  | _, Wrote n :: rs =>
      match write_loop rs (drop n buf) with
      | Some (ok, w, rs) => Some (ok, take n buf ++ w, rs)
      | None => None
      end
  | _, Eintr :: rs => write_loop rs buf
  | _, Failed :: rs => Some (false, [], rs)
  end.

Definition blockingWrite (fd : Z) (buf : bytes) : ril Z := fun s =>
  match write_loop (ws (sys s)) buf with
  | None => Stop "write does not return"
  | Some (ok, w, rs) =>
      let out' := out (sys s) ++ Sent fd w :: (if ok then [] else [Closed fd]) in
      Done (if ok then 0 else -1, put_sys {| ws := rs; out := out' |} s)
  end.

Definition sendResponseRaw (d : bytes) : ril Z :=
  s ← get;
  let fd := fdCommand (cn s) in
  if fd <? 0 then mret (-1)
  else if MAX_COMMAND_BYTES <? count d then mret (-1)
  else
    ret ← blockingWrite fd (be32 (count d));
    if ret <? 0 then mret ret
    else
      ret ← blockingWrite fd d;
      if ret <? 0 then mret ret else mret 0.

Definition sendResponse (p : P) : ril Z := sendResponseRaw (data p).

(** ** Requests *)

(** [calloc] and the insertion at the head of the list; [pRI] is the new address. *)
Definition new_request (pRI token : Z) (ci : nat) (loc : bool) : ril () :=
  s ← get;
  let i := {| token := token; pCI := ci; cancelled := false; local := loc; born := epoch (cn s); serial := accepted (rq s) |} in
  on_rq (fun r => {| heap := <[pRI := i]> (heap r); pendingRequests := pRI :: pendingRequests r;
                     completing := completing r; accepted := S (accepted r) |}).

Definition issueLocalRequest (request : nat) (q : payload) (len : Z) (pRI : Z) : ril () :=
  new_request pRI (-1) request true;;
  emit (OnRequest (Z.of_nat request) q len pRI).

(** [garbage] is what the uninitialised locals of the dispatch functions hold. *)
Definition processCommandBuffer (buffer : bytes) (pRI garbage : Z) : ril () :=
  let '(request, l1) := rd_new (mk_locals (setData buffer) garbage garbage true) in
  let '(token, l2) := rd_new l1 in
  match request, token with
  | _, None => mret ()
  | None, Some _ => undef "request not initialised"
  | Some request, Some token =>
      if (request <? 1) || (Z.of_nat (length s_commands) <=? request) then mret ()
      else
        match s_commands !! Z.to_nat request with
        | Some (_, Some (dispatchFunction, _)) =>
            new_request pRI token (Z.to_nat request) false;;
            s ← get;
            match fst (dispatch (version s) stack dispatchFunction l2) with
            | Request q len => emit (OnRequest request q len pRI)
            | Invalid => mret ()
            | Overrun => undef "stack"
            end
        | _ => undef "NULL dispatchFunction"
        end
  end.

Definition onCommandsSocketClosed : ril () :=
  on_rq (fun r => put_heap (foldr (fun i h => alter (fun ri =>
    {| token := token ri; pCI := pCI ri; cancelled := true; local := local ri; born := born ri; serial := serial ri |}) i h)
    (heap r) (pendingRequests r)) r).

(** ** Completion *)

Definition checkAndDequeueRequestInfo (pRI : Z) : ril bool :=
  if pRI =? 0 then mret false
  else
    s ← get;
    match list_find (eq pRI) (pendingRequests (rq s)) with
    | Some (i, _) => on_rq (put_pending (delete i (pendingRequests (rq s))));; mret true
    | None => mret false
    end.

(** [RIL_onRequestComplete] up to the point where the request is off the list: an
    answer that may go on waits in [completing]. *)
Definition complete_begin (pRI e : Z) (response : option rdata) (responselen : Z) : ril () :=
  ok ← checkAndDequeueRequestInfo pRI;
  if negb ok then mret ()
  else
    s ← get;
    let a := {| a_errno := e; a_response := response; a_len := responselen; a_epoch := epoch (cn s) |} in
    on_rq (put_completing ((pRI, a) :: completing (rq s))).

(** The parcel of an answer. *)
Definition answer_parcel (version token : Z) (f : responseFunction) (e : Z) (response : option rdata) (responselen : Z) : outcome P :=
  let p := writeInt32 p_new RESPONSE_SOLICITED in
  let p := writeInt32 p token in
  let errorOffset := dataPosition p in
  let p := writeInt32 p e in
  match response with
  | None => Done p
  | Some _ =>
      '(p, ret) ← respond version f p response responselen;
      if ret =? 0 then Done p else Done (writeInt32 (setDataPosition p errorOffset) ret)
  end.

(** The rest of [RIL_onRequestComplete]; [baseband] is the property that is sent in
    place of the response to RIL_REQUEST_BASEBAND_VERSION. *)
Definition complete_end (pRI : Z) (a : answer) (baseband : bytes) : ril () :=
  s ← get;
  match heap (rq s) !! pRI with
  | None => undef "request freed"
  | Some ri =>
      (if local ri then mret ()
       else
         match s_commands !! pCI ri with
         | Some (name, Some (_, responseFunction)) =>
             let response := if decide (name = "RIL_REQUEST_BASEBAND_VERSION"%string) then Some (DString baseband) else a_response a in
             if cancelled ri then mret ()
             else
               p ← lift (answer_parcel (version s) (token ri) responseFunction (a_errno a) response (a_len a));
               emit (Answered (serial ri) (born ri) (a_epoch a) (epoch (cn s)));;
               ret ← sendResponse p;
               mret ()
         | _ => undef "NULL responseFunction"
         end);;
      on_rq (fun r => put_completing (filter (fun x => x.1 <> pRI) (completing r)) (put_heap (delete pRI (heap r)) r))
  end.

(** ** Wake lock and timers *)

Definition grabPartialWakeLock : ril () := emit Acquire;; put_wake true.
Definition releaseWakeLock : ril () := emit Release;; put_wake false.

Definition run_wakeTimeoutCallback (param : Z) : ril () := if param =? 0 then releaseWakeLock else mret ().

(** [malloc], [ril_event_set] and [ril_timer_add]; [id] is the new address. *)
Definition internalRequestTimedCallback (callback : timed_callback) (param id : Z) : ril Z :=
  s ← get;
  put_timers (<[id := {| p_callback := callback; userParam := param |}]> (timers (pw s)));;
  mret id.

Definition internalRemoveTimedCallback (id : Z) : ril () :=
  s ← get;
  put_timers (delete id (timers (pw s))).

(** The timer is off the list of ril_event.cpp when its callback runs. *)
Definition userTimerCallback (id : Z) : ril () :=
  s ← get;
  match timers (pw s) !! id with
  | None => undef "timer freed"
  | Some info =>
      match p_callback info with
      | wakeTimeoutCallback => run_wakeTimeoutCallback (userParam info)
      | VendorCallback n => emit (Called n (userParam info))
      end;;
      s ← get;
      (if decide (last_wake_timeout_info (pw s) = Some id) then put_last None else mret ());;
      put_timers (delete id (timers (pw s)))
  end.

(** [if (s_last_wake_timeout_info != NULL) s_last_wake_timeout_info->userParam = (void * )1] *)
Definition cancel_last : ril () :=
  s ← get;
  match last_wake_timeout_info (pw s) with
  | None => mret ()
  | Some id =>
      match timers (pw s) !! id with
      | None => undef "timer freed"
      | Some info => put_timers (<[id := {| p_callback := p_callback info; userParam := 1 |}]> (timers (pw s)))
      end
  end.

(** ** Events of the radio *)

(** [time] is [elapsedRealtime()], [radio] the vendor's [onStateRequest()], [id] the
    address of a new timer. *)
Definition unsol_tail (name : string) (time radio : Z) (p : P) : P :=
  if decide (name = "RIL_UNSOL_RESPONSE_RADIO_STATE_CHANGED"%string) then writeInt32 p radio
  else if decide (name = "RIL_UNSOL_NITZ_TIME_RECEIVED"%string) then writeInt64 p time
  else p.

Definition RIL_onUnsolicitedResponse (unsolResponse : Z) (d : option rdata) (datalen time radio id : Z) : ril () :=
  s ← get;
  if negb (registerCalled s) then mret ()
  else
    let unsolResponseIndex := unsolResponse - RIL_UNSOL_RESPONSE_BASE in
    if (unsolResponseIndex <? 0) || (Z.of_nat (length s_unsolResponses) <=? unsolResponseIndex) then mret ()
    else
      match s_unsolResponses !! Z.to_nat unsolResponseIndex with
      | None => undef "no row"
      | Some (name, responseFunction, wakeType) =>
          let shouldScheduleTimeout := match wakeType with WAKE_PARTIAL => true | DONT_WAKE => false end in
          (if shouldScheduleTimeout then grabPartialWakeLock else mret ());;
          let p := writeInt32 p_new RESPONSE_UNSOLICITED in
          let p := writeInt32 p unsolResponse in
          '(p, ret) ← lift (respond (version s) responseFunction p d datalen);
          if negb (ret =? 0) then (if shouldScheduleTimeout then releaseWakeLock else mret ())
          else
            let p := unsol_tail name time radio p in
            ret ← sendResponse p;
            (if negb (ret =? 0) && bool_decide (name = "RIL_UNSOL_NITZ_TIME_RECEIVED"%string)
             then put_nitz (Some (data p)) else mret ());;
            if shouldScheduleTimeout then
              cancel_last;;
              i ← internalRequestTimedCallback wakeTimeoutCallback 0 id;
              put_last (Some i)
            else mret ()
      end.

(** ** The connection *)

(** The result of [record_stream_get_next]. *)
Inductive next := Record (buf : bytes) | EndOfStream | Again | Broken.

(** Closing after the loop of [processCommandsCallback]. *)
Definition close_commands : ril () :=
  s ← get;
  emit (Closed (fdCommand (cn s)));;
  set_fdCommand (-1);;
  set_commanding None;;
  set_listening true;;
  onCommandsSocketClosed.

(** One round of the loop of [processCommandsCallback] with what comes behind the loop;
    [true]: the loop goes on. *)
Definition command_round (n : next) (pRI garbage : Z) : ril bool :=
  match n with
  | Record buf => processCommandBuffer buf pRI garbage;; mret true
  | Again => mret false
  | EndOfStream | Broken => close_commands;; mret false
  end.

Fixpoint command_rounds (l : list (next * Z)) (garbage : Z) : ril () :=
  match l with
  | [] => mret ()
  | (n, pRI) :: l => go ← command_round n pRI garbage; if go : bool then command_rounds l garbage else mret ()
  end.

Definition processCommandsCallback (fd : Z) (l : list (next * Z)) (garbage : Z) : ril () :=
  s ← get;
  assert (fd =? fdCommand (cn s));;
  command_rounds l garbage.

(** [vendor_version]: what [getVersion] gives, [None] when it is NULL. *)
Definition onNewCommandConnect (radio id : Z) (vendor_version : option bytes) : ril () :=
  RIL_onUnsolicitedResponse RIL_UNSOL_RESPONSE_BASE None 0 0 radio id;;
  s ← get;
  (match lastNITZTimeData (pw s) with
   | Some d => sendResponseRaw d;; put_nitz None
   | None => mret ()
   end);;
  emit (PropertySet vendor_version).

(** [acc] is the result of [accept]; [is_phone]: the peer's credentials are there and
    belong to the user radio. *)
Definition listenCallback (acc : Z) (is_phone : bool) (radio id : Z) (vendor_version : option bytes) : ril () :=
  s ← get;
  assert (fdCommand (cn s) <? 0);;
  set_listening false;;
  set_fdCommand acc;;
  if acc <? 0 then set_listening true
  else if negb is_phone then
    emit (Closed acc);;
    set_fdCommand (-1);;
    onCommandsSocketClosed;;
    set_listening true
  else
    next_epoch;;
    set_commanding (Some acc);;
    onNewCommandConnect radio id vendor_version.

(** ** Registration *)

(** [vendor_version_no] is [callbacks->version], [None] when [callbacks] is NULL; [fd] and
    [dfd] are the control sockets of the service, [l1] and [l2] the results of [listen]. *)
Definition RIL_register (callbacks : option Z) (fd l1 dfd l2 : Z) : ril () :=
  match callbacks with
  | None => mret ()
  | Some v =>
      if negb (v =? RIL_VERSION) && negb (v =? 2) then mret ()
      else
        s ← get;
        if registerCalled s then mret ()
        else
          modify (fun s => mk_st true v (cn s) (rq s) (pw s) (sys s));;
          assert self_check;;
          modify (fun s => put_cn {| fdListen := fd; fdCommand := fdCommand (cn s); listening := listening (cn s);
                                     commanding := commanding (cn s); epoch := epoch (cn s) |} s);;
          if (fd <? 0) || (l1 <? 0) then exit
          else
            set_listening true;;
            if (dfd <? 0) || (l2 <? 0) then exit else mret ()
  end.

(** ** The debug port *)

(** Where a request stands in the tables, by the name of its enumerator. *)
Definition request_of (name : string) : nat := Z.to_nat (number name).

Definition qxdm_data (mode : Z) : payload := PInts [65536; 16; mode; 32; 0; 8].

(** What the switch of [debugCallback] issues: requests in order, with their addresses. *)
Definition debug_request (name : string) (q : payload) (len : Z) (pRI : Z) : ril () := issueLocalRequest (request_of name) q len pRI.

Definition dial_data (number : option bytes) : payload := PDial {| d_address := number; d_clir := 0; d_uusInfo := None |}.

(** [args]: [None] when a [recv] fails, the arguments otherwise; [pRI], [pRI'] are new
    addresses.  [args[0]] and [args[1]] are read without a look at [number]. *)
Definition debugCallback (acceptFD : Z) (args : option (list bytes)) (pRI pRI' radio id : Z) : ril () :=
  if acceptFD <? 0 then mret ()
  else
    match args with
    | None => mret ()
    | Some [] => undef "args[0]"
    | Some (a0 :: args) =>
        let arg1 (k : bytes -> ril ()) : ril () := match args with [] => undef "args[1]" | a1 :: _ => k a1 end in
        match HostRequest.atoi a0 with
        | 0 => debug_request "RIL_REQUEST_RESET_RADIO" PVoid 0 pRI
        | 1 =>
            debug_request "RIL_REQUEST_RADIO_POWER" (PInts [0]) 4 pRI;;
            s ← get;
            emit (Closed (fdCommand (cn s)));;
            set_fdCommand (-1)
        | 2 => RIL_onUnsolicitedResponse (number "RIL_UNSOL_RESPONSE_NETWORK_STATE_CHANGED") None 0 0 radio id
        | 3 => debug_request "RIL_REQUEST_OEM_HOOK_RAW" (qxdm_data 1) 24 pRI
        | 4 => debug_request "RIL_REQUEST_OEM_HOOK_RAW" (qxdm_data 0) 24 pRI
        | 5 =>
            debug_request "RIL_REQUEST_RADIO_POWER" (PInts [1]) 4 pRI;;
            debug_request "RIL_REQUEST_SET_NETWORK_SELECTION_AUTOMATIC" PVoid 0 pRI'
        | 6 => arg1 (fun a => debug_request "RIL_REQUEST_SETUP_DATA_CALL" (PStrings (Some [Some a])) 4 pRI)
        | 7 => debug_request "RIL_REQUEST_DEACTIVATE_DATA_CALL" (PStrings (Some [Some (bs "1")])) 4 pRI
        | 8 => arg1 (fun a => debug_request "RIL_REQUEST_DIAL" (dial_data (Some a)) (sizeof RIL_Dial) pRI)
        | 9 => debug_request "RIL_REQUEST_ANSWER" PVoid 0 pRI
        | 10 => debug_request "RIL_REQUEST_HANGUP" (PInts [1]) 4 pRI
        | _ => mret ()
        end;;
        emit (Closed acceptFD)
    end.

(** ** All that can happen *)

Definition init : st :=
  mk_st false 0
    {| fdListen := -1; fdCommand := -1; listening := false; commanding := None; epoch := 0 |}
    {| heap := ∅; pendingRequests := []; completing := []; accepted := 0 |}
    {| wake := false; timers := ∅; last_wake_timeout_info := None; lastNITZTimeData := None |}
    {| ws := []; out := [] |}.

Inductive action :=
| ARegister (callbacks : option Z) (fd l1 dfd l2 : Z)
| AListen (acc : Z) (is_phone : bool) (radio id : Z) (vendor_version : option bytes)
| ACommand (n : next) (pRI garbage : Z)
| ABegin (pRI e : Z) (response : option rdata) (responselen : Z)
| AEnd (pRI : Z) (baseband : bytes)
| AUnsol (unsolResponse : Z) (d : option rdata) (datalen time radio id : Z)
| ATimer (id : Z)
| ARequestTimed (n param id : Z)
| ARemoveTimed (id : Z)
| ADebug (acceptFD : Z) (args : option (list bytes)) (pRI pRI' radio id : Z).

Definition run (a : action) : ril () :=
  match a with
  | ARegister c fd l1 dfd l2 => RIL_register c fd l1 dfd l2
  | AListen acc ph radio id v => listenCallback acc ph radio id v
  | ACommand n pRI g => s ← get; processCommandsCallback (default (-1) (commanding (cn s))) [(n, pRI)] g
  | ABegin pRI e r l => complete_begin pRI e r l
  | AEnd pRI b =>
      s ← get;
      match list_find (fun x => x.1 = pRI) (completing (rq s)) with
      | Some (_, (_, a)) => complete_end pRI a b
      | None => mret ()
      end
  | AUnsol u d l time radio id => RIL_onUnsolicitedResponse u d l time radio id
  | ATimer id => userTimerCallback id
  | ARequestTimed n param id => internalRequestTimedCallback (VendorCallback n) param id;; mret ()
  | ARemoveTimed id => internalRemoveTimedCallback id
  | ADebug fd args pRI pRI' radio id => debugCallback fd args pRI pRI' radio id
  end.

(** Addresses are new, timers fire and are removed while they are there, callbacks of
    the event loop run while their events are registered; the vendor removes its own
    timers only. *)
Definition new_req (s : st) (pRI : Z) : Prop := pRI <> 0 /\ heap (rq s) !! pRI = None.
Definition new_timer (s : st) (id : Z) : Prop := timers (pw s) !! id = None.

Definition enabled (s : st) (a : action) : Prop :=
  match a with
  | ARegister _ _ _ _ _ => True
  | AListen _ _ _ id _ => registerCalled s = true /\ listening (cn s) = true /\ new_timer s id
  | ACommand _ pRI _ => is_Some (commanding (cn s)) /\ new_req s pRI
  | ABegin _ _ _ _ => True
  | AEnd pRI _ => pRI ∈ (completing (rq s)).*1
  | AUnsol _ _ _ _ _ id => new_timer s id
  | ATimer id => is_Some (timers (pw s) !! id)
  | ARequestTimed _ _ id => new_timer s id
  | ARemoveTimed id => match timers (pw s) !! id with Some {| p_callback := VendorCallback _ |} => True | _ => False end
  | ADebug _ _ pRI pRI' _ id => registerCalled s = true /\ new_req s pRI /\ new_req s pRI' /\ pRI <> pRI' /\ new_timer s id
  end.

(** The system's results of [write] come as they like. *)
Definition with_writes (rs : list wres) (s : st) : st := put_sys {| ws := rs; out := out (sys s) |} s.

Inductive step : st -> action -> st -> Prop :=
| step_run s a rs s' : enabled s a -> run a (with_writes rs s) = Done ((), s') -> step s a s'.

Inductive reach : st -> Prop :=
| reach_init : reach init
| reach_step s a s' : reach s -> step s a s' -> reach s'.

End ril.
