(* ===== verification/RilInvariant.v ===== *)
(** * What holds in every state of the radio daemon

    The invariant of Ril.v and its proof: the lists of requests and the heap agree, no
    request is answered twice, pending requests belong to the connection that is up, one
    wake timer is live.  [triple] is the Hoare triple of the monad, with one case for
    faults of libril itself.  The safety theorems follow. *)

From S2P Require Import Prelude RilParcel RilDispatch RilResponse RilTables Ril.
From S2P Require HostRequest.

(** ** Reasoning about the monad *)

(** What goes wrong in libril itself: a pointer to freed memory, a table row that is
    not there.  The other causes of undefined behaviour are the data of the vendor, counts
    of a request that do not fit on the stack, and missing arguments on the debug port. *)
Definition own_fault (w : string) : Prop :=
  w ∈ ["request freed"; "timer freed"; "no row"; "NULL dispatchFunction"; "NULL responseFunction"]%string.

(** The same without the timers. *)
Definition request_fault (w : string) : Prop :=
  w ∈ ["request freed"; "no row"; "NULL dispatchFunction"; "NULL responseFunction"]%string.

Lemma request_fault_own w : request_fault w -> own_fault w.
Proof. unfold request_fault, own_fault. set_solver. Qed.

Definition triple {A} (pre : st -> Prop) (m : ril A) (post : A -> st -> Prop) : Prop :=
  forall s, pre s -> match m s with Done (a, s') => post a s' | Stop _ => True | Undef w => ~ own_fault w end.

Lemma triple_ret {A} (a : A) (Q : A -> st -> Prop) : triple (Q a) (mret a) Q.
Proof. by intros s Hs. Qed.

Lemma triple_bind {A B} (m : ril A) (k : A -> ril B) P Q R :
  triple P m Q -> (forall a, triple (Q a) (k a) R) -> triple P (m ≫= k) R.
Proof.
  intros Hm Hk s Hs. unfold mbind, ril_bind. specialize (Hm s Hs). destruct (m s) as [[a s1]| |]; [|done..].
  by apply Hk.
Qed.

Lemma triple_pre {A} (m : ril A) (P P' : st -> Prop) Q : (forall s, P s -> P' s) -> triple P' m Q -> triple P m Q.
Proof. intros HP Hm s Hs. by apply Hm, HP. Qed.

Lemma triple_post {A} (m : ril A) P (Q Q' : A -> st -> Prop) : (forall a s, Q a s -> Q' a s) -> triple P m Q -> triple P m Q'.
Proof. intros HQ Hm s Hs. specialize (Hm s Hs). destruct (m s) as [[a s1]| |]; auto. Qed.

Lemma triple_get P : triple P get (fun a s => a = s /\ P s).
Proof. by intros s Hs. Qed.

Lemma triple_get_bind {B} (k : st -> ril B) P R : (forall s0, triple (fun s => s = s0 /\ P s) (k s0) R) -> triple P (s ← get; k s) R.
Proof. intros Hk s Hs. by apply (Hk s). Qed.

Lemma triple_modify f (Q : st -> Prop) : triple (fun s => Q (f s)) (modify f) (fun _ => Q).
Proof. by intros s Hs. Qed.

Lemma triple_undef {A} w P (Q : A -> st -> Prop) : ~ own_fault w -> triple P (undef w) Q.
Proof. by intros Hw s _. Qed.

Lemma triple_false {A} (m : ril A) P Q : (forall s, P s -> False) -> triple P m Q.
Proof. intros HP s Hs. by destruct (HP s Hs). Qed.

Lemma triple_assert b (P : st -> Prop) : triple P (assert b) (fun _ s => b = true /\ P s).
Proof. intros s Hs. by destruct b. Qed.

Ltac not_own := unfold own_fault; by_compute.

Lemma data_not_own w : ~ own_fault ("data: " ++ w).
Proof. unfold own_fault. rewrite !elem_of_cons, elem_of_nil. intros H. repeat (destruct H as [H|H]; [discriminate H|]). done. Qed.

Lemma triple_lift {A} (m : outcome A) (P : st -> Prop) : triple P (lift m) (fun a s => m = Done a /\ P s).
Proof. intros s Hs. unfold lift. destruct m; [done..|]. apply data_not_own. Qed.

(** ** The invariant *)

Section invariant.
Context {P : Type} `{Parcel P} `{Jstring} `{RilH'} `{RilNumbers}.
Context (stack : Z -> bool).

Definition answered (l : list event) : list nat := omap (fun e => match e with Answered n _ _ _ => Some n | _ => None end) l.

(** The connection was the request's own when its answer was taken. *)
Definition on_own (e : event) : Prop := match e with Answered _ born dequeued now => born = dequeued /\ dequeued <= now | _ => True end.

Definition row_ok (ci : nat) : Prop := exists name d f, s_commands !! ci = Some (name, Some (d, f)).

(** A request that will be answered. *)
Definition live (ri : RequestInfo) : Prop := cancelled ri = false /\ local ri = false.

Definition ids (r : reqs) : list Z := pendingRequests r ++ (completing r).*1.

Record req_ok (r : reqs) (ep : Z) (evs : list event) : Prop := {
  ids_nodup : NoDup (ids r);
  ids_heap i : i ∈ ids r <-> is_Some (heap r !! i);
  info_ok i ri : heap r !! i = Some ri -> (serial ri < accepted r)%nat /\ (serial ri ∉ answered evs) /\ row_ok (pCI ri);
  serials i j ri rj : heap r !! i = Some ri -> heap r !! j = Some rj -> serial ri = serial rj -> i = j;
  pending_born i ri : i ∈ pendingRequests r -> heap r !! i = Some ri -> live ri -> born ri = ep;
  completing_born i a ri : (i, a) ∈ completing r -> heap r !! i = Some ri -> live ri -> born ri = a_epoch a;
  completing_past i a : (i, a) ∈ completing r -> a_epoch a <= ep;
  answered_nodup : NoDup (answered evs);
  answered_old n : n ∈ answered evs -> (n < accepted r)%nat;
  all_own : Forall on_own evs
}.

(** Without a connection nothing that is pending will be answered; one listens only
    while there is no connection. *)
Definition conn_ok (s : st) : Prop :=
  (listening (cn s) = true -> commanding (cn s) = None /\ fdCommand (cn s) < 0) /\
  (commanding (cn s) = None -> forall i ri, i ∈ pendingRequests (rq s) -> heap (rq s) !! i = Some ri -> ~ live ri) /\
  (registerCalled s = true -> self_check = true) /\
  (registerCalled s = false -> commanding (cn s) = None /\ fdCommand (cn s) < 0).

Definition live_timer : UserCallbackInfo := {| p_callback := wakeTimeoutCallback; userParam := 0 |}.

Definition timer_ok (p : power) : Prop :=
  forall id, last_wake_timeout_info p = Some id <-> timers p !! id = Some live_timer.
Definition wake_ok (p : power) : Prop := wake p = true -> is_Some (last_wake_timeout_info p).
Definition pow_ok (p : power) : Prop := timer_ok p /\ wake_ok p.

Definition good (s : st) : Prop := req_ok (rq s) (epoch (cn s)) (out (sys s)) /\ conn_ok s /\ pow_ok (pw s).

(** Events that are no answers. *)
Definition quiet (e : event) : Prop := match e with Answered _ _ _ _ => False | _ => True end.

Lemma answered_quiet l k : Forall quiet k -> answered (l ++ k) = answered l.
Proof.
  intros Hk. unfold answered. rewrite omap_app. replace (omap _ k) with (@nil nat); [by rewrite app_nil_r|].
  induction Hk as [|e k He Hk IH]; [done|]. by destruct e.
Qed.

Lemma own_quiet l k : Forall on_own l -> Forall quiet k -> Forall on_own (l ++ k).
Proof. intros Hl Hk. apply Forall_app. split; [done|]. eapply Forall_impl; [exact Hk|]. by intros []. Qed.

Lemma req_quiet r ep l k : req_ok r ep l -> Forall quiet k -> req_ok r ep (l ++ k).
Proof.
  intros [] Hk. constructor; try done; rewrite ?answered_quiet by done; try done. by apply own_quiet.
Qed.

(** [Q] does not look at what the system sees. *)
Definition sys_free (Q : st -> Prop) : Prop :=
  forall s rs k, Q s -> Forall quiet k -> Q (put_sys {| ws := rs; out := out (sys s) ++ k |} s).

Lemma good_sys_free : sys_free good.
Proof. intros s rs k (Hr & Hc & Hp) Hk. split; [by apply req_quiet|]. done. Qed.

Lemma emit_triple (Q : st -> Prop) e : sys_free Q -> quiet e -> triple Q (emit e) (fun _ => Q).
Proof. intros HQ He s Hs. cbn. apply HQ; [done|]. by constructor. Qed.

Lemma blockingWrite_triple (Q : st -> Prop) fd b : sys_free Q -> triple Q (blockingWrite fd b) (fun _ => Q).
Proof.
  intros HQ s Hs. unfold blockingWrite. destruct (write_loop _ b) as [[[ok w] rs]|]; [|done].
  apply HQ; [done|]. constructor; [done|]. destruct ok; by repeat constructor.
Qed.

Lemma sendResponseRaw_triple (Q : st -> Prop) d : sys_free Q -> triple Q (sendResponseRaw d) (fun _ => Q).
Proof.
  intros HQ. unfold sendResponseRaw. apply triple_get_bind. intros s0. cbv zeta.
  destruct (_ <? 0); [intros s Hs; apply Hs|]. destruct (_ <? _); [intros s Hs; apply Hs|].
  apply (triple_pre _ _ Q); [by intros s [_ Hs]|].
  eapply triple_bind; [by apply blockingWrite_triple|]. intros ret. cbv beta. destruct (ret <? 0); [by intros s Hs|].
  eapply triple_bind; [by apply blockingWrite_triple|]. intros ret'. cbv beta. destruct (ret' <? 0); by intros s Hs.
Qed.

(** ** Requests *)

Lemma row_of n : 1 <= n < Z.of_nat (length s_commands) -> row_ok (Z.to_nat n).
Proof.
  intros Hn. assert (Forall (fun row => is_Some row.2) (tail s_commands)) as Hall.
  { apply (bool_decide_unpack _). vm_compute. exact I. }
  destruct (lookup_lt_is_Some_2 s_commands (Z.to_nat n)) as [[name fs] Hrow]; [lia|].
  assert (tail s_commands !! (Z.to_nat n - 1)%nat = Some (name, fs)) as Ht.
  { rewrite lookup_tail. by replace (S (Z.to_nat n - 1)) with (Z.to_nat n) by lia. }
  eapply Forall_lookup_1 in Hall as [[d f] Hf]; [|exact Ht]. exists name, d, f. cbn in Hf. by rewrite Hrow, Hf.
Qed.

Lemma new_request_ok r ep evs pRI ri :
  req_ok r ep evs -> heap r !! pRI = None -> serial ri = accepted r -> born ri = ep -> row_ok (pCI ri) ->
  req_ok {| heap := <[pRI := ri]> (heap r); pendingRequests := pRI :: pendingRequests r; completing := completing r;
            accepted := S (accepted r) |} ep evs.
Proof.
  intros Hr Hn Hs Hb Hrow.
  assert (pRI ∉ ids r) as Hid by (rewrite (ids_heap _ _ _ Hr), Hn; by apply is_Some_None).
  constructor; cbn [heap pendingRequests completing accepted].
  - apply NoDup_cons. split; [done|apply Hr].
  - intros i. change (i ∈ pRI :: ids r <-> is_Some (<[pRI := ri]> (heap r) !! i)).
    rewrite elem_of_cons, (ids_heap _ _ _ Hr). destruct (decide (i = pRI)) as [->|Hi].
    + rewrite lookup_insert_eq. split; [by eexists|by left].
    + rewrite lookup_insert_ne by done. intuition.
  - intros i ri' [[-> <-]|[Hi Hl]]%lookup_insert_Some.
    + split; [lia|]. split; [|done]. intros Ha%(answered_old _ _ _ Hr). lia.
    + destruct (info_ok _ _ _ Hr _ _ Hl) as (H1' & H2' & H3'). split; [lia|done].
  - intros i j ri' rj [[-> <-]|[Hi Hl]]%lookup_insert_Some [[-> <-]|[Hj Hl']]%lookup_insert_Some He; [done|..].
    + pose proof (info_ok _ _ _ Hr _ _ Hl'). lia.
    + pose proof (info_ok _ _ _ Hr _ _ Hl). lia.
    + by eapply (serials _ _ _ Hr).
  - intros i ri' Hi [[-> <-]|[Hne Hl]]%lookup_insert_Some Hv; [done|].
    apply elem_of_cons in Hi as [->|Hi]; [done|]. by eapply (pending_born _ _ _ Hr).
  - intros i a ri' Hi [[-> <-]|[Hne Hl]]%lookup_insert_Some Hv; [|by eapply (completing_born _ _ _ Hr)].
    destruct Hid. apply elem_of_app. right. apply list_elem_of_fmap. by eexists (_, a).
  - apply Hr.
  - apply Hr.
  - intros n Hin%(answered_old _ _ _ Hr). lia.
  - apply Hr.
Qed.

Ltac split_good := intros s; intros; split; [|split; [|done]].

Lemma new_dead s loc tok ci n ri :
  ri = {| token := tok; pCI := ci; cancelled := false; local := loc; born := epoch (cn s); serial := n |} ->
  commanding (cn s) = None -> loc = true \/ is_Some (commanding (cn s)) -> live ri -> False.
Proof. intros -> Hc [->|[fd Hf]] [_ Hv]; [done|]. by rewrite Hc in Hf. Qed.

Lemma new_request_triple pRI tok ci loc j :
  row_ok ci ->
  triple (fun s => good s /\ heap (rq s) !! pRI = None /\ (loc = true \/ is_Some (commanding (cn s))) /\
                   (pRI <> j -> heap (rq s) !! j = None))
    (new_request pRI tok ci loc) (fun _ s => good s /\ (pRI <> j -> heap (rq s) !! j = None)).
Proof.
  intros Hrow s ((Hr & Hc & Hp) & Hn & Hl & Hj). cbn. split; [split; [|split; [|done]]|].
  - by apply new_request_ok.
  - destruct Hc as (Hc1 & Hc2 & Hc3). split; [done|]. split; [|done]. cbn. intros Hcm i ri Hi Hlk Hv.
    apply elem_of_cons in Hi as [->|Hi].
    + rewrite lookup_insert_eq in Hlk. injection Hlk as Hri. by eapply (new_dead s loc).
    + destruct (decide (i = pRI)) as [->|Hne].
      { rewrite lookup_insert_eq in Hlk. injection Hlk as Hri. by eapply (new_dead s loc). }
      rewrite lookup_insert_ne in Hlk by done. by apply (Hc2 Hcm i ri).
  - cbn. intros Hne. rewrite lookup_insert_ne by done. by apply Hj.
Qed.

Lemma good_and_sys_free (Q : st -> Prop) :
  (forall s i, Q s -> Q (put_sys i s)) -> sys_free (fun s => good s /\ Q s).
Proof. intros HQ s rs k [Hg Hq] Hk. split; [by apply good_sys_free|]. by apply HQ. Qed.

Lemma issueLocalRequest_triple request q len pRI j :
  row_ok request ->
  triple (fun s => good s /\ heap (rq s) !! pRI = None /\ (pRI <> j -> heap (rq s) !! j = None))
    (issueLocalRequest request q len pRI) (fun _ s => good s /\ (pRI <> j -> heap (rq s) !! j = None)).
Proof.
  intros Hrow. unfold issueLocalRequest. eapply triple_bind.
  - eapply triple_pre; [|by apply (new_request_triple pRI _ _ _ j)]. intros s (Hg & Hn & Hj). eauto.
  - intros []. apply emit_triple; [|done]. by apply good_and_sys_free.
Qed.

Lemma processCommandBuffer_triple buffer pRI garbage :
  triple (fun s => good s /\ heap (rq s) !! pRI = None /\ is_Some (commanding (cn s)))
    (processCommandBuffer stack buffer pRI garbage) (fun _ => good).
Proof.
  unfold processCommandBuffer. destruct (rd_new _) as [[request|] l1], (rd_new l1) as [[tok|] l2];
    try (by intros s (Hs & _)); try (apply triple_undef; not_own).
  destruct (Z.ltb_spec request 1); [by intros s (Hs & _)|]. destruct (Z.leb_spec (Z.of_nat (length s_commands)) request); [by intros s (Hs & _)|].
  cbn [orb]. destruct (row_of request) as (name & d & f & Hrow); [lia|]. rewrite Hrow.
  eapply triple_bind.
  { eapply triple_pre; [|apply (new_request_triple pRI tok (Z.to_nat request) false pRI)]; [|by exists name, d, f].
    intros s (Hg & Hn & Hc). split; [done|]. split; [done|]. split; [by right|]. done. }
  intros []. apply triple_get_bind. intros s0. destruct (fst _) as [q len| |].
  - eapply triple_pre; [intros s (_ & Hg & _); exact Hg|]. apply (emit_triple good); [apply good_sys_free|done].
  - by intros s (_ & Hg & _).
  - apply triple_undef. not_own.
Qed.

(** *** Losing the connection *)

Definition cancel (ri : RequestInfo) : RequestInfo :=
  {| token := token ri; pCI := pCI ri; cancelled := true; local := local ri; born := born ri; serial := serial ri |}.

Definition cancel_all (r : reqs) : reqs := put_heap (foldr (alter cancel) (heap r) (pendingRequests r)) r.

Lemma lookup_cancelled l (h : gmap Z RequestInfo) i :
  foldr (alter cancel) h l !! i = if decide (i ∈ l) then cancel <$> h !! i else h !! i.
Proof.
  induction l as [|x l IH]; [done|]. cbn [foldr]. destruct (decide (i = x)) as [->|Hne].
  - rewrite lookup_alter_eq, IH, (decide_True (P := x ∈ x :: l)) by (by left).
    destruct (decide (x ∈ l)); [|done]. by destruct (h !! x).
  - rewrite lookup_alter_ne, IH by done. apply decide_ext. rewrite elem_of_cons. intuition.
Qed.

Lemma cancel_all_lookup r i ri :
  heap (cancel_all r) !! i = Some ri ->
  exists ri0, heap r !! i = Some ri0 /\ serial ri = serial ri0 /\ pCI ri = pCI ri0 /\ born ri = born ri0 /\
    (live ri -> live ri0 /\ i ∉ pendingRequests r).
Proof.
  unfold cancel_all. cbn. rewrite lookup_cancelled. destruct (decide (i ∈ pendingRequests r)) as [Hi|Hi].
  - intros (ri0 & Hl & ->)%fmap_Some. exists ri0. do 4 (split; [done|]). by intros [Hv _].
  - intros Hl. exists ri. do 4 (split; [done|]). done.
Qed.

Lemma cancel_all_ok r ep ep' evs : req_ok r ep evs -> ep <= ep' -> req_ok (cancel_all r) ep' evs.
Proof.
  intros Hr Hep. constructor; try apply Hr.
  - intros i. rewrite (ids_heap _ _ _ Hr). unfold cancel_all. cbn. rewrite lookup_cancelled.
    destruct (decide _); [|done]. by rewrite fmap_is_Some.
  - intros i ri (ri0 & Hl & -> & -> & _ & _)%cancel_all_lookup. by apply (info_ok _ _ _ Hr i).
  - intros i j ri rj (ri0 & Hl & -> & _)%cancel_all_lookup (rj0 & Hl' & -> & _)%cancel_all_lookup. by apply (serials _ _ _ Hr).
  - intros i ri Hi (ri0 & Hl & _ & _ & _ & Hv)%cancel_all_lookup [_ Hn]%Hv. done.
  - intros i a ri Hi (ri0 & Hl & _ & _ & -> & Hv)%cancel_all_lookup [Hv0 _]%Hv. by apply (completing_born _ _ _ Hr i).
  - intros i a Hi%(completing_past _ _ _ Hr). lia.
Qed.

Lemma cancel_all_dead r i ri : i ∈ pendingRequests r -> heap (cancel_all r) !! i = Some ri -> ~ live ri.
Proof. intros Hi (ri0 & _ & _ & _ & _ & Hv)%cancel_all_lookup Hl. by destruct (Hv Hl). Qed.

Lemma close_commands_triple : triple good close_commands (fun _ => good).
Proof.
  intros s (Hr & Hc & Hp). cbn. split; [|split; [|done]].
  - apply (req_quiet (cancel_all (rq s))); [by eapply cancel_all_ok|by repeat constructor].
  - destruct Hc as (Hc1 & Hc2 & Hc3 & Hc4). split; [done|]. split; [|done]. intros _. apply (cancel_all_dead (rq s)).
Qed.

Lemma command_round_triple n pRI garbage :
  triple (fun s => good s /\ heap (rq s) !! pRI = None /\ is_Some (commanding (cn s))) (command_round stack n pRI garbage) (fun _ => good).
Proof.
  unfold command_round. destruct n as [buf| | |].
  - eapply triple_bind; [apply processCommandBuffer_triple|]. intros []. by intros s Hs.
  - apply (triple_bind _ _ _ (fun _ => good)); [|by intros [] s Hs]. apply (triple_pre _ _ good); [by intros s [Hs _]|apply close_commands_triple].
  - by intros s [Hs _].
  - apply (triple_bind _ _ _ (fun _ => good)); [|by intros [] s Hs]. apply (triple_pre _ _ good); [by intros s [Hs _]|apply close_commands_triple].
Qed.

(** *** Completion *)

Lemma dequeue_ok r ep evs k pRI a :
  req_ok r ep evs -> pendingRequests r !! k = Some pRI -> a_epoch a = ep ->
  req_ok (put_completing ((pRI, a) :: completing r) (put_pending (delete k (pendingRequests r)) r)) ep evs.
Proof.
  intros Hr Hk Ha.
  assert (ids (put_completing ((pRI, a) :: completing r) (put_pending (delete k (pendingRequests r)) r)) ≡ₚ ids r) as Hp.
  { unfold ids. cbn. rewrite <- Permutation_middle. symmetry.
    apply (Permutation_app_tail _ (delete_Permutation (pendingRequests r) k pRI Hk)). }
  assert (forall i, i ∈ delete k (pendingRequests r) -> i ∈ pendingRequests r) as Hsub.
  { intros i Hi. rewrite (delete_Permutation _ _ _ Hk). by right. }
  constructor; try apply Hr.
  - rewrite Hp. apply Hr.
  - intros i. rewrite Hp. apply Hr.
  - intros i ri Hi%Hsub. by apply (pending_born _ _ _ Hr).
  - intros i a' ri [[= -> ->]|Hi]%elem_of_cons Hl Hv; [|by eapply (completing_born _ _ _ Hr)].
    rewrite Ha. by apply (pending_born _ _ _ Hr pRI); [eapply list_elem_of_lookup_2|..].
  - intros i a' [[= -> ->]|Hi]%elem_of_cons; [lia|]. by eapply (completing_past _ _ _ Hr).
Qed.

Lemma complete_begin_triple pRI e d n : triple good (complete_begin pRI e d n) (fun _ => good).
Proof.
  intros s Hg. pose proof Hg as (Hr & (Hc1 & Hc2 & Hc3) & Hp). unfold complete_begin, checkAndDequeueRequestInfo.
  destruct (pRI =? 0); [done|]. cbv [mbind ril_bind outcome_bind get]. destruct (list_find (eq pRI) (pendingRequests (rq s))) as [[k x]|] eqn:E; [|done].
  apply list_find_Some in E as (Hk & <- & _). cbn. split; [|split; [|done]].
  - by apply dequeue_ok.
  - split; [done|]. split; [|done]. cbn. intros Hcm i ri Hi. apply (Hc2 Hcm). rewrite (delete_Permutation _ _ _ Hk). by right.
Qed.

(** The request is off both lists and freed. *)
Definition clean (pRI : Z) (r : reqs) : reqs :=
  put_completing (filter (fun x => x.1 <> pRI) (completing r)) (put_heap (delete pRI (heap r)) r).

Lemma clean_ids pRI r i : pRI ∉ pendingRequests r -> i ∈ ids (clean pRI r) <-> i <> pRI /\ i ∈ ids r.
Proof.
  intros Hn. unfold ids, clean. cbn. rewrite !elem_of_app, !list_elem_of_fmap. split.
  - intros [Hi|([j a] & -> & [Hj Hin]%list_elem_of_filter)].
    + split; [by intros ->|by left].
    + split; [done|]. right. by exists (j, a).
  - intros [Hi [Hin|([j a] & -> & Hin)]]; [by left|]. right. exists (j, a). split; [done|]. by apply list_elem_of_filter.
Qed.

Lemma clean_ok pRI a r ep evs ri k :
  req_ok r ep evs -> (pRI, a) ∈ completing r -> heap r !! pRI = Some ri ->
  k = [] \/ live ri /\ k = [Answered (serial ri) (born ri) (a_epoch a) ep] ->
  req_ok (clean pRI r) ep (evs ++ k).
Proof.
  intros Hr Hin Hl Hk.
  pose proof (ids_nodup _ _ _ Hr) as Hnd. apply NoDup_app in Hnd as (Hnd1 & Hnd2 & Hnd3).
  assert (pRI ∈ (completing r).*1) as Hc by (apply list_elem_of_fmap; by exists (pRI, a)).
  assert (pRI ∉ pendingRequests r) as Hp by (intros Hp; by apply (Hnd2 pRI)).
  assert (forall i ri', heap (clean pRI r) !! i = Some ri' -> i <> pRI /\ heap r !! i = Some ri') as Hh.
  { intros i ri' Hx. cbn in Hx. apply lookup_delete_Some in Hx as [Hi Hx]. by split. }
  assert (forall i a', (i, a') ∈ completing (clean pRI r) -> (i, a') ∈ completing r) as Hcc.
  { intros i a' Hx. cbn in Hx. by apply list_elem_of_filter in Hx as [_ Hx]. }
  assert (forall n, n ∈ answered (evs ++ k) -> n ∈ answered evs \/ n = serial ri) as Hans.
  { intros n. destruct Hk as [->|[_ ->]]; [rewrite app_nil_r; by left|]. unfold answered. rewrite omap_app. cbn.
    rewrite elem_of_app, list_elem_of_singleton. done. }
  destruct (info_ok _ _ _ Hr _ _ Hl) as (Hs1 & Hs2 & Hs3).
  constructor.
  - apply NoDup_app. split; [done|]. split.
    + intros i Hi Hi'. apply (Hnd2 i Hi). apply list_elem_of_fmap in Hi' as ([j a'] & -> & Hj%Hcc). apply list_elem_of_fmap.
      by exists (j, a').
    + eapply sublist_NoDup; [exact Hnd3|]. apply fmap_sublist. apply sublist_filter.
  - intros i. rewrite clean_ids by done. rewrite (ids_heap _ _ _ Hr). cbn. rewrite lookup_delete_is_Some. intuition.
  - intros i ri' [Hi Hl']%Hh. destruct (info_ok _ _ _ Hr _ _ Hl') as (H1' & H2' & H3'). split; [done|]. split; [|done].
    intros [Ha|Ha]%Hans; [done|]. apply Hi. by eapply (serials _ _ _ Hr).
  - intros i j ri1 rj [_ Hl1]%Hh [_ Hl2]%Hh. by apply (serials _ _ _ Hr).
  - intros i ri' Hi [_ Hl']%Hh. by apply (pending_born _ _ _ Hr i).
  - intros i a' ri' Hi%Hcc [_ Hl']%Hh. by apply (completing_born _ _ _ Hr i).
  - intros i a' Hi%Hcc. by apply (completing_past _ _ _ Hr i).
  - destruct Hk as [->|[_ ->]]; [rewrite app_nil_r; apply Hr|]. unfold answered. rewrite omap_app. cbn.
    apply NoDup_app. split; [apply Hr|]. split; [|apply NoDup_singleton]. by intros n Hn ->%list_elem_of_singleton.
  - intros n [Hn| ->]%Hans; [by apply (answered_old _ _ _ Hr)|done].
  - destruct Hk as [->|[Hv ->]]; [rewrite app_nil_r; apply Hr|]. apply Forall_app. split; [apply Hr|]. apply Forall_singleton. cbn.
    split; [by eapply (completing_born _ _ _ Hr)|by eapply (completing_past _ _ _ Hr)].
Qed.

Definition cleaned (pRI : Z) (s : st) : Prop := good (put_rq (clean pRI (rq s)) s).

Lemma cleaned_sys_free pRI : sys_free (cleaned pRI).
Proof. intros s rs k Hs Hk. by apply (good_sys_free (put_rq (clean pRI (rq s)) s)). Qed.

Lemma clean_good s pRI a ri k :
  good s -> (pRI, a) ∈ completing (rq s) -> heap (rq s) !! pRI = Some ri ->
  k = [] \/ live ri /\ k = [Answered (serial ri) (born ri) (a_epoch a) (epoch (cn s))] ->
  good (put_rq (clean pRI (rq s)) (put_sys {| ws := ws (sys s); out := out (sys s) ++ k |} s)).
Proof.
  intros (Hr & (Hc1 & Hc2 & Hc3) & Hp) Hin Hl Hk. split; [by eapply clean_ok|]. split; [|done].
  split; [done|]. split; [|done]. intros Hcm i ri' Hi Hl'. cbn in *. apply lookup_delete_Some in Hl' as [_ Hl']. by apply (Hc2 Hcm i).
Qed.

Lemma complete_end_triple pRI a baseband :
  triple (fun s => good s /\ (pRI, a) ∈ completing (rq s)) (complete_end pRI a baseband) (fun _ => good).
Proof.
  unfold complete_end. apply triple_get_bind. intros s0.
  destruct (heap (rq s0) !! pRI) as [ri|] eqn:Hl.
  2:{ apply triple_false. intros s (-> & (Hr & _) & Hin). apply eq_None_not_Some in Hl. apply Hl.
      apply (ids_heap _ _ _ Hr). apply elem_of_app. right. apply list_elem_of_fmap. by exists (pRI, a). }
  apply (triple_bind _ _ _ (fun _ => cleaned pRI)); [|intros []; apply (triple_modify (fun s => put_rq (clean pRI (rq s)) s))].
  assert (forall s, s = s0 /\ good s /\ (pRI, a) ∈ completing (rq s) -> cleaned pRI s) as Hdone.
  { intros s (-> & Hg & Hin). pose proof (clean_good s0 pRI a ri [] Hg Hin Hl ltac:(by left)) as Hc.
    unfold cleaned. rewrite app_nil_r in Hc. by destruct s0 as [? ? ? ? ? []]. }
  destruct (local ri) eqn:Hloc; [intros s Hs; by apply Hdone|].
  destruct (s_commands !! pCI ri) as [[name [[d f]|]]|] eqn:Hrow.
  2,3: apply triple_false; intros s (-> & (Hr & _) & Hin); destruct (info_ok _ _ _ Hr _ _ Hl) as (_ & _ & ? & ? & ? & ?); congruence.
  destruct (cancelled ri) eqn:Hcan; [intros s Hs; by apply Hdone|].
  eapply triple_bind; [apply triple_lift|]. intros p. cbv beta.
  apply (triple_bind _ _ _ (fun _ => cleaned pRI)).
  { intros s (_ & -> & Hg & Hin). cbn. apply (clean_good s0 pRI a ri); [done..|]. right. by repeat split. }
  intros []. apply (triple_bind _ _ _ (fun _ => cleaned pRI)); [|by intros ret s Hs].
  apply sendResponseRaw_triple, cleaned_sys_free.
Qed.

(** *** Timers and events of the radio *)

Lemma good_pow s p' : good s -> pow_ok p' -> good (put_pw p' s).
Proof. intros (Hr & Hc & _) Hp. by split. Qed.

(** After the callback of timer [id]: if the lock is held, another timer will release it. *)
Definition called (id : Z) (s : st) : Prop :=
  req_ok (rq s) (epoch (cn s)) (out (sys s)) /\ conn_ok s /\ timer_ok (pw s) /\
  (wake (pw s) = true -> exists l, last_wake_timeout_info (pw s) = Some l /\ l <> id).

Lemma called_good id s : good s -> last_wake_timeout_info (pw s) <> Some id -> called id s.
Proof.
  intros (Hr & Hc & Ht & Hw) Hl. split; [done|]. split; [done|]. split; [done|]. intros [l Hs]%Hw. exists l. split; [done|]. by intros ->.
Qed.

Lemma callback_triple id info :
  triple (fun s => good s /\ timers (pw s) !! id = Some info)
    (match p_callback info with
     | wakeTimeoutCallback => run_wakeTimeoutCallback (userParam info)
     | VendorCallback n => emit (Called n (userParam info))
     end) (fun _ => called id).
Proof.
  intros s (Hg & Hi). pose proof Hg as (Hr & Hc & Ht & Hw).
  destruct info as [[|n] param]; cbn [p_callback userParam].
  - unfold run_wakeTimeoutCallback. destruct (Z.eqb_spec param 0) as [->|Hp].
    + split; [apply req_quiet; [done|by repeat constructor]|]. by split.
    + apply called_good; [done|]. intros Hl%Ht. rewrite Hi in Hl. injection Hl. done.
  - apply called_good; [by apply good_sys_free; [|repeat constructor]|]. cbn. intros Hl%Ht. rewrite Hi in Hl. done.
Qed.

Lemma timer_end_triple id :
  triple (called id)
    (s ← get; (if decide (last_wake_timeout_info (pw s) = Some id) then put_last None else mret ());;
     put_timers (delete id (timers (pw s)))) (fun _ => good).
Proof.
  intros s (Hr & Hc & Ht & Hw). cbv [mbind ril_bind outcome_bind get].
  destruct (decide (last_wake_timeout_info (pw s) = Some id)) as [Hl|Hl]; cbn; (split; [done|split; [done|split]]).
  - intros j. cbn. split; [done|]. intros [Hne Hj]%lookup_delete_Some. apply Ht in Hj. cbn in Hj. congruence.
  - unfold wake_ok. cbn. intros (l & Hl' & Hne)%Hw. congruence.
  - intros j. cbn. split.
    + intros Hj. apply lookup_delete_Some. split; [congruence|by apply Ht].
    + intros [Hne Hj]%lookup_delete_Some. by apply Ht.
  - unfold wake_ok. cbn. intros (l & Hl' & _)%Hw. by exists l.
Qed.

Lemma userTimerCallback_triple id : triple (fun s => good s /\ is_Some (timers (pw s) !! id)) (userTimerCallback id) (fun _ => good).
Proof.
  unfold userTimerCallback. apply triple_get_bind. intros s0. destruct (timers (pw s0) !! id) as [info|] eqn:Hi.
  - apply (triple_bind _ _ _ (fun _ => called id)); [|intros []; apply timer_end_triple].
    eapply triple_pre; [|apply callback_triple]. by intros s (-> & Hg & _).
  - apply triple_false. intros s (-> & _ & [? ?]). congruence.
Qed.

(** While an event is being sent: the wake lock may be held already, and the timer
    that will release it is still to come ([later]). *)
Definition sending (later : bool) (id : Z) (s : st) : Prop :=
  req_ok (rq s) (epoch (cn s)) (out (sys s)) /\ conn_ok s /\ timer_ok (pw s) /\ (later = false -> wake_ok (pw s)) /\
  new_timer s id.

Lemma sending_sys_free later id : sys_free (sending later id).
Proof. intros s rs k (Hr & Hs) Hk. split; [by apply req_quiet|]. done. Qed.

Lemma schedule_triple id :
  triple (sending true id)
    (cancel_last;; i ← internalRequestTimedCallback wakeTimeoutCallback 0 id; put_last (Some i)) (fun _ => good).
Proof.
  intros s (Hr & Hc & Ht & _ & Hn). destruct s as [reg ver c r [wk tm last nz] [rs evs]]. cbn in *. unfold new_timer in Hn. cbn in Hn.
  assert (forall tm', tm' !! id = None -> (forall j, tm' !! j <> Some live_timer) ->
    pow_ok {| wake := wk; timers := <[id := live_timer]> tm'; last_wake_timeout_info := Some id; lastNITZTimeData := nz |}) as Hend.
  { intros tm' Hn' Hj. split; [|intros _; by eexists]. intros j. cbn. split.
    - intros [= <-]. by rewrite lookup_insert_eq.
    - intros [[-> _]|[_ Hl]]%lookup_insert_Some; [done|]. by destruct (Hj j). }
  destruct last as [l|].
  - pose proof (proj1 (Ht l) eq_refl) as Hl. cbn in Hl. unfold cancel_last. cbv [mbind ril_bind outcome_bind get].
    cbn [pw last_wake_timeout_info timers]. rewrite Hl. cbn.
    split; [done|]. split; [done|]. apply (Hend (<[l := {| p_callback := wakeTimeoutCallback; userParam := 1 |}]> tm)).
    + rewrite lookup_insert_ne; [done|]. intros ->. congruence.
    + intros j [[-> Hj]|[Hne Hj]]%lookup_insert_Some; [done|]. apply (Ht j) in Hj. cbn in Hj. congruence.
  - cbn. split; [done|]. split; [done|]. apply Hend; [done|]. intros j Hj%(Ht j). done.
Qed.

Lemma unsol_triple u d n time radio id :
  triple (fun s => good s /\ new_timer s id) (RIL_onUnsolicitedResponse u d n time radio id) (fun _ => good).
Proof.
  unfold RIL_onUnsolicitedResponse. apply triple_get_bind. intros s0.
  destruct (negb (registerCalled s0)); [by intros s (_ & Hs & _)|].
  destruct (Z.ltb_spec (u - RIL_UNSOL_RESPONSE_BASE) 0); [by intros s (_ & Hs & _)|].
  destruct (Z.leb_spec (Z.of_nat (length s_unsolResponses)) (u - RIL_UNSOL_RESPONSE_BASE)); [by intros s (_ & Hs & _)|]. cbn [orb].
  destruct (lookup_lt_is_Some_2 s_unsolResponses (Z.to_nat (u - RIL_UNSOL_RESPONSE_BASE))) as [[[name f] w] ->]; [lia|].
  set (b := match w with WAKE_PARTIAL => true | DONT_WAKE => false end).
  apply (triple_bind _ _ _ (fun _ => sending b id)).
  { intros s (_ & (Hr & Hc & Ht & Hw) & Hn). destruct b; cbn; [|by split_and!].
    destruct s as [reg ver c r [wk tm last nz] [rs evs]]. cbn in *. rewrite app_nil_r || idtac.
    split; [|by split_and!]. apply req_quiet; [done|by repeat constructor]. }
  intros []. eapply triple_bind; [apply triple_lift|]. intros [p ret]. cbv beta iota.
  destruct (negb (ret =? 0)).
  { intros s (_ & Hr & Hc & Ht & Hw & Hn). destruct b.
    - destruct s as [reg ver c r [wk tm last nz] [rs evs]]. cbn in *.
      split; [apply req_quiet; [done|by repeat constructor]|]. split; [done|]. by split.
    - cbn. split; [done|]. split; [done|]. split; [done|]. by apply Hw. }
  apply (triple_pre _ _ (sending b id)); [by intros s [_ Hs]|].
  apply (triple_bind _ _ _ (fun _ => sending b id)); [apply sendResponseRaw_triple, sending_sys_free|].
  intros ret'. apply (triple_bind _ _ _ (fun _ => sending b id)).
  { destruct (_ && _); by intros s Hs. }
  intros []. destruct b; [apply schedule_triple|]. intros s (Hr & Hc & Ht & Hw & Hn). split; [done|]. split; [done|].
  split; [done|]. by apply Hw.
Qed.

(** *** Connections, registration, the debug port *)

Lemma put_nitz_good d : triple good (put_nitz d) (fun _ => good).
Proof. by intros s (Hr & Hc & Hp). Qed.

Lemma onNewCommandConnect_triple radio id v :
  triple (fun s => good s /\ new_timer s id) (onNewCommandConnect radio id v) (fun _ => good).
Proof.
  unfold onNewCommandConnect. apply (triple_bind _ _ _ (fun _ => good)); [apply unsol_triple|]. intros [].
  apply triple_get_bind. intros s0. apply (triple_bind _ _ _ (fun _ => good)).
  - apply (triple_pre _ _ good); [by intros s [_ Hs]|]. destruct (lastNITZTimeData _) as [d|]; [|by intros s Hs].
    apply (triple_bind _ _ _ (fun _ => good)); [apply sendResponseRaw_triple, good_sys_free|]. intros ret. apply put_nitz_good.
  - intros []. apply emit_triple; [apply good_sys_free|done].
Qed.

Lemma triple_exec {A B} (m : ril A) (k : A -> ril B) (Q : st -> Prop) R :
  (forall s, Q s -> exists a s', m s = Done (a, s') /\ match k a s' with Done (b, s2) => R b s2 | Stop _ => True | Undef w => ~ own_fault w end) ->
  triple Q (m ≫= k) R.
Proof. intros Hm s Hs. destruct (Hm s Hs) as (a & s' & E & Hk). unfold mbind, ril_bind. by rewrite E. Qed.

Lemma listenCallback_triple acc ph radio id v :
  triple (fun s => good s /\ registerCalled s = true /\ listening (cn s) = true /\ new_timer s id)
    (listenCallback acc ph radio id v) (fun _ => good).
Proof.
  intros [reg ver [fl fc li co ep] r p [rs evs]] ((Hr & (Hc1 & Hc2 & Hc3 & _) & Hp) & Hreg & Hl & Hn). cbn in *. subst reg li.
  destruct (Hc1 eq_refl) as [-> Hfd]. specialize (Hc2 eq_refl).
  unfold listenCallback. cbv [mbind ril_bind outcome_bind get assert]. cbn [cn fdCommand].
  rewrite (proj2 (Z.ltb_lt _ _)) by done. cbn -[onNewCommandConnect].
  destruct (Z.ltb_spec acc 0) as [Ha|Ha]; [|destruct ph; cbn [negb]].
  - cbn. split; [done|]. split; [|done]. unfold conn_ok. cbn. by split_and!.
  - apply (onNewCommandConnect_triple radio id v). split; [|done]. cbn. split; [|split; [|done]].
    + destruct Hr. constructor; cbn; try done.
      * intros i ri Hi Hlk Hv. by destruct (Hc2 i ri).
      * intros i a Hi%completing_past0. lia.
    + unfold conn_ok. cbn. by split_and!.
  - cbn. split; [|split; [|done]].
    + apply (req_quiet (cancel_all r)); [by eapply cancel_all_ok|by repeat constructor].
    + unfold conn_ok. cbn. split; [done|]. split; [|done]. intros _. apply (cancel_all_dead r).
Qed.

Lemma RIL_register_triple c fd l1 dfd l2 : triple good (RIL_register c fd l1 dfd l2) (fun _ => good).
Proof.
  intros s Hg. unfold RIL_register. destruct c as [v|]; [|done]. destruct (_ && _); [done|].
  cbv [mbind ril_bind outcome_bind get]. destruct (registerCalled s) eqn:Hreg; [done|]. cbn [modify].
  destruct Hg as (Hr & (Hc1 & Hc2 & Hc3 & Hc4) & Hp). destruct (Hc4 Hreg) as [Hcm Hfd].
  unfold assert. destruct self_check eqn:Hsc; [|done]. cbn. destruct (_ || _); [done|]. cbn. destruct (_ || _); [done|].
  split; [done|]. split; [|done]. by split_and!.
Qed.

Lemma request_row name n :
  self_check = true -> name <> "none"%string -> place name = Some (inl n) -> bool_decide (0 < n < length s_commands)%nat = true ->
  row_ok (request_of name).
Proof.
  intros Hs Hne Hp Hn%bool_decide_eq_true. unfold request_of. rewrite (place_number Hs name _ Hne Hp). cbn [at_place].
  apply row_of. split; [lia|]. apply inj_lt. apply Hn.
Qed.

Lemma debug_rows :
  self_check = true ->
  Forall (fun name => row_ok (request_of name))
    ["RIL_REQUEST_RESET_RADIO"; "RIL_REQUEST_RADIO_POWER"; "RIL_REQUEST_OEM_HOOK_RAW";
     "RIL_REQUEST_SET_NETWORK_SELECTION_AUTOMATIC"; "RIL_REQUEST_SETUP_DATA_CALL"; "RIL_REQUEST_DEACTIVATE_DATA_CALL";
     "RIL_REQUEST_DIAL"; "RIL_REQUEST_ANSWER"; "RIL_REQUEST_HANGUP"]%string.
Proof.
  intros Hs. repeat (apply Forall_cons; split); [..|by apply Forall_nil].
  all: eapply (request_row _ _ Hs); [done|vm_compute; reflexivity|vm_compute; reflexivity].
Qed.

(** Every request of the debug port is known; the vendor gets it as a local one. *)
Lemma debug_request_triple name q len pRI j :
  self_check = true -> row_ok (request_of name) ->
  triple (fun s => good s /\ heap (rq s) !! pRI = None /\ (pRI <> j -> heap (rq s) !! j = None))
    (debug_request name q len pRI) (fun _ s => good s /\ (pRI <> j -> heap (rq s) !! j = None)).
Proof. intros Hs Hr. by apply issueLocalRequest_triple. Qed.

Definition debug_ready (pRI pRI' id : Z) (s : st) : Prop :=
  good s /\ registerCalled s = true /\ new_req s pRI /\ new_req s pRI' /\ pRI <> pRI' /\ new_timer s id.

Lemma debug_one name q len pRI pRI' id :
  self_check = true -> row_ok (request_of name) ->
  triple (debug_ready pRI pRI' id) (debug_request name q len pRI) (fun _ => good).
Proof.
  intros Hs Hr. eapply triple_post; [|eapply triple_pre; [|apply (debug_request_triple _ _ _ _ pRI Hs Hr)]].
  - by intros [] s [Hg _].
  - by intros s (Hg & _ & [_ Hn] & _).
Qed.

Lemma lost_connection_good s fd :
  good s -> commanding (cn s) <> None \/ fd < 0 -> registerCalled s = true ->
  good (put_cn {| fdListen := fdListen (cn s); fdCommand := fd; listening := listening (cn s); commanding := commanding (cn s);
                  epoch := epoch (cn s) |} s).
Proof.
  intros (Hr & (Hc1 & Hc2 & Hc3 & Hc4) & Hp) Hfd Hreg. split; [done|]. split; [|done]. unfold conn_ok. cbn. rewrite Hreg in *.
  split; [|split; [done|split; [done|done]]]. intros Hl. destruct (Hc1 Hl) as [Hn Hf]. split; [done|]. by destruct Hfd.
Qed.

Lemma debugCallback_triple fd args pRI pRI' radio id :
  triple (debug_ready pRI pRI' id) (debugCallback fd args pRI pRI' radio id) (fun _ => good).
Proof.
  unfold debugCallback. destruct (fd <? 0); [by intros s [Hs _]|]. destruct args as [[|a0 args]|]; [apply triple_undef; not_own| |by intros s [Hs _]].
  apply (triple_pre _ _ (fun s => self_check = true /\ debug_ready pRI pRI' id s)).
  { intros s Hs. split; [|done]. destruct Hs as ((_ & (_ & _ & Hc & _) & _) & Hreg & _). by apply Hc. }
  intros s [Hsc Hs]. revert s Hs. apply (triple_bind _ _ _ (fun _ => good)); [|intros []; apply emit_triple; [apply good_sys_free|done]].
  pose proof (debug_rows Hsc) as Hrows. rewrite !Forall_cons in Hrows.
  destruct Hrows as (R1 & R2 & R3 & R4 & R5 & R6 & R7 & R8 & R9 & _).
  assert (triple (debug_ready pRI pRI' id) (mret () : ril ()) (fun _ => good)) as Hret by (by intros s [Hs _]).
  assert (forall name q len, row_ok (request_of name) -> triple (debug_ready pRI pRI' id) (debug_request name q len pRI) (fun _ => good))
    as Hone by (intros; by apply debug_one).
  assert (forall k : bytes -> ril (), (forall a, triple (debug_ready pRI pRI' id) (k a) (fun _ => good)) ->
    triple (debug_ready pRI pRI' id) (match args with [] => undef "args[1]" | a1 :: _ => k a1 end) (fun _ => good)) as Harg.
  { intros k Hk. destruct args; [apply triple_undef; not_own|apply Hk]. }
  generalize (HostRequest.atoi a0) as n. intros n.
  repeat match goal with
         | |- triple _ (match ?x with Z0 => _ | Zpos _ => _ | Zneg _ => _ end) _ => destruct x
         | |- triple _ (match ?x with xH => _ | xO _ => _ | xI _ => _ end) _ => destruct x
         end; try apply Hret; try (by apply Hone); try (apply Harg; intros a; by apply Hone).
  - apply (triple_bind _ _ _ (fun _ s => good s /\ heap (rq s) !! pRI' = None)).
    + intros s (Hg & _ & [_ Hn] & [_ Hn'] & Hne & _).
      pose proof (debug_request_triple "RIL_REQUEST_RADIO_POWER"%string (PInts [1]) 4 pRI pRI' Hsc R2 s) as Ht.
      destruct (debug_request _ _ _ _ s) as [[[] s1]| |]; [|done|by apply Ht].
      destruct Ht as [Hg1 Hn1]; [done|]. split; [done|]. by apply Hn1.
    + intros []. eapply triple_post; [|eapply triple_pre; [|by apply (debug_request_triple _ _ _ pRI' pRI')]].
      * by intros [] s [Hg _].
      * by intros s [Hg Hn].
  - eapply triple_pre; [|apply unsol_triple]. by intros s (Hg & _ & _ & _ & _ & Hn).
  - apply (triple_bind _ _ _ (fun _ s => good s /\ registerCalled s = true)).
    + intros s Hs. pose proof (Hone "RIL_REQUEST_RADIO_POWER"%string (PInts [0]) 4 R2 s Hs) as Hg. split; [exact Hg|apply Hs].
    + intros []. apply triple_get_bind. intros s0.
      apply (triple_bind _ _ _ (fun _ s => good s /\ registerCalled s = true)).
      * intros s (-> & Hg & Hreg). split; [|done]. by apply good_sys_free; [|repeat constructor].
      * intros [] s [Hg Hreg]. apply (lost_connection_good s (-1)); [done| |done]. right. lia.
Qed.

(** ** Everything that can happen keeps the invariant *)

Lemma run_triple a : triple (fun s => good s /\ enabled s a) (run stack a) (fun _ => good).
Proof.
  destruct a as [c fd l1 dfd l2|acc ph radio id v|n pRI g|pRI e r l|pRI b|u d l time radio id|id|n param id|id|fd args pRI pRI' radio id];
    cbn [run enabled].
  - eapply triple_pre; [|apply RIL_register_triple]. by intros s [Hs _].
  - eapply triple_pre; [|apply listenCallback_triple]. by intros s (Hg & Hr & Hl & Hn).
  - apply triple_get_bind. intros s0. unfold processCommandsCallback. apply triple_get_bind. intros s1.
    eapply triple_bind; [apply triple_assert|]. intros []. cbn [command_rounds].
    apply (triple_bind _ _ _ (fun _ => good)); [|by intros [] s Hs].
    eapply triple_pre; [|apply command_round_triple]. intros s (_ & -> & -> & Hg & Hc & _ & Hn). by split_and!.
  - eapply triple_pre; [|apply complete_begin_triple]. by intros s [Hs _].
  - apply triple_get_bind. intros s0. destruct (list_find _ _) as [[k [i a]]|] eqn:E; [|by intros s (_ & Hs & _)].
    apply list_find_Some in E as (Hk & Hi & _). cbn in Hi. subst i.
    eapply triple_pre; [|apply complete_end_triple]. intros s (-> & Hg & _). split; [done|]. by eapply list_elem_of_lookup_2.
  - eapply triple_pre; [|apply unsol_triple]. by intros s [Hs Hn].
  - eapply triple_pre; [|apply userTimerCallback_triple]. by intros s [Hs Hn].
  - intros s [Hg Hn]. cbn. unfold new_timer in Hn. apply (good_pow s); [done|]. destruct Hg as (_ & _ & Ht & Hw).
    split; [|done]. intros j. cbn. rewrite (Ht j). destruct (decide (j = id)) as [->|Hne].
    + rewrite Hn, lookup_insert_eq. done.
    + by rewrite lookup_insert_ne.
  - intros s [Hg Hn]. cbn. apply (good_pow s); [done|]. destruct Hg as (_ & _ & Ht & Hw).
    split; [|done]. intros j. cbn. rewrite (Ht j). destruct (decide (j = id)) as [->|Hne].
    + rewrite lookup_delete_eq. split; [|done]. intros Hj. by rewrite Hj in Hn.
    + by rewrite lookup_delete_ne.
  - eapply triple_pre; [|apply debugCallback_triple]. intros s (Hg & Hr & Hn & Hn' & Hne & Ht). by split_and!.
Qed.

Lemma daemon_init_good : good init.
Proof.
  split; [|split].
  - constructor; cbn; try (intros; exfalso; set_solver); try constructor.
    + intros Hi. by apply elem_of_nil in Hi.
    + intros Hi. apply is_Some_None in Hi as [].
  - unfold conn_ok. cbn. split_and!; try done.
  - split; [|done]. intros j. cbn. done.
Qed.

Lemma with_writes_good rs s : good s -> good (with_writes rs s).
Proof. done. Qed.

Lemma daemon_good s : reach stack s -> good s.
Proof.
  induction 1 as [|s a s' Hr Hg Hstep]; [apply daemon_init_good|]. inversion Hstep as [? ? rs ? He Hrun]; subst.
  pose proof (run_triple a (with_writes rs s) (conj (with_writes_good rs _ Hg) He)) as Ht. by rewrite Hrun in Ht.
Qed.

(** C22 (safety). However requests, answers, events, timers, lost and new connections follow
    each other: no request is answered twice, only requests that were accepted are
    answered, one that is still in memory has not been, and an answer is sent only if the
    connection at the time its request was taken off the list was the one the request
    came from.  It is not claimed that this connection is still up when the answer is
    written: after a reconnection between the two steps it goes to the new one
    ([late_answer]). *)
Theorem answered_once s :
  reach stack s ->
  NoDup (answered (out (sys s))) /\
  (forall n, n ∈ answered (out (sys s)) -> (n < accepted (rq s))%nat) /\
  (forall i ri, heap (rq s) !! i = Some ri -> serial ri ∉ answered (out (sys s))) /\
  Forall on_own (out (sys s)).
Proof.
  intros Hr. destruct (daemon_good s Hr) as ([] & _). split; [done|]. split; [done|]. split; [|done].
  intros i ri Hi. by apply (info_ok0 i).
Qed.

(** C23 (safety). Requests are used only while they live: in every state that steps of
    the daemon, one after the other, can reach, no step follows a pointer to a freed
    request or reads a table row that is not there, whatever tokens the vendor completes,
    how often, and whatever the phone process sends, with connections lost and made in
    between.  The completion of a request is two steps, with anything in between; two
    steps at the same time are not covered, nor are the timers, for which the code has a
    race ([wake_timer_race]). *)
Theorem no_freed_request s a rs w :
  reach stack s -> enabled s a -> run stack a (with_writes rs s) = Undef w -> ~ request_fault w.
Proof.
  intros Hr He E Hw. pose proof (run_triple a (with_writes rs s) (conj (with_writes_good rs _ (daemon_good s Hr)) He)) as Ht.
  rewrite E in Ht. by apply Ht, request_fault_own.
Qed.

(** While the wake lock is held a timer that will release it is waiting: the
    one of the last event, the only wake timer that has not been cancelled; and when it
    fires the lock is released. *)
Theorem wake_lock_released s :
  reach stack s -> wake (pw s) = true ->
  exists id, timers (pw s) !! id = Some live_timer /\ (forall j, timers (pw s) !! j = Some live_timer -> j = id) /\
    forall rs, exists s', run stack (ATimer id) (with_writes rs s) = Done ((), s') /\ wake (pw s') = false /\
      out (sys s') = out (sys s) ++ [Release].
Proof.
  intros Hr Hw. destruct (daemon_good s Hr) as (_ & _ & Ht & Hwk). destruct (Hwk Hw) as [id Hl].
  pose proof (proj1 (Ht id) Hl) as Hid. exists id. split; [done|]. split.
  { intros j Hj%Ht. congruence. }
  intros rs. cbn [run]. unfold userTimerCallback. cbv [mbind ril_bind outcome_bind get]. cbn [with_writes put_sys pw]. rewrite Hid.
  cbv [live_timer p_callback userParam run_wakeTimeoutCallback releaseWakeLock emit put_wake modify mbind ril_bind outcome_bind Z.eqb].
  cbn [pw put_pw put_sys last_wake_timeout_info with_writes]. rewrite Hl, decide_True by done. by eexists.
Qed.

End invariant.
