(* ===== verification/RilRuns.v ===== *)
(** * What the phone process gets, and runs of the radio daemon

    The theorems that answers and the network's time get through, on a system that takes
    what is written in pieces; then a concrete daemon, whose runs show what goes wrong and
    put the theorems of RilInvariant to work. *)

From S2P Require Import Prelude RilParcel RilDispatch RilResponse RilTables Ril RilInvariant.

(** ** What reaches the phone process *)

Section delivery.
Context {P : Type} `{ParcelLaws P} `{JstringLaws} `{RilH'} `{RilNumbers}.
Context (stack : Z -> bool).

(** The system takes at least one byte at a time, and interrupts as it likes. *)
Definition patient (rs : list wres) : Prop := Forall (fun r => match r with Wrote n => (0 < n)%nat | Eintr => True | Failed => False end) rs.
Fixpoint wrotes (rs : list wres) : nat :=
  match rs with
  | [] => 0
  | Wrote _ :: rs => S (wrotes rs)
  | _ :: rs => wrotes rs
  end.

Lemma write_loop_all rs b k :
  patient rs -> (length b + k <= wrotes rs)%nat ->
  exists rest, write_loop rs b = Some (true, b, rest) /\ patient rest /\ (k <= wrotes rest)%nat.
Proof.
  intros Hp. revert b. induction Hp as [|r rs Hr Hp IH]; intros b Hb.
  - cbn in Hb. destruct b; [|cbn in Hb; lia]. exists []. split; [done|]. split; [by constructor|exact Hb].
  - destruct b as [|x b]; [exists (r :: rs); split_and!; [done|by constructor|exact Hb]|].
    destruct r as [n| |]; [|destruct (IH (x :: b)) as (rest & E & Hrest); [exact Hb|by exists rest]|done].
    destruct (IH (drop n (x :: b))) as (rest & E & Hrest).
    { rewrite length_drop. cbn [length wrotes] in *. lia. }
    exists rest. cbn [write_loop]. rewrite E, take_drop. done.
Qed.

Lemma send_all d k s :
  0 <= fdCommand (cn s) -> count d <= MAX_COMMAND_BYTES -> patient (ws (sys s)) -> (4 + length d + k <= wrotes (ws (sys s)))%nat ->
  exists rest, sendResponseRaw d s =
    Done (0, put_sys {| ws := rest; out := out (sys s) ++ [Sent (fdCommand (cn s)) (be32 (count d)); Sent (fdCommand (cn s)) d] |} s) /\
    patient rest /\ (k <= wrotes rest)%nat.
Proof.
  intros Hfd Hd Hp Hw. unfold sendResponseRaw. cbv [mbind ril_bind outcome_bind get].
  rewrite (proj2 (Z.ltb_ge _ _)), (proj2 (Z.ltb_ge _ _)) by done. unfold blockingWrite at 1.
  destruct (write_loop_all (ws (sys s)) (be32 (count d)) (length d + k)) as (r1 & -> & Hp1 & Hw1); [done|cbn; lia|].
  change (0 <? 0) with false. cbv iota. unfold blockingWrite. cbn [sys put_sys ws].
  destruct (write_loop_all r1 d k) as (r2 & -> & Hp2 & Hw2); [done|lia|]. change (0 <? 0) with false. cbv iota.
  exists r2. split; [|done]. cbn. by rewrite <- app_assoc.
Qed.

(** What the parcel of an answer holds behind the token: the vendor's result and the
    layout of the response, or RIL_ERRNO_INVALID_RESPONSE alone. *)
Inductive carries (v : Z) (f : responseFunction) (a : answer) : Z -> list item -> Prop :=
| carries_nothing : a_response a = None -> carries v f a (a_errno a) []
| carries_data d : a_response a = Some d -> answers f (Some d) (a_len a) -> carries v f a (a_errno a) (layout v f (Some d))
| carries_refusal d : a_response a = Some d -> length_ok f (a_len a) = false -> carries v f a RIL_ERRNO_INVALID_RESPONSE [].

Lemma answer_parcel_items v tok f a e l :
  carries v f a e l ->
  exists p : P, answer_parcel v tok f (a_errno a) (a_response a) (a_len a) = Done p /\
    holds p ([I32 RESPONSE_SOLICITED; I32 tok; I32 e] ++ l).
Proof.
  intros Hc. unfold answer_parcel.
  assert (written (writeInt32 (writeInt32 (p_new (P := P)) RESPONSE_SOLICITED) tok) [I32 RESPONSE_SOLICITED; I32 tok]) as Hh.
  { apply (int_written _ [I32 RESPONSE_SOLICITED]), (int_written _ []), new_written. }
  pose proof (int_written _ _ (a_errno a) Hh) as Hp. cbn [app] in Hp.
  destruct Hc as [->|d -> Ha|d -> Hl].
  - eexists. split; [done|]. apply Hp.
  - destruct (respond_lays v f (Some d) (a_len a) _ Ha _ Hp) as (p' & E & Hw). cbn. rewrite E. exists p'. split; [done|apply Hw].
  - rewrite (respond_refuses v f (Some d)) by (right; by split). eexists. split; [done|].
    destruct Hh as [Hh He]. destruct Hp as [Hp _]. by apply (overwrite_law _ _ [I32 RESPONSE_SOLICITED; I32 tok] [] (a_errno a)).
Qed.

(** C24 (liveness). An answer gets through: when the connection is up and the system takes
    what is written, if only byte by byte and with interruptions, the answer of a request
    that came from the phone process is written there as one packet, its length before
    it, with the request's token and the vendor's result and data; data that does not
    fit is reported as invalid.  The request is freed.  Two conditions: the parcel has at
    most MAX_COMMAND_BYTES bytes (a longer one is dropped), and the request is not
    RIL_REQUEST_BASEBAND_VERSION (its data is replaced by a property). *)
Theorem answer_delivered s pRI a ri name g f baseband rs e l :
  reach stack s -> (pRI, a) ∈ completing (rq s) -> heap (rq s) !! pRI = Some ri -> live ri ->
  s_commands !! pCI ri = Some (name, Some (g, f)) -> name <> "RIL_REQUEST_BASEBAND_VERSION"%string ->
  carries (version s) f a e l ->
  (forall p : P, holds p ([I32 RESPONSE_SOLICITED; I32 (token ri); I32 e] ++ l) ->
     count (data p) <= MAX_COMMAND_BYTES /\ (4 + length (data p) <= wrotes rs)%nat) ->
  0 <= fdCommand (cn s) -> patient rs ->
  exists (p : P) s', run stack (AEnd pRI baseband) (with_writes rs s) = Done ((), s') /\
    holds p ([I32 RESPONSE_SOLICITED; I32 (token ri); I32 e] ++ l) /\
    out (sys s') = out (sys s) ++ [Answered (serial ri) (born ri) (a_epoch a) (epoch (cn s));
                                   Sent (fdCommand (cn s)) (be32 (count (data p))); Sent (fdCommand (cn s)) (data p)] /\
    heap (rq s') = delete pRI (heap (rq s)) /\ pRI ∉ (completing (rq s')).*1.
Proof.
  intros Hr Hin Hl [Hcan Hloc] Hrow Hname Hc Hsize Hfd Hp.
  destruct (answer_parcel_items (version s) (token ri) f a e l Hc) as (p & E & Hh). destruct (Hsize p Hh) as [Hmax Hw].
  destruct (daemon_good stack s Hr) as (Hok & _).
  assert (list_find (fun x => x.1 = pRI) (completing (rq s)) <> None) as Hfind.
  { destruct (list_find_elem_of (fun x => x.1 = pRI) (completing (rq s)) (pRI, a) Hin eq_refl) as [x ->]. done. }
  destruct (list_find (fun x => x.1 = pRI) (completing (rq s))) as [[k [i a']]|] eqn:Ef; [|done].
  assert (a' = a) as ->.
  { apply list_find_Some in Ef as (Hk & Hi & _). cbn in Hi. subst i. apply list_elem_of_lookup in Hin as [k' Hk'].
    pose proof (ids_nodup _ _ _ Hok) as Hnd. apply NoDup_app in Hnd as (_ & _ & Hnd).
    assert (k = k') as ->; [|congruence]. apply (NoDup_lookup _ k k' pRI Hnd); by rewrite list_lookup_fmap, ?Hk, ?Hk'. }
  exists p. cbn [run]. cbv [mbind ril_bind outcome_bind get]. cbn [with_writes put_sys rq]. rewrite Ef.
  unfold complete_end. cbv [mbind ril_bind outcome_bind get]. cbn [with_writes put_sys rq]. rewrite Hl, Hloc, Hrow, (decide_False (P := name = _)), Hcan by done.
  unfold lift. cbn [with_writes put_sys version]. rewrite E. cbv [emit modify sendResponse].
  match goal with |- context [sendResponseRaw _ ?s0] => set (s1 := s0) end.
  destruct (send_all (data p) 0 s1) as (rest & Es & _).
  - done.
  - done.
  - done.
  - cbn. lia.
  - rewrite Es. eexists. split; [reflexivity|]. split; [done|]. cbn. split; [by rewrite <- app_assoc|]. split; [done|].
    intros Hi. apply list_elem_of_fmap in Hi as ([j b] & -> & Hj). apply list_elem_of_filter in Hj as [Hj _]. done.
Qed.

(** *** The time of the network *)

Lemma schedule_run id s :
  timer_ok (pw s) -> exists s',
    (cancel_last;; i ← internalRequestTimedCallback wakeTimeoutCallback 0 id; put_last (Some i)) s = Done ((), s') /\
    sys s' = sys s /\ cn s' = cn s /\ lastNITZTimeData (pw s') = lastNITZTimeData (pw s).
Proof.
  intros Ht. destruct s as [reg ver c r [wk tm last nz] io]. unfold cancel_last. cbv [mbind ril_bind outcome_bind get].
  cbn [pw last_wake_timeout_info timers]. destruct last as [l|]; [|by eexists].
  pose proof (proj1 (Ht l) eq_refl) as Hl. cbn in Hl. rewrite Hl. by eexists.
Qed.

(** An event that wakes the device and whose data is fine, up to the point where it has
    been sent or not. *)
Lemma unsol_run s k name f d n time radio id p ret s2 :
  registerCalled s = true -> s_unsolResponses !! k = Some (name, f, WAKE_PARTIAL) ->
  respond (version s) f (writeInt32 (writeInt32 p_new RESPONSE_UNSOLICITED) (Z.of_nat k + RIL_UNSOL_RESPONSE_BASE)) d n = Done (p, 0) ->
  timer_ok (pw s) ->
  sendResponse (unsol_tail name time radio p)
    (put_pw {| wake := true; timers := timers (pw s); last_wake_timeout_info := last_wake_timeout_info (pw s);
               lastNITZTimeData := lastNITZTimeData (pw s) |}
       (put_sys {| ws := ws (sys s); out := out (sys s) ++ [Acquire] |} s)) = Done (ret, s2) ->
  pw s2 = {| wake := true; timers := timers (pw s); last_wake_timeout_info := last_wake_timeout_info (pw s);
             lastNITZTimeData := lastNITZTimeData (pw s) |} ->
  exists s', RIL_onUnsolicitedResponse (Z.of_nat k + RIL_UNSOL_RESPONSE_BASE) d n time radio id s = Done ((), s') /\
    sys s' = sys s2 /\ cn s' = cn s2 /\
    lastNITZTimeData (pw s') =
      (if negb (ret =? 0) && bool_decide (name = "RIL_UNSOL_NITZ_TIME_RECEIVED"%string)
       then Some (data (unsol_tail name time radio p)) else lastNITZTimeData (pw s)).
Proof.
  destruct s as [reg ver c r [wk tm last nz] [rs evs]].
  cbv [registerCalled version cn rq pw sys wake timers last_wake_timeout_info lastNITZTimeData put_pw put_sys ws out].
  intros -> Hk Hp Ht Hs Hpw.
  change (pw s2 = {| wake := true; timers := tm; last_wake_timeout_info := last; lastNITZTimeData := nz |}) in Hpw. pose proof (lookup_lt_Some _ _ _ Hk) as Hlen.
  unfold RIL_onUnsolicitedResponse. cbv [mbind ril_bind outcome_bind get]. cbn [registerCalled negb].
  replace (Z.of_nat k + RIL_UNSOL_RESPONSE_BASE - RIL_UNSOL_RESPONSE_BASE) with (Z.of_nat k) by lia.
  rewrite (proj2 (Z.ltb_ge _ _)), (proj2 (Z.leb_gt _ _)), Nat2Z.id by lia. cbn [orb]. rewrite Hk.
  cbv [grabPartialWakeLock emit put_wake modify mbind ril_bind outcome_bind lift].
  cbv [registerCalled version cn rq pw sys wake timers last_wake_timeout_info lastNITZTimeData put_pw put_sys ws out].
  rewrite Hp. cbv iota beta. change (negb (0 =? 0)) with false. cbv beta iota. rewrite Hs.
  set (s3 := if negb (ret =? 0) && bool_decide (name = "RIL_UNSOL_NITZ_TIME_RECEIVED"%string)
             then put_pw {| wake := true; timers := tm; last_wake_timeout_info := last;
                            lastNITZTimeData := Some (data (unsol_tail name time radio p)) |} s2 else s2).
  destruct (schedule_run id s3) as (s' & E & Hsys & Hcn & Hnz).
  { unfold s3. destruct (_ && _); [done|]. by rewrite Hpw. }
  exists s'. split; [|split; [|split]].
  - rewrite <- E. unfold s3. destruct (_ && _); [|done]. cbv [put_nitz modify]. cbv zeta. by rewrite Hpw.
  - etransitivity; [exact Hsys|]. unfold s3. by destruct (_ && _).
  - etransitivity; [exact Hcn|]. unfold s3. by destruct (_ && _).
  - etransitivity; [exact Hnz|]. unfold s3. destruct (_ && _); [done|]. by rewrite Hpw.
Qed.

Lemma nitz_row : s_unsolResponses !! 8%nat = Some ("RIL_UNSOL_NITZ_TIME_RECEIVED"%string, ResponseString, WAKE_PARTIAL).
Proof. reflexivity. Qed.
Lemma radio_row : s_unsolResponses !! 0%nat = Some ("RIL_UNSOL_RESPONSE_RADIO_STATE_CHANGED"%string, ResponseVoid, WAKE_PARTIAL).
Proof. reflexivity. Qed.

Lemma nitz_kept s t n time radio id rs :
  reach stack s -> registerCalled s = true -> fdCommand (cn s) < 0 ->
  exists s' (p : P), run stack (AUnsol (8 + RIL_UNSOL_RESPONSE_BASE) (Some (DString t)) n time radio id) (with_writes rs s) = Done ((), s') /\
    holds p [I32 RESPONSE_UNSOLICITED; I32 (8 + RIL_UNSOL_RESPONSE_BASE); str (Some t); I64 time] /\
    lastNITZTimeData (pw s') = Some (data p).
Proof.
  intros Hr Hreg Hfd. destruct (daemon_good stack s Hr) as (_ & _ & Ht & _).
  set (p0 := writeInt32 (writeInt32 (p_new (P := P)) RESPONSE_UNSOLICITED) (Z.of_nat 8 + RIL_UNSOL_RESPONSE_BASE)).
  set (p1 := writeStringToParcel p0 (Some t)).
  destruct (unsol_run (with_writes rs s) 8 _ _ (Some (DString t)) n time radio id p1 (-1)
    (put_pw {| wake := true; timers := timers (pw s); last_wake_timeout_info := last_wake_timeout_info (pw s);
               lastNITZTimeData := lastNITZTimeData (pw s) |}
       (put_sys {| ws := rs; out := out (sys s) ++ [Acquire] |} s)) Hreg nitz_row) as (s' & E & _ & _ & Hn); try done.
  { unfold sendResponse, sendResponseRaw. cbv [mbind ril_bind outcome_bind get]. cbn. by rewrite (proj2 (Z.ltb_lt _ _)). }
  exists s', (writeInt64 p1 time). split; [exact E|]. split; [|exact Hn].
  assert (written p0 [I32 RESPONSE_UNSOLICITED; I32 (8 + RIL_UNSOL_RESPONSE_BASE)]) as H0'.
  { apply (int_written _ [_]), (int_written _ []), new_written. }
  pose proof (string_written _ _ (Some t) H0') as H1'. by apply (int64_written _ _ time) in H1' as [H1' _].
Qed.

Lemma connect_delivers s d acc radio id v rs :
  reach stack s -> registerCalled s = true -> listening (cn s) = true -> lastNITZTimeData (pw s) = Some d ->
  0 <= acc -> count d <= MAX_COMMAND_BYTES ->
  (forall p : P, holds p [I32 RESPONSE_UNSOLICITED; I32 RIL_UNSOL_RESPONSE_BASE; I32 radio] ->
     count (data p) <= MAX_COMMAND_BYTES /\ (8 + length (data p) + length d <= wrotes rs)%nat) ->
  patient rs ->
  exists s' (p : P), run stack (AListen acc true radio id v) (with_writes rs s) = Done ((), s') /\
    holds p [I32 RESPONSE_UNSOLICITED; I32 RIL_UNSOL_RESPONSE_BASE; I32 radio] /\
    out (sys s') = out (sys s) ++ [Acquire; Sent acc (be32 (count (data p))); Sent acc (data p);
                                   Sent acc (be32 (count d)); Sent acc d; PropertySet v] /\
    fdCommand (cn s') = acc /\ lastNITZTimeData (pw s') = None.
Proof.
  intros Hr Hreg Hl Hnz Hacc Hd Hsize Hp. destruct (daemon_good stack s Hr) as (_ & (Hc & _) & Ht & _).
  destruct (Hc Hl) as [Hcm Hfd].
  set (p1 := writeInt32 (writeInt32 (p_new (P := P)) RESPONSE_UNSOLICITED) (Z.of_nat 0 + RIL_UNSOL_RESPONSE_BASE)).
  set (p := writeInt32 p1 radio).
  assert (holds p [I32 RESPONSE_UNSOLICITED; I32 RIL_UNSOL_RESPONSE_BASE; I32 radio]) as Hh.
  { apply (int_written _ [_; _]), (int_written _ [_]), (int_written _ []), new_written. }
  destruct (Hsize p Hh) as [Hmax Hw].
  destruct s as [reg ver [fl fc li co ep] r [wk tm last nz] [rs0 evs]].
  cbn [registerCalled cn listening pw lastNITZTimeData fdCommand commanding sys out] in *. subst reg li nz co.
  set (s1 := mk_st true ver {| fdListen := fl; fdCommand := acc; listening := false; commanding := Some acc; epoch := ep + 1 |} r
               {| wake := wk; timers := tm; last_wake_timeout_info := last; lastNITZTimeData := Some d |} {| ws := rs; out := evs |}).
  assert (run stack (AListen acc true radio id v) (with_writes rs (mk_st true ver
    {| fdListen := fl; fdCommand := fc; listening := true; commanding := None; epoch := ep |} r
    {| wake := wk; timers := tm; last_wake_timeout_info := last; lastNITZTimeData := Some d |} {| ws := rs0; out := evs |})) =
    onNewCommandConnect radio id v s1) as ->.
  { cbn [run]. unfold listenCallback. cbv [mbind ril_bind outcome_bind get assert]. cbn [with_writes put_sys cn fdCommand].
    rewrite (proj2 (Z.ltb_lt _ _)) by done. cbn -[onNewCommandConnect]. rewrite (proj2 (Z.ltb_ge _ _)) by done. reflexivity. }
  destruct (send_all (data p) (4 + length d)%nat (mk_st true ver (cn s1) r
    {| wake := true; timers := tm; last_wake_timeout_info := last; lastNITZTimeData := Some d |}
    {| ws := rs; out := evs ++ [Acquire] |})) as (r1 & E1 & Hp1 & Hw1); [done|done|done|cbn -[data]; lia|].
  destruct (unsol_run s1 0 _ _ None 0 0 radio id p1 0 _ eq_refl radio_row eq_refl Ht E1 eq_refl) as (s2 & E2 & Hsys & Hcn & Hn2).
  cbn [negb Z.eqb andb] in Hn2. cbn in Hsys, Hcn, Hn2.
  destruct (send_all d 0 s2) as (r2 & E3 & _).
  { by rewrite Hcn. }
  { done. }
  { by rewrite Hsys. }
  { rewrite Hsys. cbn. lia. }
  unfold onNewCommandConnect. cbv [mbind ril_bind outcome_bind get]. change (Z.of_nat 0 + RIL_UNSOL_RESPONSE_BASE) with RIL_UNSOL_RESPONSE_BASE in E2.
  rewrite E2, Hn2.
  rewrite E3. eexists _, p. split; [reflexivity|]. split; [done|]. cbn. rewrite Hsys, Hcn. cbn. split; [|done].
  by rewrite <- !app_assoc.
Qed.

(** The network's time is not lost: when it cannot be sent because the
    phone process is not connected, the event with the time it was received is kept, and
    the next connection gets it, after the radio state, unchanged; it is then forgotten. *)
Theorem nitz_kept_and_delivered s rs :
  reach stack s -> registerCalled s = true ->
  (forall t n time radio id, fdCommand (cn s) < 0 ->
     exists s' (p : P), run stack (AUnsol (8 + RIL_UNSOL_RESPONSE_BASE) (Some (DString t)) n time radio id) (with_writes rs s) = Done ((), s') /\
       holds p [I32 RESPONSE_UNSOLICITED; I32 (8 + RIL_UNSOL_RESPONSE_BASE); str (Some t); I64 time] /\
       lastNITZTimeData (pw s') = Some (data p)) /\
  (forall d acc radio id v, listening (cn s) = true -> lastNITZTimeData (pw s) = Some d -> 0 <= acc -> count d <= MAX_COMMAND_BYTES ->
     (forall p : P, holds p [I32 RESPONSE_UNSOLICITED; I32 RIL_UNSOL_RESPONSE_BASE; I32 radio] ->
        count (data p) <= MAX_COMMAND_BYTES /\ (8 + length (data p) + length d <= wrotes rs)%nat) ->
     patient rs ->
     exists s' (p : P), run stack (AListen acc true radio id v) (with_writes rs s) = Done ((), s') /\
       holds p [I32 RESPONSE_UNSOLICITED; I32 RIL_UNSOL_RESPONSE_BASE; I32 radio] /\
       out (sys s') = out (sys s) ++ [Acquire; Sent acc (be32 (count (data p))); Sent acc (data p);
                                      Sent acc (be32 (count d)); Sent acc d; PropertySet v] /\
       fdCommand (cn s') = acc /\ lastNITZTimeData (pw s') = None).
Proof. intros Hr Hreg. split; intros; [by apply nitz_kept|by apply connect_delivers]. Qed.

End delivery.

(** ** Runs *)

Import Wire.

#[local] Instance numbers : RilNumbers :=
  {| number n := match place n with Some (inl i) => Z.of_nat i | Some (inr k) => Z.of_nat k + 1000 | None => -1 end;
     RIL_UNSOL_RESPONSE_BASE := 1000; RIL_VERSION := 3 |}.
#[local] Instance ril_h : RilH :=
  {| sizeof := sizes; RIL_CDMA_SMS_ADDRESS_MAX := 36; RIL_CDMA_SMS_SUBADDRESS_MAX := 36; RIL_CDMA_SMS_BEARER_DATA_MAX := 255 |}.
#[local] Instance ril_h' : RilH' :=
  {| info_number := info_numbers; RIL_CDMA_MAX_NUMBER_OF_INFO_RECS := 10;
     CDMA_ALPHA_INFO_BUFFER_LENGTH := 64; CDMA_NUMBER_INFO_BUFFER_LENGTH := 81 |}.

Definition room (n : Z) : bool := n <? 8192.
Definition go (a : action) (rs : list wres) (s : st) : outcome (() * st) := run (P := wire) room a (with_writes rs s).
Definition after (a : action) (rs : list wres) (s : st) : st := match go a rs s with Done (_, s') => s' | _ => s end.

Fixpoint afters (l : list (action * list wres)) (s : st) : st :=
  match l with
  | [] => s
  | (a, rs) :: l => afters l (after a rs s)
  end.

(** Every action was possible and ended. *)
Fixpoint possible (l : list (action * list wres)) (s : st) : Prop :=
  match l with
  | [] => True
  | (a, rs) :: l => enabled s a /\ (exists s', go a rs s = Done ((), s')) /\ possible l (after a rs s)
  end.

Lemma afters_reach l s : reach (P := wire) room s -> possible l s -> reach (P := wire) room (afters l s).
Proof.
  revert s. induction l as [|[a rs] l IH]; intros s Hs; [done|]. intros (He & (s' & E) & Hp). cbn. apply IH; [|done].
  unfold after in *. rewrite E in *. eapply reach_step; [exact Hs|]. by eapply step_run.
Qed.

Definition plenty : list wres := Eval vm_compute in replicate 40 (Wrote 50).

(** Registration, a connection, a request for the IMSI with token 7, the vendor's answer. *)
Definition imsi_request : bytes := Eval vm_compute in [I32 11; I32 7] ≫= enc.
Definition boot : list (action * list wres) :=
  [(ARegister (Some 3) 10 0 11 0, []); (AListen 20 true 1 100 (Some (bs "1.0")), plenty)].
Definition asked : list (action * list wres) := boot ++ [(ACommand (Record imsi_request) 500 0, [])].
Definition taken : list (action * list wres) := asked ++ [(ABegin 500 0 (Some (DString (bs "2620"))) 4, [])].

Ltac enabled_now :=
  repeat match goal with
         | |- _ /\ _ => split
         | |- True => exact I
         | |- is_Some _ => eexists; vm_compute; reflexivity
         | |- _ ∈ _ => by_compute
         | |- _ <> _ => discriminate
         | |- _ = _ => vm_compute; reflexivity
         end.
Ltac possible_now :=
  cbn [possible app];
  repeat (split; [unfold enabled, new_req, new_timer; enabled_now|split; [eexists; vm_compute; reflexivity|]]); exact I.

Lemma taken_reach : reach (P := wire) room (afters taken init).
Proof. apply afters_reach; [apply reach_init|]. unfold taken, asked, boot. possible_now. Qed.

(** ** What goes wrong *)

(** A request whose payload cannot be read stays pending for ever: the vendor never hears
    of it, and the phone process gets no answer. *)
Lemma invalid_block_is_kept :
  let s := after (ACommand (Record ([I32 12; I32 9; I32 0] ≫= enc)) 500 0) [] (afters boot init) in
  pendingRequests (rq s) = [500] /\ out (sys s) = out (sys (afters boot init)).
Proof. vm_compute. done. Qed.

(** The answer is taken off the list, then the phone process goes away and comes back:
    the answer to the old request is written to the new connection. *)
Definition late : list (action * list wres) :=
  taken ++ [(ACommand EndOfStream 501 0, []); (AListen 21 true 1 101 None, plenty); (AEnd 500 [], plenty)].
Lemma late_answer :
  reach (P := wire) room (afters late init) /\ Answered 0 1 1 2 ∈ out (sys (afters late init)) /\
  last (out (sys (afters late init))) = Some (Sent 21 ([I32 0; I32 7; I32 0; Str (Some (bs "2620"))] ≫= enc)).
Proof.
  split; [|split; [by_compute || (vm_compute; repeat (left || right))|vm_compute; reflexivity]].
  apply afters_reach; [apply reach_init|]. unfold late, taken, asked, boot. possible_now.
Qed.

(** A failing write closes the connection, but its number is kept: the end of the
    stream closes it again. *)
Lemma closed_twice :
  let s := afters (taken ++ [(AEnd 500 [], [Failed]); (ACommand Broken 501 0, [])]) init in
  omap (fun e => match e with Closed fd => Some fd | _ => None end) (out (sys s)) = [20; 20].
Proof. vm_compute. reflexivity. Qed.

(** The debug port closes the connection but leaves its event: the next turn of the
    event loop fails the assertion. *)
Lemma debug_off_asserts :
  go (ACommand EndOfStream 502 0) [] (after (ADebug 30 (Some [bs "1"]) 501 502 1 101) [] (afters boot init)) = Stop "assert".
Proof. vm_compute. reflexivity. Qed.

(** [RIL_onUnsolicitedResponse] looks whether there is a wake timer and then marks it
    as cancelled, without a lock: when the timer fires between the two, what is marked
    has been freed. *)
Definition mark_cancelled (id : Z) : ril () :=
  s ← get;
  match timers (pw s) !! id with
  | None => undef "timer freed"
  | Some info => put_timers (<[id := {| p_callback := p_callback info; userParam := 1 |}]> (timers (pw s)))
  end.

Lemma cancel_last_steps s0 :
  cancel_last s0 = (s ← get; match last_wake_timeout_info (pw s) with None => mret () | Some id => mark_cancelled id end) s0.
Proof. unfold cancel_last. cbv [mbind ril_bind outcome_bind get]. by destruct (last_wake_timeout_info (pw s0)). Qed.

Lemma wake_timer_race :
  let s := afters boot init in
  last_wake_timeout_info (pw s) = Some 100 /\ (exists s1, mark_cancelled 100 s = Done ((), s1)) /\
  mark_cancelled 100 (after (ATimer 100) [] s) = Undef "timer freed".
Proof. split; [vm_compute; reflexivity|]. split; [eexists; vm_compute; reflexivity|vm_compute; reflexivity]. Qed.

(** An event whose data is refused releases the wake lock that the event before it
    still holds. *)
Lemma refused_event_releases :
  let s := after (AUnsol 1005 (Some (DInts [1])) 3 0 0 101) [] (afters boot init) in
  wake (pw (afters boot init)) = true /\ wake (pw s) = false /\ timers (pw s) !! 100 = Some live_timer.
Proof. vm_compute. done. Qed.

(** ** The theorems at work *)

Lemma answered_once_witness :
  reach (P := wire) room (afters late init) /\ NoDup (answered (out (sys (afters late init)))).
Proof.
  assert (reach (P := wire) room (afters late init)) as Hr.
  { apply afters_reach; [apply reach_init|]. unfold late, taken, asked, boot. possible_now. }
  split; [exact Hr|]. apply (answered_once room _ Hr).
Defined.

(** A vendor that answers with a card whose applications are not there. *)
Lemma no_freed_request_witness :
  let a := AUnsol 1003 (Some (DInts [1])) 4 0 0 101 in
  go a [] (afters boot init) = Undef "data: not a string" /\ ~ request_fault "data: not a string".
Proof.
  assert (reach (P := wire) room (afters boot init)) as Hr.
  { apply afters_reach; [apply reach_init|]. unfold boot. possible_now. }
  intros a. assert (go a [] (afters boot init) = Undef "data: not a string") as E by (vm_compute; reflexivity).
  split; [exact E|]. apply (no_freed_request room (afters boot init) a [] _ Hr); [|exact E]. vm_compute. reflexivity.
Defined.

Lemma wake_lock_released_witness :
  wake (pw (afters boot init)) = true /\ exists id, timers (pw (afters boot init)) !! id = Some live_timer.
Proof.
  assert (reach (P := wire) room (afters boot init)) as Hr.
  { apply afters_reach; [apply reach_init|]. unfold boot. possible_now. }
  assert (wake (pw (afters boot init)) = true) as Hw by (vm_compute; reflexivity). split; [exact Hw|].
  destruct (wake_lock_released room _ Hr Hw) as (id & Hid & _). exists id. exact Hid.
Defined.

Lemma answer_delivered_witness :
  exists (p : wire) s', go (AEnd 500 []) plenty (afters taken init) = Done ((), s') /\
    holds p [I32 0; I32 7; I32 0; str (Some (bs "2620"))].
Proof.
  assert (reach (P := wire) room (afters taken init)) as Hr.
  { apply afters_reach; [apply reach_init|]. unfold taken, asked, boot. possible_now. }
  set (a := {| a_errno := 0; a_response := Some (DString (bs "2620")); a_len := 4; a_epoch := 1 |}).
  set (ri := {| token := 7; pCI := 11; cancelled := false; local := false; born := 1; serial := 0 |}).
  assert ((500, a) ∈ completing (rq (afters taken init))) as Hin by (vm_compute; left).
  assert (heap (rq (afters taken init)) !! 500 = Some ri) as Hl by (vm_compute; reflexivity).
  assert (s_commands !! pCI ri = Some ("RIL_REQUEST_GET_IMSI"%string, Some (DispatchVoid, ResponseString))) as Hrow by reflexivity.
  assert (carries 3 ResponseString a 0 (layout 3 ResponseString (Some (DString (bs "2620"))))) as Hc.
  { by apply (carries_data 3 ResponseString a). }
  destruct (answer_delivered room (afters taken init) 500 a ri "RIL_REQUEST_GET_IMSI" DispatchVoid ResponseString []
    plenty 0 (layout 3 ResponseString (Some (DString (bs "2620")))) Hr Hin Hl) as (p & s' & E & Hh & _).
  - by split.
  - exact Hrow.
  - discriminate.
  - exact Hc.
  - intros p Hp. cbn in Hp. unfold count. cbn [data wire_parcel]. rewrite Hp. by_compute.
  - vm_compute. discriminate.
  - unfold patient, plenty. repeat constructor.
  - exists p, s'. split; [exact E|exact Hh].
Defined.

(** The time arrives while nobody is connected, and then somebody connects. *)
Definition unconnected : list (action * list wres) := [(ARegister (Some 3) 10 0 11 0, [])].
Lemma nitz_kept_and_delivered_witness :
  exists s' (p : wire), go (AUnsol 1008 (Some (DString (bs "26/07/01"))) 8 77 0 100) [] (afters unconnected init) = Done ((), s') /\
    holds p [I32 1; I32 1008; str (Some (bs "26/07/01")); I64 77] /\ lastNITZTimeData (pw s') = Some (data p).
Proof.
  assert (reach (P := wire) room (afters unconnected init)) as Hr.
  { apply afters_reach; [apply reach_init|]. unfold unconnected. possible_now. }
  assert (registerCalled (afters unconnected init) = true) as Hreg by (vm_compute; reflexivity).
  destruct (nitz_kept_and_delivered room _ [] Hr Hreg) as [Hk _].
  apply (Hk (bs "26/07/01") 8 77 0 100). vm_compute. reflexivity.
Defined.
